(* ===== verification/_CoqProject ===== *)
-Q . S2P
Prelude.v
Machine.v
Tables.v
UserUtils.v
FrameTracking.v
FrameModel.v
Pcb.v
Paging.v
KernelMemory.v
UserMemory.v
AddressSpace.v
Fifo.v
SleepHeap.v
Scheduler.v
Waiters.v
Identifiers.v
PipeBuffer.v
Locks.v
LockTables.v
Frame.v
CondVars.v
PipeTable.v
Terminals.v
Kernel.v
DemoKernel.v
Switching.v
MonitorWorld.v
PipeCalls.v
TtyCalls.v
Synchronization.v
LoadProgram.v
Syscalls.v
HeapFrame.v
UserBuffers.v
PipeWorld.v
TtyWorld.v
Processes.v
WaitExit.v
Exiting.v
ExecImage.v
Exec.v
KernelStart.v
Boot.v
Interrupt.v
Faults.v
ProcessWorld.v
ProcessCalls.v
ProcessExit.v
ProcessFork.v
ProcessExec.v
ProcessClock.v
ProcessTraps.v
ProcessSafety.v
BootWorld.v
Monitor.v
UserLib.v
UserPrograms.v
Torture.v
UserSafety.v
Echo.v
InitPrograms.v
UserSystem.v
PipeTest.v
SemTest.v
KernelPipes.v
KernelMonitor.v
