(* ===== verification/Prelude.v ===== *)
(** * A verification development for the Yalnix kernel

    Yalnix is a teaching kernel in C for the DCS58, a virtual 32-bit machine:
    processes with their own address space, a round-robin scheduler, pipes,
    locks, semaphores, condition variables and terminals.  This development
    translates the kernel ([src/yalnix_framework/src] and [headers]) into
    executable Rocq functions, keeping names and structure, and proves what its
    components and its system calls guarantee.  It also translates the user
    programs ([user]) and shows what they do on a kernel that keeps its promises.

    ** How the code is modelled

    A C function is a computation in [M S], a state monad with failure
    ([Prelude]): the state [S] is a record of the static variables the function
    works on, [None] is undefined behaviour (a bad index, a freed block, a
    dereferenced NULL) or a memory trap inside of the kernel.  Functions of one
    component run on the state of a larger one through a lens ([zoom]); the
    whole state is [Kernel.kstate].  [wp x Q s] says that [x] run on [s] ends,
    without undefined behaviour, in a result and a state that satisfy [Q]:
    every theorem of the form "... = Some (r, s')" is one of total correctness.

    Pointers to process control blocks are addresses in a heap ([Pcb.store]), so
    aliasing is that of the code; the queues are threaded through the [next]
    fields of the blocks as in the code.  Integers are [Z], wrapped to 32 bits
    ([to_i32], [to_u32]) where registers and the clock are read.  User memory is
    physical memory seen through a page table; a read or write of the kernel
    at a user address is translated each time.

    A call that blocks switches to another process in the middle of a C
    function.  What the process left behind has still to do is a value
    ([Pcb.kcontext]) saved in its block; [Interrupt.resume] runs it when the
    process goes on.

    A user program is an interaction tree ([UserLib.prog]) whose events are the
    calls of the user library and of [malloc], [free] and [rand], and the
    accesses to addresses that are not variables; undefined behaviour is an event
    too.  One program is run against a specification of its environment: [always]
    says that all its calls are allowed, however long it runs, [ends] that it
    also comes to an end.  Several programs run on an abstract kernel
    ([UserSystem]), a step relation in which any process whose call can be
    answered may go on; [surely good s] says that every run from [s] is finite
    and ends well.  [KernelPipes] and [KernelMonitor] link the abstract kernel to
    the translated one: its pipes, locks, semaphores and condition variables are
    refined by those of the code.

    ** Parameters

    Code that is not in the repository is a class, with what the kernel relies
    on as a class of laws:
    - [Machine], [MachineOk]: the constants and macros of [hardware.h],
      [ykernel.h], [yalnix.h]; [demo_machine] is an instance;
    - [PidHelper], [PidHelperOk]: the library that numbers processes;
    - [Files]: opening, recognising and reading an executable;
    - [SyscallCodes], [SyscallCodesOk]: the numbers of the calls;
    - [Boot]: the command line and the address of the idle loop;
    - [UserMachine], [UserMachineOk]: the numbers of the terminals, the address of
      the array of [bigstack.c] and what is in an array nothing was written to.
    The outcomes of [malloc] are a list in the heap ([st_malloc]); it
    succeeds when the list is empty.  The theorems quantify over the list, but
    for those on fork, wait, exit and exec, which take memory to be enough.

    ** The files, in the order of their dependencies

    - [Prelude]: the monad, its weakest preconditions and tactics, equality of
      computations ([meq], a setoid), C arrays and loops, lenses; [Machine]: the machine, page table entries, user contexts;
      [Tables]: the arrays of entries that grow, shared by three components.
    - [FrameTracking] ([frame_tracking.c]): the bitset of frames, as a set.
    - [Pcb] ([pcb.c]): the heap of blocks and the families of processes.
    - [Paging]: page tables, allocation that undoes itself, for both regions;
      [KernelMemory] ([kernel_memory.c]): region 0 and kernel stacks;
      [UserMemory], [AddressSpace] ([user_memory.c]): region 1 and its copy.
    - [Fifo]: the queues and the interface [FifoQueue] their clients use.
      [SleepHeap], [Scheduler], [Waiters] ([scheduler.c]): the heap of
      sleepers, the queues, the invariant [sched_inv], waking parents.
    - [Identifiers] ([identifiers.h]); [PipeBuffer], [PipeTable], [PipeCalls]
      ([pipe.c]); [Locks], [LockTables], [CondVars], [Synchronization]
      ([synchronization.c]); [Terminals], [TtyCalls] ([tty.c]); [Frame]: what
      the scheduler and the locks leave alone in the blocks they share.
    - [Kernel]: the joined state and the context switch; [DemoKernel]: a
      concrete kernel for the witnesses; [Switching]: the switch as a whole.
    - [LoadProgram] ([load_program.c]), [Syscalls] ([syscalls.c]),
      [KernelStart] ([kernel_start.c]), [Interrupt] ([interrupt.c]).
    - [UserUtils] ([user/utils.c]): [basename].
    - whole calls in the whole state: [UserBuffers] (checked pointers),
      [PipeWorld] (pipe calls), [TtyWorld] (terminal calls), [Processes] (fork), [WaitExit] (wait),
      [Exiting] (exit), [ExecImage] and [Exec] (exec), [Boot] ([KernelStart]),
      [Faults] (the traps a process causes by a mistake).
    - sequences of traps: [MonitorWorld] and [Monitor] (calls on a lock and a
      condition variable, with the clock and the devices); [ProcessWorld] (the
      invariant [world] of all processes), kept by the calls ([ProcessCalls],
      [ProcessExit], [ProcessFork], [ProcessExec]), the clock ([ProcessClock])
      and the trap handlers ([ProcessTraps]), so that it holds at every point
      of a run ([ProcessSafety]), also of one that starts at the boot
      ([BootWorld]).
    - the user programs: [UserLib] (calls, the C library, the logic),
      [UserPrograms] (all of [user/*.c] but [utils.c]), [UserSafety] (bounds, for
      all of them), [InitPrograms] ([init.c], [altinit.c], [forkstack.c],
      [bigstack.c]), [Echo] ([echo.c]), [Torture] ([torture.c]), [UserSystem] (the
      abstract kernel), [PipeTest] ([pipe_test.c]), [SemTest] ([test2.c],
      [test_helper2.c]), [KernelPipes] and [KernelMonitor] (the refinement).
    - helpers of these: [FrameModel], the allocator of frames next to a set of
      free frames; [HeapFrame], what every call leaves true of the heap.

    ** What the theorems show

    - Isolation and memory: frames are handed out once and come back
      ([FrameTracking]), by the answers of a plain set ([FrameModel]); a page
      table maps no frame twice and none that is free ([Paging.table_ok]), which
      each operation keeps; the breaks move with their pages or not at all; a forked address space and kernel stack are
      copies in frames of their own; exit gives every frame back; exec replaces
      the image without losing one; checked buffers can be copied in full.
    - Processes: creation is all or nothing; the lists of children, exited
      children and orphans; fork, wait, exit, exec and the boot in the whole
      state; a process that faults ends, and nothing else does.
    - Safety of the whole ([ProcessSafety.trap_keeps_world],
      [BootWorld.kernel_safe_from_boot]): between two traps every process is in
      one place, every frame in use belongs to one process or to the kernel and
      to nobody else, every family is whole, and no tick, fault or process call
      gets the kernel stuck.  [in_world] is the invariant, [process_step] the
      step relation, [in_world_reachable] the induction.
    - Scheduling: the ready queue is served in order, sleepers wake exactly when
      due and earliest first, waiting parents exactly when a child exited; the
      context switch changes stack, pages and registers together and back.
    - Synchronisation: permits go to the longest waiter, signals wake one
      waiter, broadcasts all; condition waits give up the lock; the tables hand
      out the lowest free entry and drop unneeded ones only.  [Monitor] shows
      as an invariant over all interleavings of traps that every process is in
      exactly one place and that no call runs into undefined behaviour.
    - Communication: the circular buffer of a pipe refines a queue of bytes,
      write and read append and take; lines of terminals are sent whole and
      in turn, and received lines are read in order, by who waited first.

    - User programs: none leaves its arrays or overflows a text; [pipe_test] and
      [test2] with its helpers end well under every schedule, the latter with at
      most as many helpers in their critical sections as the semaphore allows;
      what [echo] prints is a function of what is typed; [init] and [altinit]
      start and supervise what they should; [torture] never ends and uses its
      mutex in order.
    - Refinement: the answers of the kernel's calls on pipes, and its operations
      on locks, semaphores and condition variables, are those of the abstract
      kernel these programs run on, and a process waits in the kernel exactly
      when its call has no answer there.

    ** Bounds and fuel

    Loops of the code that are not counting loops run with fuel, which is
    computed from the state: [find_frame] from the number of frames left,
    doubling a buffer from the size asked for, sifting from the size of the
    heap, scanning a queue from its length, waking readers, broadcasting and
    the end of a trap from the number of blocks, [fetch_string] and [fetch_argv]
    from the bounds of the checks before them.  Out of fuel is undefined
    behaviour, so the theorems above also show that it is enough (for the end
    of a trap: [Monitor], where one step suffices).  Endless loops of user
    programs are [ITree.iter], without fuel; [fmt_d] prints up to 20 digits, and
    32-bit numbers have ten.

    ** Not modelled

    The pseudocode; [TracePrintf]; the user library and the C library between a
    user program and the kernel, of which only the calls are seen, so that
    [malloc] and [TtyPrintf] are events; time in the abstract kernel, where a
    [Delay] may end at any moment; [test.c] and [test_helper.c] under a schedule
    (only their safety is shown: a helper that waits after the broadcast waits
    for ever);
    [do_idle], which only pauses, is an address; the hardware itself, which is
    present as the log of the registers written ([m_events]) and of the device
    commands; closing executables and freeing argument buffers, which have no
    state in the model; that [malloc] may call [SetKernelBrk] itself; the
    overflow of the size of a pipe's buffer beyond 2^31 bytes; what [read] would
    do at an address that is not mapped.

    All the kernel's functions are modelled.  The invariant of all processes is
    about the calls on processes and memory: the calls on pipes, terminals,
    locks and condition variables are covered by [PipeWorld], [TtyWorld],
    [Monitor] and the theorems on their components, not by [world].  It leaves
    out what the code gets wrong: a [Brk] over pages of a stack that has grown,
    a [Fork] that has frames for the pages of the child but not for its kernel
    stack, a status pointer of [Wait] that cannot be written; and an [Exec] of a
    program with pages between its text and its data, which the next [Fork]
    would try to copy. *)

From stdpp Require Export prelude gmap.
From Stdlib Require Export ZArith Lia.

Declare Scope yalnix_scope.
Delimit Scope yalnix_scope with yalnix.
Open Scope Z_scope.

(** ** Machine integers

    The DCS58 is a 32-bit machine: [int] is a signed 32-bit integer and a
    register ([u_long]) an unsigned one. *)

Definition INT_MAX : Z := 2147483647.
Definition to_u32 (x : Z) : Z := x mod 4294967296.
Definition to_i32 (x : Z) : Z := (x + 2147483648) mod 4294967296 - 2147483648.

(** ** C arrays

    An array is a list; an access outside of it is undefined behaviour and
    gives [None]. *)

Definition zget {A} (l : list A) (i : Z) : option A :=
  if decide (0 <= i) then l !! Z.to_nat i else None.
Definition zset {A} (l : list A) (i : Z) (x : A) : option (list A) :=
  if decide (0 <= i < Z.of_nat (length l)) then Some (<[Z.to_nat i := x]> l) else None.
Definition zlen {A} (l : list A) : Z := Z.of_nat (length l).

(** [memcpy] between arrays of the same type: the [n] cells of [l] from [i] on,
    and [l] with the cells of [src] from [i] on. *)
Definition zslice {A} (l : list A) (i n : Z) : option (list A) :=
  if decide (0 <= i /\ 0 <= n /\ i + n <= zlen l)
  then Some (take (Z.to_nat n) (drop (Z.to_nat i) l)) else None.
Definition zblit {A} (l : list A) (i : Z) (src : list A) : option (list A) :=
  if decide (0 <= i /\ i + zlen src <= zlen l)
  then Some (take (Z.to_nat i) l ++ src ++ drop (Z.to_nat (i + zlen src)) l) else None.

(** ** The state monad of the C code

    A C function that reads and writes a state [S] and returns an [A] is a
    [M S A]; [None] is undefined behaviour (a null or dangling dereference, an
    access out of bounds), never an error the C code returns. *)

Definition M (S A : Type) : Type := S -> option (A * S).

#[export] Instance M_ret S : MRet (M S) := fun A a s => Some (a, s).
#[export] Instance M_bind S : MBind (M S) :=
  fun A B k m s => match m s with Some (a, s') => k a s' | None => None end.

Definition ub {S A} : M S A := fun _ => None.
Definition gets {S A} (f : S -> A) : M S A := fun s => Some (f s, s).
Definition modify {S} (f : S -> S) : M S unit := fun s => Some (tt, f s).
Definition lift_opt {S A} (o : option A) : M S A :=
  fun s => match o with Some a => Some (a, s) | None => None end.
Definition when {S} (b : bool) (m : M S unit) : M S unit := if b then m else mret tt.

(** Lenses: a component runs on its own part of a larger state. *)
Class Lens (T S : Type) := { lget : S -> T; lset : T -> S -> S }.
Class LensOk (T S : Type) `{Lens T S} : Prop := {
  lget_lset : forall t s, lget (lset t s) = t;
  lset_lget : forall s, lset (lget s) s = s;
  lset_lset : forall t t' s, lset t (lset t' s) = lset t s
}.
Definition zoom {T S A} `{Lens T S} (m : M T A) : M S A :=
  fun s => match m (lget s) with Some (a, t) => Some (a, lset t s) | None => None end.

#[export] Instance lens_fst A B : Lens A (A * B) :=
  {| lget := fst; lset := fun a p => (a, p.2) |}.
#[export] Instance lens_snd A B : Lens B (A * B) :=
  {| lget := snd; lset := fun b p => (p.1, b) |}.

(** Loops. [for_ n i body] runs [body] at [i], [i+1], ..., [i+n-1];
    [for_ret] stops as soon as the body gives a result (a [return] or a
    [break] in the loop); [while_] takes the fuel it may use, and having used
    it up is [None], so that a specification of a loop says it ends. *)
Fixpoint for_ {S} (n : nat) (i : Z) (body : Z -> M S unit) : M S unit :=
  match n with
  | O => mret tt
  | Datatypes.S n' => body i;; for_ n' (i + 1) body
  end.
Definition for_range {S} (first last : Z) (body : Z -> M S unit) : M S unit :=
  for_ (Z.to_nat (last - first)) first body.

Fixpoint for_ret {S R} (n : nat) (i : Z) (body : Z -> M S (option R)) : M S (option R) :=
  match n with
  | O => mret None
  | Datatypes.S n' =>
      r ← body i;
      match r with Some x => mret (Some x) | None => for_ret n' (i + 1) body end
  end.
Definition for_range_ret {S R} (first last : Z) (body : Z -> M S (option R)) : M S (option R) :=
  for_ret (Z.to_nat (last - first)) first body.

Fixpoint while_ {S} (fuel : nat) (cond : M S bool) (body : M S unit) : M S unit :=
  match fuel with
  | O => ub
  | Datatypes.S fuel' =>
      b ← cond;
      if (b : bool) then body;; while_ fuel' cond body else mret tt
  end.

(** ** Total-correctness weakest preconditions

    [wp m Q s]: run from [s], [m] has no undefined behaviour, ends, and its
    result and final state satisfy [Q]. *)
Definition wp {S A} (m : M S A) (Q : A -> S -> Prop) (s : S) : Prop :=
  match m s with Some (a, s') => Q a s' | None => False end.

Section wp_lemmas.
Context {S A B : Type}.
Implicit Types (s : S) (m : M S A).

Lemma wp_ret (a : A) Q s : Q a s -> wp (mret a : M S A) Q s.
Proof. done. Qed.
Lemma wp_bind m (k : A -> M S B) Q s :
  wp m (fun a s' => wp (k a) Q s') s -> wp (mbind k m) Q s.
Proof. unfold wp, mbind, M_bind. by destruct (m s) as [[a s']|]. Qed.
Lemma wp_bind_inv m (k : A -> M S B) Q s :
  wp (mbind k m) Q s -> wp m (fun a s' => wp (k a) Q s') s.
Proof. unfold wp, mbind, M_bind. by destruct (m s) as [[a s']|]. Qed.
Lemma wp_mono m (Q Q' : A -> S -> Prop) s :
  wp m Q s -> (forall a s', Q a s' -> Q' a s') -> wp m Q' s.
Proof. unfold wp. destruct (m s) as [[a s']|]; eauto. Qed.
Lemma wp_gets (f : S -> A) Q s : Q (f s) s -> wp (gets f) Q s.
Proof. done. Qed.
Lemma wp_modify (f : S -> S) Q s : Q tt (f s) -> wp (modify f) Q s.
Proof. done. Qed.
Lemma wp_lift_opt (o : option A) (a : A) Q s : o = Some a -> Q a s -> wp (lift_opt o) Q s.
Proof. by intros ->. Qed.
Lemma wp_when (b : bool) (m : M S unit) Q s :
  (b = true -> wp m Q s) -> (b = false -> Q tt s) -> wp (when b m) Q s.
Proof. destruct b; simpl; auto. intros _ H. by apply H. Qed.
Lemma wp_conj m (Q Q' : A -> S -> Prop) s :
  wp m Q s -> wp m Q' s -> wp m (fun a s' => Q a s' /\ Q' a s') s.
Proof. unfold wp. by destruct (m s) as [[a s']|]. Qed.
Lemma wp_run m Q s : wp m Q s <-> exists a s', m s = Some (a, s') /\ Q a s'.
Proof.
  unfold wp. destruct (m s) as [[a s']|]; split; try done.
  - eauto.
  - by intros (? & ? & [= -> ->] & ?).
  - by intros (? & ? & ? & ?).
Qed.
End wp_lemmas.

Lemma wp_zoom {T S A} `{Lens T S} (m : M T A) Q (s : S) :
  wp m (fun a t => Q a (lset t s)) (lget s) -> wp (zoom m) Q s.
Proof. unfold wp, zoom. by destruct (m (lget s)) as [[a t]|]. Qed.

(** ** Equal computations

    Two computations that behave alike from every state; what runs one of them
    may be rewritten to run the other. *)
Definition meq {S A} : relation (M S A) := pointwise_relation S eq.
Notation "x ≡ₘ y" := (meq x y) (at level 70) : yalnix_scope.
Open Scope yalnix_scope.

Section meq.
Context {S A B : Type}.

#[export] Instance meq_equivalence : Equivalence (@meq S A).
Proof. unfold meq. apply _. Qed.
#[export] Instance bind_proper :
  Proper (pointwise_relation A meq ==> meq ==> meq) (mbind (M := M S) (A := A) (B := B)).
Proof. intros k k' Hk m m' Hm s. unfold mbind, M_bind. rewrite Hm. case_match; [|done]. case_match. by apply Hk. Qed.
#[export] Instance wp_proper : Proper (meq ==> eq ==> eq ==> iff) (@wp S A).
Proof. intros m m' Hm Q ? <- s ? <-. unfold wp. by rewrite Hm. Qed.
End meq.
#[export] Instance for_range_ret_proper {S R} :
  Proper (eq ==> eq ==> pointwise_relation Z meq ==> meq) (@for_range_ret S R).
Proof.
  intros i ? <- l ? <- b b' Hb. unfold for_range_ret. generalize (Z.to_nat (l - i)) as n. intros n. revert i.
  induction n as [|n IH]; intros i; simpl; [done|]. apply bind_proper; [|apply Hb]. intros [x|]; [done|apply IH].
Qed.
#[export] Instance for_range_proper {S} : Proper (eq ==> eq ==> pointwise_relation Z meq ==> meq) (@for_range S).
Proof.
  intros i ? <- l ? <- b b' Hb. unfold for_range. generalize (Z.to_nat (l - i)) as n. intros n. revert i.
  induction n as [|n IH]; intros i; simpl; [done|]. apply bind_proper; [intros []; apply IH|apply Hb].
Qed.

Section loops.
Context {S : Type}.

Lemma wp_for_ (n : nat) (i : Z) (body : Z -> M S unit) (I : Z -> S -> Prop) Q s :
  I i s ->
  (forall j s, i <= j < i + Z.of_nat n -> I j s -> wp (body j) (fun _ s' => I (j + 1) s') s) ->
  (forall s', I (i + Z.of_nat n) s' -> Q tt s') ->
  wp (for_ n i body) Q s.
Proof.
  revert i s. induction n as [|n IH]; intros i s HI Hbody HQ; simpl.
  - apply wp_ret, HQ. by rewrite Z.add_0_r.
  - apply wp_bind. eapply wp_mono; [apply Hbody; [lia|done]|].
    intros [] s' HI'. apply IH; [done| |].
    + intros j s'' ? ?. apply Hbody; [lia|done].
    + intros s'' ?. apply HQ. by replace (i + Z.of_nat (Datatypes.S n))
        with (i + 1 + Z.of_nat n) by lia.
Qed.

Lemma wp_for_range first last (body : Z -> M S unit) (I : Z -> S -> Prop) Q s :
  I first s ->
  (forall j s, first <= j < last -> I j s -> wp (body j) (fun _ s' => I (j + 1) s') s) ->
  (forall s', I (Z.max first last) s' -> Q tt s') ->
  wp (for_range first last body) Q s.
Proof.
  intros HI Hbody HQ. apply (wp_for_ _ _ _ I); [done| |].
  - intros j s' ? ?. apply Hbody; [lia|done].
  - intros s' ?. apply HQ.
    by replace (Z.max first last) with (first + Z.of_nat (Z.to_nat (last - first))) by lia.
Qed.

Lemma wp_for_ret {R} (n : nat) (i : Z) (body : Z -> M S (option R)) (I : Z -> S -> Prop) Q s :
  I i s ->
  (forall j s, i <= j < i + Z.of_nat n -> I j s ->
     wp (body j) (fun r s' => match r with Some x => Q (Some x) s' | None => I (j + 1) s' end) s) ->
  (forall s', I (i + Z.of_nat n) s' -> Q None s') ->
  wp (for_ret n i body) Q s.
Proof.
  revert i s. induction n as [|n IH]; intros i s HI Hbody HQ; simpl.
  - apply wp_ret, HQ. by rewrite Z.add_0_r.
  - apply wp_bind. eapply wp_mono; [apply Hbody; [lia|done]|].
    intros [x|] s' HI'; [by apply wp_ret|]. apply IH; [done| |].
    + intros j s'' ? ?. apply Hbody; [lia|done].
    + intros s'' ?. apply HQ. by replace (i + Z.of_nat (Datatypes.S n))
        with (i + 1 + Z.of_nat n) by lia.
Qed.

Lemma wp_for_range_ret {R} first last (body : Z -> M S (option R)) (I : Z -> S -> Prop) Q s :
  I first s ->
  (forall j s, first <= j < last -> I j s ->
     wp (body j) (fun r s' => match r with Some x => Q (Some x) s' | None => I (j + 1) s' end) s) ->
  (forall s', I (Z.max first last) s' -> Q None s') ->
  wp (for_range_ret first last body) Q s.
Proof.
  intros HI Hbody HQ. apply (wp_for_ret _ _ _ I); [done| |].
  - intros j s' ? ?. apply Hbody; [lia|done].
  - intros s' ?. apply HQ.
    by replace (Z.max first last) with (first + Z.of_nat (Z.to_nat (last - first))) by lia.
Qed.

Lemma wp_while (fuel : nat) (cond : M S bool) (body : M S unit)
    (I : S -> Prop) (measure : S -> nat) Q s :
  I s -> (measure s < fuel)%nat ->
  (forall s, I s ->
     wp cond (fun b s' =>
       if (b : bool)
       then wp body (fun _ s'' => I s'' /\ (measure s'' < measure s)%nat) s'
       else Q tt s') s) ->
  wp (while_ fuel cond body) Q s.
Proof.
  revert s. induction fuel as [|fuel IH]; intros s HI Hm Hstep; [lia|]. simpl.
  apply wp_bind. eapply wp_mono; [by apply Hstep|]. intros [|] s' Hb; [|done].
  apply wp_bind. eapply wp_mono; [done|]. intros [] s'' [HI' Hm'].
  apply IH; [done|lia|done].
Qed.
End loops.

#[global] Arguments while_ : simpl never.
#[global] Arguments for_ : simpl never.
#[global] Arguments for_ret : simpl never.

(** ** Tactics *)

(** One structural step of a [wp] goal. *)
Ltac wp_step :=
  lazymatch goal with
  | |- wp (mret _) _ _ => apply wp_ret
  | |- wp (M_ret _ _ _) _ _ => apply wp_ret
  | |- wp (mbind _ _) _ _ => apply wp_bind
  | |- wp (gets _) _ _ => apply wp_gets
  | |- wp (modify _) _ _ => apply wp_modify
  | |- wp (zoom _) _ _ => apply wp_zoom
  | |- wp (let _ := _ in _) _ _ => cbv zeta
  | |- wp (lift_opt _) _ _ => eapply wp_lift_opt; [by eauto with yalnix|]
  end.
Ltac wp_steps := repeat (wp_step; cbv beta).

(** Split on the condition of the [if] that is run next. *)
Ltac wp_if :=
  lazymatch goal with
  | |- wp (if ?b then _ else _) _ _ => let E := fresh "E" in destruct b eqn:E
  | |- wp (when _ _) _ _ => let E := fresh "E" in apply wp_when; intros E
  end.

(** Continue after a call whose specification is [H]. *)
Tactic Notation "wp_call" uconstr(H) := eapply wp_mono; [eapply H|].

(** Linear arithmetic with divisions by constants. *)
Ltac zdiv := Z.to_euclidean_division_equations; lia.

(** Boolean tests of the C code as propositions. *)
Ltac simp_bool :=
  repeat match goal with
  | H : (_ =? _) = true |- _ => apply Z.eqb_eq in H
  | H : (_ =? _) = false |- _ => apply Z.eqb_neq in H
  | H : (_ <? _) = true |- _ => apply Z.ltb_lt in H
  | H : (_ <? _) = false |- _ => apply Z.ltb_ge in H
  | H : (_ <=? _) = true |- _ => apply Z.leb_le in H
  | H : (_ <=? _) = false |- _ => apply Z.leb_gt in H
  | H : (_ || _) = false |- _ =>
      let H1 := fresh in let H2 := fresh in destruct (proj1 (orb_false_iff _ _) H) as [H1 H2]; clear H
  | H : (_ && _) = true |- _ =>
      let H1 := fresh in let H2 := fresh in destruct (proj1 (andb_true_iff _ _) H) as [H1 H2]; clear H
  | H : negb _ = true |- _ => apply negb_true_iff in H
  | H : negb _ = false |- _ => apply negb_false_iff in H
  | H : bool_decide _ = true |- _ => apply bool_decide_eq_true in H
  | H : bool_decide _ = false |- _ => apply bool_decide_eq_false in H
  end.

Create HintDb yalnix.
Create Rewrite HintDb yalnix_rw.

(** ** Lemmas on C arrays *)
(** Lengths. *)
Lemma zlen_app {A} (l k : list A) : zlen (l ++ k) = zlen l + zlen k.
Proof. unfold zlen. rewrite length_app. lia. Qed.
Lemma zlen_take {A} n (l : list A) : 0 <= n -> zlen (take (Z.to_nat n) l) = Z.min n (zlen l).
Proof. unfold zlen. rewrite length_take. lia. Qed.

Section arrays.
Context {A : Type}.
Implicit Types (l : list A) (i : Z).

Lemma zget_nonneg l i : 0 <= i -> zget l i = l !! Z.to_nat i.
Proof. intros. unfold zget. by rewrite decide_True. Qed.
Lemma zget_nat l (n : nat) : zget l (Z.of_nat n) = l !! n.
Proof. rewrite zget_nonneg by lia. by rewrite Nat2Z.id. Qed.
Lemma zget_Some l i x : zget l i = Some x -> 0 <= i < zlen l.
Proof.
  unfold zget, zlen. case_decide; [|done]. intros ?%lookup_lt_Some. lia.
Qed.
Lemma zget_inside l i : 0 <= i < zlen l -> exists x, zget l i = Some x.
Proof.
  unfold zlen. intros [? ?]. rewrite zget_nonneg by done.
  destruct (lookup_lt_is_Some_2 l (Z.to_nat i)) as [x Hx]; [lia|eauto].
Qed.
Lemma zset_inside l i x : 0 <= i < zlen l -> zset l i x = Some (<[Z.to_nat i := x]> l).
Proof. intros. unfold zset. by rewrite decide_True. Qed.
Lemma zset_Some l i x l' :
  zset l i x = Some l' -> 0 <= i < zlen l /\ l' = <[Z.to_nat i := x]> l.
Proof. unfold zset. case_decide; naive_solver. Qed.
Lemma zlen_insert l (n : nat) x : zlen (<[n := x]> l) = zlen l.
Proof. unfold zlen. by rewrite length_insert. Qed.
Lemma zget_insert_eq l i x :
  0 <= i < zlen l -> zget (<[Z.to_nat i := x]> l) i = Some x.
Proof.
  unfold zlen. intros. rewrite zget_nonneg by lia. apply list_lookup_insert_eq. lia.
Qed.
Lemma zget_insert_ne l i j x :
  0 <= i -> i <> j -> zget (<[Z.to_nat i := x]> l) j = zget l j.
Proof.
  intros. unfold zget. case_decide; [|done]. apply list_lookup_insert_ne. lia.
Qed.

Lemma zslice_length l i n src : zslice l i n = Some src -> zlen src = n.
Proof.
  unfold zslice, zlen. case_decide; [|done]. intros [= <-].
  rewrite length_take, length_drop. lia.
Qed.
Lemma zslice_all l n : zlen l = n -> zslice l 0 n = Some l.
Proof.
  intros Hl. unfold zslice. unfold zlen in *. rewrite decide_True by lia.
  change (drop (Z.to_nat 0) l) with l. rewrite take_ge; [done|lia].
Qed.
Lemma zblit_length l i src l' : zblit l i src = Some l' -> zlen l' = zlen l.
Proof.
  unfold zblit, zlen. case_decide; [|done]. intros [= <-].
  rewrite !length_app, length_take, length_drop. lia.
Qed.
(** Putting a slice back where it was. *)
Lemma zblit_slice l i n src : zslice l i n = Some src -> zblit l i src = Some l.
Proof.
  intros Hs. pose proof (zslice_length _ _ _ _ Hs) as Hl. revert Hs. unfold zslice, zblit.
  case_decide as E; [|done]. intros [= <-]. rewrite Hl. rewrite decide_True by lia. f_equal.
  rewrite <- (take_drop (Z.to_nat i) l) at 4. f_equal.
  rewrite <- (take_drop (Z.to_nat n) (drop (Z.to_nat i) l)) at 2. f_equal.
  rewrite drop_drop. f_equal. lia.
Qed.
(** The second of two copies to the same place counts. *)
Lemma zblit_zblit l i src src' l' :
  zlen src = zlen src' -> zblit l i src = Some l' -> zblit l' i src' = zblit l i src'.
Proof.
  intros Hlen Hb. pose proof (zblit_length _ _ _ _ Hb) as Hl. revert Hb. unfold zblit.
  rewrite Hl, Hlen. case_decide as E; [|done]. intros [= <-]. f_equal. unfold zlen in *.
  rewrite take_app_le by (rewrite length_take; lia).
  rewrite take_take, Nat.min_id. do 2 f_equal.
  rewrite app_assoc, drop_app_length'; [done|]. rewrite length_app, length_take. lia.
Qed.
End arrays.

#[export] Hint Resolve zset_inside zget_insert_eq : yalnix.
#[export] Hint Rewrite @zlen_insert : yalnix_rw.
