(* ===== verification/Machine.v ===== *)
(** * The DCS58 machine the kernel runs on

    [hardware.h], [ykernel.h], [yalnix.h] and the linker's symbols are not part
    of the repository: what the kernel uses of them is the parameter class
    [Machine], and [MachineOk] states the documented facts the theorems rely
    on.  The rest of the file is the data the C structs of the hardware carry
    through the kernel: page table entries and user contexts. *)

From S2P Require Import Prelude.

(** ** Constants and macros of the hardware and of the Yalnix library *)
Class Machine := {
  PAGESHIFT : Z;
  PAGESIZE : Z;
  UP_TO_PAGE : Z -> Z;
  DOWN_TO_PAGE : Z -> Z;
  VMEM_0_SIZE : Z;
  VMEM_1_BASE : Z;
  VMEM_1_SIZE : Z;
  VMEM_1_LIMIT : Z;
  KERNEL_STACK_BASE : Z;
  KERNEL_STACK_LIMIT : Z;
  KERNEL_STACK_MAXSIZE : Z;
  PMEM_BASE : Z;
  PROT_READ : Z;
  PROT_WRITE : Z;
  PROT_EXEC : Z;
  TERMINAL_MAX_LINE : Z;
  NUM_TERMINALS : Z;
  PIPE_BUFFER_LEN : Z;
  MAX_PT_LEN : Z;
  POST_ARGV_NULL_SPACE : Z;
  INITIAL_STACK_FRAME_SIZE : Z;
  KILL : Z;
  first_kernel_text_page : Z;
  first_kernel_data_page : Z;
  orig_kernel_brk_page : Z
}.

(** [ERROR] and [SUCCESS] as [pipe.c] and [synchronization.c] define them when
    the headers do not. *)
Definition ERROR : Z := -1.
Definition SUCCESS : Z := 0.

(** ** Page table entries ([pte_t]) *)
Record pte := { pte_valid : bool; pte_prot : Z; pte_pfn : Z }.
Definition pte_zero : pte := {| pte_valid := false; pte_prot := 0; pte_pfn := 0 |}.

#[export] Instance pte_eq_dec : EqDecision pte.
Proof. solve_decision. Defined.

(** ** User contexts

    [UserContext] with the fields the kernel names; of the general registers
    these are [regs[0]], [regs[1]] and [regs[2]].  A register holds an unsigned
    32-bit value. *)
Record UserContext := {
  uc_code : Z;
  uc_addr : Z;
  uc_pc : Z;
  uc_sp : Z;
  uc_reg0 : Z;
  uc_reg1 : Z;
  uc_reg2 : Z
}.
Definition uc_zero : UserContext :=
  {| uc_code := 0; uc_addr := 0; uc_pc := 0; uc_sp := 0;
     uc_reg0 := 0; uc_reg1 := 0; uc_reg2 := 0 |}.

(** [uc->regs[0] = v] and [uc->regs[1] = v] store a C [int] in a register. *)
Definition uc_set_reg0 (v : Z) (uc : UserContext) : UserContext :=
  {| uc_code := uc_code uc; uc_addr := uc_addr uc; uc_pc := uc_pc uc; uc_sp := uc_sp uc;
     uc_reg0 := to_u32 v; uc_reg1 := uc_reg1 uc; uc_reg2 := uc_reg2 uc |}.
Definition uc_set_reg1 (v : Z) (uc : UserContext) : UserContext :=
  {| uc_code := uc_code uc; uc_addr := uc_addr uc; uc_pc := uc_pc uc; uc_sp := uc_sp uc;
     uc_reg0 := uc_reg0 uc; uc_reg1 := to_u32 v; uc_reg2 := uc_reg2 uc |}.
Definition uc_set_sp (v : Z) (uc : UserContext) : UserContext :=
  {| uc_code := uc_code uc; uc_addr := uc_addr uc; uc_pc := uc_pc uc; uc_sp := v;
     uc_reg0 := uc_reg0 uc; uc_reg1 := uc_reg1 uc; uc_reg2 := uc_reg2 uc |}.
Definition uc_set_pc (v : Z) (uc : UserContext) : UserContext :=
  {| uc_code := uc_code uc; uc_addr := uc_addr uc; uc_pc := v; uc_sp := uc_sp uc;
     uc_reg0 := uc_reg0 uc; uc_reg1 := uc_reg1 uc; uc_reg2 := uc_reg2 uc |}.

(** ** Writes to privileged registers and to devices, in the order made *)
Inductive hw_event :=
| WritePTBR0 | WritePTLR0 (n : Z)
| WritePTBR1 (owner : positive) | WritePTLR1 (n : Z)
| WriteVectorBase | WriteVMEnable
| TLBFlushPage (vaddr : Z) | TLBFlushRegion1 | TLBFlushKStack
| TtyTransmit (tty_id : Z) (bytes : list Z)
| Halt.

(** ** Derived sizes ([kernel_memory.h], [user_memory.h]) *)
Section layout.
Context `{Machine}.

Definition REGION0_VPNS : Z := Z.shiftr VMEM_0_SIZE PAGESHIFT.
Definition REGION1_VPNS : Z := Z.shiftr VMEM_1_SIZE PAGESHIFT.
Definition REGION1_BASE_VPN : Z := REGION0_VPNS.
Definition REGION1_LIMIT_VPN : Z := REGION1_BASE_VPN + REGION1_VPNS.
Definition K_STACK_BASE_VPN : Z := Z.shiftr KERNEL_STACK_BASE PAGESHIFT.
Definition K_STACK_LIMIT_VPN : Z := Z.shiftr KERNEL_STACK_LIMIT PAGESHIFT.
Definition K_STACK_VPNS : Z := K_STACK_LIMIT_VPN - K_STACK_BASE_VPN.
Definition PMEM_BASE_FRAME : Z := Z.shiftr (DOWN_TO_PAGE PMEM_BASE) PAGESHIFT.

(** The virtual page an address is in. *)
Definition vpn_of (addr : Z) : Z := Z.shiftr (DOWN_TO_PAGE addr) PAGESHIFT.
Definition up_vpn_of (addr : Z) : Z := Z.shiftr (UP_TO_PAGE addr) PAGESHIFT.
End layout.

(** ** What the documentation of the hardware promises *)
Class MachineOk `{Machine} : Prop := {
  pageshift_nonneg : 0 <= PAGESHIFT;
  pagesize_spec : PAGESIZE = 2 ^ PAGESHIFT;
  down_to_page_spec : forall n, DOWN_TO_PAGE n = n / PAGESIZE * PAGESIZE;
  up_to_page_spec : forall n, n + PAGESIZE <= INT_MAX ->
    UP_TO_PAGE n = (n + PAGESIZE - 1) / PAGESIZE * PAGESIZE;
  vmem_1_base_spec : VMEM_1_BASE = VMEM_0_SIZE;
  vmem_1_limit_spec : VMEM_1_LIMIT = VMEM_1_BASE + VMEM_1_SIZE;
  vmem_0_pages : exists n, 0 < n /\ VMEM_0_SIZE = n * PAGESIZE;
  vmem_1_pages : exists n, 0 < n /\ VMEM_1_SIZE = n * PAGESIZE;
  vmem_1_limit_int : VMEM_1_LIMIT + PAGESIZE <= INT_MAX;
  kstack_pages : exists b n, 0 <= b /\ 0 < n /\ KERNEL_STACK_BASE = b * PAGESIZE /\
    KERNEL_STACK_MAXSIZE = n * PAGESIZE;
  kstack_limit_spec : KERNEL_STACK_LIMIT = KERNEL_STACK_BASE + KERNEL_STACK_MAXSIZE;
  kstack_in_region0 : KERNEL_STACK_LIMIT <= VMEM_0_SIZE;
  pmem_base_nonneg : 0 <= PMEM_BASE;
  prot_bits : 0 < PROT_READ /\ 0 < PROT_WRITE /\ 0 < PROT_EXEC /\
    Z.land PROT_READ PROT_WRITE = 0 /\ Z.land PROT_READ PROT_EXEC = 0 /\
    Z.land PROT_WRITE PROT_EXEC = 0;
  sizes_pos : 0 < TERMINAL_MAX_LINE /\ 0 < NUM_TERMINALS /\ 0 < PIPE_BUFFER_LEN;
  kill_spec : KILL <> ERROR /\ KILL <> SUCCESS;
  max_pt_len_spec : MAX_PT_LEN * PAGESIZE = VMEM_1_SIZE;
  stack_frame_spec : 0 <= POST_ARGV_NULL_SPACE /\ 0 <= INITIAL_STACK_FRAME_SIZE
}.

(** A small machine on which the witnesses of the development compute: pages
    of 16 bytes, 16 pages in each region, the kernel stack in the last two
    pages of region 0. *)
Definition demo_machine : Machine := {|
  PAGESHIFT := 4;
  PAGESIZE := 16;
  UP_TO_PAGE := fun n => (n + 15) / 16 * 16;
  DOWN_TO_PAGE := fun n => n / 16 * 16;
  VMEM_0_SIZE := 256;
  VMEM_1_BASE := 256;
  VMEM_1_SIZE := 256;
  VMEM_1_LIMIT := 512;
  KERNEL_STACK_BASE := 224;
  KERNEL_STACK_LIMIT := 256;
  KERNEL_STACK_MAXSIZE := 32;
  PMEM_BASE := 0;
  PROT_READ := 1;
  PROT_WRITE := 2;
  PROT_EXEC := 4;
  TERMINAL_MAX_LINE := 4;
  NUM_TERMINALS := 2;
  PIPE_BUFFER_LEN := 4;
  MAX_PT_LEN := 16;
  POST_ARGV_NULL_SPACE := 1;
  INITIAL_STACK_FRAME_SIZE := 1;
  KILL := -2;
  first_kernel_text_page := 0;
  first_kernel_data_page := 2;
  orig_kernel_brk_page := 4
|}.

Lemma demo_machine_ok : @MachineOk demo_machine.
Proof.
  split; cbn; try done; try lia.
  - intros n _. do 2 f_equal. lia.
  - exists 16. lia.
  - exists 16. lia.
  - exists 14, 2. lia.
Defined.

(** ** Consequences for the page numbers *)
Section layout_lemmas.
Context `{MachineOk}.

Lemma pagesize_pos : 0 < PAGESIZE.
Proof. rewrite pagesize_spec. apply Z.pow_pos_nonneg; [lia|apply pageshift_nonneg]. Qed.

Lemma shift_page n : Z.shiftr (n * PAGESIZE) PAGESHIFT = n.
Proof.
  pose proof pagesize_pos. rewrite Z.shiftr_div_pow2 by apply pageshift_nonneg.
  rewrite <- pagesize_spec. apply Z.div_mul. lia.
Qed.
Lemma shiftl_page n : Z.shiftl n PAGESHIFT = n * PAGESIZE.
Proof. rewrite Z.shiftl_mul_pow2 by apply pageshift_nonneg. by rewrite pagesize_spec. Qed.
Lemma vpn_of_div n : vpn_of n = n / PAGESIZE.
Proof. unfold vpn_of. rewrite down_to_page_spec. apply shift_page. Qed.
Lemma up_vpn_of_div n :
  n + PAGESIZE <= INT_MAX -> up_vpn_of n = (n + PAGESIZE - 1) / PAGESIZE.
Proof. intros. unfold up_vpn_of. rewrite up_to_page_spec by done. apply shift_page. Qed.

Lemma region0_vpns_spec : 0 < REGION0_VPNS /\ VMEM_0_SIZE = REGION0_VPNS * PAGESIZE.
Proof. destruct vmem_0_pages as (n & ? & E). unfold REGION0_VPNS. rewrite E, shift_page. lia. Qed.
Lemma region1_vpns_spec : 0 < REGION1_VPNS /\ VMEM_1_SIZE = REGION1_VPNS * PAGESIZE.
Proof. destruct vmem_1_pages as (n & ? & E). unfold REGION1_VPNS. rewrite E, shift_page. lia. Qed.
Lemma kstack_vpns_spec :
  0 <= K_STACK_BASE_VPN < K_STACK_LIMIT_VPN /\ K_STACK_LIMIT_VPN <= REGION0_VPNS /\
  0 < K_STACK_VPNS.
Proof.
  destruct kstack_pages as (b & n & ? & ? & Eb & En).
  pose proof kstack_limit_spec as El. pose proof kstack_in_region0 as Ei.
  destruct region0_vpns_spec as [? E0].
  assert (El' : KERNEL_STACK_LIMIT = (b + n) * PAGESIZE) by lia.
  unfold K_STACK_VPNS, K_STACK_LIMIT_VPN, K_STACK_BASE_VPN in *.
  pose proof pagesize_pos. rewrite Eb, El'. rewrite !shift_page. nia.
Qed.

(** An address is in region 1 exactly when its page is a page of region 1. *)
Lemma region1_vpn addr :
  VMEM_1_BASE <= addr < VMEM_1_LIMIT <-> REGION1_BASE_VPN <= vpn_of addr < REGION1_LIMIT_VPN.
Proof.
  rewrite vpn_of_div, vmem_1_limit_spec, vmem_1_base_spec.
  unfold REGION1_LIMIT_VPN, REGION1_BASE_VPN.
  destruct region0_vpns_spec as [_ E0], region1_vpns_spec as [_ E1].
  pose proof pagesize_pos. rewrite E0, E1.
  pose proof (Z.div_mod addr PAGESIZE). pose proof (Z.mod_pos_bound addr PAGESIZE). nia.
Qed.

(** A page mapped with two protections has each of them. *)
Lemma prot_lor_l p q : 0 < p -> Z.land (Z.lor p q) p <> 0.
Proof.
  intros. assert (Z.land (Z.lor p q) p = p) as ->; [|lia].
  apply Z.bits_inj'. intros n _. rewrite Z.land_spec, Z.lor_spec.
  by destruct (Z.testbit p n), (Z.testbit q n).
Qed.
Lemma prot_lor_r p q : 0 < q -> Z.land (Z.lor p q) q <> 0.
Proof. rewrite Z.lor_comm. apply prot_lor_l. Qed.
Lemma prot_rw : Z.land (Z.lor PROT_READ PROT_WRITE) PROT_READ <> 0 /\
  Z.land (Z.lor PROT_READ PROT_WRITE) PROT_WRITE <> 0.
Proof. destruct prot_bits as (? & ? & _). split; [by apply prot_lor_l|by apply prot_lor_r]. Qed.
Lemma prot_rx : Z.land (Z.lor PROT_READ PROT_EXEC) PROT_READ <> 0.
Proof. destruct prot_bits as (? & _). by apply prot_lor_l. Qed.
End layout_lemmas.
