(* ===== verification/Tables.v ===== *)
(** * Tables of entries that are in use or free

    The pipes, the locks and the condition variables live in arrays that grow
    when they are full; an index to the first free entry makes new entries
    cheap.  This file has the steps the three tables share and what a table
    stands for: a partial map from the numbers to the entries in use. *)

From S2P Require Import Prelude Machine.

(** ** Definitions *)

(** The walk of the index [i] to the next free entry. *)
Fixpoint next_open {A} (in_use : A -> bool) (n : nat) (i size : Z) (table : list A) : option Z :=
  match n with
  | O => Some i
  | Datatypes.S n' =>
      if i <? size then
        x ← zget table i;
        if in_use x : bool then next_open in_use n' (i + 1) size table else Some i
      else Some i
  end.
(** A table moved to a new block of [new_size] entries, [n] of them copied. *)
Definition move_table {A} (zero : A) (table : list A) (n new_size : Z) : option (list A) :=
  entries ← zslice table 0 n;
  zblit (replicate (Z.to_nat new_size) zero) 0 entries.
(** Whether an entry of the upper half of the table is in use. *)
Definition upper_half_used {A} (in_use : A -> bool) (size : Z) (table : list A) : bool :=
  existsb in_use (drop (Z.to_nat (size / 2)) (take (Z.to_nat size) table)).

(** ** What a table stands for *)

Definition used {A} (in_use : A -> bool) (t : list A) (i : Z) : option A :=
  x ← zget t i; if in_use x : bool then Some x else None.

(** A table of [size] entries whose first free one is at [open]. *)
Record open_at {A} (in_use : A -> bool) (size open : Z) (t : list A) : Prop := {
  oa_size : zlen t = size;
  oa_pos : 1 <= size;
  oa_range : 0 <= open <= size;
  oa_below : forall i, 0 <= i < open -> is_Some (used in_use t i);
  oa_free : used in_use t open = None
}.

(** ** Lemmas *)
Section tables.
Context {A : Type} (in_use : A -> bool).
Implicit Types (t : list A) (i j : Z).

Lemma used_Some t i x : used in_use t i = Some x <-> zget t i = Some x /\ in_use x = true.
Proof.
  unfold used. destruct (zget t i) as [y|]; simpl; [|by split; [|intros []]].
  destruct (in_use y) eqn:E; (split; [|intros []]); intros; simplify_eq; by rewrite ?E in *.
Qed.
Lemma used_range t i x : used in_use t i = Some x -> 0 <= i < zlen t.
Proof. intros [? _]%used_Some. by eapply zget_Some. Qed.

Lemma used_insert t i j x :
  0 <= i < zlen t ->
  used in_use (<[Z.to_nat i := x]> t) j =
    if decide (j = i) then (if in_use x then Some x else None) else used in_use t j.
Proof.
  intros Hi. unfold used. case_decide as E; [subst j|].
  - by rewrite zget_insert_eq.
  - by rewrite zget_insert_ne by (lia || congruence).
Qed.

Lemma next_open_ok n : forall i size t,
  zlen t = size -> 0 <= i <= size -> size - i <= Z.of_nat n ->
  exists j, next_open in_use n i size t = Some j /\ i <= j <= size /\
    (forall k, i <= k < j -> is_Some (used in_use t k)) /\ used in_use t j = None.
Proof.
  induction n as [|n IH]; intros i size t Hl Hi Hn; simpl.
  - exists i. split; [done|]. split; [lia|]. split; [lia|]. unfold used.
    destruct (zget t i) eqn:E; [|done]. apply zget_Some in E. lia.
  - destruct (Z.ltb_spec i size) as [Hlt|Hge].
    + destruct (zget_inside t i) as [x Hx]; [lia|]. rewrite Hx. simpl.
      destruct (in_use x) eqn:Ex.
      * destruct (IH (i + 1) size t) as (j & -> & Hj & Hk & Hfree); [done|lia|lia|].
        exists j. split; [done|]. split; [lia|]. split; [|done]. intros k Hk'.
        destruct (decide (k = i)) as [->|]; [|apply Hk; lia].
        exists x. by apply used_Some.
      * exists i. split; [done|]. split; [lia|]. split; [lia|]. unfold used. by rewrite Hx; simpl; rewrite Ex.
    + exists i. split; [done|]. split; [lia|]. split; [lia|]. unfold used.
      destruct (zget t i) eqn:E; [|done]. apply zget_Some in E. lia.
Qed.

Lemma move_table_ok zero t n new_size :
  0 <= n <= zlen t -> n <= new_size ->
  move_table zero t n new_size =
    Some (take (Z.to_nat n) t ++ replicate (Z.to_nat (new_size - n)) zero).
Proof.
  intros Hn Hs. unfold move_table, zslice. unfold zlen in *. rewrite decide_True by lia.
  change (drop (Z.to_nat 0) t) with t. simpl. unfold zblit, zlen.
  rewrite length_take, length_replicate. rewrite decide_True by lia.
  change (take (Z.to_nat 0) _) with (@nil A). simpl. do 2 f_equal.
  rewrite drop_replicate. f_equal. lia.
Qed.

(** A grown table has the entries of the old one. *)
Lemma used_grow zero t new_size i :
  in_use zero = false -> zlen t <= new_size ->
  used in_use (t ++ replicate (Z.to_nat (new_size - zlen t)) zero) i = used in_use t i.
Proof.
  intros Hz Hs. unfold used, zget. case_decide; [|done]. unfold zlen in *.
  destruct (decide (Z.to_nat i < length t)%nat).
  - by rewrite lookup_app_l.
  - rewrite lookup_app_r by lia. rewrite (lookup_ge_None_2 t) by lia.
    destruct (replicate _ zero !! _) as [x|] eqn:E; [|done]. simpl.
    apply lookup_replicate in E as [-> _]. by rewrite Hz.
Qed.

(** Nor does a table lose one that is cut where nothing is in use. *)
Lemma used_shrink t size i :
  zlen t = size -> upper_half_used in_use size t = false ->
  used in_use (take (Z.to_nat (size / 2)) t) i = used in_use t i.
Proof.
  intros Hl Hu. unfold used, zget. case_decide; [|done]. unfold zlen in *.
  destruct (decide (Z.to_nat i < Z.to_nat (size / 2))%nat).
  - by rewrite lookup_take_lt.
  - rewrite lookup_take_ge by lia. simpl. destruct (t !! Z.to_nat i) as [x|] eqn:E; [|done]. simpl.
    destruct (in_use x) eqn:Ex; [|done]. exfalso. unfold upper_half_used in Hu.
    apply not_true_iff_false in Hu. apply Hu. apply existsb_exists. exists x. split; [|done].
    apply list_elem_of_In. rewrite take_ge by lia. apply list_elem_of_lookup.
    exists (Z.to_nat i - Z.to_nat (size / 2))%nat. rewrite lookup_drop.
    by replace (Z.to_nat (size / 2) + (Z.to_nat i - Z.to_nat (size / 2)))%nat with (Z.to_nat i) by lia.
Qed.

(** ** The steps of the operations *)

(** A full table grown to twice its size is open at its old size. *)
Lemma open_at_grow zero size open t :
  in_use zero = false -> open_at in_use size open t -> size <= open ->
  exists t', move_table zero t open (2 * size) = Some t' /\
    open_at in_use (2 * size) open t' /\ open < 2 * size /\
    forall i, used in_use t' i = used in_use t i.
Proof.
  intros Hz [H1 H2 H3 H4 H5] Hge. assert (open = size) as -> by lia.
  rewrite move_table_ok by lia. eexists. split; [done|].
  rewrite take_ge by (unfold zlen in *; lia).
  assert (forall i, used in_use (t ++ replicate (Z.to_nat (2 * size - size)) zero) i = used in_use t i)
    as Hsame by (intros; rewrite <- H1 at 1; rewrite <- (used_grow zero t (2 * size));
                 [by rewrite H1|done|lia]).
  split; [|split; [lia|done]]. split; try lia.
  - unfold zlen in *. rewrite length_app, length_replicate. lia.
  - intros i Hi. rewrite Hsame. by apply H4.
  - by rewrite Hsame.
Qed.

(** A new entry at the index, which moves on. *)
Lemma open_at_take size open t x :
  open_at in_use size open t -> open < size -> in_use x = true ->
  exists j, next_open in_use (Z.to_nat size) open size (<[Z.to_nat open := x]> t) = Some j /\
    open_at in_use size j (<[Z.to_nat open := x]> t).
Proof.
  intros [H1 H2 H3 H4 H5] Hlt Hx.
  destruct (next_open_ok (Z.to_nat size) open size (<[Z.to_nat open := x]> t))
    as (j & Hj & Hr & Hb & Hf); [by rewrite zlen_insert|lia|lia|].
  exists j. split; [done|]. split; try done; [by rewrite zlen_insert|lia|].
  intros i Hi. destruct (decide (i < open)) as [|].
  - rewrite used_insert by lia. rewrite decide_False by lia. apply H4. lia.
  - apply Hb. lia.
Qed.

(** An entry written at the index that is not in use. *)
Lemma open_at_same size open t x :
  open_at in_use size open t -> open < size -> in_use x = false ->
  open_at in_use size open (<[Z.to_nat open := x]> t) /\
  forall i, used in_use (<[Z.to_nat open := x]> t) i = used in_use t i.
Proof.
  intros [H1 H2 H3 H4 H5] Hlt Hx.
  assert (forall i, used in_use (<[Z.to_nat open := x]> t) i = used in_use t i) as Hsame.
  { intros i. rewrite used_insert by lia. case_decide; [|done]. subst i. by rewrite Hx. }
  split; [|done]. split; try done; [by rewrite zlen_insert| |].
  - intros i Hi. rewrite Hsame. by apply H4.
  - by rewrite Hsame.
Qed.

(** An entry in use replaced by another. *)
Lemma open_at_update size open t i x y :
  open_at in_use size open t -> used in_use t i = Some x -> in_use y = true ->
  open_at in_use size open (<[Z.to_nat i := y]> t) /\
  forall j, used in_use (<[Z.to_nat i := y]> t) j = if decide (j = i) then Some y else used in_use t j.
Proof.
  intros [H1 H2 H3 H4 H5] Hu Hy. pose proof (used_range _ _ _ Hu) as Hi.
  assert (forall j, used in_use (<[Z.to_nat i := y]> t) j =
    if decide (j = i) then Some y else used in_use t j) as Hup
    by (intros j; rewrite used_insert by done; by rewrite Hy).
  split; [|done]. split; try done.
  - by rewrite zlen_insert.
  - intros j Hj. rewrite Hup. case_decide; [by eexists|by apply H4].
  - rewrite Hup. rewrite decide_False; [done|]. intros ->. congruence.
Qed.
(** An entry freed: the index goes back to it when it is below. *)
Lemma open_at_free size open t i x y :
  open_at in_use size open t -> used in_use t i = Some x -> in_use y = false ->
  open_at in_use size (if i <? open then i else open) (<[Z.to_nat i := y]> t) /\
  forall j, used in_use (<[Z.to_nat i := y]> t) j = if decide (j = i) then None else used in_use t j.
Proof.
  intros [H1 H2 H3 H4 H5] Hu Hy. pose proof (used_range _ _ _ Hu) as Hi.
  assert (forall j, used in_use (<[Z.to_nat i := y]> t) j =
    if decide (j = i) then None else used in_use t j) as Hsame.
  { intros j. rewrite used_insert by lia. case_decide; [|done]. by rewrite Hy. }
  split; [|done].
  split; [by rewrite zlen_insert|done| | |]; destruct (Z.ltb_spec i open); try lia.
  - intros j Hj. rewrite Hsame, decide_False by lia. apply H4. lia.
  - intros j Hj. rewrite Hsame, decide_False by lia.
    by apply H4.
  - rewrite Hsame. by rewrite decide_True.
  - rewrite Hsame. by case_decide.
Qed.

(** A table cut to its lower half. *)
Lemma open_at_shrink zero size open t :
  open_at in_use size open t -> upper_half_used in_use size t = false -> open < size / 2 ->
  exists t', move_table zero t (size / 2) (size / 2) = Some t' /\
    open_at in_use (size / 2) open t' /\ forall i, used in_use t' i = used in_use t i.
Proof.
  intros [H1 H2 H3 H4 H5] Hu Hlt. rewrite move_table_ok by zdiv. eexists. split; [done|].
  rewrite Z.sub_diag. simpl. rewrite app_nil_r.
  assert (forall i, used in_use (take (Z.to_nat (size / 2)) t) i = used in_use t i) as Hsame
    by (intros; by apply used_shrink).
  split; [|done]. split; try lia.
  - unfold zlen in *. rewrite length_take. zdiv.
  - intros i Hi. rewrite Hsame. by apply H4.
  - by rewrite Hsame.
Qed.
End tables.

(** ** Outcomes *)

(** The outcome of a call that makes an entry [x]: an error that leaves the map
    as it was, or the lowest number that was not in use. *)
Definition made {A} (before after : Z -> option A) (r : Z) (x : A) : Prop :=
  (r = ERROR /\ forall i, after i = before i) \/
  (0 <= r /\ before r = None /\ (forall i, 0 <= i < r -> is_Some (before i)) /\
   forall i, after i = if decide (i = r) then Some x else before i).

(** The outcome of a call that reclaims the entry [i]: refused, or gone. *)
Definition reclaimed {A} (before after : Z -> option A) (removable : A -> bool) (i : Z) (r : bool)
    : Prop :=
  r = match before i with Some x => removable x | None => false end /\
  forall j, after j = if r && bool_decide (j = i) then None else before j.

Lemma reclaim_refused {A} (before : Z -> option A) removable i :
  (forall x, before i = Some x -> removable x = false) -> reclaimed before before removable i false.
Proof.
  intros Hx. split; [|done]. destruct (before i) as [x|] eqn:E; [|done]. by rewrite Hx.
Qed.

Lemma used_inside {A} (in_use : A -> bool) t i x :
  zget t i = Some x -> used in_use t i = if in_use x then Some x else None.
Proof. intros Hg. unfold used. by rewrite Hg. Qed.
Lemma used_outside {A} (in_use : A -> bool) t i : i < 0 \/ zlen t <= i -> used in_use t i = None.
Proof.
  intros Hi. destruct (used in_use t i) eqn:E; [|done]. apply used_range in E. lia.
Qed.
