(* ===== verification/UserUtils.v ===== *)
(** * The utilities of the user programs ([user/utils.c])

    [basename]: the part of a path behind its last slash.  A C string is an
    array of bytes up to the first zero.  The theorem gives the result for every
    string that is not empty; for the empty one the code reads the byte before
    the string. *)

From S2P Require Import Prelude.

(** ** Definitions *)

(** [strlen]: the index of the first zero; an array without one is read past
    its end. *)
Fixpoint strlen (s : list Z) : option Z :=
  match s with
  | [] => None
  | b :: s' => if b =? 0 then Some 0 else n ← strlen s'; Some (n + 1)
  end.

(** The [n] bytes [strncpy] writes, read from [i] on: zeros behind the end of
    the string. *)
Fixpoint strncpy (n : nat) (src : list Z) (i : Z) : option (list Z) :=
  match n with
  | O => Some []
  | S n' =>
      b ← zget src i;
      if b =? 0 then Some (replicate n 0) else bs ← strncpy n' src (i + 1); Some (b :: bs)
  end.

Definition slash : Z := 47.

(** [while (i >= 1 && original[i - 1] != '/') i--;] *)
Fixpoint last_slash (fuel : nat) (original : list Z) (i : Z) : option Z :=
  match fuel with
  | O => None
  | S fuel' =>
      if 1 <=? i then
        b ← zget original (i - 1);
        if b =? slash then Some i else last_slash fuel' original (i - 1)
      else Some i
  end.

(** [allocated] is whether [calloc] finds memory. *)
Definition basename (allocated : bool) (original : list Z) : option (list Z) :=
  len ← strlen original;
  bn ← (if allocated then Some (replicate (Z.to_nat (len + 1)) 0) else None);
  i ← last_slash (S (length original)) original (len - 1);
  bytes ← strncpy (Z.to_nat (len + 1)) original i;
  bn ← zblit bn 0 bytes;
  zset bn len 0.

(** ** Strings *)
Definition c_string (s rest : list Z) : list Z := s ++ 0 :: rest.

Lemma strlen_ok s rest : 0 ∉ s -> strlen (c_string s rest) = Some (zlen s).
Proof.
  induction s as [|b s IH]; intros Hs; [done|]. apply not_elem_of_cons in Hs as [Hb Hs]. simpl.
  rewrite (proj2 (Z.eqb_neq b 0)) by done. change (strlen (s ++ _)) with (strlen (c_string s rest)).
  rewrite IH by done. simpl. unfold zlen. simpl. f_equal. lia.
Qed.

Lemma zget_string {A} (pre suf : list A) b : zget (pre ++ b :: suf) (zlen pre) = Some b.
Proof. unfold zget, zlen. rewrite decide_True by lia. rewrite Nat2Z.id. by apply list_lookup_middle. Qed.

(** Copying from behind [pre] gives the rest of the string and zeros. *)
Lemma strncpy_ok n pre s rest :
  0 ∉ s -> (length s < n)%nat ->
  strncpy n (pre ++ c_string s rest) (zlen pre) = Some (s ++ replicate (n - length s) 0).
Proof.
  revert n pre. induction s as [|b s IH]; intros n pre Hs Hn; (destruct n as [|n]; [simpl in Hn; lia|]); unfold c_string; cbn [strncpy app].
  - by rewrite zget_string.
  - apply not_elem_of_cons in Hs as [Hb Hs]. rewrite zget_string. cbn [mbind option_bind].
    rewrite (proj2 (Z.eqb_neq b 0)) by done. specialize (IH n (pre ++ [b]) Hs). rewrite <- app_assoc in IH.
    replace (zlen (pre ++ [b])) with (zlen pre + 1) in IH by (unfold zlen; rewrite length_app; simpl; lia).
    unfold c_string in IH. simpl in IH. rewrite IH by (simpl in Hn; lia). done.
Qed.

(** The scan from behind [s] stops behind its last slash, or at its start. *)
Lemma last_slash_ok fuel s more :
  (length s < fuel)%nat ->
  exists pre suf, s = pre ++ suf /\ last_slash fuel (s ++ more) (zlen s) = Some (zlen pre) /\
    slash ∉ suf /\ (pre = [] \/ last pre = Some slash).
Proof.
  revert s more. induction fuel as [|fuel IH]; intros s more Hf; [lia|].
  destruct s as [|b s _] using rev_ind; [exists [], []; split_and!; try done; [set_solver|by left]|].
  rewrite length_app in Hf. simpl in Hf. cbn [last_slash].
  assert (zlen (s ++ [b]) = zlen s + 1) as El by (unfold zlen; rewrite length_app; simpl; lia).
  rewrite El, (proj2 (Z.leb_le 1 _)) by (unfold zlen; lia). replace (zlen s + 1 - 1) with (zlen s) by lia.
  rewrite <- app_assoc. cbn [app]. rewrite zget_string. cbn [mbind option_bind].
  destruct (Z.eqb_spec b slash) as [->|Hb].
  - exists (s ++ [slash]), []. rewrite app_nil_r, El, last_snoc. split_and!; try done; [set_solver|by right].
  - destruct (IH s (b :: more)) as (pre & suf & -> & E & Hns & Hp); [lia|].
    exists pre, (suf ++ [b]). rewrite app_assoc. split_and!; try done. set_solver.
Qed.

(** [basename] gives the end of a string that is not empty: what follows the
    last slash that is not its last byte, or all of it, and zeros up to the
    length of the string.  For the empty string, and when memory is short, it is
    undefined. *)
Theorem basename_end (s rest : list Z) :
  0 ∉ s ->
  (s <> [] -> exists pre suf x,
     s = pre ++ suf ++ [x] /\ slash ∉ suf /\ (pre = [] \/ last pre = Some slash) /\
     basename true (c_string s rest) = Some ((suf ++ [x]) ++ replicate (length pre + 1) 0)) /\
  basename true (c_string [] rest) = None /\ basename false (c_string s rest) = None.
Proof.
  intros Hs. split; [|split; [done|]]; last first.
  { unfold basename. by rewrite strlen_ok. }
  intros Hne. destruct s as [|x s _] using rev_ind; [done|]. unfold basename. rewrite strlen_ok by done.
  cbn [mbind option_bind].
  assert (zlen (s ++ [x]) = zlen s + 1) as El by (unfold zlen; rewrite length_app; simpl; lia).
  destruct (last_slash_ok (S (length (c_string (s ++ [x]) rest))) s ([x] ++ 0 :: rest)) as (pre & suf & -> & E & Hns & Hp).
  { unfold c_string. rewrite !length_app. simpl. lia. }
  exists pre, suf, x. split_and!; [by rewrite app_assoc|done|done|].
  rewrite app_assoc in E. change (((pre ++ suf) ++ [x]) ++ 0 :: rest) with (c_string ((pre ++ suf) ++ [x]) rest) in E.
  replace (zlen ((pre ++ suf) ++ [x]) - 1) with (zlen (pre ++ suf)) by lia. rewrite E.
  cbn [mbind option_bind].
  assert (c_string ((pre ++ suf) ++ [x]) rest = pre ++ c_string (suf ++ [x]) rest) as Ec.
  { unfold c_string. by rewrite <- !app_assoc. }
  rewrite Ec, strncpy_ok; [|set_solver|unfold zlen; rewrite !length_app; simpl; lia]. cbn [mbind option_bind].
  set (n := Z.to_nat _ : nat). assert (n = (length pre + length suf + 2)%nat) as Hn.
  { subst n. unfold zlen. rewrite !length_app. simpl. lia. }
  replace (n - length (suf ++ [x]))%nat with (length pre + 1)%nat by (rewrite Hn, length_app; simpl; lia).
  set (l := (suf ++ [x]) ++ replicate _ 0). assert (length l = n) as Hl.
  { subst l. rewrite !length_app, length_replicate. simpl. lia. }
  unfold zblit. rewrite decide_True by (unfold zlen; rewrite Hl, length_replicate; lia).
  cbn [mbind option_bind]. rewrite drop_ge by (unfold zlen; rewrite Hl, length_replicate; lia).
  simpl take. rewrite app_nil_l, app_nil_r. unfold zset. rewrite decide_True by (unfold zlen; rewrite Hl, !length_app, Hn; simpl; lia).
  f_equal. apply list_insert_id. subst l. unfold zlen. rewrite Nat2Z.id, lookup_app_r by (rewrite !length_app; simpl; lia).
  apply lookup_replicate. split; [done|]. rewrite !length_app. simpl. lia.
Qed.

(** "/bin/ls" and "dir/" *)
Example basename_ls : basename true (c_string [47; 98; 105; 110; 47; 108; 115] []) = Some [108; 115; 0; 0; 0; 0; 0; 0].
Proof. reflexivity. Qed.
Example basename_dir : basename true (c_string [100; 105; 114; 47] []) = Some [100; 105; 114; 47; 0].
Proof. reflexivity. Qed.
