(* ===== verification/FrameTracking.v ===== *)
(** * Physical frame allocation and page table entries ([frame_tracking.c])

    The file's static variables are the record [frames_t]; its functions are
    [M frames_t] computations.  [free_set] is the abstraction the rest of the
    kernel relies on: the set of the frames that can still be handed out. *)

From S2P Require Import Prelude Machine.

(** ** Definitions *)

Definition BYTE_SIZE : Z := 8.
Definition BIT_OFFSET : Z := BYTE_SIZE - 1.
Definition BYTE_MASK : Z := Z.lnot BYTE_SIZE.
Definition BYTE_SHIFT : Z := 3.
Definition UP_TO_BYTE (n : Z) : Z := Z.land (n + BIT_OFFSET) BYTE_MASK.
Definition FULL_BYTE : Z := 255.

(** An [int] stored in a [byte_t]. *)
Definition to_byte (x : Z) : Z := x mod 256.

(** The static variables.  [after_bitset] is the byte of the C heap that
    follows the block [frame_bitset] points to: [find_frame] reads it when all
    the frames are taken and their number is a multiple of 8. *)
Record frames_t := {
  frame_bitset : list Z;
  after_bitset : Z;
  next_free : Z;
  NUM_FRAMES : Z
}.

Definition set_frame_bitset (bs : list Z) (f : frames_t) : frames_t :=
  {| frame_bitset := bs; after_bitset := after_bitset f;
     next_free := next_free f; NUM_FRAMES := NUM_FRAMES f |}.
Definition set_next_free (n : Z) (f : frames_t) : frames_t :=
  {| frame_bitset := frame_bitset f; after_bitset := after_bitset f;
     next_free := n; NUM_FRAMES := NUM_FRAMES f |}.

(** [frame_bitset[byte_num]]: the byte right behind the block is the only one
    outside of it that the model gives a value. *)
Definition read_byte (byte_num : Z) : M frames_t Z := fun f =>
  match zget (frame_bitset f) byte_num with
  | Some b => Some (b, f)
  | None => if byte_num =? zlen (frame_bitset f) then Some (after_bitset f, f) else None
  end.

Definition write_byte (byte_num : Z) (b : Z) : M frames_t unit := fun f =>
  match zset (frame_bitset f) byte_num b with
  | Some bs => Some (tt, set_frame_bitset bs f)
  | None => None
  end.

(** [frame_bitset = calloc(bitset_size, sizeof(byte_t))]; the argument [calloc]
    is the C library's, [None] when it fails. *)
Definition bitset_size (num_frames : Z) : Z := Z.shiftr (UP_TO_BYTE num_frames) BYTE_SHIFT.

Section tracking.
Context `{Machine}.

Definition initialize_frame_tracking (calloc : Z -> option (list Z)) (pmem_size : Z)
    : M frames_t bool := fun f =>
  let pmem_frame_limit := Z.shiftr (DOWN_TO_PAGE pmem_size) PAGESHIFT in
  let num_frames := pmem_frame_limit - PMEM_BASE_FRAME in
  match calloc (bitset_size num_frames) with
  | Some block =>
      Some (true, {| frame_bitset := block; after_bitset := after_bitset f;
                     next_free := 0; NUM_FRAMES := num_frames |})
  | None =>
      Some (false, {| frame_bitset := []; after_bitset := after_bitset f;
                      next_free := 0; NUM_FRAMES := num_frames |})
  end.

Definition add_base (frame_num : Z) : Z := frame_num + PMEM_BASE_FRAME.
Definition subtract_base (frame_num : Z) : Z := frame_num - PMEM_BASE_FRAME.

Definition check_if_free (frame_num : Z) : M frames_t bool :=
  let byte_num := Z.shiftr frame_num BYTE_SHIFT in
  byte ← read_byte byte_num;
  if byte =? FULL_BYTE then mret false
  else
    let bit_offset := Z.land frame_num BIT_OFFSET in
    let mask := to_byte (Z.shiftl 1 bit_offset) in
    byte' ← read_byte byte_num;
    let entry := Z.land byte' mask in
    mret (entry =? 0).

Definition set_frame (frame_num : Z) : M frames_t unit :=
  let byte_num := Z.shiftr frame_num BYTE_SHIFT in
  let bit_offset := Z.land frame_num BIT_OFFSET in
  let mask := to_byte (Z.shiftl 1 bit_offset) in
  byte ← read_byte byte_num;
  write_byte byte_num (Z.lor byte mask).

Definition clear_frame (frame_num : Z) : M frames_t unit :=
  let byte_num := Z.shiftr frame_num BYTE_SHIFT in
  let bit_offset := Z.land frame_num BIT_OFFSET in
  let mask := to_byte (Z.lnot (Z.shiftl 1 bit_offset)) in
  byte ← read_byte byte_num;
  write_byte byte_num (Z.land byte mask).

(** The loop of [find_frame] makes at most [NUM_FRAMES - next_free] turns. *)
Definition find_frame_fuel (f : frames_t) : nat :=
  Datatypes.S (Z.to_nat (NUM_FRAMES f - next_free f)).

Definition find_frame : M frames_t Z :=
  fuel ← gets find_frame_fuel;
  while_ fuel
    (n ← gets next_free;
     free ← check_if_free n;
     num ← gets NUM_FRAMES;
     mret (negb free && (n <? num)))
    (modify (fun f => set_next_free (next_free f + 1) f));;
  n ← gets next_free;
  num ← gets NUM_FRAMES;
  if n =? num then mret ERROR
  else
    set_frame n;;
    modify (set_next_free (n + 1));;
    mret (add_base n).

Definition acquire_frame (pfn : Z) : M frames_t bool :=
  let pfn := subtract_base pfn in
  free ← check_if_free pfn;
  if negb free then mret false
  else
    set_frame pfn;;
    mret true.

Definition free_frame (frame_num : Z) : M frames_t bool :=
  let frame_num := subtract_base frame_num in
  num ← gets NUM_FRAMES;
  if (frame_num <? 0) || (num <=? frame_num) then mret false
  else
    free ← check_if_free frame_num;
    if free : bool then mret false
    else
      clear_frame frame_num;;
      n ← gets next_free;
      modify (set_next_free (if frame_num <? n then frame_num else n));;
      mret true.
End tracking.

(** ** Page table entries *)

(** [destroy_pte(base, vpn)] returns the frame number and the table after it. *)
Definition destroy_pte (base : list pte) (vpn : Z) : option (Z * list pte) :=
  e ← zget base vpn;
  base' ← zset base vpn {| pte_valid := false; pte_prot := pte_prot e; pte_pfn := pte_pfn e |};
  Some (pte_pfn e, base').

Definition create_pte (base : list pte) (vpn pfn prot : Z) : option (list pte) :=
  zset base vpn {| pte_valid := true; pte_prot := prot; pte_pfn := pfn |}.

(** ** The abstraction: which frames are free *)

Definition frame_bit (f : frames_t) (n : Z) : bool :=
  match zget (frame_bitset f) (Z.shiftr n BYTE_SHIFT) with
  | Some b => Z.testbit b (Z.land n BIT_OFFSET)
  | None => false
  end.

Definition free_set `{Machine} (f : frames_t) : gset Z :=
  list_to_set (add_base <$> filter (fun n => frame_bit f n = false) (seqZ 0 (NUM_FRAMES f))).

(** The physical frames the allocator manages. *)
Definition frame_range `{Machine} (f : frames_t) (pfn : Z) : Prop :=
  PMEM_BASE_FRAME <= pfn < PMEM_BASE_FRAME + NUM_FRAMES f.

#[export] Instance frame_range_dec `{Machine} f pfn : Decision (frame_range f pfn).
Proof. unfold frame_range. apply _. Defined.

(** The invariant of the static variables: the bitset has a bit for every
    frame, and no frame below [next_free] is free. *)
Record frames_wf (f : frames_t) : Prop := {
  fw_bytes : Forall (fun b => 0 <= b < 256) (frame_bitset f);
  fw_size : NUM_FRAMES f <= 8 * zlen (frame_bitset f);
  fw_next : 0 <= next_free f <= NUM_FRAMES f;
  fw_below : forall n, 0 <= n < next_free f -> frame_bit f n = true
}.

(** ** Bits of bytes *)

Lemma bit_offset_range n : 0 <= Z.land n BIT_OFFSET < 8.
Proof.
  unfold BIT_OFFSET, BYTE_SIZE. change (8 - 1) with (Z.ones 3).
  rewrite Z.land_ones by lia. apply Z.mod_pos_bound. lia.
Qed.

Lemma byte_num_div n : Z.shiftr n BYTE_SHIFT = n / 8.
Proof. unfold BYTE_SHIFT. by rewrite Z.shiftr_div_pow2. Qed.
Lemma bit_offset_mod n : Z.land n BIT_OFFSET = n mod 8.
Proof. unfold BIT_OFFSET, BYTE_SIZE. change (8 - 1) with (Z.ones 3). by rewrite Z.land_ones. Qed.

Lemma bit_index_inj n m :
  Z.shiftr n BYTE_SHIFT = Z.shiftr m BYTE_SHIFT -> Z.land n BIT_OFFSET = Z.land m BIT_OFFSET -> n = m.
Proof.
  rewrite !byte_num_div, !bit_offset_mod. intros.
  rewrite (Z.div_mod n 8), (Z.div_mod m 8) by lia. congruence.
Qed.

Lemma to_byte_shift k : 0 <= k < 8 -> to_byte (Z.shiftl 1 k) = 2 ^ k.
Proof.
  intros. unfold to_byte. rewrite Z.shiftl_1_l. apply Z.mod_small.
  split; [apply Z.pow_nonneg; lia|]. apply (Z.pow_lt_mono_r 2 k 8); lia.
Qed.

Lemma byte_bits b i : 0 <= b < 256 -> 8 <= i -> Z.testbit b i = false.
Proof.
  intros. rewrite <- (Z.mod_small b (2 ^ 8)) by (simpl; lia). by apply Z.mod_pow2_bits_high.
Qed.

Lemma full_byte_bits k : 0 <= k < 8 -> Z.testbit FULL_BYTE k = true.
Proof. intros. change FULL_BYTE with (Z.ones 8). apply Z.ones_spec_low. lia. Qed.

Lemma land_pow2_zero b k : 0 <= k -> (Z.land b (2 ^ k) =? 0) = negb (Z.testbit b k).
Proof.
  intros. destruct (Z.testbit b k) eqn:E; simpl.
  - apply Z.eqb_neq. intros E0. apply (f_equal (fun x => Z.testbit x k)) in E0.
    rewrite Z.land_spec, E, Z.pow2_bits_true, Z.bits_0 in E0 by lia. done.
  - apply Z.eqb_eq. apply Z.bits_inj'. intros i ?. rewrite Z.land_spec, Z.bits_0.
    destruct (decide (i = k)) as [->|]; [by rewrite E|].
    rewrite Z.pow2_bits_false by lia. apply andb_false_r.
Qed.

Lemma lor_byte b k : 0 <= b < 256 -> 0 <= k < 8 -> 0 <= Z.lor b (2 ^ k) < 256.
Proof.
  intros. assert (0 <= Z.lor b (2 ^ k)) by (apply Z.lor_nonneg; split; [lia|apply Z.pow_nonneg; lia]).
  split; [done|]. apply Z.log2_lt_cancel. change (Z.log2 256) with 8.
  rewrite Z.log2_lor by (try apply Z.pow_nonneg; lia). rewrite Z.log2_pow2 by lia.
  assert (Z.log2 b <= Z.log2 255) by (apply Z.log2_le_mono; lia).
  change (Z.log2 255) with 7 in *. lia.
Qed.

Lemma land_byte b m : 0 <= b < 256 -> 0 <= m -> 0 <= Z.land b m < 256.
Proof.
  intros. split; [apply Z.land_nonneg; lia|].
  assert (Z.land b m <= b); [|lia]. apply Z.ldiff_le; [lia|].
  apply Z.bits_inj'. intros i ?. rewrite Z.ldiff_spec, Z.land_spec, Z.bits_0.
  by destruct (Z.testbit b i), (Z.testbit m i).
Qed.

Lemma clear_mask_bit k i :
  0 <= k < 8 -> 0 <= i < 8 ->
  Z.testbit (to_byte (Z.lnot (Z.shiftl 1 k))) i = negb (bool_decide (i = k)).
Proof.
  intros. unfold to_byte. change 256 with (2 ^ 8).
  rewrite Z.mod_pow2_bits_low, Z.lnot_spec, Z.shiftl_1_l by lia.
  case_bool_decide as E; [subst; by rewrite Z.pow2_bits_true by lia|].
  by rewrite Z.pow2_bits_false by lia.
Qed.

(** ** The bit operations on the bitset *)

Lemma read_byte_inside f i : 0 <= i < zlen (frame_bitset f) ->
  exists b, zget (frame_bitset f) i = Some b /\ read_byte i f = Some (b, f).
Proof.
  intros Hi. destruct (zget_inside _ _ Hi) as [b Hb]. exists b. split; [done|].
  unfold read_byte. by rewrite Hb.
Qed.

Lemma byte_in_range f i b : frames_wf f -> zget (frame_bitset f) i = Some b -> 0 <= b < 256.
Proof.
  intros Hwf. unfold zget. case_decide; [|done]. intros Hb.
  pose proof (fw_bytes _ Hwf) as HF. rewrite Forall_lookup in HF. eauto.
Qed.

Lemma frame_bit_some f n b :
  zget (frame_bitset f) (Z.shiftr n BYTE_SHIFT) = Some b ->
  frame_bit f n = Z.testbit b (Z.land n BIT_OFFSET).
Proof. intros Hb. unfold frame_bit. by rewrite Hb. Qed.

(** [f'] is [f] with other bits; [bits m] says what bit [m] is now. *)
Record bits_updated (f f' : frames_t) (bits : Z -> bool) : Prop := {
  bu_bytes : Forall (fun b => 0 <= b < 256) (frame_bitset f');
  bu_len : zlen (frame_bitset f') = zlen (frame_bitset f);
  bu_next : next_free f' = next_free f;
  bu_num : NUM_FRAMES f' = NUM_FRAMES f;
  bu_bits : forall m, frame_bit f' m = bits m
}.

Lemma write_byte_bits f n b b' bits :
  frames_wf f ->
  zget (frame_bitset f) (Z.shiftr n BYTE_SHIFT) = Some b ->
  0 <= b' < 256 ->
  (forall m, bits m = if decide (Z.shiftr m BYTE_SHIFT = Z.shiftr n BYTE_SHIFT)
                      then Z.testbit b' (Z.land m BIT_OFFSET) else frame_bit f m) ->
  wp (write_byte (Z.shiftr n BYTE_SHIFT) b') (fun _ f' => bits_updated f f' bits) f.
Proof.
  intros Hwf Hb Hb' Hbits. pose proof (zget_Some _ _ _ Hb) as Hi.
  unfold wp, write_byte. rewrite zset_inside by done.
  split; simpl; autorewrite with yalnix_rw; try done.
  - apply Forall_insert; [apply Hwf|done].
  - intros m. unfold frame_bit. simpl. rewrite Hbits. case_decide as E.
    + rewrite E, zget_insert_eq by done. done.
    + rewrite zget_insert_ne by (lia || done). done.
Qed.

Section bit_specs.
Context `{Machine}.

Lemma check_if_free_spec f n :
  frames_wf f -> 0 <= n < 8 * zlen (frame_bitset f) ->
  check_if_free n f = Some (negb (frame_bit f n), f).
Proof.
  intros Hwf Hn. unfold check_if_free.
  assert (0 <= Z.shiftr n BYTE_SHIFT < zlen (frame_bitset f)) as Hi
    by (rewrite byte_num_div; pose proof (Z.div_mod n 8); pose proof (Z.mod_pos_bound n 8); lia).
  destruct (read_byte_inside _ _ Hi) as (b & Hb & Hr).
  pose proof (bit_offset_range n). pose proof (byte_in_range _ _ _ Hwf Hb).
  rewrite (frame_bit_some _ _ _ Hb).
  unfold mbind, M_bind. rewrite Hr. destruct (Z.eqb_spec b FULL_BYTE) as [->|].
  - by rewrite full_byte_bits.
  - rewrite Hr, to_byte_shift by done. by rewrite land_pow2_zero by lia.
Qed.

(** At the end of the table the byte behind it may be read: whatever it
    holds, nothing changes. *)
Lemma check_if_free_end f n :
  frames_wf f -> n = 8 * zlen (frame_bitset f) -> exists b, check_if_free n f = Some (b, f).
Proof.
  intros Hwf ->. unfold check_if_free, mbind, M_bind.
  replace (Z.shiftr (8 * zlen (frame_bitset f)) BYTE_SHIFT) with (zlen (frame_bitset f))
    by (rewrite byte_num_div, Z.mul_comm, Z.div_mul; lia).
  assert (read_byte (zlen (frame_bitset f)) f = Some (after_bitset f, f)) as ->.
  { unfold read_byte. rewrite Z.eqb_refl. destruct (zget _ _) eqn:E; [|done].
    apply zget_Some in E. lia. }
  destruct (_ =? _); [by eexists|]. unfold read_byte. rewrite Z.eqb_refl.
  destruct (zget _ _) eqn:E; [|by eexists]. apply zget_Some in E. lia.
Qed.

Lemma set_frame_spec f n :
  frames_wf f -> 0 <= n < NUM_FRAMES f ->
  wp (set_frame n)
    (fun _ f' => bits_updated f f' (fun m => bool_decide (m = n) || frame_bit f m)) f.
Proof.
  intros Hwf Hn. pose proof (fw_size _ Hwf). unfold set_frame.
  assert (0 <= Z.shiftr n BYTE_SHIFT < zlen (frame_bitset f)) as Hi
    by (rewrite byte_num_div; pose proof (Z.div_mod n 8); pose proof (Z.mod_pos_bound n 8); lia).
  destruct (read_byte_inside _ _ Hi) as (b & Hb & Hr). cbv zeta. apply wp_bind.
  unfold wp at 1. rewrite Hr. pose proof (byte_in_range _ _ _ Hwf Hb).
  pose proof (bit_offset_range n). rewrite to_byte_shift by done.
  eapply write_byte_bits; [done|done|by apply lor_byte|].
  intros m. pose proof (bit_offset_range m). case_decide as E.
  - rewrite <- E in Hb. rewrite Z.lor_spec, <- (frame_bit_some _ _ _ Hb), orb_comm.
    rewrite Z.pow2_bits_eqb by lia. f_equal.
    case_bool_decide as E'; [subst; by rewrite Z.eqb_refl|].
    symmetry. apply Z.eqb_neq. intros ?. apply E'. by apply bit_index_inj.
  - rewrite bool_decide_eq_false_2; [done|]. by intros ->.
Qed.

Lemma clear_frame_spec f n :
  frames_wf f -> 0 <= n < NUM_FRAMES f ->
  wp (clear_frame n)
    (fun _ f' => bits_updated f f' (fun m => negb (bool_decide (m = n)) && frame_bit f m)) f.
Proof.
  intros Hwf Hn. pose proof (fw_size _ Hwf). unfold clear_frame.
  assert (0 <= Z.shiftr n BYTE_SHIFT < zlen (frame_bitset f)) as Hi
    by (rewrite byte_num_div; pose proof (Z.div_mod n 8); pose proof (Z.mod_pos_bound n 8); lia).
  destruct (read_byte_inside _ _ Hi) as (b & Hb & Hr). cbv zeta. apply wp_bind.
  unfold wp at 1. rewrite Hr. pose proof (byte_in_range _ _ _ Hwf Hb).
  pose proof (bit_offset_range n).
  eapply write_byte_bits; [done|done|apply land_byte; [done|apply Z.mod_pos_bound; lia]|].
  intros m. pose proof (bit_offset_range m). case_decide as E.
  - rewrite <- E in Hb. rewrite Z.land_spec, <- (frame_bit_some _ _ _ Hb), andb_comm.
    rewrite clear_mask_bit by lia. do 2 f_equal. apply bool_decide_ext.
    split; [congruence|]. by intros; apply bit_index_inj.
  - rewrite bool_decide_eq_false_2; [done|]. by intros ->.
Qed.

(** *** The free set *)

Lemma elem_of_free_set f pfn :
  pfn ∈ free_set f <-> frame_range f pfn /\ frame_bit f (subtract_base pfn) = false.
Proof.
  unfold free_set, frame_range, subtract_base, add_base.
  rewrite elem_of_list_to_set, list_elem_of_fmap. split.
  - intros (n & -> & Hn). rewrite list_elem_of_filter, elem_of_seqZ in Hn.
    replace (n + PMEM_BASE_FRAME - PMEM_BASE_FRAME) with n by lia. destruct Hn. split; [lia|done].
  - intros [? ?]. exists (pfn - PMEM_BASE_FRAME). split; [lia|].
    rewrite list_elem_of_filter, elem_of_seqZ. split; [done|lia].
Qed.

Lemma find_frame_search f :
  frames_wf f ->
  wp (while_ (find_frame_fuel f)
       (n ← gets next_free; free ← check_if_free n; num ← gets NUM_FRAMES;
        mret (negb free && (n <? num)))
       (modify (fun f => set_next_free (next_free f + 1) f)))
    (fun _ f' => exists n, f' = set_next_free n f /\ frames_wf f' /\
       (n < NUM_FRAMES f -> frame_bit f n = false)) f.
Proof.
  intros Hwf.
  apply (wp_while _ _ _ (fun f' => exists n, f' = set_next_free n f /\ frames_wf f')
           (fun f' => Z.to_nat (NUM_FRAMES f' - next_free f'))).
  - exists (next_free f). by destruct f.
  - unfold find_frame_fuel. lia.
  - intros f1 (n & -> & Hwf1). pose proof (fw_next _ Hwf1) as Hn. simpl in Hn.
    pose proof (fw_size _ Hwf1). simpl in *.
    wp_steps. simpl. destruct (decide (n = NUM_FRAMES f)) as [->|].
    + assert (exists b, check_if_free (NUM_FRAMES f) (set_next_free (NUM_FRAMES f) f)
        = Some (b, set_next_free (NUM_FRAMES f) f)) as [b Hb].
      { destruct (decide (NUM_FRAMES f = 8 * zlen (frame_bitset f))).
        - by apply check_if_free_end.
        - eexists. apply check_if_free_spec; [done|simpl; lia]. }
      unfold wp at 1. rewrite Hb. wp_steps. simpl. rewrite Z.ltb_irrefl, andb_false_r.
      exists (NUM_FRAMES f). repeat split; try apply Hwf1. lia.
    + unfold wp at 1. rewrite check_if_free_spec by (simpl; done || lia). wp_steps.
      simpl. assert ((n <? NUM_FRAMES f) = true) as -> by lia. rewrite andb_true_r, negb_involutive.
      change (frame_bit (set_next_free n f)) with (frame_bit f).
      destruct (frame_bit f n) eqn:E.
      * wp_steps. split; [|simpl; lia]. exists (n + 1). split; [done|].
        destruct Hwf1 as [? ? ? Hb]. split; simpl in *; [done|done|lia|].
        intros m Hm. destruct (decide (m = n)) as [->|]; [done|]. apply Hb. lia.
      * exists n. repeat split; try apply Hwf1. done.
Qed.
End bit_specs.

Lemma bits_updated_wf f f' bits :
  frames_wf f -> bits_updated f f' bits ->
  (forall m, 0 <= m < next_free f -> bits m = true) -> frames_wf f'.
Proof.
  intros [? ? ? ?] [? Hl Hn Hf Hb] Hbits. split; rewrite ?Hl, ?Hn, ?Hf; try done.
  intros n ?. rewrite Hb. auto.
Qed.

Lemma initial_block_wf num block after :
  0 <= num <= 8 * zlen block -> Forall (fun b => b = 0) block ->
  frames_wf {| frame_bitset := block; after_bitset := after; next_free := 0; NUM_FRAMES := num |}.
Proof.
  intros ? HF. split; simpl; [|lia|lia|lia].
  eapply Forall_impl; [exact HF|]. simpl. lia.
Qed.

(** ** The allocator's contract *)
Section allocator.
Context `{MachineOk}.

Lemma pmem_base_frame_nonneg : 0 <= PMEM_BASE_FRAME.
Proof.
  change PMEM_BASE_FRAME with (vpn_of PMEM_BASE). rewrite vpn_of_div.
  apply Z.div_pos; [apply pmem_base_nonneg|apply pagesize_pos].
Qed.

Lemma free_set_range f pfn : pfn ∈ free_set f -> frame_range f pfn.
Proof. rewrite elem_of_free_set. by intros []. Qed.

(** A frame number is never the error code. *)
Lemma free_set_not_error f pfn : pfn ∈ free_set f -> pfn <> ERROR.
Proof.
  intros Hp%free_set_range. pose proof pmem_base_frame_nonneg.
  unfold frame_range, ERROR in *. lia.
Qed.

Lemma free_set_update f f' bits (X : gset Z) :
  bits_updated f f' bits ->
  (forall pfn, frame_range f pfn -> (bits (subtract_base pfn) = false <-> pfn ∈ X)) ->
  (forall pfn, pfn ∈ X -> frame_range f pfn) ->
  free_set f' = X.
Proof.
  intros [_ _ _ Hn Hb] Hbits HX. apply set_eq. intros pfn.
  rewrite elem_of_free_set, Hb. unfold frame_range in *. rewrite Hn. naive_solver.
Qed.

(** What [find_frame] promises: with free frames left it takes the lowest
    one; without, it answers [ERROR] and takes nothing. *)
Record found_frame (f : frames_t) (r : Z) (f' : frames_t) : Prop := {
  ff_wf : frames_wf f';
  ff_num : NUM_FRAMES f' = NUM_FRAMES f;
  ff_res : (r ∈ free_set f /\ (forall x, x ∈ free_set f -> r <= x)
            /\ free_set f' = free_set f ∖ {[ r ]})
           \/ (r = ERROR /\ free_set f = ∅ /\ free_set f' = ∅)
}.

Lemma find_frame_ok f : frames_wf f -> wp find_frame (found_frame f) f.
Proof.
  intros Hwf. unfold find_frame. wp_steps. wp_call find_frame_search; [done|].
  simpl. intros [] ? (n & -> & Hwf1 & Hfree). wp_steps. simpl.
  pose proof (fw_next _ Hwf1) as Hn. simpl in Hn.
  assert (forall x, x ∈ free_set f -> add_base n <= x) as Hlow.
  { intros x [Hx Hbit]%elem_of_free_set. destruct (decide (add_base n <= x)); [done|].
    unfold add_base, subtract_base, frame_range in *.
    assert (frame_bit f (x - PMEM_BASE_FRAME) = true); [|congruence].
    apply (fw_below _ Hwf1). simpl. lia. }
  wp_if; simp_bool.
  - wp_steps. split; [done..|]. right. split; [done|].
    assert (free_set f = ∅) as HE.
    { apply set_eq. intros x. split; [|set_solver]. intros Hx.
      pose proof (Hlow _ Hx). apply free_set_range in Hx.
      unfold frame_range, add_base in *. lia. }
    split; done.
  - wp_steps. wp_call set_frame_spec; [done|simpl; lia|].
    intros [] f' Hf'. simpl in *. wp_steps.
    assert (frame_bit f n = false) as Hbit by (apply Hfree; lia).
    assert (bits_updated f (set_next_free (next_free f) f')
              (fun m => bool_decide (m = n) || frame_bit f m)) as Hupd.
    { destruct Hf' as [? Hl ? Hnum Hb]. split; simpl; done. }
    split.
    + pose proof (bits_updated_wf _ _ _ Hwf1 Hf') as [? ? ? Hbelow].
      { intros m ?. apply orb_true_iff. right. by apply (fw_below _ Hwf1). }
      pose proof (bu_num _ _ _ Hf') as Hnum. pose proof (bu_bits _ _ _ Hf') as Hb. simpl in *.
      split; simpl; [done|done|rewrite Hnum; lia|].
      intros m ?. change (frame_bit f' m = true). rewrite Hb.
      case_bool_decide; [done|]. apply (fw_below _ Hwf1). simpl. lia.
    + simpl. by rewrite (bu_num _ _ _ Hf').
    + left. split; [|split; [done|]].
      * apply elem_of_free_set. unfold frame_range, add_base, subtract_base.
        split; [lia|]. by rewrite Z.add_simpl_r.
      * change (free_set (set_next_free (next_free f) f') = free_set f ∖ {[add_base n]}).
        apply (free_set_update _ _ _ _ Hupd).
        -- intros pfn Hp. rewrite orb_false_iff, bool_decide_eq_false, elem_of_difference,
             elem_of_free_set, elem_of_singleton.
           unfold add_base, subtract_base in *. naive_solver lia.
        -- intros pfn [? _]%elem_of_difference. by apply free_set_range.
Qed.

(** [acquire_frame] takes the frame it names, if it is free. *)
Lemma acquire_frame_ok f pfn :
  frames_wf f -> frame_range f pfn ->
  wp (acquire_frame pfn) (fun r f' => frames_wf f' /\ NUM_FRAMES f' = NUM_FRAMES f /\
    r = bool_decide (pfn ∈ free_set f) /\ free_set f' = free_set f ∖ {[pfn]}) f.
Proof.
  intros Hwf Hr. pose proof (fw_size _ Hwf). unfold acquire_frame. wp_steps.
  unfold frame_range, subtract_base in *.
  unfold wp at 1. rewrite check_if_free_spec by (done || lia).
  rewrite negb_involutive. wp_if; wp_steps.
  - assert (pfn ∉ free_set f) as Hn
      by (intros [_ HE]%elem_of_free_set; unfold subtract_base in *; congruence).
    split; [done|]. split; [done|]. rewrite bool_decide_eq_false_2 by done.
    split; [done|]. set_solver.
  - wp_call set_frame_spec; [done|lia|]. intros [] f' Hf'. wp_steps.
    assert (pfn ∈ free_set f) by (by apply elem_of_free_set).
    split; [|split; [apply Hf'|split; [by rewrite bool_decide_eq_true_2|]]].
    + apply (bits_updated_wf _ _ _ Hwf Hf'). intros m ?. apply orb_true_iff. right.
      by apply (fw_below _ Hwf).
    + apply (free_set_update _ _ _ _ Hf').
      * intros x Hx. rewrite orb_false_iff, bool_decide_eq_false, elem_of_difference,
          elem_of_free_set, elem_of_singleton. unfold subtract_base, frame_range in *.
        naive_solver lia.
      * intros x [? _]%elem_of_difference. by apply free_set_range.
Qed.

(** [free_frame] gives back a frame that is in use, and refuses the rest. *)
Lemma free_frame_ok f pfn :
  frames_wf f ->
  wp (free_frame pfn) (fun r f' => frames_wf f' /\ NUM_FRAMES f' = NUM_FRAMES f /\
    (if decide (frame_range f pfn /\ pfn ∉ free_set f)
     then r = true /\ free_set f' = free_set f ∪ {[pfn]}
     else r = false /\ f' = f)) f.
Proof.
  intros Hwf. pose proof (fw_size _ Hwf). unfold free_frame. wp_steps. wp_if; wp_steps.
  - split; [done|]. split; [done|]. rewrite decide_False; [done|].
    intros [Hr _]. unfold frame_range, subtract_base in *. lia.
  - simp_bool. unfold wp at 1. rewrite check_if_free_spec by (done || lia).
    assert (frame_range f pfn) as Hr by (unfold frame_range, subtract_base in *; lia).
    destruct (frame_bit f (subtract_base pfn)) eqn:Hbit; simpl.
    + wp_steps. wp_call clear_frame_spec; [done|unfold frame_range in *; lia|].
      intros [] f' Hf'. wp_steps. rewrite decide_True.
      2: { split; [done|]. intros [_ ?]%elem_of_free_set. congruence. }
      pose proof (bu_next _ _ _ Hf') as Hn. pose proof (bu_num _ _ _ Hf') as Hnum.
      pose proof (bu_bits _ _ _ Hf') as Hb. pose proof (fw_next _ Hwf).
      split; [|split; [done|split; [done|]]].
      * split; simpl; rewrite ?Hnum, ?(bu_len _ _ _ Hf'), ?Hn; [apply Hf'|done|case_match; lia|].
        intros m Hm. change (frame_bit f' m = true). rewrite Hb, andb_true_iff, negb_true_iff.
        rewrite bool_decide_eq_false. destruct (subtract_base pfn <? next_free f) eqn:E; simp_bool.
        -- split; [lia|]. apply (fw_below _ Hwf). lia.
        -- split; [lia|]. apply (fw_below _ Hwf). lia.
      * assert (bits_updated f (set_next_free (next_free f) f') (fun m =>
           negb (bool_decide (m = subtract_base pfn)) && frame_bit f m)) as Hu
          by (by destruct Hf' as [? Hl ? ? ?]; split).
        apply (free_set_update _ _ _ _ Hu).
        -- intros x Hx. rewrite andb_false_iff, negb_false_iff, bool_decide_eq_true,
             elem_of_union, elem_of_free_set, elem_of_singleton.
           unfold subtract_base, frame_range in *. naive_solver lia.
        -- intros x [?%free_set_range| ->%elem_of_singleton]%elem_of_union; done.
    + wp_steps. split; [done|]. split; [done|]. rewrite decide_False; [done|].
      intros [_ Hn]. apply Hn. by apply elem_of_free_set.
Qed.
End allocator.

(** ** The size of the bitset *)

Lemma bitset_size_even n : bitset_size n = 2 * ((n + 7) / 8 / 2).
Proof.
  unfold bitset_size, UP_TO_BYTE, BYTE_MASK, BIT_OFFSET, BYTE_SIZE, BYTE_SHIFT.
  rewrite Z.shiftr_land, !Z.shiftr_div_pow2 by lia. change (Z.lnot 8 / 2 ^ 3) with (Z.lnot 1).
  change (8 - 1) with 7. change (2 ^ 3) with 8. set (k := (n + 7) / 8).
  rewrite <- Z.ldiff_land. change 1 with (Z.ones 1). rewrite Z.ldiff_ones_r by lia.
  rewrite Z.shiftl_mul_pow2, Z.shiftr_div_pow2 by lia. change (2 ^ 1) with 2. lia.
Qed.

Lemma zero_block_set_last (f : frames_t) n :
  frame_bitset f = replicate (Z.to_nat (bitset_size n)) 0 ->
  0 < n -> Z.even ((n + 7) / 8) = false -> set_frame (n - 1) f = None.
Proof.
  intros Hbs Hn Hk. unfold set_frame, mbind, M_bind, read_byte, write_byte.
  rewrite byte_num_div. rewrite <- Z.negb_odd in Hk.
  apply negb_false_iff, Z.odd_spec in Hk as [h Hh].
  assert (Z.of_nat (length (frame_bitset f)) = (n - 1) / 8) as Hlen.
  { rewrite Hbs, length_replicate, bitset_size_even, Hh.
    rewrite (Z.mul_comm 2 h), Z.div_add_l by lia. change (1 / 2) with 0.
    replace (n + 7) with (n - 1 + 1 * 8) in Hh by lia. rewrite Z.div_add in Hh by lia.
    assert (0 <= (n - 1) / 8) by (apply Z.div_pos; lia). lia. }
  assert (zget (frame_bitset f) ((n - 1) / 8) = None) as ->.
  { destruct (zget _ _) eqn:E; [|done]. apply zget_Some in E. unfold zlen in E. lia. }
  unfold zset, zlen. rewrite Hlen, Z.eqb_refl. case_decide; [lia|done].
Qed.

(** ** A concrete allocator: frames 0 and 1 of 16 are in use *)
Definition demo_frames : frames_t :=
  {| frame_bitset := [3; 0]; after_bitset := 0; next_free := 2; NUM_FRAMES := 16 |}.

Lemma demo_frames_wf : frames_wf demo_frames.
Proof.
  split; simpl; [repeat constructor; lia|vm_compute; done|lia|].
  intros n Hn. assert (n = 0 \/ n = 1) as [-> | ->] by lia; reflexivity.
Defined.

(** ** Properties *)

(** Run on a well-formed allocator, [find_frame] has no undefined
    behaviour and ends; when some frame is free it returns the lowest-numbered
    free frame and takes exactly that one, and when none is free it returns
    [ERROR] and takes none. *)
Theorem find_frame_lowest `{MachineOk} (f : frames_t) :
  frames_wf f ->
  exists r f', find_frame f = Some (r, f') /\ frames_wf f' /\
    ((free_set f <> ∅ /\ r <> ERROR /\ r ∈ free_set f /\ (forall x, x ∈ free_set f -> r <= x) /\
      free_set f' = free_set f ∖ {[r]}) \/
     (free_set f = ∅ /\ r = ERROR /\ free_set f' = ∅)).
Proof.
  intros (r & f' & Hrun & [Hwf' _ Hres])%find_frame_ok%wp_run. exists r, f'.
  split; [done|]. split; [done|]. destruct Hres as [(Hin & Hmin & HE)|(-> & ? & ?)]; [left|by right].
  split; [set_solver|]. split; [by eapply free_set_not_error|done].
Qed.

Lemma find_frame_lowest_witness :
  frames_wf demo_frames /\
  exists r f', @find_frame demo_machine demo_frames = Some (r, f') /\ frames_wf f' /\
    ((@free_set demo_machine demo_frames <> ∅ /\ r <> ERROR /\ r ∈ @free_set demo_machine demo_frames /\
      (forall x, x ∈ @free_set demo_machine demo_frames -> r <= x) /\
      @free_set demo_machine f' = @free_set demo_machine demo_frames ∖ {[r]}) \/
     (@free_set demo_machine demo_frames = ∅ /\ r = ERROR /\ @free_set demo_machine f' = ∅)).
Proof.
  split; [exact demo_frames_wf|].
  apply (@find_frame_lowest demo_machine demo_machine_ok demo_frames demo_frames_wf).
Defined.

(** [free_frame] makes exactly the frame it is given free again, and only
    a frame of the managed range that is in use; a double free and a frame
    outside of the range are refused and change nothing. *)
Theorem free_frame_exact `{MachineOk} (f : frames_t) (pfn : Z) :
  frames_wf f ->
  exists r f', free_frame pfn f = Some (r, f') /\ frames_wf f' /\
    (r = true <-> frame_range f pfn /\ pfn ∉ free_set f) /\
    (r = true -> free_set f' = free_set f ∪ {[pfn]}) /\
    (r = false -> f' = f).
Proof.
  intros Hwf. pose proof (free_frame_ok f pfn Hwf) as (r & f' & Hrun & Hwf' & _ & Hres)%wp_run.
  exists r, f'. split; [done|]. split; [done|]. case_decide; destruct Hres as [-> ?]; naive_solver.
Qed.

Lemma free_frame_exact_witness :
  frames_wf demo_frames /\
  exists r f', @free_frame demo_machine 1 demo_frames = Some (r, f') /\ frames_wf f' /\
    (r = true <-> @frame_range demo_machine demo_frames 1 /\ 1 ∉ @free_set demo_machine demo_frames) /\
    (r = true -> @free_set demo_machine f' = @free_set demo_machine demo_frames ∪ {[1]}) /\
    (r = false -> f' = demo_frames).
Proof.
  split; [exact demo_frames_wf|].
  apply (@free_frame_exact demo_machine demo_machine_ok demo_frames 1 demo_frames_wf).
Defined.

(** The block allocated for the bitset has a bit for every frame exactly
    when the number of bytes needed is even, because [BYTE_MASK] clears bit 3
    instead of the low three bits; when it is odd the block is one byte short
    and marking the last frame writes outside of it. *)
Theorem bitset_covers_iff (n : Z) (f : frames_t) :
  0 < n -> frame_bitset f = replicate (Z.to_nat (bitset_size n)) 0 ->
  (n <= 8 * zlen (frame_bitset f) <-> Z.even ((n + 7) / 8) = true) /\
  (Z.even ((n + 7) / 8) = false -> set_frame (n - 1) f = None).
Proof.
  intros Hn Hbs. split; [|by apply zero_block_set_last].
  unfold zlen. rewrite Hbs, length_replicate, bitset_size_even, Zeven_mod, Z.eqb_eq.
  pose proof (Z.div_mod (n + 7) 8). pose proof (Z.mod_pos_bound (n + 7) 8).
  set (k := (n + 7) / 8) in *. clearbody k.
  pose proof (Z.div_mod k 2). pose proof (Z.mod_pos_bound k 2).
  set (q := k / 2) in *. set (r := k mod 2) in *. clearbody q r. lia.
Qed.

Lemma bitset_covers_iff_witness :
  let f := {| frame_bitset := [0; 0]; after_bitset := 0; next_free := 0; NUM_FRAMES := 20 |} in
  0 < 20 /\ frame_bitset f = replicate (Z.to_nat (bitset_size 20)) 0 /\
  Z.even ((20 + 7) / 8) = false /\ set_frame 19 f = None.
Proof.
  split; [lia|]. split; [reflexivity|]. split; [reflexivity|].
  apply (bitset_covers_iff 20); [lia|reflexivity|reflexivity].
Defined.
