(* ===== verification/FrameModel.v ===== *)
(** * The frame allocator as a set

    What the callers of [frame_tracking.c] see of it, for any sequence of calls:
    the answers of a set of free frames that gives away its least element.  The
    definitions of the code are in [FrameTracking]. *)

From S2P Require Import Prelude Machine FrameTracking.

(** ** The calls and the reference *)
Inductive frame_call := FindFrame | AcquireFrame (pfn : Z) | FreeFrame (pfn : Z).
Inductive frame_answer := Frame (pfn : Z) | Success (b : bool).

(** The least element of a set. *)
Definition lower (x : Z) (m : option Z) : option Z :=
  match m with Some y => Some (Z.min x y) | None => Some x end.
Definition least (X : gset Z) : option Z := foldr lower None (elements X).

(** The answer of a set of free frames out of [lo .. lo + n - 1], and the set
    after it. *)
Definition ref_call (lo n : Z) (c : frame_call) (free : gset Z) : frame_answer * gset Z :=
  match c with
  | FindFrame =>
      match least free with
      | Some p => (Frame p, free ∖ {[p]})
      | None => (Frame ERROR, free)
      end
  | AcquireFrame p => (Success (bool_decide (p ∈ free)), free ∖ {[p]})
  | FreeFrame p =>
      if decide (lo <= p < lo + n /\ p ∉ free) then (Success true, free ∪ {[p]}) else (Success false, free)
  end.
Fixpoint ref_calls (lo n : Z) (cs : list frame_call) (free : gset Z) : list frame_answer * gset Z :=
  match cs with
  | [] => ([], free)
  | c :: cs' =>
      let '(a, free1) := ref_call lo n c free in
      let '(rest, free2) := ref_calls lo n cs' free1 in
      (a :: rest, free2)
  end.

Section code.
Context {hw : Machine}.

(** The same calls of the code. *)
Definition run_call (c : frame_call) : M frames_t frame_answer :=
  match c with
  | FindFrame => p ← find_frame; mret (Frame p)
  | AcquireFrame p => ok ← acquire_frame p; mret (Success ok)
  | FreeFrame p => ok ← free_frame p; mret (Success ok)
  end.
Fixpoint run_calls (cs : list frame_call) : M frames_t (list frame_answer) :=
  match cs with
  | [] => mret []
  | c :: cs' => a ← run_call c; rest ← run_calls cs'; mret (a :: rest)
  end.

(** [acquire_frame] does not check its argument: the kernel asks for frames of
    the machine only. *)
Definition in_machine (f : frames_t) (c : frame_call) : Prop :=
  match c with AcquireFrame p => frame_range f p | _ => True end.
End code.

(** ** Lemmas *)
Lemma least_None X : least X = None <-> X = ∅.
Proof.
  unfold least. split; [|by intros ->].
  intros E. apply leibniz_equiv, elements_empty_iff. destruct (elements X) as [|x l]; [done|]. simpl in E.
  by destruct (foldr lower None l).
Qed.
Lemma fold_lower l p : foldr lower None l = Some p -> p ∈ l /\ forall x, x ∈ l -> p <= x.
Proof.
  revert p. induction l as [|y l IH]; intros p; simpl; [done|].
  destruct (foldr lower None l) as [q|] eqn:E; simpl; intros [= <-].
  - destruct (IH q eq_refl) as [Hq Hl]. split.
    + destruct (Z.min_spec y q) as [[_ ->]|[_ ->]]; [by left|by right].
    + intros x [->|Hx]%elem_of_cons; [lia|]. specialize (Hl x Hx). lia.
  - destruct l as [|z l]; [split; [by left|intros x ->%list_elem_of_singleton; lia]|]. simpl in E.
    by destruct (foldr lower None l).
Qed.
Lemma least_Some X p : least X = Some p <-> p ∈ X /\ forall x, x ∈ X -> p <= x.
Proof.
  split.
  - intros [Hp Hl]%fold_lower. split; [by apply elem_of_elements|]. intros x Hx. by apply Hl, elem_of_elements.
  - intros [Hp Hl]. destruct (least X) as [q|] eqn:E.
    + apply fold_lower in E as [Hq Hl']. f_equal. apply Z.le_antisymm.
      * apply Hl'. by apply elem_of_elements.
      * apply Hl. by apply elem_of_elements in Hq.
    + apply least_None in E as ->. set_solver.
Qed.

Section model.
Context {hw : Machine} {hw_ok : MachineOk}.

Lemma run_call_ok c f :
  frames_wf f -> in_machine f c ->
  wp (run_call c) (fun a f' => frames_wf f' /\ NUM_FRAMES f' = NUM_FRAMES f /\
    (a, free_set f') = ref_call PMEM_BASE_FRAME (NUM_FRAMES f) c (free_set f)) f.
Proof.
  intros Hwf Hin. destruct c as [|p|p]; simpl in *; wp_step.
  - eapply wp_mono; [by apply find_frame_ok|]. intros r f' [Hwf' Hn Hres]. wp_step. do 2 (split; [done|]).
    destruct Hres as [(Hr & Hl & ->)|(-> & -> & ->)]; [|done].
    by rewrite (proj2 (least_Some _ r)).
  - eapply wp_mono; [by apply acquire_frame_ok|]. intros ok f' (Hwf' & Hn & -> & Hf). wp_step. by rewrite Hf.
  - eapply wp_mono; [by apply free_frame_ok|]. intros ok f' (Hwf' & Hn & Hres). wp_step. do 2 (split; [done|]).
    unfold frame_range in Hres.
    repeat case_decide; try tauto; destruct Hres as [-> Hf]; [by rewrite Hf|by subst].
Qed.

Lemma run_calls_ok cs : forall f,
  frames_wf f -> Forall (in_machine f) cs ->
  wp (run_calls cs) (fun rs f' => frames_wf f' /\ NUM_FRAMES f' = NUM_FRAMES f /\
    (rs, free_set f') = ref_calls PMEM_BASE_FRAME (NUM_FRAMES f) cs (free_set f)) f.
Proof.
  induction cs as [|c cs IH]; intros f Hwf Hin; simpl; [by wp_step|]. inversion Hin as [|? ? Hc Hcs]; subst.
  wp_step. eapply wp_mono; [by apply run_call_ok|]. intros a f1 (Hwf1 & Hn1 & E1).
  wp_step. eapply wp_mono; [apply IH; [done|]|].
  - eapply Forall_impl; [exact Hcs|]. intros [| |]; simpl; unfold frame_range; by rewrite ?Hn1.
  - intros rs f' (Hwf' & Hn' & E). wp_step. rewrite <- E1. cbn [fst snd]. rewrite Hn1 in *. rewrite <- E.
    by rewrite Hn'.
Qed.
End model.

(** C19: any sequence of calls of [find_frame], [acquire_frame] (of frames the
    machine has) and [free_frame], on a well-formed allocator, ends without
    undefined behaviour and gives the answers of a set of free frames: the least
    one is given away, or the error code when there is none; a frame is acquired
    exactly when it is free; a frame is freed exactly when it is one of the
    machine's and in use.  The allocator stays well formed, and its free frames
    are those of the set. *)
Theorem allocator_equivalent {hw : Machine} {hw_ok : MachineOk} (f : frames_t) (cs : list frame_call) :
  frames_wf f -> Forall (in_machine f) cs ->
  exists rs f', run_calls cs f = Some (rs, f') /\ frames_wf f' /\
    ref_calls PMEM_BASE_FRAME (NUM_FRAMES f) cs (free_set f) = (rs, free_set f').
Proof.
  intros Hwf Hin. destruct (proj1 (wp_run _ _ _) (run_calls_ok cs f Hwf Hin)) as (rs & f' & Hrun & Hwf' & _ & E).
  by exists rs, f'.
Qed.

(** Frames 2 and 3 are given away, 2 comes back and is given away again. *)
Lemma allocator_equivalent_witness :
  exists f', @run_calls demo_machine [FindFrame; FindFrame; FreeFrame 2; AcquireFrame 5; FreeFrame 9; FindFrame] demo_frames =
      Some ([Frame 2; Frame 3; Success true; Success true; Success false; Frame 2], f') /\ frames_wf f'.
Proof.
  destruct (@allocator_equivalent demo_machine demo_machine_ok demo_frames
    [FindFrame; FindFrame; FreeFrame 2; AcquireFrame 5; FreeFrame 9; FindFrame] demo_frames_wf)
    as (rs & f' & Hrun & Hwf & E).
  - repeat constructor; by vm_compute.
  - exists f'. split; [|exact Hwf]. rewrite Hrun. apply (f_equal fst) in E. vm_compute in E. by rewrite E.
Defined.
