(* ===== verification/Pcb.v ===== *)
(** * Process control blocks ([pcb.c], [pcb.h])

    The C heap holds the process control blocks: [store] maps the addresses of
    the live ones to their contents, so that two pointers to a block are the
    same address and a write through one is seen through the other.  The arrays
    a block owns ([ks_pt], [region1_pt], [children]) are part of it, [None]
    when the pointer is NULL or dangling. *)

From S2P Require Import Prelude Machine.

(** ** Data *)

Notation addr := positive.

Inductive process_state := RUNNING | READY | WAITING | EXITED.
#[export] Instance process_state_eq_dec : EqDecision process_state.
Proof. solve_decision. Defined.

Record mem_ctx_t := {
  region1_pt : option (list pte);
  curr_brk_page : Z;
  orig_brk_page : Z;
  txt_start_page : Z;
  data_start_page : Z
}.

Record rel_t := {
  has_parent : bool;
  children : option (list (option addr));
  num_children : Z;
  arr_size : Z
}.

(** A saved [KernelContext]: what is left to run, in the kernel, when the
    process is switched to again.  The constructors are the places the kernel
    calls [KernelContextSwitch] from, with the locals that are used after it. *)
Inductive kcontext :=
| KC_zero                                   (* never saved *)
| KC_start (init_pcb : positive)             (* [KernelStart] *)
| KC_return                                 (* only the end of the trap handler *)
| KC_wait                                   (* [KernelWait] *)
| KC_tty_write                              (* [kernel_tty_write] *)
| KC_tty_read (tty_id : Z)                  (* [kernel_tty_read] *)
| KC_pipe_read (pipe_id buf len : Z).       (* the loop of [PipeRead_Impl] *)

Record pcb := {
  p_kc : kcontext;
  p_uc : UserContext;
  p_pid : Z;
  p_state : process_state;
  p_relations : rel_t;
  p_exit_code : Z;
  p_wake_up : Z;
  p_brk_page : Z;
  p_next : option addr;
  p_ks_pt : option (list pte);
  p_mem_ctx : mem_ctx_t;
  p_cvar_lock_id : Z;
  p_io_kbuf : option (list Z);
  p_io_user_buf : Z;
  p_io_total : Z;
  p_io_sent : Z;
  p_io_len : Z;
  p_io_tty_id : Z
}.

Definition set_p_kc v (p : pcb) : pcb :=
  {| p_kc := v; p_uc := p_uc p; p_pid := p_pid p; p_state := p_state p;
     p_relations := p_relations p; p_exit_code := p_exit_code p; p_wake_up := p_wake_up p;
     p_brk_page := p_brk_page p; p_next := p_next p; p_ks_pt := p_ks_pt p;
     p_mem_ctx := p_mem_ctx p; p_cvar_lock_id := p_cvar_lock_id p; p_io_kbuf := p_io_kbuf p;
     p_io_user_buf := p_io_user_buf p; p_io_total := p_io_total p; p_io_sent := p_io_sent p;
     p_io_len := p_io_len p; p_io_tty_id := p_io_tty_id p |}.
Definition set_p_uc v (p : pcb) : pcb :=
  {| p_kc := p_kc p; p_uc := v; p_pid := p_pid p; p_state := p_state p;
     p_relations := p_relations p; p_exit_code := p_exit_code p; p_wake_up := p_wake_up p;
     p_brk_page := p_brk_page p; p_next := p_next p; p_ks_pt := p_ks_pt p;
     p_mem_ctx := p_mem_ctx p; p_cvar_lock_id := p_cvar_lock_id p; p_io_kbuf := p_io_kbuf p;
     p_io_user_buf := p_io_user_buf p; p_io_total := p_io_total p; p_io_sent := p_io_sent p;
     p_io_len := p_io_len p; p_io_tty_id := p_io_tty_id p |}.
Definition set_p_state v (p : pcb) : pcb :=
  {| p_kc := p_kc p; p_uc := p_uc p; p_pid := p_pid p; p_state := v;
     p_relations := p_relations p; p_exit_code := p_exit_code p; p_wake_up := p_wake_up p;
     p_brk_page := p_brk_page p; p_next := p_next p; p_ks_pt := p_ks_pt p;
     p_mem_ctx := p_mem_ctx p; p_cvar_lock_id := p_cvar_lock_id p; p_io_kbuf := p_io_kbuf p;
     p_io_user_buf := p_io_user_buf p; p_io_total := p_io_total p; p_io_sent := p_io_sent p;
     p_io_len := p_io_len p; p_io_tty_id := p_io_tty_id p |}.
Definition set_p_relations v (p : pcb) : pcb :=
  {| p_kc := p_kc p; p_uc := p_uc p; p_pid := p_pid p; p_state := p_state p; p_relations := v;
     p_exit_code := p_exit_code p; p_wake_up := p_wake_up p; p_brk_page := p_brk_page p;
     p_next := p_next p; p_ks_pt := p_ks_pt p; p_mem_ctx := p_mem_ctx p;
     p_cvar_lock_id := p_cvar_lock_id p; p_io_kbuf := p_io_kbuf p;
     p_io_user_buf := p_io_user_buf p; p_io_total := p_io_total p; p_io_sent := p_io_sent p;
     p_io_len := p_io_len p; p_io_tty_id := p_io_tty_id p |}.
Definition set_p_exit_code v (p : pcb) : pcb :=
  {| p_kc := p_kc p; p_uc := p_uc p; p_pid := p_pid p; p_state := p_state p;
     p_relations := p_relations p; p_exit_code := v; p_wake_up := p_wake_up p;
     p_brk_page := p_brk_page p; p_next := p_next p; p_ks_pt := p_ks_pt p;
     p_mem_ctx := p_mem_ctx p; p_cvar_lock_id := p_cvar_lock_id p; p_io_kbuf := p_io_kbuf p;
     p_io_user_buf := p_io_user_buf p; p_io_total := p_io_total p; p_io_sent := p_io_sent p;
     p_io_len := p_io_len p; p_io_tty_id := p_io_tty_id p |}.
Definition set_p_wake_up v (p : pcb) : pcb :=
  {| p_kc := p_kc p; p_uc := p_uc p; p_pid := p_pid p; p_state := p_state p;
     p_relations := p_relations p; p_exit_code := p_exit_code p; p_wake_up := v;
     p_brk_page := p_brk_page p; p_next := p_next p; p_ks_pt := p_ks_pt p;
     p_mem_ctx := p_mem_ctx p; p_cvar_lock_id := p_cvar_lock_id p; p_io_kbuf := p_io_kbuf p;
     p_io_user_buf := p_io_user_buf p; p_io_total := p_io_total p; p_io_sent := p_io_sent p;
     p_io_len := p_io_len p; p_io_tty_id := p_io_tty_id p |}.
Definition set_p_next v (p : pcb) : pcb :=
  {| p_kc := p_kc p; p_uc := p_uc p; p_pid := p_pid p; p_state := p_state p;
     p_relations := p_relations p; p_exit_code := p_exit_code p; p_wake_up := p_wake_up p;
     p_brk_page := p_brk_page p; p_next := v; p_ks_pt := p_ks_pt p; p_mem_ctx := p_mem_ctx p;
     p_cvar_lock_id := p_cvar_lock_id p; p_io_kbuf := p_io_kbuf p;
     p_io_user_buf := p_io_user_buf p; p_io_total := p_io_total p; p_io_sent := p_io_sent p;
     p_io_len := p_io_len p; p_io_tty_id := p_io_tty_id p |}.
Definition set_p_ks_pt v (p : pcb) : pcb :=
  {| p_kc := p_kc p; p_uc := p_uc p; p_pid := p_pid p; p_state := p_state p;
     p_relations := p_relations p; p_exit_code := p_exit_code p; p_wake_up := p_wake_up p;
     p_brk_page := p_brk_page p; p_next := p_next p; p_ks_pt := v; p_mem_ctx := p_mem_ctx p;
     p_cvar_lock_id := p_cvar_lock_id p; p_io_kbuf := p_io_kbuf p;
     p_io_user_buf := p_io_user_buf p; p_io_total := p_io_total p; p_io_sent := p_io_sent p;
     p_io_len := p_io_len p; p_io_tty_id := p_io_tty_id p |}.
Definition set_p_mem_ctx v (p : pcb) : pcb :=
  {| p_kc := p_kc p; p_uc := p_uc p; p_pid := p_pid p; p_state := p_state p;
     p_relations := p_relations p; p_exit_code := p_exit_code p; p_wake_up := p_wake_up p;
     p_brk_page := p_brk_page p; p_next := p_next p; p_ks_pt := p_ks_pt p; p_mem_ctx := v;
     p_cvar_lock_id := p_cvar_lock_id p; p_io_kbuf := p_io_kbuf p;
     p_io_user_buf := p_io_user_buf p; p_io_total := p_io_total p; p_io_sent := p_io_sent p;
     p_io_len := p_io_len p; p_io_tty_id := p_io_tty_id p |}.
Definition set_p_cvar_lock_id v (p : pcb) : pcb :=
  {| p_kc := p_kc p; p_uc := p_uc p; p_pid := p_pid p; p_state := p_state p;
     p_relations := p_relations p; p_exit_code := p_exit_code p; p_wake_up := p_wake_up p;
     p_brk_page := p_brk_page p; p_next := p_next p; p_ks_pt := p_ks_pt p;
     p_mem_ctx := p_mem_ctx p; p_cvar_lock_id := v; p_io_kbuf := p_io_kbuf p;
     p_io_user_buf := p_io_user_buf p; p_io_total := p_io_total p; p_io_sent := p_io_sent p;
     p_io_len := p_io_len p; p_io_tty_id := p_io_tty_id p |}.
Definition set_p_io_kbuf v (p : pcb) : pcb :=
  {| p_kc := p_kc p; p_uc := p_uc p; p_pid := p_pid p; p_state := p_state p;
     p_relations := p_relations p; p_exit_code := p_exit_code p; p_wake_up := p_wake_up p;
     p_brk_page := p_brk_page p; p_next := p_next p; p_ks_pt := p_ks_pt p;
     p_mem_ctx := p_mem_ctx p; p_cvar_lock_id := p_cvar_lock_id p; p_io_kbuf := v;
     p_io_user_buf := p_io_user_buf p; p_io_total := p_io_total p; p_io_sent := p_io_sent p;
     p_io_len := p_io_len p; p_io_tty_id := p_io_tty_id p |}.
Definition set_p_io_user_buf v (p : pcb) : pcb :=
  {| p_kc := p_kc p; p_uc := p_uc p; p_pid := p_pid p; p_state := p_state p;
     p_relations := p_relations p; p_exit_code := p_exit_code p; p_wake_up := p_wake_up p;
     p_brk_page := p_brk_page p; p_next := p_next p; p_ks_pt := p_ks_pt p;
     p_mem_ctx := p_mem_ctx p; p_cvar_lock_id := p_cvar_lock_id p; p_io_kbuf := p_io_kbuf p;
     p_io_user_buf := v; p_io_total := p_io_total p; p_io_sent := p_io_sent p;
     p_io_len := p_io_len p; p_io_tty_id := p_io_tty_id p |}.
Definition set_p_io_total v (p : pcb) : pcb :=
  {| p_kc := p_kc p; p_uc := p_uc p; p_pid := p_pid p; p_state := p_state p;
     p_relations := p_relations p; p_exit_code := p_exit_code p; p_wake_up := p_wake_up p;
     p_brk_page := p_brk_page p; p_next := p_next p; p_ks_pt := p_ks_pt p;
     p_mem_ctx := p_mem_ctx p; p_cvar_lock_id := p_cvar_lock_id p; p_io_kbuf := p_io_kbuf p;
     p_io_user_buf := p_io_user_buf p; p_io_total := v; p_io_sent := p_io_sent p;
     p_io_len := p_io_len p; p_io_tty_id := p_io_tty_id p |}.
Definition set_p_io_sent v (p : pcb) : pcb :=
  {| p_kc := p_kc p; p_uc := p_uc p; p_pid := p_pid p; p_state := p_state p;
     p_relations := p_relations p; p_exit_code := p_exit_code p; p_wake_up := p_wake_up p;
     p_brk_page := p_brk_page p; p_next := p_next p; p_ks_pt := p_ks_pt p;
     p_mem_ctx := p_mem_ctx p; p_cvar_lock_id := p_cvar_lock_id p; p_io_kbuf := p_io_kbuf p;
     p_io_user_buf := p_io_user_buf p; p_io_total := p_io_total p; p_io_sent := v;
     p_io_len := p_io_len p; p_io_tty_id := p_io_tty_id p |}.
Definition set_p_io_len v (p : pcb) : pcb :=
  {| p_kc := p_kc p; p_uc := p_uc p; p_pid := p_pid p; p_state := p_state p;
     p_relations := p_relations p; p_exit_code := p_exit_code p; p_wake_up := p_wake_up p;
     p_brk_page := p_brk_page p; p_next := p_next p; p_ks_pt := p_ks_pt p;
     p_mem_ctx := p_mem_ctx p; p_cvar_lock_id := p_cvar_lock_id p; p_io_kbuf := p_io_kbuf p;
     p_io_user_buf := p_io_user_buf p; p_io_total := p_io_total p; p_io_sent := p_io_sent p;
     p_io_len := v; p_io_tty_id := p_io_tty_id p |}.
Definition set_p_io_tty_id v (p : pcb) : pcb :=
  {| p_kc := p_kc p; p_uc := p_uc p; p_pid := p_pid p; p_state := p_state p;
     p_relations := p_relations p; p_exit_code := p_exit_code p; p_wake_up := p_wake_up p;
     p_brk_page := p_brk_page p; p_next := p_next p; p_ks_pt := p_ks_pt p;
     p_mem_ctx := p_mem_ctx p; p_cvar_lock_id := p_cvar_lock_id p; p_io_kbuf := p_io_kbuf p;
     p_io_user_buf := p_io_user_buf p; p_io_total := p_io_total p; p_io_sent := p_io_sent p;
     p_io_len := p_io_len p; p_io_tty_id := v |}.

Definition set_has_parent (b : bool) (r : rel_t) : rel_t :=
  {| has_parent := b; children := children r;
     num_children := num_children r; arr_size := arr_size r |}.
Definition set_children (arr : option (list (option addr))) (r : rel_t) : rel_t :=
  {| has_parent := has_parent r; children := arr;
     num_children := num_children r; arr_size := arr_size r |}.
Definition set_num_children (n : Z) (r : rel_t) : rel_t :=
  {| has_parent := has_parent r; children := children r;
     num_children := n; arr_size := arr_size r |}.
Definition set_arr_size (n : Z) (r : rel_t) : rel_t :=
  {| has_parent := has_parent r; children := children r;
     num_children := num_children r; arr_size := n |}.
Definition set_region1_pt (pt : option (list pte)) (m : mem_ctx_t) : mem_ctx_t :=
  {| region1_pt := pt; curr_brk_page := curr_brk_page m; orig_brk_page := orig_brk_page m;
     txt_start_page := txt_start_page m; data_start_page := data_start_page m |}.
Definition set_curr_brk_page (n : Z) (m : mem_ctx_t) : mem_ctx_t :=
  {| region1_pt := region1_pt m; curr_brk_page := n; orig_brk_page := orig_brk_page m;
     txt_start_page := txt_start_page m; data_start_page := data_start_page m |}.
(** The four page numbers of a memory context at once. *)
Definition set_layout (txt data orig curr : Z) (m : mem_ctx_t) : mem_ctx_t :=
  {| region1_pt := region1_pt m; curr_brk_page := curr; orig_brk_page := orig;
     txt_start_page := txt; data_start_page := data |}.

(** A block just given by [calloc]. *)
Definition pcb_zero : pcb :=
  {| p_kc := KC_zero; p_uc := uc_zero; p_pid := 0; p_state := RUNNING;
     p_relations := {| has_parent := false; children := None; num_children := 0; arr_size := 0 |};
     p_exit_code := 0; p_wake_up := 0; p_brk_page := 0; p_next := None; p_ks_pt := None;
     p_mem_ctx := {| region1_pt := None; curr_brk_page := 0; orig_brk_page := 0;
                     txt_start_page := 0; data_start_page := 0 |};
     p_cvar_lock_id := 0; p_io_kbuf := None; p_io_user_buf := 0; p_io_total := 0;
     p_io_sent := 0; p_io_len := 0; p_io_tty_id := 0 |}.

(** ** The C heap

    [st_malloc] holds the outcome of the next allocations ([true] when it is
    used up), [st_pid_calls] the calls made to the process number helpers of
    the Yalnix library, latest first. *)
Inductive pid_call := NewPid (pid : Z) | RetirePid (pid : Z).

Record store := {
  st_pcbs : gmap addr pcb;
  st_next : addr;
  st_malloc : list bool;
  st_pid_calls : list pid_call
}.

Definition set_pcbs (m : gmap addr pcb) (s : store) : store :=
  {| st_pcbs := m; st_next := st_next s; st_malloc := st_malloc s; st_pid_calls := st_pid_calls s |}.

Definition load (p : addr) : M store pcb := fun s =>
  match st_pcbs s !! p with Some b => Some (b, s) | None => None end.
Definition update (p : addr) (f : pcb -> pcb) : M store unit := fun s =>
  match st_pcbs s !! p with
  | Some b => Some (tt, set_pcbs (<[p := f b]> (st_pcbs s)) s)
  | None => None
  end.
(** [free(p)]: freeing a block that is not live is undefined. *)
Definition free (p : addr) : M store unit := fun s =>
  match st_pcbs s !! p with
  | Some _ => Some (tt, set_pcbs (delete p (st_pcbs s)) s)
  | None => None
  end.

(** The outcome of a call of [malloc] or [calloc]. *)
Definition malloc : M store bool := fun s =>
  match st_malloc s with
  | [] => Some (true, s)
  | b :: bs => Some (b, {| st_pcbs := st_pcbs s; st_next := st_next s;
                           st_malloc := bs; st_pid_calls := st_pid_calls s |})
  end.
Definition new_block (b : pcb) : M store addr := fun s =>
  Some (st_next s, {| st_pcbs := <[st_next s := b]> (st_pcbs s); st_next := Pos.succ (st_next s);
                      st_malloc := st_malloc s; st_pid_calls := st_pid_calls s |}).

(** The helpers of the Yalnix library that number the processes: the number
    they give is a function of the calls made so far. *)
Class PidHelper := helper_pid : list pid_call -> Z.

Fixpoint live_pids (calls : list pid_call) : gset Z :=
  match calls with
  | [] => ∅
  | NewPid p :: cs => {[p]} ∪ live_pids cs
  | RetirePid p :: cs => live_pids cs ∖ {[p]}
  end.

(** What they promise: a number no live process has. *)
Class PidHelperOk `{PidHelper} : Prop := {
  helper_pid_fresh : forall calls, helper_pid calls ∉ live_pids calls;
  helper_pid_nonneg : forall calls, 0 <= helper_pid calls
}.

Definition log_pid_call (c : pid_call) (s : store) : store :=
  {| st_pcbs := st_pcbs s; st_next := st_next s; st_malloc := st_malloc s;
     st_pid_calls := c :: st_pid_calls s |}.
Definition helper_new_pid `{PidHelper} : M store Z :=
  calls ← gets st_pid_calls;
  modify (log_pid_call (NewPid (helper_pid calls)));;
  mret (helper_pid calls).
Definition helper_retire_pid (p : Z) : M store unit := modify (log_pid_call (RetirePid p)).

(** ** The operations of [pcb.c] *)

Definition CHILD_ARR_SIZE : Z := 10.

Definition create_new_pcb `{PidHelper} (num_ks_pages num_region1_pte : Z) (uc : UserContext)
    : M store (option addr) :=
  ok ← malloc;
  if negb ok then mret None
  else
    pcb ← new_block pcb_zero;
    ok ← malloc;
    if negb ok then free pcb;; mret None
    else
      update pcb (set_p_ks_pt (Some (replicate (Z.to_nat num_ks_pages) pte_zero)));;
      ok ← malloc;
      if negb ok then free pcb;; mret None
      else
        update pcb (fun b => set_p_mem_ctx (set_region1_pt
          (Some (replicate (Z.to_nat num_region1_pte) pte_zero)) (p_mem_ctx b)) b);;
        ok ← malloc;
        if negb ok then free pcb;; mret None
        else
          update pcb (fun b => set_p_relations (set_children
            (Some (replicate (Z.to_nat CHILD_ARR_SIZE) None)) (p_relations b)) b);;
          pid ← helper_new_pid;
          update pcb (fun b =>
            {| p_kc := p_kc b; p_uc := uc; p_pid := pid; p_state := READY;
               p_relations := set_has_parent true (set_arr_size CHILD_ARR_SIZE (p_relations b));
               p_exit_code := p_exit_code b; p_wake_up := p_wake_up b; p_brk_page := p_brk_page b;
               p_next := p_next b; p_ks_pt := p_ks_pt b; p_mem_ctx := p_mem_ctx b;
               p_cvar_lock_id := p_cvar_lock_id b; p_io_kbuf := p_io_kbuf b;
               p_io_user_buf := p_io_user_buf b; p_io_total := p_io_total b;
               p_io_sent := p_io_sent b; p_io_len := p_io_len b; p_io_tty_id := p_io_tty_id b |});;
          mret (Some pcb).

(** [children[i]], dereferenced. *)
Definition child_at (arr : option (list (option addr))) (i : Z) : option addr :=
  cells ← arr; c ← zget cells i; c.

(** The loop that closes the gap at [i] in the child array, [n] cells long. *)
Fixpoint compact (n : nat) (i : Z) (cells : list (option addr)) : option (list (option addr)) :=
  match n with
  | O => Some cells
  | Datatypes.S n' =>
      c ← zget cells (i + 1);
      cells' ← zset cells i c;
      compact n' (i + 1) cells'
  end.

(** [find_exited_child(parent, output)]: [Some code] when it returns true, with
    the [code] it writes through [output]; the caller does that write. *)
Definition find_exited_child (parent : addr) : M store (option Z) :=
  p ← load parent;
  let arr := children (p_relations p) in
  let num := num_children (p_relations p) in
  let size := arr_size (p_relations p) in
  found ← for_range_ret 0 num (fun i =>
    c ← lift_opt (child_at arr i);
    b ← load c;
    if decide (p_state b = EXITED) then
      free c;;
      mret (Some (i, p_exit_code b))
    else mret None);
  match found with
  | None => mret None
  | Some (i, code) =>
      cells ← lift_opt (cells ← arr; cells ← compact (Z.to_nat (num - 1 - i)) i cells;
                        zset cells (num - 1) None);
      update parent (fun b => set_p_relations
        (set_num_children (num_children (p_relations b) - 1)
          (set_children (Some cells) (p_relations b))) b);;
      if num <? size / 2 then
        let size := size / 2 in
        ok ← malloc;
        if negb ok then mret (Some code)
        else
          update parent (fun b => set_p_relations
            (set_arr_size size (set_children
              (Some (take (Z.to_nat num) cells ++ replicate (Z.to_nat (size - num)) None))
              (p_relations b))) b);;
          mret (Some code)
      else mret (Some code)
  end.

Definition add_child_proc (parent child : addr) : M store bool :=
  p ← load parent;
  let arr := children (p_relations p) in
  let num := num_children (p_relations p) in
  let size := arr_size (p_relations p) in
  grown ←
    (if num =? size then
       let size := size * 2 in
       ok ← malloc;
       if negb ok then mret false
       else
         cells ← lift_opt arr;
         update parent (fun b => set_p_relations
           (set_arr_size size (set_children
             (Some (take (Z.to_nat num) cells ++ replicate (Z.to_nat (size - num)) None))
             (p_relations b))) b);;
         mret true
     else mret true);
  if negb grown then mret false
  else
    p ← load parent;
    cells ← lift_opt (cells ← children (p_relations p); zset cells num (Some child));
    update parent (fun b => set_p_relations
      (set_num_children (num_children (p_relations b) + 1)
        (set_children (Some cells) (p_relations b))) b);;
    mret true.

Definition retire_pcb (pcb : addr) : M store unit :=
  p ← load pcb;
  let arr := children (p_relations p) in
  let num := num_children (p_relations p) in
  for_range 0 num (fun i =>
    c ← lift_opt (child_at arr i);
    b ← load c;
    if decide (p_state b = EXITED) then free c
    else update c (fun b => set_p_relations (set_has_parent false (p_relations b)) b));;
  p ← load pcb;
  helper_retire_pid (p_pid p);;
  update pcb (set_p_ks_pt None);;
  update pcb (fun b => set_p_mem_ctx (set_region1_pt None (p_mem_ctx b)) b);;
  update pcb (fun b => set_p_relations (set_children None (p_relations b)) b);;
  p ← load pcb;
  when (negb (has_parent (p_relations p))) (free pcb).

(** ** What the arrays of children stand for *)

(** [r] is a relation record whose children are [l], in order. *)
Record rel_repr (r : rel_t) (l : list addr) : Prop := {
  rr_cells : exists rest, children r = Some ((Some <$> l) ++ rest)
    /\ Z.of_nat (length l + length rest) = arr_size r;
  rr_num : num_children r = Z.of_nat (length l);
  rr_size : 2 <= arr_size r
}.

(** The process at [c] has exited. *)
Definition exited (st : store) (c : addr) : bool :=
  match st_pcbs st !! c with Some b => bool_decide (p_state b = EXITED) | None => false end.

(** The two heaps hold the same blocks and gave out the same addresses. *)
Definition same_blocks (st st' : store) : Prop :=
  st_pcbs st' = st_pcbs st /\ st_next st' = st_next st /\ st_pid_calls st' = st_pid_calls st.

(** What [retire_pcb] leaves of a process that has a parent. *)
Definition retired (b : pcb) : pcb :=
  set_p_relations (set_children None (p_relations b))
    (set_p_mem_ctx (set_region1_pt None (p_mem_ctx b)) (set_p_ks_pt None b)).
(** A process whose parent is gone. *)
Definition orphaned (b : pcb) : pcb := set_p_relations (set_has_parent false (p_relations b)) b.

(** ** Specifications of the accesses to the heap *)
Section heap_specs.
Implicit Types (st : store) (p : addr).

Lemma wp_load p b Q st : st_pcbs st !! p = Some b -> Q b st -> wp (load p) Q st.
Proof. intros Hb ?. unfold wp, load. by rewrite Hb. Qed.
Lemma wp_update p f b Q st :
  st_pcbs st !! p = Some b -> Q tt (set_pcbs (<[p := f b]> (st_pcbs st)) st) ->
  wp (update p f) Q st.
Proof. intros Hb ?. unfold wp, update. by rewrite Hb. Qed.
Lemma wp_free p b Q st :
  st_pcbs st !! p = Some b -> Q tt (set_pcbs (delete p (st_pcbs st)) st) -> wp (free p) Q st.
Proof. intros Hb ?. unfold wp, free. by rewrite Hb. Qed.
Lemma wp_malloc Q st :
  (forall ok st', same_blocks st st' -> Q ok st') -> wp malloc Q st.
Proof. intros HQ. unfold wp, malloc. destruct (st_malloc st); by apply HQ. Qed.
(** While no allocation fails, none is planned to. *)
Lemma wp_malloc_plenty Q st :
  (forall ok st', same_blocks st st' -> (st_malloc st = [] -> ok = true /\ st_malloc st' = []) ->
     Q ok st') -> wp malloc Q st.
Proof. intros HQ. unfold wp, malloc. destruct (st_malloc st) eqn:E; apply HQ; done || by rewrite E. Qed.
Lemma wp_new_block b Q st :
  Q (st_next st) {| st_pcbs := <[st_next st := b]> (st_pcbs st); st_next := Pos.succ (st_next st);
                    st_malloc := st_malloc st; st_pid_calls := st_pid_calls st |} ->
  wp (new_block b) Q st.
Proof. done. Qed.

Lemma set_pcbs_twice m m' st : set_pcbs m (set_pcbs m' st) = set_pcbs m st.
Proof. done. Qed.
End heap_specs.

(** [children[i]] and the compaction, on the representation. *)
Lemma child_at_repr r l i c :
  rel_repr r l -> l !! i = Some c -> child_at (children r) (Z.of_nat i) = Some c.
Proof.
  intros [(rest & Hc & _) _ _] Hi. unfold child_at. rewrite Hc. simpl.
  rewrite zget_nat, lookup_app_l, list_lookup_fmap, Hi; [done|].
  rewrite length_fmap. by eapply lookup_lt_Some.
Qed.

Lemma zset_app_cons {A} (pre : list A) y rest x :
  zset (pre ++ y :: rest) (zlen pre) x = Some (pre ++ x :: rest).
Proof.
  unfold zset, zlen. rewrite decide_True by (rewrite length_app; simpl; lia).
  rewrite Nat2Z.id, insert_app_r_alt, Nat.sub_diag by lia. done.
Qed.

Lemma compact_spec mid : forall pre c rest,
  exists y, compact (length mid) (zlen pre) (pre ++ c :: mid ++ rest) = Some (pre ++ mid ++ y :: rest).
Proof.
  induction mid as [|x mid IH]; intros pre c rest; simpl.
  - by exists c.
  - assert (zget (pre ++ c :: x :: mid ++ rest) (zlen pre + 1) = Some x) as ->.
    { unfold zlen. rewrite zget_nonneg by lia.
      replace (Z.to_nat (Z.of_nat (length pre) + 1)) with (length pre + 1)%nat by lia.
      rewrite lookup_app_r by lia. by replace (length pre + 1 - length pre)%nat with 1%nat by lia. }
    simpl. rewrite zset_app_cons. simpl.
    destruct (IH (pre ++ [x]) x rest) as [y Hy]. exists y.
    rewrite <- !app_assoc in Hy. simpl in Hy. rewrite <- Hy. f_equal.
    unfold zlen. rewrite length_app. simpl. lia.
Qed.

(** Removing the child at [i] from the array. *)
Lemma remove_cell_spec l i c rest :
  l !! i = Some c ->
  (cells ← compact (Z.to_nat (Z.of_nat (length l) - 1 - Z.of_nat i)) (Z.of_nat i) ((Some <$> l) ++ rest);
   zset cells (Z.of_nat (length l) - 1) None) = Some ((Some <$> delete i l) ++ None :: rest).
Proof.
  intros Hi. pose proof (lookup_lt_Some _ _ _ Hi).
  assert (l = take i l ++ c :: drop (S i) l) as El by (by rewrite take_drop_middle).
  rewrite delete_take_drop.
  set (pre := Some <$> take i l). set (mid := Some <$> drop (S i) l).
  assert (Z.of_nat i = zlen pre) as Ei.
  { unfold zlen, pre. rewrite length_fmap, length_take. lia. }
  assert (Z.to_nat (Z.of_nat (length l) - 1 - Z.of_nat i) = length mid) as En.
  { unfold mid. rewrite length_fmap, length_drop. lia. }
  rewrite En, Ei. replace ((Some <$> l) ++ rest) with (pre ++ Some c :: mid ++ rest).
  2: { rewrite El at 1. unfold pre, mid. rewrite fmap_app, fmap_cons, <- app_assoc. done. }
  destruct (compact_spec mid pre (Some c) rest) as [y ->]. simpl.
  rewrite app_assoc. replace (Z.of_nat (length l) - 1) with (zlen (pre ++ mid)).
  2: { unfold zlen. rewrite length_app, <- En. unfold zlen in Ei. lia. }
  rewrite zset_app_cons, fmap_app. done.
Qed.

(** ** The child arrays refine lists of children *)

Lemma find_exited_loop st l r :
  rel_repr r l -> (forall c, c ∈ l -> is_Some (st_pcbs st !! c)) ->
  wp (for_range_ret 0 (num_children r) (fun i =>
        c ← lift_opt (child_at (children r) i);
        b ← load c;
        if decide (p_state b = EXITED) then free c;; mret (Some (i, p_exit_code b)) else mret None))
    (fun found st' =>
       match list_find (fun c => exited st c = true) l with
       | None => found = None /\ st' = st
       | Some (i, c) => exists b, st_pcbs st !! c = Some b /\
           found = Some (Z.of_nat i, p_exit_code b) /\ st' = set_pcbs (delete c (st_pcbs st)) st
       end) st.
Proof.
  intros Hr Hlive.
  apply (wp_for_range_ret _ _ _ (fun i st' => st' = st /\
           Forall (fun c => ~ exited st c = true) (take (Z.to_nat i) l))).
  - split; [done|]. constructor.
  - intros j ? Hj [-> HF]. pose proof (rr_num _ _ Hr).
    destruct (lookup_lt_is_Some_2 l (Z.to_nat j)) as [c Hc]; [lia|].
    destruct (Hlive c) as [b Hb]; [by eapply list_elem_of_lookup_2|].
    wp_step. eapply wp_lift_opt.
    { replace j with (Z.of_nat (Z.to_nat j)) by lia. by eapply child_at_repr. }
    wp_step. eapply wp_load; [done|]. case_decide as Hex.
    + wp_step. eapply wp_free; [done|]. wp_step.
      assert (list_find (fun c => exited st c = true) l = Some (Z.to_nat j, c)) as ->.
      { apply list_find_Some. split; [done|]. split.
        - unfold exited. rewrite Hb. by apply bool_decide_eq_true_2.
        - intros k y Hk ?. rewrite Forall_lookup in HF. apply (HF k y).
          by rewrite lookup_take_lt by done. }
      exists b. rewrite Z2Nat.id by lia. done.
    + wp_step. split; [done|]. replace (Z.to_nat (j + 1)) with (S (Z.to_nat j)) by lia.
      rewrite (take_S_r _ _ c) by done. apply Forall_app. split; [done|]. constructor; [|done].
      unfold exited. rewrite Hb. by rewrite bool_decide_eq_true.
  - intros ? [-> HF]. pose proof (rr_num _ _ Hr) as Hn.
    replace (Z.to_nat (Z.max 0 (num_children r))) with (length l) in HF by lia.
    rewrite take_ge in HF by lia.
    by assert (list_find (fun c => exited st c = true) l = None) as -> by (by apply list_find_None).
Qed.

(** The child array moved to a block of [size] cells. *)
Lemma rel_repr_shrink r l rest size :
  num_children r = Z.of_nat (length l) -> Z.of_nat (length l) + 1 < size -> 2 <= size ->
  rel_repr (set_arr_size size (set_children
    (Some (take (S (length l)) ((Some <$> l) ++ None :: rest) ++
           replicate (Z.to_nat (size - (Z.of_nat (length l) + 1))) None)) r)) l.
Proof.
  intros Hn Hlt Hs. split; simpl; [|done|done].
  exists (None :: replicate (Z.to_nat (size - (Z.of_nat (length l) + 1))) None). split.
  - f_equal. rewrite firstn_app, length_fmap, take_ge by (rewrite length_fmap; lia).
    replace (S (length l) - length l)%nat with 1%nat by lia. simpl. by rewrite <- app_assoc.
  - simpl. rewrite length_replicate. lia.
Qed.

Lemma find_exited_child_ok st parent p l :
  st_pcbs st !! parent = Some p -> rel_repr (p_relations p) l ->
  (forall c, c ∈ l -> is_Some (st_pcbs st !! c)) -> parent ∉ l ->
  wp (find_exited_child parent) (fun res st' =>
    st_next st' = st_next st /\ st_pid_calls st' = st_pid_calls st /\
    match list_find (fun c => exited st c = true) l with
    | None => res = None /\ st_pcbs st' = st_pcbs st
    | Some (i, c) => exists b r', st_pcbs st !! c = Some b /\ res = Some (p_exit_code b) /\
        rel_repr r' (delete i l) /\ has_parent r' = has_parent (p_relations p) /\
        st_pcbs st' = <[parent := set_p_relations r' p]> (delete c (st_pcbs st))
    end) st.
Proof.
  intros Hp Hr Hlive Hself. unfold find_exited_child.
  wp_step. eapply wp_load; [done|]. cbv zeta. wp_step.
  wp_call find_exited_loop; [done|done|]. intros found st1 Hf. simpl in Hf.
  destruct (list_find _ l) as [[i c]|] eqn:Hfind.
  2: { destruct Hf as [-> ->]. by wp_steps. }
  destruct Hf as (b & Hb & -> & ->). apply list_find_Some in Hfind as (Hi & _ & _).
  pose proof (lookup_lt_Some _ _ _ Hi) as Hlt.
  destruct (rr_cells _ _ Hr) as (rest & Hcells & Hsize).
  pose proof (rr_num _ _ Hr) as Hn. pose proof (rr_size _ _ Hr).
  wp_step. eapply wp_lift_opt.
  { rewrite Hcells, Hn. simpl. by eapply remove_cell_spec. }
  wp_step. assert (parent <> c) by (intros ->; apply Hself; by eapply list_elem_of_lookup_2).
  eapply wp_update; [simpl; by rewrite lookup_delete_ne|].
  set (r1 := set_num_children (num_children (p_relations p) - 1)
               (set_children (Some ((Some <$> delete i l) ++ None :: rest)) (p_relations p))).
  assert (length (delete i l) = (length l - 1)%nat) as Hdel by (by erewrite length_delete by done).
  assert (rel_repr r1 (delete i l)) as Hr1.
  { split; simpl; [|lia|done]. exists (None :: rest). split; [done|]. simpl. lia. }
  assert (forall r' st', st_next st' = st_next st -> st_pid_calls st' = st_pid_calls st ->
    st_pcbs st' = <[parent := set_p_relations r' p]> (delete c (st_pcbs st)) ->
    rel_repr r' (delete i l) -> has_parent r' = has_parent (p_relations p) ->
    wp (mret (Some (p_exit_code b)) : M store (option Z)) (fun res st' =>
    st_next st' = st_next st /\ st_pid_calls st' = st_pid_calls st /\
      exists b0 r', st_pcbs st !! c = Some b0 /\ res = Some (p_exit_code b0) /\
        rel_repr r' (delete i l) /\ has_parent r' = has_parent (p_relations p) /\
        st_pcbs st' = <[parent := set_p_relations r' p]> (delete c (st_pcbs st))) st')
    as Hret by (intros; wp_step; naive_solver).
  wp_if; [|by eapply (Hret r1)].
  simp_bool. wp_step. apply wp_malloc. intros ok st2 (Hpc & Hnx & Hpid). simpl in Hpc.
  wp_if; [by eapply (Hret r1); rewrite ?Hpc|].
  wp_step. eapply wp_update; [rewrite Hpc; apply lookup_insert_eq|].
  eapply (Hret (set_arr_size _ (set_children _ r1))); simpl; try done.
  - rewrite Hpc, insert_insert_eq. done.
  - rewrite Hn. replace (Z.to_nat (Z.of_nat (length l))) with (S (length (delete i l))) by lia.
    replace (Z.of_nat (length l)) with (Z.of_nat (length (delete i l)) + 1) by lia.
    apply rel_repr_shrink; [simpl; lia|lia|lia].
Qed.

Lemma set_cells_ok st parent p l child :
  st_pcbs st !! parent = Some p -> rel_repr (p_relations p) l ->
  Z.of_nat (length l) < arr_size (p_relations p) ->
  wp (p ← load parent;
      cells ← lift_opt (cells ← children (p_relations p); zset cells (Z.of_nat (length l)) (Some child));
      update parent (fun b => set_p_relations
        (set_num_children (num_children (p_relations b) + 1)
          (set_children (Some cells) (p_relations b))) b);;
      mret true)
    (fun ok st' => ok = true /\ st_next st' = st_next st /\ st_pid_calls st' = st_pid_calls st /\
      st_malloc st' = st_malloc st /\ exists r', rel_repr r' (l ++ [child]) /\ has_parent r' = has_parent (p_relations p) /\
        st_pcbs st' = <[parent := set_p_relations r' p]> (st_pcbs st)) st.
Proof.
  intros Hp Hr Hlt. destruct (rr_cells _ _ Hr) as (rest & Hcells & Hsize).
  pose proof (rr_num _ _ Hr) as Hn. pose proof (rr_size _ _ Hr).
  destruct rest as [|x rest]; [simpl in *; lia|].
  wp_step. eapply wp_load; [done|]. wp_step. eapply wp_lift_opt.
  { rewrite Hcells. simpl. replace (Z.of_nat (length l)) with (zlen (Some <$> l))
      by (unfold zlen; by rewrite length_fmap). by rewrite zset_app_cons. }
  wp_step. eapply wp_update; [done|]. wp_steps. do 4 (split; [done|]).
  eexists. split; [|split; [|done]]; [|done]. split; simpl.
  - exists rest. rewrite fmap_app, <- app_assoc. split; [done|].
    rewrite length_app. simpl in *. lia.
  - rewrite length_app. simpl. lia.
  - done.
Qed.

Lemma add_child_proc_ok st parent p l child :
  st_pcbs st !! parent = Some p -> rel_repr (p_relations p) l ->
  wp (add_child_proc parent child) (fun ok st' =>
    st_next st' = st_next st /\ st_pid_calls st' = st_pid_calls st /\
    (st_malloc st = [] -> ok = true /\ st_malloc st' = []) /\
    if ok : bool then exists r', rel_repr r' (l ++ [child]) /\
        has_parent r' = has_parent (p_relations p) /\
        st_pcbs st' = <[parent := set_p_relations r' p]> (st_pcbs st)
    else st_pcbs st' = st_pcbs st) st.
Proof.
  intros Hp Hr. destruct (rr_cells _ _ Hr) as (rest & Hcells & Hsize).
  pose proof (rr_num _ _ Hr) as Hn. pose proof (rr_size _ _ Hr).
  unfold add_child_proc. wp_step. eapply wp_load; [done|]. cbv zeta. wp_step. rewrite Hn.
  wp_if; simp_bool.
  - wp_step. apply wp_malloc_plenty. intros ok st1 (Hpc & Hnx & Hpid) Hpl. destruct ok; simpl.
    + wp_step. eapply wp_lift_opt; [done|]. wp_step. eapply wp_update; [by rewrite Hpc|]. wp_step.
      simpl. set (r1 := set_arr_size _ _).
      assert (rel_repr r1 l) as Hr1.
      { assert (rest = []) as -> by (destruct rest; [done|simpl in *; lia]).
        split; simpl; [|done|lia].
        exists (replicate (Z.to_nat (arr_size (p_relations p) * 2 - Z.of_nat (length l))) None).
        rewrite app_nil_r, take_ge by (rewrite length_fmap; lia). split; [done|].
        rewrite length_replicate. lia. }
      eapply wp_mono; [eapply (set_cells_ok _ parent (set_p_relations r1 p) l)|].
      * simpl. apply lookup_insert_eq.
      * done.
      * simpl. lia.
      * simpl. rewrite Hpc, Hnx, Hpid.
        intros ok st' (-> & -> & -> & Em & r' & ? & ? & ->).
        do 2 (split; [done|]). split; [intros E0; rewrite Em; by apply Hpl|]. exists r'. by rewrite insert_insert_eq.
    + wp_step. simpl. by wp_step.
  - wp_step. simpl. eapply wp_mono; [eapply set_cells_ok; [done|done|lia]|]. simpl.
    by intros ok st' (-> & -> & -> & -> & ?).
Qed.

(** What [retire_pcb] does to a child of the process. *)
Definition after_parent (b : pcb) : option pcb :=
  if decide (p_state b = EXITED) then None else Some (orphaned b).

Lemma retire_children_ok st l r :
  rel_repr r l -> NoDup l -> (forall c, c ∈ l -> is_Some (st_pcbs st !! c)) ->
  wp (for_range 0 (num_children r) (fun i =>
        c ← lift_opt (child_at (children r) i);
        b ← load c;
        if decide (p_state b = EXITED) then free c
        else update c (fun b => set_p_relations (set_has_parent false (p_relations b)) b)))
    (fun _ st' => exists m, st' = set_pcbs m st /\
       forall a, m !! a = if decide (a ∈ l) then st_pcbs st !! a ≫= after_parent
                          else st_pcbs st !! a) st.
Proof.
  intros Hr Hnd Hlive. pose proof (rr_num _ _ Hr) as Hn.
  apply (wp_for_range _ _ _ (fun i st' => exists m, st' = set_pcbs m st /\
       forall a, m !! a = if decide (a ∈ take (Z.to_nat i) l)
                          then st_pcbs st !! a ≫= after_parent else st_pcbs st !! a)).
  - exists (st_pcbs st). split; [by destruct st|]. intros a. rewrite decide_False; [done|].
    apply not_elem_of_nil.
  - intros j st1 Hj (m & -> & Hm).
    destruct (lookup_lt_is_Some_2 l (Z.to_nat j)) as [c Hc]; [lia|].
    destruct (Hlive c) as [b Hb]; [by eapply list_elem_of_lookup_2|].
    assert (c ∉ take (Z.to_nat j) l) as Hnew.
    { intros (k & Hk)%list_elem_of_lookup_1. pose proof (lookup_lt_Some _ _ _ Hk).
      rewrite length_take in *. rewrite lookup_take_lt in Hk by lia.
      pose proof (NoDup_lookup _ _ _ _ Hnd Hc Hk). lia. }
    assert (m !! c = Some b) as Hmc by (by rewrite Hm, decide_False).
    replace (Z.to_nat (j + 1)) with (S (Z.to_nat j)) by lia.
    wp_step. eapply wp_lift_opt.
    { replace j with (Z.of_nat (Z.to_nat j)) by lia. by eapply child_at_repr. }
    wp_step. eapply wp_load; [done|]. case_decide as Hex.
    + eapply wp_free; [done|]. simpl. eexists. split; [done|]. intros a.
      rewrite (take_S_r _ _ c) by done. rewrite lookup_delete. case_decide; subst.
      * rewrite decide_True by set_solver. rewrite Hb. simpl. unfold after_parent.
        by rewrite decide_True.
      * rewrite Hm. do 2 case_decide; set_solver.
    + eapply wp_update; [done|]. simpl. eexists. split; [done|]. intros a.
      rewrite (take_S_r _ _ c) by done. rewrite lookup_insert. case_decide; subst.
      * rewrite decide_True by set_solver. rewrite Hb. simpl. unfold after_parent.
        by rewrite decide_False.
      * rewrite Hm. do 2 case_decide; set_solver.
  - intros st1 (m & -> & Hm). exists m. split; [done|]. intros a. rewrite Hm.
    rewrite take_ge by lia. done.
Qed.

Lemma retire_pcb_ok st p b l :
  st_pcbs st !! p = Some b -> rel_repr (p_relations b) l -> NoDup l -> p ∉ l ->
  (forall c, c ∈ l -> is_Some (st_pcbs st !! c)) ->
  wp (retire_pcb p) (fun _ st' =>
    st_next st' = st_next st /\ st_pid_calls st' = RetirePid (p_pid b) :: st_pid_calls st /\
    forall a, st_pcbs st' !! a =
      if decide (a = p) then (if has_parent (p_relations b) then Some (retired b) else None)
      else if decide (a ∈ l) then st_pcbs st !! a ≫= after_parent
      else st_pcbs st !! a) st.
Proof.
  intros Hb Hr Hnd Hp Hlive. unfold retire_pcb. wp_step. eapply wp_load; [done|]. cbv zeta.
  wp_step. wp_call retire_children_ok; [done|done|done|]. intros [] st1 (m & -> & Hm).
  assert (m !! p = Some b) as Hmp by (by rewrite Hm, decide_False).
  wp_step. eapply wp_load; [done|]. wp_step. apply wp_modify. wp_step.
  eapply wp_update; [done|]. simpl. wp_step. eapply wp_update; [apply lookup_insert_eq|]. simpl.
  wp_step. eapply wp_update; [apply lookup_insert_eq|]. simpl. wp_step.
  eapply wp_load; [apply lookup_insert_eq|]. rewrite !insert_insert_eq. simpl.
  wp_if; simp_bool.
  - eapply wp_free; [apply lookup_insert_eq|]. simpl. do 2 (split; [done|]). intros a.
    rewrite E, lookup_delete. case_decide as Ha; subst; [by rewrite decide_True|].
    rewrite decide_False by done. by rewrite lookup_insert_ne.
  - rewrite E. do 2 (split; [done|]). intros a. simpl. rewrite lookup_insert.
    case_decide; subst; [by rewrite decide_True|]. by rewrite decide_False.
Qed.

(** The block [create_new_pcb] makes. *)
Definition fresh_pcb (num_ks_pages num_region1_pte pid : Z) (uc : UserContext) : pcb :=
  {| p_kc := KC_zero; p_uc := uc; p_pid := pid; p_state := READY;
     p_relations := {| has_parent := true;
       children := Some (replicate (Z.to_nat CHILD_ARR_SIZE) None);
       num_children := 0; arr_size := CHILD_ARR_SIZE |};
     p_exit_code := 0; p_wake_up := 0; p_brk_page := 0; p_next := None;
     p_ks_pt := Some (replicate (Z.to_nat num_ks_pages) pte_zero);
     p_mem_ctx := {| region1_pt := Some (replicate (Z.to_nat num_region1_pte) pte_zero);
                     curr_brk_page := 0; orig_brk_page := 0;
                     txt_start_page := 0; data_start_page := 0 |};
     p_cvar_lock_id := 0; p_io_kbuf := None; p_io_user_buf := 0; p_io_total := 0;
     p_io_sent := 0; p_io_len := 0; p_io_tty_id := 0 |}.

Lemma fresh_pcb_children nk nr pid uc : rel_repr (p_relations (fresh_pcb nk nr pid uc)) [].
Proof. split; simpl; [|done|done]. by eexists. Qed.

Section create.
Context `{PidHelper}.

Lemma create_new_pcb_ok st nk nr uc :
  st_pcbs st !! st_next st = None ->
  wp (create_new_pcb nk nr uc) (fun res st' =>
    match res with
    | Some a => a = st_next st /\ st_next st' = Pos.succ (st_next st) /\
        let pid := helper_pid (st_pid_calls st) in
        st_pid_calls st' = NewPid pid :: st_pid_calls st /\
        st_pcbs st' = <[a := fresh_pcb nk nr pid uc]> (st_pcbs st)
    | None => st_pcbs st' = st_pcbs st /\ st_pid_calls st' = st_pid_calls st
    end) st.
Proof.
  intros Hfresh. unfold create_new_pcb.
  wp_step. apply wp_malloc. intros ok1 st1 (Hpc1 & Hnx1 & Hpid1).
  destruct ok1; simpl; [|by wp_step].
  wp_step. apply wp_new_block. rewrite Hpc1, Hnx1, Hpid1.
  wp_step. apply wp_malloc. intros ok2 st2 (Hpc2 & Hnx2 & Hpid2). simpl in *.
  destruct ok2; simpl.
  2: { wp_step. eapply wp_free; [rewrite Hpc2; apply lookup_insert_eq|]. wp_step. simpl.
       rewrite Hpc2, delete_insert_id by done. done. }
  wp_step. eapply wp_update; [rewrite Hpc2; apply lookup_insert_eq|]. simpl.
  rewrite Hpc2, insert_insert_eq.
  wp_step. apply wp_malloc. intros ok3 st3 (Hpc3 & Hnx3 & Hpid3). simpl in *.
  destruct ok3; simpl.
  2: { wp_step. eapply wp_free; [rewrite Hpc3; apply lookup_insert_eq|]. wp_step. simpl.
       rewrite Hpc3, delete_insert_id by done. split; [done|congruence]. }
  wp_step. eapply wp_update; [rewrite Hpc3; apply lookup_insert_eq|]. simpl.
  rewrite Hpc3, insert_insert_eq.
  wp_step. apply wp_malloc. intros ok4 st4 (Hpc4 & Hnx4 & Hpid4). simpl in *.
  destruct ok4; simpl.
  2: { wp_step. eapply wp_free; [rewrite Hpc4; apply lookup_insert_eq|]. wp_step. simpl.
       rewrite Hpc4, delete_insert_id by done. split; [done|congruence]. }
  wp_step. eapply wp_update; [rewrite Hpc4; apply lookup_insert_eq|]. simpl.
  rewrite Hpc4, insert_insert_eq. unfold helper_new_pid. wp_steps. simpl.
  eapply wp_update; [apply lookup_insert_eq|]. simpl. wp_step. simpl. rewrite insert_insert_eq.
  rewrite Hnx4, Hnx3, Hnx2, Hpid4, Hpid3, Hpid2. done.
Qed.
End create.

(** ** A concrete family: the process at 1 has the children 2 and 3, and 3 has
    exited with code 7. *)
Definition demo_pcb (st : process_state) (code : Z) (kids : list addr) : pcb :=
  set_p_exit_code code (set_p_state st (set_p_relations
    {| has_parent := true; children := Some ((Some <$> kids) ++ replicate 2 None);
       num_children := Z.of_nat (length kids); arr_size := Z.of_nat (length kids) + 2 |} pcb_zero)).
Definition demo_store : store :=
  {| st_pcbs := {[ 1%positive := demo_pcb RUNNING 0 [2%positive; 3%positive];
                   2%positive := demo_pcb READY 0 []; 3%positive := demo_pcb EXITED 7 [] ]};
     st_next := 4; st_malloc := []; st_pid_calls := [] |}.

Lemma demo_pcb_repr s code kids : rel_repr (p_relations (demo_pcb s code kids)) kids.
Proof. split; simpl; [|done|lia]. exists [None; None]. split; [done|]. simpl. lia. Defined.

Lemma demo_children_live c :
  c ∈ [2%positive; 3%positive] -> is_Some (st_pcbs demo_store !! c).
Proof. intros [->|[->|[]%not_elem_of_nil]%elem_of_cons]%elem_of_cons; by eexists. Defined.

Lemma demo_parent_not_child : 1%positive ∉ [2%positive; 3%positive].
Proof. by apply (bool_decide_unpack _). Defined.
Lemma demo_children_NoDup : NoDup [2%positive; 3%positive].
Proof. by apply (bool_decide_unpack _). Defined.

(** ** Properties *)

(** [find_exited_child] reports the exit code of the first exited child in
    the parent's list, takes exactly that child out of the list and frees its
    block; when no child has exited it reports none and changes no block.  It
    never reads outside of the child array, which keeps at least two cells. *)
Theorem find_exited_child_first (st : store) (parent : addr) (p : pcb) (l : list addr) :
  st_pcbs st !! parent = Some p -> rel_repr (p_relations p) l ->
  (forall c, c ∈ l -> is_Some (st_pcbs st !! c)) -> parent ∉ l ->
  exists res st', find_exited_child parent st = Some (res, st') /\
    match list_find (fun c => exited st c = true) l with
    | None => res = None /\ st_pcbs st' = st_pcbs st
    | Some (i, c) => exists b r', st_pcbs st !! c = Some b /\ res = Some (p_exit_code b) /\
        rel_repr r' (delete i l) /\ has_parent r' = has_parent (p_relations p) /\
        st_pcbs st' = <[parent := set_p_relations r' p]> (delete c (st_pcbs st))
    end.
Proof.
  intros Hp Hr Hl Hs.
  destruct (proj1 (wp_run _ _ _) (find_exited_child_ok st parent p l Hp Hr Hl Hs))
    as (res & st' & Hrun & _ & _ & ?). by exists res, st'.
Qed.

Lemma find_exited_child_first_witness :
  exists res st', find_exited_child 1 demo_store = Some (res, st') /\ res = Some 7 /\
    st_pcbs st' !! 3%positive = None.
Proof.
  destruct (find_exited_child_first demo_store 1 (demo_pcb RUNNING 0 [2%positive; 3%positive])
    [2%positive; 3%positive] eq_refl (demo_pcb_repr _ _ _) demo_children_live demo_parent_not_child)
    as (res & st' & Hrun & Hres).
  exists res, st'. split; [exact Hrun|]. vm_compute in Hrun. injection Hrun as <- <-. by split.
Defined.

(** When a process ends, [retire_pcb] frees the blocks of its children
    that had already exited and marks the others as orphans; its own block is
    freed if it has no parent, and otherwise stays, its page tables and its
    child array gone, for the parent to find.  Nothing is freed twice. *)
Theorem retire_pcb_orphans (st : store) (p : addr) (b : pcb) (l : list addr) :
  st_pcbs st !! p = Some b -> rel_repr (p_relations b) l -> NoDup l -> p ∉ l ->
  (forall c, c ∈ l -> is_Some (st_pcbs st !! c)) ->
  exists st', retire_pcb p st = Some (tt, st') /\
    st_pcbs st' !! p = (if has_parent (p_relations b) then Some (retired b) else None) /\
    (forall c x, c ∈ l -> st_pcbs st !! c = Some x ->
       st_pcbs st' !! c = if decide (p_state x = EXITED) then None else Some (orphaned x)) /\
    (forall a, a <> p -> a ∉ l -> st_pcbs st' !! a = st_pcbs st !! a) /\
    live_pids (st_pid_calls st') = live_pids (st_pid_calls st) ∖ {[p_pid b]}.
Proof.
  intros Hb Hr Hnd Hp Hl.
  destruct (proj1 (wp_run _ _ _) (retire_pcb_ok st p b l Hb Hr Hnd Hp Hl))
    as ([] & st' & Hrun & _ & Hpid & Hm). exists st'. split; [done|].
  split; [rewrite Hm; by rewrite decide_True|]. split; [|split].
  - intros c x Hc Hx. rewrite Hm, decide_False, decide_True, Hx by naive_solver. done.
  - intros a ? ?. rewrite Hm. by rewrite !decide_False.
  - by rewrite Hpid.
Qed.

Lemma retire_pcb_orphans_witness :
  exists st', retire_pcb 1 demo_store = Some (tt, st') /\ st_pcbs st' !! 3%positive = None /\
    st_pcbs st' !! 2%positive = Some (orphaned (demo_pcb READY 0 [])).
Proof.
  destruct (retire_pcb_orphans demo_store 1 (demo_pcb RUNNING 0 [2%positive; 3%positive])
    [2%positive; 3%positive] eq_refl (demo_pcb_repr _ _ _) demo_children_NoDup
    demo_parent_not_child demo_children_live) as (st' & Hrun & _ & Hkids & _).
  exists st'. split; [exact Hrun|]. split.
  - exact (Hkids 3%positive _ ltac:(by apply (bool_decide_unpack _)) eq_refl).
  - exact (Hkids 2%positive _ ltac:(by apply (bool_decide_unpack _)) eq_refl).
Defined.

(** C37: [create_new_pcb] either makes a process whose block, number and arrays
    are new, that has a parent and no children, and that is READY, or (some
    allocation failed) returns NULL and leaves no block behind. *)
Theorem create_new_pcb_all_or_nothing `{PidHelperOk} (st : store) (nk nr : Z) (uc : UserContext) :
  st_pcbs st !! st_next st = None ->
  exists res st', create_new_pcb nk nr uc st = Some (res, st') /\
    match res with
    | None => st_pcbs st' = st_pcbs st /\ live_pids (st_pid_calls st') = live_pids (st_pid_calls st)
    | Some a => st_pcbs st !! a = None /\
        exists b, st_pcbs st' = <[a := b]> (st_pcbs st) /\ p_uc b = uc /\ p_state b = READY /\
          p_pid b ∉ live_pids (st_pid_calls st) /\ p_pid b ∈ live_pids (st_pid_calls st') /\
          has_parent (p_relations b) = true /\ rel_repr (p_relations b) [] /\
          region1_pt (p_mem_ctx b) = Some (replicate (Z.to_nat nr) pte_zero) /\
          p_ks_pt b = Some (replicate (Z.to_nat nk) pte_zero)
    end.
Proof.
  intros Hf. destruct (proj1 (wp_run _ _ _) (create_new_pcb_ok st nk nr uc Hf))
    as (res & st' & Hrun & Hres). exists res, st'. split; [done|]. destruct res as [a|].
  - destruct Hres as (-> & _ & Hcalls & Hpcbs). split; [done|]. eexists. split; [done|].
    rewrite Hcalls. simpl. do 2 (split; [done|]). split; [apply helper_pid_fresh|].
    split; [set_solver|]. split; [done|]. split; [apply (fresh_pcb_children nk nr 0 uc)|done].
  - destruct Hres as [-> ->]. done.
Qed.

(** The numbers from 0 on, one after the other: a numbering that never repeats. *)
Definition demo_pids : PidHelper :=
  fun calls => fold_right Z.max (-1) (map (fun c => match c with NewPid p => p | RetirePid p => p end) calls) + 1.

Lemma demo_pids_ok : @PidHelperOk demo_pids.
Proof.
  assert (forall calls, -1 <= demo_pids calls - 1) as Hpos.
  { induction calls as [|[p|p] cs IH]; unfold demo_pids in *; simpl in *; lia. }
  assert (forall calls p, p ∈ live_pids calls -> p <= demo_pids calls - 1) as Hmax.
  { induction calls as [|[q|q] cs IH]; intros p; simpl.
    - set_solver.
    - intros [->%elem_of_singleton|Hp]%elem_of_union; [unfold demo_pids; simpl; lia|].
      specialize (IH _ Hp). unfold demo_pids in *. simpl. lia.
    - intros [Hp _]%elem_of_difference. specialize (IH _ Hp). unfold demo_pids in *. simpl. lia. }
  split; intros calls; unfold helper_pid.
  - intros Hp%Hmax. lia.
  - specialize (Hpos calls). lia.
Defined.

Lemma create_new_pcb_all_or_nothing_witness :
  exists a st', @create_new_pcb demo_pids 2 3 uc_zero demo_store = Some (Some a, st') /\
    st_pcbs demo_store !! a = None.
Proof.
  destruct (@create_new_pcb_all_or_nothing demo_pids demo_pids_ok demo_store 2 3 uc_zero eq_refl)
    as (res & st' & Hrun & Hres).
  destruct res as [a|]; [|vm_compute in Hrun; discriminate Hrun].
  exists a, st'. split; [exact Hrun|exact (proj1 Hres)].
Defined.
