(* ===== verification/Paging.v ===== *)
(** * Page tables and physical memory

    The state the memory modules work on, and the operations on one page table
    that [kernel_memory.c] (on [region0_pt]) and [user_memory.c] (on the region 1
    table of the current memory context) both have: [alloc_page],
    [dealloc_page], [unmap_no_free] and [undo_allocation].  They are written
    once, for a [page_table]; the two files instantiate it.  The theorems are
    about the mappings a table holds and about the set of free frames: an
    allocation that fails gives every frame back, and no frame is ever mapped
    twice. *)

From S2P Require Import Prelude Machine FrameTracking Pcb.

(** ** The state *)

(** [m_mem_ctx] is the process whose memory context [mem_ctx] points to;
    [m_pmem] the contents of physical memory, by frame and offset; [m_events]
    the writes to privileged registers, latest first. *)
Record mstate := {
  m_store : store;
  m_frames : frames_t;
  m_vm_enabled : bool;
  m_region0_pt : list pte;
  m_current_brk_page : Z;
  m_mem_ctx : option addr;
  m_pmem : Z -> Z -> Z;
  m_events : list hw_event
}.

Definition set_m_store v (s : mstate) : mstate :=
  {| m_store := v; m_frames := m_frames s; m_vm_enabled := m_vm_enabled s;
     m_region0_pt := m_region0_pt s; m_current_brk_page := m_current_brk_page s;
     m_mem_ctx := m_mem_ctx s; m_pmem := m_pmem s; m_events := m_events s |}.
Definition set_m_frames v (s : mstate) : mstate :=
  {| m_store := m_store s; m_frames := v; m_vm_enabled := m_vm_enabled s;
     m_region0_pt := m_region0_pt s; m_current_brk_page := m_current_brk_page s;
     m_mem_ctx := m_mem_ctx s; m_pmem := m_pmem s; m_events := m_events s |}.
Definition set_m_vm_enabled v (s : mstate) : mstate :=
  {| m_store := m_store s; m_frames := m_frames s; m_vm_enabled := v;
     m_region0_pt := m_region0_pt s; m_current_brk_page := m_current_brk_page s;
     m_mem_ctx := m_mem_ctx s; m_pmem := m_pmem s; m_events := m_events s |}.
Definition set_m_region0_pt v (s : mstate) : mstate :=
  {| m_store := m_store s; m_frames := m_frames s; m_vm_enabled := m_vm_enabled s;
     m_region0_pt := v; m_current_brk_page := m_current_brk_page s; m_mem_ctx := m_mem_ctx s;
     m_pmem := m_pmem s; m_events := m_events s |}.
Definition set_m_current_brk_page v (s : mstate) : mstate :=
  {| m_store := m_store s; m_frames := m_frames s; m_vm_enabled := m_vm_enabled s;
     m_region0_pt := m_region0_pt s; m_current_brk_page := v; m_mem_ctx := m_mem_ctx s;
     m_pmem := m_pmem s; m_events := m_events s |}.
Definition set_m_mem_ctx v (s : mstate) : mstate :=
  {| m_store := m_store s; m_frames := m_frames s; m_vm_enabled := m_vm_enabled s;
     m_region0_pt := m_region0_pt s; m_current_brk_page := m_current_brk_page s; m_mem_ctx := v;
     m_pmem := m_pmem s; m_events := m_events s |}.
Definition set_m_pmem v (s : mstate) : mstate :=
  {| m_store := m_store s; m_frames := m_frames s; m_vm_enabled := m_vm_enabled s;
     m_region0_pt := m_region0_pt s; m_current_brk_page := m_current_brk_page s;
     m_mem_ctx := m_mem_ctx s; m_pmem := v; m_events := m_events s |}.
Definition set_m_events v (s : mstate) : mstate :=
  {| m_store := m_store s; m_frames := m_frames s; m_vm_enabled := m_vm_enabled s;
     m_region0_pt := m_region0_pt s; m_current_brk_page := m_current_brk_page s;
     m_mem_ctx := m_mem_ctx s; m_pmem := m_pmem s; m_events := v |}.

#[export] Instance m_store_lens : Lens store mstate := {| lget := m_store; lset := set_m_store |}.
#[export] Instance m_frames_lens : Lens frames_t mstate := {| lget := m_frames; lset := set_m_frames |}.

(** [WriteRegister(...)] *)
Definition emit (e : hw_event) : M mstate unit :=
  modify (fun s => set_m_events (e :: m_events s) s).

(** ** A page table and the pages it covers *)
Record page_table := {
  pt_get : mstate -> option (list pte);
  pt_put : list pte -> mstate -> mstate;
  pt_base : Z;
  pt_vpns : Z
}.

Definition get_table (T : page_table) : M mstate (list pte) :=
  t ← gets (pt_get T); lift_opt t.
Definition put_table (T : page_table) (t : list pte) : M mstate unit := modify (pt_put T t).

Section operations.
Context `{Machine}.

Definition alloc_page (T : page_table) (vpn prot : Z) : M mstate bool :=
  let vpn := vpn - pt_base T in
  pfn ← zoom find_frame;
  if pfn =? ERROR then mret false
  else if (vpn <? pt_vpns T) && (0 <=? vpn) then
    t ← get_table T;
    t' ← lift_opt (create_pte t vpn pfn prot);
    put_table T t';;
    mret true
  else mret false.

Definition dealloc_page (T : page_table) (vpn : Z) : M mstate bool :=
  let relative_vpn := vpn - pt_base T in
  if (relative_vpn <? pt_vpns T) && (0 <=? relative_vpn) then
    t ← get_table T;
    e ← lift_opt (zget t relative_vpn);
    if negb (pte_valid e) then mret false
    else
      r ← lift_opt (destroy_pte t relative_vpn);
      put_table T r.2;;
      emit (TLBFlushPage (Z.shiftl vpn PAGESHIFT));;
      zoom (free_frame r.1)
  else mret false.

Definition unmap_no_free (T : page_table) (vpn : Z) : M mstate Z :=
  let relative_vpn := vpn - pt_base T in
  if (relative_vpn <? pt_vpns T) && (0 <=? relative_vpn) then
    t ← get_table T;
    r ← lift_opt (destroy_pte t relative_vpn);
    put_table T r.2;;
    emit (TLBFlushPage (Z.shiftl vpn PAGESHIFT));;
    mret r.1
  else mret (-1).

Definition undo_allocation (T : page_table) (first_vpn last_vpn : Z) : M mstate unit :=
  for_range first_vpn last_vpn (fun vpn => dealloc_page T vpn;; mret tt).

(** The loop that allocates the pages [first_vpn .. last_vpn - 1] and gives
    them all back when one cannot be had. *)
Definition alloc_or_undo (T : page_table) (first_vpn last_vpn prot : Z) : M mstate bool :=
  failed ← for_range_ret first_vpn last_vpn (fun vpn =>
    ok ← alloc_page T vpn prot;
    if negb ok then undo_allocation T first_vpn vpn;; mret (Some tt)
    else mret None);
  mret (match failed with Some _ => false | None => true end).

(** The access of the hardware to the page [vpn]: the frame it is in.  A page
    that is not mapped, or not with that protection, is a memory trap in the
    kernel. *)
Definition translate (T : page_table) (vpn prot : Z) : M mstate Z :=
  t ← get_table T;
  e ← lift_opt (zget t (vpn - pt_base T));
  if pte_valid e && negb (Z.land (pte_prot e) prot =? 0) then mret (pte_pfn e) else ub.

(** [memcpy] of a page. *)
Definition copy_page (T : page_table) (dst src : Z) : M mstate unit :=
  from ← translate T src PROT_READ;
  to ← translate T dst PROT_WRITE;
  modify (fun s => set_m_pmem
    (fun f => if decide (f = to) then m_pmem s from else m_pmem s f) s).
End operations.

(** ** What a table maps *)

(** The frame and the protection of the page [i], when it is mapped. *)
Definition maps (t : list pte) (i : Z) : option (Z * Z) :=
  e ← zget t i; if pte_valid e then Some (pte_pfn e, pte_prot e) else None.

(** The frames of the mapped pages [a .. b - 1]. *)
Definition frames_of (t : list pte) (a b : Z) : gset Z :=
  list_to_set (omap (fun i => fst <$> maps t i) (seqZ a (b - a))).

Lemma elem_of_frames_of t a b p :
  p ∈ frames_of t a b <-> exists i q, a <= i < b /\ maps t i = Some (p, q).
Proof.
  unfold frames_of. rewrite elem_of_list_to_set, list_elem_of_omap. split.
  - intros (i & Hi%elem_of_seqZ & Hm). destruct (maps t i) as [[p' q]|] eqn:E; [|done].
    simplify_eq/=. exists i, q. split; [lia|done].
  - intros (i & q & Hi & Hm). exists i. rewrite elem_of_seqZ, Hm. split; [lia|done].
Qed.

(** Counting the frames [X] of the pages [P]. *)
Lemma size_frames_le t P : forall X : gset Z,
  (forall p, p ∈ X -> exists i q, i ∈ P /\ maps t i = Some (p, q)) -> (size X <= length P)%nat.
Proof.
  induction P as [|i P IH]; intros X HX.
  - assert (X = ∅) as -> by (apply set_eq; intros p; split; [|done];
      intros (i & q & []%not_elem_of_nil & _)%HX). by rewrite size_empty.
  - simpl. destruct (maps t i) as [[p q]|] eqn:Hi.
    + transitivity (size ({[p]} ∪ X ∖ {[p]} : gset Z)).
      { apply subseteq_size. intros x. destruct (decide (x = p)); set_solver. }
      rewrite size_union_alt, size_singleton.
      transitivity (1 + size (X ∖ {[p]}))%nat; [apply le_n_S, subseteq_size; set_solver|].
      apply le_n_S, IH. intros x [Hx Hne]%elem_of_difference.
      destruct (HX x Hx) as (j & q' & [->|Hj]%elem_of_cons & Hm); [|by exists j, q']. set_solver.
    + etrans; [apply IH|lia]. intros x Hx.
      destruct (HX x Hx) as (j & q' & [->|Hj]%elem_of_cons & Hm); [congruence|by exists j, q'].
Qed.
Lemma size_frames_ge t P : forall X : gset Z,
  NoDup P -> (forall i, i ∈ P -> exists p q, maps t i = Some (p, q) /\ p ∈ X) ->
  (forall i j p q q', maps t i = Some (p, q) -> maps t j = Some (p, q') -> i = j) ->
  (length P <= size X)%nat.
Proof.
  induction P as [|i P IH]; intros X Hnd HP Hinj; simpl; [lia|].
  apply NoDup_cons in Hnd as [Hi Hnd]. destruct (HP i) as (p & q & Hm & Hp); [by left|].
  assert (length P <= size (X ∖ {[p]}))%nat as Hle.
  { apply IH; [done| |done]. intros j Hj. destruct (HP j) as (p' & q' & Hm' & Hp'); [by right|].
    exists p', q'. split; [done|]. apply elem_of_difference. split; [done|].
    intros ->%elem_of_singleton. by rewrite (Hinj i j p q q') in Hi. }
  rewrite size_difference, size_singleton in Hle by set_solver.
  assert (size X <> 0%nat) by (intros ?%size_empty_inv; set_solver). lia.
Qed.

Lemma maps_range t i x : maps t i = Some x -> 0 <= i < zlen t.
Proof. unfold maps. destruct (zget t i) eqn:E; [|done]. intros _. by eapply zget_Some. Qed.
Lemma maps_insert t i e j :
  0 <= i < zlen t ->
  maps (<[Z.to_nat i := e]> t) j =
    if decide (j = i) then if pte_valid e then Some (pte_pfn e, pte_prot e) else None else maps t j.
Proof.
  intros Hi. unfold maps. case_decide as E.
  - subst. by rewrite zget_insert_eq.
  - by rewrite zget_insert_ne by (done || lia).
Qed.
Lemma create_pte_maps t i pfn prot :
  0 <= i < zlen t ->
  exists t', create_pte t i pfn prot = Some t' /\ zlen t' = zlen t /\
    forall j, maps t' j = if decide (j = i) then Some (pfn, prot) else maps t j.
Proof.
  intros Hi. unfold create_pte. rewrite zset_inside by done. eexists. split; [done|].
  split; [apply zlen_insert|]. intros j. by rewrite maps_insert.
Qed.
Lemma destroy_pte_maps t i :
  0 <= i < zlen t ->
  exists e t', zget t i = Some e /\ destroy_pte t i = Some (pte_pfn e, t') /\ zlen t' = zlen t /\
    forall j, maps t' j = if decide (j = i) then None else maps t j.
Proof.
  intros Hi. destruct (zget_inside t i Hi) as [e He]. unfold destroy_pte. rewrite He. simpl.
  rewrite zset_inside by done. simpl. do 2 eexists. do 2 (split; [done|]).
  split; [apply zlen_insert|]. intros j. by rewrite maps_insert.
Qed.

(** Part of a table. *)
Lemma zslice_maps t i n l k : zslice t i n = Some l -> 0 <= k < n -> maps l k = maps t (i + k).
Proof.
  unfold zslice. case_decide as E; [|done]. intros [= <-] Hk. unfold maps.
  rewrite !zget_nonneg, lookup_take_lt, lookup_drop by lia.
  by replace (Z.to_nat i + Z.to_nat k)%nat with (Z.to_nat (i + k)) by lia.
Qed.

(** Two tables that map the same pages to the same frames. *)
Definition same_maps (t t' : list pte) : Prop := forall i, maps t' i = maps t i.

(** ** Laws of page tables *)
Class PageTableOk (T : page_table) : Prop := {
  pto_get_put : forall s t t', pt_get T s = Some t -> pt_get T (pt_put T t' s) = Some t';
  pto_put_get : forall s t, pt_get T s = Some t -> pt_put T t s = s;
  pto_put_put : forall s t t', pt_put T t (pt_put T t' s) = pt_put T t s;
  pto_frames : forall f s, pt_get T (set_m_frames f s) = pt_get T s;
  pto_events : forall e s, pt_get T (set_m_events e s) = pt_get T s;
  pto_pmem : forall m s, pt_get T (set_m_pmem m s) = pt_get T s;
  pto_put_frames : forall t f s, pt_put T t (set_m_frames f s) = set_m_frames f (pt_put T t s);
  pto_put_events : forall t e s, pt_put T t (set_m_events e s) = set_m_events e (pt_put T t s);
  pto_put_pmem : forall t m s, pt_put T t (set_m_pmem m s) = set_m_pmem m (pt_put T t s);
  pto_base : 0 <= pt_base T
}.

(** The state [s] with another table, frame allocator and event log. *)
Definition paged (T : page_table) (t : list pte) (f : frames_t) (e : list hw_event) (s : mstate)
  : mstate := set_m_events e (set_m_frames f (pt_put T t s)).

Section laws.
Context {T : page_table} `{!PageTableOk T}.

Lemma paged_get s t0 t f e : pt_get T s = Some t0 -> pt_get T (paged T t f e s) = Some t.
Proof. intros. unfold paged. rewrite pto_events, pto_frames. by eapply pto_get_put. Qed.
Lemma paged_frames t f f' e s : set_m_frames f' (paged T t f e s) = paged T t f' e s.
Proof. done. Qed.
Lemma paged_events t f e e' s : set_m_events e' (paged T t f e s) = paged T t f e' s.
Proof. done. Qed.
Lemma paged_put t t' f e s : pt_put T t' (paged T t f e s) = paged T t' f e s.
Proof. unfold paged. by rewrite pto_put_events, pto_put_frames, pto_put_put. Qed.
Lemma paged_same s t : pt_get T s = Some t -> s = paged T t (m_frames s) (m_events s) s.
Proof. intros. unfold paged. rewrite pto_put_get by done. by destruct s. Qed.
Lemma paged_paged t t' f f' e e' s : paged T t' f' e' (paged T t f e s) = paged T t' f' e' s.
Proof. unfold paged at 1. by rewrite paged_put. Qed.
End laws.

(** ** The specifications *)
Section specs.
Context `{MachineOk} {T : page_table} `{!PageTableOk T}.

(** The table maps frames in use, no two pages to the same one. *)
Record table_ok (f : frames_t) (t : list pte) : Prop := {
  to_wf : frames_wf f;
  to_len : zlen t = pt_vpns T;
  to_range : forall i p q, maps t i = Some (p, q) -> frame_range f p;
  to_used : forall i p q, maps t i = Some (p, q) -> p ∉ free_set f;
  to_inj : forall i j p q q', maps t i = Some (p, q) -> maps t j = Some (p, q') -> i = j
}.

(** One more page of the table is mapped, to a frame that was free. *)
Lemma table_ok_create f f' t t' i pfn prot :
  table_ok f t -> frames_wf f' -> NUM_FRAMES f' = NUM_FRAMES f -> pfn ∈ free_set f ->
  free_set f' = free_set f ∖ {[pfn]} -> maps t i = None -> zlen t' = zlen t ->
  (forall j, maps t' j = if decide (j = i) then Some (pfn, prot) else maps t j) ->
  table_ok f' t'.
Proof.
  intros [Hwf Hl Hr Hu Hi] Hwf' Hn Hp Hf Hnone Hlen Hm. split; [done|congruence|..].
  - intros j p q. rewrite Hm. unfold frame_range. rewrite Hn. case_decide.
    + intros [= <- <-]. by apply free_set_range.
    + apply Hr.
  - intros j p q. rewrite Hm, Hf. case_decide; [set_solver|]. intros E. specialize (Hu _ _ _ E).
    set_solver.
  - intros j k p q q'. rewrite !Hm. repeat case_decide; intros; simplify_eq; try done.
    + by destruct (Hu k p q').
    + by destruct (Hu j p q).
    + by eapply Hi.
Qed.
(** One page less is mapped, and its frame is free. *)
Lemma table_ok_destroy f f' t t' i pfn prot :
  table_ok f t -> frames_wf f' -> NUM_FRAMES f' = NUM_FRAMES f ->
  free_set f' = free_set f ∪ {[pfn]} -> maps t i = Some (pfn, prot) -> zlen t' = zlen t ->
  (forall j, maps t' j = if decide (j = i) then None else maps t j) ->
  table_ok f' t'.
Proof.
  intros [Hwf Hl Hr Hu Hi] Hwf' Hn Hf Hsome Hlen Hm. split; [done|congruence|..].
  - intros j p q. rewrite Hm. unfold frame_range. rewrite Hn. case_decide; [done|]. apply Hr.
  - intros j p q. rewrite Hm, Hf. case_decide; [done|]. intros E Hin.
    apply elem_of_union in Hin as [Hin| ->%elem_of_singleton]; [by apply (Hu _ _ _ E)|].
    by specialize (Hi _ _ _ _ _ E Hsome).
  - intros j k p q q'. rewrite !Hm. repeat case_decide; try done. apply Hi.
Qed.
(** The allocator changed without a frame changing hands. *)
Lemma table_ok_same f f' t :
  table_ok f t -> frames_wf f' -> NUM_FRAMES f' = NUM_FRAMES f -> free_set f' = free_set f ->
  table_ok f' t.
Proof.
  intros [Hwf Hl Hr Hu Hi] Hwf' Hn Hf. split; try done.
  - intros i p q E. unfold frame_range. rewrite Hn. by eapply Hr.
  - intros i p q E. rewrite Hf. by eapply Hu.
Qed.

Lemma wp_get_table s t0 t f e Q :
  pt_get T s = Some t0 -> Q t (paged T t f e s) -> wp (get_table T) Q (paged T t f e s).
Proof.
  intros Hg HQ. unfold get_table. wp_step. wp_step. eapply wp_lift_opt; [by eapply paged_get|done].
Qed.
Lemma wp_put_table s t t' f e Q :
  Q tt (paged T t' f e s) -> wp (put_table T t') Q (paged T t f e s).
Proof. intros HQ. unfold put_table. wp_step. by rewrite paged_put. Qed.

Lemma alloc_page_ok s t0 t f e vpn prot :
  pt_get T s = Some t0 -> table_ok f t -> 0 <= vpn - pt_base T < pt_vpns T ->
  maps t (vpn - pt_base T) = None ->
  wp (alloc_page T vpn prot) (fun ok s' => exists t' f', s' = paged T t' f' e s /\
    table_ok f' t' /\ NUM_FRAMES f' = NUM_FRAMES f /\
    if ok : bool then exists pfn, pfn ∈ free_set f /\ free_set f' = free_set f ∖ {[pfn]} /\
      forall j, maps t' j = if decide (j = vpn - pt_base T) then Some (pfn, prot) else maps t j
    else t' = t /\ free_set f = ∅ /\ free_set f' = ∅) (paged T t f e s).
Proof.
  intros Hg Hok Hr Hnone. unfold alloc_page. wp_step. wp_steps.
  change (lget (paged T t f e s)) with f.
  eapply wp_mono; [apply find_frame_ok, Hok|]. intros pfn f' [Hwf' Hn Hres].
  change (lset f' (paged T t f e s)) with (paged T t f' e s).
  destruct Hres as [(Hin & _ & Hf)|(-> & Hf & Hf')].
  - rewrite (proj2 (Z.eqb_neq _ _)) by (by eapply free_set_not_error).
    rewrite (proj2 (Z.ltb_lt _ _)), (proj2 (Z.leb_le _ _)) by lia. simpl.
    wp_step. eapply wp_get_table; [done|].
    destruct (create_pte_maps t (vpn - pt_base T) pfn prot) as (t' & Hc & Hl & Hm).
    { rewrite (to_len _ _ Hok). lia. }
    wp_step. eapply wp_lift_opt; [done|]. wp_step. apply wp_put_table. wp_step.
    exists t', f'. split; [done|]. split; [|split; [done|by exists pfn]].
    by eapply (table_ok_create f).
  - rewrite Z.eqb_refl. wp_step. exists t, f'. split; [done|].
    split; [|done]. eapply table_ok_same; [done..|]. by rewrite Hf, Hf'.
Qed.

Lemma dealloc_page_ok s t0 t f e vpn :
  pt_get T s = Some t0 -> table_ok f t -> 0 <= vpn - pt_base T < pt_vpns T ->
  wp (dealloc_page T vpn) (fun ok s' => exists t' f' e', s' = paged T t' f' e' s /\
    table_ok f' t' /\ NUM_FRAMES f' = NUM_FRAMES f /\
    (forall j, maps t' j = if decide (j = vpn - pt_base T) then None else maps t j) /\
    match maps t (vpn - pt_base T) with
    | None => ok = false /\ free_set f' = free_set f /\ e' = e
    | Some (p, _) => ok = true /\ free_set f' = free_set f ∪ {[p]} /\
        e' = TLBFlushPage (Z.shiftl vpn PAGESHIFT) :: e
    end) (paged T t f e s).
Proof.
  intros Hg Hok Hr. unfold dealloc_page. cbv zeta.
  rewrite (proj2 (Z.ltb_lt _ _)), (proj2 (Z.leb_le _ _)) by lia. simpl.
  wp_step. eapply wp_get_table; [done|].
  destruct (destroy_pte_maps t (vpn - pt_base T)) as (x & t' & Hx & Hd & Hl & Hm).
  { rewrite (to_len _ _ Hok). lia. }
  wp_step. eapply wp_lift_opt; [done|].
  destruct (maps t (vpn - pt_base T)) as [[p q]|] eqn:E; pose proof E as E'; unfold maps in E';
    rewrite Hx in E'; simpl in E'; destruct (pte_valid x); simplify_eq/=.
  - wp_step. eapply wp_lift_opt; [done|]. wp_step. apply wp_put_table. wp_step.
    unfold emit. wp_step. wp_step.
    set (s1 := set_m_events _ _). change (lget s1) with f.
    eapply wp_mono; [apply free_frame_ok, Hok|]. intros ok f' (Hwf' & Hn & Hres).
    rewrite decide_True in Hres.
    2: { split; [by eapply (to_range _ _ Hok)|by eapply (to_used _ _ Hok)]. }
    destruct Hres as [-> Hf]. exists t', f', (TLBFlushPage (Z.shiftl vpn PAGESHIFT) :: e).
    split; [done|].
    split; [by eapply (table_ok_destroy f)|done].
  - wp_step. exists t, f, e. split; [done|]. split; [done|]. split; [done|]. split; [|done].
    intros j. case_decide; [by subst|done].
Qed.

Lemma undo_allocation_ok s t0 t f e first last :
  pt_get T s = Some t0 -> table_ok f t -> 0 <= first - pt_base T -> last - pt_base T <= pt_vpns T ->
  wp (undo_allocation T first last) (fun _ s' => exists t' f' e', s' = paged T t' f' e' s /\
    table_ok f' t' /\ NUM_FRAMES f' = NUM_FRAMES f /\
    (forall j, maps t' j =
       if decide (first - pt_base T <= j < last - pt_base T) then None else maps t j) /\
    free_set f' = free_set f ∪ frames_of t (first - pt_base T) (last - pt_base T))
    (paged T t f e s).
Proof.
  intros Hg Hok Hfirst Hlast. unfold undo_allocation.
  apply (wp_for_range _ _ _ (fun vpn s' => exists t' f' e', s' = paged T t' f' e' s /\
    table_ok f' t' /\ NUM_FRAMES f' = NUM_FRAMES f /\
    (forall j, maps t' j =
       if decide (first - pt_base T <= j < vpn - pt_base T) then None else maps t j) /\
    free_set f' = free_set f ∪ frames_of t (first - pt_base T) (vpn - pt_base T))).
  - exists t, f, e. do 3 (split; [done|]). split.
    + intros j. rewrite decide_False; [done|lia].
    + unfold frames_of. rewrite Z.sub_diag. simpl. set_solver.
  - intros vpn ? Hvpn (t1 & f1 & e1 & -> & Hok1 & Hn1 & Hm1 & Hf1). wp_step.
    eapply wp_mono; [eapply dealloc_page_ok; [done|done|lia]|].
    intros ok ? (t2 & f2 & e2 & -> & Hok2 & Hn2 & Hm2 & Hres). wp_step.
    exists t2, f2, e2. split; [done|]. split; [done|]. split; [congruence|]. split.
    + intros j. rewrite Hm2, Hm1. repeat case_decide; try done; lia.
    + rewrite Hm1, decide_False in Hres by lia. apply set_eq. intros p.
      rewrite elem_of_union, elem_of_frames_of.
      destruct (maps t (vpn - pt_base T)) as [[p' q']|] eqn:E.
      * destruct Hres as (_ & -> & _). rewrite Hf1, !elem_of_union, elem_of_frames_of, elem_of_singleton.
        split.
        -- intros [[?|(i & q & ? & ?)]| ->]; [by left|right|right].
           ++ exists i, q. split; [lia|done].
           ++ exists (vpn - pt_base T), q'. split; [lia|done].
        -- intros [?|(i & q & ? & Hi)]; [by left; left|].
           destruct (decide (i = vpn - pt_base T)) as [->|]; [right; congruence|].
           left. right. exists i, q. split; [lia|done].
      * destruct Hres as (_ & -> & _). rewrite Hf1, elem_of_union, elem_of_frames_of. split.
        -- intros [?|(i & q & ? & ?)]; [by left|right]. exists i, q. split; [lia|done].
        -- intros [?|(i & q & ? & Hi)]; [by left|right].
           destruct (decide (i = vpn - pt_base T)) as [->|]; [congruence|].
           exists i, q. split; [lia|done].
  - intros s' (t' & f' & e' & -> & Hok' & Hn' & Hm' & Hf'). exists t', f', e'.
    do 3 (split; [done|]). destruct (decide (first <= last)).
    + rewrite Z.max_r in Hm', Hf' by lia. done.
    + rewrite Z.max_l in Hm', Hf' by lia. split.
      * intros j. rewrite Hm', !decide_False by lia. done.
      * rewrite Hf'. apply set_eq. intros p. rewrite !elem_of_union, !elem_of_frames_of.
        split; (intros [?|(i & q & ? & ?)]; [by left|lia]).
Qed.

(** What allocating the pages [a .. b - 1] has done. *)
Record allocated (f : frames_t) (t : list pte) (a b prot : Z) (f' : frames_t) (t' : list pte)
  : Prop := {
  al_ok : table_ok f' t';
  al_num : NUM_FRAMES f' = NUM_FRAMES f;
  al_in : forall j, a <= j < b -> exists pfn, maps t' j = Some (pfn, prot) /\ pfn ∈ free_set f;
  al_out : forall j, ~ (a <= j < b) -> maps t' j = maps t j;
  al_free : free_set f' = free_set f ∖ frames_of t' a b;
  al_size : Z.of_nat (size (free_set f')) + Z.max 0 (b - a) = Z.of_nat (size (free_set f))
}.

Lemma allocated_none f t a prot : table_ok f t -> allocated f t a a prot f t.
Proof.
  intros Hok. split; try done; [intros; lia| |lia].
  unfold frames_of. rewrite Z.sub_diag. simpl. set_solver.
Qed.

Lemma allocated_same f t a b prot f1 f2 t1 :
  allocated f t a b prot f1 t1 -> frames_wf f2 -> NUM_FRAMES f2 = NUM_FRAMES f1 ->
  free_set f2 = free_set f1 -> allocated f t a b prot f2 t1.
Proof.
  intros [Hok Hn Hin Hout Hf Hsz] Hwf2 Hn2 Hf2.
  split; [by apply (table_ok_same f1)|congruence|done|done|congruence|by rewrite Hf2].
Qed.

Lemma allocated_step f t a b prot f1 t1 pfn f2 t2 :
  a <= b -> allocated f t a b prot f1 t1 -> table_ok f2 t2 -> NUM_FRAMES f2 = NUM_FRAMES f1 ->
  pfn ∈ free_set f1 -> free_set f2 = free_set f1 ∖ {[pfn]} ->
  (forall j, maps t2 j = if decide (j = b) then Some (pfn, prot) else maps t1 j) ->
  allocated f t a (b + 1) prot f2 t2.
Proof.
  intros Hab [Hok1 Hn1 Hin1 Hout1 Hf1 Hsz1] Hok2 Hn2 Hp Hf2 Hm2. split; [done|congruence|..].
  - intros j Hj. rewrite Hm2. case_decide as E.
    + exists pfn. split; [done|]. rewrite Hf1 in Hp. set_solver.
    + apply Hin1. lia.
  - intros j Hj. rewrite Hm2, decide_False by lia. apply Hout1. lia.
  - rewrite Hf2, Hf1. apply set_eq. intros p.
    rewrite !elem_of_difference, elem_of_singleton, !elem_of_frames_of. split.
    + intros [[Hpf Hno] Hne]. split; [done|]. intros (i & q & Hi & Hmi). rewrite Hm2 in Hmi.
      case_decide; [congruence|]. apply Hno. exists i, q. split; [lia|done].
    + intros [Hpf Hno]. split; [split; [done|]|].
      * intros (i & q & Hi & Hmi). apply Hno. exists i, q. rewrite Hm2, decide_False by lia.
        split; [lia|done].
      * intros ->. apply Hno. exists b, prot. rewrite Hm2, decide_True by done. split; [lia|done].
  - rewrite Hf2, size_difference, size_singleton by set_solver.
    assert (size (free_set f1) <> 0%nat).
    { intros E. apply size_empty_inv in E. set_solver. }
    lia.
Qed.

Lemma alloc_or_undo_ok s t0 t f e first last prot :
  pt_get T s = Some t0 -> table_ok f t -> 0 <= first - pt_base T -> last - pt_base T <= pt_vpns T ->
  (forall j, first - pt_base T <= j < last - pt_base T -> maps t j = None) ->
  wp (alloc_or_undo T first last prot) (fun ok s' => exists t' f' e', s' = paged T t' f' e' s /\
    ok = bool_decide (last - first <= Z.of_nat (size (free_set f))) /\
    if ok then allocated f t (first - pt_base T) (last - pt_base T) prot f' t'
    else table_ok f' t' /\ NUM_FRAMES f' = NUM_FRAMES f /\ same_maps t t' /\
      free_set f' = free_set f) (paged T t f e s).
Proof.
  intros Hg Hok Hfirst Hlast Hnone. unfold alloc_or_undo. wp_step.
  apply (wp_for_range_ret _ _ _ (fun vpn s' => exists t' f', s' = paged T t' f' e s /\
    allocated f t (first - pt_base T) (vpn - pt_base T) prot f' t')).
  - exists t, f. split; [done|]. by apply allocated_none.
  - intros vpn ? Hvpn (t1 & f1 & -> & Hal). wp_step.
    eapply wp_mono; [eapply alloc_page_ok; [done|apply Hal|lia|]|].
    { rewrite (al_out _ _ _ _ _ _ _ Hal) by lia. apply Hnone. lia. }
    intros [] ? (t2 & f2 & -> & Hok2 & Hn2 & Hres); simpl.
    + destruct Hres as (pfn & Hp & Hf2 & Hm2). wp_step. exists t2, f2. split; [done|].
      replace (vpn + 1 - pt_base T) with (vpn - pt_base T + 1) by lia.
      by eapply (allocated_step f t _ _ prot f1 t1 pfn); [lia|..].
    + destruct Hres as (-> & Hf1 & Hf2). wp_step.
      eapply wp_mono; [eapply (undo_allocation_ok s t0); [done|done|lia|lia]|].
      intros [] ? (t3 & f3 & e3 & -> & Hok3 & Hn3 & Hm3 & Hf3). wp_step. wp_step.
      exists t3, f3, e3. split; [done|].
      pose proof (al_size _ _ _ _ _ _ _ Hal) as Hsz. rewrite Hf1, size_empty in Hsz.
      rewrite bool_decide_eq_false_2 by lia. split; [done|]. split; [done|].
      split; [by rewrite Hn3, Hn2, (al_num _ _ _ _ _ _ _ Hal)|]. split.
      * intros j. rewrite Hm3. case_decide as E; [|by apply Hal]. symmetry. apply Hnone. lia.
      * rewrite Hf3, Hf2. pose proof (al_free _ _ _ _ _ _ _ Hal) as Hf. rewrite Hf1 in Hf.
        apply set_eq. intros p. rewrite elem_of_union. split.
        -- intros [?|(i & q & Hi & Hmi)%elem_of_frames_of]; [set_solver|].
           destruct (al_in _ _ _ _ _ _ _ Hal i Hi) as (pfn & Hmi' & ?). congruence.
        -- intros Hp. right. destruct (decide (p ∈ frames_of t1 (first - pt_base T) (vpn - pt_base T)));
             [done|]. assert (p ∈ (∅ : gset Z)) by (rewrite Hf; set_solver). set_solver.
  - intros ? (t' & f' & -> & Hal). wp_step. exists t', f', e. split; [done|].
    pose proof (al_size _ _ _ _ _ _ _ Hal) as Hsz. destruct (decide (first <= last)).
    + rewrite Z.max_r in Hal, Hsz by lia. rewrite bool_decide_eq_true_2 by lia. done.
    + rewrite bool_decide_eq_true_2 by lia. split; [done|].
      rewrite Z.max_l in Hal, Hsz by lia. destruct Hal as [H1 H2 H3 H4 H5 H6].
      split; try done; [intros; lia| | |lia].
      * intros j Hj. apply H4. lia.
      * rewrite H5. apply set_eq. intros p. rewrite !elem_of_difference, !elem_of_frames_of.
        split; intros [? _]; (split; [done|]); intros (i & q & ? & _); lia.
Qed.

Lemma unmap_no_free_ok s t0 t f e vpn p q :
  pt_get T s = Some t0 -> zlen t = pt_vpns T -> 0 <= vpn - pt_base T < pt_vpns T ->
  maps t (vpn - pt_base T) = Some (p, q) ->
  wp (unmap_no_free T vpn) (fun r s' => r = p /\ exists t' e', s' = paged T t' f e' s /\
    zlen t' = zlen t /\
    forall j, maps t' j = if decide (j = vpn - pt_base T) then None else maps t j) (paged T t f e s).
Proof.
  intros Hg Hl Hr Hm. unfold unmap_no_free. cbv zeta.
  rewrite (proj2 (Z.ltb_lt _ _)), (proj2 (Z.leb_le _ _)) by lia. simpl.
  wp_step. eapply wp_get_table; [done|].
  destruct (destroy_pte_maps t (vpn - pt_base T)) as (x & t' & Hx & Hd & Hl' & Hm'); [lia|].
  wp_step. eapply wp_lift_opt; [done|]. wp_step. apply wp_put_table. unfold emit. wp_steps.
  unfold maps in Hm. rewrite Hx in Hm. simpl in Hm. destruct (pte_valid x); [|done].
  injection Hm as <- <-. split; [done|]. by exists t', (TLBFlushPage (Z.shiftl vpn PAGESHIFT) :: e).
Qed.

Lemma wp_translate s t0 t f e vpn q p prot Q :
  pt_get T s = Some t0 -> maps t (vpn - pt_base T) = Some (p, prot) -> Z.land prot q <> 0 ->
  Q p (paged T t f e s) -> wp (translate T vpn q) Q (paged T t f e s).
Proof.
  intros Hg Hm Hq HQ. unfold translate. wp_step. eapply wp_get_table; [done|]. wp_step.
  unfold maps in Hm. destruct (zget t (vpn - pt_base T)) as [x|] eqn:Hx; [|done]. simpl in Hm.
  eapply wp_lift_opt; [done|]. destruct (pte_valid x); [|done]. injection Hm as <- <-. simpl.
  rewrite (proj2 (Z.eqb_neq _ _) Hq). simpl. by wp_step.
Qed.

Lemma copy_page_ok s t0 t f e dst src pd qd ps qs Q :
  pt_get T s = Some t0 ->
  maps t (src - pt_base T) = Some (ps, qs) -> Z.land qs PROT_READ <> 0 ->
  maps t (dst - pt_base T) = Some (pd, qd) -> Z.land qd PROT_WRITE <> 0 ->
  Q tt (set_m_pmem (fun x => if decide (x = pd) then m_pmem (paged T t f e s) ps
                             else m_pmem (paged T t f e s) x) (paged T t f e s)) ->
  wp (copy_page T dst src) Q (paged T t f e s).
Proof.
  intros Hg Hs Hqs Hd Hqd HQ. unfold copy_page. wp_step. eapply wp_translate; [done..|].
  wp_step. eapply wp_translate; [done..|]. by wp_step.
Qed.

(** Unmapping the page just mapped gives the old table back. *)
Lemma table_ok_maps f t t' : table_ok f t -> zlen t' = zlen t -> same_maps t t' -> table_ok f t'.
Proof.
  intros [Hwf Hl Hr Hu Hi] Hl' Hm. split; [done|congruence|..].
  - intros i p q. rewrite Hm. apply Hr.
  - intros i p q. rewrite Hm. apply Hu.
  - intros i j p q q'. rewrite !Hm. apply Hi.
Qed.
(** Fewer frames are free, none of them mapped. *)
Lemma table_ok_shrink f f' t :
  table_ok f t -> frames_wf f' -> NUM_FRAMES f' = NUM_FRAMES f -> free_set f' ⊆ free_set f ->
  table_ok f' t.
Proof.
  intros [Hwf Hl Hr Hu Hi] Hwf' Hn Hf. split; try done.
  - intros i p q E. unfold frame_range. rewrite Hn. by eapply Hr.
  - intros i p q E Hin. apply (Hu _ _ _ E). by apply Hf.
Qed.

(** [table_ok] decided, for concrete tables. *)
Definition table_check (f : frames_t) (t : list pte) : bool :=
  forallb (fun i => match maps t i with
    | None => true
    | Some (p, _) => bool_decide (frame_range f p) && frame_bit f (subtract_base p) &&
        forallb (fun j => match maps t j with
          | Some (p', _) => negb (p =? p') || (i =? j)
          | None => true
          end) (seqZ 0 (zlen t))
    end) (seqZ 0 (zlen t)).

Lemma table_check_ok f t :
  frames_wf f -> zlen t = pt_vpns T -> table_check f t = true -> table_ok f t.
Proof.
  intros Hwf Hl Hc. unfold table_check in Hc. rewrite forallb_forall in Hc.
  assert (forall i p q, maps t i = Some (p, q) -> frame_range f p /\
    frame_bit f (subtract_base p) = true /\
    forall j p' q', maps t j = Some (p', q') -> p = p' -> i = j) as Hall.
  { intros i p q Hi. pose proof (maps_range _ _ _ Hi) as Hr.
    specialize (Hc i). rewrite Hi in Hc.
    assert (In i (seqZ 0 (zlen t))) as Hin by (apply list_elem_of_In, elem_of_seqZ; lia).
    specialize (Hc Hin). apply andb_true_iff in Hc as [Hc Hj]. apply andb_true_iff in Hc as [Hc Hb].
    apply bool_decide_eq_true in Hc. do 2 (split; [done|]). intros j p' q' Hmj ->.
    rewrite forallb_forall in Hj. specialize (Hj j). rewrite Hmj in Hj.
    pose proof (maps_range _ _ _ Hmj). rewrite Z.eqb_refl in Hj. simpl in Hj.
    apply Z.eqb_eq, Hj, list_elem_of_In, elem_of_seqZ. lia. }
  split; [done|done|..].
  - intros i p q Hi. by destruct (Hall i p q Hi).
  - intros i p q Hi. destruct (Hall i p q Hi) as (_ & Hb & _). rewrite elem_of_free_set.
    intros [_ Hb']. congruence.
  - intros i j p q q' Hi Hj. destruct (Hall i p q Hi) as (_ & _ & Hu). by eapply Hu.
Qed.
End specs.

(** ** A concrete allocator: the frames 8 to 15 of 16 are free *)
Definition mapped_pte (pfn prot : Z) : pte := {| pte_valid := true; pte_prot := prot; pte_pfn := pfn |}.
Definition demo_user_frames : frames_t :=
  {| frame_bitset := [255; 0]; after_bitset := 0; next_free := 8; NUM_FRAMES := 16 |}.
Lemma demo_user_frames_wf : frames_wf demo_user_frames.
Proof.
  split; simpl; [repeat constructor; lia|vm_compute; done|lia|].
  intros n Hn.
  assert (In n [0; 1; 2; 3; 4; 5; 6; 7]) as Hin by (simpl; lia).
  simpl in Hin. repeat destruct Hin as [<-|Hin]; done.
Defined.
