(* ===== verification/KernelMemory.v ===== *)
(** * Kernel memory ([kernel_memory.c])

    The page table of region 0, the kernel's break, the kernel stacks: boot
    mapping, growing and shrinking the kernel heap, copying the kernel stack of
    a new process and switching to the stack of the next one. *)

From S2P Require Import Prelude Machine FrameTracking Pcb Paging.

(** ** Definitions *)
Section definitions.
Context `{Machine}.

Definition region0_table : page_table :=
  {| pt_get := fun s => Some (m_region0_pt s); pt_put := set_m_region0_pt;
     pt_base := 0; pt_vpns := REGION0_VPNS |}.

Definition enable_vm : M mstate unit :=
  emit WriteVMEnable;;
  modify (set_m_vm_enabled true).

Definition init_kernel_brk : M mstate unit := modify (set_m_current_brk_page orig_kernel_brk_page).

(** One of the three loops of [init_region0_pt]: the pages [first .. last - 1]
    are mapped to the frames of the same number. *)
Definition map_identity (first last prot : Z) : M mstate bool :=
  failed ← for_range_ret first last (fun vpn =>
    ok ← zoom (acquire_frame vpn);
    if negb ok then mret (Some tt)
    else
      t ← gets m_region0_pt;
      t' ← lift_opt (create_pte t vpn vpn prot);
      modify (set_m_region0_pt t');;
      mret None);
  mret (match failed with Some _ => false | None => true end).

(** [memcpy(pcb->ks_pt, region0_pt + K_STACK_BASE_VPN, ...)] *)
Definition save_stack_ptes (pcb : addr) : M mstate unit :=
  t ← gets m_region0_pt;
  ptes ← lift_opt (zslice t K_STACK_BASE_VPN K_STACK_VPNS);
  b ← zoom (load pcb);
  ks_pt ← lift_opt (ks ← p_ks_pt b; zblit ks 0 ptes);
  zoom (update pcb (set_p_ks_pt (Some ks_pt))).

Definition init_region0_pt (idle_pcb : addr) : M mstate bool :=
  modify (set_m_region0_pt (replicate (Z.to_nat REGION0_VPNS) pte_zero));;
  ok ← map_identity first_kernel_text_page first_kernel_data_page (Z.lor PROT_READ PROT_EXEC);
  if negb ok then mret false
  else
    brk ← gets m_current_brk_page;
    ok ← map_identity first_kernel_data_page brk (Z.lor PROT_READ PROT_WRITE);
    if negb ok then mret false
    else
      ok ← map_identity K_STACK_BASE_VPN K_STACK_LIMIT_VPN (Z.lor PROT_READ PROT_WRITE);
      if negb ok then mret false
      else
        save_stack_ptes idle_pcb;;
        emit WritePTBR0;;
        emit (WritePTLR0 REGION0_VPNS);;
        mret true.

(** The functions on one page of region 0. *)
Definition kernel_alloc_page (vpn prot : Z) : M mstate bool :=
  pfn ← zoom find_frame;
  if pfn =? -1 then mret false
  else if (vpn <? REGION0_VPNS) && (0 <=? vpn) then
    t ← gets m_region0_pt;
    t' ← lift_opt (create_pte t vpn pfn prot);
    modify (set_m_region0_pt t');;
    mret true
  else mret false.

Definition kernel_dealloc_page (vpn : Z) : M mstate bool :=
  if (REGION0_VPNS <=? vpn) || (vpn <? 0) then mret false
  else
    t ← gets m_region0_pt;
    e ← lift_opt (zget t vpn);
    if negb (pte_valid e) then mret false
    else
      r ← lift_opt (destroy_pte t vpn);
      modify (set_m_region0_pt r.2);;
      emit (TLBFlushPage (Z.shiftl vpn PAGESHIFT));;
      ok ← zoom (free_frame r.1);
      if negb ok then mret false else mret true.

Definition kernel_unmap_no_free (vpn : Z) : M mstate Z :=
  if (vpn <? REGION0_VPNS) && (0 <=? vpn) then
    t ← gets m_region0_pt;
    r ← lift_opt (destroy_pte t vpn);
    modify (set_m_region0_pt r.2);;
    emit (TLBFlushPage (Z.shiftl vpn PAGESHIFT));;
    mret r.1
  else mret (-1).

Definition kernel_undo_allocation (first_vpn last_vpn : Z) : M mstate unit :=
  for_range first_vpn last_vpn (fun vpn => kernel_dealloc_page vpn;; mret tt).

Definition SetKernelBrk (addr : Z) : M mstate Z :=
  let heap_page := up_vpn_of addr in
  let stack_page := vpn_of KERNEL_STACK_BASE in
  if (heap_page <? orig_kernel_brk_page) || (stack_page - 2 <=? heap_page) then mret ERROR
  else
    enabled ← gets m_vm_enabled;
    if negb enabled then modify (set_m_current_brk_page heap_page);; mret 0
    else
      current ← gets m_current_brk_page;
      ok ←
        (if current <? heap_page then
           failed ← for_range_ret current heap_page (fun vpn =>
             ok ← kernel_alloc_page vpn (Z.lor PROT_READ PROT_WRITE);
             if negb ok then kernel_undo_allocation current vpn;; mret (Some tt) else mret None);
           mret (match failed with Some _ => false | None => true end)
         else kernel_undo_allocation heap_page current;; mret true);
      if negb ok then mret ERROR
      else
        modify (set_m_current_brk_page heap_page);;
        mret 0.

(** [KCCopy(kc_in, new_pcb, ...)]: [false] is NULL. *)
Definition KCCopy (kc_in : kcontext) (new_pcb : addr) : M mstate bool :=
  true_brk_page ← gets m_current_brk_page;
  r ← SetKernelBrk (Z.shiftl (true_brk_page + K_STACK_VPNS) PAGESHIFT);
  if r =? ERROR then mret false
  else
    for_range 0 (Z.shiftr KERNEL_STACK_MAXSIZE PAGESHIFT) (fun i =>
      copy_page region0_table (true_brk_page + i) (K_STACK_BASE_VPN + i));;
    for_range true_brk_page (true_brk_page + K_STACK_VPNS) (fun vpn =>
      pfn ← kernel_unmap_no_free vpn;
      let shift := vpn - true_brk_page in
      b ← zoom (load new_pcb);
      ks_pt ← lift_opt (ks ← p_ks_pt b;
        create_pte ks shift pfn (Z.lor PROT_READ PROT_WRITE));
      zoom (update new_pcb (set_p_ks_pt (Some ks_pt))));;
    modify (set_m_current_brk_page true_brk_page);;
    zoom (update new_pcb (set_p_kc kc_in));;
    mret true.

(** [KCSwitch(kc_in, curr, next)] and the kernel context it gives back. *)
Definition KCSwitch (kc_in : kcontext) (curr_pcb : option addr) (next_pcb : addr)
    : M mstate kcontext :=
  match curr_pcb with
  | Some curr => zoom (update curr (set_p_kc kc_in))
  | None => mret tt
  end;;
  b ← zoom (load next_pcb);
  t ← gets m_region0_pt;
  t' ← lift_opt (ks ← p_ks_pt b; ptes ← zslice ks 0 K_STACK_VPNS; zblit t K_STACK_BASE_VPN ptes);
  modify (set_m_region0_pt t');;
  emit TLBFlushKStack;;
  mret (p_kc b).

Definition free_no_unmap (vpn : Z) : M mstate bool :=
  if (REGION0_VPNS <=? vpn) || (vpn <? 0) then mret false
  else
    t ← gets m_region0_pt;
    e ← lift_opt (zget t vpn);
    if negb (pte_valid e) then mret false
    else
      ok ← zoom (free_frame (pte_pfn e));
      if negb ok then mret false else mret true.

Definition deallocate_kernel_stack : M mstate unit :=
  for_range K_STACK_BASE_VPN K_STACK_LIMIT_VPN (fun vpn => free_no_unmap vpn;; mret tt).
End definitions.

(** ** The region 0 table as a page table *)
#[export] Instance region0_table_ok `{Machine} : PageTableOk region0_table.
Proof. split; try done; simpl. by intros [] ? [= <-]. Qed.

(** The functions on one page of region 0 are those of [Paging] on its table. *)
Section region0.
Context `{Machine}.

Lemma kernel_alloc_page_eq vpn prot : kernel_alloc_page vpn prot ≡ₘ alloc_page region0_table vpn prot.
Proof. intros s. unfold alloc_page. simpl. by rewrite Z.sub_0_r. Qed.
Lemma kernel_dealloc_page_eq vpn : kernel_dealloc_page vpn ≡ₘ dealloc_page region0_table vpn.
Proof.
  unfold kernel_dealloc_page, dealloc_page. simpl. rewrite Z.sub_0_r.
  destruct (Z.leb_spec REGION0_VPNS vpn), (Z.ltb_spec vpn REGION0_VPNS), (Z.ltb_spec vpn 0), (Z.leb_spec 0 vpn);
    simpl; try lia; try done.
  intros s. cbv [mbind M_bind mret M_ret gets lift_opt get_table put_table region0_table pt_get pt_put modify emit].
  destruct (zget (m_region0_pt s) vpn) as [e|]; [|done]. destruct (negb (pte_valid e)); [done|].
  destruct (destroy_pte (m_region0_pt s) vpn) as [r|]; [|done]. destruct (zoom _ _) as [[[] s']|]; done.
Qed.
Lemma kernel_unmap_no_free_eq vpn : kernel_unmap_no_free vpn ≡ₘ unmap_no_free region0_table vpn.
Proof. intros s. unfold unmap_no_free. simpl. by rewrite Z.sub_0_r. Qed.
Lemma kernel_undo_allocation_eq first last :
  kernel_undo_allocation first last ≡ₘ undo_allocation region0_table first last.
Proof. unfold kernel_undo_allocation. by setoid_rewrite kernel_dealloc_page_eq. Qed.
Lemma kernel_alloc_or_undo_eq first last prot :
  (failed ← for_range_ret first last (fun vpn =>
     ok ← kernel_alloc_page vpn prot;
     if negb ok then kernel_undo_allocation first vpn;; mret (Some tt) else mret None);
   mret (match failed with Some _ => false | None => true end)) ≡ₘ
  alloc_or_undo region0_table first last prot.
Proof.
  unfold alloc_or_undo. apply bind_proper; [done|]. apply for_range_ret_proper; [done..|]. intros vpn.
  apply bind_proper; [|apply kernel_alloc_page_eq]. intros [|]; simpl; [done|]. by rewrite kernel_undo_allocation_eq.
Qed.
End region0.

(** The state [s] with other contents of the parts these functions write. *)
Definition kst (s : mstate) (t : list pte) (f : frames_t) (e : list hw_event) (brk : Z)
    (pm : Z -> Z -> Z) (st : store) : mstate :=
  {| m_store := st; m_frames := f; m_vm_enabled := m_vm_enabled s; m_region0_pt := t;
     m_current_brk_page := brk; m_mem_ctx := m_mem_ctx s; m_pmem := pm; m_events := e |}.
Lemma kst_same s :
  s = kst s (m_region0_pt s) (m_frames s) (m_events s) (m_current_brk_page s) (m_pmem s) (m_store s).
Proof. by destruct s. Qed.

Section specs.
Context `{MachineOk}.
Notation ok := (table_ok (T := region0_table)).

Lemma stack_page_spec : vpn_of KERNEL_STACK_BASE = K_STACK_BASE_VPN.
Proof.
  destruct kstack_pages as (b & n & _ & _ & Eb & _). pose proof pagesize_pos.
  unfold K_STACK_BASE_VPN. by rewrite vpn_of_div, Eb, shift_page, Z.div_mul by lia.
Qed.

(** What setting the break to [heap_page] does when the hardware translates. *)
Lemma SetKernelBrk_ok s t f e brk pm st addr :
  let heap_page := up_vpn_of addr in
  m_vm_enabled s = true -> ok f t -> 0 <= orig_kernel_brk_page -> 0 <= brk <= REGION0_VPNS ->
  (forall vpn, brk <= vpn < heap_page -> vpn < K_STACK_BASE_VPN -> maps t vpn = None) ->
  wp (SetKernelBrk addr) (fun r s' => exists t' f' e',
    ok f' t' /\ NUM_FRAMES f' = NUM_FRAMES f /\
    if decide (orig_kernel_brk_page <= heap_page < K_STACK_BASE_VPN - 2 /\
        heap_page - brk <= Z.of_nat (size (free_set f))) then
      r = 0 /\ s' = kst s t' f' e' heap_page pm st /\
      if decide (brk < heap_page) then
        allocated (T := region0_table) f t brk heap_page (Z.lor PROT_READ PROT_WRITE) f' t'
      else (forall j, maps t' j = if decide (heap_page <= j < brk) then None else maps t j) /\
        free_set f' = free_set f ∪ frames_of t heap_page brk
    else r = ERROR /\ s' = kst s t' f' e' brk pm st /\ same_maps t t' /\ free_set f' = free_set f)
    (kst s t f e brk pm st).
Proof.
  intros heap_page Hvm Hok Horig Hbrk Hnone. unfold SetKernelBrk. fold heap_page.
  rewrite stack_page_spec. destruct kstack_vpns_spec as (Hks & Hkl & _).
  destruct ((heap_page <? orig_kernel_brk_page) || (K_STACK_BASE_VPN - 2 <=? heap_page)) eqn:E.
  { wp_step. exists t, f, e. split; [done|]. split; [done|].
    destruct (decide _) as [[? ?]|]; [|done].
    apply orb_true_iff in E as [E|E]; simp_bool; lia. }
  simp_bool. wp_step. wp_step. change (m_vm_enabled (kst s t f e brk pm st)) with (m_vm_enabled s).
  rewrite Hvm. simpl. wp_step. wp_step. simpl. wp_step.
  change (kst s t f e brk pm st) with (paged region0_table t f e (kst s t f e brk pm st)).
  destruct (Z.ltb_spec brk heap_page) as [Hlt|Hge].
  - rewrite kernel_alloc_or_undo_eq. eapply wp_mono.
    { eapply (alloc_or_undo_ok (T := region0_table)); [reflexivity|done|simpl; lia|simpl; lia|].
      simpl. intros j Hj. apply Hnone; lia. }
    simpl. rewrite !Z.sub_0_r. intros r ? (t' & f' & e' & -> & Er & Hres). destruct r; simpl.
    + symmetry in Er. apply bool_decide_eq_true in Er. wp_steps. exists t', f', e'.
      split; [apply Hres|]. split; [apply Hres|]. rewrite decide_True by lia.
      split; [done|]. split; [done|]. by rewrite decide_True by lia.
    + symmetry in Er. apply bool_decide_eq_false in Er. wp_steps. exists t', f', e'.
      destruct Hres as (? & ? & ? & ?). split; [done|]. split; [done|]. rewrite decide_False by lia.
      done.
  - wp_step. rewrite kernel_undo_allocation_eq. eapply wp_mono.
    { eapply (undo_allocation_ok (T := region0_table)); [reflexivity|done|simpl; lia|simpl; lia]. }
    simpl. rewrite !Z.sub_0_r. intros [] ? (t' & f' & e' & -> & Hok' & Hn' & Hm' & Hf').
    wp_steps. simpl. wp_steps. exists t', f', e'. split; [done|]. split; [done|].
    rewrite decide_True by lia. split; [done|]. split; [done|]. rewrite decide_False by lia. done.
Qed.

(** ** Copying the kernel stack *)
Context (s : mstate) (n : addr) (bn : pcb).

(** The pages above the break hold the contents of the first [i] pages of the
    stack. *)
Record stack_copied (i : Z) (t1 : list pte) (brk : Z) (F : gset Z) (pm0 pm : Z -> Z -> Z) : Prop := {
  sc_in : forall j p q ps qs, 0 <= j < i -> maps t1 (brk + j) = Some (p, q) ->
    maps t1 (K_STACK_BASE_VPN + j) = Some (ps, qs) -> pm p = pm0 ps;
  sc_mem : forall p, p ∉ F -> pm p = pm0 p
}.

Lemma copy_stack_ok f t1 e brk cur F pm0 st :
  ok f t1 ->
  (forall j, 0 <= j < K_STACK_VPNS -> exists p,
     maps t1 (brk + j) = Some (p, Z.lor PROT_READ PROT_WRITE) /\ p ∈ F) ->
  (forall j, 0 <= j < K_STACK_VPNS -> exists ps qs,
     maps t1 (K_STACK_BASE_VPN + j) = Some (ps, qs) /\ Z.land qs PROT_READ <> 0 /\ ps ∉ F) ->
  wp (for_range 0 (Z.shiftr KERNEL_STACK_MAXSIZE PAGESHIFT) (fun i =>
        copy_page region0_table (brk + i) (K_STACK_BASE_VPN + i)))
    (fun _ s' => exists pm, s' = kst s t1 f e cur pm st /\
       stack_copied K_STACK_VPNS t1 brk F pm0 pm) (kst s t1 f e cur pm0 st).
Proof.
  intros Hok Hdst Hsrc. destruct prot_rw as [_ Hw].
  assert (Z.shiftr KERNEL_STACK_MAXSIZE PAGESHIFT = K_STACK_VPNS) as ->.
  { destruct kstack_pages as (b & k & _ & _ & Eb & Ek). pose proof kstack_limit_spec as El.
    unfold K_STACK_VPNS, K_STACK_LIMIT_VPN, K_STACK_BASE_VPN.
    rewrite El, Eb, Ek, <- Z.mul_add_distr_r, !shift_page. lia. }
  destruct kstack_vpns_spec as (_ & _ & Hk).
  apply (wp_for_range _ _ _ (fun i s' => exists pm, s' = kst s t1 f e cur pm st /\
    stack_copied i t1 brk F pm0 pm)).
  - exists pm0. split; [done|]. split; [intros; lia|done].
  - intros i ? Hi (pm & -> & [Hin Hmem]).
    destruct (Hdst i Hi) as (p & Hp & HpF), (Hsrc i Hi) as (ps & qs & Hps & Hqs & HpsF).
    change (kst s t1 f e cur pm st) with (paged region0_table t1 f e (kst s t1 f e cur pm st)).
    eapply (copy_page_ok (T := region0_table)); [reflexivity|rewrite Z.sub_0_r; exact Hps|done|
      rewrite Z.sub_0_r; exact Hp|done|].
    eexists. split; [reflexivity|]. simpl. split.
    + intros j p' q' ps' qs' Hj Hp' Hps'. destruct (decide (j = i)) as [->|].
      * rewrite decide_True by congruence. rewrite Hmem by done. congruence.
      * rewrite decide_False; [eapply Hin; [|done..]; lia|]. intros ->.
        pose proof (to_inj _ _ Hok _ _ _ _ _ Hp Hp'). lia.
    + intros x Hx. rewrite decide_False by (intros ->; done). by apply Hmem.
  - rewrite Z.max_r by lia. done.
Qed.

(** Moving the pages above the break to the table of the new stack. *)
Lemma move_stack_ok f t1 e brk cur pm st ks :
  zlen t1 = REGION0_VPNS -> 0 <= brk -> brk + K_STACK_VPNS <= REGION0_VPNS ->
  zlen ks = K_STACK_VPNS ->
  (forall j, 0 <= j < K_STACK_VPNS -> exists p,
     maps t1 (brk + j) = Some (p, Z.lor PROT_READ PROT_WRITE)) ->
  st_pcbs st !! n = Some (set_p_ks_pt (Some ks) bn) ->
  wp (for_range brk (brk + K_STACK_VPNS) (fun vpn =>
      pfn ← kernel_unmap_no_free vpn;
      let shift := vpn - brk in
      b ← zoom (load n);
      ks_pt ← lift_opt (ks ← p_ks_pt b;
        create_pte ks shift pfn (Z.lor PROT_READ PROT_WRITE));
      zoom (update n (set_p_ks_pt (Some ks_pt)))))
    (fun _ s' => exists t2 e2 ks2,
      s' = kst s t2 f e2 cur pm (set_pcbs (<[n := set_p_ks_pt (Some ks2) bn]> (st_pcbs st)) st) /\
      zlen t2 = zlen t1 /\ zlen ks2 = K_STACK_VPNS /\
      (forall j, maps t2 j = if decide (brk <= j < brk + K_STACK_VPNS) then None else maps t1 j) /\
      forall j, 0 <= j < K_STACK_VPNS -> maps ks2 j = maps t1 (brk + j))
    (kst s t1 f e cur pm st).
Proof.
  intros Hl1 Hbrk Hbk Hks Hmaps Hn. destruct kstack_vpns_spec as (_ & _ & Hk).
  apply (wp_for_range _ _ _ (fun vpn s' => exists t2 e2 ks2,
      s' = kst s t2 f e2 cur pm (set_pcbs (<[n := set_p_ks_pt (Some ks2) bn]> (st_pcbs st)) st) /\
      zlen t2 = zlen t1 /\ zlen ks2 = K_STACK_VPNS /\
      (forall j, maps t2 j = if decide (brk <= j < vpn) then None else maps t1 j) /\
      forall j, 0 <= j < vpn - brk -> maps ks2 j = maps t1 (brk + j))).
  - exists t1, e, ks. rewrite insert_id by done. split; [by destruct st|]. split; [done|].
    split; [done|]. split; [|intros; lia]. intros j. by rewrite decide_False by lia.
  - intros vpn ? Hv (t2 & e2 & ks2 & -> & Hl2 & Hlk & Hm2 & Hmk).
    set (st2 := set_pcbs _ st). destruct (Hmaps (vpn - brk)) as [p Hp]; [lia|].
    replace (brk + (vpn - brk)) with vpn in Hp by lia.
    change (kst s t2 f e2 cur pm st2) with (paged region0_table t2 f e2 (kst s t2 f e2 cur pm st2)).
    wp_step. eapply wp_mono.
    { rewrite kernel_unmap_no_free_eq. eapply (unmap_no_free_ok (T := region0_table)); [reflexivity|simpl; lia|simpl; lia|].
      rewrite Z.sub_0_r, Hm2, decide_False by lia. exact Hp. }
    intros ? ? (-> & t3 & e3 & -> & Hl3 & Hm3). simpl in Hm3. wp_step. wp_step. wp_step. simpl.
    eapply wp_load; [simpl; apply lookup_insert_eq|].
    destruct (create_pte_maps ks2 (vpn - brk) p (Z.lor PROT_READ PROT_WRITE)) as (ks3 & Hc & Hlk3 & Hmk3);
      [lia|].
    wp_step. eapply wp_lift_opt; [simpl; exact Hc|]. wp_step. simpl.
    eapply wp_update; [simpl; apply lookup_insert_eq|]. exists t3, e3, ks3. simpl.
    rewrite insert_insert_eq. split; [done|]. split; [congruence|]. split; [congruence|]. split.
    + intros j. rewrite Hm3, Hm2, Z.sub_0_r. repeat case_decide; try done; lia.
    + intros j Hj. rewrite Hmk3. case_decide as E.
      * subst j. replace (brk + (vpn - brk)) with vpn by lia. by rewrite Hp.
      * apply Hmk. lia.
  - intros ? (t2 & e2 & ks2 & -> & Hl2 & Hlk & Hm2 & Hmk). rewrite Z.max_r in Hm2, Hmk by lia.
    exists t2, e2, ks2. do 4 (split; [done|]). intros j Hj. apply Hmk. lia.
Qed.
End specs.

(** ** Region 0 once the hardware translates *)
Section kernel.
Context `{MachineOk}.
Notation ok := (table_ok (T := region0_table)).

(** The kernel's heap is mapped up to the break, nothing between the break and
    the stack, and the stack is. *)
Record kernel_ok (s : mstate) : Prop := {
  ko_vm : m_vm_enabled s = true;
  ko_table : ok (m_frames s) (m_region0_pt s);
  ko_orig : 0 <= orig_kernel_brk_page <= m_current_brk_page s;
  ko_brk : m_current_brk_page s <= K_STACK_BASE_VPN;
  ko_gap : forall vpn, m_current_brk_page s <= vpn < K_STACK_BASE_VPN -> maps (m_region0_pt s) vpn = None;
  ko_stack : forall vpn, K_STACK_BASE_VPN <= vpn < K_STACK_LIMIT_VPN ->
    exists p q, maps (m_region0_pt s) vpn = Some (p, q) /\ Z.land q PROT_READ <> 0
}.

Lemma kernel_ok_same s t f e brk pm st :
  kernel_ok s -> same_maps (m_region0_pt s) t -> ok f t -> brk = m_current_brk_page s ->
  kernel_ok (kst s t f e brk pm st).
Proof.
  intros [] Hm Hok ->. split; try done; simpl.
  - intros vpn Hv. rewrite Hm. by apply ko_gap0.
  - intros vpn Hv. rewrite Hm. by apply ko_stack0.
Qed.

(** The break [KCCopy] asks for. *)
Lemma kccopy_break brk :
  0 <= brk <= K_STACK_BASE_VPN ->
  up_vpn_of (Z.shiftl (brk + K_STACK_VPNS) PAGESHIFT) = brk + K_STACK_VPNS.
Proof.
  intros Hbrk. pose proof pagesize_pos. destruct kstack_vpns_spec as (? & Hl & ?).
  destruct region0_vpns_spec as [_ E0]. destruct region1_vpns_spec as [? E1].
  pose proof vmem_1_limit_int. pose proof vmem_1_limit_spec. pose proof vmem_1_base_spec.
  assert (brk + K_STACK_VPNS <= REGION0_VPNS) by (unfold K_STACK_VPNS; lia).
  rewrite shiftl_page, up_vpn_of_div by nia.
  rewrite <- Z.add_sub_assoc, Z.div_add_l, Z.div_small by lia. lia.
Qed.

(** The block [n] after its kernel stack was made. *)
Definition with_stack (kc : kcontext) (ks : list pte) (b : pcb) : pcb :=
  set_p_kc kc (set_p_ks_pt (Some ks) b).

Lemma KCCopy_ok s t f e brk pm st kc n bn ks :
  let free := free_set f in
  kernel_ok (kst s t f e brk pm st) -> st_pcbs st !! n = Some bn -> p_ks_pt bn = Some ks ->
  zlen ks = K_STACK_VPNS ->
  wp (KCCopy kc n) (fun r s' => exists t' f' e' pm',
    ok f' t' /\ NUM_FRAMES f' = NUM_FRAMES f /\ same_maps t t' /\
    (forall p, p ∉ free -> pm' p = pm p) /\
    if decide (brk + K_STACK_VPNS < K_STACK_BASE_VPN - 2 /\
        K_STACK_VPNS <= Z.of_nat (size free)) then
      r = true /\ exists ks',
        s' = kst s t' f' e' brk pm' (set_pcbs (<[n := with_stack kc ks' bn]> (st_pcbs st)) st) /\
        zlen ks' = K_STACK_VPNS /\
        (forall i, 0 <= i < K_STACK_VPNS -> exists p ps q,
           maps ks' i = Some (p, Z.lor PROT_READ PROT_WRITE) /\ p ∈ free /\
           maps t (K_STACK_BASE_VPN + i) = Some (ps, q) /\ pm' p = pm ps) /\
        (forall i j p q q', maps ks' i = Some (p, q) -> maps ks' j = Some (p, q') -> i = j) /\
        free_set f' = free ∖ frames_of ks' 0 K_STACK_VPNS
    else r = false /\ free_set f' = free /\ pm' = pm /\ s' = kst s t' f' e' brk pm' st)
    (kst s t f e brk pm st).
Proof.
  intros free Hko Hn Hksn Hlk. destruct Hko as [Hvm Hok [Ho Hbo] Hbrk Hgap Hstack]. simpl in *.
  destruct kstack_vpns_spec as (Hb0 & Hl0 & Hk).
  assert (K_STACK_LIMIT_VPN = K_STACK_BASE_VPN + K_STACK_VPNS) as HL by (unfold K_STACK_VPNS; lia).
  unfold KCCopy. wp_step. wp_step. change (m_current_brk_page (kst s t f e brk pm st)) with brk.
  pose proof (SetKernelBrk_ok s t f e brk pm st (Z.shiftl (brk + K_STACK_VPNS) PAGESHIFT) Hvm Hok Ho
    ltac:(lia)) as Hset.
  rewrite kccopy_break in Hset by lia. wp_step. eapply wp_mono.
  { apply Hset. intros vpn Hv Hlt. apply Hgap. lia. }
  clear Hset. cbv beta. intros r ? (t1 & f1 & e1 & Hok1 & Hn1 & Hres). fold free in Hres.
  destruct (decide (orig_kernel_brk_page <= brk + K_STACK_VPNS < K_STACK_BASE_VPN - 2 /\
    brk + K_STACK_VPNS - brk <= Z.of_nat (size free))) as [Hyes|Hno].
  2: { destruct Hres as (-> & -> & Hsame & Hfree). simpl. wp_step.
       exists t1, f1, e1, pm. split; [done|]. split; [done|]. split; [done|]. split; [done|].
       rewrite decide_False by lia. done. }
  destruct Hres as (-> & -> & Hal). rewrite decide_True in Hal by lia. simpl.
  destruct Hal as [_ _ Hin Hout Hfree _].
  assert (forall j, 0 <= j < K_STACK_VPNS -> exists ps qs,
    maps t1 (K_STACK_BASE_VPN + j) = Some (ps, qs) /\ Z.land qs PROT_READ <> 0 /\ ps ∉ free) as Hsrc.
  { intros j Hj. destruct (Hstack (K_STACK_BASE_VPN + j)) as (ps & qs & Hps & Hqs); [lia|].
    exists ps, qs. rewrite Hout by lia. split; [done|]. split; [done|]. by eapply (to_used _ _ Hok). }
  wp_step. eapply wp_mono.
  { apply (copy_stack_ok s f1 t1 e1 brk (brk + K_STACK_VPNS) free); [done| |done].
    intros j Hj. apply Hin. lia. }
  intros [] ? (pm1 & -> & [Hcp Hmem]). wp_step.
  eapply wp_mono.
  { apply (move_stack_ok s n bn f1 t1 e1 brk (brk + K_STACK_VPNS) pm1 st ks).
    - apply (to_len _ _ Hok1).
    - lia.
    - lia.
    - done.
    - intros j Hj. destruct (Hin (brk + j)) as (p & Hp & _); [lia|]. by exists p.
    - rewrite Hn. f_equal. destruct bn. simpl in *. by subst. }
  intros [] ? (t2 & e2 & ks2 & -> & Hl2 & Hlk2 & Hm2 & Hmk2).
  wp_steps. simpl. eapply wp_update; [simpl; apply lookup_insert_eq|]. wp_step.
  assert (same_maps t t2) as Hsame.
  { intros j. rewrite Hm2. case_decide as E; [|by apply Hout]. symmetry. apply Hgap. lia. }
  assert (forall i, 0 <= i < K_STACK_VPNS -> exists p,
    maps ks2 i = Some (p, Z.lor PROT_READ PROT_WRITE) /\ maps t1 (brk + i) = maps ks2 i /\ p ∈ free)
    as Hks2.
  { intros i Hi. destruct (Hin (brk + i)) as (p & Hp & Hpf); [lia|]. exists p.
    rewrite Hmk2 by done. done. }
  exists t2, f1, e2, pm1. split.
  { apply (table_ok_maps f1 t).
    - apply (table_ok_shrink f); [done|apply Hok1|done|]. rewrite Hfree. fold free. set_solver.
    - rewrite Hl2, (to_len _ _ Hok1), (to_len _ _ Hok). done.
    - done. }
  do 3 (split; [done|]). rewrite decide_True by lia. split; [done|]. exists ks2. split.
  { unfold kst, set_pcbs. simpl. by rewrite insert_insert_eq. }
  split; [done|]. split; [|split].
  - intros i Hi. destruct (Hks2 i Hi) as (p & Hp & Ep & Hpf).
    destruct (Hsrc i Hi) as (ps & qs & Hps & _ & _). exists p, ps, qs. split; [done|]. split; [done|].
    rewrite <- Hout by lia. split; [done|]. eapply Hcp; [done| |done]. rewrite Ep. exact Hp.
  - intros i j p q q' Hi Hj.
    pose proof (maps_range _ _ _ Hi). pose proof (maps_range _ _ _ Hj). rewrite Hlk2 in *.
    rewrite Hmk2 in Hi, Hj by lia. pose proof (to_inj _ _ Hok1 _ _ _ _ _ Hi Hj). lia.
  - rewrite Hfree. fold free. f_equal. apply set_eq. intros p. rewrite !elem_of_frames_of. split.
    + intros (i & q & Hi & Hp). exists (i - brk), q. split; [lia|]. rewrite Hmk2 by lia.
      by replace (brk + (i - brk)) with i by lia.
    + intros (i & q & Hi & Hp). exists (brk + i), q. split; [lia|]. by rewrite <- Hmk2 by lia.
Qed.

(** ** Switching stacks *)
Lemma KCSwitch_ok s kc a b ba bb ks t' :
  a <> b -> st_pcbs (m_store s) !! a = Some ba -> st_pcbs (m_store s) !! b = Some bb ->
  p_ks_pt bb = Some ks -> zlen ks = K_STACK_VPNS ->
  zblit (m_region0_pt s) K_STACK_BASE_VPN ks = Some t' ->
  wp (KCSwitch kc (Some a) b) (fun r s' => r = p_kc bb /\
    s' = kst s t' (m_frames s) (TLBFlushKStack :: m_events s) (m_current_brk_page s) (m_pmem s)
      (set_pcbs (<[a := set_p_kc kc ba]> (st_pcbs (m_store s))) (m_store s))) s.
Proof.
  intros Hab Ha Hb Hks Hl Ht. unfold KCSwitch. wp_step. wp_step. eapply wp_update; [done|].
  wp_step. wp_step. simpl. eapply wp_load; [simpl; by rewrite lookup_insert_ne|].
  wp_step. wp_step. wp_step. eapply wp_lift_opt.
  { rewrite Hks. simpl. rewrite zslice_all by done. simpl. exact Ht. }
  unfold emit. by wp_steps.
Qed.
End kernel.

(** ** A concrete kernel: four pages of text and data, a stack of two pages in
    the frames 5 and 6; process 1 runs on it, process 2 has none yet *)
Definition demo_region0 : list pte :=
  [mapped_pte 0 5; mapped_pte 1 5; mapped_pte 2 3; mapped_pte 3 3] ++ replicate 10 pte_zero ++
  [mapped_pte 5 3; mapped_pte 6 3].
Definition demo_stack_pcb (ks : list pte) : pcb := set_p_ks_pt (Some ks) pcb_zero.
Definition demo_kernel : mstate := {|
  m_store := {| st_pcbs := {[ 1%positive := demo_stack_pcb [mapped_pte 5 3; mapped_pte 6 3];
                              2%positive := demo_stack_pcb (replicate 2 pte_zero) ]};
                st_next := 3; st_malloc := []; st_pid_calls := [] |};
  m_frames := demo_user_frames; m_vm_enabled := true; m_region0_pt := demo_region0;
  m_current_brk_page := 4; m_mem_ctx := None; m_pmem := fun f o => f * 100 + o; m_events := [] |}.

Lemma demo_kernel_ok : @kernel_ok demo_machine demo_kernel.
Proof.
  split; [done| |by vm_compute|by vm_compute| |].
  - apply (table_check_ok (T := @region0_table demo_machine));
      [exact demo_user_frames_wf|done|]. by vm_compute.
  - intros vpn Hv. change (4 <= vpn < 14) in Hv.
    assert (In vpn [4; 5; 6; 7; 8; 9; 10; 11; 12; 13]) as Hin by (simpl; lia).
    simpl in Hin. repeat destruct Hin as [<-|Hin]; done.
  - intros vpn Hv. change (14 <= vpn < 16) in Hv. assert (vpn = 14 \/ vpn = 15) as [-> | ->] by lia;
      do 2 eexists; (split; [reflexivity|]); by vm_compute.
Defined.

(** ** Properties *)

(** Once the hardware translates, [SetKernelBrk] succeeds exactly when the
    page of the address lies between the kernel's first break and two pages
    below the stack and there are enough free frames; it then maps exactly the
    pages up to the new break to frames that were free, or unmaps exactly those
    above it and frees their frames.  Otherwise it answers [ERROR], and the
    mappings, the break and the free frames are as before. *)
Theorem kernel_brk_all_or_nothing `{MachineOk} (s : mstate) (addr : Z) :
  let t := m_region0_pt s in
  let brk := m_current_brk_page s in
  let free := free_set (m_frames s) in
  let heap_page := up_vpn_of addr in
  kernel_ok s ->
  exists r s', SetKernelBrk addr s = Some (r, s') /\
    table_ok (T := region0_table) (m_frames s') (m_region0_pt s') /\
    if decide (orig_kernel_brk_page <= heap_page < K_STACK_BASE_VPN - 2 /\
        heap_page - brk <= Z.of_nat (size free)) then
      r = 0 /\ m_current_brk_page s' = heap_page /\
      (forall vpn, match decide (brk <= vpn < heap_page), decide (heap_page <= vpn < brk) with
         | left _, _ => exists p, maps (m_region0_pt s') vpn = Some (p, Z.lor PROT_READ PROT_WRITE) /\
             p ∈ free
         | _, left _ => maps (m_region0_pt s') vpn = None
         | _, _ => maps (m_region0_pt s') vpn = maps t vpn
         end) /\
      free_set (m_frames s') =
        (free ∪ frames_of t heap_page brk) ∖ frames_of (m_region0_pt s') brk heap_page
    else r = ERROR /\ m_current_brk_page s' = brk /\ same_maps t (m_region0_pt s') /\
      free_set (m_frames s') = free.
Proof.
  intros t brk free heap_page [Hvm Hok [Ho Hbo] Hbrk Hgap _].
  destruct kstack_vpns_spec as (Hb0 & Hl0 & Hk).
  pose proof (SetKernelBrk_ok s (m_region0_pt s) (m_frames s) (m_events s) (m_current_brk_page s)
    (m_pmem s) (m_store s) addr Hvm Hok Ho) as Hset.
  cbv zeta in Hset. rewrite <- kst_same in Hset. fold t brk free heap_page in Hset. fold t brk in Hgap.
  assert (0 <= brk <= REGION0_VPNS) as Hb by (fold brk in Hbo, Hbrk; clearbody brk; lia).
  specialize (Hset Hb (fun vpn Hv Hlt => Hgap vpn (conj (proj1 Hv) Hlt))).
  apply wp_run in Hset as (r & s' & Hrun & t' & f' & e' & Hok' & Hn' & Hres).
  exists r, s'. split; [done|]. clearbody brk t heap_page.
  destruct (decide _) as [Hyes|Hno].
  2: { destruct Hres as (-> & -> & ? & ?). done. }
  destruct Hres as (-> & -> & Hres). split; [done|]. simpl. do 2 (split; [done|]).
  destruct (decide (brk < heap_page)) as [Hlt|Hge].
  - destruct Hres as [_ _ Hin Hout Hfree _]. split.
    + intros vpn. destruct (decide (brk <= vpn < heap_page)); [by apply Hin|].
      rewrite Hout by done. destruct (decide _); [lia|done].
    + assert (frames_of t heap_page brk = ∅) as ->.
      { apply set_eq. intros p. rewrite elem_of_frames_of. split; [|set_solver].
        intros (i & q & Hi & _). lia. }
      rewrite Hfree. by rewrite (right_id_L ∅ (∪)).
  - destruct Hres as [Hm Hfree]. split.
    + intros vpn. rewrite Hm. destruct (decide (brk <= vpn < heap_page)); [lia|].
      by destruct (decide (heap_page <= vpn < brk)).
    + assert (frames_of t' brk heap_page = ∅) as ->.
      { apply set_eq. intros p. rewrite elem_of_frames_of. split; [|set_solver].
        intros (i & q & Hi & _). lia. }
      rewrite Hfree. by rewrite difference_empty_L.
Qed.

(** Growing the kernel's heap by two pages. *)
Lemma kernel_brk_all_or_nothing_witness :
  exists r s', @SetKernelBrk demo_machine 90 demo_kernel = Some (r, s') /\ r = 0 /\
    m_current_brk_page s' = 6 /\
    exists p, maps (m_region0_pt s') 5 = Some (p, 3) /\ p ∈ @free_set demo_machine demo_user_frames.
Proof.
  destruct (@kernel_brk_all_or_nothing demo_machine demo_machine_ok demo_kernel 90 demo_kernel_ok)
    as (r & s' & Hrun & _ & Hres).
  exists r, s'. split; [exact Hrun|]. rewrite decide_True in Hres by (by vm_compute).
  destruct Hres as (Hr & Hbrk & Hpages & _). split; [exact Hr|]. split; [exact Hbrk|].
  exact (Hpages 5).
Defined.

(** [KCCopy] gives the new process a kernel stack of its own: each page in
    a frame that was free, with the contents of the page of the running stack,
    no two pages sharing a frame; and the saved context.  The kernel's mappings
    and its break are as before, although the pages were filled through
    addresses above the break.  It fails exactly when there is no room between
    break and stack or there are too few free frames, and then no frame is lost
    and no process control block changes. *)
Theorem kccopy_own_stack `{MachineOk} (s : mstate) (kc : kcontext) (n : addr) (bn : pcb) (ks : list pte) :
  let t := m_region0_pt s in
  let free := free_set (m_frames s) in
  let brk := m_current_brk_page s in
  kernel_ok s -> st_pcbs (m_store s) !! n = Some bn -> p_ks_pt bn = Some ks -> zlen ks = K_STACK_VPNS ->
  exists r s', KCCopy kc n s = Some (r, s') /\ kernel_ok s' /\
    m_current_brk_page s' = brk /\ same_maps t (m_region0_pt s') /\
    (forall p, p ∉ free -> m_pmem s' p = m_pmem s p) /\
    (r = true <-> brk + K_STACK_VPNS < K_STACK_BASE_VPN - 2 /\ K_STACK_VPNS <= Z.of_nat (size free)) /\
    (r = true -> exists ks',
      st_pcbs (m_store s') = <[n := with_stack kc ks' bn]> (st_pcbs (m_store s)) /\
      zlen ks' = K_STACK_VPNS /\
      (forall i, 0 <= i < K_STACK_VPNS -> exists p ps q,
         maps ks' i = Some (p, Z.lor PROT_READ PROT_WRITE) /\ p ∈ free /\
         maps t (K_STACK_BASE_VPN + i) = Some (ps, q) /\ m_pmem s' p = m_pmem s ps) /\
      (forall i j p q q', maps ks' i = Some (p, q) -> maps ks' j = Some (p, q') -> i = j) /\
      free_set (m_frames s') = free ∖ frames_of ks' 0 K_STACK_VPNS) /\
    (r = false -> free_set (m_frames s') = free /\ m_store s' = m_store s).
Proof.
  intros t free brk Hko Hn Hks Hl.
  pose proof (KCCopy_ok s t (m_frames s) (m_events s) brk (m_pmem s) (m_store s) kc n bn ks) as Hcopy.
  cbv zeta in Hcopy. unfold t, brk in Hcopy. rewrite <- kst_same in Hcopy.
  destruct (proj1 (wp_run _ _ _) (Hcopy Hko Hn Hks Hl))
    as (r & s' & Hrun & t' & f' & e' & pm' & Hok' & Hn' & Hsame & Hmem & Hres).
  exists r, s'. split; [done|]. fold t brk free in Hres |- *.
  destruct (decide _) as [Hyes|Hno].
  - destruct Hres as (-> & ks' & -> & Hks'). split; [by apply kernel_ok_same|].
    do 3 (split; [done|]). split; [done|]. split; [|done]. intros _. by exists ks'.
  - destruct Hres as (-> & Hfree & -> & ->). split; [by apply kernel_ok_same|].
    do 3 (split; [done|]). split; [|done]. split; [done|]. intros ?. by destruct Hno.
Qed.

(** Process 2 gets a kernel stack. *)
Lemma kccopy_own_stack_witness :
  exists r s', @KCCopy demo_machine KC_return 2 demo_kernel = Some (r, s') /\ r = true /\
    exists ks' p, st_pcbs (m_store s') !! 2%positive =
        Some (with_stack KC_return ks' (demo_stack_pcb (replicate 2 pte_zero))) /\
      maps ks' 1 = Some (p, 3) /\ m_pmem s' p = m_pmem demo_kernel 6.
Proof.
  destruct (@kccopy_own_stack demo_machine demo_machine_ok demo_kernel KC_return 2
    (demo_stack_pcb (replicate 2 pte_zero)) (replicate 2 pte_zero) demo_kernel_ok eq_refl eq_refl eq_refl)
    as (r & s' & Hrun & _ & _ & _ & _ & Hiff & Htrue & _).
  exists r, s'. split; [exact Hrun|].
  assert (r = true) as Er by (apply Hiff; by vm_compute). split; [exact Er|].
  destruct (Htrue Er) as (ks' & Hst & _ & Hpages & _). exists ks'.
  destruct (Hpages 1) as (p & ps & q & Hp & _ & Hps & Hpm); [by vm_compute|].
  exists p. rewrite Hst. split; [reflexivity|]. split; [exact Hp|].
  change (Some (6, 3) = Some (ps, q)) in Hps. injection Hps as <- <-. exact Hpm.
Defined.

(** C32: switching to the kernel stack of another process and back restores
    the kernel's page table and resumes in the context that was saved; each
    switch flushes the stack from the translation buffer. *)
Theorem kcswitch_round_trip `{MachineOk} (s : mstate) (kc kc' : kcontext) (a b : addr) (ba bb : pcb)
    (ksa ksb : list pte) :
  a <> b -> st_pcbs (m_store s) !! a = Some ba -> st_pcbs (m_store s) !! b = Some bb ->
  zlen (m_region0_pt s) = REGION0_VPNS ->
  p_ks_pt ba = Some ksa -> p_ks_pt bb = Some ksb -> zlen ksb = K_STACK_VPNS ->
  zslice (m_region0_pt s) K_STACK_BASE_VPN K_STACK_VPNS = Some ksa ->
  exists s', (KCSwitch kc (Some a) b;; KCSwitch kc' (Some b) a) s = Some (kc, s') /\
    m_region0_pt s' = m_region0_pt s /\
    m_events s' = TLBFlushKStack :: TLBFlushKStack :: m_events s /\
    st_pcbs (m_store s') =
      <[b := set_p_kc kc' bb]> (<[a := set_p_kc kc ba]> (st_pcbs (m_store s))).
Proof.
  intros Hab Ha Hb Hl Hksa Hksb Hlb Hstack. pose proof (zslice_length _ _ _ _ Hstack) as Hla.
  destruct kstack_vpns_spec as (Hb0 & Hl0 & Hk).
  destruct (zblit (m_region0_pt s) K_STACK_BASE_VPN ksb) as [t1|] eqn:Ht1.
  2: { unfold zblit in Ht1. rewrite decide_True in Ht1; [done|]. unfold K_STACK_VPNS in Hlb. lia. }
  assert (wp (KCSwitch kc (Some a) b;; KCSwitch kc' (Some b) a) (fun r s' => r = kc /\
    m_region0_pt s' = m_region0_pt s /\
    m_events s' = TLBFlushKStack :: TLBFlushKStack :: m_events s /\
    st_pcbs (m_store s') =
      <[b := set_p_kc kc' bb]> (<[a := set_p_kc kc ba]> (st_pcbs (m_store s)))) s)
    as (r & s' & Hrun & -> & Hres)%wp_run; [|by exists s'].
  wp_step. eapply wp_mono; [by apply (KCSwitch_ok s kc a b ba bb ksb t1)|].
  intros ? s1 [-> ->].
  eapply wp_mono; [apply (KCSwitch_ok _ kc' b a bb (set_p_kc kc ba) ksa (m_region0_pt s))|].
  - congruence.
  - simpl. by rewrite lookup_insert_ne.
  - simpl. by rewrite lookup_insert_eq.
  - done.
  - done.
  - simpl. rewrite (zblit_zblit (m_region0_pt s) _ ksb) by (done || congruence).
    by eapply zblit_slice.
  - intros r s' [-> ->]. done.
Qed.

Lemma kcswitch_round_trip_witness :
  exists s', (@KCSwitch demo_machine KC_wait (Some 1%positive) 2;;
      @KCSwitch demo_machine KC_return (Some 2%positive) 1) demo_kernel = Some (KC_wait, s') /\
    m_region0_pt s' = demo_region0.
Proof.
  destruct (@kcswitch_round_trip demo_machine demo_machine_ok demo_kernel KC_wait KC_return 1 2
    (demo_stack_pcb [mapped_pte 5 3; mapped_pte 6 3]) (demo_stack_pcb (replicate 2 pte_zero))
    [mapped_pte 5 3; mapped_pte 6 3] (replicate 2 pte_zero) ltac:(done) eq_refl eq_refl eq_refl
    eq_refl eq_refl eq_refl eq_refl) as (s' & Hrun & Ht & _).
  by exists s'.
Defined.
