(* ===== verification/UserMemory.v ===== *)
(** * User memory ([user_memory.c])

    The region 1 page table of the current memory context: the user's break,
    stack growth, permission checks, copying an address space for [Fork] and
    switching to another one; and the accesses the kernel makes to user
    buffers, through that table. *)

From S2P Require Import Prelude Machine FrameTracking Pcb Paging.

(** ** Definitions *)
Section definitions.
Context `{Machine}.

(** [mem_ctx->region1_pt] *)
Definition current_ctx (s : mstate) : option mem_ctx_t :=
  a ← m_mem_ctx s; b ← st_pcbs (m_store s) !! a; Some (p_mem_ctx b).
Definition put_region1 (t : list pte) (s : mstate) : mstate :=
  match m_mem_ctx s with
  | Some a => set_m_store (set_pcbs (alter (fun b =>
      set_p_mem_ctx (set_region1_pt (Some t) (p_mem_ctx b)) b) a (st_pcbs (m_store s)))
      (m_store s)) s
  | None => s
  end.
Definition region1_table : page_table :=
  {| pt_get := fun s => c ← current_ctx s; region1_pt c; pt_put := put_region1;
     pt_base := REGION1_BASE_VPN; pt_vpns := REGION1_VPNS |}.

(** Reading and writing the fields of [*mem_ctx]. *)
Definition get_ctx : M mstate mem_ctx_t := c ← gets current_ctx; lift_opt c.
Definition update_ctx (f : mem_ctx_t -> mem_ctx_t) : M mstate unit :=
  a ← gets m_mem_ctx;
  a ← lift_opt a;
  zoom (update a (fun b => set_p_mem_ctx (f (p_mem_ctx b)) b)).

(** [mem_ctx = &(pcb->mem_ctx)] and the two table registers *)
Definition use_ctx (pcb : addr) : M mstate unit :=
  zoom (load pcb);;
  modify (set_m_mem_ctx (Some pcb));;
  emit (WritePTBR1 pcb);;
  emit (WritePTLR1 REGION1_VPNS).

Definition init_region1_pt (idle : addr) : M mstate bool :=
  use_ctx idle;;
  update_ctx (set_layout REGION1_BASE_VPN REGION1_BASE_VPN REGION1_BASE_VPN REGION1_BASE_VPN);;
  alloc_page region1_table (vpn_of (VMEM_1_LIMIT - 1)) (Z.lor PROT_READ PROT_WRITE).

Definition KernelBrk_Impl (addr sp : Z) : M mstate Z :=
  let heap_page := up_vpn_of addr in
  let stack_page := vpn_of sp in
  c ← get_ctx;
  let brk_page := curr_brk_page c in
  if (heap_page <? orig_brk_page c) || (stack_page - 1 <=? heap_page) then mret ERROR
  else
    ok ←
      (if brk_page <? heap_page then
         alloc_or_undo region1_table brk_page heap_page (Z.lor PROT_READ PROT_WRITE)
       else undo_allocation region1_table heap_page brk_page;; mret true);
    if negb ok then mret ERROR
    else
      update_ctx (set_curr_brk_page heap_page);;
      mret 0.

Definition has_perms (addr : Z) (needs_write : bool) : M mstate bool :=
  if (addr <? VMEM_1_BASE) || (VMEM_1_LIMIT <=? addr) then mret false
  else
    let addr_page := vpn_of addr in
    t ← get_table region1_table;
    e ← lift_opt (zget t (addr_page - REGION1_BASE_VPN));
    if negb (pte_valid e) then mret false
    else
      let prot := pte_prot e in
      mret (negb (Z.land prot PROT_READ =? 0) &&
            (negb needs_write || negb (Z.land prot PROT_WRITE =? 0))).

Definition expand_stack (sp : Z) : M mstate bool :=
  if (sp <? VMEM_1_BASE) || (VMEM_1_LIMIT <=? sp) then mret false
  else
    let stack_page := vpn_of sp in
    c ← get_ctx;
    if stack_page <? curr_brk_page c + 1 then mret false
    else
      for_range_ret stack_page REGION1_LIMIT_VPN (fun vpn =>
        t ← get_table region1_table;
        e ← lift_opt (zget t (vpn - REGION1_BASE_VPN));
        if pte_valid e then mret (Some tt)
        else
          alloc_page region1_table vpn (Z.lor PROT_READ PROT_WRITE);;
          mret None);;
      mret true.

Definition destroy_pt (pt : list pte) (first last : Z) : M mstate unit :=
  for_range first last (fun vpn =>
    e ← lift_opt (zget pt vpn);
    if pte_valid e then zoom (free_frame (pte_pfn e));; mret tt else mret tt).

(** [new_pcb->mem_ctx.region1_pt] *)
Definition table_of (pcb : addr) : M mstate (list pte) :=
  b ← zoom (load pcb);
  lift_opt (region1_pt (p_mem_ctx b)).
Definition set_table_of (pcb : addr) (t : list pte) : M mstate unit :=
  zoom (update pcb (fun b => set_p_mem_ctx (set_region1_pt (Some t) (p_mem_ctx b)) b)).

(** One of the three loops of [UCCopy]: the pages [first .. last - 1] are
    copied, through the page [brk_page], to frames of the new process. *)
Definition copy_pages (new_pcb : addr) (brk_page first last prot : Z) : M mstate bool :=
  failed ← for_range_ret first last (fun vpn =>
    ok ← alloc_page region1_table brk_page (Z.lor PROT_READ PROT_WRITE);
    if negb ok then
      pt ← table_of new_pcb;
      destroy_pt pt 0 (vpn - REGION1_BASE_VPN);;
      mret (Some tt)
    else
      copy_page region1_table brk_page vpn;;
      pfn ← unmap_no_free region1_table brk_page;
      pt ← table_of new_pcb;
      pt' ← lift_opt (create_pte pt (vpn - REGION1_BASE_VPN) pfn prot);
      set_table_of new_pcb pt';;
      mret None);
  mret (match failed with Some _ => false | None => true end).

Definition UCCopy (uc_in : UserContext) (new_pcb : addr) : M mstate bool :=
  c ← get_ctx;
  let txt_page := txt_start_page c in
  let data_page := data_start_page c in
  let brk_page := curr_brk_page c in
  let stack_page := vpn_of (uc_sp uc_in) in
  if stack_page <=? brk_page then mret false
  else
    ok ← copy_pages new_pcb brk_page txt_page data_page (Z.lor PROT_READ PROT_EXEC);
    if negb ok then mret false
    else
      ok ← copy_pages new_pcb brk_page data_page brk_page (Z.lor PROT_READ PROT_WRITE);
      if negb ok then mret false
      else
        ok ← copy_pages new_pcb brk_page stack_page REGION1_LIMIT_VPN (Z.lor PROT_READ PROT_WRITE);
        if negb ok then mret false
        else
          c ← get_ctx;
          zoom (update new_pcb (fun b =>
            set_p_mem_ctx (set_layout txt_page data_page (orig_brk_page c) brk_page (p_mem_ctx b)) b));;
          zoom (update new_pcb (set_p_uc uc_in));;
          mret true.

Definition alloc_region (start_vpn end_vpn prot : Z) : M mstate bool :=
  if (start_vpn <? REGION1_BASE_VPN) || (REGION1_BASE_VPN + REGION1_VPNS <? end_vpn)
  then mret false
  else alloc_or_undo region1_table start_vpn end_vpn prot.

Definition change_prot (vpn prot : Z) : M mstate unit :=
  let relative_vpn := vpn - REGION1_BASE_VPN in
  if (REGION1_VPNS <=? relative_vpn) || (relative_vpn <? 0) then mret tt
  else
    t ← get_table region1_table;
    e ← lift_opt (zget t relative_vpn);
    if negb (pte_valid e) then mret tt
    else
      t' ← lift_opt (zset t relative_vpn
        {| pte_valid := pte_valid e; pte_prot := prot; pte_pfn := pte_pfn e |});
      put_table region1_table t';;
      emit (TLBFlushPage (Z.shiftl vpn PAGESHIFT)).

Definition prot_region (start_vpn end_vpn prot : Z) : M mstate unit :=
  if (start_vpn <? REGION1_BASE_VPN) || (REGION1_LIMIT_VPN <? end_vpn) then mret tt
  else for_range start_vpn end_vpn (fun vpn => change_prot vpn prot).

Definition UCSwitch (next_pcb : addr) : M mstate unit :=
  use_ctx next_pcb;;
  emit TLBFlushRegion1.

Definition deallocate_region1 : M mstate unit :=
  undo_allocation region1_table REGION1_BASE_VPN REGION1_LIMIT_VPN.

(** ** The accesses of the kernel to user memory

    A user address is translated through the table of the current context; an
    address outside of region 1, a page that is not mapped or not with the
    protection is a memory trap in the kernel. *)
Definition user_read (addr : Z) : M mstate Z :=
  f ← translate region1_table (vpn_of addr) PROT_READ;
  gets (fun s => m_pmem s f (addr mod PAGESIZE)).
Definition user_write (addr v : Z) : M mstate unit :=
  f ← translate region1_table (vpn_of addr) PROT_WRITE;
  modify (fun s => set_m_pmem (fun f' o =>
    if decide (f' = f /\ o = addr mod PAGESIZE) then v else m_pmem s f' o) s).

(** [memcpy] from and to user memory. *)
Fixpoint copy_from_user (addr : Z) (n : nat) : M mstate (list Z) :=
  match n with
  | O => mret []
  | Datatypes.S n' =>
      b ← user_read addr;
      bs ← copy_from_user (addr + 1) n';
      mret (b :: bs)
  end.
Fixpoint copy_to_user (addr : Z) (bytes : list Z) : M mstate unit :=
  match bytes with
  | [] => mret tt
  | b :: bs => user_write addr b;; copy_to_user (addr + 1) bs
  end.

(** The four bytes of an [int] or a pointer, least significant first. *)
Definition le_bytes (v : Z) : list Z :=
  (fun k => Z.land (Z.shiftr (to_u32 v) k) 255) <$> [0; 8; 16; 24].
Definition of_le_bytes (bs : list Z) : Z :=
  foldr (fun b acc => Z.lor b (Z.shiftl acc 8)) 0 bs.
Definition user_write_int (addr v : Z) : M mstate unit := copy_to_user addr (le_bytes v).
Definition user_read_word (addr : Z) : M mstate Z :=
  bs ← copy_from_user addr 4; mret (of_le_bytes bs).
End definitions.

(** ** The region 1 table as a page table *)
Lemma put_region1_ctx t s : m_mem_ctx (put_region1 t s) = m_mem_ctx s.
Proof. unfold put_region1. by destruct (m_mem_ctx s) eqn:E. Qed.

#[export] Instance region1_table_ok `{MachineOk} : PageTableOk region1_table.
Proof.
  split; simpl.
  - intros s t t'. unfold current_ctx. rewrite put_region1_ctx. unfold put_region1.
    destruct (m_mem_ctx s) as [a|]; [|done]. simpl. rewrite lookup_alter_eq.
    by destruct (st_pcbs (m_store s) !! a).
  - intros s t. unfold current_ctx, put_region1. destruct (m_mem_ctx s) as [a|] eqn:Ea; [|done].
    simpl. destruct (st_pcbs (m_store s) !! a) as [b|] eqn:Eb; [|done]. simpl. intros Et.
    rewrite alter_id; [by destruct s as [[] ? ? ? ? ? ? ?]|].
    intros b' Hb'. assert (b' = b) as -> by congruence. destruct b as [? ? ? ? ? ? ? ? ? ? [] ? ? ? ? ? ? ?].
    simpl in *. by subst.
  - intros s t t'. unfold put_region1. destruct (m_mem_ctx s) as [a|] eqn:Ea; [|by rewrite Ea].
    simpl. rewrite Ea. unfold set_m_store, set_pcbs. simpl. by rewrite alter_alter_eq.
  - done.
  - done.
  - done.
  - intros t f s. unfold put_region1. by destruct (m_mem_ctx s) eqn:E; simpl; rewrite E.
  - intros t f s. unfold put_region1. by destruct (m_mem_ctx s) eqn:E; simpl; rewrite E.
  - intros t f s. unfold put_region1. by destruct (m_mem_ctx s) eqn:E; simpl; rewrite E.
  - pose proof region0_vpns_spec. unfold REGION1_BASE_VPN. lia.
Qed.

(** ** The state with another current context, allocator and event log *)
Definition in_ctx (c : mem_ctx_t) (f : frames_t) (e : list hw_event) (s : mstate) : mstate :=
  set_m_events e (set_m_frames f (match m_mem_ctx s with
    | Some a => set_m_store (set_pcbs (alter (set_p_mem_ctx c) a (st_pcbs (m_store s)))
                  (m_store s)) s
    | None => s
    end)).

Section specs.
Context `{MachineOk}.

Lemma current_ctx_Some s c :
  current_ctx s = Some c <->
  exists a b, m_mem_ctx s = Some a /\ st_pcbs (m_store s) !! a = Some b /\ p_mem_ctx b = c.
Proof.
  unfold current_ctx. split.
  - destruct (m_mem_ctx s) as [a|]; [|done]. simpl.
    destruct (st_pcbs (m_store s) !! a) as [b|] eqn:E; [|done]. intros [= <-]. by exists a, b.
  - intros (a & b & -> & Eb & <-). simpl. by rewrite Eb.
Qed.
Lemma in_ctx_current s c c' f e : current_ctx s = Some c -> current_ctx (in_ctx c' f e s) = Some c'.
Proof.
  intros (a & b & Ea & Eb & _)%current_ctx_Some. unfold in_ctx, current_ctx. rewrite Ea. simpl.
  rewrite Ea. simpl. by rewrite lookup_alter_eq, Eb.
Qed.
Lemma paged_in_ctx s c t f e :
  current_ctx s = Some c -> paged region1_table t f e s = in_ctx (set_region1_pt (Some t) c) f e s.
Proof.
  intros (a & b & Ea & Eb & <-)%current_ctx_Some. unfold paged, in_ctx. simpl. unfold put_region1.
  rewrite Ea. do 4 f_equal. apply alter_ext. intros x Ex.
  by assert (x = b) as -> by congruence.
Qed.
Lemma in_ctx_same s c : current_ctx s = Some c -> s = in_ctx c (m_frames s) (m_events s) s.
Proof.
  intros (a & b & Ea & Eb & <-)%current_ctx_Some. unfold in_ctx. rewrite Ea.
  rewrite alter_id; [by destruct s as [[] ? ? ? ? ? ? ?]|]. intros x Ex.
  assert (x = b) as -> by congruence. by destruct b.
Qed.
Lemma wp_get_current s c Q : current_ctx s = Some c -> Q c s -> wp get_ctx Q s.
Proof. intros Hc HQ. unfold get_ctx. wp_step. wp_step. by eapply wp_lift_opt. Qed.
Lemma wp_get_ctx s c c' f e Q :
  current_ctx s = Some c -> Q c' (in_ctx c' f e s) -> wp get_ctx Q (in_ctx c' f e s).
Proof.
  intros Hc HQ. unfold get_ctx. wp_step. wp_step.
  eapply wp_lift_opt; [by eapply in_ctx_current|done].
Qed.
Lemma wp_update_ctx s c c' g f e Q :
  current_ctx s = Some c -> Q tt (in_ctx (g c') f e s) -> wp (update_ctx g) Q (in_ctx c' f e s).
Proof.
  intros (a & b & Ea & Eb & _)%current_ctx_Some HQ. unfold update_ctx. wp_steps.
  eapply wp_lift_opt; [unfold in_ctx; simpl; rewrite Ea; simpl; done|]. wp_steps.
  unfold in_ctx in *. rewrite Ea in *. simpl. eapply wp_update.
  { simpl. by rewrite lookup_alter_eq, Eb. }
  simpl in *. unfold set_pcbs in *. simpl in *. revert HQ. 
  replace (alter (set_p_mem_ctx (g c')) a (st_pcbs (m_store s)))
    with (<[a := set_p_mem_ctx (g c') (set_p_mem_ctx c' b)]> (alter (set_p_mem_ctx c') a (st_pcbs (m_store s)))).
  { done. }
  apply map_eq. intros x. destruct (decide (a = x)) as [->|].
  - rewrite lookup_insert_eq, lookup_alter_eq, Eb. done.
  - by rewrite lookup_insert_ne, !lookup_alter_ne by done.
Qed.

(** The process that is current has the context [c], whose table is [t]; [t]
    maps frames in use, one page each. *)
Record user_ok (s : mstate) (c : mem_ctx_t) (t : list pte) : Prop := {
  uo_ctx : current_ctx s = Some c;
  uo_table : region1_pt c = Some t;
  uo_ok : table_ok (T := region1_table) (m_frames s) t
}.

Lemma user_ok_get s c t : user_ok s c t -> pt_get region1_table s = Some t.
Proof. intros [Hc Ht _]. simpl. by rewrite Hc. Qed.
Lemma user_ok_paged s c t :
  user_ok s c t -> s = paged region1_table t (m_frames s) (m_events s) s.
Proof. intros Hu. apply paged_same. by eapply user_ok_get. Qed.

Lemma KernelBrk_Impl_ok s c t addr sp :
  let brk := curr_brk_page c in
  let heap_page := up_vpn_of addr in
  user_ok s c t -> REGION1_BASE_VPN <= orig_brk_page c -> REGION1_BASE_VPN <= brk <= REGION1_LIMIT_VPN ->
  vpn_of sp <= REGION1_LIMIT_VPN ->
  (forall j, brk <= j < heap_page -> maps t (j - REGION1_BASE_VPN) = None) ->
  wp (KernelBrk_Impl addr sp) (fun r s' =>
    if decide (orig_brk_page c <= heap_page < vpn_of sp - 1) then
      exists t' f' e', table_ok (T := region1_table) f' t' /\ NUM_FRAMES f' = NUM_FRAMES (m_frames s) /\
      if decide (brk < heap_page /\ Z.of_nat (size (free_set (m_frames s))) < heap_page - brk) then
        r = ERROR /\ s' = in_ctx (set_region1_pt (Some t') c) f' e' s /\
        same_maps t t' /\ free_set f' = free_set (m_frames s)
      else r = 0 /\
        s' = in_ctx (set_curr_brk_page heap_page (set_region1_pt (Some t') c)) f' e' s /\
        if decide (brk < heap_page) then
          allocated (T := region1_table) (m_frames s) t (brk - REGION1_BASE_VPN)
            (heap_page - REGION1_BASE_VPN) (Z.lor PROT_READ PROT_WRITE) f' t'
        else
          (forall j, maps t' j = if decide (heap_page - REGION1_BASE_VPN <= j < brk - REGION1_BASE_VPN)
                                 then None else maps t j) /\
          free_set f' = free_set (m_frames s) ∪
            frames_of t (heap_page - REGION1_BASE_VPN) (brk - REGION1_BASE_VPN)
    else r = ERROR /\ s' = s) s.
Proof.
  intros brk heap_page Hu Horig Hbrk Hsp Hnone. pose proof Hu as [Hc Ht Hok].
  unfold KernelBrk_Impl. fold heap_page. unfold get_ctx. wp_step. wp_step. wp_step.
  eapply wp_lift_opt; [done|]. fold brk.
  destruct (decide (orig_brk_page c <= heap_page < vpn_of sp - 1)) as [Hin|Hout].
  2: { wp_if; [by wp_step|]. simp_bool. lia. }
  wp_if; [apply orb_true_iff in E as [E|E]; simp_bool; lia|]. clear E.
  wp_step. pose proof (user_ok_get _ _ _ Hu) as Hg. rewrite (user_ok_paged _ _ _ Hu) at 1.
  assert (REGION1_LIMIT_VPN = REGION1_BASE_VPN + REGION1_VPNS) as Hlim by done.
  destruct (Z.ltb_spec brk heap_page) as [Hlt|Hge].
  - eapply wp_mono; [eapply (alloc_or_undo_ok s t t); [done|done|simpl; lia|simpl; lia|]|].
    { simpl. intros j Hj. replace j with (j + REGION1_BASE_VPN - REGION1_BASE_VPN) by lia.
      apply Hnone. lia. }
    intros ok ? (t' & f' & e' & -> & Eok & Hres). erewrite paged_in_ctx by done.
    destruct ok; simpl.
    + symmetry in Eok. apply bool_decide_eq_true in Eok. wp_step. eapply wp_update_ctx; [done|]. wp_step.
      exists t', f', e'. split; [apply Hres|]. split; [apply Hres|].
      rewrite decide_False by lia. split; [done|]. split; [done|]. by rewrite decide_True by lia.
    + symmetry in Eok. apply bool_decide_eq_false in Eok. wp_step.
      destruct Hres as (? & ? & ? & ?). exists t', f', e'. do 2 (split; [done|]).
      rewrite decide_True by lia. done.
  - wp_step. eapply wp_mono; [eapply (undo_allocation_ok s t t); [done|done|simpl; lia|simpl; lia]|].
    intros [] ? (t' & f' & e' & -> & Hok' & Hn' & Hm' & Hf'). erewrite paged_in_ctx by done.
    wp_step. simpl. wp_step. eapply wp_update_ctx; [done|]. wp_step.
    exists t', f', e'. split; [done|]. split; [done|].
    rewrite decide_False by lia. do 2 (split; [done|]). by rewrite decide_False by lia.
Qed.

Lemma has_perms_ok s c t addr w :
  user_ok s c t ->
  has_perms addr w s = Some (match maps t (vpn_of addr - REGION1_BASE_VPN) with
    | Some (_, prot) => negb (Z.land prot PROT_READ =? 0) && (negb w || negb (Z.land prot PROT_WRITE =? 0))
    | None => false
    end && bool_decide (VMEM_1_BASE <= addr < VMEM_1_LIMIT), s).
Proof.
  intros Hu. pose proof Hu as [Hc Ht Hok]. unfold has_perms.
  destruct ((addr <? VMEM_1_BASE) || (VMEM_1_LIMIT <=? addr)) eqn:E; simp_bool.
  { rewrite bool_decide_eq_false_2, andb_false_r; [done|].
    apply orb_true_iff in E as [E|E]; simp_bool; lia. }
  rewrite bool_decide_eq_true_2, andb_true_r by lia.
  assert (VMEM_1_BASE <= addr < VMEM_1_LIMIT) as Hv by done. apply region1_vpn in Hv.
  assert (exists x, zget t (vpn_of addr - REGION1_BASE_VPN) = Some x) as [x Hx].
  { apply zget_inside. rewrite (to_len _ _ Hok). unfold REGION1_LIMIT_VPN in Hv. simpl. lia. }
  unfold get_table, gets, lift_opt, mbind, M_bind, mret, M_ret. rewrite (user_ok_get _ _ _ Hu), Hx.
  unfold maps. rewrite Hx. simpl. by destruct (pte_valid x).
Qed.

Lemma translate_ok s c t addr p prot q Q :
  user_ok s c t -> maps t (vpn_of addr - REGION1_BASE_VPN) = Some (p, prot) ->
  Z.land prot q <> 0 -> Q p s -> wp (translate region1_table (vpn_of addr) q) Q s.
Proof.
  intros Hu Hm Hq HQ. pose proof (user_ok_get _ _ _ Hu) as Hg. unfold translate, get_table.
  wp_steps. unfold maps in Hm.
  destruct (zget t (vpn_of addr - REGION1_BASE_VPN)) as [x|] eqn:Hx; [|done]. simpl in Hm.
  eapply wp_lift_opt; [done|]. destruct (pte_valid x); [|done]. injection Hm as <- <-. simpl.
  rewrite (proj2 (Z.eqb_neq _ _) Hq). simpl. by wp_step.
Qed.

(** The stack grows down to [stack_page]: the pages from there to the first
    mapped one, as many of them as there are frames. *)
Lemma expand_stack_ok s c t sp :
  user_ok s c t -> VMEM_1_BASE <= sp < VMEM_1_LIMIT -> curr_brk_page c < vpn_of sp ->
  REGION1_BASE_VPN <= curr_brk_page c ->
  wp (expand_stack sp) (fun r s' => r = true /\ exists t' f' top, 
    s' = in_ctx (set_region1_pt (Some t') c) f' (m_events s) s /\
    vpn_of sp <= top <= REGION1_LIMIT_VPN /\
    (top < REGION1_LIMIT_VPN -> is_Some (maps t (top - REGION1_BASE_VPN))) /\
    (forall vpn, vpn_of sp <= vpn < top -> maps t (vpn - REGION1_BASE_VPN) = None) /\
    allocated (T := region1_table) (m_frames s) t (vpn_of sp - REGION1_BASE_VPN)
      (Z.min top (vpn_of sp + Z.of_nat (size (free_set (m_frames s)))) - REGION1_BASE_VPN)
      (Z.lor PROT_READ PROT_WRITE) f' t') s.
Proof.
  intros Hu Hsp Hbrk Hbase. pose proof Hu as [Hc Ht Hok]. pose proof (user_ok_get _ _ _ Hu) as Hg.
  unfold expand_stack. rewrite (proj2 (Z.ltb_ge _ _)), (proj2 (Z.leb_gt _ _)) by lia. simpl.
  wp_step. eapply wp_get_current; [done|]. rewrite (proj2 (Z.ltb_ge _ _)) by lia.
  apply region1_vpn in Hsp as Hv. set (stack := vpn_of sp) in *.
  set (free := Z.of_nat (size (free_set (m_frames s)))).
  assert (REGION1_LIMIT_VPN = REGION1_BASE_VPN + REGION1_VPNS) as Hlim by done.
  rewrite (user_ok_paged _ _ _ Hu) at 1. wp_step.
  apply (wp_for_range_ret _ _ _ (fun vpn s' => exists t' f',
    s' = paged region1_table t' f' (m_events s) s /\
    (forall v, stack <= v < vpn -> maps t (v - REGION1_BASE_VPN) = None) /\
    allocated (T := region1_table) (m_frames s) t (stack - REGION1_BASE_VPN)
      (Z.min vpn (stack + free) - REGION1_BASE_VPN) (Z.lor PROT_READ PROT_WRITE) f' t')).
  - exists t, (m_frames s). split; [done|]. split; [intros; lia|].
    replace (Z.min stack (stack + free)) with stack by lia. by apply allocated_none.
  - intros vpn ? Hvpn (t1 & f1 & -> & Hnone & Hal). wp_step. eapply wp_get_table; [exact Hg|].
    destruct (zget_inside t1 (vpn - REGION1_BASE_VPN)) as [x Hx].
    { rewrite (to_len _ _ (al_ok _ _ _ _ _ _ _ Hal)). simpl. lia. }
    wp_step. eapply wp_lift_opt; [done|].
    assert (maps t1 (vpn - REGION1_BASE_VPN) = maps t (vpn - REGION1_BASE_VPN)) as Eout
      by (apply (al_out _ _ _ _ _ _ _ Hal); lia).
    assert (maps t1 (vpn - REGION1_BASE_VPN) =
      if pte_valid x then Some (pte_pfn x, pte_prot x) else None) as Em
      by (unfold maps; by rewrite Hx).
    pose proof (al_size _ _ _ _ _ _ _ Hal) as Hsz. fold free in Hsz.
    destruct (pte_valid x).
    + wp_step. wp_step. split; [done|]. exists t1, f1, vpn. split; [by apply paged_in_ctx|].
      split; [lia|]. split; [intros _; rewrite <- Eout, Em; by eexists|]. done.
    + wp_step. eapply wp_mono.
      { eapply (alloc_page_ok (T := region1_table)); [exact Hg|apply Hal|simpl; lia|exact Em]. }
      intros r ? (t2 & f2 & -> & Hok2 & Hn2 & Hres). wp_step. exists t2, f2. split; [done|].
      split.
      { intros v Hvr. destruct (decide (v = vpn)) as [->|]; [congruence|]. apply Hnone. lia. }
      destruct r.
      * destruct Hres as (pfn & Hp & Hf2 & Hm2).
        assert (size (free_set f1) <> 0%nat).
        { intros E. apply size_empty_inv in E. set_solver. }
        replace (Z.min vpn (stack + free)) with vpn in Hal by lia.
        replace (Z.min (vpn + 1) (stack + free) - REGION1_BASE_VPN)
          with (vpn - REGION1_BASE_VPN + 1) by lia.
        by eapply (allocated_step _ _ _ _ _ f1 t1 pfn); [lia|..].
      * destruct Hres as (-> & Hf1 & Hf2). rewrite Hf1, size_empty in Hsz.
        replace (Z.min (vpn + 1) (stack + free)) with (Z.min vpn (stack + free)) by lia.
        apply (allocated_same _ _ _ _ _ f1); [done|apply Hok2|done|congruence].
  - intros ? (t' & f' & -> & Hnone & Hal). wp_step. split; [done|].
    exists t', f', REGION1_LIMIT_VPN. split; [by apply paged_in_ctx|]. split; [lia|].
    split; [lia|]. rewrite Z.max_r in Hnone, Hal by lia. done.
Qed.

Lemma deallocate_region1_ok s c t :
  user_ok s c t ->
  wp deallocate_region1 (fun _ s' => exists t' f' e',
    s' = in_ctx (set_region1_pt (Some t') c) f' e' s /\ table_ok (T := region1_table) f' t' /\
    (forall j, maps t' j = None) /\
    free_set f' = free_set (m_frames s) ∪ frames_of t 0 REGION1_VPNS /\
    NUM_FRAMES f' = NUM_FRAMES (m_frames s)) s.
Proof.
  intros Hu. pose proof Hu as [Hc Ht Hok]. pose proof (user_ok_get _ _ _ Hu) as Hg.
  assert (REGION1_LIMIT_VPN = REGION1_BASE_VPN + REGION1_VPNS) as Hlim by done.
  unfold deallocate_region1. rewrite (user_ok_paged _ _ _ Hu) at 1.
  eapply wp_mono.
  { eapply (undo_allocation_ok (T := region1_table)); [exact Hg|done|simpl; lia|simpl; lia]. }
  intros [] ? (t' & f' & e' & -> & Hok' & Hn' & Hm' & Hf'). simpl in Hm', Hf'.
  exists t', f', e'. split; [by apply paged_in_ctx|]. split; [done|]. split.
  - intros j. rewrite Hm'. case_decide as E; [done|]. destruct (maps t j) eqn:Hj; [|done].
    apply maps_range in Hj. rewrite (to_len _ _ Hok) in Hj. simpl in Hj. lia.
  - split; [|done]. rewrite Hf'. by replace (REGION1_LIMIT_VPN - REGION1_BASE_VPN) with REGION1_VPNS by lia;
      rewrite Z.sub_diag.
Qed.

(** Reading and writing a byte of a mapped page. *)
Lemma user_read_ok s c t addr p prot :
  user_ok s c t -> maps t (vpn_of addr - REGION1_BASE_VPN) = Some (p, prot) ->
  Z.land prot PROT_READ <> 0 -> user_read addr s = Some (m_pmem s p (addr mod PAGESIZE), s).
Proof.
  intros Hu Hm Hp. assert (wp (user_read addr) (fun v s' => v = m_pmem s p (addr mod PAGESIZE) /\ s' = s) s)
    as (v & s' & -> & -> & ->)%wp_run; [|done].
  unfold user_read. wp_step. eapply translate_ok; [done..|]. by wp_step.
Qed.
Lemma user_write_ok s c t addr v p prot :
  user_ok s c t -> maps t (vpn_of addr - REGION1_BASE_VPN) = Some (p, prot) ->
  Z.land prot PROT_WRITE <> 0 ->
  user_write addr v s = Some (tt, set_m_pmem (fun f o =>
    if decide (f = p /\ o = addr mod PAGESIZE) then v else m_pmem s f o) s).
Proof.
  intros Hu Hm Hp. assert (wp (user_write addr v) (fun _ s' => s' = set_m_pmem (fun f o =>
    if decide (f = p /\ o = addr mod PAGESIZE) then v else m_pmem s f o) s) s)
    as ([] & s' & -> & ->)%wp_run; [|done].
  unfold user_write. wp_step. eapply translate_ok; [done..|]. by wp_step.
Qed.
End specs.

(** ** A concrete user process

    Process 1 has one page of text (frame 5), one of data (frame 6), its break
    right above, and one page of stack at the top (frame 7); process 2 is new.
    The frames 8 to 15 are free. *)
Definition demo_table : list pte :=
  [mapped_pte 5 5; mapped_pte 6 3] ++ replicate 13 pte_zero ++ [mapped_pte 7 3].
Definition demo_ctx : mem_ctx_t :=
  {| region1_pt := Some demo_table; curr_brk_page := 18; orig_brk_page := 18;
     txt_start_page := 16; data_start_page := 17 |}.
Definition demo_new_pcb : pcb :=
  set_p_mem_ctx (set_region1_pt (Some (replicate 16 pte_zero)) (p_mem_ctx pcb_zero)) pcb_zero.
Definition demo_user : mstate := {|
  m_store := {| st_pcbs := {[ 1%positive := set_p_mem_ctx demo_ctx pcb_zero;
                              2%positive := demo_new_pcb ]};
                st_next := 3; st_malloc := []; st_pid_calls := [] |};
  m_frames := demo_user_frames; m_vm_enabled := true; m_region0_pt := []; m_current_brk_page := 0;
  m_mem_ctx := Some 1%positive; m_pmem := fun f o => f * 100 + o; m_events := [] |}.

Lemma demo_user_ok : @user_ok demo_machine demo_user demo_ctx demo_table.
Proof.
  split; [done|done|]. apply (table_check_ok (T := @region1_table demo_machine));
    [exact demo_user_frames_wf|done|]. vm_compute. done.
Defined.

(** ** Properties *)

Lemma frames_of_empty t a b : b <= a -> frames_of t a b = ∅.
Proof.
  intros. apply set_eq. intros p. rewrite elem_of_frames_of. split; [|set_solver].
  intros (i & q & ? & _). lia.
Qed.

(** C18: [KernelBrk_Impl] succeeds exactly when the new break lies between the
    original break and two pages below the stack pointer's page and there are
    enough free frames.  It then maps exactly the pages from the old to the new
    break, readable and writable, to frames that were free, or unmaps exactly
    the pages between the new and the old one and frees their frames.  When it
    answers [ERROR] the address space and the free frames are as before. *)
Theorem brk_all_or_nothing `{MachineOk} (s : mstate) (c : mem_ctx_t) (t : list pte) (addr sp : Z) :
  let brk := curr_brk_page c in
  let heap_page := up_vpn_of addr in
  let free := free_set (m_frames s) in
  let page vpn := vpn - REGION1_BASE_VPN in
  user_ok s c t -> REGION1_BASE_VPN <= orig_brk_page c -> REGION1_BASE_VPN <= brk <= REGION1_LIMIT_VPN ->
  vpn_of sp <= REGION1_LIMIT_VPN -> (forall vpn, brk <= vpn < heap_page -> maps t (page vpn) = None) ->
  exists r s' t', KernelBrk_Impl addr sp s = Some (r, s') /\
    (r = 0 \/ r = ERROR) /\
    (r = 0 <-> orig_brk_page c <= heap_page < vpn_of sp - 1 /\ heap_page - brk <= Z.of_nat (size free)) /\
    (r = 0 ->
      user_ok s' (set_curr_brk_page heap_page (set_region1_pt (Some t') c)) t' /\
      (forall vpn, brk <= vpn < heap_page -> exists p,
         maps t' (page vpn) = Some (p, Z.lor PROT_READ PROT_WRITE) /\ p ∈ free) /\
      (forall vpn, heap_page <= vpn < brk -> maps t' (page vpn) = None) /\
      (forall vpn, vpn < Z.min brk heap_page \/ Z.max brk heap_page <= vpn ->
         maps t' (page vpn) = maps t (page vpn)) /\
      free_set (m_frames s') =
        (free ∪ frames_of t (page heap_page) (page brk)) ∖ frames_of t' (page brk) (page heap_page)) /\
    (r = ERROR ->
      user_ok s' (set_region1_pt (Some t') c) t' /\ same_maps t t' /\ free_set (m_frames s') = free).
Proof.
  intros brk heap_page free page Hu Horig Hbrk Hsp Hnone.
  assert (page = fun vpn => vpn - REGION1_BASE_VPN) as Epage by done. clearbody page. subst page.
  cbv beta in *. pose proof Hu as [Hc Ht Hok].
  destruct (proj1 (wp_run _ _ _) (KernelBrk_Impl_ok s c t addr sp Hu Horig Hbrk Hsp Hnone))
    as (r & s' & Hrun & Hres). fold brk heap_page free in Hres.
  destruct (decide (orig_brk_page c <= heap_page < vpn_of sp - 1)) as [Hin|Hout].
  2: { destruct Hres as [-> ->]. exists ERROR, s, t. split; [done|]. split; [by right|].
       split; [split; [done|intros [? _]; lia]|]. split; [done|]. intros _.
       split; [|done]. split; [|done|done]. rewrite Hc. f_equal. destruct c. simpl in *. by subst. }
  destruct Hres as (t' & f' & e' & Hok' & Hn' & Hres). exists r, s', t'. split; [done|].
  destruct (decide (brk < heap_page /\ Z.of_nat (size free) < heap_page - brk)) as [Hoom|Henough].
  - destruct Hres as (-> & -> & Hsame & Hfree). split; [by right|].
    split; [split; [done|intros [_ ?]; lia]|]. split; [done|]. intros _.
    split; [|done]. split; [by eapply in_ctx_current|done|done].
  - destruct Hres as (-> & -> & Hres). split; [by left|]. split; [split; [lia|done]|]. split; [|done].
    intros _. split; [split; [by eapply in_ctx_current|done|done]|].
    change (m_frames (in_ctx _ f' e' s)) with f'.
    destruct (decide (brk < heap_page)) as [Hgrow|Hshrink].
    + destruct Hres as [_ _ Hal_in Hal_out Hal_free _]. split; [|split; [intros; lia|split]].
      * intros vpn Hv. apply Hal_in. lia.
      * intros vpn Hv. apply Hal_out. lia.
      * rewrite Hal_free, (frames_of_empty t) by lia. by rewrite (right_id_L ∅ (∪)).
    + destruct Hres as [Hm Hfree]. split; [intros; lia|]. split; [|split].
      * intros vpn Hv. rewrite Hm, decide_True by lia. done.
      * intros vpn Hv. rewrite Hm, decide_False by lia. done.
      * rewrite Hfree, (frames_of_empty t') by lia. by rewrite difference_empty_L.
Qed.

(** Growing the break of process 1 by two pages. *)
Lemma brk_all_or_nothing_witness :
  exists r s' t', @KernelBrk_Impl demo_machine 320 496 demo_user = Some (r, s') /\ r = 0 /\
    (exists p, maps t' 2 = Some (p, 3) /\ p ∈ @free_set demo_machine demo_user_frames) /\
    maps t' 4 = None.
Proof.
  destruct (@brk_all_or_nothing demo_machine demo_machine_ok demo_user demo_ctx demo_table 320 496
    demo_user_ok) as (r & s' & t' & Hrun & _ & Hiff & H0 & _).
  - vm_compute. done.
  - vm_compute. done.
  - vm_compute. done.
  - intros vpn Hv. assert (vpn = 18 \/ vpn = 19) as [-> | ->]; [|done|done].
    change (18 <= vpn < 20) in Hv. lia.
  - exists r, s', t'. split; [exact Hrun|].
    assert (r = 0) as Er by (apply Hiff; vm_compute; done). split; [exact Er|].
    destruct (H0 Er) as (_ & Hgrow & _ & Hrest & _). split.
    + apply (Hgrow 18). vm_compute. done.
    + apply (Hrest 20). right. vm_compute. done.
Defined.

(** [has_perms] is true exactly for the addresses of region 1 whose page
    is mapped readable, and writable where that is asked for; and then the
    kernel can read the byte there, and write it if that was asked for, without
    a memory trap, a write changing that byte of physical memory only. *)
Theorem checked_pointer_safe `{MachineOk} (s : mstate) (c : mem_ctx_t) (t : list pte) (addr v : Z)
    (needs_write : bool) :
  user_ok s c t ->
  exists ok, has_perms addr needs_write s = Some (ok, s) /\
    (ok = true <-> VMEM_1_BASE <= addr < VMEM_1_LIMIT /\
      exists p prot, maps t (vpn_of addr - REGION1_BASE_VPN) = Some (p, prot) /\
        Z.land prot PROT_READ <> 0 /\ (needs_write = true -> Z.land prot PROT_WRITE <> 0)) /\
    (ok = true -> exists p,
      user_read addr s = Some (m_pmem s p (addr mod PAGESIZE), s) /\
      (needs_write = true -> user_write addr v s = Some (tt, set_m_pmem (fun f o =>
         if decide (f = p /\ o = addr mod PAGESIZE) then v else m_pmem s f o) s))).
Proof.
  intros Hu. rewrite (has_perms_ok s c t addr needs_write Hu).
  eexists. split; [done|]. destruct (maps t (vpn_of addr - REGION1_BASE_VPN)) as [[p prot]|] eqn:Hm.
  2: { split; [|done]. split; [done|]. intros (_ & ? & ? & ? & _). done. }
  rewrite !andb_true_iff, orb_true_iff, !negb_true_iff, !Z.eqb_neq, bool_decide_eq_true.
  assert (forall P, needs_write = false \/ P <-> (needs_write = true -> P)) as Hw
    by (intros P; destruct needs_write; naive_solver).
  rewrite Hw. split.
  - split.
    + intros ([Hr Hwr] & Hin). split; [done|]. by exists p, prot.
    + intros (Hin & p' & prot' & [= <- <-] & Hr & Hwr). done.
  - intros ([Hr Hwr] & Hin). exists p. split; [by eapply user_read_ok|].
    intros Hn. eapply user_write_ok; [done|done|by apply Hwr].
Qed.

Lemma checked_pointer_safe_witness :
  @user_ok demo_machine demo_user demo_ctx demo_table /\
  exists ok, @has_perms demo_machine 275 true demo_user = Some (ok, demo_user) /\ ok = true /\
    exists p, @user_read demo_machine 275 demo_user = Some (m_pmem demo_user p (275 mod 16), demo_user).
Proof.
  split; [exact demo_user_ok|].
  destruct (@checked_pointer_safe demo_machine demo_machine_ok demo_user demo_ctx demo_table 275 0 true
    demo_user_ok) as (ok & Hrun & _ & Hsafe).
  exists ok. split; [exact Hrun|]. assert (ok = true) as Eok.
  { vm_compute in Hrun. by injection Hrun. }
  split; [exact Eok|]. destruct (Hsafe Eok) as (p & Hread & _). by exists p.
Defined.

(** A fault at an address between the break and the top of region 1 makes
    the stack reach down to its page: the pages from there up to the first
    mapped one are mapped, readable and writable, to frames that were free, from
    the bottom up and as many of them as there are frames.  The answer is true
    also when there are too few, and the faulting page then may stay unmapped. *)
Theorem expand_stack_fills `{MachineOk} (s : mstate) (c : mem_ctx_t) (t : list pte) (sp : Z) :
  user_ok s c t -> VMEM_1_BASE <= sp < VMEM_1_LIMIT -> curr_brk_page c < vpn_of sp ->
  REGION1_BASE_VPN <= curr_brk_page c ->
  exists s' t' top, expand_stack sp s = Some (true, s') /\
    user_ok s' (set_region1_pt (Some t') c) t' /\ vpn_of sp <= top <= REGION1_LIMIT_VPN /\
    (top < REGION1_LIMIT_VPN -> is_Some (maps t (top - REGION1_BASE_VPN))) /\
    (forall vpn, vpn_of sp <= vpn < top -> maps t (vpn - REGION1_BASE_VPN) = None) /\
    (forall vpn, vpn_of sp <= vpn < top ->
      if decide (vpn - vpn_of sp < Z.of_nat (size (free_set (m_frames s))))
      then exists p, maps t' (vpn - REGION1_BASE_VPN) = Some (p, Z.lor PROT_READ PROT_WRITE) /\
             p ∈ free_set (m_frames s)
      else maps t' (vpn - REGION1_BASE_VPN) = None) /\
    (forall vpn, vpn < vpn_of sp \/ top <= vpn ->
      maps t' (vpn - REGION1_BASE_VPN) = maps t (vpn - REGION1_BASE_VPN)).
Proof.
  intros Hu Hsp Hbrk Hbase. pose proof Hu as [Hc _ _].
  destruct (proj1 (wp_run _ _ _) (expand_stack_ok s c t sp Hu Hsp Hbrk Hbase))
    as (r & s' & Hrun & -> & t' & f' & top & -> & Htop & Hnext & Hnone & [Hok' Hn Hin Hout _ _]).
  eexists _, t', top. split; [exact Hrun|].
  split; [split; [by eapply in_ctx_current|done|done]|]. do 3 (split; [done|]). split.
  - intros vpn Hv. case_decide.
    + apply Hin. lia.
    + rewrite Hout by lia. by apply Hnone.
  - intros vpn Hv. apply Hout. lia.
Qed.

(** The stack of process 1 grows by two pages. *)
Lemma expand_stack_fills_witness :
  exists s' t' top, @expand_stack demo_machine 470 demo_user = Some (true, s') /\
    (exists p, maps t' 13 = Some (p, 3) /\ p ∈ @free_set demo_machine demo_user_frames) /\ top <= 32.
Proof.
  destruct (@expand_stack_fills demo_machine demo_machine_ok demo_user demo_ctx demo_table 470
    demo_user_ok) as (s' & t' & top & Hrun & _ & Htop & Hnext & Hnone & Hin & _).
  - vm_compute. done.
  - vm_compute. done.
  - vm_compute. done.
  - exists s', t', top. split; [exact Hrun|]. change (29 <= top <= 32) in Htop. split; [|apply Htop].
    assert (top <> 29) as Ht by (intros ->; destruct (Hnext ltac:(done)) as [x Hx]; done).
    specialize (Hin 29). change (29 <= 29 < top -> if decide (0 < 8) then
      exists p, maps t' 13 = Some (p, 3) /\ p ∈ @free_set demo_machine demo_user_frames
      else maps t' 13 = None) in Hin.
    apply Hin. lia.
Defined.
