(* ===== verification/AddressSpace.v ===== *)
(** * Copying an address space ([UCCopy] of [user_memory.c])

    [Fork] copies the pages of the running process, one by one, to frames that
    the page above its break lends an address for.  The definitions are in
    [UserMemory]; this file proves that the copy has the same contents in
    frames of its own, that the original is not touched, and that a copy that
    fails gives every frame back. *)

From S2P Require Import Prelude Machine FrameTracking Pcb Paging UserMemory.

Section copying.
Context `{MachineOk}.
(** The running process [a], the new one [n] and its block [bn]. *)
Context (s : mstate) (a n : addr) (bn : pcb).
Hypothesis Ha : m_mem_ctx s = Some a.
Hypothesis Hna : n <> a.

Notation B := REGION1_BASE_VPN.
Notation ok := (table_ok (T := region1_table)).

Definition with_table (tn : list pte) : pcb :=
  set_p_mem_ctx (set_region1_pt (Some tn) (p_mem_ctx bn)) bn.

(** The state in which the running process has the table [t], the new one the
    table [tn], and physical memory holds [pm]. *)
Definition fork_base (tn : list pte) (pm : Z -> Z -> Z) : mstate :=
  set_m_pmem pm (set_m_store
    (set_pcbs (<[n := with_table tn]> (st_pcbs (m_store s))) (m_store s)) s).
Definition forking (t tn : list pte) (pm : Z -> Z -> Z) (f : frames_t) (e : list hw_event)
  : mstate := paged region1_table t f e (fork_base tn pm).

Lemma fork_base_get tn pm :
  is_Some (pt_get region1_table s) -> exists t, pt_get region1_table (fork_base tn pm) = Some t.
Proof.
  intros [t Ht]. exists t. rewrite <- Ht. simpl. unfold current_ctx. simpl. rewrite Ha. simpl.
  by rewrite lookup_insert_ne.
Qed.
Lemma forking_m_pmem t tn pm f e : m_pmem (forking t tn pm f e) = pm.
Proof. unfold forking, paged. simpl. unfold put_region1. simpl. by rewrite Ha. Qed.

(** ** The state seen by the steps of the loop *)
Lemma forking_pmem t tn pm pm' f e : set_m_pmem pm' (forking t tn pm f e) = forking t tn pm' f e.
Proof.
  unfold forking, paged. simpl. unfold put_region1. simpl. rewrite Ha. done.
Qed.
Lemma forking_store t tn pm f e :
  m_store (forking t tn pm f e) =
    set_pcbs (alter (fun b => set_p_mem_ctx (set_region1_pt (Some t) (p_mem_ctx b)) b) a
      (<[n := with_table tn]> (st_pcbs (m_store s)))) (m_store s).
Proof. unfold forking, paged. simpl. unfold put_region1. simpl. by rewrite Ha. Qed.
Lemma forking_child t tn pm f e : st_pcbs (m_store (forking t tn pm f e)) !! n = Some (with_table tn).
Proof. rewrite forking_store. simpl. rewrite lookup_alter_ne, lookup_insert_eq by done. done. Qed.
Lemma forking_update t tn tn' pm f e :
  set_m_store (set_pcbs (<[n := with_table tn']> (st_pcbs (m_store (forking t tn pm f e))))
    (m_store (forking t tn pm f e))) (forking t tn pm f e) = forking t tn' pm f e.
Proof.
  rewrite forking_store. unfold forking, paged. simpl. unfold put_region1. simpl. rewrite Ha.
  unfold set_m_events, set_m_frames, set_m_store, set_m_pmem, set_pcbs. simpl. do 2 f_equal.
  apply map_eq. intros x. destruct (decide (n = x)) as [<-|].
  - by rewrite lookup_insert_eq, lookup_alter_ne, lookup_insert_eq by done.
  - rewrite lookup_insert_ne by done. destruct (decide (a = x)) as [<-|].
    + by rewrite !lookup_alter_eq, !lookup_insert_ne by done.
    + by rewrite !lookup_alter_ne, !lookup_insert_ne by done.
Qed.

Lemma wp_table_of t tn pm f e Q :
  Q tn (forking t tn pm f e) -> wp (table_of n) Q (forking t tn pm f e).
Proof.
  intros HQ. unfold table_of. wp_step. wp_step. eapply wp_load; [apply forking_child|].
  eapply wp_lift_opt; [done|]. exact HQ.
Qed.
Lemma wp_set_table_of t tn tn' pm f e Q :
  Q tt (forking t tn' pm f e) -> wp (set_table_of n tn') Q (forking t tn pm f e).
Proof.
  intros HQ. unfold set_table_of. wp_step. eapply wp_update; [apply forking_child|].
  rewrite <- (forking_update t tn) in HQ. exact HQ.
Qed.
End copying.

(** ** Giving the frames of a table back *)
Lemma destroy_pt_ok `{MachineOk} s tn first last :
  table_ok (T := region1_table) (m_frames s) tn -> 0 <= first -> last <= REGION1_VPNS ->
  wp (destroy_pt tn first last) (fun _ s' => exists f', s' = set_m_frames f' s /\ frames_wf f' /\
    NUM_FRAMES f' = NUM_FRAMES (m_frames s) /\
    free_set f' = free_set (m_frames s) ∪ frames_of tn first last) s.
Proof.
  intros Hok Hfirst Hlast. unfold destroy_pt.
  apply (wp_for_range _ _ _ (fun vpn s' => exists f', s' = set_m_frames f' s /\ frames_wf f' /\
    NUM_FRAMES f' = NUM_FRAMES (m_frames s) /\
    free_set f' = free_set (m_frames s) ∪ frames_of tn first vpn)).
  - exists (m_frames s). split; [by destruct s|]. split; [apply Hok|]. split; [done|].
    unfold frames_of. rewrite Z.sub_diag. simpl. set_solver.
  - intros vpn ? Hvpn (f1 & -> & Hwf & Hn & Hf). wp_step.
    destruct (zget_inside tn vpn) as [x Hx]; [rewrite (to_len _ _ Hok); simpl; lia|].
    eapply wp_lift_opt; [done|].
    assert (maps tn vpn = if pte_valid x then Some (pte_pfn x, pte_prot x) else None) as Em
      by (unfold maps; by rewrite Hx).
    assert (forall p, p ∈ frames_of tn first (vpn + 1) <->
      p ∈ frames_of tn first vpn \/ (pte_valid x = true /\ p = pte_pfn x)) as Hstep.
    { intros p. rewrite !elem_of_frames_of. split.
      - intros (i & q & Hi & Hm). destruct (decide (i = vpn)) as [->|].
        + rewrite Em in Hm. destruct (pte_valid x); [right|done]. split; [done|congruence].
        + left. exists i, q. split; [lia|done].
      - intros [(i & q & Hi & Hm)|[Hv ->]]; [exists i, q; split; [lia|done]|].
        exists vpn, (pte_prot x). rewrite Em, Hv. split; [lia|done]. }
    destruct (pte_valid x) eqn:Hv; wp_steps.
    + change (lget (set_m_frames f1 s)) with f1. eapply wp_mono; [by apply free_frame_ok|].
      intros ok f' (Hwf' & Hn' & Hres). wp_steps. exists f'. split; [done|]. split; [done|].
      split; [congruence|].
      assert (frame_range f1 (pte_pfn x) /\ pte_pfn x ∉ free_set f1) as Hused.
      { split.
        - unfold frame_range. rewrite Hn. by apply (to_range _ _ Hok) with vpn (pte_prot x).
        - rewrite Hf. intros [Hin|(i & q & Hi & Hm)%elem_of_frames_of]%elem_of_union.
          + by apply (to_used _ _ Hok) with vpn (pte_pfn x) (pte_prot x) in Hin.
          + pose proof (to_inj _ _ Hok _ _ _ _ _ Em Hm). lia. }
      rewrite decide_True in Hres by done. destruct Hres as [_ Hf'].
      apply set_eq. intros p. rewrite Hf', Hf, !elem_of_union, Hstep, elem_of_singleton.
      clear. naive_solver.
    + exists f1. do 3 (split; [done|]). apply set_eq. intros p.
      rewrite Hf, !elem_of_union, Hstep. clear. naive_solver.
  - intros ? (f' & -> & Hwf & Hn & Hf). exists f'. do 3 (split; [done|]).
    destruct (decide (first <= last)); [by rewrite Z.max_r in Hf by lia|].
    rewrite Z.max_l in Hf by lia. rewrite Hf. apply set_eq. intros p.
    rewrite !elem_of_union, !elem_of_frames_of.
    split; (intros [?|(i & q & ? & ?)]; [by left|lia]).
Qed.

(** ** The loop *)
Section copy_loop.
Context `{MachineOk}.
Context (s : mstate) (a n : addr) (bn : pcb).
Hypothesis Ha : m_mem_ctx s = Some a.
Hypothesis Hna : n <> a.
Hypothesis Hs : is_Some (pt_get region1_table s).

Notation B := REGION1_BASE_VPN.
Notation ok := (table_ok (T := region1_table)).
Notation forking := (forking s n bn).

(** The page above the break, and the range that is copied with which
    protection, from the state [(f0, t0, tn0, pm0)]. *)
Context (brk first last prot : Z) (f0 : frames_t) (t0 tn0 : list pte) (pm0 : Z -> Z -> Z).

(** The pages [first .. vpn - 1] have been copied. *)
Record copied (vpn : Z) (f : frames_t) (t tn : list pte) (pm : Z -> Z -> Z) : Prop := {
  cp_parent : ok f t;
  cp_same : same_maps t0 t;
  cp_child : ok f tn;
  cp_apart : forall i j p q q', maps t i = Some (p, q) -> maps tn j = Some (p, q') -> False;
  cp_num : NUM_FRAMES f = NUM_FRAMES f0;
  cp_in : forall j, first - B <= j < vpn - B -> exists p ps q,
    maps tn j = Some (p, prot) /\ p ∈ free_set f0 /\ maps t0 j = Some (ps, q) /\ pm p = pm0 ps;
  cp_out : forall j, ~ (first - B <= j < vpn - B) -> maps tn j = maps tn0 j;
  cp_total : free_set f ∪ frames_of tn 0 (vpn - B) = free_set f0 ∪ frames_of tn0 0 (first - B);
  cp_sub : free_set f ⊆ free_set f0;
  cp_mem : forall p, p ∉ free_set f0 -> pm p = pm0 p
}.

Hypothesis Hok0 : ok f0 t0.
Hypothesis Hbrk : 0 <= brk - B < REGION1_VPNS.
Hypothesis Hunmapped : maps t0 (brk - B) = None.
Hypothesis Hfirst : 0 <= first - B.
Hypothesis Hlast : last - B <= REGION1_VPNS.
(** The pages to copy are mapped and readable; the copy does not have them yet. *)
Hypothesis Hsrc : forall j, first - B <= j < last - B ->
  exists p q, maps t0 j = Some (p, q) /\ Z.land q PROT_READ <> 0.
Hypothesis Hnew : forall j, first - B <= j -> maps tn0 j = None.

(** The table after one more page was copied. *)
Lemma copied_step vpn f t tn pm f1 pfn tn1 t1 :
  first <= vpn < last -> copied vpn f t tn pm ->
  frames_wf f1 -> NUM_FRAMES f1 = NUM_FRAMES f -> pfn ∈ free_set f ->
  free_set f1 = free_set f ∖ {[pfn]} -> zlen t1 = zlen t -> same_maps t t1 -> zlen tn1 = zlen tn ->
  (forall j, maps tn1 j = if decide (j = vpn - B) then Some (pfn, prot) else maps tn j) ->
  forall ps q, maps t0 (vpn - B) = Some (ps, q) ->
  copied (vpn + 1) f1 t1 tn1 (fun x => if decide (x = pfn) then pm ps else pm x).
Proof.
  intros Hvpn [Hp Hsame Hc Hap Hn Hin Hout Htot Hsub Hmem] Hwf1 Hn1 Hpfn Hf1 Hl1 Hm1 Hln Hmn ps q Hps.
  assert (maps tn (vpn - B) = None) as Hnone by (rewrite Hout by lia; apply Hnew; lia).
  assert (free_set f1 ⊆ free_set f) as Hsub1 by set_solver.
  split.
  - eapply (table_ok_maps f1 t); [by apply (table_ok_shrink f)|done|done].
  - intros i. by rewrite Hm1.
  - by eapply (table_ok_create f f1 tn).
  - intros i j p q1 q2. rewrite Hm1, Hmn. case_decide; [|by apply Hap]. intros Hi [= <- <-].
    by apply (to_used _ _ Hp) in Hi.
  - congruence.
  - intros j Hj. rewrite Hmn. case_decide as E.
    + exists pfn, ps, q. subst j. split; [done|]. split; [by apply Hsub|]. split; [done|].
      rewrite decide_True by done. apply Hmem. by apply (to_used _ _ Hok0) in Hps.
    + destruct (Hin j) as (p & ps' & q' & Hj1 & Hj2 & Hj3 & Hj4); [lia|].
      exists p, ps', q'. do 3 (split; [done|]). rewrite decide_False; [done|]. intros ->.
      by apply (to_used _ _ Hc) in Hj1.
  - intros j Hj. rewrite Hmn, decide_False by lia. apply Hout. lia.
  - rewrite <- Htot, Hf1. apply set_eq. intros p.
    rewrite !elem_of_union, elem_of_difference, elem_of_singleton, !elem_of_frames_of. split.
    + intros [[Hp' _]|(i & q' & Hi & Hmi)]; [by left|]. rewrite Hmn in Hmi. case_decide.
      * left. by injection Hmi as <- <-.
      * right. exists i, q'. split; [lia|done].
    + intros [Hp'|(i & q' & Hi & Hmi)].
      * destruct (decide (p = pfn)) as [->|]; [right|by left]. exists (vpn - B), prot.
        rewrite Hmn, decide_True by done. split; [lia|done].
      * right. exists i, q'. rewrite Hmn, decide_False by lia. split; [lia|done].
  - set_solver.
  - intros p Hp'. rewrite decide_False; [by apply Hmem|]. intros ->. by apply Hp', Hsub.
Qed.

Lemma copied_none : 
  ok f0 tn0 ->
  (forall i j p q q', maps t0 i = Some (p, q) -> maps tn0 j = Some (p, q') -> False) ->
  copied first f0 t0 tn0 pm0.
Proof. intros. split; try done. intros j Hj. lia. Qed.

(** Every frame there was has been used for a page below [vpn]. *)
Definition exhausted : Prop := exists vpn tn, first <= vpn < last /\
  free_set f0 ⊆ frames_of tn 0 (vpn - B) /\ forall j, j < first - B -> maps tn j = maps tn0 j.

(** A page of the parent is copied, or there is no frame left. *)
Lemma copy_one_ok vpn f t tn pm e :
  first <= vpn < last -> copied vpn f t tn pm ->
  wp (ok ← alloc_page region1_table brk (Z.lor PROT_READ PROT_WRITE);
      if negb ok then
        pt ← table_of n;
        destroy_pt pt 0 (vpn - B);;
        mret (Some tt)
      else
        copy_page region1_table brk vpn;;
        pfn ← unmap_no_free region1_table brk;
        pt ← table_of n;
        pt' ← lift_opt (create_pte pt (vpn - B) pfn prot);
        set_table_of n pt';;
        mret None) (fun r s' => exists f' t' tn' pm' e', s' = forking t' tn' pm' f' e' /\
    match r with
    | None => copied (vpn + 1) f' t' tn' pm'
    | Some _ => frames_wf f' /\ NUM_FRAMES f' = NUM_FRAMES f0 /\ ok f' t' /\ same_maps t0 t' /\
        free_set f' = free_set f0 ∪ frames_of tn0 0 (first - B) /\
        (forall p, p ∉ free_set f0 -> pm' p = pm0 p) /\ exhausted
    end) (forking t tn pm f e).
Proof.
  intros Hvpn Hcp. destruct (Hsrc (vpn - B)) as (ps & q & Hps & Hq); [lia|].
  destruct (fork_base_get s a n bn Ha Hna tn pm Hs) as [tx Hg].
  change (pt_base region1_table) with B in *.
  pose proof (cp_same _ _ _ _ _ Hcp) as Hsame. destruct prot_rw as [_ Hw].
  wp_step. eapply wp_mono; [eapply (alloc_page_ok (T := region1_table)); [exact Hg|apply Hcp|done|by rewrite Hsame]|].
  intros r ? (t1 & f1 & -> & Hok1 & Hn1 & Hres). destruct r; simpl.
  - destruct Hres as (pfn & Hpfn & Hf1 & Hm1). simpl in Hm1.
    assert (maps t1 (vpn - B) = Some (ps, q)) as Hps1.
    { rewrite Hm1, Hsame. case_decide as E; [|done]. rewrite E in Hps. congruence. }
    assert (maps t1 (brk - B) = Some (pfn, Z.lor PROT_READ PROT_WRITE)) as Hb1
      by (by rewrite Hm1, decide_True).
    wp_step. eapply (copy_page_ok (T := region1_table)); [exact Hg|exact Hps1|done|exact Hb1|done|].
    change (paged region1_table t1 f1 e (fork_base s n bn tn pm)) with (forking t1 tn pm f1 e).
    rewrite (forking_m_pmem s a n bn Ha), (forking_pmem s a n bn Ha).
    set (pm1 := fun x : Z => if decide (x = pfn) then pm ps else pm x). destruct (fork_base_get s a n bn Ha Hna tn pm1 Hs) as [tx' Hg'].
    wp_step. eapply wp_mono.
    { eapply (unmap_no_free_ok (T := region1_table)); [exact Hg'|apply Hok1|done|exact Hb1]. }
    intros ? ? (-> & t2 & e2 & -> & Hl2 & Hm2). simpl in Hm2.
    change (paged region1_table t2 f1 e2 (fork_base s n bn tn pm1)) with (forking t2 tn pm1 f1 e2).
    wp_step. eapply (wp_table_of s a); [done..|].
    destruct (create_pte_maps tn (vpn - B) pfn prot) as (tn' & Hc & Hln & Hmn).
    { rewrite (to_len _ _ (cp_child _ _ _ _ _ Hcp)). simpl. lia. }
    wp_step. eapply wp_lift_opt; [exact Hc|]. wp_step. eapply (wp_set_table_of s a); [done..|].
    wp_step. exists f1, t2, tn', pm1, e2. split; [done|].
    eapply copied_step; [done|exact Hcp|apply Hok1|done|done|done| | |done|done|done].
    + rewrite Hl2, (to_len _ _ Hok1), (to_len _ _ (cp_parent _ _ _ _ _ Hcp)). done.
    + intros j. rewrite Hm2, Hm1. case_decide as E; [|done]. subst j. by rewrite Hsame.
  - destruct Hres as (-> & Hf & Hf1).
    change (paged region1_table t f1 e (fork_base s n bn tn pm)) with (forking t tn pm f1 e).
    wp_step. eapply (wp_table_of s a); [done..|]. wp_step.
    assert (ok f1 tn) as Hok1'.
    { eapply table_ok_same; [apply Hcp|apply Hok1|done|congruence]. }
    eapply wp_mono; [eapply destroy_pt_ok; [exact Hok1'|lia|lia]|].
    intros [] ? (f2 & -> & Hwf2 & Hn2 & Hf2). wp_step. simpl in Hn2, Hf2.
    exists f2, t, tn, pm, e. split; [done|]. split; [done|].
    split; [rewrite Hn2; simpl; rewrite Hn1; apply Hcp|].
    assert (free_set f2 = free_set f0 ∪ frames_of tn0 0 (first - B)) as Hf2'.
    { rewrite <- (cp_total _ _ _ _ _ Hcp), Hf2, Hf1, Hf. done. }
    split; [|split; [done|split; [done|split; [apply Hcp|]]]].
    2: { exists vpn, tn. split; [done|]. split.
         - pose proof (cp_total _ _ _ _ _ Hcp). set_solver.
         - intros j Hj. apply (cp_out _ _ _ _ _ Hcp). lia. }
    destruct (cp_parent _ _ _ _ _ Hcp) as [H1 H2 H3 H4 H5]. split; [done|done| | |done].
    + intros i p q' Hi. unfold frame_range. rewrite Hn2. simpl. rewrite Hn1. by eapply H3.
    + intros i p q' Hi. rewrite Hf2, Hf1. intros [Hin|Hin]%elem_of_union; [set_solver|].
      apply elem_of_frames_of in Hin as (k & q2 & _ & Hk). by eapply (cp_apart _ _ _ _ _ Hcp).
Qed.

Lemma copy_pages_ok e :
  copied first f0 t0 tn0 pm0 ->
  wp (copy_pages n brk first last prot) (fun r s' => exists f' t' tn' pm' e',
    s' = forking t' tn' pm' f' e' /\
    if r : bool then copied (Z.max first last) f' t' tn' pm'
    else frames_wf f' /\ NUM_FRAMES f' = NUM_FRAMES f0 /\ ok f' t' /\ same_maps t0 t' /\
        free_set f' = free_set f0 ∪ frames_of tn0 0 (first - B) /\
        (forall p, p ∉ free_set f0 -> pm' p = pm0 p) /\ exhausted) (forking t0 tn0 pm0 f0 e).
Proof.
  intros Hcp. unfold copy_pages. wp_step.
  apply (wp_for_range_ret _ _ _ (fun vpn s' => exists f' t' tn' pm' e',
    s' = forking t' tn' pm' f' e' /\ copied vpn f' t' tn' pm')).
  - by exists f0, t0, tn0, pm0, e.
  - intros vpn ? Hvpn (f & t & tn & pm & e1 & -> & Hcp1).
    eapply wp_mono; [by apply copy_one_ok|].
    intros [[]|] ? (f' & t' & tn' & pm' & e' & -> & Hres); [wp_step|]; by exists f', t', tn', pm', e'.
  - intros ? (f' & t' & tn' & pm' & e' & -> & Hres). wp_step. by exists f', t', tn', pm', e'.
Qed.
End copy_loop.

(** ** The three loops together *)
Section fork.
Context `{MachineOk}.
Context (s : mstate) (a n : addr) (bn : pcb).
Hypothesis Ha : m_mem_ctx s = Some a.
Hypothesis Hna : n <> a.
Hypothesis Hs : is_Some (pt_get region1_table s).
Context (f0 : frames_t) (t0 : list pte) (pm0 : Z -> Z -> Z).
Hypothesis Hok0 : table_ok (T := region1_table) f0 t0.

Notation B := REGION1_BASE_VPN.
Notation ok := (table_ok (T := region1_table)).
Notation forking := (forking s n bn).

(** Page [j] of the table [tn] is a copy, with protection [prot], in a frame
    that was free, of what page [j] of [t0] held. *)
Definition page_copied (tn : list pte) (pm : Z -> Z -> Z) (j prot : Z) : Prop :=
  exists p ps q, maps tn j = Some (p, prot) /\ p ∈ free_set f0 /\
    maps t0 j = Some (ps, q) /\ pm p = pm0 ps.

(** The pages [j] with [R j = Some prot], all below [pos], have been copied. *)
Record copied_so_far (pos : Z) (R : Z -> option Z) (f : frames_t) (t tn : list pte)
    (pm : Z -> Z -> Z) : Prop := {
  cs_parent : ok f t;
  cs_same : same_maps t0 t;
  cs_child : ok f tn;
  cs_apart : forall i j p q q', maps t i = Some (p, q) -> maps tn j = Some (p, q') -> False;
  cs_num : NUM_FRAMES f = NUM_FRAMES f0;
  cs_in : forall j prot, R j = Some prot -> page_copied tn pm j prot;
  cs_out : forall j, R j = None -> maps tn j = None;
  cs_pos : forall j, pos - B <= j -> R j = None;
  cs_total : free_set f ∪ frames_of tn 0 (pos - B) = free_set f0;
  cs_sub : free_set f ⊆ free_set f0;
  cs_mem : forall p, p ∉ free_set f0 -> pm p = pm0 p
}.

Definition with_range (first last prot : Z) (R : Z -> option Z) (j : Z) : option Z :=
  if decide (first - B <= j < last - B) then Some prot else R j.

Lemma copied_so_far_skip pos pos' R f t tn pm :
  pos <= pos' -> copied_so_far pos R f t tn pm -> copied_so_far pos' R f t tn pm.
Proof.
  intros Hle []. split; try done.
  - intros j ?. apply cs_pos0. lia.
  - rewrite <- cs_total0. apply set_eq. intros p. rewrite !elem_of_union, !elem_of_frames_of.
    split; (intros [?|(i & q & Hi & Hm)]; [by left|right]); exists i, q; (split; [|done]).
    + destruct (decide (i < pos - B)); [lia|]. rewrite cs_out0 in Hm; [done|]. apply cs_pos0. lia.
    + lia.
Qed.

Lemma copied_so_far_step first last prot R f1 t1 tn1 pm1 f t tn pm :
  copied_so_far first R f1 t1 tn1 pm1 ->
  copied first prot f1 t1 tn1 pm1 (Z.max first last) f t tn pm ->
  copied_so_far (Z.max first last) (with_range first last prot R) f t tn pm.
Proof.
  intros [] [].
  assert (forall j, ~ (first - B <= j < last - B) -> maps tn j = maps tn1 j) as Hout
    by (intros j ?; apply cp_out0; lia).
  split; try done.
  - intros i. by rewrite cp_same0.
  - congruence.
  - intros j pr. unfold with_range, page_copied. case_decide as E.
    + intros [= <-]. destruct (cp_in0 j) as (p & ps & q & Hj1 & Hj2 & Hj3 & Hj4); [lia|].
      rewrite cs_same0 in Hj3. exists p, ps, q. split; [done|]. split; [by apply cs_sub0|].
      split; [done|]. rewrite Hj4. apply cs_mem0. by apply (to_used _ _ Hok0) in Hj3.
    + intros HR. destruct (cs_in0 j pr HR) as (p & ps & q & Hj1 & Hj2 & Hj3 & Hj4).
      exists p, ps, q. rewrite Hout by done. do 3 (split; [done|]). rewrite <- Hj4. apply cp_mem0.
      by apply (to_used _ _ cs_child0) in Hj1.
  - intros j. unfold with_range. case_decide; [done|]. intros HR. rewrite Hout by done. by apply cs_out0.
  - intros j Hj. unfold with_range. rewrite decide_False by lia. apply cs_pos0. lia.
  - congruence.
  - set_solver.
  - intros p Hp. rewrite cp_mem0, cs_mem0; [done|done|]. set_solver.
Qed.

(** Every frame that was free has been used for a page of [R] or one of the
    pages from [first] on, and a page below [last] is still to be copied. *)
Definition ran_out (first last : Z) (R : Z -> option Z) : Prop := exists vpn tn, first <= vpn < last /\
  free_set f0 ⊆ frames_of tn 0 (vpn - B) /\
  forall j x, j < first - B -> maps tn j = Some x -> R j <> None.

(** One loop, from any state in between. *)
Lemma copy_range_ok brk first last prot R f1 t1 tn1 pm1 e :
  0 <= brk - B < REGION1_VPNS -> maps t0 (brk - B) = None -> 0 <= first - B ->
  last - B <= REGION1_VPNS ->
  (forall j, first - B <= j < last - B ->
    exists p q, maps t0 j = Some (p, q) /\ Z.land q PROT_READ <> 0) ->
  copied_so_far first R f1 t1 tn1 pm1 ->
  wp (copy_pages n brk first last prot) (fun r s' => exists f' t' tn' pm' e',
    s' = forking t' tn' pm' f' e' /\
    if r : bool then copied_so_far (Z.max first last) (with_range first last prot R) f' t' tn' pm'
    else frames_wf f' /\ NUM_FRAMES f' = NUM_FRAMES f0 /\ ok f' t' /\ same_maps t0 t' /\
        free_set f' = free_set f0 /\ (forall p, p ∉ free_set f0 -> pm' p = pm0 p) /\
        ran_out first last R)
    (forking t1 tn1 pm1 f1 e).
Proof.
  intros Hb Hun Hf Hl Hsrc Hcs. pose proof (cs_same _ _ _ _ _ _ Hcs) as Hsame.
  eapply wp_mono.
  { apply (copy_pages_ok s a n bn Ha Hna Hs brk first last prot f1 t1 tn1 pm1); try done.
    - apply Hcs.
    - by rewrite Hsame.
    - intros j Hj. rewrite Hsame. by apply Hsrc.
    - intros j Hj. by apply Hcs, Hcs.
    - eapply (copied_none a n); try done; apply Hcs. }
  intros r ? (f & t & tn & pm & e' & -> & Hres). exists f, t, tn, pm, e'. split; [done|].
  destruct r; [by eapply copied_so_far_step|].
  destruct Hres as (? & Hn & ? & Hsame' & Hfree & Hmem & vpn & tx & Hvpn & Hsub & Htx).
  split; [done|]. split; [rewrite Hn; apply Hcs|]. split; [done|].
  split; [intros i; by rewrite Hsame'|]. split; [by rewrite Hfree; apply Hcs|]. split.
  - intros p Hp. rewrite Hmem by (intros Hin; by apply Hp, Hcs). by apply Hcs.
  - exists vpn, tx. split; [done|]. split.
    + rewrite <- (cs_total _ _ _ _ _ _ Hcs). intros p [Hp|Hp]%elem_of_union; [by apply Hsub|].
      apply elem_of_frames_of in Hp as (i & q & Hi & Hm). apply elem_of_frames_of. exists i, q.
      split; [lia|]. by rewrite Htx by lia.
    + intros j x Hj Hm HR. rewrite Htx in Hm by done. by rewrite (cs_out _ _ _ _ _ _ Hcs) in Hm.
Qed.

(** The protections of the copy: text, data and heap, stack. *)
Definition fork_prot (c : mem_ctx_t) (stack_page : Z) : Z -> option Z :=
  with_range stack_page REGION1_LIMIT_VPN (Z.lor PROT_READ PROT_WRITE)
    (with_range (data_start_page c) (curr_brk_page c) (Z.lor PROT_READ PROT_WRITE)
      (with_range (txt_start_page c) (data_start_page c) (Z.lor PROT_READ PROT_EXEC) (fun _ => None))).

(** How many pages these are. *)
Definition pages_to_copy (c : mem_ctx_t) (stack_page : Z) : Z :=
  (curr_brk_page c - txt_start_page c) + (REGION1_LIMIT_VPN - stack_page).

(** A loop that stops had fewer frames than pages, [P] being those before it. *)
Lemma ran_out_size first last R P :
  (forall j, R j <> None -> j ∈ P) -> ran_out first last R ->
  Z.of_nat (size (free_set f0)) < Z.of_nat (length P) + (last - first).
Proof.
  intros HP (vpn & tn & Hvpn & Hsub & Htn).
  assert (size (free_set f0) <= length (P ++ seqZ (first - B) (vpn - first)))%nat as Hle.
  { apply (size_frames_le tn). intros p Hp.
    apply Hsub, elem_of_frames_of in Hp as (i & q & Hi & Hm). exists i, q. split; [|done].
    apply elem_of_app. destruct (decide (i < first - B)); [left; by eapply HP, Htn|right].
    apply elem_of_seqZ. lia. }
  rewrite length_app, length_seqZ in Hle. lia.
Qed.
Lemma with_range_in first last prot R P j :
  (forall j, R j <> None -> j ∈ P) -> with_range first last prot R j <> None ->
  j ∈ P ++ seqZ (first - B) (last - first).
Proof.
  intros HP. unfold with_range. rewrite elem_of_app, elem_of_seqZ. case_decide; [right; lia|].
  intros Hj. left. by apply HP.
Qed.

(** A copy that succeeds had frames enough. *)
Lemma copied_size c stack_page f t tn pm :
  txt_start_page c <= data_start_page c <= curr_brk_page c -> curr_brk_page c < stack_page ->
  copied_so_far REGION1_LIMIT_VPN (fork_prot c stack_page) f t tn pm ->
  pages_to_copy c stack_page <= Z.of_nat (size (free_set f0)).
Proof.
  intros Hd Hs' Hcs. unfold pages_to_copy.
  set (P := seqZ (txt_start_page c - B) (curr_brk_page c - txt_start_page c) ++
            seqZ (stack_page - B) (REGION1_LIMIT_VPN - stack_page)).
  assert (length P <= size (free_set f0))%nat as Hle.
  { apply (size_frames_ge tn).
    - apply NoDup_app. split; [apply NoDup_seqZ|]. split; [|apply NoDup_seqZ].
      intros j. rewrite !elem_of_seqZ. lia.
    - intros j Hj. destruct (fork_prot c stack_page j) as [prot|] eqn:HR.
      + destruct (cs_in _ _ _ _ _ _ Hcs j prot HR) as (p & ? & ? & Hm & Hp & _). by exists p, prot.
      + exfalso. unfold fork_prot, with_range in HR. apply elem_of_app in Hj. rewrite !elem_of_seqZ in Hj.
        repeat case_decide; try done. lia.
    - apply (to_inj _ _ (cs_child _ _ _ _ _ _ Hcs)). }
  unfold P in Hle. rewrite length_app, !length_seqZ in Hle. lia.
Qed.

(** The block of the new process after a copy. *)
Definition forked_pcb (c : mem_ctx_t) (uc : UserContext) (tn : list pte) : pcb :=
  set_p_uc uc (set_p_mem_ctx (set_layout (txt_start_page c) (data_start_page c)
    (orig_brk_page c) (curr_brk_page c) (set_region1_pt (Some tn) (p_mem_ctx bn))) bn).

Lemma forking_ctx c t tn pm f e :
  current_ctx s = Some c -> current_ctx (forking t tn pm f e) = Some (set_region1_pt (Some t) c).
Proof.
  intros Hc. unfold forking. erewrite paged_in_ctx.
  - eapply in_ctx_current. unfold current_ctx in *. simpl. rewrite Ha in *. simpl in *.
    by rewrite lookup_insert_ne.
  - unfold current_ctx in *. simpl. rewrite Ha in *. simpl in *. by rewrite lookup_insert_ne.
Qed.

Lemma forking_start tn :
  pt_get region1_table s = Some t0 -> st_pcbs (m_store s) !! n = Some bn ->
  region1_pt (p_mem_ctx bn) = Some tn ->
  s = forking t0 tn (m_pmem s) (m_frames s) (m_events s).
Proof.
  intros Hg Hn Htn. unfold forking, fork_base.
  assert (with_table bn tn = bn) as ->.
  { unfold with_table. destruct bn as [? ? ? ? ? ? ? ? ? ? [] ? ? ? ? ? ? ?]. simpl in *. by subst. }
  rewrite insert_id by done.
  assert (set_m_pmem (m_pmem s) (set_m_store (set_pcbs (st_pcbs (m_store s)) (m_store s)) s) = s)
    as -> by (by destruct s as [[] ? ? ? ? ? ? ?]).
  by apply paged_same.
Qed.

(** The pages the copy needs are there. *)
Record forkable (c : mem_ctx_t) (stack_page : Z) : Prop := {
  fk_txt : B <= txt_start_page c <= data_start_page c;
  fk_brk : data_start_page c <= curr_brk_page c;
  fk_stack : curr_brk_page c < stack_page <= REGION1_LIMIT_VPN;
  fk_brk_free : maps t0 (curr_brk_page c - B) = None;
  fk_mapped : forall vpn, txt_start_page c <= vpn < curr_brk_page c \/
      stack_page <= vpn < REGION1_LIMIT_VPN ->
    exists p q, maps t0 (vpn - B) = Some (p, q) /\ Z.land q PROT_READ <> 0
}.

Lemma fork_loops_ok c stack_page tn e :
  forkable c stack_page -> ok f0 tn -> (forall j, maps tn j = None) ->
  wp (ok ← copy_pages n (curr_brk_page c) (txt_start_page c) (data_start_page c)
             (Z.lor PROT_READ PROT_EXEC);
      if negb ok then mret false
      else
        ok ← copy_pages n (curr_brk_page c) (data_start_page c) (curr_brk_page c)
               (Z.lor PROT_READ PROT_WRITE);
        if negb ok then mret false
        else copy_pages n (curr_brk_page c) stack_page REGION1_LIMIT_VPN
               (Z.lor PROT_READ PROT_WRITE))
    (fun r s' => exists f' t' tn' pm' e', s' = forking t' tn' pm' f' e' /\
      if r : bool then copied_so_far REGION1_LIMIT_VPN (fork_prot c stack_page) f' t' tn' pm'
      else frames_wf f' /\ NUM_FRAMES f' = NUM_FRAMES f0 /\ ok f' t' /\ same_maps t0 t' /\
        free_set f' = free_set f0 /\ (forall p, p ∉ free_set f0 -> pm' p = pm0 p) /\
        Z.of_nat (size (free_set f0)) < pages_to_copy c stack_page)
    (forking t0 tn pm0 f0 e).
Proof.
  intros [Htxt Hdata Hstack Hbf Hmapped] Htn Hnone.
  assert (REGION1_LIMIT_VPN = B + REGION1_VPNS) as Hlim by done.
  assert (forall first last, (txt_start_page c <= first /\ last <= curr_brk_page c) \/
      (stack_page <= first /\ last <= REGION1_LIMIT_VPN) ->
    forall j, first - B <= j < last - B ->
    exists p q, maps t0 j = Some (p, q) /\ Z.land q PROT_READ <> 0) as Hsrc.
  { intros first last Hr j Hj. replace j with (j + B - B) by lia. apply Hmapped. lia. }
  set (P2 := [] ++ seqZ (txt_start_page c - B) (data_start_page c - txt_start_page c)).
  set (P3 := P2 ++ seqZ (data_start_page c - B) (curr_brk_page c - data_start_page c)).
  pose proof (length_seqZ (txt_start_page c - B) (data_start_page c - txt_start_page c)).
  pose proof (length_seqZ (data_start_page c - B) (curr_brk_page c - data_start_page c)).
  wp_step. eapply wp_mono; [eapply (copy_range_ok _ _ _ _ (fun _ => None))|].
  1-4: first [done|lia]. 1: apply Hsrc; lia.
  { split; try done.
    - intros i j p q q' _. by rewrite Hnone.
    - apply set_eq. intros p. rewrite elem_of_union, elem_of_frames_of. split; [|by left].
      intros [?|(i & q & _ & Hm)]; [done|]. by rewrite Hnone in Hm. }
  intros [] ? (f1 & t1 & tn1 & pm1 & e1 & -> & Hcs); simpl.
  2: { wp_step. exists f1, t1, tn1, pm1, e1. split; [done|].
       destruct Hcs as (? & ? & ? & ? & ? & ? & Hro). do 6 (split; [done|]).
       apply (ran_out_size _ _ _ []) in Hro; [|done]. unfold pages_to_copy. simpl in Hro. lia. }
  rewrite Z.max_r in Hcs by lia.
  wp_step. eapply wp_mono; [eapply copy_range_ok|].
  1-4: first [done|lia]. 1: apply Hsrc; lia. 1: exact Hcs.
  intros [] ? (f2 & t2 & tn2 & pm2 & e2 & -> & Hcs2); simpl.
  2: { wp_step. exists f2, t2, tn2, pm2, e2. split; [done|].
       destruct Hcs2 as (? & ? & ? & ? & ? & ? & Hro). do 6 (split; [done|]).
       apply (ran_out_size _ _ _ P2) in Hro; [|intros j Hj; by eapply with_range_in in Hj].
       unfold P2, pages_to_copy in *. simpl in Hro. lia. }
  rewrite Z.max_r in Hcs2 by lia.
  eapply wp_mono; [eapply copy_range_ok|].
  1-4: first [done|lia]. 1: apply Hsrc; lia.
  { eapply copied_so_far_skip; [|exact Hcs2]. lia. }
  intros [] ? (f3 & t3 & tn3 & pm3 & e3 & -> & Hcs3); exists f3, t3, tn3, pm3, e3; (split; [done|]).
  - by rewrite Z.max_r in Hcs3 by lia.
  - destruct Hcs3 as (? & ? & ? & ? & ? & ? & Hro). do 6 (split; [done|]).
    apply (ran_out_size _ _ _ P3) in Hro.
    + unfold P3, P2, pages_to_copy in *. rewrite length_app in Hro. simpl in Hro. lia.
    + intros j Hj. eapply with_range_in; [|exact Hj]. intros k Hk. by eapply with_range_in.
Qed.
End fork.

(** ** [UCCopy] *)
Section uccopy.
Context `{MachineOk}.

(** The state [s'] in which the process [n] is a copy of the running process,
    or in which the copy was given up. *)
Record same_kernel (s s' : mstate) : Prop := {
  sk_vm : m_vm_enabled s' = m_vm_enabled s;
  sk_region0 : m_region0_pt s' = m_region0_pt s;
  sk_brk : m_current_brk_page s' = m_current_brk_page s;
  sk_ctx : m_mem_ctx s' = m_mem_ctx s;
  sk_next : st_next (m_store s') = st_next (m_store s);
  sk_malloc : st_malloc (m_store s') = st_malloc (m_store s);
  sk_pids : st_pid_calls (m_store s') = st_pid_calls (m_store s)
}.

(** The block of the running process, whose table is [t'] now. *)
Definition same_but_table (s s' : mstate) (t' : list pte) : Prop :=
  forall a b, m_mem_ctx s = Some a -> st_pcbs (m_store s) !! a = Some b ->
    st_pcbs (m_store s') !! a = Some (with_table b t').

Record forked (s : mstate) (c : mem_ctx_t) (t : list pte) (n : addr) (bn : pcb) (uc : UserContext)
    (s' : mstate) (t' tn' : list pte) : Prop := {
  fd_kernel : same_kernel s s';
  fd_parent : same_but_table s s' t';
  fd_user : user_ok s' (set_region1_pt (Some t') c) t';
  fd_child : st_pcbs (m_store s') !! n = Some (forked_pcb bn c uc tn');
  fd_others : forall x, x <> n -> Some x <> m_mem_ctx s ->
    st_pcbs (m_store s') !! x = st_pcbs (m_store s) !! x;
  fd_copied : copied_so_far (m_frames s) t (m_pmem s) REGION1_LIMIT_VPN
    (fork_prot c (vpn_of (uc_sp uc))) (m_frames s') t' tn' (m_pmem s')
}.

Record fork_failed (s : mstate) (c : mem_ctx_t) (t : list pte) (n : addr) (bn : pcb)
    (uc : UserContext) (s' : mstate) (t' : list pte) : Prop := {
  ff_kernel : same_kernel s s';
  ff_parent : same_but_table s s' t';
  ff_child : exists tn, st_pcbs (m_store s') !! n = Some (with_table bn tn);
  ff_short : Z.of_nat (size (free_set (m_frames s))) < pages_to_copy c (vpn_of (uc_sp uc));
  ff_num : NUM_FRAMES (m_frames s') = NUM_FRAMES (m_frames s);
  ff_user : user_ok s' (set_region1_pt (Some t') c) t';
  ff_same : same_maps t t';
  ff_free : free_set (m_frames s') = free_set (m_frames s);
  ff_others : forall x, x <> n -> Some x <> m_mem_ctx s ->
    st_pcbs (m_store s') !! x = st_pcbs (m_store s) !! x;
  ff_mem : forall p, p ∉ free_set (m_frames s) -> m_pmem s' p = m_pmem s p
}.

Lemma forking_others s a n bn t tn pm f e x :
  m_mem_ctx s = Some a -> x <> n -> x <> a ->
  st_pcbs (m_store (forking s n bn t tn pm f e)) !! x = st_pcbs (m_store s) !! x.
Proof.
  intros Ha ? ?. rewrite (forking_store s a) by done. simpl.
  by rewrite lookup_alter_ne, lookup_insert_ne.
Qed.

Lemma forking_parent s a n bn t tn pm f e b :
  m_mem_ctx s = Some a -> n <> a -> st_pcbs (m_store s) !! a = Some b ->
  st_pcbs (m_store (forking s n bn t tn pm f e)) !! a = Some (with_table b t).
Proof.
  intros Ha Hna Hb. rewrite (forking_store s a) by done. simpl.
  by rewrite lookup_alter_eq, lookup_insert_ne, Hb.
Qed.
Lemma forking_kernel s a n bn t tn pm f e :
  m_mem_ctx s = Some a -> same_kernel s (forking s n bn t tn pm f e).
Proof. intros Ha. unfold forking, paged. simpl. unfold put_region1. simpl. rewrite Ha. by split. Qed.

Lemma UCCopy_ok s c t a n bn tn uc :
  user_ok s c t -> m_mem_ctx s = Some a -> n <> a -> st_pcbs (m_store s) !! n = Some bn ->
  region1_pt (p_mem_ctx bn) = Some tn -> zlen tn = REGION1_VPNS -> (forall j, maps tn j = None) ->
  forkable t c (vpn_of (uc_sp uc)) ->
  wp (UCCopy uc n) (fun r s' => exists t',
    if r : bool then exists tn', forked s c t n bn uc s' t' tn'
    else fork_failed s c t n bn uc s' t') s.
Proof.
  intros Hu Ha Hna Hn Htn Hlen Hnone Hfk. pose proof Hu as [Hc Ht Hok].
  pose proof (user_ok_get _ _ _ Hu) as Hg. pose proof Hfk as [H1 H2 [H3 H4] H5 H6].
  assert (is_Some (pt_get region1_table s)) as Hs by eauto.
  assert (table_ok (T := region1_table) (m_frames s) tn) as Hoktn.
  { split; [apply Hok|done|..]; intros i; intros *; by rewrite Hnone. }
  unfold UCCopy. wp_step. eapply wp_get_current; [done|].
  cbv zeta. rewrite (proj2 (Z.leb_gt _ _)) by lia.
  pose proof (fork_loops_ok s a n bn Ha Hna Hs (m_frames s) t (m_pmem s) Hok c _ tn (m_events s)
    Hfk Hoktn Hnone) as Hloops.
  assert (s = forking s n bn t tn (m_pmem s) (m_frames s) (m_events s)) as Es
    by (by eapply forking_start).
  rewrite <- Es in Hloops.
  assert (forall f' t' tn' pm' e', frames_wf f' /\ NUM_FRAMES f' = NUM_FRAMES (m_frames s) /\
    table_ok (T := region1_table) f' t' /\ same_maps t t' /\ free_set f' = free_set (m_frames s) /\
    (forall p, p ∉ free_set (m_frames s) -> pm' p = m_pmem s p) /\
    Z.of_nat (size (free_set (m_frames s))) < pages_to_copy c (vpn_of (uc_sp uc)) ->
    fork_failed s c t n bn uc (forking s n bn t' tn' pm' f' e') t') as Hfail.
  { intros f' t' tn' pm' e' (? & ? & ? & ? & ? & ? & ?). split; try done.
    - by apply (forking_kernel s a).
    - intros a' b' Ha' Hb'. assert (a' = a) as -> by congruence. by apply forking_parent.
    - eexists. by apply (forking_child s a).
    - split; [by eapply forking_ctx|done|done].
    - intros x ? ?. eapply forking_others; [done..|congruence].
    - by rewrite (forking_m_pmem s a). }
  apply wp_bind_inv in Hloops. wp_step. eapply wp_mono; [exact Hloops|].
  clear Hloops. intros [] s1 Hloops; simpl in Hloops.
  2: { destruct Hloops as (f' & t' & tn' & pm' & e' & -> & Hres). simpl. wp_step. eauto. }
  apply wp_bind_inv in Hloops. simpl. wp_step. eapply wp_mono; [exact Hloops|].
  clear Hloops. intros [] s2 Hloops; simpl in Hloops.
  2: { destruct Hloops as (f' & t' & tn' & pm' & e' & -> & Hres). simpl. wp_step. eauto. }
  simpl. wp_step. eapply wp_mono; [exact Hloops|]. clear Hloops.
  intros [] s3 (f' & t' & tn' & pm' & e' & -> & Hres); simpl; [|wp_step; eauto].
  pose proof (forking_ctx s a n bn Ha Hna c t' tn' pm' f' e' Hc) as Hc'.
  wp_step. eapply wp_get_current; [done|].
  wp_step. wp_step. eapply wp_update; [by apply (forking_child s a)|].
  wp_step. wp_step. eapply wp_update; [simpl; by rewrite lookup_insert_eq|]. wp_step.
  exists t', tn'. split; simpl.
  - by destruct (forking_kernel s a n bn t' tn' pm' f' e' Ha); split.
  - intros a' b' Ha' Hb'. assert (a' = a) as -> by congruence. simpl.
    rewrite insert_insert_eq, lookup_insert_ne by done.
    by apply (forking_parent s a n bn t' tn' pm' f' e').
  - split; [|done|].
    + apply current_ctx_Some in Hc' as (a' & b' & Ea & Eb & Ec).
      assert (a' = a) as ->.
      { unfold forking, paged in Ea. simpl in Ea. rewrite put_region1_ctx in Ea. simpl in Ea. congruence. }
      apply current_ctx_Some. exists a, b'. split; [done|]. simpl.
      by rewrite insert_insert_eq, lookup_insert_ne.
    + apply Hres.
  - rewrite insert_insert_eq, lookup_insert_eq. unfold forked_pcb, with_table. f_equal.
  - intros x ? ?. rewrite insert_insert_eq, lookup_insert_ne by done.
    apply (forking_others s a n bn t' tn' pm' f' e' x Ha); [done|congruence].
  - pose proof (forking_m_pmem s a n bn Ha t' tn' pm' f' e') as Epm. simpl in Epm.
    rewrite Epm. exact Hres.
Qed.
End uccopy.

(** ** Properties *)

(** C15: when the pages from the start of the text to the break and from the
    stack pointer's page to the top are mapped, [UCCopy] succeeds exactly when
    there are as many free frames as pages.  Then the new process has a copy of
    exactly these pages, each with the contents of the original in a frame of
    its own that was free, text readable and executable and the rest readable
    and writable, together with the layout and the user context; otherwise every frame is free again that was.  In both cases
    the running process keeps its mappings, and no frame in use changes. *)
Theorem uccopy_isolated `{MachineOk} (s : mstate) (c : mem_ctx_t) (t : list pte) (a n : addr)
    (bn : pcb) (tn : list pte) (uc : UserContext) :
  let page vpn := vpn - REGION1_BASE_VPN in
  let free := free_set (m_frames s) in
  user_ok s c t -> m_mem_ctx s = Some a -> n <> a -> st_pcbs (m_store s) !! n = Some bn ->
  region1_pt (p_mem_ctx bn) = Some tn -> zlen tn = REGION1_VPNS -> (forall j, maps tn j = None) ->
  forkable t c (vpn_of (uc_sp uc)) ->
  exists r s' t', UCCopy uc n s = Some (r, s') /\
    (r = true <-> pages_to_copy c (vpn_of (uc_sp uc)) <= Z.of_nat (size free)) /\
    user_ok s' (set_region1_pt (Some t') c) t' /\ same_maps t t' /\
    (forall p, p ∉ free -> m_pmem s' p = m_pmem s p) /\
    if r : bool then exists tn',
      st_pcbs (m_store s') !! n = Some (forked_pcb bn c uc tn') /\
      table_ok (T := region1_table) (m_frames s') tn' /\
      (forall i j p q q', maps t' i = Some (p, q) -> maps tn' j = Some (p, q') -> False) /\
      (forall vpn, match fork_prot c (vpn_of (uc_sp uc)) (page vpn) with
         | Some prot => exists p ps q, maps tn' (page vpn) = Some (p, prot) /\ p ∈ free /\
             maps t (page vpn) = Some (ps, q) /\ m_pmem s' p = m_pmem s ps
         | None => maps tn' (page vpn) = None
         end) /\
      free_set (m_frames s') ∪ frames_of tn' 0 REGION1_VPNS = free
    else free_set (m_frames s') = free.
Proof.
  intros page free Hu Ha Hna Hn Htn Hlen Hnone Hfk.
  destruct (proj1 (wp_run _ _ _) (UCCopy_ok s c t a n bn tn uc Hu Ha Hna Hn Htn Hlen Hnone Hfk))
    as (r & s' & Hrun & t' & Hres).
  exists r, s', t'. split; [done|]. destruct r.
  - destruct Hres as (tn' & [_ _ Huser Hchild _ Hcs]). split.
    { split; [|done]. intros _. destruct Hfk. eapply (copied_size a n); [..|exact Hcs]; first [done|lia|exact Hok]. }
    destruct Hcs. do 3 (split; [done|]). exists tn'. do 3 (split; [done|]). split.
    + intros vpn. destruct (fork_prot c (vpn_of (uc_sp uc)) (page vpn)) eqn:E; [by apply cs_in0|by apply cs_out0].
    + replace REGION1_VPNS with (REGION1_LIMIT_VPN - REGION1_BASE_VPN); [done|].
      unfold REGION1_LIMIT_VPN. lia.
  - destruct Hres. split; [|done]. split; [done|]. intros ?. subst free. lia.
Qed.

Definition demo_uc : UserContext := uc_set_sp 500 uc_zero.
Lemma demo_forkable : @forkable demo_machine demo_table demo_ctx 31.
Proof.
  split; try by vm_compute.
  intros vpn Hv. change (16 <= vpn < 18 \/ 31 <= vpn < 32) in Hv.
  assert (vpn = 16 \/ vpn = 17 \/ vpn = 31) as [->|[->| ->]] by lia;
    do 2 eexists; (split; [reflexivity|]); vm_compute; done.
Defined.

(** Process 1 is copied to process 2: the first page of data of the copy has
    the contents of the original in another frame. *)
Lemma uccopy_isolated_witness :
  exists r s' t', @UCCopy demo_machine demo_uc 2 demo_user = Some (r, s') /\ r = true /\
    same_maps demo_table t' /\
    exists tn' p, maps tn' 1 = Some (p, 3) /\ m_pmem s' p = m_pmem demo_user 6 /\ p <> 6.
Proof.
  destruct (@uccopy_isolated demo_machine demo_machine_ok demo_user demo_ctx demo_table 1 2 demo_new_pcb
    (replicate 16 pte_zero) demo_uc demo_user_ok eq_refl ltac:(done) eq_refl eq_refl eq_refl)
    as (r & s' & t' & Hrun & _ & _ & Hsame & _ & Hres).
  - intros j. unfold maps. destruct (zget _ j) as [x|] eqn:Hx; [|done].
    pose proof (zget_Some _ _ _ Hx) as Hr. rewrite zget_nonneg in Hx by lia.
    apply lookup_replicate in Hx as [-> _]. done.
  - exact demo_forkable.
  - exists r, s', t'. split; [exact Hrun|].
    assert (r = true) as Er.
    { assert (fst <$> @UCCopy demo_machine demo_uc 2 demo_user = Some true) as E by (by vm_compute).
      rewrite Hrun in E. by injection E. }
    split; [exact Er|]. split; [exact Hsame|]. rewrite Er in Hres.
    destruct Hres as (tn' & _ & _ & _ & Hpages & _). specialize (Hpages 17).
    change (exists p ps q, maps tn' 1 = Some (p, 3) /\
      p ∈ @free_set demo_machine demo_user_frames /\ Some (6, 3) = Some (ps, q) /\
      m_pmem s' p = m_pmem demo_user ps) in Hpages.
    destruct Hpages as (p & ps & q & Hp & Hfree & [= <- <-] & Hpm). exists tn', p.
    split; [exact Hp|]. split; [exact Hpm|]. intros ->. revert Hfree.
    apply (bool_decide_unpack (6 ∉ @free_set demo_machine demo_user_frames)). by vm_compute.
Defined.
