(* ===== verification/Fifo.v ===== *)
(** * Queues of processes threaded through [pcb_t.next]

    The terminals, the pipes, the locks and the condition variables queue
    processes the same way: a first and a last pointer, and the [next] field of
    the blocks in between.  This file has the two versions of the code, the
    list a queue stands for ([fifo_repr]), and the interface [FifoQueue] the
    clients' theorems use. *)

From S2P Require Import Prelude Machine Pcb.

(** ** Definitions *)

Record fifo := { q_first : option addr; q_last : option addr }.
Definition fifo_empty : fifo := {| q_first := None; q_last := None |}.

(** [wq_push] and [rq_push] of [tty.c], [readq_push] of [pipe.c]. *)
Definition push_on_tail (q : fifo) (p : addr) : M store fifo :=
  update p (set_p_next None);;
  q ← match q_last q with
      | None => mret {| q_first := Some p; q_last := q_last q |}
      | Some t => update t (set_p_next (Some p));; mret q
      end;
  mret {| q_first := q_first q; q_last := Some p |}.

(** [wq_pop], [rq_pop], [readq_pop]. *)
Definition pop_front (q : fifo) : M store (option addr * fifo) :=
  match q_first q with
  | None => mret (None, q)
  | Some p =>
      b ← load p;
      let first := p_next b in
      let last := match first with None => None | Some _ => q_last q end in
      update p (set_p_next None);;
      mret (Some p, {| q_first := first; q_last := last |})
  end.

(** [insert] and [pop] of [synchronization.c]. *)
Definition insert_pcb (q : fifo) (new_pcb : addr) : M store fifo :=
  update new_pcb (set_p_next None);;
  match q_first q with
  | None => mret {| q_first := Some new_pcb; q_last := Some new_pcb |}
  | Some _ =>
      t ← lift_opt (q_last q);
      update t (set_p_next (Some new_pcb));;
      mret {| q_first := q_first q; q_last := Some new_pcb |}
  end.

Definition pop_pcb (q : fifo) : M store (option addr * fifo) :=
  match q_first q with
  | None => mret (None, q)
  | Some ret_val =>
      b ← load ret_val;
      let first := p_next b in
      update ret_val (set_p_next None);;
      mret (Some ret_val,
            {| q_first := first; q_last := match first with None => None | Some _ => q_last q end |})
  end.

(** ** What a queue stands for *)

Record fifo_repr (st : store) (q : fifo) (l : list addr) : Prop := {
  fr_nodup : NoDup l;
  fr_first : q_first q = head l;
  fr_last : q_last q = last l;
  fr_next : forall i a, l !! i = Some a -> exists b, st_pcbs st !! a = Some b /\ p_next b = l !! S i
}.

(** The heaps differ only in the [next] fields of blocks of [X]. *)
Record next_only (st st' : store) (X : list addr) : Prop := {
  no_alloc : st_next st' = st_next st;
  no_malloc : st_malloc st' = st_malloc st;
  no_pids : st_pid_calls st' = st_pid_calls st;
  no_out : forall a, a ∉ X -> st_pcbs st' !! a = st_pcbs st !! a;
  no_fields : forall a, set_p_next None <$> st_pcbs st' !! a = set_p_next None <$> st_pcbs st !! a
}.

(** The contract of a queue: [push] adds at the end, [pop] takes the head, and
    they touch no block but those of the queue. *)
Class FifoQueue (push : fifo -> addr -> M store fifo)
    (pop : fifo -> M store (option addr * fifo)) : Prop := {
  push_ok : forall st q l p, fifo_repr st q l -> p ∉ l -> is_Some (st_pcbs st !! p) ->
    wp (push q p) (fun q' st' => fifo_repr st' q' (l ++ [p]) /\ next_only st st' (p :: l)) st;
  pop_ok : forall st q l, fifo_repr st q l ->
    wp (pop q) (fun r st' =>
      match l with
      | [] => r = (None, q) /\ st' = st
      | p :: l' => exists q', r = (Some p, q') /\ fifo_repr st' q' l' /\ next_only st st' [p]
      end) st
}.

(** ** Lemmas *)

Lemma next_only_refl st X : next_only st st X.
Proof. by split. Qed.
Lemma next_only_trans st1 st2 st3 X Y :
  next_only st1 st2 X -> next_only st2 st3 Y -> next_only st1 st3 (X ++ Y).
Proof.
  intros [? ? ? H1 F1] [? ? ? H2 F2]. split; try congruence.
  - intros a ?. rewrite H2, H1 by set_solver. done.
Qed.
Lemma next_only_mono st st' X Y : next_only st st' X -> X ⊆ Y -> next_only st st' Y.
Proof. intros [? ? ? ? ?] ?. split; auto. Qed.

(** A block of the changed heap is the old one up to [next]. *)
Lemma next_only_block st st' X a b :
  next_only st st' X -> st_pcbs st !! a = Some b ->
  exists n, st_pcbs st' !! a = Some (set_p_next n b).
Proof.
  intros Hn Hb. pose proof (no_fields _ _ _ Hn a) as Hf. rewrite Hb in Hf. simpl in Hf.
  apply fmap_Some in Hf as (b' & -> & Hf). exists (p_next b'). destruct b, b'.
  unfold set_p_next in *. simpl in *. injection Hf; intros; by subst.
Qed.
Lemma next_only_field {A} (f : pcb -> A) st st' X a :
  next_only st st' X -> (forall b n, f (set_p_next n b) = f b) ->
  f <$> st_pcbs st' !! a = f <$> st_pcbs st !! a.
Proof.
  intros Hn Hf. destruct (st_pcbs st !! a) as [b|] eqn:Hb.
  - destruct (next_only_block _ _ _ _ _ Hn Hb) as [n ->]. simpl. by rewrite Hf.
  - pose proof (no_fields _ _ _ Hn a) as E. rewrite Hb in E. by destruct (st_pcbs st' !! a).
Qed.
Lemma next_only_live st st' X a :
  next_only st st' X -> is_Some (st_pcbs st !! a) -> is_Some (st_pcbs st' !! a).
Proof. intros Hn [b Hb]. destruct (next_only_block _ _ _ _ _ Hn Hb). eauto. Qed.

Lemma next_only_update st p b n :
  st_pcbs st !! p = Some b ->
  next_only st (set_pcbs (<[p := set_p_next n b]> (st_pcbs st)) st) [p].
Proof.
  intros Hb. split; try done; simpl.
  - intros a ?. rewrite lookup_insert_ne; [done|set_solver].
  - intros a. destruct (decide (p = a)) as [->|]; [|by rewrite lookup_insert_ne].
    by rewrite lookup_insert_eq, Hb.
Qed.

(** A queue is not disturbed by changes to the links of other blocks. *)
Lemma fifo_repr_frame st st' q l X :
  fifo_repr st q l -> next_only st st' X -> (forall a, a ∈ l -> a ∉ X) -> fifo_repr st' q l.
Proof.
  intros [? ? ? Hn] Ho Hd. split; try done. intros i a Hi.
  destruct (Hn i a Hi) as (b & Hb & ?). exists b. split; [|done].
  rewrite (no_out _ _ _ Ho); [done|]. apply Hd. by eapply list_elem_of_lookup_2.
Qed.

(** Nor by changes that keep the links of its blocks. *)
Lemma fifo_repr_same_links st st' q l :
  fifo_repr st q l ->
  (forall a b, a ∈ l -> st_pcbs st !! a = Some b ->
     exists b', st_pcbs st' !! a = Some b' /\ p_next b' = p_next b) ->
  fifo_repr st' q l.
Proof.
  intros [? ? ? Hn] Hs. split; try done. intros i a Hi. destruct (Hn i a Hi) as (b & Hb & E).
  destruct (Hs a b) as (b' & ? & E'); [by eapply list_elem_of_lookup_2|done|].
  exists b'. split; [done|congruence].
Qed.

Lemma fifo_repr_empty st : fifo_repr st fifo_empty [].
Proof. split; try done. constructor. Qed.
Lemma fifo_repr_nil st q : q_first q = None -> q_last q = None -> fifo_repr st q [].
Proof. intros. split; try done. constructor. Qed.
Lemma fifo_repr_live st q l a : fifo_repr st q l -> a ∈ l -> is_Some (st_pcbs st !! a).
Proof.
  intros Hr [i Hi]%list_elem_of_lookup_1. destruct (fr_next _ _ _ Hr i a Hi) as (b & -> & _). eauto.
Qed.
Lemma fifo_repr_first_none st q l : fifo_repr st q l -> q_first q = None -> l = [].
Proof. intros [_ -> _ _]. by destruct l. Qed.

Lemma last_lookup_len {A} (l : list A) x : last l = Some x -> l !! (length l - 1)%nat = Some x.
Proof. by rewrite last_lookup, Nat.sub_1_r. Qed.

(** Linking [p], whose own link is cut, behind a queue. *)
Lemma snoc_repr st q l p bp :
  fifo_repr st q l -> p ∉ l -> st_pcbs st !! p = Some bp -> p_next bp = None ->
  (forall t bt, last l = Some t -> st_pcbs st !! t = Some bt ->
     fifo_repr (set_pcbs (<[t := set_p_next (Some p) bt]> (st_pcbs st)) st)
       {| q_first := q_first q; q_last := Some p |} (l ++ [p])) /\
  (last l = None -> fifo_repr st {| q_first := Some p; q_last := Some p |} (l ++ [p])).
Proof.
  intros [Hnd Hf Hl Hn] Hp Hbp Hnext. split.
  - intros t bt Ht Hbt. pose proof (last_lookup_len _ _ Ht) as Hti.
    pose proof (lookup_lt_Some _ _ _ Hti) as Hlen. split; simpl.
    + apply NoDup_app. split; [done|]. split; [set_solver|]. apply NoDup_singleton.
    + rewrite Hf. by destruct l.
    + by rewrite last_snoc.
    + intros i a Hi. destruct (decide (i = length l)) as [->|].
      * rewrite lookup_app_r, Nat.sub_diag in Hi by lia. simplify_eq/=.
        exists bp. rewrite lookup_insert_ne. 2: { intros ->. apply Hp. by eapply list_elem_of_lookup_2. }
        split; [done|]. rewrite Hnext. symmetry. apply lookup_ge_None_2. rewrite length_app. simpl. lia.
      * assert (i < length l)%nat.
        { apply lookup_lt_Some in Hi. rewrite length_app in Hi. simpl in Hi. lia. }
        rewrite lookup_app_l in Hi by done. destruct (Hn i a Hi) as (b & Hb & E).
        destruct (decide (t = a)) as [->|].
        -- rewrite lookup_insert_eq. eexists. split; [done|]. simpl.
           pose proof (NoDup_lookup _ _ _ _ Hnd Hi Hti) as ->.
           rewrite lookup_app_r by lia. by replace (S (length l - 1) - length l)%nat with 0%nat by lia.
        -- exists b. rewrite lookup_insert_ne by done. split; [done|].
           assert (i <> length l - 1)%nat by (intros ->; congruence).
           rewrite lookup_app_l by lia. done.
  - intros Ht. destruct l; [|by rewrite last_cons in Ht; destruct (last l)].
    split; simpl; try done; [apply NoDup_singleton|].
    intros [|i] a Hi; simplify_eq/=. exists bp. by rewrite Hnext.
Qed.

(** Cutting the head off. *)
Lemma tail_repr st q p l :
  fifo_repr st q (p :: l) ->
  exists b, st_pcbs st !! p = Some b /\ p_next b = head l /\
    fifo_repr (set_pcbs (<[p := set_p_next None b]> (st_pcbs st)) st)
      {| q_first := head l; q_last := match head l with None => None | Some _ => q_last q end |} l.
Proof.
  intros [Hnd Hf Hl Hn]. destruct (Hn 0%nat p eq_refl) as (b & Hb & E).
  exists b. split; [done|]. split; [rewrite E; by destruct l|].
  apply NoDup_cons in Hnd as [Hp Hnd]. split; simpl; [done|done| |].
  - destruct l; [done|]. by rewrite Hl, last_cons_cons.
  - intros i a Hi. destruct (Hn (S i) a Hi) as (b' & Hb' & E'). exists b'.
    rewrite lookup_insert_ne; [done|]. intros ->. apply Hp. by eapply list_elem_of_lookup_2.
Qed.

Lemma cut_link_repr st q l p b :
  fifo_repr st q l -> p ∉ l -> st_pcbs st !! p = Some b ->
  fifo_repr (set_pcbs (<[p := set_p_next None b]> (st_pcbs st)) st) q l.
Proof.
  intros Hr Hp Hb. eapply fifo_repr_frame; [done|by apply next_only_update|]. set_solver.
Qed.

(** Both versions of the code keep the contract. *)
Lemma pop_contract st q l :
  fifo_repr st q l -> forall pop, (forall q st, pop q st = pop_front q st) ->
  wp (pop q) (fun r st' =>
    match l with
    | [] => r = (None, q) /\ st' = st
    | p :: l' => exists q', r = (Some p, q') /\ fifo_repr st' q' l' /\ next_only st st' [p]
    end) st.
Proof.
  intros Hr pop Hpop. unfold wp. rewrite Hpop. change (wp (pop_front q) (fun r st' =>
    match l with
    | [] => r = (None, q) /\ st' = st
    | p :: l' => exists q', r = (Some p, q') /\ fifo_repr st' q' l' /\ next_only st st' [p]
    end) st).
  unfold pop_front. rewrite (fr_first _ _ _ Hr). destruct l as [|p l]; simpl; [by wp_step|].
  destruct (tail_repr _ _ _ _ Hr) as (b & Hb & E & Hr').
  wp_step. eapply wp_load; [done|]. cbv zeta. wp_step. eapply wp_update; [done|]. wp_step.
  rewrite E. eexists. split; [done|]. split; [done|]. by apply next_only_update.
Qed.

#[export] Instance tail_fifo : FifoQueue push_on_tail pop_front.
Proof.
  split; [|intros; by apply pop_contract].
  intros st q l p Hr Hp [b Hb]. unfold push_on_tail.
  wp_step. eapply wp_update; [done|]. wp_step.
  set (st1 := set_pcbs _ _).
  assert (fifo_repr st1 q l) as Hr1 by (by apply cut_link_repr).
  assert (st_pcbs st1 !! p = Some (set_p_next None b)) as Hb1 by apply lookup_insert_eq.
  destruct (snoc_repr _ _ _ _ _ Hr1 Hp Hb1 eq_refl) as [Hsome Hnone].
  rewrite (fr_last _ _ _ Hr1) in *. destruct (last l) as [t|] eqn:Ht.
  - assert (t ∈ l) as Htl by (by apply last_Some_elem_of).
    destruct (fifo_repr_live _ _ _ _ Hr1 Htl) as [bt Hbt].
    wp_step. eapply wp_update; [done|]. wp_steps. split; [by apply Hsome|].
    eapply next_only_mono; [eapply next_only_trans; by apply next_only_update|]. set_solver.
  - wp_steps. simpl. split; [by apply Hnone|].
    eapply next_only_mono; [by apply next_only_update|]. set_solver.
Qed.

#[export] Instance pcb_fifo : FifoQueue insert_pcb pop_pcb.
Proof.
  split; [|intros; by apply pop_contract].
  intros st q l p Hr Hp [b Hb]. unfold insert_pcb.
  wp_step. eapply wp_update; [done|].
  set (st1 := set_pcbs _ _).
  assert (fifo_repr st1 q l) as Hr1 by (by apply cut_link_repr).
  assert (st_pcbs st1 !! p = Some (set_p_next None b)) as Hb1 by apply lookup_insert_eq.
  destruct (snoc_repr _ _ _ _ _ Hr1 Hp Hb1 eq_refl) as [Hsome Hnone].
  rewrite (fr_first _ _ _ Hr1) in *. destruct l as [|x l]; simpl.
  - wp_step. split; [by apply Hnone|].
    eapply next_only_mono; [by apply next_only_update|]. set_solver.
  - rewrite (fr_last _ _ _ Hr1). destruct (last (x :: l)) as [t|] eqn:Ht.
    2: { apply last_None in Ht. done. }
    assert (t ∈ x :: l) as Htl by (by apply last_Some_elem_of).
    destruct (fifo_repr_live _ _ _ _ Hr1 Htl) as [bt Hbt].
    wp_step. eapply wp_lift_opt; [done|]. wp_step. eapply wp_update; [done|]. wp_step.
    split; [by apply Hsome|].
    eapply next_only_mono; [eapply next_only_trans; by apply next_only_update|]. set_solver.
Qed.
