(* ===== verification/SleepHeap.v ===== *)
(** * The heap of sleeping processes ([scheduler.c])

    [sleepers] is a binary min-heap of process pointers ordered by [wake_up].
    Its array grows by doubling and shrinks by halving. *)

From S2P Require Import Prelude Machine Pcb.

(** ** Definitions *)

Definition HEAP_INIT_SIZE : Z := 20.
Definition HEAP_MIN_SIZE : Z := 5.

Record heap_t := { h_arr : list (option addr); h_length : Z; h_current_size : Z }.

Definition set_h_arr (a : list (option addr)) (h : heap_t) : heap_t :=
  {| h_arr := a; h_length := h_length h; h_current_size := h_current_size h |}.
Definition set_h_length (n : Z) (h : heap_t) : heap_t :=
  {| h_arr := h_arr h; h_length := n; h_current_size := h_current_size h |}.

(** The functions work on the C heap and on [sleepers]. *)
Abbreviation heap_st := (store * heap_t)%type.

(** [sleepers.arr[i]], to be dereferenced. *)
Definition heap_at (i : Z) : M heap_st addr := fun s =>
  match zget (h_arr s.2) i with Some (Some a) => Some (a, s) | _ => None end.
(** [sleepers.arr[i] = p]. *)
Definition heap_put (i : Z) (p : addr) : M heap_st unit := fun s =>
  match zset (h_arr s.2) i (Some p) with
  | Some arr => Some (tt, (s.1, set_h_arr arr s.2))
  | None => None
  end.

Definition compare (a b : addr) : M store bool :=
  pa ← load a;
  pb ← load b;
  mret (p_wake_up pa <? p_wake_up pb).

Definition resize_heap (size : Z) : M heap_st bool :=
  ok ← zoom malloc;
  if negb ok then mret false
  else
    modify (fun s : heap_st =>
      (s.1, {| h_arr := take (Z.to_nat (h_length s.2)) (h_arr s.2) ++
                        replicate (Z.to_nat (size - h_length s.2)) None;
               h_length := h_length s.2; h_current_size := size |}));;
    mret true.

(** The loop of [add_to_heap] that moves the new entry up. *)
Fixpoint sift_up (fuel : nat) (i : Z) : M heap_st unit :=
  match fuel with
  | O => ub
  | Datatypes.S fuel' =>
      if 0 <? i then
        let parent := (i - 1) / 2 in
        a ← heap_at parent;
        b ← heap_at i;
        less ← zoom (compare a b);
        if less : bool then mret tt
        else
          heap_put parent b;;
          heap_put i a;;
          sift_up fuel' parent
      else mret tt
  end.

Definition add_to_heap (p : addr) : M heap_st bool :=
  h ← gets snd;
  ok ← (if h_current_size h <=? h_length h then resize_heap (h_current_size h * 2) else mret true);
  if negb ok then mret false
  else
    let i := h_length h in
    heap_put i p;;
    modify (fun s : heap_st => (s.1, set_h_length (h_length s.2 + 1) s.2));;
    sift_up (Datatypes.S (Z.to_nat i)) i;;
    mret true.

(** [left < sleepers.length && compare(sleepers.arr[left], sleepers.arr[least])] *)
Definition lesser (child least : Z) : M heap_st Z :=
  h ← gets snd;
  if child <? h_length h then
    a ← heap_at child;
    b ← heap_at least;
    less ← zoom (compare a b);
    mret (if less : bool then child else least)
  else mret least.

(** The loop of [remove_from_heap]. *)
Fixpoint sift_down (fuel : nat) (i : Z) : M heap_st unit :=
  match fuel with
  | O => ub
  | Datatypes.S fuel' =>
      let left := 2 * i + 1 in
      let right := 2 * i + 2 in
      least ← lesser left i;
      least ← lesser right least;
      if least =? i then mret tt
      else
        a ← heap_at least;
        b ← heap_at i;
        heap_put least b;;
        heap_put i a;;
        sift_down fuel' least
  end.

Definition remove_from_heap : M heap_st (option addr) :=
  h ← gets snd;
  if h_length h =? 0 then mret None
  else
    to_return ← heap_at 0;
    modify (fun s : heap_st => (s.1, set_h_length (h_length s.2 - 1) s.2));;
    last ← heap_at (h_length h - 1);
    heap_put 0 last;;
    sift_down (Datatypes.S (Z.to_nat (h_length h))) 0;;
    h ← gets snd;
    if (h_length h <? h_current_size h / 2) && (HEAP_MIN_SIZE <? h_current_size h) then
      resize_heap (h_current_size h / 2);;
      mret (Some to_return)
    else mret (Some to_return).

(** ** What the heap stands for *)

(** When the process at [a] is to be woken. *)
Definition wake (st : store) (a : addr) : Z :=
  match st_pcbs st !! a with Some b => p_wake_up b | None => 0 end.

Definition key (st : store) (l : list addr) (i : nat) : Z :=
  match l !! i with Some a => wake st a | None => 0 end.

Definition parent (i : nat) : nat := ((i - 1) / 2)%nat.

Definition heap_ordered (st : store) (l : list addr) : Prop :=
  forall i, (0 < i < length l)%nat -> key st l (parent i) <= key st l i.

(** The array holds the entries [l], which are live, and has room. *)
Record heap_repr (st : store) (h : heap_t) (l : list addr) : Prop := {
  hr_arr : exists rest, h_arr h = (Some <$> l) ++ rest
    /\ Z.of_nat (length l + length rest) = h_current_size h;
  hr_length : h_length h = Z.of_nat (length l);
  hr_size : 3 <= h_current_size h;
  hr_live : forall a, a ∈ l -> is_Some (st_pcbs st !! a)
}.

(** ** Swapping two entries *)

Definition swap (l : list addr) (i j : nat) : list addr :=
  match l !! i, l !! j with
  | Some a, Some b => <[i := b]> (<[j := a]> l)
  | _, _ => l
  end.

Lemma swap_key st l i j k :
  (i < length l)%nat -> (j < length l)%nat ->
  key st (swap l i j) k = if decide (k = i) then key st l j
                          else if decide (k = j) then key st l i else key st l k.
Proof.
  intros Hi Hj. unfold swap, key.
  destruct (lookup_lt_is_Some_2 l i Hi) as [a Ha], (lookup_lt_is_Some_2 l j Hj) as [b Hb].
  rewrite Ha, Hb. case_decide; subst.
  - rewrite list_lookup_insert_eq by (by rewrite length_insert). done.
  - rewrite list_lookup_insert_ne by done. case_decide; subst.
    + rewrite list_lookup_insert_eq by done. done.
    + by rewrite list_lookup_insert_ne.
Qed.
Lemma swap_length l i j : length (swap l i j) = length l.
Proof. unfold swap. destruct (l !! i), (l !! j); by rewrite ?length_insert. Qed.

Lemma swap_perm l i j : (i < length l)%nat -> (j < length l)%nat -> swap l i j ≡ₚ l.
Proof.
  intros Hi Hj. unfold swap.
  destruct (lookup_lt_is_Some_2 l i Hi) as [a Ha], (lookup_lt_is_Some_2 l j Hj) as [b Hb].
  rewrite Ha, Hb. apply Permutation_inj. split; [by rewrite !length_insert|].
  exists (fun k => if decide (k = i) then j else if decide (k = j) then i else k). split.
  - intros x y. repeat case_decide; congruence.
  - intros k. repeat case_decide; subst.
    + by rewrite list_lookup_insert_eq by (by rewrite length_insert).
    + rewrite list_lookup_insert_ne by done. by rewrite list_lookup_insert_eq.
    + by rewrite !list_lookup_insert_ne.
Qed.

Lemma parent_lt i : (0 < i)%nat -> (parent i < i)%nat.
Proof. intros. unfold parent. pose proof (Nat.div_mod (i - 1) 2). lia. Qed.
Lemma parent_children i j : (0 < j)%nat -> parent j = i <-> (j = 2 * i + 1 \/ j = 2 * i + 2)%nat.
Proof.
  intros. unfold parent. pose proof (Nat.div_mod (j - 1) 2). pose proof (Nat.mod_upper_bound (j - 1) 2). lia.
Qed.

(** *** The orders the loops keep *)

(** Ordered, but for the entry at [i], which may be too small. *)
Definition small_at (st : store) (l : list addr) (i : nat) : Prop :=
  (forall j, (0 < j < length l)%nat -> j <> i -> key st l (parent j) <= key st l j) /\
  (forall j, (0 < j < length l)%nat -> (0 < i)%nat -> parent j = i ->
     key st l (parent i) <= key st l j).

(** Ordered, but for the entry at [i], which may be too big. *)
Definition big_at (st : store) (l : list addr) (i : nat) : Prop :=
  (forall j, (0 < j < length l)%nat -> parent j <> i -> key st l (parent j) <= key st l j) /\
  (forall j, (0 < j < length l)%nat -> (0 < i)%nat -> parent j = i ->
     key st l (parent i) <= key st l j).

Lemma small_at_done st l i :
  small_at st l i -> (i = 0%nat \/ key st l (parent i) <= key st l i) -> heap_ordered st l.
Proof.
  intros [H1 _] H2 j Hj. destruct (decide (j = i)) as [->|]; [|by apply H1].
  destruct H2 as [->|]; [lia|done].
Qed.

Lemma small_at_step st l i :
  small_at st l i -> (0 < i < length l)%nat -> key st l i <= key st l (parent i) ->
  small_at st (swap l (parent i) i) (parent i).
Proof.
  intros [H1 H2] Hi Hk. pose proof (parent_lt i) as Hp.
  split; intros j; rewrite swap_length; intros Hj.
  - intros Hne. rewrite !swap_key by lia. rewrite (decide_False (P := j = parent i)) by done.
    destruct (decide (j = i)) as [->|].
    + rewrite !decide_True by done. done.
    + specialize (H1 j Hj n). destruct (decide (parent j = parent i)) as [E|].
      * rewrite <- E in *. lia.
      * case_decide as E; [|done]. specialize (H2 j Hj). rewrite <- E in *. apply H2; [lia|done].
  - intros Hpos Hpj. pose proof (parent_lt (parent i)). rewrite !swap_key by lia.
    rewrite !(decide_False (P := parent (parent i) = _)) by lia.
    specialize (H1 (parent i)) as Hpp. pose proof (parent_lt j).
    rewrite (decide_False (P := j = parent i)) by lia.
    case_decide as E; [apply Hpp; lia|]. specialize (H1 j Hj E). rewrite Hpj in H1.
    specialize (Hpp ltac:(lia) ltac:(lia)). lia.
Qed.

Lemma big_at_done st l i :
  big_at st l i ->
  (forall j, (0 < j < length l)%nat -> parent j = i -> key st l i <= key st l j) ->
  heap_ordered st l.
Proof.
  intros [H1 _] H2 j Hj. destruct (decide (parent j = i)) as [E|]; [|by apply H1].
  rewrite E. by apply H2.
Qed.

Lemma big_at_step st l i c :
  big_at st l i -> (0 < c < length l)%nat -> parent c = i ->
  (forall j, (0 < j < length l)%nat -> parent j = i -> key st l c <= key st l j) ->
  key st l c <= key st l i ->
  big_at st (swap l c i) c.
Proof.
  intros [H1 H2] Hc Hpc Hmin Hk. pose proof (parent_lt c) as Hlt.
  split; intros j; rewrite swap_length; intros Hj; pose proof (parent_lt j).
  - intros Hne. rewrite !swap_key by lia. rewrite (decide_False (P := parent j = c)) by done.
    destruct (decide (parent j = i)) as [E|].
    + destruct (decide (j = c)); [done|]. rewrite (decide_False (P := j = i)) by lia. by apply Hmin.
    + destruct (decide (j = c)) as [->|]; [done|]. case_decide as E'.
      * subst j. specialize (H2 c Hc). rewrite Hpc in H2. apply H2; [lia|done].
      * by apply H1.
  - intros Hpos Hpj. rewrite !swap_key by lia. rewrite Hpc.
    rewrite (decide_False (P := i = c)), (decide_True (P := i = i)) by lia.
    rewrite !(decide_False (P := j = _)) by lia.
    specialize (H1 j Hj). rewrite Hpj in H1. apply H1. lia.
Qed.

Lemma ordered_root st l i :
  heap_ordered st l -> (i < length l)%nat -> key st l 0 <= key st l i.
Proof.
  intros Ho. induction i as [i IH] using (well_founded_induction Nat.lt_wf_0). intros Hi.
  destruct i as [|i]; [lia|]. pose proof (parent_lt (S i)).
  specialize (IH (parent (S i)) ltac:(lia) ltac:(lia)). specialize (Ho (S i) ltac:(lia)). lia.
Qed.

Lemma swap_comm l i j : i <> j -> swap l i j = swap l j i.
Proof.
  intros. unfold swap. destruct (l !! i), (l !! j); try done. by apply list_insert_insert_ne.
Qed.

(** ** Specifications *)

Lemma compare_ok st a b Q :
  is_Some (st_pcbs st !! a) -> is_Some (st_pcbs st !! b) ->
  Q (wake st a <? wake st b) st -> wp (compare a b) Q st.
Proof.
  intros [pa Ha] [pb Hb] HQ. unfold compare. wp_step. eapply wp_load; [done|].
  wp_step. eapply wp_load; [done|]. wp_step. unfold wake in HQ. by rewrite Ha, Hb in HQ.
Qed.

Lemma key_at st l i a : l !! i = Some a -> key st l i = wake st a.
Proof. unfold key. by intros ->. Qed.

Section array_steps.
Context (st : store) (h : heap_t) (l : list addr).
Hypothesis Hr : heap_repr st h l.

Lemma heap_at_ok (i : nat) a (Q : addr -> heap_st -> Prop) :
  l !! i = Some a -> Q a (st, h) -> wp (heap_at (Z.of_nat i)) Q (st, h).
Proof.
  intros Hi HQ. unfold wp, heap_at. simpl. destruct (hr_arr _ _ _ Hr) as (rest & -> & _).
  rewrite zget_nat, lookup_app_l, list_lookup_fmap, Hi; [done|].
  rewrite length_fmap. by eapply lookup_lt_Some.
Qed.

Lemma heap_put_ok (i : nat) p (Q : unit -> heap_st -> Prop) :
  (i < length l)%nat -> is_Some (st_pcbs st !! p) ->
  (forall h', heap_repr st h' (<[i := p]> l) -> h_length h' = h_length h ->
     h_current_size h' = h_current_size h -> Q tt (st, h')) ->
  wp (heap_put (Z.of_nat i) p) Q (st, h).
Proof.
  intros Hi Hp HQ. unfold wp, heap_put. simpl. destruct (hr_arr _ _ _ Hr) as (rest & Ha & Hs).
  rewrite zset_inside, Nat2Z.id by (unfold zlen; rewrite Ha, length_app, length_fmap; lia).
  apply HQ; [|done|done]. rewrite Ha. split; simpl.
  - exists rest. rewrite length_insert, insert_app_l by (by rewrite length_fmap).
    by rewrite list_fmap_insert.
  - rewrite length_insert. apply Hr.
  - apply Hr.
  - intros a [j Hj]%list_elem_of_lookup_1. apply list_lookup_insert_Some in Hj as [(? & -> & ?)|[? Hj]].
    + done.
    + apply (hr_live _ _ _ Hr). by eapply list_elem_of_lookup_2.
Qed.
End array_steps.

(** What a loop leaves: the same entries, in heap order. *)
Definition sifted (st : store) (h : heap_t) (l : list addr) (s : heap_st) : Prop :=
  s.1 = st /\ exists l', heap_repr st s.2 l' /\ l' ≡ₚ l /\ heap_ordered st l' /\
    h_length s.2 = h_length h /\ h_current_size s.2 = h_current_size h.

Lemma sifted_perm st h h' l l' s :
  sifted st h l s -> l ≡ₚ l' -> h_length h = h_length h' -> h_current_size h = h_current_size h' ->
  sifted st h' l' s.
Proof.
  intros (? & l1 & ? & Hl & ? & ? & ?) Hp ? ?. split; [done|]. exists l1.
  split; [done|]. split; [by rewrite Hl|]. repeat split; [done|congruence..].
Qed.

(** Exchanging the entries [i] and [j] of the array. *)
Lemma exchange_ok st h l (i j : nat) a b (m : M heap_st unit) Q :
  heap_repr st h l -> i <> j -> l !! i = Some a -> l !! j = Some b ->
  (forall h', heap_repr st h' (swap l i j) -> h_length h' = h_length h ->
     h_current_size h' = h_current_size h -> wp m Q (st, h')) ->
  wp (heap_put (Z.of_nat i) b;; heap_put (Z.of_nat j) a;; m) Q (st, h).
Proof.
  intros Hr Hne Hi Hj HQ. pose proof (lookup_lt_Some _ _ _ Hi). pose proof (lookup_lt_Some _ _ _ Hj).
  wp_step. eapply heap_put_ok; [done|done| |].
  { apply (hr_live _ _ _ Hr). by eapply list_elem_of_lookup_2. }
  intros h1 Hr1 ? ?. wp_step. eapply heap_put_ok; [done|by rewrite length_insert| |].
  { apply (hr_live _ _ _ Hr). by eapply list_elem_of_lookup_2. }
  intros h2 Hr2 ? ?. apply HQ; [|congruence..].
  rewrite swap_comm by done. unfold swap. by rewrite Hi, Hj.
Qed.

Lemma sift_up_ok fuel : forall st h l (i : nat),
  heap_repr st h l -> (i < length l)%nat -> small_at st l i -> (i < fuel)%nat ->
  wp (sift_up fuel (Z.of_nat i)) (fun _ s => sifted st h l s) (st, h).
Proof.
  induction fuel as [|fuel IH]; intros st h l i Hr Hi Hsm Hf; [lia|]. simpl.
  destruct (Z.ltb_spec 0 (Z.of_nat i)).
  2: { wp_step. split; [done|]. exists l. repeat split; try done; [apply Hr..|].
       eapply small_at_done; [done|]. left. lia. }
  assert ((Z.of_nat i - 1) / 2 = Z.of_nat (parent i)) as ->
    by (unfold parent; rewrite Nat2Z.inj_div; f_equal; lia).
  pose proof (parent_lt i ltac:(lia)) as Hp.
  destruct (lookup_lt_is_Some_2 l (parent i)) as [a Ha]; [lia|].
  destruct (lookup_lt_is_Some_2 l i) as [b Hb]; [lia|].
  wp_step. eapply heap_at_ok; [done..|]. wp_step. eapply heap_at_ok; [done..|].
  wp_steps. apply compare_ok; [apply (hr_live _ _ _ Hr); by eapply list_elem_of_lookup_2..|].
  simpl. rewrite <- (key_at st l _ _ Ha), <- (key_at st l _ _ Hb). wp_if; simp_bool.
  - wp_step. split; [done|]. exists l. repeat split; try done; [apply Hr..|].
    eapply small_at_done; [done|]. right. lia.
  - eapply exchange_ok; [done|lia|done|done|]. intros h' Hr' ? ?.
    eapply wp_mono; [apply IH; [done| | |]|].
    + rewrite swap_length. lia.
    + apply small_at_step; [done|lia|lia].
    + lia.
    + intros [] s Hs. eapply sifted_perm; [done|apply swap_perm; lia|done|done].
Qed.

Lemma lesser_ok st h l (c i : nat) Q :
  heap_repr st h l -> (i < length l)%nat ->
  Q (if decide ((c < length l)%nat /\ key st l c < key st l i) then Z.of_nat c else Z.of_nat i) (st, h) ->
  wp (lesser (Z.of_nat c) (Z.of_nat i)) Q (st, h).
Proof.
  intros Hr Hi HQ. unfold lesser. wp_steps. simpl. rewrite (hr_length _ _ _ Hr).
  wp_if; simp_bool.
  - destruct (lookup_lt_is_Some_2 l c) as [a Ha]; [lia|].
    destruct (lookup_lt_is_Some_2 l i) as [b Hb]; [lia|].
    wp_step. eapply heap_at_ok; [done..|]. wp_step. eapply heap_at_ok; [done..|].
    wp_steps. apply compare_ok; [apply (hr_live _ _ _ Hr); by eapply list_elem_of_lookup_2..|].
    simpl. rewrite <- (key_at st l _ _ Ha), <- (key_at st l _ _ Hb). wp_step.
    case_decide as E1.
    + by rewrite (proj2 (Z.ltb_lt _ _)) by lia.
    + rewrite (proj2 (Z.ltb_ge _ _)) by lia. done.
  - wp_step. by rewrite decide_False in HQ by lia.
Qed.

Lemma sift_down_ok fuel : forall st h l (i : nat),
  heap_repr st h l -> (i < length l)%nat -> big_at st l i -> (length l - i < fuel)%nat ->
  wp (sift_down fuel (Z.of_nat i)) (fun _ s => sifted st h l s) (st, h).
Proof.
  induction fuel as [|fuel IH]; intros st h l i Hr Hi Hbig Hf; [lia|]. simpl.
  replace (2 * Z.of_nat i + 1) with (Z.of_nat (2 * i + 1)) by lia.
  replace (2 * Z.of_nat i + 2) with (Z.of_nat (2 * i + 2)) by lia.
  wp_step. eapply lesser_ok; [done|done|].
  set (c1 := if decide _ then _ else _).
  assert (exists c : nat, c1 = Z.of_nat c /\ (c = i \/ c = 2 * i + 1)%nat /\ (c < length l)%nat /\
    key st l c <= key st l i /\
    ((2 * i + 1 < length l)%nat -> key st l c <= key st l (2 * i + 1)%nat)) as (c & -> & Hc & Hcl & Hk & Hk1).
  { unfold c1. case_decide; eexists; (split; [done|]); repeat split; try lia; auto. }
  wp_step. eapply lesser_ok; [done|done|].
  set (c2 := if decide _ then _ else _).
  assert (exists d : nat, c2 = Z.of_nat d /\ (d = i \/ d = 2 * i + 1 \/ d = 2 * i + 2)%nat /\
    (d < length l)%nat /\ key st l d <= key st l i /\
    (forall j, (0 < j < length l)%nat -> parent j = i -> key st l d <= key st l j))
    as (d & -> & Hd & Hdl & Hkd & Hmin).
  { unfold c2. case_decide as E; eexists; (split; [done|]); repeat split; try lia;
      intros j Hj [-> | ->]%parent_children; try lia. }
  destruct (Z.eqb_spec (Z.of_nat d) (Z.of_nat i)) as [E|E].
  - assert (d = i) as -> by lia. wp_step. split; [done|]. exists l.
    repeat split; try done; [apply Hr..|]. eapply big_at_done; [done|]. done.
  - destruct (lookup_lt_is_Some_2 l d) as [a Ha]; [lia|].
    destruct (lookup_lt_is_Some_2 l i) as [b Hb]; [lia|].
    wp_step. eapply heap_at_ok; [done..|]. wp_step. eapply heap_at_ok; [done..|].
    eapply exchange_ok; [done|lia|done|done|]. intros h' Hr' ? ?.
    eapply wp_mono; [apply IH; [done| | |]|].
    + rewrite swap_length. lia.
    + apply big_at_step; [done|lia| |done|done]. apply parent_children; lia.
    + rewrite swap_length. lia.
    + intros [] s Hs. eapply sifted_perm; [done|apply swap_perm; lia|done|done].
Qed.

Lemma lesser_none (s : heap_st) child i : h_length s.2 <= child -> lesser child i s = Some (i, s).
Proof.
  intros. unfold lesser, mbind, M_bind, gets. by rewrite (proj2 (Z.ltb_ge _ _)).
Qed.
Lemma sift_down_empty st h fuel :
  h_length h = 0 -> sift_down (S fuel) 0 (st, h) = Some (tt, (st, h)).
Proof.
  intros E. cbn [sift_down]. unfold mbind, M_bind. by rewrite !lesser_none by (simpl; lia).
Qed.

#[local] Arguments sift_up : simpl never.
#[local] Arguments sift_down : simpl never.

(** The order depends on the heap only through the blocks. *)
Lemma wake_same st st' a : st_pcbs st' = st_pcbs st -> wake st' a = wake st a.
Proof. unfold wake. by intros ->. Qed.
Lemma key_same st st' l i : st_pcbs st' = st_pcbs st -> key st' l i = key st l i.
Proof. intros. unfold key. destruct (l !! i); [by apply wake_same|done]. Qed.
Lemma heap_ordered_same st st' l :
  st_pcbs st' = st_pcbs st -> heap_ordered st l -> heap_ordered st' l.
Proof. intros E Ho i Hi. rewrite !(key_same _ _ _ _ E). by apply Ho. Qed.
Lemma heap_repr_same st st' h l : st_pcbs st' = st_pcbs st -> heap_repr st h l -> heap_repr st' h l.
Proof. intros E [? ? ? ?]. split; try done. by rewrite E. Qed.

Lemma resize_heap_ok st h l size :
  heap_repr st h l -> Z.of_nat (length l) <= size -> 3 <= size ->
  wp (resize_heap size) (fun ok s => same_blocks st s.1 /\ heap_repr s.1 s.2 l /\
    if ok : bool then h_length s.2 = h_length h /\ h_current_size s.2 = size else s.2 = h) (st, h).
Proof.
  intros Hr Hl Hs. unfold resize_heap. wp_steps. apply wp_malloc. intros ok st' Hsb. simpl.
  pose proof (heap_repr_same _ _ _ _ (proj1 Hsb) Hr) as Hr'.
  destruct ok; simpl; [|by wp_step]. wp_steps. simpl. split; [done|]. split; [|done].
  destruct (hr_arr _ _ _ Hr) as (rest & -> & Hsz). rewrite (hr_length _ _ _ Hr).
  split; simpl; [|done|done|apply Hr']. eexists. split.
  - rewrite Nat2Z.id, firstn_app, length_fmap, Nat.sub_diag, take_ge by (by rewrite length_fmap).
    rewrite firstn_O, app_nil_r. done.
  - rewrite length_replicate. lia.
Qed.

Lemma heap_append st h l p :
  heap_repr st h l -> Z.of_nat (length l) < h_current_size h -> is_Some (st_pcbs st !! p) ->
  exists h', heap_put (Z.of_nat (length l)) p (st, h) = Some (tt, (st, h')) /\
    heap_repr st (set_h_length (h_length h' + 1) h') (l ++ [p]).
Proof.
  intros Hr Hlt Hp. destruct (hr_arr _ _ _ Hr) as (rest & Ha & Hsz).
  destruct rest as [|x rest]; [simpl in *; lia|].
  unfold heap_put. simpl. rewrite Ha. replace (Z.of_nat (length l)) with (zlen (Some <$> l))
    by (unfold zlen; by rewrite length_fmap). rewrite zset_app_cons.
  eexists. split; [done|]. split; simpl.
  - exists rest. rewrite fmap_app, <- app_assoc. split; [done|]. rewrite length_app. simpl in *. lia.
  - rewrite (hr_length _ _ _ Hr), length_app. simpl. lia.
  - apply Hr.
  - intros a [?| ->%list_elem_of_singleton]%elem_of_app; [by apply Hr|done].
Qed.

Lemma small_at_append st l p : heap_ordered st l -> small_at st (l ++ [p]) (length l).
Proof.
  intros Ho.
  assert (forall j, (j < length l)%nat -> key st (l ++ [p]) j = key st l j) as Hkey.
  { intros j Hj. unfold key. by rewrite lookup_app_l. }
  split; intros j; rewrite length_app; simpl; intros Hj; pose proof (parent_lt j).
  - intros. rewrite !Hkey by lia. apply Ho. lia.
  - intros. lia.
Qed.

Lemma add_to_heap_ok st h l p :
  heap_repr st h l -> heap_ordered st l -> is_Some (st_pcbs st !! p) ->
  wp (add_to_heap p) (fun ok s => same_blocks st s.1 /\
    if ok : bool then exists l', heap_repr s.1 s.2 l' /\ l' ≡ₚ p :: l /\ heap_ordered s.1 l'
    else s.2 = h) (st, h).
Proof.
  intros Hr Ho Hp. unfold add_to_heap. wp_steps. simpl.
  assert (wp (if h_current_size h <=? h_length h then resize_heap (h_current_size h * 2) else mret true)
    (fun ok s => same_blocks st s.1 /\ heap_repr s.1 s.2 l /\
       if ok : bool then Z.of_nat (length l) < h_current_size s.2 /\ h_length s.2 = h_length h
       else s.2 = h) (st, h)) as Hgrow.
  { pose proof (hr_size _ _ _ Hr). pose proof (hr_length _ _ _ Hr) as Hl.
    destruct (hr_arr _ _ _ Hr) as (rest & _ & Hsz).
    wp_if; simp_bool.
    - eapply wp_mono; [eapply resize_heap_ok; [done|lia|lia]|]. intros [] s; simpl; [|naive_solver].
      intros (? & ? & ? & ->). do 2 (split; [done|]). lia.
    - wp_step. do 2 (split; [done|]). simpl. lia. }
  eapply wp_mono; [exact Hgrow|]. intros [] [st1 h1]; simpl; intros (Hsb & Hr1 & Hres); [|by wp_step].
  destruct Hres as [Hlt Hlen].
  assert (is_Some (st_pcbs st1 !! p)) as Hp1 by (by rewrite (proj1 Hsb)).
  pose proof (heap_ordered_same _ _ _ (proj1 Hsb) Ho) as Ho1.
  destruct (heap_append _ _ _ _ Hr1 Hlt Hp1) as (h2 & Hput & Hr2).
  rewrite <- Hlen, (hr_length _ _ _ Hr1). wp_step. unfold wp at 1. rewrite Hput.
  wp_step. apply wp_modify. simpl. wp_step. rewrite Nat2Z.id.
  eapply wp_mono; [eapply (sift_up_ok _ _ _ _ (length l) Hr2)|].
  - rewrite length_app. simpl. lia.
  - by apply small_at_append.
  - lia.
  - intros [] [st3 h3] (Hst & l' & Hr3 & Hperm & Ho3 & _). simpl in *. subst st3. wp_step. simpl.
    split; [done|]. exists l'. split; [done|]. split; [|done].
    rewrite Hperm. symmetry. apply Permutation_cons_append.
Qed.

(** Taking the first entry off: the last one takes its place. *)
Lemma heap_pop_front st h a m b :
  heap_repr st h (a :: m ++ [b]) ->
  exists h', heap_put 0 b (st, set_h_length (h_length h - 1) h) = Some (tt, (st, h')) /\
    heap_repr st h' (b :: m).
Proof.
  intros Hr. destruct (hr_arr _ _ _ Hr) as (rest & Ha & Hsz).
  unfold heap_put. simpl. rewrite Ha. unfold zset. simpl. eexists. split; [done|].
  split; simpl.
  - exists (Some b :: rest). rewrite fmap_app, <- app_assoc. split; [done|].
    simpl in *. rewrite length_app in Hsz. simpl in *. lia.
  - rewrite (hr_length _ _ _ Hr). simpl. rewrite length_app. simpl. lia.
  - apply Hr.
  - intros x Hx. apply (hr_live _ _ _ Hr). set_solver.
Qed.

Lemma big_at_root st a m b : heap_ordered st (a :: m ++ [b]) -> big_at st (b :: m) 0.
Proof.
  intros Ho. split; intros j Hj; [|lia]. intros Hp. pose proof (parent_lt j).
  assert (forall k, (0 < k < length (b :: m))%nat ->
    key st (b :: m) k = key st (a :: m ++ [b]) k) as Hk.
  { intros [|k] Hk; [lia|]. unfold key. simpl in *. by rewrite lookup_app_l by lia. }
  rewrite !Hk by (simpl in *; lia). apply Ho. simpl in *. rewrite length_app. simpl. lia.
Qed.

Lemma remove_from_heap_ok st h l :
  heap_repr st h l -> heap_ordered st l ->
  wp remove_from_heap (fun r s => same_blocks st s.1 /\
    match r with
    | None => l = [] /\ s = (st, h)
    | Some a => exists l', heap_repr s.1 s.2 l' /\ l ≡ₚ a :: l' /\ heap_ordered s.1 l' /\
        forall x, x ∈ l -> wake st a <= wake st x
    end) (st, h).
Proof.
  intros Hr Ho. unfold remove_from_heap. wp_steps. simpl. pose proof (hr_length _ _ _ Hr) as Hlen.
  destruct l as [|a t]; simpl in Hlen.
  { rewrite Hlen. simpl. by wp_step. }
  rewrite (proj2 (Z.eqb_neq _ _)) by lia.
  assert (forall x, x ∈ a :: t -> wake st a <= wake st x) as Hmin.
  { intros x [i Hi]%list_elem_of_lookup_1.
    pose proof (ordered_root _ _ i Ho (lookup_lt_Some _ _ _ Hi)) as Hk.
    unfold key in Hk. by rewrite Hi in Hk. }
  wp_step. eapply (heap_at_ok _ _ _ Hr 0); [done|]. wp_steps. simpl.
  assert (exists l2 h2, wp (last ← heap_at (h_length h - 1); heap_put 0 last;;
      sift_down (S (Z.to_nat (h_length h))) 0) (fun _ s => s = (st, h2))
      (st, set_h_length (h_length h - 1) h) /\ heap_repr st h2 l2 /\ l2 ≡ₚ t /\ heap_ordered st l2)
    as (l2 & h2 & Hsift & Hr2 & Hp2 & Ho2).
  { destruct t as [|b m _] using rev_ind.
    - assert (h_length h = 1) as H1 by done. rewrite H1.
      destruct (hr_arr _ _ _ Hr) as (rest & Ha & Hsz). simpl in *.
      exists [], (set_h_arr (Some a :: rest) (set_h_length 0 h)). split; [|split; [|split; [done|]]].
      + wp_step. unfold wp at 1, heap_at. simpl. rewrite Ha. simpl. wp_step.
        unfold wp at 1, heap_put. simpl. rewrite Ha. simpl. unfold wp. by rewrite sift_down_empty.
      + split; simpl; [exists (Some a :: rest); simpl; split; [done|lia]|done|apply Hr|set_solver].
      + intros i Hi. simpl in Hi. lia.
    - destruct (heap_pop_front _ _ _ _ _ Hr) as (h1 & Hput & Hr1).
      assert (wp (sift_down (S (Z.to_nat (h_length h))) (Z.of_nat 0))
        (fun _ s => sifted st h1 (b :: m) s) (st, h1)) as Hw.
      { eapply sift_down_ok; [done|simpl; lia|by eapply big_at_root|].
        rewrite Hlen, length_app. simpl. lia. }
      apply wp_run in Hw as ([] & [st3 h3] & Hrun & Hst & l3 & Hr3 & Hp3 & Ho3 & _).
      simpl in *. subst st3. exists l3, h3. split; [|split; [done|split; [|done]]].
      + wp_step. assert (heap_at (h_length h - 1) (st, set_h_length (h_length h - 1) h) =
          Some (b, (st, set_h_length (h_length h - 1) h))) as Hat.
        { destruct (hr_arr _ _ _ Hr) as (rest & Ha & _). unfold heap_at. simpl. rewrite Ha, Hlen.
          replace (Z.of_nat (S (length (m ++ [b]))) - 1) with (Z.of_nat (length (a :: m)))
            by (rewrite length_app; simpl; lia).
          rewrite zget_nat, lookup_app_l by (simpl; rewrite length_fmap, length_app; simpl; lia).
          simpl. rewrite list_lookup_fmap, lookup_app_r, Nat.sub_diag by lia. done. }
        unfold wp at 1. rewrite Hat. wp_step. unfold wp at 1. rewrite Hput.
        unfold wp. change (Z.of_nat 0) with 0 in Hrun. by rewrite Hrun.
      + rewrite Hp3. apply Permutation_cons_append. }
  apply wp_bind_inv in Hsift. eapply wp_mono; [exact Hsift|]. intros last s Hs. simpl in Hs.
  apply wp_bind_inv in Hs. wp_step. eapply wp_mono; [exact Hs|]. intros [] s' Hs'. simpl in Hs'.
  wp_step. eapply wp_mono; [exact Hs'|]. intros [] s'' ->. wp_steps. simpl.
  assert (a :: t ≡ₚ a :: l2) as Hperm by (by rewrite Hp2).
  wp_if; simp_bool.
  2: { wp_step. simpl. split; [done|]. exists l2. done. }
  unfold HEAP_MIN_SIZE in *. pose proof (hr_length _ _ _ Hr2).
  wp_step. eapply wp_mono; [eapply resize_heap_ok; [done|zdiv|zdiv]|].
  intros ok [st4 h4] (Hsb & Hr4 & _). simpl in *. wp_step. simpl. split; [done|].
  exists l2. repeat split; try done; [apply Hr4..|]. by eapply heap_ordered_same; [apply Hsb|].
Qed.

(** ** A concrete heap: process 1 is to be woken at tick 5, process 2 at tick 9;
    process 3, to be woken at tick 3, is not in it. *)
Definition sleeping_pcb (t : Z) : pcb := set_p_wake_up t pcb_zero.
Definition demo_sleepers : store :=
  {| st_pcbs := {[ 1%positive := sleeping_pcb 5; 2%positive := sleeping_pcb 9;
                   3%positive := sleeping_pcb 3 ]};
     st_next := 4; st_malloc := [true; false]; st_pid_calls := [] |}.
Definition demo_heap : heap_t :=
  {| h_arr := [Some 1%positive; Some 2%positive; None]; h_length := 2; h_current_size := 3 |}.

Lemma demo_heap_repr : heap_repr demo_sleepers demo_heap [1%positive; 2%positive].
Proof.
  split; try done.
  - by exists [None].
  - intros a [->|[->|[]%not_elem_of_nil]%elem_of_cons]%elem_of_cons; by eexists.
Defined.
Lemma demo_heap_ordered : heap_ordered demo_sleepers [1%positive; 2%positive].
Proof. intros [|[|i]] [? Hi]; simpl in *; [lia|vm_compute; done|lia]. Defined.

(** ** Properties *)



(** [remove_from_heap] gives a process of the heap that is to be woken no
    later than any other, takes exactly that one out, and leaves the rest in
    heap order, also when the smaller array it then asks for is refused; on the
    empty heap it gives NULL and changes nothing. *)
Theorem remove_from_heap_earliest (st : store) (h : heap_t) (l : list addr) :
  heap_repr st h l -> heap_ordered st l ->
  exists r st' h', remove_from_heap (st, h) = Some (r, (st', h')) /\ st_pcbs st' = st_pcbs st /\
    match r with
    | None => l = [] /\ h' = h
    | Some a => (forall x, x ∈ l -> wake st a <= wake st x) /\
        exists l', l ≡ₚ a :: l' /\ heap_repr st' h' l' /\ heap_ordered st' l'
    end.
Proof.
  intros Hr Ho. destruct (proj1 (wp_run _ _ _) (remove_from_heap_ok st h l Hr Ho))
    as (r & [st' h'] & Hrun & [Hsb _] & Hres). exists r, st', h'. do 2 (split; [done|]).
  destruct r as [a|]; [|naive_solver]. destruct Hres as (l' & ? & ? & ? & ?).
  split; [done|]. by exists l'.
Qed.

Lemma remove_from_heap_earliest_witness :
  exists r st' h', remove_from_heap (demo_sleepers, demo_heap) = Some (r, (st', h')) /\
    r = Some 1%positive /\ h_length h' = 1.
Proof.
  destruct (remove_from_heap_earliest demo_sleepers demo_heap [1%positive; 2%positive]
    demo_heap_repr demo_heap_ordered) as (r & st' & h' & Hrun & _).
  exists r, st', h'. split; [exact Hrun|]. vm_compute in Hrun. injection Hrun as <- <- <-. by split.
Defined.
