(* ===== verification/Scheduler.v ===== *)
(** * The scheduler ([scheduler.c])

    The ready queue, the queue of the processes blocked in [Wait], the heap of
    the sleepers, the clock, the running and the idle process.  [sched_inv]
    says what the static variables stand for: the lists of the ready, waiting
    and sleeping processes, no process being in two places. *)

From Stdlib Require Import Sorted.
From S2P Require Import Prelude Machine Pcb Fifo SleepHeap.

(** ** Definitions *)

Record queue_t := { qu_ends : fifo; qu_length : Z }.
Definition queue_empty : queue_t := {| qu_ends := fifo_empty; qu_length := 0 |}.

Inductive queue_type := MAIN_QUEUE | WAIT_BLOCKING_QUEUE | IO_BLOCKING_QUEUE.

Record sched_t := {
  sleepers : heap_t;
  num_ticks : Z;
  running_proc : option addr;
  idle_proc : option addr;
  main_queue : queue_t;
  wait_queue : queue_t;
  io_queue : queue_t
}.

Definition set_sleepers (h : heap_t) (s : sched_t) : sched_t :=
  {| sleepers := h; num_ticks := num_ticks s; running_proc := running_proc s;
     idle_proc := idle_proc s; main_queue := main_queue s; wait_queue := wait_queue s;
     io_queue := io_queue s |}.
Definition set_num_ticks (n : Z) (s : sched_t) : sched_t :=
  {| sleepers := sleepers s; num_ticks := n; running_proc := running_proc s;
     idle_proc := idle_proc s; main_queue := main_queue s; wait_queue := wait_queue s;
     io_queue := io_queue s |}.
Definition set_running (p : option addr) (s : sched_t) : sched_t :=
  {| sleepers := sleepers s; num_ticks := num_ticks s; running_proc := p;
     idle_proc := idle_proc s; main_queue := main_queue s; wait_queue := wait_queue s;
     io_queue := io_queue s |}.

(** [queues[type]]. *)
Definition queue (type : queue_type) (s : sched_t) : queue_t :=
  match type with
  | MAIN_QUEUE => main_queue s
  | WAIT_BLOCKING_QUEUE => wait_queue s
  | IO_BLOCKING_QUEUE => io_queue s
  end.
Definition set_queue (type : queue_type) (q : queue_t) (s : sched_t) : sched_t :=
  {| sleepers := sleepers s; num_ticks := num_ticks s; running_proc := running_proc s;
     idle_proc := idle_proc s;
     main_queue := match type with MAIN_QUEUE => q | _ => main_queue s end;
     wait_queue := match type with WAIT_BLOCKING_QUEUE => q | _ => wait_queue s end;
     io_queue := match type with IO_BLOCKING_QUEUE => q | _ => io_queue s end |}.

(** The functions work on the C heap and on the static variables. *)
Abbreviation sched_st := (store * sched_t)%type.

#[export] Instance sleepers_lens : Lens heap_st sched_st :=
  {| lget := fun s => (s.1, sleepers s.2); lset := fun h s => (h.1, set_sleepers h.2 s.2) |}.

Definition get_running_proc : M sched_st (option addr) := gets (fun s => running_proc s.2).
Definition set_running_proc (new_proc : addr) : M sched_st unit :=
  modify (fun s : sched_st => (s.1, set_running (Some new_proc) s.2)).
Definition increment_ticks : M sched_st unit :=
  modify (fun s : sched_st => (s.1, set_num_ticks (to_i32 (num_ticks s.2 + 1)) s.2)).

Definition init_scheduler (idle_pcb : addr) : M sched_st bool :=
  ok ← zoom malloc;
  modify (fun s : sched_st => (s.1,
    {| sleepers := {| h_arr := if ok : bool then replicate (Z.to_nat HEAP_INIT_SIZE) None else [];
                      h_length := 0; h_current_size := HEAP_INIT_SIZE |};
       num_ticks := num_ticks s.2; running_proc := Some idle_pcb; idle_proc := Some idle_pcb;
       main_queue := queue_empty; wait_queue := queue_empty; io_queue := queue_empty |}));;
  mret ok.

Definition enque_process (type : queue_type) (pcb : addr) : M sched_st unit :=
  q ← gets (fun s : sched_st => queue type s.2);
  ends ←
    (if qu_length q =? 0 then mret {| q_first := Some pcb; q_last := Some pcb |}
     else
       last ← lift_opt (q_last (qu_ends q));
       zoom (update last (set_p_next (Some pcb)));;
       mret {| q_first := q_first (qu_ends q); q_last := Some pcb |});
  zoom (update pcb (set_p_next None));;
  modify (fun s : sched_st =>
    (s.1, set_queue type {| qu_ends := ends; qu_length := qu_length q + 1 |} s.2)).

Definition deque_process : M sched_st (option addr) :=
  q ← gets (fun s : sched_st => main_queue s.2);
  if qu_length q =? 0 then mret None
  else
    popped ← lift_opt (q_first (qu_ends q));
    b ← zoom (load popped);
    let length := qu_length q - 1 in
    modify (fun s : sched_st => (s.1, set_queue MAIN_QUEUE
      {| qu_ends := {| q_first := p_next b;
                       q_last := if length =? 0 then None else q_last (qu_ends q) |};
         qu_length := length |} s.2));;
    zoom (update popped (set_p_next None));;
    mret (Some popped).

(** The walk of [find_blocked_process] along the queue. *)
Fixpoint find_blocked_loop (fuel : nat) (cond : addr -> M store bool)
    (prev curr : option addr) (q : queue_t) : M store (option addr * queue_t) :=
  match fuel with
  | O => ub
  | Datatypes.S fuel' =>
      match curr with
      | None => mret (None, q)
      | Some c =>
          found ← cond c;
          b ← load c;
          if found : bool then
            first ← match prev with
                    | None => mret (p_next b)
                    | Some p => update p (set_p_next (p_next b));; mret (q_first (qu_ends q))
                    end;
            let last := if decide (q_last (qu_ends q) = Some c) then prev
                        else q_last (qu_ends q) in
            update c (set_p_next None);;
            mret (Some c, {| qu_ends := {| q_first := first; q_last := last |};
                             qu_length := qu_length q - 1 |})
          else find_blocked_loop fuel' cond (Some c) (p_next b) q
      end
  end.

Definition find_blocked_process (type : queue_type) (cond : addr -> M store bool)
    : M sched_st (option addr) :=
  q ← gets (fun s : sched_st => queue type s.2);
  r ← zoom (find_blocked_loop (Datatypes.S (Z.to_nat (qu_length q))) cond None
              (q_first (qu_ends q)) q);
  modify (fun s : sched_st => (s.1, set_queue type r.2 s.2));;
  mret r.1.

(** [find_exited_child(pcb, (int * )&pcb->uc.regs[1])] *)
Definition wait_unblock_cond (pcb : addr) : M store bool :=
  code ← find_exited_child pcb;
  match code with
  | None => mret false
  | Some code => update pcb (fun b => set_p_uc (uc_set_reg1 code (p_uc b)) b);; mret true
  end.

Definition schedule_process (new_proc : addr) : M sched_st unit :=
  idle ← gets (fun s : sched_st => idle_proc s.2);
  if decide (Some new_proc = idle) then mret tt
  else
    zoom (update new_proc (set_p_state READY));;
    enque_process MAIN_QUEUE new_proc.

Definition wake_sleepers : M sched_st unit :=
  fuel ← gets (fun s : sched_st => Datatypes.S (Z.to_nat (h_length (sleepers s.2))));
  while_ fuel
    (s ← gets (fun s : sched_st => s.2);
     if 0 <? h_length (sleepers s) then
       first ← zoom (heap_at 0);
       b ← zoom (load first);
       mret (p_wake_up b <=? num_ticks s)
     else mret false)
    (woken ← zoom remove_from_heap;
     p ← lift_opt woken;
     enque_process MAIN_QUEUE p).

Fixpoint wake_waiters_loop (fuel : nat) : M sched_st unit :=
  match fuel with
  | O => ub
  | Datatypes.S fuel' =>
      curr ← find_blocked_process WAIT_BLOCKING_QUEUE wait_unblock_cond;
      match curr with
      | None => mret tt
      | Some p => schedule_process p;; wake_waiters_loop fuel'
      end
  end.
Definition wake_waiters : M sched_st unit :=
  fuel ← gets (fun s : sched_st => Datatypes.S (Z.to_nat (qu_length (wait_queue s.2))));
  wake_waiters_loop fuel.

Definition put_to_sleep (proc : addr) (t : Z) : M sched_st bool :=
  ticks ← gets (fun s : sched_st => num_ticks s.2);
  zoom (update proc (fun b => set_p_state WAITING (set_p_wake_up (to_i32 (ticks + t)) b)));;
  ok ← zoom (add_to_heap proc);
  if ok : bool then mret true
  else
    zoom (update proc (set_p_state RUNNING));;
    mret false.

Definition io_block_process (new_proc : addr) : M sched_st unit :=
  zoom (update new_proc (set_p_state WAITING));;
  enque_process IO_BLOCKING_QUEUE new_proc.

Definition wait_block_process (new_proc : addr) : M sched_st unit :=
  zoom (update new_proc (set_p_state WAITING));;
  enque_process WAIT_BLOCKING_QUEUE new_proc.

Definition get_next_process : M sched_st addr :=
  q ← gets (fun s : sched_st => main_queue s.2);
  if qu_length q =? 0 then
    idle ← gets (fun s : sched_st => idle_proc s.2);
    lift_opt idle
  else
    r ← deque_process;
    new_proc ← lift_opt r;
    zoom (update new_proc (set_p_state RUNNING));;
    mret new_proc.

(** ** What the static variables stand for *)

Definition queue_repr (st : store) (q : queue_t) (l : list addr) : Prop :=
  fifo_repr st (qu_ends q) l /\ qu_length q = Z.of_nat (length l).

(** [R], [W], [S]: the ready, the waiting and the sleeping processes. *)
Record sched_inv (s : sched_st) (R W S : list addr) : Prop := {
  si_ready : queue_repr s.1 (main_queue s.2) R;
  si_wait : queue_repr s.1 (wait_queue s.2) W;
  si_heap : heap_repr s.1 (sleepers s.2) S;
  si_order : heap_ordered s.1 S;
  si_nodup : NoDup (R ++ W ++ S);
  si_idle : forall p, idle_proc s.2 = Some p -> p ∉ R ++ W ++ S
}.

(** ** Frames: what may change without disturbing the scheduler *)

(** The blocks of [l] keep their link and their wake-up time. *)
Definition keeps (st st' : store) (l : list addr) : Prop :=
  forall a b, a ∈ l -> st_pcbs st !! a = Some b ->
    exists b', st_pcbs st' !! a = Some b' /\ p_next b' = p_next b /\ p_wake_up b' = p_wake_up b.

Lemma keeps_mono st st' l l' : keeps st st' l -> l' ⊆ l -> keeps st st' l'.
Proof. intros Hk Hl a b Ha. apply Hk. by apply Hl. Qed.
Lemma keeps_trans st1 st2 st3 l : keeps st1 st2 l -> keeps st2 st3 l -> keeps st1 st3 l.
Proof.
  intros H1 H2 a b Ha Hb. destruct (H1 a b Ha Hb) as (b1 & Hb1 & ? & ?).
  destruct (H2 a b1 Ha Hb1) as (b2 & ? & ? & ?). exists b2. split; [done|]. split; congruence.
Qed.
Lemma keeps_same st st' l : st_pcbs st' = st_pcbs st -> keeps st st' l.
Proof. intros E a b _ Hb. rewrite E. eauto. Qed.

(** A write that leaves link and wake-up time alone, or is to another block. *)
Lemma keeps_update st p b f l :
  st_pcbs st !! p = Some b ->
  (p ∈ l -> p_next (f b) = p_next b /\ p_wake_up (f b) = p_wake_up b) ->
  keeps st (set_pcbs (<[p := f b]> (st_pcbs st)) st) l.
Proof.
  intros Hb Hf a b' Ha Hb'. simpl. destruct (decide (p = a)) as [->|].
  - rewrite lookup_insert_eq. simplify_eq. eexists. split; [done|]. by apply Hf.
  - rewrite lookup_insert_ne by done. eauto.
Qed.
Lemma keeps_next_only st st' X l :
  next_only st st' X -> (forall a, a ∈ l -> a ∉ X) -> keeps st st' l.
Proof.
  intros Hn Hd a b Ha Hb. rewrite (no_out _ _ _ Hn) by (by apply Hd). eauto.
Qed.

Lemma fifo_repr_keeps st st' q l : fifo_repr st q l -> keeps st st' l -> fifo_repr st' q l.
Proof.
  intros Hr Hk. eapply fifo_repr_same_links; [done|]. intros a b Ha Hb.
  destruct (Hk a b Ha Hb) as (b' & ? & ? & _). eauto.
Qed.
Lemma queue_repr_keeps st st' q l : queue_repr st q l -> keeps st st' l -> queue_repr st' q l.
Proof. intros [? ?] ?. split; [by eapply fifo_repr_keeps|done]. Qed.

(** The heap of sleepers needs the wake-up times only. *)
Definition keeps_wake (st st' : store) (l : list addr) : Prop :=
  forall a b, a ∈ l -> st_pcbs st !! a = Some b ->
    exists b', st_pcbs st' !! a = Some b' /\ p_wake_up b' = p_wake_up b.

Lemma keeps_wake_of st st' l : keeps st st' l -> keeps_wake st st' l.
Proof. intros Hk a b Ha Hb. destruct (Hk a b Ha Hb) as (? & ? & _ & ?). eauto. Qed.
Lemma keeps_wake_next_only st st' X l : next_only st st' X -> keeps_wake st st' l.
Proof.
  intros Hn a b _ Hb. destruct (next_only_block _ _ _ _ _ Hn Hb) as [n Hb']. eauto.
Qed.
Lemma wake_keeps st st' l a :
  keeps_wake st st' l -> a ∈ l -> is_Some (st_pcbs st !! a) -> wake st' a = wake st a.
Proof.
  intros Hk Ha [b Hb]. destruct (Hk a b Ha Hb) as (b' & Hb' & E). unfold wake. by rewrite Hb, Hb'.
Qed.
Lemma heap_keeps st st' h l :
  heap_repr st h l -> heap_ordered st l -> keeps_wake st st' l ->
  heap_repr st' h l /\ heap_ordered st' l.
Proof.
  intros [? ? ? Hlive] Ho Hk. split.
  - split; try done. intros a Ha. destruct (Hlive a Ha) as [b Hb].
    destruct (Hk a b Ha Hb) as (b' & ? & _). eauto.
  - intros i Hi. pose proof (parent_lt i).
    assert (forall j, (j < length l)%nat -> key st' l j = key st l j) as Hkey.
    { intros j Hj. unfold key. destruct (l !! j) as [a|] eqn:E; [|done].
      assert (a ∈ l) by (by eapply list_elem_of_lookup_2). eapply wake_keeps; eauto. }
    rewrite !Hkey by lia. by apply Ho.
Qed.

Lemma sched_inv_keeps st st' sc R W S :
  sched_inv (st, sc) R W S -> keeps st st' (R ++ W ++ S) -> sched_inv (st', sc) R W S.
Proof.
  intros [H1 H2 H3 H4 H5 H6] Hk. simpl in *.
  destruct (heap_keeps st st' (sleepers sc) S) as [? ?]; [done|done| |].
  { apply keeps_wake_of. eapply keeps_mono; [done|]. set_solver. }
  split; try done; simpl;
    (eapply queue_repr_keeps; [done|eapply keeps_mono; [done|set_solver]]).
Qed.
Lemma sched_inv_set_running st sc R W S p :
  sched_inv (st, sc) R W S -> sched_inv (st, set_running p sc) R W S.
Proof. by intros [? ? ? ? ? ?]; split. Qed.
Lemma sched_inv_set_ticks st sc R W S n :
  sched_inv (st, sc) R W S -> sched_inv (st, set_num_ticks n sc) R W S.
Proof. by intros [? ? ? ? ? ?]; split. Qed.

Lemma sched_inv_live st sc R W S a :
  sched_inv (st, sc) R W S -> a ∈ R ++ W ++ S -> is_Some (st_pcbs st !! a).
Proof.
  intros [[? _] [? _] H3 _ _ _] [?|[?|?]%elem_of_app]%elem_of_app; simpl in *.
  - eauto using fifo_repr_live.
  - eauto using fifo_repr_live.
  - by apply (hr_live _ _ _ H3).
Qed.

(** ** The queues *)

Lemma queue_empty_iff st q l : queue_repr st q l -> (qu_length q =? 0) = bool_decide (l = []).
Proof.
  intros [_ ->]. destruct l; [done|]. by rewrite bool_decide_eq_false_2.
Qed.

Lemma enque_ok type st sc l p :
  queue_repr st (queue type sc) l -> p ∉ l -> is_Some (st_pcbs st !! p) ->
  wp (enque_process type p) (fun _ s' => exists q', s'.2 = set_queue type q' sc /\
    queue_repr s'.1 q' (l ++ [p]) /\ next_only st s'.1 (p :: l)) (st, sc).
Proof.
  intros [Hr Hlen] Hp [b Hb]. unfold enque_process. wp_steps. simpl.
  set (st1 := set_pcbs (<[p := set_p_next None b]> (st_pcbs st)) st).
  assert (fifo_repr st1 (qu_ends (queue type sc)) l) as Hr1 by (by apply cut_link_repr).
  assert (st_pcbs st1 !! p = Some (set_p_next None b)) as Hb1 by apply lookup_insert_eq.
  destruct (snoc_repr _ _ _ _ _ Hr1 Hp Hb1 eq_refl) as [Hsome Hnone].
  assert (Z.of_nat (length (l ++ [p])) = qu_length (queue type sc) + 1) as Hlen'
    by (rewrite length_app; simpl; lia).
  destruct l as [|x l]; [rewrite (proj2 (Z.eqb_eq _ _)) by done|
    rewrite (proj2 (Z.eqb_neq _ _)) by (simpl in *; lia)].
  - wp_steps. simpl. eapply wp_update; [done|]. wp_steps. simpl. eexists. split; [done|].
    split; [split; [by apply Hnone|done]|].
    eapply next_only_mono; [by apply next_only_update|set_solver].
  - rewrite (fr_first _ _ _ Hr1) in Hsome. simpl in Hsome.
    rewrite (fr_first _ _ _ Hr), (fr_last _ _ _ Hr). simpl.
    destruct (last (x :: l)) as [t|] eqn:Ht; [|by apply last_None in Ht].
    assert (t ∈ x :: l) as Htl by (by apply last_Some_elem_of).
    assert (p <> t) as Hne by (intros ->; done).
    destruct (fifo_repr_live _ _ _ _ Hr Htl) as [bt Hbt].
    assert (st_pcbs st1 !! t = Some bt) as Hbt1 by (simpl; by rewrite lookup_insert_ne).
    wp_step. eapply wp_lift_opt; [done|]. wp_steps. simpl. eapply wp_update; [done|].
    wp_steps. simpl. eapply wp_update; [simpl; by rewrite lookup_insert_ne|]. wp_steps. simpl.
    eexists. split; [done|]. unfold set_pcbs. simpl. rewrite insert_insert_ne by done.
    split; [split; [by apply Hsome|done]|].
    eapply next_only_mono; [eapply (next_only_trans _ st1); [by apply next_only_update|]|].
    + exact (next_only_update st1 t bt (Some p) Hbt1).
    + set_solver.
Qed.

Lemma deque_ok st sc l p :
  queue_repr st (main_queue sc) (p :: l) ->
  wp deque_process (fun r s' => r = Some p /\ exists q', s'.2 = set_queue MAIN_QUEUE q' sc /\
    queue_repr s'.1 q' l /\ next_only st s'.1 [p]) (st, sc).
Proof.
  intros [Hr Hlen]. unfold deque_process. wp_steps. simpl. rewrite Hlen. simpl.
  rewrite (fr_first _ _ _ Hr). simpl.
  destruct (tail_repr _ _ _ _ Hr) as (b & Hb & E & Hr').
  wp_step. eapply wp_lift_opt; [done|]. wp_steps. eapply wp_load; [done|]. wp_steps. simpl.
  eapply wp_update; [done|]. wp_steps. split; [done|]. eexists. split; [done|]. simpl.
  split; [|by apply next_only_update]. split; simpl; [|lia].
  rewrite E. destruct l; [done|]. simpl in *.
  rewrite (proj2 (Z.eqb_neq _ _)) by lia. done.
Qed.

(** ** Becoming ready, running, asleep *)

(** Adding [p] behind the ready queue keeps the scheduler's invariant. *)
Lemma enque_ready_ok st sc R W S p :
  sched_inv (st, sc) R W S -> p ∉ R ++ W ++ S -> is_Some (st_pcbs st !! p) ->
  idle_proc sc <> Some p ->
  wp (enque_process MAIN_QUEUE p) (fun _ s' => sched_inv s' (R ++ [p]) W S /\
    next_only st s'.1 (p :: R) /\ exists q', s'.2 = set_queue MAIN_QUEUE q' sc) (st, sc).
Proof.
  intros [H1 [H2 H2'] H3 H4 H5 H6] Hp Hlive Hidle. simpl in *.
  eapply wp_mono; [apply (enque_ok MAIN_QUEUE _ _ R); [done|set_solver|done]|].
  intros [] [st' sc'] (q' & E & Hq & Hn). simpl in *. subst sc'. split; [|split; [done|by eexists]].
  destruct (heap_keeps st st' (sleepers sc) S) as [? ?]; [done|done| |].
  { by eapply keeps_wake_next_only. }
  assert (forall a, a ∈ W -> a ∉ p :: R) as Hdisj.
  { intros a Ha [->|Hr]%elem_of_cons; [set_solver|].
    apply NoDup_app in H5 as (_ & Hd & _). apply (Hd a Hr). set_solver. }
  split; simpl; try done.
  - split; [|done]. by eapply fifo_repr_frame.
  - rewrite <- app_assoc. simpl. apply NoDup_app in H5 as (HR & Hd & HWS). apply NoDup_app.
    split; [done|]. split.
    + intros a Ha. apply not_elem_of_cons. split; [set_solver|by apply Hd].
    + apply NoDup_cons. split; [set_solver|done].
  - intros a Ha. specialize (H6 a Ha). assert (a <> p) by congruence. set_solver.
Qed.

Lemma schedule_process_ok st sc R W S p b :
  sched_inv (st, sc) R W S -> p ∉ R ++ W ++ S -> st_pcbs st !! p = Some b ->
  wp (schedule_process p) (fun _ s' =>
    if decide (idle_proc sc = Some p) then s' = (st, sc)
    else sched_inv s' (R ++ [p]) W S /\
      next_only (set_pcbs (<[p := set_p_state READY b]> (st_pcbs st)) st) s'.1 (p :: R) /\
      exists q', s'.2 = set_queue MAIN_QUEUE q' sc) (st, sc).
Proof.
  intros Hinv Hp Hb. unfold schedule_process. wp_steps. simpl.
  destruct (decide (Some p = idle_proc sc)) as [E|E].
  - wp_step. by rewrite decide_True by done.
  - wp_steps. eapply wp_update; [done|]. simpl.
    eapply wp_mono; [apply enque_ready_ok; simpl; [|done|rewrite lookup_insert_eq; by eexists|done]|].
    + eapply sched_inv_keeps; [done|]. by apply (keeps_update _ _ b (set_p_state READY)).
    + intros [] s' ?. by rewrite decide_False.
Qed.

Lemma get_next_process_ok st sc R W S idle :
  sched_inv (st, sc) R W S -> idle_proc sc = Some idle ->
  wp get_next_process (fun p s' =>
    match R with
    | [] => p = idle /\ s' = (st, sc)
    | r :: R' => p = r /\ sched_inv s' R' W S /\ exists b n q', st_pcbs st !! r = Some b /\
        s'.2 = set_queue MAIN_QUEUE q' sc /\
        s'.1 = set_pcbs (<[r := set_p_state RUNNING (set_p_next n b)]> (st_pcbs st)) st
    end) (st, sc).
Proof.
  intros Hinv Hidle. unfold get_next_process. wp_steps. simpl.
  rewrite (queue_empty_iff st _ R) by apply Hinv.
  destruct R as [|r R]; simpl.
  - by wp_steps.
  - destruct Hinv as [H1 [H2 H2'] H3 H4 H5 H6]. simpl in *.
    wp_step. eapply wp_mono; [by apply (deque_ok _ _ R r)|].
    intros ? [st' sc'] (-> & q' & E & [Hq Hql] & Hn). simpl in *. subst sc'.
    wp_step. eapply wp_lift_opt; [done|]. wp_steps. simpl.
    destruct (fifo_repr_live _ _ _ r (proj1 H1)) as [b Hb]; [set_solver|].
    destruct (next_only_block _ _ _ _ _ Hn Hb) as [n Hb'].
    eapply wp_update; [done|]. wp_steps. simpl. split; [done|].
    apply NoDup_cons in H5 as [Hr H5].
    assert (st_pcbs st' = <[r := set_p_next n b]> (st_pcbs st)) as Est.
    { apply map_eq. intros a. destruct (decide (r = a)) as [<-|]; [by rewrite lookup_insert_eq|].
      rewrite lookup_insert_ne by done. apply (no_out _ _ _ Hn). set_solver. }
    split.
    + apply (sched_inv_keeps st'); [|by apply (keeps_update _ _ (set_p_next n b) (set_p_state RUNNING))].
      destruct (heap_keeps st st' (sleepers sc) S) as [? ?]; [done|done| |].
      { by eapply keeps_wake_next_only. }
      split; simpl; try done.
      * split; [|done]. eapply fifo_repr_frame; [done|done|]. set_solver.
      * intros a Ha. specialize (H6 a Ha). set_solver.
    + exists b, n, q'. do 2 (split; [done|]). destruct Hn as [Hn1 Hn2 Hn3 _ _].
      unfold set_pcbs. by rewrite Est, insert_insert_eq, Hn1, Hn2, Hn3.
Qed.

(** The static variables other than the queues and the heap. *)
Definition same_clock (sc sc' : sched_t) : Prop :=
  num_ticks sc' = num_ticks sc /\ running_proc sc' = running_proc sc /\ idle_proc sc' = idle_proc sc.

(** The heap of sleepers changes; the rest stays. *)
Lemma sched_inv_sleepers st st' sc h R W S S' :
  sched_inv (st, sc) R W S -> st_pcbs st' = st_pcbs st ->
  heap_repr st' h S' -> heap_ordered st' S' ->
  NoDup (R ++ W ++ S') -> (forall p, idle_proc sc = Some p -> p ∉ R ++ W ++ S') ->
  sched_inv (st', set_sleepers h sc) R W S'.
Proof.
  intros [H1 H2 _ _ _ _] E ? ? ? ?. split; try done;
    (eapply queue_repr_keeps; [done|by apply keeps_same]).
Qed.

Lemma put_to_sleep_ok st sc R W S p b t :
  sched_inv (st, sc) R W S -> p ∉ R ++ W ++ S -> st_pcbs st !! p = Some b ->
  idle_proc sc <> Some p ->
  let b' := set_p_wake_up (to_i32 (num_ticks sc + t)) b in
  wp (put_to_sleep p t) (fun ok s' => same_clock sc s'.2 /\
    if ok : bool then
      st_pcbs s'.1 = <[p := set_p_state WAITING b']> (st_pcbs st) /\
      exists S', S' ≡ₚ p :: S /\ sched_inv s' R W S'
    else
      st_pcbs s'.1 = <[p := set_p_state RUNNING b']> (st_pcbs st) /\ sched_inv s' R W S) (st, sc).
Proof.
  intros Hinv Hp Hb Hidle b'. unfold put_to_sleep. wp_steps. simpl.
  eapply wp_update; [done|]. wp_steps. simpl. fold b'.
  set (st1 := set_pcbs _ st).
  assert (sched_inv (st1, sc) R W S) as Hinv1.
  { eapply sched_inv_keeps; [done|].
    apply (keeps_update _ _ b (fun b => set_p_state WAITING (set_p_wake_up (to_i32 (num_ticks sc + t)) b)));
      [done|]. by intros. }
  assert (st_pcbs st1 !! p = Some (set_p_state WAITING b')) as Hb1 by apply lookup_insert_eq.
  eapply wp_mono; [apply (add_to_heap_ok _ _ S)|].
  - apply Hinv1.
  - apply Hinv1.
  - by rewrite Hb1.
  - intros [] [st2 h2] [Hsb Hres]; simpl in *; destruct Hsb as [Hpc _].
    + destruct Hres as (S' & Hh & Hperm & Ho). wp_steps. simpl. split; [done|]. split; [done|].
      exists S'. split; [done|]. eapply sched_inv_sleepers; [exact Hinv1|done..| |].
      * rewrite Hperm, (app_assoc R W), <- (Permutation_middle (R ++ W) S p). apply NoDup_cons.
        rewrite <- app_assoc. split; [done|apply Hinv].
      * intros q Hq. rewrite Hperm. pose proof (si_idle _ _ _ _ Hinv q Hq).
        assert (q <> p) by congruence. set_solver.
    + subst h2. wp_steps. simpl. eapply wp_update; [by rewrite Hpc|]. wp_steps. simpl.
      split; [by destruct sc|]. split; [by rewrite Hpc; apply insert_insert_eq|].
      apply (sched_inv_keeps st1); [by destruct sc|]. eapply keeps_trans; [by apply keeps_same|].
      apply (keeps_update st2 p _ (set_p_state RUNNING)); [by rewrite Hpc|done].
Qed.

(** ** Waking the sleepers *)

(** What [wake_sleepers] has done when the processes [woken] have been moved,
    from the state [(st, sc)], and the sleepers [S'] remain. *)
Record woken_up (st : store) (sc : sched_t) (R W S woken S' : list addr) (s : sched_st) : Prop := {
  wu_inv : sched_inv s (R ++ woken) W S';
  wu_perm : S ≡ₚ woken ++ S';
  wu_due : Forall (fun a => wake st a <= num_ticks sc) woken;
  wu_sorted : StronglySorted (fun a b => wake st a <= wake st b) woken;
  wu_before : forall a b, a ∈ woken -> b ∈ S' -> wake st a <= wake st b;
  wu_alloc : st_next s.1 = st_next st /\ st_pid_calls s.1 = st_pid_calls st;
  wu_out : forall a, a ∉ R ++ S -> st_pcbs s.1 !! a = st_pcbs st !! a;
  wu_fields : forall a, set_p_next None <$> st_pcbs s.1 !! a = set_p_next None <$> st_pcbs st !! a;
  wu_clock : same_clock sc s.2
}.

Lemma StronglySorted_snoc {A} (r : A -> A -> Prop) l x :
  StronglySorted r l -> (forall a, a ∈ l -> r a x) -> StronglySorted r (l ++ [x]).
Proof.
  induction 1 as [|a l Hl IH Ha]; intros Hx; simpl; [repeat constructor|].
  constructor; [apply IH; set_solver|]. apply Forall_app. split; [done|].
  constructor; [apply Hx; set_solver|done].
Qed.

Lemma woken_up_wake st sc R W S woken S' s a :
  woken_up st sc R W S woken S' s -> is_Some (st_pcbs st !! a) -> wake s.1 a = wake st a.
Proof.
  intros Hwu [b Hb]. pose proof (wu_fields _ _ _ _ _ _ _ _ Hwu a) as Hf.
  rewrite Hb in Hf. apply fmap_Some in Hf as (b1 & Hb1 & E). unfold wake.
  rewrite Hb, Hb1. by apply (f_equal p_wake_up) in E.
Qed.

Lemma wake_next_sleeper st sc R W S woken S' s :
  woken_up st sc R W S woken S' s ->
  (forall a, a ∈ S -> is_Some (st_pcbs st !! a)) ->
  wp (s ← gets (fun s : sched_st => s.2);
      if 0 <? h_length (sleepers s) then
        first ← zoom (heap_at 0);
        b ← zoom (load first);
        mret (p_wake_up b <=? num_ticks s)
      else mret false)
    (fun go s' => s' = s /\
       if go : bool then exists a, a ∈ S' /\ wake st a <= num_ticks sc /\
         (forall x, x ∈ S' -> wake st a <= wake st x)
       else Forall (fun a => num_ticks sc < wake st a) S') s.
Proof.
  intros Hwu Hlive. destruct s as [s1 s2]. pose proof (wu_inv _ _ _ _ _ _ _ _ Hwu) as Hinv.
  pose proof (si_heap _ _ _ _ Hinv) as Hh. pose proof (si_order _ _ _ _ Hinv) as Ho. simpl in *.
  assert (forall x, x ∈ S' -> wake s1 x = wake st x) as Hwake.
  { intros x Hx. eapply (woken_up_wake _ _ _ _ _ _ _ (s1, s2)); [done|]. apply Hlive.
    rewrite (wu_perm _ _ _ _ _ _ _ _ Hwu). set_solver. }
  wp_steps. simpl. rewrite (hr_length _ _ _ Hh). destruct S' as [|a S']; simpl.
  { wp_step. done. }
  wp_steps. eapply (heap_at_ok _ _ _ Hh 0); [done|].
  destruct (hr_live _ _ _ Hh a) as [b Hb]; [set_solver|]. wp_steps. simpl. eapply wp_load; [done|].
  wp_step. split; [by destruct s2|].
  assert (forall x, x ∈ a :: S' -> wake st a <= wake st x) as Hmin.
  { intros x Hx. rewrite <- (Hwake a), <- (Hwake x) by set_solver.
    apply list_elem_of_lookup_1 in Hx as [i Hi].
    pose proof (ordered_root _ _ i Ho (lookup_lt_Some _ _ _ Hi)) as Hk. unfold key in Hk.
    by rewrite Hi in Hk. }
  assert (p_wake_up b = wake st a) as ->
    by (rewrite <- Hwake by set_solver; unfold wake; by rewrite Hb).
  destruct (wu_clock _ _ _ _ _ _ _ _ Hwu) as (Ec & _ & _). simpl in Ec. rewrite Ec.
  destruct (Z.leb_spec (wake st a) (num_ticks sc)).
  - exists a. split; [set_solver|done].
  - apply Forall_forall. intros x Hx. specialize (Hmin x Hx). lia.
Qed.

Lemma wake_one st sc R W S woken S' s a :
  woken_up st sc R W S woken S' s ->
  (forall x, x ∈ S -> is_Some (st_pcbs st !! x)) ->
  a ∈ S' -> wake st a <= num_ticks sc -> (forall x, x ∈ S' -> wake st a <= wake st x) ->
  wp (woken ← zoom remove_from_heap; p ← lift_opt woken; enque_process MAIN_QUEUE p)
    (fun _ s' => exists p S'', S' ≡ₚ p :: S'' /\ woken_up st sc R W S (woken ++ [p]) S'' s') s.
Proof.
  intros Hwu Hlive Ha Hdue Hmin. destruct s as [s1 s2].
  pose proof (wu_inv _ _ _ _ _ _ _ _ Hwu) as Hinv. simpl in *.
  wp_steps. eapply wp_mono; [eapply remove_from_heap_ok; [apply Hinv|apply Hinv]|].
  intros [p|] [st2 h2]; simpl; intros [Hsb Hres]; [|destruct Hres as [-> _]; set_solver].
  destruct Hres as (S'' & Hh & Hperm & Ho & Hpmin). destruct Hsb as (Hpc & Hnx & Hpid).
  wp_step. eapply wp_lift_opt; [done|].
  assert (p ∈ S') as Hp by (rewrite Hperm; set_solver).
  assert (S ≡ₚ woken ++ p :: S'') as Hperm' by (rewrite <- Hperm; apply Hwu).
  assert (forall x, x ∈ S' -> wake s1 x = wake st x) as Hwake.
  { intros x Hx. eapply (woken_up_wake _ _ _ _ _ _ _ (s1, s2)); [done|]. apply Hlive.
    rewrite (wu_perm _ _ _ _ _ _ _ _ Hwu). set_solver. }
  pose proof (si_nodup _ _ _ _ Hinv) as Hnd. rewrite Hperm in Hnd.
  rewrite (app_assoc _ W), <- Permutation_middle, <- app_assoc in Hnd.
  apply NoDup_cons in Hnd as [Hpn Hnd].
  destruct (wu_clock _ _ _ _ _ _ _ _ Hwu) as (Ec1 & Ec2 & Ec3). simpl in *.
  assert (sched_inv (st2, set_sleepers h2 s2) (R ++ woken) W S'') as Hinv2.
  { eapply sched_inv_sleepers; [done..|]. intros q Hq Hin.
    apply (si_idle _ _ _ _ Hinv q Hq). rewrite Hperm. set_solver. }
  destruct (Hlive p) as [bp Hbp]; [rewrite Hperm'; set_solver|].
  eapply wp_mono; [eapply (enque_ready_ok _ _ _ _ _ p Hinv2 Hpn)|].
  - rewrite Hpc. by eapply sched_inv_live; [exact Hinv|set_solver].
  - simpl. intros Eq. apply (si_idle _ _ _ _ Hinv p Eq). set_solver.
  - intros [] [st3 sc3] (Hinv3 & Hlinks & q' & E). simpl in *. subst sc3.
    exists p, S''. split; [done|]. split; simpl.
    + by rewrite app_assoc.
    + by rewrite <- app_assoc.
    + apply Forall_app. split; [apply Hwu|]. constructor; [|done].
      specialize (Hpmin a Ha). rewrite (Hwake a Ha), (Hwake p Hp) in Hpmin. lia.
    + apply StronglySorted_snoc; [apply Hwu|]. intros x Hx. by eapply Hwu.
    + intros x y [Hx| ->%list_elem_of_singleton]%elem_of_app Hy.
      * eapply Hwu; [done|]. rewrite Hperm. set_solver.
      * assert (y ∈ S') as Hy' by (rewrite Hperm; set_solver).
        specialize (Hpmin y Hy'). by rewrite (Hwake y Hy'), (Hwake p Hp) in Hpmin.
    + pose proof (no_alloc _ _ _ Hlinks). pose proof (no_pids _ _ _ Hlinks).
      destruct (wu_alloc _ _ _ _ _ _ _ _ Hwu). simpl in *. split; congruence.
    + intros x Hx. assert (x ∉ p :: R ++ woken) as Hx'
        by (clear -Hx Hperm'; rewrite Hperm' in Hx; set_solver).
      rewrite (no_out _ _ _ Hlinks), Hpc by done. by eapply (wu_out _ _ _ _ _ _ _ _ Hwu).
    + intros x. rewrite (no_fields _ _ _ Hlinks), Hpc. apply (wu_fields _ _ _ _ _ _ _ _ Hwu).
    + done.
Qed.

Lemma wake_sleepers_ok st sc R W S :
  sched_inv (st, sc) R W S ->
  wp wake_sleepers (fun _ s' => exists woken S', woken_up st sc R W S woken S' s' /\
    Forall (fun a => num_ticks sc < wake st a) S') (st, sc).
Proof.
  intros Hinv. pose proof (si_heap _ _ _ _ Hinv) as Hh. simpl in Hh.
  unfold wake_sleepers. wp_steps. simpl.
  apply (wp_while _ _ _ (fun s => exists woken S', woken_up st sc R W S woken S' s)
           (fun s => Z.to_nat (h_length (sleepers s.2)))).
  - exists [], S. split; simpl; rewrite ?app_nil_r; try done; try (by constructor).
    set_solver.
  - simpl. lia.
  - intros s (woken & S' & Hwu).
    eapply wp_mono; [eapply wake_next_sleeper; [done|apply (hr_live _ _ _ Hh)]|].
    intros [] s' [-> Hgo]; simpl in Hgo.
    + destruct Hgo as (a & Ha & Hdue & Hmin).
      eapply wp_mono; [eapply wake_one; [done|apply (hr_live _ _ _ Hh)|done..]|].
      intros [] s' (p & S'' & Hperm & Hwu'). split; [by do 2 eexists|].
      pose proof (hr_length _ _ _ (si_heap _ _ _ _ (wu_inv _ _ _ _ _ _ _ _ Hwu))) as E1.
      pose proof (hr_length _ _ _ (si_heap _ _ _ _ (wu_inv _ _ _ _ _ _ _ _ Hwu'))) as E2.
      apply Permutation_length in Hperm. simpl in Hperm. lia.
    + eauto.
Qed.

(** ** Taking a process out of the middle of a queue *)

Lemma lookup_middle {A} (l1 l2 : list A) x i :
  (length l1 < i)%nat -> (l1 ++ x :: l2) !! i = l2 !! (i - length l1 - 1)%nat.
Proof.
  intros. rewrite lookup_app_r by lia.
  destruct (i - length l1)%nat eqn:E; [lia|]. simpl. by rewrite Nat.sub_0_r.
Qed.

(** The entry [c] behind [p] leaves the queue. *)
Lemma unlink_repr st q l1 p c l2 bp bc :
  fifo_repr st q (l1 ++ p :: c :: l2) -> st_pcbs st !! p = Some bp -> st_pcbs st !! c = Some bc ->
  fifo_repr
    (set_pcbs (<[c := set_p_next None bc]> (<[p := set_p_next (p_next bc) bp]> (st_pcbs st))) st)
    {| q_first := q_first q;
       q_last := if decide (q_last q = Some c) then Some p else q_last q |} (l1 ++ p :: l2).
Proof.
  intros [Hnd Hf Hl Hn] Hbp Hbc. set (l := l1 ++ p :: c :: l2) in *.
  assert (l !! length l1 = Some p) as Hp by (unfold l; by apply list_lookup_middle).
  assert (l !! S (length l1) = Some c) as Hc.
  { unfold l. rewrite lookup_app_r by lia. by replace (S (length l1) - length l1)%nat with 1%nat by lia. }
  pose proof Hnd as Hnd'. unfold l in Hnd'.
  replace (l1 ++ p :: c :: l2) with ((l1 ++ [p]) ++ c :: l2) in Hnd' by (by rewrite <- app_assoc).
  rewrite <- Permutation_middle, <- (app_assoc l1) in Hnd'.
  apply NoDup_cons in Hnd' as [Hcn Hnd']. simpl in *. split; simpl.
  - done.
  - rewrite Hf. by destruct l1.
  - rewrite Hl. unfold l. rewrite !last_app, !last_cons. destruct (last l2) as [y|] eqn:Hy.
    + rewrite decide_False; [done|]. intros [= ->]. apply last_Some_elem_of in Hy. apply Hcn. set_solver.
    + by rewrite decide_True.
  - intros i a Hi. assert (a <> c) as Hac.
    { intros ->. apply Hcn. by eapply list_elem_of_lookup_2. }
    rewrite lookup_insert_ne by done. destruct (decide (i = length l1)) as [->|].
    + rewrite list_lookup_middle in Hi by done. simplify_eq. rewrite lookup_insert_eq.
      eexists. split; [done|]. simpl. destruct (Hn _ _ Hc) as (bc' & Hbc' & Enx). simplify_eq. rewrite Enx.
      unfold l. rewrite !lookup_middle by lia. simpl.
      by replace (S (S (length l1)) - length l1 - 1)%nat with 1%nat by lia;
        replace (S (length l1) - length l1 - 1)%nat with 0%nat by lia.
    + assert (a <> p) as Hap.
      { intros ->. assert ((l1 ++ p :: l2) !! length l1 = Some p) as Hp' by (by apply list_lookup_middle).
        pose proof (NoDup_lookup _ _ _ _ Hnd' Hi Hp'). lia. }
      rewrite lookup_insert_ne by done. destruct (decide (i < length l1)%nat) as [Hlt|].
      * rewrite lookup_app_l in Hi by done. destruct (Hn i a) as (b & Hb & Enx).
        { unfold l. by rewrite lookup_app_l. }
        exists b. split; [done|]. rewrite Enx. unfold l. destruct (decide (S i = length l1)) as [E|].
        -- by rewrite E, !list_lookup_middle.
        -- by rewrite !lookup_app_l by lia.
      * rewrite lookup_middle in Hi by lia. destruct (Hn (S i) a) as (b & Hb & Enx).
        { unfold l. rewrite lookup_middle by lia.
          replace (S i - length l1 - 1)%nat with (S (i - length l1 - 1)) by lia. done. }
        exists b. split; [done|]. rewrite Enx. unfold l. rewrite !lookup_middle by lia.
        replace (S (S i) - length l1 - 1)%nat with (S (S i - length l1 - 1)) by lia. done.
Qed.

Section find_blocked.
Context (cond : addr -> M store bool) (P : addr -> bool) (Hit : addr -> store -> Prop).
Context (st : store) (q : queue_t) (l : list addr).
Hypothesis Hq : queue_repr st q l.
Hypothesis cond_no : forall c st1, c ∈ l -> P c = false -> same_blocks st st1 ->
  wp (cond c) (fun r st' => r = false /\ same_blocks st st') st1.
Hypothesis cond_yes : forall c st1, c ∈ l -> P c = true -> same_blocks st st1 ->
  wp (cond c) (fun r st' => r = true /\ Hit c st' /\ keeps st st' l) st1.

Definition found_blocked (r : option addr * queue_t) (st' : store) : Prop :=
  match list_find (fun c => P c = true) l with
  | None => r = (None, q) /\ same_blocks st st'
  | Some (i, c) => exists st1 q', r = (Some c, q') /\ Hit c st1 /\
      queue_repr st' q' (delete i l) /\ next_only st1 st' l
  end.

Lemma unlink_found (i : nat) c st1 prev :
  l !! i = Some c -> keeps st st1 l -> Hit c st1 ->
  prev = match i with O => None | S j => l !! j end ->
  list_find (fun c => P c = true) l = Some (i, c) ->
  wp (b ← load c;
      first ← match prev with
              | None => mret (p_next b)
              | Some p => update p (set_p_next (p_next b));; mret (q_first (qu_ends q))
              end;
      let last := if decide (q_last (qu_ends q) = Some c) then prev else q_last (qu_ends q) in
      update c (set_p_next None);;
      mret (Some c, {| qu_ends := {| q_first := first; q_last := last |};
                       qu_length := qu_length q - 1 |})) found_blocked st1.
Proof.
  intros Hi Hk Hhit Hprev Hfind. destruct Hq as [Hr Hlen].
  assert (fifo_repr st1 (qu_ends q) l) as Hr1 by (by eapply fifo_repr_keeps).
  destruct (fr_next _ _ _ Hr1 _ _ Hi) as (bc & Hbc & Hnext).
  assert (qu_length q - 1 = Z.of_nat (length (delete i l))) as Hlen'.
  { erewrite length_delete by done. pose proof (lookup_lt_Some _ _ _ Hi). lia. }
  assert (c ∈ l) as Hcl by (by eapply list_elem_of_lookup_2).
  unfold found_blocked. rewrite Hfind. wp_step. eapply wp_load; [done|].
  destruct i as [|j]; subst prev.
  - destruct l as [|x l'] eqn:El; [done|]. simplify_eq/=.
    destruct (tail_repr _ _ _ _ Hr1) as (b & Hb & E & Hr'). simplify_eq.
    wp_steps. eapply wp_update; [done|]. wp_steps. eexists st1, _. split; [done|]. split; [done|].
    split; [|eapply next_only_mono; [by apply next_only_update|set_solver]].
    split; simpl; [|done]. rewrite E. destruct Hr' as [Hnd Hf Hl Hn]. split; simpl in *; try done.
    rewrite <- Hl, (fr_last _ _ _ Hr1). destruct l' as [|y l']; simpl; [by rewrite decide_True|].
    rewrite decide_False; [done|]. intros E'. apply last_Some_elem_of in E'.
    pose proof (fr_nodup _ _ _ Hr1) as Hnd1. apply NoDup_cons in Hnd1 as [? _]. set_solver.
  - destruct (lookup_lt_is_Some_2 l j) as [p Hp]; [apply lookup_lt_Some in Hi; lia|].
    rewrite Hp. destruct (fr_next _ _ _ Hr1 _ _ Hp) as (bp & Hbp & _).
    assert (l = take j l ++ p :: c :: drop (S (S j)) l) as El.
    { rewrite <- (take_drop j l) at 1. f_equal. by erewrite !drop_S by done. }
    assert (p <> c) as Hpc.
    { intros ->. pose proof (NoDup_lookup _ _ _ _ (fr_nodup _ _ _ Hr1) Hi Hp). lia. }
    assert (p ∈ l) as Hpl by (by eapply list_elem_of_lookup_2).
    assert (delete (S j) l = take j l ++ p :: drop (S (S j)) l) as Edel.
    { rewrite delete_take_drop, (take_S_r _ _ p) by done. by rewrite <- app_assoc. }
    pose proof Hr1 as Hr1'. rewrite El in Hr1'.
    pose proof (unlink_repr _ _ _ _ _ _ _ _ Hr1' Hbp Hbc) as Hr2.
    wp_steps. eapply wp_update; [done|]. wp_steps. eapply wp_update.
    { simpl. rewrite lookup_insert_ne by done. done. }
    wp_steps. simpl. eexists st1, _. split; [done|]. split; [done|]. rewrite Edel.
    split; [split; [exact Hr2|simpl; by rewrite <- Edel]|].
    set (st2 := set_pcbs (<[p := set_p_next (p_next bc) bp]> (st_pcbs st1)) st1).
    assert (st_pcbs st2 !! c = Some bc) as Hbc2 by (simpl; by rewrite lookup_insert_ne).
    eapply next_only_mono; [eapply (next_only_trans _ st2); [by apply next_only_update|]|].
    + exact (next_only_update st2 c bc None Hbc2).
    + set_solver.
Qed.

Lemma find_blocked_loop_ok fuel : forall (i : nat) st1,
  (length l - i < fuel)%nat -> (i <= length l)%nat -> same_blocks st st1 ->
  Forall (fun c => ~ P c = true) (take i l) ->
  wp (find_blocked_loop fuel cond (match i with O => None | S j => l !! j end) (l !! i) q)
    found_blocked st1.
Proof.
  induction fuel as [|fuel IH]; intros i st1 Hf Hi Hsb HF; [lia|]. simpl.
  destruct (l !! i) as [c|] eqn:Hc.
  2: { wp_step. unfold found_blocked. apply lookup_ge_None_1 in Hc. rewrite take_ge in HF by done.
       by assert (list_find (fun c => P c = true) l = None) as -> by (by apply list_find_None). }
  assert (c ∈ l) as Hcl by (by eapply list_elem_of_lookup_2).
  pose proof (lookup_lt_Some _ _ _ Hc). wp_step. destruct (P c) eqn:HP.
  - eapply wp_mono; [by apply cond_yes|]. intros ? st2 (-> & Hhit & Hk). cbv beta iota.
    eapply unlink_found; [done..|]. apply list_find_Some. split; [done|]. split; [done|].
    intros k y Hk' ?. rewrite Forall_lookup in HF. apply (HF k y). by rewrite lookup_take_lt.
  - eapply wp_mono; [by apply cond_no|]. intros ? st2 (-> & Hsb2). wp_step.
    destruct Hq as [Hr _]. destruct (fr_next _ _ _ Hr _ _ Hc) as (b & Hb & Enx).
    eapply wp_load; [by rewrite (proj1 Hsb2)|]. cbv iota. rewrite Enx.
    specialize (IH (S i) st2). simpl in IH. rewrite Hc in IH. apply IH; [lia|lia|done|].
    rewrite (take_S_r _ _ c) by done. apply Forall_app. split; [done|]. constructor; [|done].
    by rewrite HP.
Qed.
End find_blocked.


(** ** Setting up, and blocking in [Wait] *)

Lemma init_scheduler_ok st sc idle :
  wp (init_scheduler idle) (fun ok s' => same_blocks st s'.1 /\ num_ticks s'.2 = num_ticks sc /\
    running_proc s'.2 = Some idle /\ idle_proc s'.2 = Some idle /\
    (st_malloc st = [] -> ok = true /\ st_malloc s'.1 = []) /\ (ok = true -> sched_inv s' [] [] [])) (st, sc).
Proof.
  unfold init_scheduler. wp_steps. apply wp_malloc_plenty. intros ok st' Hsb Hpl. wp_steps. simpl.
  do 4 (split; [done|]). split; [exact Hpl|]. intros ->.
  assert (fifo_repr st' fifo_empty []) by (by split; simpl; try constructor).
  split; simpl; try done.
  - split; try done; simpl; [by exists (replicate 20 None)|].
    by intros a ?%not_elem_of_nil.
  - constructor.
  - by intros p _ ?%not_elem_of_nil.
Qed.

Lemma wait_block_process_ok st sc R W S p b :
  sched_inv (st, sc) R W S -> p ∉ R ++ W ++ S -> st_pcbs st !! p = Some b ->
  idle_proc sc <> Some p ->
  wp (wait_block_process p) (fun _ s' => sched_inv s' R (W ++ [p]) S /\
    next_only (set_pcbs (<[p := set_p_state WAITING b]> (st_pcbs st)) st) s'.1 (p :: W) /\
    exists q', s'.2 = set_queue WAIT_BLOCKING_QUEUE q' sc) (st, sc).
Proof.
  intros Hinv Hp Hb Hidle. unfold wait_block_process. wp_steps. eapply wp_update; [done|]. simpl.
  assert (sched_inv (set_pcbs (<[p := set_p_state WAITING b]> (st_pcbs st)) st, sc) R W S)
    as [[H1 H1'] H2 H3 H4 H5 H6].
  { eapply sched_inv_keeps; [done|]. by apply (keeps_update _ _ b (set_p_state WAITING)). }
  simpl in *. set (st1 := set_pcbs _ st) in *.
  eapply wp_mono; [apply (enque_ok WAIT_BLOCKING_QUEUE _ _ W); [done|clear -Hp; set_solver|]|].
  { simpl. rewrite lookup_insert_eq. by eexists. }
  intros [] [st' sc'] (q' & E & Hq & Hn). simpl in *. subst sc'. split; [|split; [done|by eexists]].
  destruct (heap_keeps st1 st' (sleepers sc) S) as [? ?]; [done|done| |].
  { by eapply keeps_wake_next_only. }
  assert (forall a, a ∈ R -> a ∉ p :: W) as Hdisj.
  { intros a Ha. apply NoDup_app in H5 as (_ & Hd & _). specialize (Hd a Ha).
    assert (a <> p) by (intros ->; clear -Ha Hp; set_solver). set_solver. }
  assert (R ++ (W ++ [p]) ++ S ≡ₚ p :: R ++ W ++ S) as Hperm.
  { rewrite <- (app_assoc W). simpl.
    by rewrite <- (Permutation_middle W S p), <- (Permutation_middle R (W ++ S) p). }
  split; simpl; try done.
  - split; [|done]. by eapply fifo_repr_frame.
  - rewrite Hperm. by apply NoDup_cons.
  - intros a Ha. specialize (H6 a Ha). rewrite Hperm. assert (a <> p) by congruence.
    by apply not_elem_of_cons.
Qed.

(** ** A concrete scheduler: 1 runs, 2 and 3 are ready, 4 waits, 5 and 6 sleep
    until ticks 5 and 9, 7 is the idle process; the clock is at 6. *)
Definition linked (n : option addr) (b : pcb) : pcb := set_p_next n b.
Definition demo_procs : store :=
  {| st_pcbs := {[ 1%positive := demo_pcb RUNNING 0 []; 
                   2%positive := linked (Some 3%positive) (demo_pcb READY 0 []);
                   3%positive := demo_pcb READY 0 [];
                   4%positive := demo_pcb WAITING 0 [2%positive; 8%positive];
                   5%positive := set_p_wake_up 5 (demo_pcb WAITING 0 []);
                   6%positive := set_p_wake_up 9 (demo_pcb WAITING 0 []);
                   7%positive := demo_pcb READY 0 [];
                   8%positive := demo_pcb EXITED 3 [] ]};
     st_next := 9; st_malloc := []; st_pid_calls := [] |}.
Definition demo_sched : sched_t :=
  {| sleepers := {| h_arr := [Some 5%positive; Some 6%positive; None]; h_length := 2;
                    h_current_size := 3 |};
     num_ticks := 6; running_proc := Some 1%positive; idle_proc := Some 7%positive;
     main_queue := {| qu_ends := {| q_first := Some 2%positive; q_last := Some 3%positive |};
                      qu_length := 2 |};
     wait_queue := {| qu_ends := {| q_first := Some 4%positive; q_last := Some 4%positive |};
                      qu_length := 1 |};
     io_queue := queue_empty |}.

Lemma demo_sched_inv :
  sched_inv (demo_procs, demo_sched) [2%positive; 3%positive] [4%positive] [5%positive; 6%positive].
Proof.
  split; simpl.
  - split; [|done]. split; try done; [by apply (bool_decide_unpack _)|].
    intros [|[|i]] a Hi; simplify_eq/=; eexists; split; reflexivity.
  - split; [|done]. split; try done; [by apply (bool_decide_unpack _)|].
    intros [|i] a Hi; simplify_eq/=; eexists; split; reflexivity.
  - split; try done; simpl; [by exists [None]|].
    intros a [->|[->|[]%not_elem_of_nil]%elem_of_cons]%elem_of_cons; by eexists.
  - intros [|[|i]] [? Hi]; simpl in *; [lia|vm_compute; done|lia].
  - by apply (bool_decide_unpack _).
  - intros p [= <-]. by apply (bool_decide_unpack _).
Defined.
Lemma demo_1_unqueued : 1%positive ∉ [2%positive; 3%positive] ++ [4%positive] ++ [5%positive; 6%positive].
Proof. by apply (bool_decide_unpack _). Defined.

(** ** Properties *)

(** C33: the ready queue is served round robin.  When the running process is
    scheduled and the next process chosen, as on a clock interrupt, the one
    that runs next is the first of the ready queue with the running process
    added at its end, and it is in state RUNNING; the others keep their order.
    Only the idle process is never queued, and it runs when no one is ready. *)
Theorem round_robin (st : store) (sc : sched_t) (R W S : list addr) (p idle : addr) :
  sched_inv (st, sc) R W S -> p ∉ R ++ W ++ S -> is_Some (st_pcbs st !! p) ->
  idle_proc sc = Some idle ->
  exists q s', (schedule_process p;; get_next_process) (st, sc) = Some (q, s') /\
    match (if decide (p = idle) then R else R ++ [p]) with
    | [] => q = idle /\ s' = (st, sc)
    | q' :: R' => q = q' /\ sched_inv s' R' W S /\
        exists b, st_pcbs s'.1 !! q = Some b /\ p_state b = RUNNING
    end.
Proof.
  intros Hinv Hp [b Hb] Hidle. apply (proj1 (wp_run _ _ _)). wp_step.
  eapply wp_mono; [by apply (schedule_process_ok _ _ R W S p b)|]. intros [] s1 Hs1.
  rewrite Hidle in Hs1. destruct (decide (p = idle)) as [->|Hne].
  - rewrite decide_True in Hs1 by done. subst s1.
    eapply wp_mono; [by apply (get_next_process_ok _ _ R W S idle)|]. intros q s' Hq.
    destruct R as [|r R]; [done|]. destruct Hq as (-> & Hinv' & b' & n & q' & _ & _ & E).
    do 2 (split; [done|]). rewrite E. simpl. rewrite lookup_insert_eq. by eexists.
  - rewrite decide_False in Hs1 by congruence. destruct s1 as [st1 sc1].
    destruct Hs1 as (Hinv1 & _ & q1 & E1). simpl in E1. subst sc1.
    eapply wp_mono; [by apply (get_next_process_ok _ _ (R ++ [p]) W S idle)|]. intros q s' Hq.
    destruct (R ++ [p]) as [|r R'] eqn:E; [by destruct R|].
    destruct Hq as (-> & Hinv' & b' & n & q' & _ & _ & E').
    do 2 (split; [done|]). rewrite E'. simpl. rewrite lookup_insert_eq. by eexists.
Qed.

Lemma round_robin_witness :
  exists q s', (schedule_process 1;; get_next_process) (demo_procs, demo_sched) = Some (q, s') /\
    q = 2%positive /\ sched_inv s' [3%positive; 1%positive] [4%positive] [5%positive; 6%positive].
Proof.
  destruct (round_robin demo_procs demo_sched _ _ _ 1 7 demo_sched_inv demo_1_unqueued
    ltac:(by eexists) eq_refl) as (q & s' & Hrun & Hq & Hinv & _).
  by exists q, s'.
Defined.

(** C34: [wake_sleepers] moves to the end of the ready queue exactly the
    sleepers whose wake-up tick has come, earliest first, and ends; the ones
    left are all due later, and no process control block changes but for its
    queue link. *)
Theorem wake_sleepers_exactly_due (st : store) (sc : sched_t) (R W S : list addr) :
  sched_inv (st, sc) R W S ->
  exists woken S' s', wake_sleepers (st, sc) = Some (tt, s') /\
    S ≡ₚ woken ++ S' /\ sched_inv s' (R ++ woken) W S' /\
    Forall (fun a => wake st a <= num_ticks sc) woken /\
    Forall (fun a => num_ticks sc < wake st a) S' /\
    StronglySorted (fun a b => wake st a <= wake st b) woken /\
    (forall a, set_p_next None <$> st_pcbs s'.1 !! a = set_p_next None <$> st_pcbs st !! a).
Proof.
  intros Hinv. destruct (proj1 (wp_run _ _ _) (wake_sleepers_ok st sc R W S Hinv))
    as ([] & s' & Hrun & woken & S' & Hwu & Hlate).
  exists woken, S', s'. destruct Hwu. by split_and!.
Qed.

Lemma wake_sleepers_exactly_due_witness :
  exists woken S' s', wake_sleepers (demo_procs, demo_sched) = Some (tt, s') /\
    [5%positive; 6%positive] ≡ₚ woken ++ S' /\
    option_map q_last (Some (qu_ends (main_queue s'.2))) = Some (Some 5%positive).
Proof.
  destruct (wake_sleepers_exactly_due demo_procs demo_sched _ _ _ demo_sched_inv)
    as (woken & S' & s' & Hrun & Hp & _).
  exists woken, S', s'. split; [exact Hrun|]. split; [exact Hp|].
  vm_compute in Hrun. injection Hrun as <-. reflexivity.
Defined.

(** [put_to_sleep] on a process that is in no queue makes it sleep until
    the current tick plus [t], computed as a C [int], in state WAITING; if the
    heap of sleepers cannot be grown, the process stays in state RUNNING and
    no one else is affected. *)
Theorem put_to_sleep_arms (st : store) (sc : sched_t) (R W S : list addr) (p : addr) (b : pcb) (t : Z) :
  sched_inv (st, sc) R W S -> p ∉ R ++ W ++ S -> st_pcbs st !! p = Some b ->
  idle_proc sc <> Some p ->
  exists ok s', put_to_sleep p t (st, sc) = Some (ok, s') /\
    st_pcbs s'.1 = <[p := set_p_state (if ok : bool then WAITING else RUNNING)
                            (set_p_wake_up (to_i32 (num_ticks sc + t)) b)]> (st_pcbs st) /\
    exists S', sched_inv s' R W S' /\ if ok then S' ≡ₚ p :: S else S' = S.
Proof.
  intros Hinv Hp Hb Hidle.
  destruct (proj1 (wp_run _ _ _) (put_to_sleep_ok st sc R W S p b t Hinv Hp Hb Hidle))
    as (ok & s' & Hrun & _ & Hres). exists ok, s'. split; [done|]. destruct ok.
  - destruct Hres as (? & S' & ? & ?). split; [done|]. by exists S'.
  - destruct Hres as (? & ?). split; [done|]. by exists S.
Qed.

Lemma put_to_sleep_arms_witness :
  exists ok s', put_to_sleep 1 2 (demo_procs, demo_sched) = Some (ok, s') /\ ok = true /\
    h_arr (sleepers s'.2) = [Some 5%positive; Some 6%positive; Some 1%positive].
Proof.
  destruct (put_to_sleep_arms demo_procs demo_sched _ _ _ 1 (demo_pcb RUNNING 0 []) 2
    demo_sched_inv demo_1_unqueued eq_refl ltac:(done)) as (ok & s' & Hrun & _).
  exists ok, s'. split; [exact Hrun|]. vm_compute in Hrun. injection Hrun as <- <-. by split.
Defined.
