(* ===== verification/Waiters.v ===== *)
(** * Waking the parents of exited processes ([wake_waiters] of [scheduler.c])

    [wake_waiters] scans the queue of the processes blocked in [Wait] and makes
    ready those with an exited child, giving each the exit code of its first
    one and freeing that child's block.  The definitions are in [Scheduler];
    this file proves what the loop does to the queues, to the woken parents and
    to the rest of the C heap. *)

From S2P Require Import Prelude Machine Pcb Fifo SleepHeap Scheduler.

(** ** Waking the parents whose children have exited *)

Lemma list_find_ext_in {A} (f g : A -> bool) (l : list A) :
  (forall x, x ∈ l -> f x = g x) ->
  list_find (fun x => f x = true) l = list_find (fun x => g x = true) l.
Proof.
  induction l as [|x l IH]; intros Hfg; [done|]. simpl. rewrite IH by set_solver.
  assert (f x = g x) as E by set_solver. do 2 case_decide; congruence.
Qed.
Lemma filter_ext_in {A} (f g : A -> bool) b (l : list A) :
  (forall x, x ∈ l -> f x = g x) ->
  filter (fun x => f x = b) l = filter (fun x => g x = b) l.
Proof.
  induction l as [|x l IH]; intros Hfg; [done|]. rewrite !filter_cons, IH by set_solver.
  assert (f x = g x) as E by set_solver. do 2 case_decide; congruence.
Qed.

Lemma filter_bool_none {A} (P : A -> bool) (l : list A) :
  (forall x, x ∈ l -> P x <> true) ->
  filter (fun x => P x = true) l = [] /\ filter (fun x => P x = false) l = l.
Proof.
  induction l as [|x l IH]; intros Hl; [done|]. rewrite !filter_cons.
  destruct IH as [-> ->]; [set_solver|]. assert (P x <> true) by set_solver.
  rewrite decide_False by done. rewrite decide_True; [done|]. by apply not_true_is_false.
Qed.
(** The first element that satisfies [P] is the first of the filtered list. *)
Lemma filter_bool_delete {A} (P : A -> bool) (l : list A) : forall i c,
  l !! i = Some c -> P c = true -> (forall j y, l !! j = Some y -> (j < i)%nat -> P y <> true) ->
  filter (fun x => P x = true) l = c :: filter (fun x => P x = true) (delete i l) /\
  filter (fun x => P x = false) l = filter (fun x => P x = false) (delete i l).
Proof.
  induction l as [|x l IH]; intros i c Hi Hc Hfirst; [done|]. rewrite !filter_cons.
  destruct i as [|i]; simplify_eq/=.
  - by rewrite decide_True, decide_False by congruence.
  - pose proof (Hfirst 0%nat x eq_refl ltac:(lia)) as Hx. apply not_true_is_false in Hx.
    destruct (IH i c Hi Hc) as [-> ->].
    { intros j y Hj ?. apply (Hfirst (Datatypes.S j) y); [done|lia]. }
    rewrite !filter_cons, !Hx. split; reflexivity.
Qed.

Section families.
(** The children of each waiting process. *)
Context (fam : addr -> list addr).

(** A waiting process has an exited child. *)
Definition has_exited_child (st : store) (w : addr) : bool :=
  match list_find (fun k => exited st k = true) (fam w) with Some _ => true | None => false end.

(** The waiting processes [W] have the children [fam]; the families are
    apart and no queued process has exited. *)
Record families_ok (st : store) (Q W : list addr) : Prop := {
  fo_children : forall w, w ∈ W -> exists b, st_pcbs st !! w = Some b /\
    rel_repr (p_relations b) (fam w);
  fo_live : forall w k, w ∈ W -> k ∈ fam w -> is_Some (st_pcbs st !! k);
  fo_self : forall w, w ∈ W -> w ∉ fam w;
  fo_apart : forall w w' k, w ∈ W -> w' ∈ W -> k ∈ fam w -> k ∈ fam w' -> w = w';
  fo_alive : forall a, a ∈ Q -> exited st a = false
}.

(** The block of a parent that was given the exit code of the child [k], the
    [j]-th, but for its link. *)
Definition reaped (b bk : pcb) (r : rel_t) : pcb :=
  set_p_uc (uc_set_reg1 (p_exit_code bk) (p_uc b)) (set_p_relations r b).

Definition reap_step (st : store) (w : addr) (st' : store) : Prop :=
  exists b j k bk r, st_pcbs st !! w = Some b /\
    list_find (fun k => exited st k = true) (fam w) = Some (j, k) /\
    st_pcbs st !! k = Some bk /\ rel_repr r (delete j (fam w)) /\ has_parent r = has_parent (p_relations b) /\
    st_pcbs st' = <[w := reaped b bk r]> (delete k (st_pcbs st)) /\
    st_next st' = st_next st /\ st_pid_calls st' = st_pid_calls st.

Lemma wait_unblock_cond_ok st Q W w :
  families_ok st Q W -> w ∈ W ->
  wp (wait_unblock_cond w) (fun r st' => r = has_exited_child st w /\
    if r : bool then reap_step st w st' else same_blocks st st') st.
Proof.
  intros Hfo Hw. destruct (fo_children _ _ _ Hfo w Hw) as (b & Hb & Hr).
  unfold wait_unblock_cond, has_exited_child. wp_step.
  eapply wp_mono; [eapply find_exited_child_ok; [done|done| |by eapply fo_self]|].
  { intros k Hk. by eapply fo_live. }
  intros code st' (Hnx & Hpid & Hres).
  destruct (list_find _ (fam w)) as [[j k]|] eqn:Hfind.
  - destruct Hres as (bk & r & Hbk & -> & Hr' & Hrp & Hst'). wp_steps.
    eapply wp_update; [by rewrite Hst', lookup_insert_eq|]. wp_steps. split; [done|].
    exists b, j, k, bk, r. simpl. rewrite Hst', insert_insert_eq. done.
  - destruct Hres as [-> Hst']. wp_steps. done.
Qed.

Lemma reap_step_keeps st Q W w st' :
  families_ok st Q W -> w ∈ W -> reap_step st w st' -> keeps st st' Q.
Proof.
  intros Hfo Hw (b & j & k & bk & r & Hb & Hfind & Hbk & _ & _ & Hst' & _) a ba Ha Hba.
  apply list_find_Some in Hfind as (_ & Hex & _).
  assert (a <> k) as Hak by (intros ->; by rewrite (fo_alive _ _ _ Hfo k Ha) in Hex).
  rewrite Hst'. destruct (decide (w = a)) as [->|].
  - rewrite lookup_insert_eq. simplify_eq. by eexists.
  - rewrite lookup_insert_ne, lookup_delete_ne by done. by eexists.
Qed.

(** One turn of the loop: the first parent with an exited child. *)
Lemma find_waiter_ok st sc R W S :
  sched_inv (st, sc) R W S -> families_ok st (R ++ W ++ S) W ->
  wp (find_blocked_process WAIT_BLOCKING_QUEUE wait_unblock_cond) (fun r s' =>
    same_clock sc s'.2 /\
    match list_find (fun w => has_exited_child st w = true) W with
    | None => r = None /\ same_blocks st s'.1 /\ sched_inv s' R W S
    | Some (i, c) => exists st1, r = Some c /\ reap_step st c st1 /\ next_only st1 s'.1 W /\
        sched_inv s' R (delete i W) S
    end) (st, sc).
Proof.
  intros Hinv Hfo. unfold find_blocked_process. wp_steps.
  change (queue WAIT_BLOCKING_QUEUE (st, sc).2) with (wait_queue sc).
  change (lget (st, sc)) with st.
  destruct (si_wait _ _ _ _ Hinv) as [Hr Hlen]. cbn [fst snd] in *.
  rewrite (fr_first _ _ _ Hr). replace (head W) with (W !! 0%nat) by (by destruct W).
  rewrite Hlen at 1. rewrite Nat2Z.id.
  assert (forall w, w ∈ W -> w ∈ R ++ W ++ S) as HW by set_solver.
  eapply wp_mono; [apply (find_blocked_loop_ok _ (has_exited_child st) (reap_step st) st
    (wait_queue sc) W (si_wait _ _ _ _ Hinv)) with (i := 0%nat)|].
  - intros c st1 Hc HP (Hpc & Hnx & Hpid).
    assert (families_ok st1 (R ++ W ++ S) W) as Hfo1.
    { destruct Hfo. split; unfold exited in *; rewrite ?Hpc; done. }
    eapply wp_mono; [by eapply wait_unblock_cond_ok|]. intros r st' [-> Hres].
    assert (has_exited_child st1 c = false) as E.
    { rewrite <- HP. unfold has_exited_child, exited. by rewrite Hpc. }
    rewrite E in *. split; [done|]. destruct Hres as (? & ? & ?). repeat split; congruence.
  - intros c st1 Hc HP (Hpc & Hnx & Hpid).
    assert (families_ok st1 (R ++ W ++ S) W) as Hfo1.
    { destruct Hfo. split; unfold exited in *; rewrite ?Hpc; done. }
    eapply wp_mono; [by eapply wait_unblock_cond_ok|]. intros r st' [-> Hres].
    assert (has_exited_child st1 c = true) as E.
    { rewrite <- HP. unfold has_exited_child, exited. by rewrite Hpc. }
    rewrite E in *. split; [done|].
    assert (reap_step st c st') as Hstep.
    { destruct Hres as (b & j & k & bk & r & Hb & Hf & Hbk & Hrr & Hrp & Hst' & ? & ?).
      unfold exited in Hf. rewrite Hpc in *. exists b, j, k, bk, r.
      split; [done|]. split; [exact Hf|]. do 4 (split; [done|]). split; congruence. }
    split; [done|]. eapply keeps_mono; [by eapply reap_step_keeps|done].
  - lia.
  - lia.
  - done.
  - constructor.
  - intros r st' Hfound. wp_steps. simpl. split; [done|]. unfold found_blocked in Hfound.
    destruct (list_find _ W) as [[i c]|] eqn:Hfind.
    2: { destruct Hfound as [-> Hsb]. split; [done|]. split; [done|].
         apply (sched_inv_keeps st); [|by apply keeps_same; apply Hsb]. by destruct sc. }
    destruct Hfound as (st1 & q' & -> & Hstep & Hq' & Hlinks). exists st1. simpl.
    do 3 (split; [done|]). apply list_find_Some in Hfind as (Hi & _ & _).
    assert (W ≡ₚ c :: delete i W) as Hperm by (by apply delete_Permutation).
    assert (c ∈ W) as Hc by (by eapply list_elem_of_lookup_2).
    pose proof (reap_step_keeps _ _ _ _ _ Hfo Hc Hstep) as Hk.
    pose proof (sched_inv_keeps _ _ _ _ _ _ Hinv Hk) as [H1 H2 H3 H4 H5 H6]. simpl in *.
    destruct (heap_keeps st1 st' (sleepers sc) S) as [? ?]; [done|done| |].
    { by eapply keeps_wake_next_only. }
    split; simpl; try done.
    + eapply queue_repr_keeps; [done|]. eapply keeps_next_only; [done|].
      intros a Ha HaW. apply NoDup_app in H5 as (_ & Hd & _). apply (Hd a Ha). set_solver.
    + rewrite Hperm in H5. simpl in H5. rewrite <- Permutation_middle in H5.
      by apply NoDup_cons in H5 as [_ H5].
    + intros a Ha Hin. apply (H6 a Ha). rewrite Hperm. set_solver.
Qed.
(** ** The loop *)

(** The child [a] is the first exited one of a process of [W]. *)
Definition first_exited_of (st : store) (W : list addr) (a : addr) : Prop :=
  exists w j, w ∈ W /\ list_find (fun k => exited st k = true) (fam w) = Some (j, a).

(** What a woken parent [w] got: it is ready, register 1 holds the exit code
    of its first exited child, which is no longer its child and is freed. *)
Definition given_status (st : store) (w : addr) (st' : store) : Prop :=
  exists b j k bk r, st_pcbs st !! w = Some b /\
    list_find (fun k => exited st k = true) (fam w) = Some (j, k) /\
    st_pcbs st !! k = Some bk /\ rel_repr r (delete j (fam w)) /\ has_parent r = has_parent (p_relations b) /\
    set_p_next None <$> st_pcbs st' !! w = Some (set_p_next None (set_p_state READY (reaped b bk r))) /\
    st_pcbs st' !! k = None.
Lemma given_status_state st w st' : given_status st w st' -> exists b', st_pcbs st' !! w = Some b' /\ p_state b' = READY.
Proof.
  intros (b & j & k & bk & r & _ & _ & _ & _ & _ & E & _). apply fmap_Some in E as (b' & Hb' & E).
  exists b'. split; [done|]. apply (f_equal p_state) in E. done.
Qed.

Lemma has_exited_child_Some st w :
  has_exited_child st w = true ->
  exists j k, list_find (fun k => exited st k = true) (fam w) = Some (j, k).
Proof. unfold has_exited_child. destruct (list_find _ _) as [[j k]|]; [eauto|done]. Qed.

(** The heap after the parent [w] was unblocked and scheduled, read off. *)
Record unblocked (st : store) (w : addr) (st' : store) : Prop := {
  ub_given : given_status st w st';
  ub_first : forall j k, list_find (fun k => exited st k = true) (fam w) = Some (j, k) ->
    st_pcbs st' !! k = None;
  ub_frame : forall a, a <> w ->
    (forall j, list_find (fun k => exited st k = true) (fam w) <> Some (j, a)) ->
    set_p_next None <$> st_pcbs st' !! a = set_p_next None <$> st_pcbs st !! a
}.

Lemma unblocked_intro st Q W w st1 st2 st3 X b1 :
  families_ok st Q W -> w ∈ W -> reap_step st w st1 -> next_only st1 st2 X ->
  st_pcbs st2 !! w = Some b1 ->
  next_only (set_pcbs (<[w := set_p_state READY b1]> (st_pcbs st2)) st2) st3 (w :: Q) ->
  unblocked st w st3.
Proof.
  intros Hfo Hw (b & j & k & bk & r & Hb & Hf & Hbk & Hr & Hrp & Hst1 & _) H12 Hb1 H23.
  pose proof (no_fields _ _ _ H12) as F12. pose proof (no_fields _ _ _ H23) as F23. simpl in F23.
  assert (k <> w) as Hkw.
  { intros ->. apply list_find_Some in Hf as (Hin & _). apply (fo_self _ _ _ Hfo w Hw).
    by eapply list_elem_of_lookup_2. }
  assert (st_pcbs st3 !! k = None) as Hk3.
  { specialize (F23 k). rewrite lookup_insert_ne in F23 by done. rewrite F12, Hst1 in F23.
    rewrite lookup_insert_ne, lookup_delete_eq in F23 by done. by apply fmap_None in F23. }
  assert (exists n, b1 = set_p_next n (reaped b bk r)) as [n ->].
  { destruct (next_only_block _ _ _ w (reaped b bk r) H12) as [n Hn].
    - by rewrite Hst1, lookup_insert_eq.
    - exists n. congruence. }
  split.
  - destruct (next_only_block _ _ _ w (set_p_state READY (set_p_next n (reaped b bk r))) H23)
      as [n' Hn']; [apply lookup_insert_eq|].
    exists b, j, k, bk, r. do 5 (split; [done|]). split; [by rewrite Hn'|done].
  - intros j' k' Hf'. rewrite Hf in Hf'. by injection Hf' as <- <-.
  - intros a Haw Ha. assert (a <> k) as Hak by (intros ->; by apply (Ha j)).
    rewrite F23, lookup_insert_ne, F12, Hst1, lookup_insert_ne, lookup_delete_ne by done. done.
Qed.

(** The exit status of a process is not in its link. *)
Lemma exited_fields st st' a :
  set_p_next None <$> st_pcbs st' !! a = set_p_next None <$> st_pcbs st !! a ->
  exited st' a = exited st a.
Proof.
  unfold exited. destruct (st_pcbs st !! a) as [x|], (st_pcbs st' !! a) as [y|]; simpl; try done.
  intros [= E]. by replace (p_state y) with (p_state x) by (by destruct x, y; simplify_eq/=).
Qed.

(** The families of the parents still waiting are as before. *)
Lemma unblocked_first st Q W w st' a :
  families_ok st Q W -> W ⊆ Q -> w ∈ W -> unblocked st w st' -> a ∈ W -> a <> w ->
  list_find (fun k => exited st' k = true) (fam a) =
  list_find (fun k => exited st k = true) (fam a).
Proof.
  intros Hfo HQ Hw Hub Ha Haw. apply list_find_ext_in. intros x Hx.
  destruct (decide (x = w)) as [->|Hne].
  - rewrite (fo_alive _ _ _ Hfo w) by auto.
    destruct (given_status_state _ _ _ (ub_given _ _ _ Hub)) as (b' & Hb' & Hs).
    unfold exited. by rewrite Hb', Hs.
  - apply exited_fields, (ub_frame _ _ _ Hub); [done|]. intros j Hf.
    apply list_find_Some in Hf as (Hin & _). apply list_elem_of_lookup_2 in Hin.
    apply Haw. by eapply (fo_apart _ _ _ Hfo).
Qed.

Lemma unblocked_families st R W S w st' i :
  families_ok st (R ++ W ++ S) W -> NoDup W -> W !! i = Some w -> unblocked st w st' ->
  families_ok st' ((R ++ [w]) ++ delete i W ++ S) (delete i W).
Proof.
  intros Hfo Hnd Hi Hub. set (W' := delete i W).
  assert (W ≡ₚ w :: W') as Hp by (by apply delete_Permutation).
  assert (w ∈ W) as Hw by (by eapply list_elem_of_lookup_2).
  assert (W' ⊆ W) as Hsub by (intros x; rewrite Hp; set_solver).
  assert (forall a, a ∈ W' -> a <> w) as Hne.
  { intros a Ha ->. rewrite Hp in Hnd. by apply NoDup_cons in Hnd as [? _]. }
  assert (forall a, a ∈ R ++ W ++ S -> a <> w ->
    set_p_next None <$> st_pcbs st' !! a = set_p_next None <$> st_pcbs st !! a) as Hfr.
  { intros a Ha Haw. apply (ub_frame _ _ _ Hub); [done|]. intros j Hf.
    apply list_find_Some in Hf as (_ & Hex & _). by rewrite (fo_alive _ _ _ Hfo a Ha) in Hex. }
  split.
  - intros a Ha. destruct (fo_children _ _ _ Hfo a) as (b & Hb & Hr); [auto|].
    assert (a ∈ R ++ W ++ S) as Ha' by (clear -Ha Hsub; set_solver).
    specialize (Hfr a Ha' (Hne a Ha)). rewrite Hb in Hfr.
    apply fmap_Some in Hfr as (b' & Hb' & E). exists b'. split; [done|].
    by replace (p_relations b') with (p_relations b) by (by destruct b, b'; simplify_eq/=).
  - intros a k Ha Hk. destruct (fo_live _ _ _ Hfo a k) as [b Hb]; [auto..|].
    destruct (decide (k = w)) as [->|Hkw].
    { destruct (given_status_state _ _ _ (ub_given _ _ _ Hub)) as (? & ? & _). eauto. }
    assert (set_p_next None <$> st_pcbs st' !! k = set_p_next None <$> st_pcbs st !! k) as E.
    { apply (ub_frame _ _ _ Hub); [done|]. intros j Hf.
      apply list_find_Some in Hf as (Hin & _). apply list_elem_of_lookup_2 in Hin.
      apply (Hne a Ha). eapply (fo_apart _ _ _ Hfo); eauto. }
    rewrite Hb in E. destruct (st_pcbs st' !! k); [eauto|done].
  - intros a Ha. apply (fo_self _ _ _ Hfo). auto.
  - intros a a' k Ha Ha'. apply (fo_apart _ _ _ Hfo); auto.
  - intros a Ha. destruct (decide (a = w)) as [->|Haw].
    + destruct (given_status_state _ _ _ (ub_given _ _ _ Hub)) as (b' & Hb' & Hs).
      unfold exited. by rewrite Hb', Hs.
    + assert (a ∈ R ++ W ++ S) as Ha' by (clear -Ha Haw Hsub; set_solver).
      rewrite (exited_fields _ _ _ (Hfr a Ha' Haw)). by apply (fo_alive _ _ _ Hfo).
Qed.

(** The status is not lost to changes of links ... *)
Lemma given_status_later st w st' st'' :
  given_status st w st' ->
  set_p_next None <$> st_pcbs st'' !! w = set_p_next None <$> st_pcbs st' !! w ->
  (forall j k, list_find (fun k => exited st k = true) (fam w) = Some (j, k) ->
     st_pcbs st'' !! k = None) ->
  given_status st w st''.
Proof.
  intros (b & j & k & bk & r & Hb & Hf & Hbk & Hr & Hrp & Hw & Hk) E Hk'.
  exists b, j, k, bk, r. do 5 (split; [done|]). split; [by rewrite E|]. by eapply Hk'.
Qed.
(** ... and is the one the heap before such changes says. *)
Lemma given_status_earlier st0 st w st' :
  given_status st w st' ->
  list_find (fun k => exited st k = true) (fam w) =
    list_find (fun k => exited st0 k = true) (fam w) ->
  set_p_next None <$> st_pcbs st !! w = set_p_next None <$> st_pcbs st0 !! w ->
  (forall j k, list_find (fun k => exited st0 k = true) (fam w) = Some (j, k) ->
     set_p_next None <$> st_pcbs st !! k = set_p_next None <$> st_pcbs st0 !! k) ->
  given_status st0 w st'.
Proof.
  intros (b & j & k & bk & r & Hb & Hf & Hbk & Hr & Hrp & Hw & Hk) Ef Ew Ek.
  rewrite Ef in Hf. specialize (Ek _ _ Hf). rewrite Hb in Ew. rewrite Hbk in Ek.
  symmetry in Ew, Ek. apply fmap_Some in Ew as (b0 & Hb0 & Ew).
  apply fmap_Some in Ek as (bk0 & Hbk0 & Ek). exists b0, j, k, bk0, r.
  do 4 (split; [done|]). split; [by destruct b, b0; simplify_eq/=|]. split; [|done]. rewrite Hw. f_equal.
  unfold reaped. assert (p_exit_code bk = p_exit_code bk0) as -> by (by destruct bk, bk0; simplify_eq/=).
  by destruct b, b0; simplify_eq/=.
Qed.

(** What [wake_waiters] does. *)
Record waiters_woken (st : store) (sc : sched_t) (R W S : list addr) (s : sched_st) : Prop := {
  ww_inv : sched_inv s (R ++ filter (fun w => has_exited_child st w = true) W)
             (filter (fun w => has_exited_child st w = false) W) S;
  ww_given : forall w, w ∈ W -> has_exited_child st w = true -> given_status st w s.1;
  ww_frame : forall a, (a ∈ W -> has_exited_child st a = false) -> ~ first_exited_of st W a ->
    set_p_next None <$> st_pcbs s.1 !! a = set_p_next None <$> st_pcbs st !! a;
  ww_clock : same_clock sc s.2
}.

Lemma wake_first_waiter_ok st sc R W S i c st1 s2 :
  sched_inv (st, sc) R W S -> families_ok st (R ++ W ++ S) W -> same_clock sc s2.2 ->
  W !! i = Some c -> reap_step st c st1 -> next_only st1 s2.1 W ->
  sched_inv s2 R (delete i W) S ->
  wp (schedule_process c) (fun _ s' => same_clock sc s'.2 /\
    sched_inv s' (R ++ [c]) (delete i W) S /\ unblocked st c s'.1) s2.
Proof.
  intros Hinv Hfo Hck Hi Hstep Hn Hinv2. destruct s2 as [st2 sc2]. simpl in *.
  assert (c ∈ W) as Hc by (by eapply list_elem_of_lookup_2).
  assert (W ≡ₚ c :: delete i W) as Hp by (by apply delete_Permutation).
  pose proof (si_nodup _ _ _ _ Hinv) as Hnd. rewrite Hp in Hnd. simpl in Hnd.
  rewrite <- Permutation_middle in Hnd. apply NoDup_cons in Hnd as [Hcn _].
  destruct (fo_children _ _ _ Hfo c Hc) as (b & Hb & _).
  assert (c ∈ R ++ W ++ S) as HcQ by (clear -Hc; set_solver).
  destruct (reap_step_keeps _ _ _ _ _ Hfo Hc Hstep c b HcQ Hb) as (b1 & Hb1 & _).
  destruct (next_only_block _ _ _ _ _ Hn Hb1) as [n Hb2].
  destruct Hck as (Ht & Hrun & Hid).
  assert (idle_proc sc <> Some c) as Hidle.
  { intros E. by apply (si_idle _ _ _ _ Hinv c E). }
  eapply wp_mono; [by eapply schedule_process_ok|]. intros [] [st3 sc3] Hres.
  rewrite decide_False in Hres by (by rewrite Hid).
  destruct Hres as (Hinv3 & Hlinks & q' & E). simpl in *. subst sc3. split; [done|].
  split; [done|]. eapply unblocked_intro; [exact Hfo|done..|].
  eapply next_only_mono; [done|]. clear. set_solver.
Qed.

Lemma wake_waiters_loop_ok fuel : forall st sc R W S,
  (length W < fuel)%nat -> sched_inv (st, sc) R W S -> families_ok st (R ++ W ++ S) W ->
  wp (wake_waiters_loop fuel) (fun _ s' => waiters_woken st sc R W S s') (st, sc).
Proof.
  induction fuel as [|fuel IH]; intros st sc R W S Hf Hinv Hfo; [lia|]. simpl. wp_step.
  eapply wp_mono; [by eapply find_waiter_ok|]. intros r s2 [Hck Hres].
  destruct (list_find _ W) as [[i c]|] eqn:Hfind.
  2: { destruct Hres as (-> & Hsb & Hinv2). wp_step. apply list_find_None in Hfind.
       rewrite Forall_forall in Hfind. split; try done.
       - destruct (filter_bool_none _ _ Hfind) as [-> ->]. by rewrite app_nil_r.
       - intros w Hw E. by destruct (Hfind w Hw).
       - intros a _ _. by rewrite (proj1 Hsb). }
  destruct Hres as (st1 & -> & Hstep & Hlinks & Hinv2). wp_step.
  apply list_find_Some in Hfind as (Hi & HP & Hfirst).
  eapply wp_mono; [by eapply wake_first_waiter_ok|]. intros [] [st3 sc3] (Hck3 & Hinv3 & Hub).
  simpl in *. pose proof (si_nodup _ _ _ _ Hinv) as Hnd.
  assert (NoDup W) as HndW by (by apply NoDup_app in Hnd as (_ & _ & (? & _)%NoDup_app)).
  pose proof (lookup_lt_Some _ _ _ Hi) as Hlt.
  eapply wp_mono; [eapply IH; [|done|by eapply unblocked_families]|].
  { rewrite length_delete by eauto. lia. }
  intros [] s4 [Hinv4 Hgiven Hframe Hck4].
  assert (forall w, w ∈ delete i W -> w ∈ W /\ w <> c) as Hrest.
  { intros w Hw. assert (W ≡ₚ c :: delete i W) as Hp by (by apply delete_Permutation).
    rewrite Hp in HndW. apply NoDup_cons in HndW as [? _]. split; [|by intros ->].
    rewrite Hp. set_solver. }
  assert (c ∈ W) as Hc by (by eapply list_elem_of_lookup_2).
  assert (forall w, w ∈ delete i W ->
    list_find (fun k => exited st3 k = true) (fam w) =
    list_find (fun k => exited st k = true) (fam w)) as Hsame.
  { intros w [Hw Hwc]%Hrest. eapply unblocked_first; [exact Hfo| |exact Hc|done..]. set_solver. }
  assert (forall w, w ∈ delete i W -> has_exited_child st3 w = has_exited_child st w) as HsameP.
  { intros w Hw. unfold has_exited_child. by rewrite Hsame. }
  destruct (filter_bool_delete (has_exited_child st) W i c Hi HP) as [E1 E2].
  { intros j y Hj Hji. by eapply Hfirst. }
  assert (forall a, a ∉ delete i W \/ has_exited_child st a = false -> 
    ~ first_exited_of st W a -> set_p_next None <$> st_pcbs s4.1 !! a = set_p_next None <$> st_pcbs st3 !! a) as Hfr4.
  { intros a Ha Hnf. apply Hframe.
    - intros Hin. rewrite HsameP by done. by destruct Ha.
    - intros (w & j & Hw & Hf'). apply Hnf. exists w, j. rewrite <- Hsame by done.
      split; [by apply Hrest|done]. }
  split.
  - rewrite E1, E2. rewrite (filter_ext_in _ _ true _ HsameP), (filter_ext_in _ _ false _ HsameP) in Hinv4.
    by rewrite <- app_assoc in Hinv4.
  - intros w Hw HPw. destruct (decide (w = c)) as [->|Hwc].
    + eapply given_status_later; [apply Hub| |].
      * apply Hfr4; [left; intros Hin; by destruct (Hrest _ Hin)|].
        intros (w & j & _ & Hf'). apply list_find_Some in Hf' as (_ & Hex & _).
        rewrite (fo_alive _ _ _ Hfo) in Hex; [done|]. clear -Hc. set_solver.
      * intros j k Hf'. pose proof (ub_first _ _ _ Hub j k Hf') as Hk3.
        assert (exited st3 k = false) as Hex3 by (unfold exited; by rewrite Hk3).
        apply (fmap_None (set_p_next None)). rewrite Hframe, Hk3; [done| |].
        -- intros Hin. apply Hrest in Hin as [Hin _]. apply list_find_Some in Hf' as (_ & Hex & _).
           rewrite (fo_alive _ _ _ Hfo) in Hex; [done|]. clear -Hin. set_solver.
        -- intros (w & j' & _ & Hf3). apply list_find_Some in Hf3 as (_ & Hex & _). congruence.
    + assert (w ∈ delete i W) as Hin.
      { rewrite (delete_Permutation W i c Hi) in Hw. by apply elem_of_cons in Hw as [?|?]. }
      eapply given_status_earlier; [apply Hgiven; [done|by rewrite HsameP]|by apply Hsame| |].
      * apply (ub_frame _ _ _ Hub); [done|]. intros j Hf'. apply list_find_Some in Hf' as (_ & Hex & _).
        rewrite (fo_alive _ _ _ Hfo) in Hex; [done|]. clear -Hw. set_solver.
      * intros j k Hf'. apply list_find_Some in Hf' as (Hkin & Hex & _).
        apply list_elem_of_lookup_2 in Hkin. apply (ub_frame _ _ _ Hub).
        -- intros ->. rewrite (fo_alive _ _ _ Hfo) in Hex; [done|]. clear -Hc. set_solver.
        -- intros j' Hf'. apply list_find_Some in Hf' as (Hkin' & _).
           apply list_elem_of_lookup_2 in Hkin'. by apply Hwc, (fo_apart _ _ _ Hfo w c k).
  - intros a Ha Hnf. rewrite Hfr4; [|clear -Ha Hrest; destruct (decide (a ∈ delete i W)); [right; apply Ha; by apply Hrest|by left]|done].
    apply (ub_frame _ _ _ Hub).
    + intros ->. rewrite Ha in HP by done. done.
    + intros j Hf'. apply Hnf. by exists c, j.
  - destruct Hck3 as (? & ? & ?), Hck4 as (? & ? & ?). repeat split; congruence.
Qed.

Lemma wake_waiters_ok st sc R W S :
  sched_inv (st, sc) R W S -> families_ok st (R ++ W ++ S) W ->
  wp wake_waiters (fun _ s' => waiters_woken st sc R W S s') (st, sc).
Proof.
  intros Hinv Hfo. unfold wake_waiters. wp_steps.
  apply wake_waiters_loop_ok; [|done..]. destruct (si_wait _ _ _ _ Hinv) as [_ E].
  simpl in *. lia.
Qed.
End families.

(** Nobody waits, nobody sleeps. *)
Lemma no_waiters st sc R S :
  sched_inv (st, sc) R [] S -> wake_waiters (st, sc) = Some (tt, (st, sc)).
Proof.
  intros [_ [Hq Hl] _ _ _ _]. simpl in Hq, Hl.
  unfold wake_waiters, mbind, M_bind, gets. cbn [fst snd]. rewrite Hl. change (Z.to_nat _) with 0%nat.
  simpl. unfold find_blocked_process, mbind, M_bind, gets, zoom. cbn [fst snd lget lens_fst queue].
  rewrite Hl, (fr_first _ _ _ Hq). simpl. unfold modify, mret, M_ret. simpl. by destruct sc.
Qed.
Lemma no_sleepers st sc R W :
  sched_inv (st, sc) R W [] -> wake_sleepers (st, sc) = Some (tt, (st, sc)).
Proof.
  intros Hinv. pose proof (hr_length _ _ _ (si_heap _ _ _ _ Hinv)) as Hl. simpl in Hl.
  unfold wake_sleepers, mbind, M_bind, gets. cbn [fst snd while_]. unfold mbind, M_bind. cbn [fst snd].
  rewrite Hl. unfold while_. cbn. unfold mbind, M_bind. cbn [fst snd]. by rewrite Hl.
Qed.

(** ** Properties *)

(** The children of the one waiting process of the concrete scheduler. *)
Definition demo_family (w : addr) : list addr := [2%positive; 8%positive].
Lemma demo_families_ok :
  families_ok demo_family demo_procs
    ([2%positive; 3%positive] ++ [4%positive] ++ [5%positive; 6%positive]) [4%positive].
Proof.
  split.
  - intros w ->%list_elem_of_singleton. eexists. split; [done|]. apply demo_pcb_repr.
  - intros w k _ [->|[->|[]%not_elem_of_nil]%elem_of_cons]%elem_of_cons; by eexists.
  - intros w ->%list_elem_of_singleton. by apply (bool_decide_unpack _).
  - by intros w w' k ->%list_elem_of_singleton ->%list_elem_of_singleton.
  - apply Forall_forall. by repeat constructor.
Defined.

(** C35: [wake_waiters] ends, and of the processes blocked in [Wait] it makes
    ready, in their order, exactly those that have an exited child.  Each of
    them gets the exit code of its first exited child in register 1, that child
    leaves its list of children and its block is freed; every other process
    keeps its block, but for its queue link. *)
Theorem wake_waiters_exact (fam : addr -> list addr) (st : store) (sc : sched_t)
    (R W S : list addr) :
  sched_inv (st, sc) R W S -> families_ok fam st (R ++ W ++ S) W ->
  exists s', wake_waiters (st, sc) = Some (tt, s') /\
    sched_inv s' (R ++ filter (fun w => has_exited_child fam st w = true) W)
      (filter (fun w => has_exited_child fam st w = false) W) S /\
    (forall w, w ∈ W -> has_exited_child fam st w = true -> given_status fam st w s'.1) /\
    (forall a, (a ∈ W -> has_exited_child fam st a = false) -> ~ first_exited_of fam st W a ->
       set_p_next None <$> st_pcbs s'.1 !! a = set_p_next None <$> st_pcbs st !! a).
Proof.
  intros Hinv Hfo. destruct (proj1 (wp_run _ _ _) (wake_waiters_ok fam st sc R W S Hinv Hfo))
    as ([] & s' & Hrun & Hww). exists s'. destruct Hww. by split_and!.
Qed.

Lemma wake_waiters_exact_witness :
  exists s', wake_waiters (demo_procs, demo_sched) = Some (tt, s') /\
    given_status demo_family demo_procs 4 s'.1 /\ st_pcbs s'.1 !! 8%positive = None.
Proof.
  destruct (wake_waiters_exact demo_family demo_procs demo_sched _ _ _ demo_sched_inv
    demo_families_ok) as (s' & Hrun & _ & Hgiven & _).
  exists s'. split; [exact Hrun|]. split; [apply Hgiven; [by left|reflexivity]|].
  vm_compute in Hrun. injection Hrun as <-. reflexivity.
Defined.
