(* ===== verification/Identifiers.v ===== *)
(** * Identifiers of kernel objects ([identifiers.h])

    An identifier carries the kind of the object in its top two bits and the
    index of the object in its table in the others. *)

From S2P Require Import Prelude.

Definition SEM_FLAG : Z := 0.
Definition PIPE_FLAG : Z := 1.
Definition LOCK_FLAG : Z := 2.
Definition CVAR_FLAG : Z := 3.

Definition FLAG_MASK : Z := 3221225472.
Definition FLAG_SHIFT : Z := 30.
Definition ID_MASK : Z := to_u32 (Z.lnot FLAG_MASK).

Definition IS_PIPE_ID (n : Z) : bool := Z.shiftr (to_u32 n) FLAG_SHIFT =? PIPE_FLAG.
Definition IS_LOCK_ID (n : Z) : bool := Z.shiftr (to_u32 n) FLAG_SHIFT =? LOCK_FLAG.
Definition IS_CVAR_ID (n : Z) : bool := Z.shiftr (to_u32 n) FLAG_SHIFT =? CVAR_FLAG.
Definition IS_SEM_ID (n : Z) : bool := Z.shiftr (to_u32 n) FLAG_SHIFT =? SEM_FLAG.

Definition GET_ID (n : Z) : Z := Z.land (to_u32 n) ID_MASK.
Definition CREATE_ID (flag id : Z) : Z :=
  Z.lor (to_u32 (Z.shiftl (to_u32 flag) FLAG_SHIFT)) (Z.land (to_u32 id) ID_MASK).

(** ** Lemmas *)

Lemma to_u32_i32 n : to_u32 (to_i32 n) = to_u32 n.
Proof.
  unfold to_u32, to_i32. rewrite Zminus_mod, Zmod_mod, <- Zminus_mod. f_equal. lia.
Qed.
Lemma to_u32_small n : 0 <= n < 4294967296 -> to_u32 n = n.
Proof. apply Z.mod_small. Qed.

Lemma land_id_mask n : Z.land n ID_MASK = n mod 2 ^ 30.
Proof. change ID_MASK with (Z.ones 30). by rewrite Z.land_ones. Qed.

Lemma create_id_sum flag id :
  0 <= flag < 4 -> 0 <= id < 2 ^ 30 -> CREATE_ID flag id = flag * 2 ^ 30 + id.
Proof.
  intros Hf Hi. unfold CREATE_ID, FLAG_SHIFT. rewrite land_id_mask.
  rewrite (to_u32_small flag), (to_u32_small id) by lia. rewrite (Z.mod_small id) by lia.
  rewrite Z.shiftl_mul_pow2 by lia. rewrite to_u32_small by lia.
  symmetry. apply Z.add_nocarry_lor.
  rewrite <- (Z.mod_small id (2 ^ 30)), <- Z.land_ones by lia.
  rewrite <- Z.shiftl_mul_pow2 by lia. apply Z.bits_inj'. intros n Hn.
  rewrite !Z.land_spec, Z.bits_0. destruct (decide (n < 30)).
  - by rewrite Z.shiftl_spec_low by lia.
  - rewrite (Z.ones_spec_high 30) by lia. by rewrite !andb_false_r.
Qed.

Lemma id_kind flag id :
  0 <= flag < 4 -> 0 <= id < 2 ^ 30 -> Z.shiftr (to_u32 (to_i32 (CREATE_ID flag id))) FLAG_SHIFT = flag.
Proof.
  intros Hf Hi. rewrite to_u32_i32, create_id_sum, to_u32_small by lia. unfold FLAG_SHIFT.
  rewrite Z.shiftr_div_pow2 by lia. rewrite Z.div_add_l by lia. rewrite Z.div_small by lia. lia.
Qed.
Lemma id_index flag id :
  0 <= flag < 4 -> 0 <= id < 2 ^ 30 -> GET_ID (to_i32 (CREATE_ID flag id)) = id.
Proof.
  intros Hf Hi. unfold GET_ID. rewrite to_u32_i32, create_id_sum, to_u32_small, land_id_mask by lia.
  rewrite Z.add_comm, Z.mod_add by lia. apply Z.mod_small. lia.
Qed.

(** ** Properties *)

(** An identifier stored in a C [int] gives back the index it was made
    from, and each of the four tests is true of it exactly when it is of that
    kind, for every index below 2^30. *)
Theorem identifier_round_trip (flag id : Z) :
  0 <= flag < 4 -> 0 <= id < 2 ^ 30 ->
  let n := to_i32 (CREATE_ID flag id) in
  GET_ID n = id /\
  (IS_PIPE_ID n = true <-> flag = PIPE_FLAG) /\ (IS_LOCK_ID n = true <-> flag = LOCK_FLAG) /\
  (IS_CVAR_ID n = true <-> flag = CVAR_FLAG) /\ (IS_SEM_ID n = true <-> flag = SEM_FLAG).
Proof.
  intros Hf Hi n. unfold IS_PIPE_ID, IS_LOCK_ID, IS_CVAR_ID, IS_SEM_ID, n.
  rewrite id_kind, !Z.eqb_eq by done. split; [by apply id_index|done].
Qed.

Lemma identifier_round_trip_witness :
  GET_ID (to_i32 (CREATE_ID LOCK_FLAG 7)) = 7 /\ IS_LOCK_ID (to_i32 (CREATE_ID LOCK_FLAG 7)) = true /\
  to_i32 (CREATE_ID LOCK_FLAG 7) < 0.
Proof.
  destruct (identifier_round_trip LOCK_FLAG 7) as (H1 & _ & H2 & _); [by vm_compute..|].
  split; [exact H1|]. split; [by apply H2|by vm_compute].
Defined.
