(* ===== verification/PipeBuffer.v ===== *)
(** * The buffer of a pipe (the circular buffer of [pipe.c])

    A pipe keeps its bytes in a circular buffer that grows by doubling.  The
    specification is a list: the bytes written and not yet read, in order. *)

From S2P Require Import Prelude Machine Pcb Fifo.

(** ** Definitions *)

Record pipe_t := {
  pi_in_use : bool;
  pi_buf : option (list Z);
  pi_cap : Z;
  pi_head : Z;
  pi_len : Z;
  pi_readers : fifo
}.
Definition pipe_zero : pipe_t :=
  {| pi_in_use := false; pi_buf := None; pi_cap := 0; pi_head := 0; pi_len := 0;
     pi_readers := fifo_empty |}.

Definition set_pi_buffer (buf : option (list Z)) (cap head len : Z) (p : pipe_t) : pipe_t :=
  {| pi_in_use := pi_in_use p; pi_buf := buf; pi_cap := cap; pi_head := head; pi_len := len;
     pi_readers := pi_readers p |}.
Definition set_pi_readers (q : fifo) (p : pipe_t) : pipe_t :=
  {| pi_in_use := pi_in_use p; pi_buf := pi_buf p; pi_cap := pi_cap p; pi_head := pi_head p;
     pi_len := pi_len p; pi_readers := q |}.

(** [while (new_cap < needed) new_cap *= 2;] *)
Fixpoint double_cap (fuel : nat) (new_cap needed : Z) : option Z :=
  match fuel with
  | O => None
  | Datatypes.S fuel' =>
      if new_cap <? needed then double_cap fuel' (new_cap * 2) needed else Some new_cap
  end.

(** The byte [pipe->buf[(pipe->head + i) % pipe->cap]]. *)
Definition byte_at (p : pipe_t) (i : Z) : option Z :=
  buf ← pi_buf p; zget buf (Z.rem (pi_head p + i) (pi_cap p)).

(** The loop that copies the [n] bytes from [i] on to the new buffer. *)
Fixpoint linearize (n : nat) (i : Z) (p : pipe_t) (new_buf : list Z) : option (list Z) :=
  match n with
  | O => Some new_buf
  | Datatypes.S n' =>
      b ← byte_at p i;
      new_buf' ← zset new_buf i b;
      linearize n' (i + 1) p new_buf'
  end.

(** [ensure_capacity]: the result and the pipe after it. *)
Definition ensure_capacity (p : pipe_t) (needed : Z) : M store (bool * pipe_t) :=
  if needed <=? pi_cap p then mret (true, p)
  else
    new_cap ← lift_opt (double_cap (Datatypes.S (Z.to_nat needed)) (pi_cap p) needed);
    ok ← malloc;
    if negb ok then mret (false, p)
    else
      new_buf ← lift_opt (linearize (Z.to_nat (pi_len p)) 0 p (replicate (Z.to_nat new_cap) 0));
      mret (true, set_pi_buffer (Some new_buf) new_cap 0 (pi_len p) p).

(** [append_bytes], the bytes of the caller's buffer being [bytes]. *)
Fixpoint append_bytes (bytes : list Z) (p : pipe_t) : option pipe_t :=
  match bytes with
  | [] => Some p
  | b :: bs =>
      buf ← pi_buf p;
      buf' ← zset buf (Z.rem (pi_head p + pi_len p) (pi_cap p)) b;
      append_bytes bs (set_pi_buffer (Some buf') (pi_cap p) (pi_head p) (pi_len p + 1) p)
  end.

(** The loop of [read_bytes]: [n] bytes and the head after them. *)
Fixpoint take_bytes (n : nat) (p : pipe_t) : option (list Z * pipe_t) :=
  match n with
  | O => Some ([], p)
  | Datatypes.S n' =>
      buf ← pi_buf p;
      b ← zget buf (pi_head p);
      r ← take_bytes n'
        (set_pi_buffer (pi_buf p) (pi_cap p) (Z.rem (pi_head p + 1) (pi_cap p)) (pi_len p) p);
      Some (b :: r.1, r.2)
  end.
Definition read_bytes (p : pipe_t) (len : Z) : option (list Z * pipe_t) :=
  let bytes := if pi_len p <? len then pi_len p else len in
  r ← take_bytes (Z.to_nat bytes) p;
  let len' := pi_len r.2 - bytes in
  Some (r.1, set_pi_buffer (pi_buf r.2) (pi_cap r.2) (if len' =? 0 then 0 else pi_head r.2) len' r.2).

(** ** What a pipe holds *)

(** The bytes [l] are in the pipe, oldest first. *)
Record pipe_repr (p : pipe_t) (l : list Z) : Prop := {
  pr_buf : exists buf, pi_buf p = Some buf /\ zlen buf = pi_cap p;
  pr_cap : 0 < pi_cap p;
  pr_head : 0 <= pi_head p < pi_cap p;
  pr_len : pi_len p = zlen l;
  pr_fits : zlen l <= pi_cap p;
  pr_bytes : forall i b, zget l i = Some b -> byte_at p i = Some b
}.

(** ** Positions in the circular buffer *)

Lemma ring_range h i c : 0 <= h -> 0 <= i -> 0 < c -> 0 <= Z.rem (h + i) c < c.
Proof. intros. apply Z.rem_bound_pos; lia. Qed.
Lemma ring_inj h i j c : 0 <= h -> 0 <= i -> i < j -> j - i < c -> Z.rem (h + i) c <> Z.rem (h + j) c.
Proof.
  intros Hh Hi Hij Hc E. rewrite !Z.rem_mod_nonneg in E by lia.
  assert (c <> 0) as Hc0 by lia.
  pose proof (Z.div_mod (h + i) c Hc0) as E1. pose proof (Z.div_mod (h + j) c Hc0) as E2.
  rewrite E in E1. generalize dependent ((h + j) mod c). intros r _ E2 E1.
  generalize dependent ((h + i) / c). generalize dependent ((h + j) / c). intros q2 E2 q1 E1.
  assert (j - i = c * (q2 - q1)) by lia. destruct (decide (q2 <= q1)); [nia|].
  assert (1 <= q2 - q1) by lia. nia.
Qed.
Lemma ring_next h i c : 0 <= h -> 0 <= i -> 0 < c -> Z.rem (Z.rem (h + 1) c + i) c = Z.rem (h + (i + 1)) c.
Proof.
  intros. rewrite !Z.rem_mod_nonneg; try lia.
  - rewrite Z.add_mod_idemp_l by lia. f_equal. lia.
  - apply Z.add_nonneg_nonneg; [|lia]. apply Z.rem_nonneg; lia.
Qed.

Lemma zlen_cons {A} (x : A) l : zlen (x :: l) = zlen l + 1.
Proof. unfold zlen. simpl. lia. Qed.
Lemma zlen_snoc {A} (l : list A) x : zlen (l ++ [x]) = zlen l + 1.
Proof. unfold zlen. rewrite length_app. simpl. lia. Qed.
Lemma zlen_nonneg {A} (l : list A) : 0 <= zlen l.
Proof. unfold zlen. lia. Qed.
Lemma zget_snoc {A} (l : list A) x i y :
  zget (l ++ [x]) i = Some y -> (zget l i = Some y /\ 0 <= i < zlen l) \/ (i = zlen l /\ y = x).
Proof.
  intros Hg. pose proof (zget_Some _ _ _ Hg) as Hr. unfold zlen in *.
  rewrite length_app in Hr. simpl in Hr. rewrite zget_nonneg in Hg by lia. destruct (decide (i < Z.of_nat (length l))).
  - left. rewrite lookup_app_l in Hg by lia. rewrite zget_nonneg by lia. split; [done|lia].
  - right. rewrite lookup_app_r in Hg by lia.
    replace (Z.to_nat i - length l)%nat with 0%nat in Hg by lia. simpl in Hg. split; [lia|congruence].
Qed.
Lemma zget_tail {A} (x : A) l i y : zget l i = Some y -> zget (x :: l) (i + 1) = Some y.
Proof.
  intros Hg. pose proof (zget_Some _ _ _ Hg).
  rewrite zget_nonneg in Hg by lia. rewrite zget_nonneg by lia.
  replace (Z.to_nat (i + 1)) with (S (Z.to_nat i)) by lia. done.
Qed.

(** ** Appending *)

Lemma append_byte_ok p l b :
  pipe_repr p l -> zlen l < pi_cap p ->
  exists buf buf', pi_buf p = Some buf /\
    zset buf (Z.rem (pi_head p + pi_len p) (pi_cap p)) b = Some buf' /\
    pipe_repr (set_pi_buffer (Some buf') (pi_cap p) (pi_head p) (pi_len p + 1) p) (l ++ [b]).
Proof.
  intros [(buf & Hbuf & Hlen) Hcap Hhead Hl Hfits Hbytes] Hroom.
  pose proof (zlen_nonneg l). set (k := Z.rem (pi_head p + pi_len p) (pi_cap p)).
  assert (0 <= k < zlen buf) as Hk by (rewrite Hlen; apply ring_range; lia).
  exists buf, (<[Z.to_nat k := b]> buf). split; [done|]. split; [by apply zset_inside|].
  split; simpl; try done.
  - eexists. split; [done|]. by rewrite zlen_insert.
  - rewrite zlen_snoc. lia.
  - rewrite zlen_snoc. lia.
  - intros i y Hg. unfold byte_at. simpl. apply zget_snoc in Hg as [[Hg Hi]|[-> ->]].
    + specialize (Hbytes i y Hg). unfold byte_at in Hbytes. rewrite Hbuf in Hbytes. simpl in Hbytes.
      rewrite zget_insert_ne; [done|lia|]. unfold k. intros E. symmetry in E. revert E.
      apply ring_inj; lia.
    + rewrite <- Hl. fold k. by apply zget_insert_eq.
Qed.

(** The parts of a pipe that reading and writing leave alone. *)
Definition same_pipe (p p' : pipe_t) : Prop :=
  pi_in_use p' = pi_in_use p /\ pi_readers p' = pi_readers p.

Lemma append_bytes_ok bs : forall p l,
  pipe_repr p l -> zlen l + zlen bs <= pi_cap p ->
  exists p', append_bytes bs p = Some p' /\ pipe_repr p' (l ++ bs) /\ same_pipe p p'.
Proof.
  induction bs as [|b bs IH]; intros p l Hr Hroom; simpl.
  - exists p. rewrite app_nil_r. done.
  - rewrite zlen_cons in Hroom. pose proof (zlen_nonneg bs).
    destruct (append_byte_ok p l b Hr) as (buf & buf' & Hbuf & Hset & Hr'); [lia|].
    rewrite Hbuf. simpl. rewrite Hset. simpl.
    destruct (IH _ _ Hr') as (p' & Hp' & Hr'' & Hs1 & Hs2).
    { simpl. rewrite zlen_snoc. lia. }
    exists p'. split; [done|]. rewrite <- app_assoc in Hr''. done.
Qed.

(** ** Growing *)

Lemma double_cap_ok fuel : forall cap needed,
  0 < cap -> (Z.to_nat (needed - cap) < fuel)%nat ->
  exists c, double_cap fuel cap needed = Some c /\ needed <= c /\ cap <= c.
Proof.
  induction fuel as [|fuel IH]; intros cap needed Hcap Hf; [lia|]. simpl.
  destruct (Z.ltb_spec cap needed).
  - destruct (IH (cap * 2) needed) as (c & Hc & ? & ?); [lia|lia|]. exists c. split; [done|lia].
  - exists cap. split; [done|lia].
Qed.

Lemma linearize_ok p l n : forall i new_buf,
  pipe_repr p l -> 0 <= i -> i + Z.of_nat n = zlen l -> zlen l <= zlen new_buf ->
  (forall j b, 0 <= j < i -> zget l j = Some b -> zget new_buf j = Some b) ->
  exists new', linearize n i p new_buf = Some new' /\ zlen new' = zlen new_buf /\
    forall j b, zget l j = Some b -> zget new' j = Some b.
Proof.
  induction n as [|n IH]; intros i new_buf Hr Hi Hn Hfit Hdone; simpl.
  - exists new_buf. split; [done|]. split; [done|]. intros j b Hg. apply Hdone; [|done].
    apply zget_Some in Hg. lia.
  - destruct (zget_inside l i) as [b Hb]; [lia|]. rewrite (pr_bytes _ _ Hr i b Hb). simpl.
    rewrite zset_inside by lia. simpl.
    destruct (IH (i + 1) (<[Z.to_nat i := b]> new_buf)) as (new' & Hnew & Hl & Hall); try done; try lia.
    + by rewrite zlen_insert.
    + intros j b' Hj Hg. destruct (decide (j = i)) as [->|].
      * rewrite zget_insert_eq by lia. congruence.
      * rewrite zget_insert_ne by lia. apply Hdone; [lia|done].
    + exists new'. rewrite zlen_insert in Hl. done.
Qed.

Lemma ensure_capacity_ok st p l needed :
  pipe_repr p l -> 0 <= needed ->
  wp (ensure_capacity p needed) (fun r st' => same_blocks st st' /\ same_pipe p r.2 /\
    pipe_repr r.2 l /\ if r.1 then needed <= pi_cap r.2 else r.2 = p) st.
Proof.
  intros Hr Hneeded. unfold ensure_capacity. destruct (Z.leb_spec needed (pi_cap p)).
  - by wp_step.
  - pose proof (pr_cap _ _ Hr). pose proof (pr_fits _ _ Hr). pose proof (zlen_nonneg l).
    destruct (double_cap_ok (S (Z.to_nat needed)) (pi_cap p) needed) as (c & Hc & Hn & Hge); [lia|lia|].
    wp_step. eapply wp_lift_opt; [done|]. wp_step. apply wp_malloc. intros ok st' Hsb.
    destruct ok; simpl; [|by wp_step].
    destruct (linearize_ok p l (Z.to_nat (pi_len p)) 0 (replicate (Z.to_nat c) 0) Hr)
      as (buf & Hbuf & Hlen & Hall).
    { lia. }
    { rewrite (pr_len _ _ Hr). lia. }
    { unfold zlen in *. rewrite length_replicate. lia. }
    { intros j b Hj. lia. }
    wp_step. eapply wp_lift_opt; [done|]. wp_step. simpl. split; [done|]. split; [done|].
    split; [|done]. unfold zlen in Hlen. rewrite length_replicate in Hlen. fold (zlen buf) in Hlen.
    split; simpl; try lia.
    + exists buf. split; [done|lia].
    + apply Hr.
    + intros i b Hg. unfold byte_at. simpl. pose proof (zget_Some _ _ _ Hg).
      rewrite Z.rem_small by lia. by apply Hall.
Qed.

(** ** Reading *)

(** The pipe with another length field. *)
Definition with_len (n : Z) (p : pipe_t) : pipe_t :=
  set_pi_buffer (pi_buf p) (pi_cap p) (pi_head p) n p.

Lemma take_bytes_ok n : forall p l,
  pipe_repr (with_len (zlen l) p) l -> (n <= length l)%nat ->
  exists p', take_bytes n p = Some (take n l, p') /\ pi_len p' = pi_len p /\ same_pipe p p' /\
    pipe_repr (with_len (zlen (drop n l)) p') (drop n l).
Proof.
  induction n as [|n IH]; intros p l Hr Hn; simpl.
  - exists p. by rewrite take_0, drop_0.
  - destruct l as [|b l]; [simpl in Hn; lia|].
    destruct Hr as [(buf & Hbuf & Hlen) Hcap Hhead _ Hfits Hbytes]. simpl in *.
    pose proof (Hbytes 0 b eq_refl) as Hb. unfold byte_at in Hb. simpl in Hb.
    rewrite Hbuf, Z.add_0_r in Hb. simpl in Hb. rewrite Z.rem_small in Hb by lia.
    rewrite Hbuf. simpl. rewrite Hb. simpl. rewrite zlen_cons in Hfits. pose proof (zlen_nonneg l).
    set (p1 := set_pi_buffer (Some buf) (pi_cap p) (Z.rem (pi_head p + 1) (pi_cap p)) (pi_len p) p).
    destruct (IH p1 l) as (p' & Htake & Hl' & Hs' & Hrest).
    + split; simpl; try done; [by exists buf|apply ring_range; lia|lia|].
      intros i y Hg. unfold byte_at. simpl. pose proof (zget_Some _ _ _ Hg).
      rewrite ring_next by lia. pose proof (Hbytes (i + 1) y (zget_tail b l i y Hg)) as Hy.
      unfold byte_at in Hy. simpl in Hy. rewrite Hbuf in Hy. exact Hy.
    + lia.
    + rewrite Htake. simpl. by exists p'.
Qed.

Lemma read_bytes_ok p l len :
  pipe_repr p l -> 0 <= len ->
  exists p', read_bytes p len = Some (take (Z.to_nat len) l, p') /\
    pipe_repr p' (drop (Z.to_nat len) l) /\ same_pipe p p'.
Proof.
  intros Hr Hlen. unfold read_bytes. pose proof (pr_len _ _ Hr) as Hl.
  set (bytes := if pi_len p <? len then pi_len p else len).
  assert (bytes = Z.min (pi_len p) len) as Hbytes
    by (unfold bytes; destruct (Z.ltb_spec (pi_len p) len); lia).
  pose proof (zlen_nonneg l).
  assert (pipe_repr (with_len (zlen l) p) l) as Hr' by (rewrite <- Hl; by destruct Hr).
  destruct (take_bytes_ok (Z.to_nat bytes) p l Hr') as (p' & Htake & Hl' & Hs' & Hrest);
    [unfold zlen in *; lia|].
  rewrite Htake. simpl.
  assert (take (Z.to_nat len) l = take (Z.to_nat bytes) l /\ drop (Z.to_nat len) l = drop (Z.to_nat bytes) l)
    as [-> ->].
  { unfold zlen in *. destruct (decide (len <= pi_len p)).
    - by replace bytes with len by lia.
    - rewrite !take_ge, !drop_ge by lia. done. }
  eexists. split; [done|]. split; [|done].
  assert (pi_len p' - bytes = zlen (drop (Z.to_nat bytes) l)) as Erest
    by (unfold zlen in *; rewrite length_drop; lia).
  rewrite Erest. destruct (Z.eqb_spec (zlen (drop (Z.to_nat bytes) l)) 0) as [E|E]; [|done].
  destruct Hrest as [H1 H2 H3 H4 H5 H6]. simpl in *. split; simpl; try done.
  intros i b Hg. apply zget_Some in Hg. lia.
Qed.

(** ** Properties *)

(** C20: the circular buffer of a pipe, with its growth, is a queue of bytes.
    A write for which memory is found holds the bytes it held followed by the
    new ones, whatever the position in the buffer; one for which none is found
    changes nothing; and a read of at most [n] bytes takes the [n] oldest ones,
    or all when there are fewer, and leaves the rest. *)
Theorem pipe_buffer_is_queue (st : store) (p : pipe_t) (l bs : list Z) (n : Z) :
  pipe_repr p l -> 0 <= n ->
  (exists ok p1 st', ensure_capacity p (pi_len p + zlen bs) st = Some ((ok, p1), st') /\
    if ok : bool then exists p2, append_bytes bs p1 = Some p2 /\ pipe_repr p2 (l ++ bs)
    else p1 = p) /\
  (exists p', read_bytes p n = Some (take (Z.to_nat n) l, p') /\ pipe_repr p' (drop (Z.to_nat n) l)).
Proof.
  intros Hr Hn. split.
  - pose proof (pr_len _ _ Hr) as Hl. pose proof (zlen_nonneg l). pose proof (zlen_nonneg bs).
    destruct (proj1 (wp_run _ _ _) (ensure_capacity_ok st p l (pi_len p + zlen bs) Hr ltac:(lia)))
      as ([ok p1] & st' & Hrun & _ & _ & Hr1 & Hres).
    exists ok, p1, st'. split; [done|]. simpl in *. destruct ok; [|done].
    destruct (append_bytes_ok bs p1 l Hr1) as (p2 & Hp2 & Hr2 & _); [lia|]. by exists p2.
  - destruct (read_bytes_ok p l n Hr Hn) as (p' & ? & ? & _). by exists p'.
Qed.

(** A buffer of four bytes, two of them in use around its end. *)
Definition demo_pipe : pipe_t :=
  {| pi_in_use := true; pi_buf := Some [21; 0; 0; 20]; pi_cap := 4; pi_head := 3; pi_len := 2;
     pi_readers := fifo_empty |}.
Lemma demo_pipe_repr : pipe_repr demo_pipe [20; 21].
Proof.
  split; simpl; try done; [by eexists|]. intros i b Hg. pose proof (zget_Some _ _ _ Hg) as Hr.
  change (zlen [20; 21]) with 2 in Hr. assert (i = 0 \/ i = 1) as [-> | ->] by lia; done.
Defined.

Lemma pipe_buffer_is_queue_witness :
  exists ok p1 st', ensure_capacity demo_pipe (2 + 3) demo_store = Some ((ok, p1), st') /\ ok = true /\
    exists p2, append_bytes [22; 23; 24] p1 = Some p2 /\ pipe_repr p2 [20; 21; 22; 23; 24].
Proof.
  destruct (pipe_buffer_is_queue demo_store demo_pipe [20; 21] [22; 23; 24] 1 demo_pipe_repr)
    as [(ok & p1 & st' & Hrun & Hres) _]; [by vm_compute|].
  exists ok, p1, st'. split; [exact Hrun|].
  assert (ok = true) as -> by (vm_compute in Hrun; by injection Hrun).
  split; [reflexivity|exact Hres].
Defined.
