(* ===== verification/Locks.v ===== *)
(** * Locks, semaphores and condition variables (the tables of [synchronization.c])

    A lock and a semaphore are the same record: the permits left, the holders'
    process numbers (0 in a free slot) and the queue of the processes that wait
    for a permit.  The functions here are the static ones of the file; the
    system calls on them are in [Synchronization]. *)

From S2P Require Import Prelude Machine Tables Pcb Fifo SleepHeap Scheduler.

(** ** Definitions *)

Definition ACQUIRED : Z := 0.
Definition NEED : Z := -2.
Definition INITIAL_ARR_SIZE : Z := 10.

Record lock_t := {
  lk_capacity : Z;
  lk_val : Z;
  lk_in_use : bool;
  lk_queue : fifo;
  lk_pids : option (list Z);
  lk_needed_by : Z
}.
Definition lock_zero : lock_t :=
  {| lk_capacity := 0; lk_val := 0; lk_in_use := false; lk_queue := fifo_empty; lk_pids := None;
     lk_needed_by := 0 |}.
Definition set_lk_val (v : Z) (l : lock_t) : lock_t :=
  {| lk_capacity := lk_capacity l; lk_val := v; lk_in_use := lk_in_use l; lk_queue := lk_queue l;
     lk_pids := lk_pids l; lk_needed_by := lk_needed_by l |}.
Definition set_lk_queue (q : fifo) (l : lock_t) : lock_t :=
  {| lk_capacity := lk_capacity l; lk_val := lk_val l; lk_in_use := lk_in_use l; lk_queue := q;
     lk_pids := lk_pids l; lk_needed_by := lk_needed_by l |}.
Definition set_lk_pids (pids : option (list Z)) (l : lock_t) : lock_t :=
  {| lk_capacity := lk_capacity l; lk_val := lk_val l; lk_in_use := lk_in_use l;
     lk_queue := lk_queue l; lk_pids := pids; lk_needed_by := lk_needed_by l |}.
Definition set_lk_needed_by (n : Z) (l : lock_t) : lock_t :=
  {| lk_capacity := lk_capacity l; lk_val := lk_val l; lk_in_use := lk_in_use l;
     lk_queue := lk_queue l; lk_pids := lk_pids l; lk_needed_by := n |}.
Definition set_lk_in_use (b : bool) (l : lock_t) : lock_t :=
  {| lk_capacity := lk_capacity l; lk_val := lk_val l; lk_in_use := b; lk_queue := lk_queue l;
     lk_pids := lk_pids l; lk_needed_by := lk_needed_by l |}.

Record cvar_t := { cv_queue : fifo; cv_in_use : bool }.
Definition cvar_zero : cvar_t := {| cv_queue := fifo_empty; cv_in_use := false |}.

Record sync_t := {
  locks : list lock_t;
  cvars : list cvar_t;
  open_lock_idx : Z;
  open_cvar_idx : Z;
  cvar_arr_size : Z;
  lock_arr_size : Z
}.
Definition set_lock_table (ls : list lock_t) (open size : Z) (s : sync_t) : sync_t :=
  {| locks := ls; cvars := cvars s; open_lock_idx := open; open_cvar_idx := open_cvar_idx s;
     cvar_arr_size := cvar_arr_size s; lock_arr_size := size |}.
Definition set_cvar_table (cs : list cvar_t) (open size : Z) (s : sync_t) : sync_t :=
  {| locks := locks s; cvars := cs; open_lock_idx := open_lock_idx s; open_cvar_idx := open;
     cvar_arr_size := size; lock_arr_size := lock_arr_size s |}.

(** The state: the scheduler's (with the C heap) and the two tables. *)
Abbreviation sync_st := (sched_st * sync_t)%type.
#[export] Instance sync_store_lens : Lens store sync_st :=
  {| lget := fun s => s.1.1; lset := fun st s => ((st, s.1.2), s.2) |}.

Definition put_locks (ls : list lock_t) : M sync_st unit :=
  modify (fun s : sync_st => (s.1, set_lock_table ls (open_lock_idx s.2) (lock_arr_size s.2) s.2)).
Definition put_cvars (cs : list cvar_t) : M sync_st unit :=
  modify (fun s : sync_st => (s.1, set_cvar_table cs (open_cvar_idx s.2) (cvar_arr_size s.2) s.2)).
Definition get_lock (lock_id : Z) : M sync_st lock_t :=
  ls ← gets (fun s : sync_st => locks s.2); lift_opt (zget ls lock_id).
Definition update_lock (lock_id : Z) (f : lock_t -> lock_t) : M sync_st unit :=
  ls ← gets (fun s : sync_st => locks s.2);
  l ← lift_opt (zget ls lock_id);
  ls' ← lift_opt (zset ls lock_id (f l));
  put_locks ls'.
Definition get_cvar (cvar_id : Z) : M sync_st cvar_t :=
  cs ← gets (fun s : sync_st => cvars s.2); lift_opt (zget cs cvar_id).
Definition update_cvar (cvar_id : Z) (f : cvar_t -> cvar_t) : M sync_st unit :=
  cs ← gets (fun s : sync_st => cvars s.2);
  c ← lift_opt (zget cs cvar_id);
  cs' ← lift_opt (zset cs cvar_id (f c));
  put_cvars cs'.

Definition init_sync : M sync_st bool :=
  ok ← zoom malloc;
  if negb ok then put_locks [];; mret false
  else
    put_locks (replicate (Z.to_nat INITIAL_ARR_SIZE) lock_zero);;
    ok ← zoom malloc;
    if negb ok then put_cvars [];; put_locks [];; mret false
    else
      put_cvars (replicate (Z.to_nat INITIAL_ARR_SIZE) cvar_zero);;
      modify (fun s : sync_st =>
        (s.1, set_lock_table (locks s.2) (open_lock_idx s.2) INITIAL_ARR_SIZE
                (set_cvar_table (cvars s.2) (open_cvar_idx s.2) INITIAL_ARR_SIZE s.2)));;
      mret true.

(** [find(pids, p, capacity, replace)]: whether a slot holds [p], and the slots
    after the replacement. *)
Fixpoint find_from (n : nat) (i : Z) (pids : list Z) (p replace : Z) : option (bool * list Z) :=
  match n with
  | O => Some (false, pids)
  | Datatypes.S n' =>
      x ← zget pids i;
      if x =? p then
        if negb (replace =? -1) then pids' ← zset pids i replace; Some (true, pids')
        else Some (true, pids)
      else find_from n' (i + 1) pids p replace
  end.
Definition find (pids : list Z) (p capacity replace : Z) : option (bool * list Z) :=
  find_from (Z.to_nat capacity) 0 pids p replace.

(** [find(locks[lock_id].pids, ...)] *)
Definition find_in_lock (lock_id p replace : Z) : M sync_st bool :=
  l ← get_lock lock_id;
  r ← lift_opt (pids ← lk_pids l; find pids p (lk_capacity l) replace);
  update_lock lock_id (set_lk_pids (Some r.2));;
  mret r.1.

Definition acquire (lock_id : Z) (proc : addr) (cvar_use : bool) : M sync_st Z :=
  size ← gets (fun s : sync_st => lock_arr_size s.2);
  if (lock_id <? 0) || (size <=? lock_id) then mret ERROR
  else
    l ← get_lock lock_id;
    if negb (lk_in_use l) then mret ERROR
    else
      b ← zoom (load proc);
      held ← find_in_lock lock_id (p_pid b) (-1);
      if held : bool then mret ERROR
      else
        l ← get_lock lock_id;
        if 0 <? lk_val l then
          update_lock lock_id (fun l => set_lk_val (lk_val l - 1) l);;
          find_in_lock lock_id 0 (p_pid b);;
          when (negb cvar_use)
            (update_lock lock_id (fun l => set_lk_needed_by (lk_needed_by l + 1) l));;
          mret ACQUIRED
        else
          q ← zoom (insert_pcb (lk_queue l) proc);
          update_lock lock_id (set_lk_queue q);;
          when (negb cvar_use)
            (update_lock lock_id (fun l => set_lk_needed_by (lk_needed_by l + 1) l));;
          mret NEED.

Definition release (lock_id : Z) (proc : addr) (cvar_use : bool) : M sync_st bool :=
  size ← gets (fun s : sync_st => lock_arr_size s.2);
  if (lock_id <? 0) || (size <=? lock_id) then mret false
  else
    l ← get_lock lock_id;
    if negb (lk_in_use l) then mret false
    else
      b ← zoom (load proc);
      held ← find_in_lock lock_id (p_pid b) (-1);
      if negb held then mret false
      else
        l ← get_lock lock_id;
        r ← zoom (pop_pcb (lk_queue l));
        update_lock lock_id (set_lk_queue r.2);;
        match r.1 with
        | None =>
            update_lock lock_id (fun l => set_lk_val (lk_val l + 1) l);;
            find_in_lock lock_id (p_pid b) 0;;
            mret tt
        | Some next =>
            n ← zoom (load next);
            find_in_lock lock_id (p_pid b) (p_pid n);;
            zoom (schedule_process next)
        end;;
        when (negb cvar_use)
          (update_lock lock_id (fun l => set_lk_needed_by (lk_needed_by l - 1) l));;
        mret true.

Definition new_lock (capacity : Z) : M sync_st Z :=
  s ← gets (fun s : sync_st => s.2);
  grown ←
    (if lock_arr_size s <=? open_lock_idx s then
       let new_size := 2 * lock_arr_size s in
       ok ← zoom malloc;
       if negb ok then mret false
       else
         temp ← lift_opt (move_table lock_zero (locks s) (open_lock_idx s) new_size);
         modify (fun x : sync_st => (x.1, set_lock_table temp (open_lock_idx s) new_size x.2));;
         mret true
     else mret true);
  if negb grown then mret ERROR
  else
    lock_id ← gets (fun s : sync_st => open_lock_idx s.2);
    update_lock lock_id (fun _ => lock_zero);;
    ok ← zoom malloc;
    if negb ok then mret ERROR
    else
      update_lock lock_id (fun l =>
        {| lk_capacity := capacity; lk_val := capacity; lk_in_use := true; lk_queue := lk_queue l;
           lk_pids := Some (replicate (Z.to_nat capacity) 0); lk_needed_by := lk_needed_by l |});;
      s ← gets (fun s : sync_st => s.2);
      idx ← lift_opt (next_open lk_in_use (Z.to_nat (lock_arr_size s)) (open_lock_idx s)
                        (lock_arr_size s) (locks s));
      modify (fun x : sync_st => (x.1, set_lock_table (locks x.2) idx (lock_arr_size x.2) x.2));;
      mret lock_id.

Definition delete_lock (lock_id : Z) : M sync_st bool :=
  size ← gets (fun s : sync_st => lock_arr_size s.2);
  if (lock_id <? 0) || (size <=? lock_id) then mret false
  else
    l ← get_lock lock_id;
    if negb (lk_in_use l) then mret false
    else if 0 <? lk_needed_by l then mret false
    else
      update_lock lock_id (fun l => set_lk_in_use false (set_lk_pids None l));;
      modify (fun x : sync_st => (x.1, set_lock_table (locks x.2)
        (if lock_id <? open_lock_idx x.2 then lock_id else open_lock_idx x.2) size x.2));;
      s ← gets (fun s : sync_st => s.2);
      if upper_half_used lk_in_use size (locks s) then mret true
      else if open_lock_idx s <? size / 2 then
        let new_size := size / 2 in
        ok ← zoom malloc;
        if negb ok then mret true
        else
          temp ← lift_opt (move_table lock_zero (locks s) new_size new_size);
          modify (fun x : sync_st => (x.1, set_lock_table temp (open_lock_idx x.2) new_size x.2));;
          mret true
      else mret true.

Definition new_cvar : M sync_st Z :=
  s ← gets (fun s : sync_st => s.2);
  grown ←
    (if cvar_arr_size s <=? open_cvar_idx s then
       let new_size := cvar_arr_size s * 2 in
       ok ← zoom malloc;
       if negb ok then mret false
       else
         temp ← lift_opt (move_table cvar_zero (cvars s) (open_cvar_idx s) new_size);
         modify (fun x : sync_st => (x.1, set_cvar_table temp (open_cvar_idx s) new_size x.2));;
         mret true
     else mret true);
  if negb grown then mret (-1)
  else
    cvar_id ← gets (fun s : sync_st => open_cvar_idx s.2);
    update_cvar cvar_id (fun _ => {| cv_queue := fifo_empty; cv_in_use := true |});;
    s ← gets (fun s : sync_st => s.2);
    idx ← lift_opt (next_open cv_in_use (Z.to_nat (cvar_arr_size s)) (open_cvar_idx s)
                      (cvar_arr_size s) (cvars s));
    modify (fun x : sync_st => (x.1, set_cvar_table (cvars x.2) idx (cvar_arr_size x.2) x.2));;
    mret cvar_id.

Definition delete_cvar (cvar_id : Z) : M sync_st bool :=
  size ← gets (fun s : sync_st => cvar_arr_size s.2);
  if (cvar_id <? 0) || (size <=? cvar_id) then mret false
  else
    c ← get_cvar cvar_id;
    if negb (cv_in_use c) then mret false
    else if decide (q_first (cv_queue c) <> None) then mret false
    else
      update_cvar cvar_id (fun c => {| cv_queue := cv_queue c; cv_in_use := false |});;
      modify (fun x : sync_st => (x.1, set_cvar_table (cvars x.2)
        (if cvar_id <? open_cvar_idx x.2 then cvar_id else open_cvar_idx x.2) size x.2));;
      s ← gets (fun s : sync_st => s.2);
      if upper_half_used cv_in_use size (cvars s) then mret true
      else if open_cvar_idx s <? size / 2 then
        let new_size := size / 2 in
        ok ← zoom malloc;
        if negb ok then mret true
        else
          temp ← lift_opt (move_table cvar_zero (cvars s) new_size new_size);
          modify (fun x : sync_st => (x.1, set_cvar_table temp (open_cvar_idx x.2) new_size x.2));;
          mret true
      else mret true.

Definition wait_cvar (cvar_id lock_id : Z) (proc : addr) : M sync_st bool :=
  size ← gets (fun s : sync_st => cvar_arr_size s.2);
  if (cvar_id <? 0) || (size <=? cvar_id) then mret false
  else
    c ← get_cvar cvar_id;
    if negb (cv_in_use c) then mret false
    else
      ok ← release lock_id proc true;
      if negb ok then mret false
      else
        zoom (update proc (set_p_cvar_lock_id lock_id));;
        c ← get_cvar cvar_id;
        q ← zoom (insert_pcb (cv_queue c) proc);
        update_cvar cvar_id (fun c => {| cv_queue := q; cv_in_use := cv_in_use c |});;
        mret true.

(** [pop] from the queue of the condition variable. *)
Definition pop_cvar (cvar_id : Z) : M sync_st (option addr) :=
  c ← get_cvar cvar_id;
  r ← zoom (pop_pcb (cv_queue c));
  update_cvar cvar_id (fun c => {| cv_queue := r.2; cv_in_use := cv_in_use c |});;
  mret r.1.

(** A waiter taken off a condition variable goes for its lock again. *)
Definition wake_waiter (next_proc : addr) : M sync_st unit :=
  b ← zoom (load next_proc);
  r ← acquire (p_cvar_lock_id b) next_proc true;
  if r =? ACQUIRED then zoom (schedule_process next_proc) else mret tt.

Definition signal_cvar (cvar_id : Z) : M sync_st bool :=
  size ← gets (fun s : sync_st => cvar_arr_size s.2);
  if (cvar_id <? 0) || (size <=? cvar_id) then mret false
  else
    c ← get_cvar cvar_id;
    if negb (cv_in_use c) then mret false
    else
      next ← pop_cvar cvar_id;
      match next with
      | Some next_proc => wake_waiter next_proc
      | None => mret tt
      end;;
      mret true.

(** The loop of [broadcast_cvar]; [fuel] is a bound on the waiters. *)
Fixpoint broadcast_loop (fuel : nat) (cvar_id : Z) : M sync_st unit :=
  match fuel with
  | O => ub
  | Datatypes.S fuel' =>
      next ← pop_cvar cvar_id;
      match next with
      | Some next_proc => wake_waiter next_proc;; broadcast_loop fuel' cvar_id
      | None => mret tt
      end
  end.
(** No process is in a queue twice, so there are at most as many waiters as
    process control blocks. *)
Definition broadcast_cvar (cvar_id : Z) : M sync_st bool :=
  size ← gets (fun s : sync_st => cvar_arr_size s.2);
  if (cvar_id <? 0) || (size <=? cvar_id) then mret false
  else
    c ← get_cvar cvar_id;
    if negb (cv_in_use c) then mret false
    else
      fuel ← gets (fun s : sync_st => Datatypes.S (base.size (st_pcbs s.1.1)));
      broadcast_loop fuel cvar_id;;
      mret true.

(** ** The slots of a lock *)

Lemma insert_Permutation {A} (l : list A) k x y :
  l !! k = Some x -> <[k := y]> l ≡ₚ y :: delete k l.
Proof.
  intros Hk. pose proof (lookup_lt_Some _ _ _ Hk).
  rewrite insert_take_drop by done. rewrite delete_take_drop. by rewrite <- Permutation_middle.
Qed.

Lemma find_from_ok p r n : forall i pids,
  0 <= i -> i + Z.of_nat n = zlen pids ->
  find_from n i pids p r = Some (match list_find (fun x => x = p) (drop (Z.to_nat i) pids) with
    | None => (false, pids)
    | Some (k, _) => (true, if r =? -1 then pids else <[(Z.to_nat i + k)%nat := r]> pids)
    end).
Proof.
  induction n as [|n IH]; intros i pids Hi Hn; simpl.
  - rewrite drop_ge; [done|]. unfold zlen in *. lia.
  - destruct (zget_inside pids i) as [x Hx]; [lia|]. rewrite Hx. simpl.
    rewrite zget_nonneg in Hx by done. rewrite (drop_S _ x) by done. simpl.
    destruct (Z.eqb_spec x p) as [->|Hne].
    + rewrite decide_True by done. rewrite Nat.add_0_r. destruct (r =? -1); simpl; [done|].
      rewrite zset_inside by lia. done.
    + rewrite decide_False by done. rewrite IH by lia.
      replace (Z.to_nat (i + 1)) with (S (Z.to_nat i)) by lia.
      destruct (list_find _ (drop (S (Z.to_nat i)) pids)) as [[k y]|]; simpl; [|done].
      do 3 f_equal. destruct (r =? -1); [done|]. f_equal. lia.
Qed.

Lemma find_ok pids p capacity r :
  zlen pids = capacity ->
  find pids p capacity r = Some (match list_find (fun x => x = p) pids with
    | None => (false, pids)
    | Some (k, _) => (true, if r =? -1 then pids else <[k := r]> pids)
    end).
Proof.
  intros Hl. unfold find. rewrite find_from_ok; unfold zlen in *; [|lia|lia].
  change (Z.to_nat 0) with 0%nat. by rewrite drop_0.
Qed.

(** ** What a lock stands for *)

(** The number of the process at [a]. *)
Definition pid_at (st : store) (a : addr) : option Z := p_pid <$> st_pcbs st !! a.

Lemma next_only_pid_at st st' X a : next_only st st' X -> pid_at st' a = pid_at st a.
Proof. intros Hn. by apply (next_only_field p_pid _ _ _ a Hn). Qed.

(** The processes [H] (by number) hold permits of the lock, and [W] wait; the
    numbers of them all are different. *)
Record lock_repr (st : store) (lk : lock_t) (H : list Z) (W : list addr) : Prop := {
  lr_use : lk_in_use lk = true;
  lr_cap : 1 <= lk_capacity lk;
  lr_pids : exists sl, lk_pids lk = Some sl /\ zlen sl = lk_capacity lk /\
    filter (fun x => x <> 0) sl ≡ₚ H;
  lr_val : lk_val lk = lk_capacity lk - zlen H;
  lr_nodup : NoDup ((Some <$> H) ++ (pid_at st <$> W));
  lr_waiters : forall w n, w ∈ W -> pid_at st w = Some n -> 0 < n;
  lr_queue : fifo_repr st (lk_queue lk) W;
  lr_wait : W <> [] -> lk_val lk = 0
}.

Lemma lr_holders_le st lk H W : lock_repr st lk H W -> 0 <= lk_val lk.
Proof.
  intros Hr. destruct (lr_pids _ _ _ _ Hr) as (sl & _ & Hl & Hf).
  pose proof (lr_val _ _ _ _ Hr) as Hv. apply Permutation_length in Hf.
  pose proof (length_filter (fun x => x <> 0) sl). unfold zlen in *. lia.
Qed.

Lemma holders_slots sl H p :
  filter (fun x => x <> 0) sl ≡ₚ H -> p <> 0 ->
  bool_decide (p ∈ H) = match list_find (fun x => x = p) sl with Some _ => true | None => false end.
Proof.
  intros Hf Hp. destruct (list_find _ sl) as [[k x]|] eqn:E.
  - apply list_find_Some in E as (Hk & -> & _). apply bool_decide_eq_true. rewrite <- Hf.
    apply list_elem_of_filter. split; [done|]. by eapply list_elem_of_lookup_2.
  - apply list_find_None in E. rewrite Forall_forall in E. apply bool_decide_eq_false.
    rewrite <- Hf. intros [_ Hin]%list_elem_of_filter. by destruct (E p Hin).
Qed.

(** Replacing the number in a slot. *)
Lemma slot_replaced sl H k x y :
  filter (fun z => z <> 0) sl ≡ₚ H -> sl !! k = Some x ->
  exists H0, H ≡ₚ (if decide (x = 0) then H0 else x :: H0) /\
    filter (fun z => z <> 0) (<[k := y]> sl) ≡ₚ (if decide (y = 0) then H0 else y :: H0).
Proof.
  intros Hf Hk. exists (filter (fun z => z <> 0) (delete k sl)). split.
  - rewrite <- Hf, (delete_Permutation sl k x) at 1 by done. rewrite filter_cons.
    by do 2 case_decide.
  - rewrite (insert_Permutation sl k x y) by done. rewrite filter_cons. by do 2 case_decide.
Qed.

(** A lock with permits left has a free slot. *)
Lemma free_slot sl H cap :
  filter (fun z => z <> 0) sl ≡ₚ H -> zlen sl = cap -> zlen H < cap ->
  exists k, list_find (fun x => x = 0) sl = Some (k, 0).
Proof.
  intros Hf Hl Hlt. destruct (list_find (fun x => x = 0) sl) as [[k x]|] eqn:E.
  - exists k. apply list_find_Some in E as (_ & -> & _). done.
  - apply list_find_None in E. rewrite Forall_forall in E.
    assert (filter (fun z => z <> 0) sl = sl) as Eall.
    { clear -E. induction sl as [|a sl IH]; [done|]. rewrite filter_cons, decide_True by set_solver.
      f_equal. apply IH. set_solver. }
    rewrite Eall in Hf. apply Permutation_length in Hf. unfold zlen in *. lia.
Qed.

(** ** One lock of the table *)

(** The tables with [lk] for the lock [i]. *)
Definition lock_tab (i : Z) (lk : lock_t) (sy : sync_t) : sync_t :=
  set_lock_table (<[Z.to_nat i := lk]> (locks sy)) (open_lock_idx sy) (lock_arr_size sy) sy.

Section one_lock.
Context (i : Z) (sy : sync_t).
Hypothesis Hi : 0 <= i < zlen (locks sy).

Lemma lock_tab_same lk : zget (locks sy) i = Some lk -> lock_tab i lk sy = sy.
Proof.
  intros Hg. rewrite zget_nonneg in Hg by lia. unfold lock_tab.
  rewrite list_insert_id by done. by destruct sy.
Qed.
Lemma lock_tab_get lk : zget (locks (lock_tab i lk sy)) i = Some lk.
Proof. simpl. by apply zget_insert_eq. Qed.

Lemma wp_get_lock ss lk Q : Q lk (ss, lock_tab i lk sy) -> wp (get_lock i) Q (ss, lock_tab i lk sy).
Proof.
  intros HQ. unfold get_lock. wp_step. wp_step. eapply wp_lift_opt; [apply lock_tab_get|done].
Qed.
Lemma wp_update_lock ss lk f Q :
  Q tt (ss, lock_tab i (f lk) sy) -> wp (update_lock i f) Q (ss, lock_tab i lk sy).
Proof.
  intros HQ. unfold update_lock. wp_step. wp_step.
  wp_step. eapply wp_lift_opt; [apply lock_tab_get|].
  wp_step. eapply wp_lift_opt; [apply zset_inside; simpl; by rewrite zlen_insert|].
  unfold put_locks. wp_step. simpl. rewrite list_insert_insert_eq. exact HQ.
Qed.
Lemma wp_find_in_lock ss lk sl p r Q :
  lk_pids lk = Some sl -> zlen sl = lk_capacity lk ->
  (match list_find (fun x => x = p) sl with
   | None => Q false (ss, lock_tab i (set_lk_pids (Some sl) lk) sy)
   | Some (k, _) => Q true (ss, lock_tab i (set_lk_pids
       (Some (if r =? -1 then sl else <[k := r]> sl)) lk) sy)
   end) ->
  wp (find_in_lock i p r) Q (ss, lock_tab i lk sy).
Proof.
  intros Hs Hl HQ. unfold find_in_lock. wp_step. apply wp_get_lock. wp_step.
  eapply wp_lift_opt; [rewrite Hs; simpl; by apply find_ok|].
  destruct (list_find _ sl) as [[k x]|]; simpl; wp_step; apply wp_update_lock; by wp_step.
Qed.

Lemma set_lk_pids_same lk sl : lk_pids lk = Some sl -> set_lk_pids (Some sl) lk = lk.
Proof. destruct lk. simpl. by intros ->. Qed.

(** ** [acquire] *)

(** The lock after a call that keeps it needed, unless the call is for a
    condition variable's waiter. *)
Definition needed (cvar_use : bool) (d : Z) (lk : lock_t) : Z :=
  lk_needed_by lk + if cvar_use then 0 else d.
Definition counted (cvar_use : bool) (d : Z) (lk lk' : lock_t) : Prop :=
  lk_capacity lk' = lk_capacity lk /\ lk_needed_by lk' = needed cvar_use d lk.

Lemma acquire_ok st sc lk H W p b cu :
  lock_arr_size sy = zlen (locks sy) -> lock_repr st lk H W ->
  st_pcbs st !! p = Some b -> 0 < p_pid b -> pid_at st p ∉ pid_at st <$> W ->
  wp (acquire i p cu) (fun r s' =>
    if decide (p_pid b ∈ H) then r = ERROR /\ s' = ((st, sc), lock_tab i lk sy)
    else exists lk' st', s' = ((st', sc), lock_tab i lk' sy) /\
      counted cu 1 lk lk' /\
      if decide (0 < lk_val lk) then r = ACQUIRED /\ st' = st /\ lock_repr st lk' (p_pid b :: H) W
      else r = NEED /\ lock_repr st' lk' H (W ++ [p]) /\ next_only st st' (p :: W))
    ((st, sc), lock_tab i lk sy).
Proof.
  intros Hsize Hr Hb Hpid HpW. destruct (lr_pids _ _ _ _ Hr) as (sl & Hsl & Hlen & Hf).
  unfold acquire. wp_step. wp_step. simpl. rewrite Hsize.
  rewrite (proj2 (Z.ltb_ge _ _)), (proj2 (Z.leb_gt _ _)) by lia. simpl.
  wp_step. apply wp_get_lock. rewrite (lr_use _ _ _ _ Hr). simpl.
  wp_step. wp_step. eapply wp_load; [done|]. change (lset st _) with ((st, sc), lock_tab i lk sy).
  wp_step. eapply wp_find_in_lock; [done|done|]. simpl.
  pose proof (holders_slots sl H (p_pid b) Hf ltac:(lia)) as Hheld.
  rewrite (set_lk_pids_same lk sl Hsl).
  destruct (list_find (fun x => x = p_pid b) sl) as [[k x]|] eqn:Efind.
  { apply bool_decide_eq_true in Hheld. wp_step. by rewrite decide_True. }
  apply bool_decide_eq_false in Hheld. wp_step. apply wp_get_lock.
  destruct (Z.ltb_spec 0 (lk_val lk)) as [Hval|Hval].
  - pose proof (lr_val _ _ _ _ Hr) as Ev.
    destruct (free_slot sl H (lk_capacity lk) Hf Hlen) as [k Hk]; [lia|].
    wp_step. apply wp_update_lock. wp_step. eapply wp_find_in_lock; [done|done|]. rewrite Hk.
    rewrite (proj2 (Z.eqb_neq _ _)) by lia.
    apply list_find_Some in Hk as (Hk & _ & _).
    destruct (slot_replaced sl H k 0 (p_pid b) Hf Hk) as (H0 & E1 & E2).
    rewrite decide_True in E1 by done. rewrite decide_False in E2 by lia.
    assert (W = []) as ->. { destruct W; [done|]. pose proof (lr_wait _ _ _ _ Hr ltac:(done)). lia. }
    assert (forall n, lock_repr st (set_lk_needed_by n (set_lk_pids (Some (<[k := p_pid b]> sl))
      (set_lk_val (lk_val lk - 1) lk))) (p_pid b :: H) []) as Hrepr.
    { intros n. destruct Hr as [R1 R2 _ R4 R5 R6 R7 R8]. split; simpl; try done.
      - eexists. split; [done|]. split; [by rewrite zlen_insert|]. by rewrite E2, E1.
      - unfold zlen in *. simpl. lia.
      - apply NoDup_cons. split; [|done]. rewrite app_nil_r. set_solver. }
    wp_step. apply wp_when; intros Hcu.
    + apply wp_update_lock. wp_step. rewrite decide_False by done.
      eexists _, st. split; [done|]. split; [split; [done|unfold needed; by destruct cu]|].
      rewrite decide_True by done. split; [done|]. split; [done|apply Hrepr].
    + wp_step. rewrite decide_False by done. eexists _, st. split; [done|].
      split; [split; [done|unfold needed; destruct cu; [simpl; lia|done]]|]. rewrite decide_True by done.
      split; [done|]. split; [done|]. exact (Hrepr (lk_needed_by lk)).
  - assert (p ∉ W) as HpW' by (intros Hin; apply HpW; by apply list_elem_of_fmap_2).
    wp_step. wp_step. change (lget ((st, sc), lock_tab i lk sy)) with st.
    eapply wp_mono; [by apply push_ok; [apply Hr| |]|]. intros q' st' [Hq' Hn].
    change (lset st' ((st, sc), lock_tab i lk sy)) with ((st', sc), lock_tab i lk sy).
    wp_step. apply wp_update_lock.
    assert (forall n, lock_repr st' (set_lk_needed_by n (set_lk_queue q' lk)) H (W ++ [p])) as Hrepr.
    { intros n. pose proof (lr_holders_le _ _ _ _ Hr).
      destruct Hr as [R1 R2 R3 R4 R5 R6 R7 R8]. split; simpl; try done.
      - rewrite (list_fmap_ext _ (pid_at st) (W ++ [p])).
        2: { intros _ x _. by apply (next_only_pid_at _ _ _ _ Hn). }
        rewrite fmap_app, app_assoc. apply NoDup_app. split; [done|]. split; [|apply NoDup_singleton].
        unfold pid_at at 2. simpl. rewrite Hb. simpl.
        intros x Hx ->%list_elem_of_singleton. apply elem_of_app in Hx as [Hx|Hx]; [set_solver|].
        apply HpW. unfold pid_at at 1. by rewrite Hb.
      - intros w m Hw Hm. rewrite (next_only_pid_at _ _ _ w Hn) in Hm.
        apply elem_of_app in Hw as [Hw|Hw%list_elem_of_singleton]; [by apply (R6 w)|subst w].
        unfold pid_at in Hm. rewrite Hb in Hm. by simplify_eq/=.
      - lia. }
    wp_step. apply wp_when; intros Hcu.
    + apply wp_update_lock. wp_step. rewrite decide_False by done.
      eexists _, st'. split; [done|]. split; [split; [done|unfold needed; by destruct cu]|].
      rewrite decide_False by lia. split; [done|]. split; [apply Hrepr|done].
    + wp_step. rewrite decide_False by done. eexists _, st'. split; [done|].
      split; [split; [done|unfold needed; destruct cu; [simpl; lia|done]]|]. rewrite decide_False by lia.
      split; [done|]. split; [exact (Hrepr (lk_needed_by lk))|done].
Qed.
(** ** [release] *)

(** A lock is not disturbed by what leaves its waiters alone. *)
Lemma lock_repr_keeps st st' lk H W :
  lock_repr st lk H W -> keeps st st' W -> (forall a, pid_at st' a = pid_at st a) ->
  lock_repr st' lk H W.
Proof.
  intros [R1 R2 R3 R4 R5 R6 R7 R8] Hk Hp. split; try done.
  - rewrite (list_fmap_ext _ (pid_at st) W); [done|]. intros. apply Hp.
  - intros w n Hw. rewrite Hp. by apply R6.
  - by eapply fifo_repr_keeps.
Qed.

(** The holder's slot given to [n], which waited first. *)
Lemma handed_over st lk sl H W w q' k p n st' :
  lock_repr st lk H (w :: W) -> lk_pids lk = Some sl -> sl !! k = Some p -> p <> 0 ->
  pid_at st w = Some n -> fifo_repr st' q' W -> next_only st st' [w] ->
  exists H0, H ≡ₚ p :: H0 /\ forall m, lock_repr st'
    (set_lk_needed_by m (set_lk_pids (Some (<[k := n]> sl)) (set_lk_queue q' lk))) (n :: H0) W.
Proof.
  intros [R1 R2 (sl' & E & Hl & Hf) R4 R5 R6 R7 R8] Hsl Hk Hp Hn Hq Ho. rewrite Hsl in E; injection E as <-.
  destruct (slot_replaced sl H k p n Hf Hk) as (H0 & E1 & E2).
  rewrite decide_False in E1 by done. assert (0 < n) by (apply (R6 w); [set_solver|done]).
  rewrite decide_False in E2 by lia. exists H0. split; [done|]. intros m.
  assert (forall a, pid_at st' a = pid_at st a) as Hpid by (intros; by eapply next_only_pid_at).
  split; simpl; try done.
  - eexists. split; [done|]. by rewrite zlen_insert.
  - rewrite R4. unfold zlen. apply Permutation_length in E1. rewrite E1. simpl. lia.
  - rewrite (list_fmap_ext _ (pid_at st) W) by (intros; apply Hpid).
    rewrite E1 in R5. simpl in R5. rewrite Hn in R5.
    rewrite <- Permutation_middle in R5. apply NoDup_cons in R5 as [? R5].
    apply NoDup_cons in R5 as [? R5]. apply NoDup_cons. split; [set_solver|done].
  - intros a n' Ha. rewrite Hpid. apply R6. set_solver.
  - intros _. by apply R8.
Qed.

(** What [schedule_process] leaves of the blocks. *)
Lemma scheduled_frame st st' p b X :
  st_pcbs st !! p = Some b ->
  next_only (set_pcbs (<[p := set_p_state READY b]> (st_pcbs st)) st) st' X ->
  (forall a, pid_at st' a = pid_at st a) /\ p_state <$> st_pcbs st' !! p = Some READY.
Proof.
  intros Hb Hn. split.
  - intros a. rewrite (next_only_pid_at _ _ _ a Hn). unfold pid_at. simpl.
    destruct (decide (p = a)) as [->|]; [by rewrite lookup_insert_eq, Hb|by rewrite lookup_insert_ne].
  - destruct (next_only_block _ _ _ p (set_p_state READY b) Hn) as [n ->]; [|done].
    simpl. apply lookup_insert_eq.
Qed.

Lemma release_ok st sc lk H W R Wt S p b cu :
  lock_arr_size sy = zlen (locks sy) -> lock_repr st lk H W -> sched_inv (st, sc) R Wt S ->
  (forall a, a ∈ W -> a ∉ R ++ Wt ++ S /\ idle_proc sc <> Some a) ->
  st_pcbs st !! p = Some b -> 0 < p_pid b ->
  wp (release i p cu) (fun r s' =>
    if decide (p_pid b ∈ H) then
      r = true /\ exists lk' H0 st' sc', s' = ((st', sc'), lock_tab i lk' sy) /\
        counted cu (-1) lk lk' /\ H ≡ₚ p_pid b :: H0 /\
        (forall a, pid_at st' a = pid_at st a) /\
        (forall a, a ∉ W ++ R -> st_pcbs st' !! a = st_pcbs st !! a) /\
        idle_proc sc' = idle_proc sc /\
        match W with
        | [] => st' = st /\ sc' = sc /\ lock_repr st lk' H0 []
        | w :: W' => exists n, pid_at st w = Some n /\ lock_repr st' lk' (n :: H0) W' /\
            sched_inv (st', sc') (R ++ [w]) Wt S /\ p_state <$> st_pcbs st' !! w = Some READY
        end
    else r = false /\ s' = ((st, sc), lock_tab i lk sy)) ((st, sc), lock_tab i lk sy).
Proof.
  intros Hsize Hr Hinv Hdisj Hb Hpid. destruct (lr_pids _ _ _ _ Hr) as (sl & Hsl & Hlen & Hf).
  unfold release. wp_step. wp_step. simpl. rewrite Hsize.
  rewrite (proj2 (Z.ltb_ge _ _)), (proj2 (Z.leb_gt _ _)) by lia. simpl.
  wp_step. apply wp_get_lock. rewrite (lr_use _ _ _ _ Hr). simpl.
  wp_step. wp_step. eapply wp_load; [done|]. change (lset st _) with ((st, sc), lock_tab i lk sy).
  wp_step. eapply wp_find_in_lock; [done|done|]. simpl.
  pose proof (holders_slots sl H (p_pid b) Hf ltac:(lia)) as Hheld.
  rewrite (set_lk_pids_same lk sl Hsl).
  destruct (list_find (fun x => x = p_pid b) sl) as [[k x]|] eqn:Efind.
  2: { apply bool_decide_eq_false in Hheld. simpl. wp_step. by rewrite decide_False. }
  apply bool_decide_eq_true in Hheld. simpl. wp_step. apply wp_get_lock.
  pose proof Efind as (Hk & -> & _)%list_find_Some.
  wp_step. wp_step. change (lget ((st, sc), lock_tab i lk sy)) with st.
  eapply wp_mono; [apply pop_ok, Hr|]. destruct W as [|w W].
  - intros r st1 [-> ->]. simpl. change (lset st _) with ((st, sc), lock_tab i lk sy).
    wp_step. apply wp_update_lock. wp_step. wp_step. apply wp_update_lock.
    wp_step. eapply wp_find_in_lock; [done|done|]. rewrite Efind.
    change (0 =? -1) with false. cbv iota. wp_step.
    destruct (slot_replaced sl H k (p_pid b) 0 Hf Hk) as (H0 & E1 & E2).
    rewrite decide_False in E1 by lia. rewrite decide_True in E2 by done.
    assert (forall n, lock_repr st (set_lk_needed_by n (set_lk_pids (Some (<[k := 0]> sl))
      (set_lk_val (lk_val lk + 1) (set_lk_queue (lk_queue lk) lk)))) H0 []) as Hrepr.
    { intros n. destruct Hr as [R1 R2 R3 R4 R5 R6 R7 R8]. split; simpl; try done.
      - eexists. split; [done|]. by rewrite zlen_insert.
      - rewrite R4. unfold zlen. apply Permutation_length in E1. rewrite E1. simpl. lia.
      - rewrite E1 in R5. simpl in R5. by apply NoDup_cons in R5 as [_ ?]. }
    wp_step. apply wp_when; intros Hcu.
    + apply wp_update_lock. wp_step. rewrite decide_True by done. split; [done|].
      eexists _, H0, st, sc. split; [done|]. split; [split; [done|unfold needed; by destruct cu]|].
      split_and!; done.
    + wp_step. rewrite decide_True by done. split; [done|]. eexists _, H0, st, sc.
      split; [done|]. split; [split; [done|unfold needed; destruct cu; [simpl; lia|done]]|].
      split_and!; try done; exact (Hrepr (lk_needed_by lk)).
  - intros r st1 (q' & -> & Hq & Ho). simpl.
    change (lset st1 _) with ((st1, sc), lock_tab i lk sy).
    assert (is_Some (st_pcbs st !! w)) as [bw Hbw]
      by (eapply fifo_repr_live; [apply Hr|set_solver]).
    destruct (next_only_block _ _ _ _ _ Ho Hbw) as [nw Hbw1].
    assert (pid_at st w = Some (p_pid bw)) as Hpw by (unfold pid_at; by rewrite Hbw).
    assert (forall a, pid_at st1 a = pid_at st a) as Hpid1 by (intros; by eapply next_only_pid_at).
    destruct (Hdisj w) as [Hw Hidle]; [set_solver|].
    assert (sched_inv (st1, sc) R Wt S) as Hinv1.
    { eapply sched_inv_keeps; [done|]. eapply keeps_next_only; [done|]. set_solver. }
    destruct (handed_over st lk sl H W w q' k (p_pid b) (p_pid bw) st1 Hr Hsl Hk ltac:(lia) Hpw Hq Ho)
      as (H0 & E1 & Hrepr).
    wp_step. apply wp_update_lock. wp_step. wp_step. wp_step. eapply wp_load; [done|].
    change (lset st1 _) with ((st1, sc), lock_tab i (set_lk_queue q' lk) sy).
    wp_step. eapply wp_find_in_lock; [done|done|]. rewrite Efind.
    assert (0 < p_pid bw) by (apply (lr_waiters _ _ _ _ Hr w); [set_solver|done]).
    rewrite (proj2 (Z.eqb_neq _ _)) by (simpl; lia). cbv iota. wp_step.
    eapply wp_mono; [by eapply schedule_process_ok|]. intros [] [st2 sc2] Hs.
    rewrite decide_False in Hs by done. destruct Hs as (Hinv2 & Ho2 & q2 & Esc2). simpl in Ho2, Esc2.
    assert (idle_proc sc2 = idle_proc sc) as Hidle2 by (by rewrite Esc2). clear Esc2.
    destruct (scheduled_frame _ _ _ _ _ Hbw1 Ho2) as [Hpid2 Hready].
    assert (keeps st1 st2 W) as Hkeep.
    { eapply keeps_trans.
      - apply (keeps_update _ w (set_p_next nw bw) (set_p_state READY)); [done|by intros].
      - eapply keeps_next_only; [done|]. intros a Ha [->|Ha']%elem_of_cons.
        + pose proof (fr_nodup _ _ _ (lr_queue _ _ _ _ Hr)) as [? _]%NoDup_cons. done.
        + destruct (Hdisj a); set_solver. }
    assert (forall a, a ∉ (w :: W) ++ R -> st_pcbs st2 !! a = st_pcbs st !! a) as Hout.
    { intros a Ha. rewrite (no_out _ _ _ Ho2) by set_solver. simpl.
      rewrite lookup_insert_ne by set_solver. apply (no_out _ _ _ Ho). set_solver. }
    wp_step. apply wp_when; intros Hcu.
    + apply wp_update_lock. wp_step. rewrite decide_True by done. split; [done|].
      eexists _, H0, st2, sc2. split; [done|]. split; [split; [done|unfold needed; by destruct cu]|].
      split; [done|]. split; [intros; by rewrite Hpid2, Hpid1|]. do 2 (split; [done|]).
      exists (p_pid bw). split; [done|]. split; [|done]. eapply lock_repr_keeps; [apply Hrepr|done|done].
    + wp_step. rewrite decide_True by done. split; [done|]. eexists _, H0, st2, sc2.
      split; [done|]. split; [split; [done|unfold needed; destruct cu; [simpl; lia|done]]|].
      split; [done|]. split; [intros; by rewrite Hpid2, Hpid1|]. do 2 (split; [done|]).
      exists (p_pid bw). split; [done|]. split; [|done].
      eapply lock_repr_keeps; [exact (Hrepr (lk_needed_by lk))|done|done].
Qed.
End one_lock.

(** ** A concrete semaphore: of its two permits processes 1 and 8 hold one
    each; 9 waits, and 10 behind it. *)
Definition set_p_pid v (p : pcb) : pcb :=
  {| p_kc := p_kc p; p_uc := p_uc p; p_pid := v; p_state := p_state p;
     p_relations := p_relations p; p_exit_code := p_exit_code p; p_wake_up := p_wake_up p;
     p_brk_page := p_brk_page p; p_next := p_next p; p_ks_pt := p_ks_pt p;
     p_mem_ctx := p_mem_ctx p; p_cvar_lock_id := p_cvar_lock_id p; p_io_kbuf := p_io_kbuf p;
     p_io_user_buf := p_io_user_buf p; p_io_total := p_io_total p; p_io_sent := p_io_sent p;
     p_io_len := p_io_len p; p_io_tty_id := p_io_tty_id p |}.
Definition numbered (procs : gmap addr pcb) : gmap addr pcb :=
  map_imap (fun a b => Some (set_p_pid (Zpos a) b)) procs.
Definition demo_lock_procs : store :=
  set_pcbs (numbered (<[9%positive := linked (Some 10%positive) (demo_pcb RUNNING 0 [])]>
    (<[10%positive := demo_pcb RUNNING 0 []]> (st_pcbs demo_procs)))) demo_procs.
Definition demo_sem : lock_t :=
  {| lk_capacity := 2; lk_val := 0; lk_in_use := true;
     lk_queue := {| q_first := Some 9%positive; q_last := Some 10%positive |};
     lk_pids := Some [8; 1]; lk_needed_by := 4 |}.
Definition demo_sync : sync_t :=
  {| locks := [lock_zero; demo_sem; lock_zero]; cvars := []; open_lock_idx := 0; open_cvar_idx := 0;
     cvar_arr_size := 0; lock_arr_size := 3 |}.

Lemma demo_sem_repr : lock_repr demo_lock_procs demo_sem [8; 1] [9%positive; 10%positive].
Proof.
  split; simpl; try done.
  - by exists [8; 1].
  - by apply (bool_decide_unpack _).
  - intros w n [->|[->|[]%not_elem_of_nil]%elem_of_cons]%elem_of_cons Hn; vm_compute in Hn; by simplify_eq.
  - split; simpl; try done; [by apply (bool_decide_unpack _)|].
    intros [|[|i]] a Hi; simplify_eq/=; eexists; split; reflexivity.
Defined.
Lemma demo_lock_sched_inv :
  sched_inv (demo_lock_procs, demo_sched) [2%positive; 3%positive] [4%positive] [5%positive; 6%positive].
Proof.
  eapply sched_inv_keeps; [exact demo_sched_inv|].
  intros a b Ha Hb. simpl in Ha.
  repeat (apply elem_of_cons in Ha as [->|Ha];
    [vm_compute in Hb; injection Hb as <-; eexists; split; [reflexivity|by split]|]).
  by apply not_elem_of_nil in Ha.
Defined.

(** ** Properties *)

(** C24: [acquire] on a lock in use has one of three results.  A process that
    holds a permit already gets an error, and nothing changes.  If a permit is
    left, the process becomes a holder and no process waits.  Otherwise it
    becomes the last of the queue, behind the processes that wait, and the
    holders stay as they are. *)
Theorem acquire_exact (st : store) (sc : sched_t) (sy : sync_t) (i : Z) (lk : lock_t)
    (H : list Z) (W : list addr) (p : addr) (b : pcb) (cu : bool) :
  0 <= i < zlen (locks sy) -> lock_arr_size sy = zlen (locks sy) -> zget (locks sy) i = Some lk ->
  lock_repr st lk H W -> st_pcbs st !! p = Some b -> 0 < p_pid b ->
  pid_at st p ∉ pid_at st <$> W ->
  exists r st' lk', acquire i p cu ((st, sc), sy) = Some (r, ((st', sc), lock_tab i lk' sy)) /\
    ((r = ERROR /\ p_pid b ∈ H /\ st' = st /\ lk' = lk) \/
     (r = ACQUIRED /\ p_pid b ∉ H /\ zlen H < lk_capacity lk /\ W = [] /\ st' = st /\
      lock_repr st lk' (p_pid b :: H) [] /\ counted cu 1 lk lk') \/
     (r = NEED /\ p_pid b ∉ H /\ zlen H = lk_capacity lk /\
      lock_repr st' lk' H (W ++ [p]) /\ counted cu 1 lk lk')).
Proof.
  intros Hi Hsize Hg Hr Hb Hpid HpW.
  pose proof (acquire_ok i sy Hi st sc lk H W p b cu Hsize Hr Hb Hpid HpW) as Hwp.
  rewrite (lock_tab_same i sy Hi lk Hg) in Hwp.
  apply wp_run in Hwp as (r & s' & Hrun & Hres). rewrite Hrun.
  pose proof (lr_val _ _ _ _ Hr) as Hv. pose proof (lr_holders_le _ _ _ _ Hr).
  destruct (decide (p_pid b ∈ H)).
  { destruct Hres as [-> ->]. exists ERROR, st, lk.
    rewrite (lock_tab_same i sy Hi lk Hg). split; [done|]. by left. }
  destruct Hres as (lk' & st' & -> & Hneed & Hres). exists r, st', lk'. split; [done|]. right.
  destruct (decide (0 < lk_val lk)).
  - destruct Hres as (-> & -> & Hr'). left. assert (W = []) as ->.
    { destruct W; [done|]. pose proof (lr_wait _ _ _ _ Hr ltac:(done)). lia. }
    split_and!; try done. lia.
  - destruct Hres as (-> & Hr' & _). right. split_and!; try done. lia.
Qed.

Lemma acquire_exact_witness :
  exists st' lk', acquire 1 1 false ((demo_lock_procs, demo_sched), demo_sync) =
      Some (ERROR, ((st', demo_sched), lock_tab 1 lk' demo_sync)) /\
  exists st2 lk2, acquire 1 2 false ((demo_lock_procs, demo_sched), demo_sync) =
      Some (NEED, ((st2, demo_sched), lock_tab 1 lk2 demo_sync)) /\
    lock_repr st2 lk2 [8; 1] [9%positive; 10%positive; 2%positive].
Proof.
  destruct (acquire_exact demo_lock_procs demo_sched demo_sync 1 demo_sem [8; 1]
    [9%positive; 10%positive] 1 _ false ltac:(by split) eq_refl eq_refl demo_sem_repr eq_refl
    ltac:(done) ltac:(by apply (bool_decide_unpack _))) as (r & st' & lk' & Hrun & _).
  exists st', lk'. split; [rewrite Hrun; vm_compute in Hrun; by injection Hrun as <- _ _|].
  destruct (acquire_exact demo_lock_procs demo_sched demo_sync 1 demo_sem [8; 1]
    [9%positive; 10%positive] 2 _ false ltac:(by split) eq_refl eq_refl demo_sem_repr eq_refl
    ltac:(done) ltac:(by apply (bool_decide_unpack _)))
    as (r2 & st2 & lk2 & Hrun2 & [(-> & _)|[(-> & _)|(-> & _ & _ & Hr2 & _)]]);
    [vm_compute in Hrun2; done|vm_compute in Hrun2; done|]. by exists st2, lk2.
Defined.

(** C25: [release] by a process that holds no permit is refused and changes
    nothing.  By a holder, it takes exactly that process off the holders and,
    if processes wait, gives the permit directly to the one that has waited
    longest, which becomes READY at the end of the ready queue; the others keep
    their places, and the permits left stay as they are.  If none waits, the
    permit is free again. *)
Theorem release_hands_over (st : store) (sc : sched_t) (sy : sync_t) (i : Z) (lk : lock_t)
    (H : list Z) (W R Wt S : list addr) (p : addr) (b : pcb) (cu : bool) :
  0 <= i < zlen (locks sy) -> lock_arr_size sy = zlen (locks sy) -> zget (locks sy) i = Some lk ->
  lock_repr st lk H W -> sched_inv (st, sc) R Wt S ->
  (forall a, a ∈ W -> a ∉ R ++ Wt ++ S /\ idle_proc sc <> Some a) ->
  st_pcbs st !! p = Some b -> 0 < p_pid b ->
  exists r st' sc' lk', release i p cu ((st, sc), sy) = Some (r, ((st', sc'), lock_tab i lk' sy)) /\
    ((r = false /\ p_pid b ∉ H /\ st' = st /\ sc' = sc /\ lk' = lk) \/
     (r = true /\ counted cu (-1) lk lk' /\ exists H0, H ≡ₚ p_pid b :: H0 /\
      match W with
      | [] => st' = st /\ sc' = sc /\ lock_repr st lk' H0 []
      | w :: W' => exists n, pid_at st w = Some n /\ lock_repr st' lk' (n :: H0) W' /\
          sched_inv (st', sc') (R ++ [w]) Wt S /\ p_state <$> st_pcbs st' !! w = Some READY
      end)).
Proof.
  intros Hi Hsize Hg Hr Hinv Hdisj Hb Hpid.
  pose proof (release_ok i sy Hi st sc lk H W R Wt S p b cu Hsize Hr Hinv Hdisj Hb Hpid) as Hwp.
  rewrite (lock_tab_same i sy Hi lk Hg) in Hwp.
  apply wp_run in Hwp as (r & s' & Hrun & Hres). rewrite Hrun.
  destruct (decide (p_pid b ∈ H)).
  - destruct Hres as (-> & lk' & H0 & st' & sc' & -> & Hneed & HH & _ & _ & _ & Hres).
    exists true, st', sc', lk'. split; [done|]. right. split; [done|]. split; [done|]. by exists H0.
  - destruct Hres as [-> ->]. exists false, st, sc, lk.
    rewrite (lock_tab_same i sy Hi lk Hg). split; [done|]. by left.
Qed.

Lemma release_hands_over_witness :
  exists st' sc' lk', release 1 1 false ((demo_lock_procs, demo_sched), demo_sync) =
      Some (true, ((st', sc'), lock_tab 1 lk' demo_sync)) /\ lk_pids lk' = Some [8; 9] /\
    sched_inv (st', sc') [2%positive; 3%positive; 9%positive] [4%positive] [5%positive; 6%positive].
Proof.
  destruct (release_hands_over demo_lock_procs demo_sched demo_sync 1 demo_sem [8; 1]
    [9%positive; 10%positive] _ _ _ 1 (set_p_pid 1 (demo_pcb RUNNING 0 [])) false ltac:(by split) eq_refl eq_refl demo_sem_repr
    demo_lock_sched_inv) as (r & st' & sc' & lk' & Hrun & Hres).
  - intros a Ha. repeat (apply elem_of_cons in Ha as [->|Ha];
      [split; [by apply (bool_decide_unpack _)|done]|]). by apply not_elem_of_nil in Ha.
  - reflexivity.
  - done.
  - exists st', sc', lk'. assert (r = true) as -> by (vm_compute in Hrun; by injection Hrun).
    split; [exact Hrun|]. split.
    + pose proof (f_equal (fun o => o ≫= fun x => zget (locks x.2.2) 1) Hrun) as E.
      vm_compute in E. by injection E as <-.
    + destruct Hres as [[? _]|(_ & _ & H0 & _ & n & _ & _ & Hinv & _)]; [done|exact Hinv].
Defined.
