(* ===== verification/LockTables.v ===== *)
(** * Making and reclaiming locks, semaphores and condition variables

    The theorems about [new_lock], [delete_lock], [new_cvar] and [delete_cvar]
    of [Locks]: the tables as maps from numbers to entries in use. *)

From S2P Require Import Prelude Machine Tables Pcb Fifo SleepHeap Scheduler Locks.

(** The lock and the condition variable a number stands for. *)
Definition lock_of (sy : sync_t) (i : Z) : option lock_t := used lk_in_use (locks sy) i.
Definition cvar_of (sy : sync_t) (i : Z) : option cvar_t := used cv_in_use (cvars sy) i.

Record sync_ok (sy : sync_t) : Prop := {
  so_locks : open_at lk_in_use (lock_arr_size sy) (open_lock_idx sy) (locks sy);
  so_cvars : open_at cv_in_use (cvar_arr_size sy) (open_cvar_idx sy) (cvars sy)
}.

Definition fresh_lock (capacity : Z) : lock_t :=
  {| lk_capacity := capacity; lk_val := capacity; lk_in_use := true; lk_queue := fifo_empty;
     lk_pids := Some (replicate (Z.to_nat capacity) 0); lk_needed_by := 0 |}.

(** A fresh lock has all of its permits left and nobody waits for one. *)
Lemma fresh_lock_repr st capacity : 1 <= capacity -> lock_repr st (fresh_lock capacity) [] [].
Proof.
  intros Hc. split; simpl; try done.
  - eexists. split; [done|]. split; [unfold zlen; rewrite length_replicate; lia|].
    induction (Z.to_nat capacity) as [|n IH]; [done|]. simpl. rewrite filter_cons.
    case_decide as E; [by destruct E|exact IH].
  - unfold zlen. simpl. lia.
  - by apply NoDup_nil.
  - intros w n []%not_elem_of_nil.
  - apply fifo_repr_empty.
Qed.

(** ** One entry of the lock table *)
Section entries.
Context (ss : sched_st) (sy : sync_t).

(** The tables [ls], open at [o], of [n] entries, for the locks. *)
Definition with_locks (ls : list lock_t) (o n : Z) : sync_t := set_lock_table ls o n sy.

Lemma wp_entry ls o n i x f Q :
  zget ls i = Some x -> Q tt (ss, with_locks (<[Z.to_nat i := f x]> ls) o n) ->
  wp (update_lock i f) Q (ss, with_locks ls o n).
Proof.
  intros Hx HQ. pose proof (zget_Some _ _ _ Hx). unfold update_lock. wp_step. wp_step. wp_step.
  eapply wp_lift_opt; [done|]. wp_step. eapply wp_lift_opt; [by apply zset_inside|].
  unfold put_locks. by wp_step.
Qed.

(** What follows when the table has an entry to give. *)
Lemma new_entry_ok ls o n capacity :
  open_at lk_in_use n o ls -> o < n ->
  wp (lock_id ← gets (fun s : sync_st => open_lock_idx s.2);
      update_lock lock_id (fun _ => lock_zero);;
      ok ← zoom malloc;
      if negb ok then mret ERROR
      else
        update_lock lock_id (fun l =>
          {| lk_capacity := capacity; lk_val := capacity; lk_in_use := true; lk_queue := lk_queue l;
             lk_pids := Some (replicate (Z.to_nat capacity) 0); lk_needed_by := lk_needed_by l |});;
        s ← gets (fun s : sync_st => s.2);
        idx ← lift_opt (next_open lk_in_use (Z.to_nat (lock_arr_size s)) (open_lock_idx s)
                          (lock_arr_size s) (locks s));
        modify (fun x : sync_st => (x.1, set_lock_table (locks x.2) idx (lock_arr_size x.2) x.2));;
        mret lock_id)
    (fun r s' => exists st' ls' o', s' = ((st', ss.2), with_locks ls' o' n) /\ same_blocks ss.1 st' /\
       open_at lk_in_use n o' ls' /\
       ((r = ERROR /\ forall i, used lk_in_use ls' i = used lk_in_use ls i) \/
        (r = o /\ forall i, used lk_in_use ls' i =
           if decide (i = o) then Some (fresh_lock capacity) else used lk_in_use ls i)))
    (ss, with_locks ls o n).
Proof.
  intros Ho Hlt. pose proof (oa_size _ _ _ _ Ho) as Hl. pose proof (oa_range _ _ _ _ Ho).
  wp_step. wp_step. change (open_lock_idx (ss, with_locks ls o n).2) with o. destruct (zget_inside ls o) as [x Hx]; [lia|].
  wp_step. eapply wp_entry; [done|]. wp_step. wp_step. apply wp_malloc. intros ok st' Hsb.
  change (lset st' _) with ((st', ss.2), with_locks (<[Z.to_nat o := lock_zero]> ls) o n).
  destruct ok; simpl.
  - wp_step. unfold update_lock. wp_step. wp_step. wp_step.
    eapply wp_lift_opt; [apply zget_insert_eq; lia|]. wp_step.
    eapply wp_lift_opt; [apply zset_inside; simpl; rewrite zlen_insert; lia|].
    unfold put_locks. wp_step. simpl. rewrite list_insert_insert_eq. wp_step. wp_step. wp_step.
    destruct (open_at_take lk_in_use n o ls (fresh_lock capacity) Ho Hlt eq_refl) as (j & Hj & Hoj).
    eapply wp_lift_opt; [exact Hj|]. wp_step. wp_step. wp_step.
    exists st', (<[Z.to_nat o := fresh_lock capacity]> ls), j. split; [done|].
    split; [done|]. split; [done|]. right. split; [done|]. intros i.
    rewrite used_insert by lia. by case_decide.
  - wp_step. destruct (open_at_same lk_in_use n o ls lock_zero Ho Hlt eq_refl) as [Ho' Hsame].
    exists st', (<[Z.to_nat o := lock_zero]> ls), o. split; [done|]. split; [done|].
    split; [done|]. by left.
Qed.
End entries.

Lemma new_lock_ok ss sy capacity :
  sync_ok sy ->
  wp (new_lock capacity) (fun r s' => same_blocks ss.1 s'.1.1 /\ s'.1.2 = ss.2 /\ sync_ok s'.2 /\
    (forall i, cvar_of s'.2 i = cvar_of sy i) /\
    made (lock_of sy) (lock_of s'.2) r (fresh_lock capacity)) (ss, sy).
Proof.
  intros [Hl Hc]. pose proof (oa_range _ _ _ _ Hl) as Hr. pose proof (oa_pos _ _ _ _ Hl).
  unfold new_lock. wp_step. wp_step. simpl.
  destruct (Z.leb_spec (lock_arr_size sy) (open_lock_idx sy)) as [Hge|Hlt].
  - wp_step. wp_step. wp_step. apply wp_malloc. intros ok st' Hsb. simpl. destruct ok; simpl.
    + destruct (open_at_grow lk_in_use lock_zero _ _ _ eq_refl Hl Hge) as (t' & Ht & Ho & Hlt & Hsame).
      wp_step. eapply wp_lift_opt; [exact Ht|]. wp_step. wp_step. wp_step. simpl.
      eapply wp_mono; [exact (new_entry_ok (st', ss.2) sy t' _ _ capacity Ho Hlt)|].
      intros r s' (st2 & ls' & o' & -> & Hsb' & Ho' & Hres). simpl in *.
      split; [unfold same_blocks in *; destruct_and!; split_and!; congruence|]. split; [done|].
      split; [by split|]. split; [done|]. unfold made, lock_of. simpl.
      destruct Hres as [[-> Hi]|[-> Hi]]; [left|right].
      * split; [done|]. intros i. by rewrite Hi, Hsame.
      * split; [lia|]. split; [by apply Hl|]. split; [by apply Hl|]. intros i. rewrite Hi.
        case_decide; [done|]. apply Hsame.
    + wp_step. simpl. wp_step. simpl. split; [done|]. split; [done|]. split; [by split|].
      split; [done|]. by left.
  - wp_step. wp_step. simpl.
    eapply wp_mono; [|].
    { pose proof (new_entry_ok ss sy (locks sy) _ _ capacity Hl Hlt) as Hwp.
      assert (with_locks sy (locks sy) (open_lock_idx sy) (lock_arr_size sy) = sy) as E by (by destruct sy).
      rewrite E in Hwp. exact Hwp. }
    intros r s' (st2 & ls' & o' & -> & Hsb' & Ho' & Hres). simpl in *.
    split; [done|]. split; [done|]. split; [by split|]. split; [done|].
    unfold made, lock_of. simpl. destruct Hres as [[-> Hi]|[-> Hi]]; [by left|right].
    split; [lia|]. split; [by apply Hl|]. split; [by apply Hl|]. done.
Qed.

(** The tail of the two functions: the table is cut when its upper half is free. *)
Lemma lock_cut_ok ss sy ls o n (Q : bool -> sync_st -> Prop) :
  open_at lk_in_use n o ls ->
  (forall st' ls' n', same_blocks ss.1 st' -> open_at lk_in_use n' o ls' ->
     (forall j, used lk_in_use ls' j = used lk_in_use ls j) ->
     Q true ((st', ss.2), with_locks sy ls' o n')) ->
  wp (s ← gets (fun s : sync_st => s.2);
      if upper_half_used lk_in_use n (locks s) then mret true
      else if open_lock_idx s <? n / 2 then
        let new_size := n / 2 in
        ok ← zoom malloc;
        if negb ok then mret true
        else
          temp ← lift_opt (move_table lock_zero (locks s) new_size new_size);
          modify (fun x : sync_st => (x.1, set_lock_table temp (open_lock_idx x.2) new_size x.2));;
          mret true
      else mret true) Q (ss, with_locks sy ls o n).
Proof.
  intros Ho HQ. destruct ss as [st sc]. wp_step. wp_step. simpl.
  destruct (upper_half_used lk_in_use n ls) eqn:Hu; [wp_step; by apply HQ|].
  destruct (Z.ltb_spec o (n / 2)) as [Hlt|]; [|wp_step; by apply HQ].
  wp_step. wp_step. apply wp_malloc. intros ok st' Hsb. simpl. destruct ok; simpl; [|wp_step; by apply HQ].
  destruct (open_at_shrink lk_in_use lock_zero n o ls Ho Hu Hlt) as (t' & Ht & Ho' & Hsame).
  wp_step. eapply wp_lift_opt; [exact Ht|]. wp_step. wp_step. wp_step. simpl. by apply (HQ st' t').
Qed.

Lemma delete_lock_ok ss sy i :
  sync_ok sy ->
  wp (delete_lock i) (fun r s' => same_blocks ss.1 s'.1.1 /\ s'.1.2 = ss.2 /\ sync_ok s'.2 /\
    (forall j, cvar_of s'.2 j = cvar_of sy j) /\
    reclaimed (lock_of sy) (lock_of s'.2) (fun l => lk_needed_by l <=? 0) i r) (ss, sy).
Proof.
  intros [Hl Hc]. pose proof (oa_size _ _ _ _ Hl) as Hsize.
  assert (forall x, lock_of sy i = Some x -> (lk_needed_by x <=? 0) = false ->
    reclaimed (lock_of sy) (lock_of sy) (fun l => lk_needed_by l <=? 0) i false) as Hneeded.
  { intros x Hx Hn. apply reclaim_refused. intros y Hy. by simplify_eq. }
  unfold delete_lock. wp_step. wp_step. simpl.
  destruct (Z.ltb_spec i 0), (Z.leb_spec (lock_arr_size sy) i); simpl;
    try (wp_step; split_and!; [done|done|by split|done|];
         simpl; apply reclaim_refused; intros x; unfold lock_of; rewrite used_outside by lia; done).
  unfold get_lock. wp_step. wp_step.
  destruct (zget_inside (locks sy) i) as [l Hg]; [lia|].
  eapply wp_lift_opt; [exact Hg|]. pose proof (used_inside lk_in_use _ _ _ Hg) as Hu.
  destruct (lk_in_use l) eqn:Euse; simpl.
  2: { wp_step. split_and!; [done|done|by split|done|]. simpl. apply reclaim_refused. unfold lock_of.
       rewrite Hu. by intros. }
  destruct (Z.ltb_spec 0 (lk_needed_by l)).
  { wp_step. split_and!; [done|done|by split|done|]. apply (Hneeded l Hu). lia. }
  assert (with_locks sy (locks sy) (open_lock_idx sy) (lock_arr_size sy) = sy) as Esy by (by destruct sy).
  wp_step. rewrite <- Esy at 1. eapply wp_entry; [exact Hg|]. wp_step. wp_step. simpl.
  set (y := set_lk_in_use false (set_lk_pids None l)).
  destruct (open_at_free lk_in_use _ _ _ i l y Hl Hu eq_refl) as [Ho Hsame].
  eapply (lock_cut_ok ss sy _ _ _ _ Ho). intros st' ls' n' Hsb Ho' Hsame'. simpl.
  split_and!; [done|done|by split|done|]. unfold reclaimed, lock_of. simpl. rewrite Hu.
  split; [symmetry; by apply Z.leb_le|]. intros j. rewrite Hsame', Hsame. by repeat case_decide.
Qed.

(** ** The table of condition variables *)
Definition fresh_cvar : cvar_t := {| cv_queue := fifo_empty; cv_in_use := true |}.
Definition no_waiter (c : cvar_t) : bool := match q_first (cv_queue c) with None => true | Some _ => false end.

Section cvar_entries.
Context (ss : sched_st) (sy : sync_t).

Definition with_cvars (cs : list cvar_t) (o n : Z) : sync_t := set_cvar_table cs o n sy.

Lemma wp_cvar_entry cs o n i x f Q :
  zget cs i = Some x -> Q tt (ss, with_cvars (<[Z.to_nat i := f x]> cs) o n) ->
  wp (update_cvar i f) Q (ss, with_cvars cs o n).
Proof.
  intros Hx HQ. pose proof (zget_Some _ _ _ Hx). unfold update_cvar. wp_step. wp_step. wp_step.
  eapply wp_lift_opt; [done|]. wp_step. eapply wp_lift_opt; [by apply zset_inside|].
  unfold put_cvars. by wp_step.
Qed.

Lemma new_cvar_entry_ok cs o n :
  open_at cv_in_use n o cs -> o < n ->
  wp (cvar_id ← gets (fun s : sync_st => open_cvar_idx s.2);
      update_cvar cvar_id (fun _ => {| cv_queue := fifo_empty; cv_in_use := true |});;
      s ← gets (fun s : sync_st => s.2);
      idx ← lift_opt (next_open cv_in_use (Z.to_nat (cvar_arr_size s)) (open_cvar_idx s)
                        (cvar_arr_size s) (cvars s));
      modify (fun x : sync_st => (x.1, set_cvar_table (cvars x.2) idx (cvar_arr_size x.2) x.2));;
      mret cvar_id)
    (fun r s' => exists cs' o', s' = (ss, with_cvars cs' o' n) /\ open_at cv_in_use n o' cs' /\
       r = o /\ forall i, used cv_in_use cs' i =
         if decide (i = o) then Some fresh_cvar else used cv_in_use cs i)
    (ss, with_cvars cs o n).
Proof.
  intros Ho Hlt. pose proof (oa_size _ _ _ _ Ho). pose proof (oa_range _ _ _ _ Ho).
  wp_step. wp_step. change (open_cvar_idx (ss, with_cvars cs o n).2) with o.
  destruct (zget_inside cs o) as [x Hx]; [lia|].
  wp_step. eapply wp_cvar_entry; [done|]. wp_step. wp_step.
  destruct (open_at_take cv_in_use n o cs fresh_cvar Ho Hlt eq_refl) as (j & Hj & Hoj).
  wp_step. eapply wp_lift_opt; [exact Hj|]. wp_step. wp_step. wp_step.
  exists (<[Z.to_nat o := fresh_cvar]> cs), j. do 2 (split; [done|]). split; [done|].
  intros i. rewrite used_insert by lia. by case_decide.
Qed.

(** The tail of [delete_cvar]. *)
Lemma cvar_cut_ok cs o n (Q : bool -> sync_st -> Prop) :
  open_at cv_in_use n o cs ->
  (forall st' cs' n', same_blocks ss.1 st' -> open_at cv_in_use n' o cs' ->
     (forall j, used cv_in_use cs' j = used cv_in_use cs j) ->
     Q true ((st', ss.2), with_cvars cs' o n')) ->
  wp (s ← gets (fun s : sync_st => s.2);
      if upper_half_used cv_in_use n (cvars s) then mret true
      else if open_cvar_idx s <? n / 2 then
        let new_size := n / 2 in
        ok ← zoom malloc;
        if negb ok then mret true
        else
          temp ← lift_opt (move_table cvar_zero (cvars s) new_size new_size);
          modify (fun x : sync_st => (x.1, set_cvar_table temp (open_cvar_idx x.2) new_size x.2));;
          mret true
      else mret true) Q (ss, with_cvars cs o n).
Proof.
  intros Ho HQ. destruct ss as [st sc]. wp_step. wp_step. simpl.
  destruct (upper_half_used cv_in_use n cs) eqn:Hu; [wp_step; by apply HQ|].
  destruct (Z.ltb_spec o (n / 2)) as [Hlt|]; [|wp_step; by apply HQ].
  wp_step. wp_step. apply wp_malloc. intros ok st' Hsb. simpl. destruct ok; simpl; [|wp_step; by apply HQ].
  destruct (open_at_shrink cv_in_use cvar_zero n o cs Ho Hu Hlt) as (t' & Ht & Ho' & Hsame).
  wp_step. eapply wp_lift_opt; [exact Ht|]. wp_step. wp_step. wp_step. simpl. by apply (HQ st' t').
Qed.
End cvar_entries.

Lemma with_cvars_same sy : with_cvars sy (cvars sy) (open_cvar_idx sy) (cvar_arr_size sy) = sy.
Proof. by destruct sy. Qed.

Lemma new_cvar_ok ss sy :
  sync_ok sy ->
  wp new_cvar (fun r s' => same_blocks ss.1 s'.1.1 /\ s'.1.2 = ss.2 /\ sync_ok s'.2 /\
    (forall i, lock_of s'.2 i = lock_of sy i) /\
    made (cvar_of sy) (cvar_of s'.2) r fresh_cvar) (ss, sy).
Proof.
  intros [Hl Hc]. pose proof (oa_range _ _ _ _ Hc) as Hr. pose proof (oa_pos _ _ _ _ Hc).
  unfold new_cvar. wp_step. wp_step. simpl.
  destruct (Z.leb_spec (cvar_arr_size sy) (open_cvar_idx sy)) as [Hge|Hlt].
  - wp_step. wp_step. wp_step. apply wp_malloc. intros ok st' Hsb. simpl. destruct ok; simpl.
    + destruct (open_at_grow cv_in_use cvar_zero _ _ _ eq_refl Hc Hge) as (t' & Ht & Ho & Hlt & Hsame).
      rewrite Z.mul_comm. wp_step. eapply wp_lift_opt; [exact Ht|]. wp_step. wp_step. wp_step. simpl.
      eapply wp_mono; [exact (new_cvar_entry_ok (st', ss.2) sy t' _ _ Ho Hlt)|].
      intros r s' (cs' & o' & -> & Ho' & -> & Hi). simpl in *.
      split_and!; [done|done|by split|done|]. right. split; [lia|].
      split; [by apply Hc|]. split; [by apply Hc|]. intros i. unfold cvar_of. simpl. rewrite Hi.
      case_decide; [done|]. apply Hsame.
    + wp_step. simpl. wp_step. split_and!; [done|done|by split|done|]. by left.
  - wp_step. wp_step. simpl. rewrite <- (with_cvars_same sy) at 1.
    eapply wp_mono; [exact (new_cvar_entry_ok ss sy _ _ _ Hc Hlt)|].
    intros r s' (cs' & o' & -> & Ho' & -> & Hi). simpl in *.
    split_and!; [done|done|by split|done|]. right. split; [lia|].
    split; [by apply Hc|]. split; [by apply Hc|]. done.
Qed.

Lemma delete_cvar_ok ss sy i :
  sync_ok sy ->
  wp (delete_cvar i) (fun r s' => same_blocks ss.1 s'.1.1 /\ s'.1.2 = ss.2 /\ sync_ok s'.2 /\
    (forall j, lock_of s'.2 j = lock_of sy j) /\
    reclaimed (cvar_of sy) (cvar_of s'.2) no_waiter i r) (ss, sy).
Proof.
  intros [Hl Hc]. pose proof (oa_size _ _ _ _ Hc) as Hsize.
  unfold delete_cvar. wp_step. wp_step. simpl.
  destruct (Z.ltb_spec i 0), (Z.leb_spec (cvar_arr_size sy) i); simpl;
    try (wp_step; split_and!; [done|done|by split|done|];
         simpl; apply reclaim_refused; intros x; unfold cvar_of; rewrite used_outside by lia; done).
  unfold get_cvar. wp_step. wp_step. wp_step. destruct (zget_inside (cvars sy) i) as [c Hg]; [lia|].
  eapply wp_lift_opt; [exact Hg|]. pose proof (used_inside cv_in_use _ _ _ Hg) as Hu.
  destruct (cv_in_use c) eqn:Euse; simpl.
  2: { wp_step. split_and!; [done|done|by split|done|]. simpl. apply reclaim_refused. unfold cvar_of.
       rewrite Hu. by intros. }
  destruct (decide (q_first (cv_queue c) <> None)) as [Hq|Hq].
  { wp_step. split_and!; [done|done|by split|done|]. simpl. apply reclaim_refused.
    unfold cvar_of. rewrite Hu. intros x [= <-]. unfold no_waiter. by destruct (q_first _). }
  wp_step. rewrite <- (with_cvars_same sy) at 1. eapply wp_cvar_entry; [exact Hg|]. wp_step. wp_step. simpl.
  destruct (open_at_free cv_in_use _ _ _ i c {| cv_queue := cv_queue c; cv_in_use := false |} Hc Hu eq_refl)
    as [Ho Hsame].
  eapply (cvar_cut_ok ss sy _ _ _ _ Ho). intros st' cs' n' Hsb Ho' Hsame'. simpl.
  split_and!; [done|done|by split|done|]. unfold reclaimed, cvar_of. simpl. rewrite Hu.
  split; [unfold no_waiter; destruct (q_first _); [exfalso; by apply Hq|done]|].
  intros j. rewrite Hsame', Hsame. by repeat case_decide.
Qed.

(** ** Properties *)

(** [new_lock] and [new_cvar] give the lowest number that is not in use,
    with the entry fresh (all permits of a lock left, no holder, no waiter) and
    every other entry as it was, growing the table when it is full; when there
    is no memory they report an error and every lock and condition variable
    stays as it was.  In both cases the index to the first free entry is right
    again. *)
Theorem new_entries_lowest_free (ss : sched_st) (sy : sync_t) (capacity : Z) :
  sync_ok sy -> 1 <= capacity ->
  (exists r st' sy', new_lock capacity (ss, sy) = Some (r, ((st', ss.2), sy')) /\ sync_ok sy' /\
     st_pcbs st' = st_pcbs ss.1 /\ (forall i, cvar_of sy' i = cvar_of sy i) /\
     made (lock_of sy) (lock_of sy') r (fresh_lock capacity) /\
     lock_repr st' (fresh_lock capacity) [] []) /\
  (exists r st' sy', new_cvar (ss, sy) = Some (r, ((st', ss.2), sy')) /\ sync_ok sy' /\
     st_pcbs st' = st_pcbs ss.1 /\ (forall i, lock_of sy' i = lock_of sy i) /\
     made (cvar_of sy) (cvar_of sy') r fresh_cvar).
Proof.
  intros Hok Hcap. split.
  - destruct (proj1 (wp_run _ _ _) (new_lock_ok ss sy capacity Hok))
      as (r & [[st' sc'] sy'] & Hrun & Hsb & Hsc & Hok' & Hc & Hm).
    simpl in *. subst sc'. exists r, st', sy'. split_and!; try done; [apply Hsb|].
    by apply fresh_lock_repr.
  - destruct (proj1 (wp_run _ _ _) (new_cvar_ok ss sy Hok))
      as (r & [[st' sc'] sy'] & Hrun & Hsb & Hsc & Hok' & Hc & Hm).
    simpl in *. subst sc'. exists r, st', sy'. split_and!; try done. apply Hsb.
Qed.

(** Two locks, the table full; a condition variable with a waiter and a free
    one. *)
Definition demo_tables : sync_t :=
  {| locks := [demo_sem; fresh_lock 1]; cvars := [{| cv_queue := {| q_first := Some 9%positive;
       q_last := Some 9%positive |}; cv_in_use := true |}; cvar_zero];
     open_lock_idx := 2; open_cvar_idx := 1; cvar_arr_size := 2; lock_arr_size := 2 |}.
Lemma demo_tables_ok : sync_ok demo_tables.
Proof.
  split; split; try done; simpl; try lia; intros i Hi.
  - assert (i = 0 \/ i = 1) as [-> | ->] by lia; vm_compute; by eexists.
  - assert (i = 0) as -> by lia. vm_compute; by eexists.
Defined.

Lemma new_entries_lowest_free_witness :
  exists r st' sy', new_lock 3 ((demo_store, demo_sched), demo_tables) = Some (r, ((st', demo_sched), sy')) /\
    r = 2 /\ lock_arr_size sy' = 4 /\ lock_of sy' 2 = Some (fresh_lock 3) /\ lock_of sy' 0 = Some demo_sem.
Proof.
  destruct (new_entries_lowest_free (demo_store, demo_sched) demo_tables 3 demo_tables_ok ltac:(done))
    as [(r & st' & sy' & Hrun & _ & _ & _ & Hm & _) _].
  exists r, st', sy'. split; [exact Hrun|]. vm_compute in Hrun. injection Hrun as <- <- <-.
  split_and!; reflexivity.
Defined.

(** [delete_lock] and [delete_cvar] succeed exactly on an entry in use
    that nobody needs any more (a lock that no process has asked for without
    releasing it, a condition variable without waiters).  The number is then
    free again, all others stay in use as they were, also when the table is
    moved to a smaller block; a refused call changes nothing. *)
Theorem delete_only_unneeded (ss : sched_st) (sy : sync_t) (i : Z) :
  sync_ok sy ->
  (exists r st' sy', delete_lock i (ss, sy) = Some (r, ((st', ss.2), sy')) /\ sync_ok sy' /\
     st_pcbs st' = st_pcbs ss.1 /\ (forall j, cvar_of sy' j = cvar_of sy j) /\
     reclaimed (lock_of sy) (lock_of sy') (fun l => lk_needed_by l <=? 0) i r) /\
  (exists r st' sy', delete_cvar i (ss, sy) = Some (r, ((st', ss.2), sy')) /\ sync_ok sy' /\
     st_pcbs st' = st_pcbs ss.1 /\ (forall j, lock_of sy' j = lock_of sy j) /\
     reclaimed (cvar_of sy) (cvar_of sy') no_waiter i r).
Proof.
  intros Hok. split.
  - destruct (proj1 (wp_run _ _ _) (delete_lock_ok ss sy i Hok))
      as (r & [[st' sc'] sy'] & Hrun & Hsb & Hsc & Hok' & Hc & Hm).
    simpl in *. subst sc'. exists r, st', sy'. split_and!; try done. apply Hsb.
  - destruct (proj1 (wp_run _ _ _) (delete_cvar_ok ss sy i Hok))
      as (r & [[st' sc'] sy'] & Hrun & Hsb & Hsc & Hok' & Hc & Hm).
    simpl in *. subst sc'. exists r, st', sy'. split_and!; try done. apply Hsb.
Qed.

Lemma delete_only_unneeded_witness :
  exists r st' sy', delete_lock 1 ((demo_store, demo_sched), demo_tables) = Some (r, ((st', demo_sched), sy')) /\
    r = true /\ lock_arr_size sy' = 2 /\ lock_of sy' 1 = None /\ lock_of sy' 0 = Some demo_sem.
Proof.
  destruct (delete_only_unneeded (demo_store, demo_sched) demo_tables 1 demo_tables_ok)
    as [(r & st' & sy' & Hrun & _ & _ & _ & Hm) _].
  exists r, st', sy'. split; [exact Hrun|]. vm_compute in Hrun. injection Hrun as <- <- <-.
  split_and!; reflexivity.
Defined.
