(* ===== verification/Frame.v ===== *)
(** * What the scheduler and the synchronisation leave alone

    The queues, the heap of sleepers, the locks and the condition variables
    work on the same process control blocks as the rest of the kernel, but
    write four of their fields only.  [preserves] says so of a function on any
    input; its rules follow the structure of the code, and the tactic [frame]
    applies them. *)

From S2P Require Import Prelude Machine Tables Pcb Fifo SleepHeap Scheduler Locks.

(** ** The states that hold process control blocks *)

(** The blocks, and the running process, the idle one and the clock where the
    state has them. *)
Class HasBlocks (S : Type) := {
  blocks_of : S -> store;
  roles_of : S -> option (option addr * option addr * Z)
}.
#[export] Instance store_blocks : HasBlocks store := {| blocks_of s := s; roles_of _ := None |}.
#[export] Instance heap_blocks : HasBlocks heap_st := {| blocks_of := fst; roles_of _ := None |}.
#[export] Instance sched_blocks : HasBlocks sched_st := {|
  blocks_of := fst; roles_of s := Some (running_proc s.2, idle_proc s.2, num_ticks s.2) |}.
#[export] Instance sync_blocks : HasBlocks sync_st := {|
  blocks_of s := s.1.1; roles_of s := Some (running_proc s.1.2, idle_proc s.1.2, num_ticks s.1.2) |}.

(** A lens to a component that shares the blocks. *)
Class BlocksLens (T S : Type) `{Lens T S, HasBlocks T, HasBlocks S} : Prop := {
  blocks_lget : forall s, blocks_of (lget s) = blocks_of s;
  blocks_lset : forall t s, blocks_of (lset t s) = blocks_of t;
  roles_lset : forall t s, roles_of t = roles_of (lget s) -> roles_of (lset t s) = roles_of s
}.
#[export] Instance heap_store_blocks : BlocksLens store heap_st.
Proof. by split. Qed.
#[export] Instance sched_store_blocks : BlocksLens store sched_st.
Proof. by split. Qed.
#[export] Instance sched_heap_blocks : BlocksLens heap_st sched_st.
Proof. by split. Qed.
#[export] Instance sync_store_blocks : BlocksLens store sync_st.
Proof. by split. Qed.
#[export] Instance sync_sched_blocks : BlocksLens sched_st sync_st.
Proof. by split. Qed.

(** A block without the fields of the scheduler and of the condition variables. *)
Definition identity_of (b : pcb) : pcb :=
  set_p_state RUNNING (set_p_next None (set_p_wake_up 0 (set_p_cvar_lock_id 0 b))).

(** The same processes, each with the same identity. *)
Definition same_processes (st st' : store) : Prop :=
  forall a, identity_of <$> st_pcbs st' !! a = identity_of <$> st_pcbs st !! a.

#[export] Instance same_processes_preorder : PreOrder same_processes.
Proof. split; [by intros st a|]. intros s1 s2 s3 E1 E2 a. by rewrite E2, E1. Qed.

(** On any input, if [m] has no undefined behaviour, the processes stay the
    same, and the running one, the idle one and the clock too. *)
Definition preserves {S A} `{HasBlocks S} (m : M S A) : Prop :=
  forall s a s', m s = Some (a, s') ->
    same_processes (blocks_of s) (blocks_of s') /\ roles_of s' = roles_of s.

Lemma wp_preserves {S A} `{HasBlocks S} (m : M S A) Q s :
  preserves m -> wp m Q s ->
  wp m (fun a s' => Q a s' /\ same_processes (blocks_of s) (blocks_of s') /\ roles_of s' = roles_of s) s.
Proof.
  intros Hm (a & s' & E & HQ)%wp_run. apply wp_run. exists a, s'. split; [done|].
  split; [done|]. by eapply Hm.
Qed.

(** ** Rules *)
Section rules.
Context {S A B : Type} `{HasBlocks S}.
Implicit Types (m : M S A).

Lemma preserves_ret (a : A) : preserves (mret a : M S A).
Proof. by intros s a' s' [= <- <-]. Qed.
Lemma preserves_bind m (k : A -> M S B) :
  preserves m -> (forall a, preserves (k a)) -> preserves (mbind k m).
Proof.
  intros Hm Hk s b s'. unfold mbind, M_bind. destruct (m s) as [[a s1]|] eqn:E; [|done].
  intros Hb. destruct (Hm _ _ _ E) as [? E1], (Hk _ _ _ _ Hb) as [? E2].
  split; [by etrans|by rewrite E2].
Qed.
Lemma preserves_ub : preserves (ub : M S A).
Proof. by intros s a s'. Qed.
Lemma preserves_gets (f : S -> A) : preserves (gets f).
Proof. by intros s a s' [= <- <-]. Qed.
Lemma preserves_lift_opt (o : option A) : preserves (lift_opt o : M S A).
Proof. intros s a s'. unfold lift_opt. destruct o; [|done]. by intros [= <- <-]. Qed.
Lemma preserves_modify (f : S -> S) :
  (forall s, blocks_of (f s) = blocks_of s) -> (forall s, roles_of (f s) = roles_of s) ->
  preserves (modify f).
Proof. intros Hf Hr s a s' [= <- <-]. by rewrite Hf, Hr. Qed.
Lemma preserves_when (b : bool) (m : M S unit) : preserves m -> preserves (when b m).
Proof. destruct b; [done|]. intros _. by intros s a s' [= <- <-]. Qed.
End rules.

Lemma preserves_while {S} `{HasBlocks S} fuel (cond : M S bool) (body : M S unit) :
  preserves cond -> preserves body -> preserves (while_ fuel cond body).
Proof.
  intros Hc Hb. induction fuel as [|fuel IH]; [apply preserves_ub|]. simpl.
  apply preserves_bind; [done|]. intros [|]; [|apply preserves_ret].
  by apply preserves_bind.
Qed.
Lemma preserves_zoom {T S A} `{BlocksLens T S} (m : M T A) : preserves m -> preserves (zoom m : M S A).
Proof.
  intros Hm s a s'. unfold zoom. destruct (m (lget s)) as [[x t]|] eqn:E; [|done].
  intros [= <- <-]. destruct (Hm _ _ _ E) as [Hs Hr]. rewrite blocks_lset, <- blocks_lget.
  split; [done|by apply roles_lset].
Qed.

(** ** The primitives on blocks *)
Lemma preserves_load p : preserves (load p).
Proof. intros s a s'. unfold load. destruct (_ !! _); [|done]. by intros [= <- <-]. Qed.
Lemma preserves_malloc : preserves malloc.
Proof. intros s a s'. unfold malloc. destruct (st_malloc s); by intros [= <- <-]. Qed.
Lemma preserves_update p f :
  (forall b, identity_of (f b) = identity_of b) -> preserves (update p f).
Proof.
  intros Hf s a s'. unfold update. destruct (st_pcbs s !! p) as [b|] eqn:Hb; [|done].
  intros [= <- <-]. split; [|done]. intros x. simpl.
  destruct (decide (p = x)) as [->|]; [|by rewrite lookup_insert_ne].
  rewrite lookup_insert_eq, Hb. simpl. by rewrite Hf.
Qed.

Create HintDb frame.
#[export] Hint Resolve preserves_load preserves_malloc : frame.

(** One rule per construct of the code; a function already framed is a hint. *)
Ltac frame_step :=
  lazymatch goal with
  | |- forall _, _ => intros
  | |- preserves (mret _) => apply preserves_ret
  | |- preserves (M_ret _ _ _) => apply preserves_ret
  | |- preserves (mbind _ _) => apply preserves_bind
  | |- preserves ub => apply preserves_ub
  | |- preserves (gets _) => apply preserves_gets
  | |- preserves (lift_opt _) => apply preserves_lift_opt
  | |- preserves (modify _) => apply preserves_modify; reflexivity
  | |- preserves (update _ _) => apply preserves_update; intros []; reflexivity
  | |- preserves (zoom _) => apply preserves_zoom
  | |- preserves (when _ _) => apply preserves_when
  | |- preserves (while_ _ _ _) => apply preserves_while
  | |- preserves (let _ := _ in _) => cbv zeta
  | |- preserves (match ?x with _ => _ end) => destruct x
  | |- preserves _ => solve [eauto with frame]
  end.
Ltac frame := repeat frame_step.

(** ** The queues and the heap of sleepers *)
Lemma heap_at_frame i : preserves (heap_at i).
Proof. intros s a s'. unfold heap_at. destruct (zget _ _) as [[]|]; try done. by intros [= <- <-]. Qed.
Lemma heap_put_frame i p : preserves (heap_put i p).
Proof. intros s a s'. unfold heap_put. destruct (zset _ _ _); [|done]. by intros [= <- <-]. Qed.
#[export] Hint Resolve heap_at_frame heap_put_frame : frame.

Lemma push_on_tail_frame q p : preserves (push_on_tail q p).
Proof. unfold push_on_tail. frame. Qed.
Lemma pop_front_frame q : preserves (pop_front q).
Proof. unfold pop_front. frame. Qed.
Lemma insert_pcb_frame q p : preserves (insert_pcb q p).
Proof. unfold insert_pcb. frame. Qed.
Lemma pop_pcb_frame q : preserves (pop_pcb q).
Proof. unfold pop_pcb. frame. Qed.
Lemma compare_frame a b : preserves (compare a b).
Proof. unfold compare. frame. Qed.
#[export] Hint Resolve push_on_tail_frame pop_front_frame insert_pcb_frame pop_pcb_frame compare_frame : frame.

Lemma sift_up_frame fuel : forall i, preserves (sift_up fuel i).
Proof. induction fuel as [|fuel IH]; intros i; simpl; frame. Qed.
Lemma lesser_frame c l : preserves (lesser c l).
Proof. unfold lesser. frame. Qed.
#[export] Hint Resolve sift_up_frame lesser_frame : frame.
Lemma sift_down_frame fuel : forall i, preserves (sift_down fuel i).
Proof. induction fuel as [|fuel IH]; intros i; simpl; frame. Qed.
Lemma resize_heap_frame n : preserves (resize_heap n).
Proof. unfold resize_heap. frame. Qed.
#[export] Hint Resolve sift_down_frame resize_heap_frame : frame.
Lemma add_to_heap_frame p : preserves (add_to_heap p).
Proof. unfold add_to_heap. frame. Qed.
Lemma remove_from_heap_frame : preserves remove_from_heap.
Proof. unfold remove_from_heap. frame. Qed.
#[export] Hint Resolve add_to_heap_frame remove_from_heap_frame : frame.

(** ** The scheduler *)
Lemma enque_process_frame type p : preserves (enque_process type p).
Proof. unfold enque_process. frame. Qed.
Lemma deque_process_frame : preserves deque_process.
Proof. unfold deque_process. frame. Qed.
#[export] Hint Resolve enque_process_frame deque_process_frame : frame.
Lemma schedule_process_frame p : preserves (schedule_process p).
Proof. unfold schedule_process. frame. Qed.
Lemma get_next_process_frame : preserves get_next_process.
Proof. unfold get_next_process. frame. Qed.
Lemma put_to_sleep_frame p t : preserves (put_to_sleep p t).
Proof. unfold put_to_sleep. frame. Qed.
Lemma wake_sleepers_frame : preserves wake_sleepers.
Proof. unfold wake_sleepers. frame. Qed.
Lemma wait_block_process_frame p : preserves (wait_block_process p).
Proof. unfold wait_block_process. frame. Qed.
#[export] Hint Resolve schedule_process_frame get_next_process_frame : frame.

(** ** Locks and condition variables *)
Lemma get_lock_frame i : preserves (get_lock i).
Proof. unfold get_lock. frame. Qed.
Lemma update_lock_frame i f : preserves (update_lock i f).
Proof. unfold update_lock, put_locks. frame. Qed.
Lemma get_cvar_frame i : preserves (get_cvar i).
Proof. unfold get_cvar. frame. Qed.
Lemma update_cvar_frame i f : preserves (update_cvar i f).
Proof. unfold update_cvar, put_cvars. frame. Qed.
#[export] Hint Resolve get_lock_frame update_lock_frame get_cvar_frame update_cvar_frame : frame.
Lemma find_in_lock_frame i p r : preserves (find_in_lock i p r).
Proof. unfold find_in_lock. frame. Qed.
#[export] Hint Resolve find_in_lock_frame : frame.
Lemma acquire_frame i p c : preserves (acquire i p c).
Proof. unfold acquire. frame. Qed.
Lemma release_frame i p c : preserves (release i p c).
Proof. unfold release. frame. Qed.
#[export] Hint Resolve acquire_frame release_frame : frame.
Lemma wait_cvar_frame ci li p : preserves (wait_cvar ci li p).
Proof. unfold wait_cvar. frame. Qed.
Lemma pop_cvar_frame i : preserves (pop_cvar i).
Proof. unfold pop_cvar. frame. Qed.
Lemma wake_waiter_frame p : preserves (wake_waiter p).
Proof. unfold wake_waiter. frame. Qed.
#[export] Hint Resolve wait_cvar_frame pop_cvar_frame wake_waiter_frame : frame.
Lemma signal_cvar_frame i : preserves (signal_cvar i).
Proof. unfold signal_cvar. frame. Qed.
Lemma broadcast_loop_frame fuel i : preserves (broadcast_loop fuel i).
Proof. induction fuel as [|fuel IH]; simpl; frame. Qed.
#[export] Hint Resolve broadcast_loop_frame : frame.
Lemma broadcast_cvar_frame i : preserves (broadcast_cvar i).
Proof. unfold broadcast_cvar. frame. Qed.
