(* ===== verification/CondVars.v ===== *)
(** * Waiting on and signalling condition variables

    The theorems about [wait_cvar], [signal_cvar] and [broadcast_cvar] of
    [Locks]: where the waiting processes go, so that no wake-up is lost and no
    process is in two queues. *)

From S2P Require Import Prelude Machine Tables Pcb Fifo SleepHeap Scheduler Locks.

(** ** A condition variable whose waiters all go for one lock *)

(** The condition variable [ci] has the waiters [C], who all released the lock
    [li]; its holders are [H] and its waiters [W]; [R], [Wt] and [S] are the
    processes the scheduler has queued. *)
Record cvar_world (ci li : Z) (C : list addr) (H : list Z) (W R Wt S : list addr)
    (st : store) (sc : sched_t) (sy : sync_t) : Prop := {
  cw_sizes : cvar_arr_size sy = zlen (cvars sy) /\ lock_arr_size sy = zlen (locks sy);
  cw_cvar : exists cv, zget (cvars sy) ci = Some cv /\ cv_in_use cv = true /\
    fifo_repr st (cv_queue cv) C;
  cw_lock : exists lk, zget (locks sy) li = Some lk /\ lock_repr st lk H W;
  cw_sched : sched_inv (st, sc) R Wt S;
  cw_goes : forall c, c ∈ C -> exists b, st_pcbs st !! c = Some b /\ p_cvar_lock_id b = li /\ 0 < p_pid b;
  cw_nodup : NoDup ((Some <$> H) ++ (pid_at st <$> W ++ C));
  cw_apart : forall a, a ∈ W ++ C -> a ∉ R ++ Wt ++ S /\ idle_proc sc <> Some a
}.

(** The permits left. *)
Definition permits (sy : sync_t) (li : Z) : Z :=
  match zget (locks sy) li with Some lk => lk_val lk | None => 0 end.

(** What one waiter's wake-up leaves: the rest of the waiters [C], and [c]
    either a holder at the end of the ready queue or the last to wait. *)
Definition woken_waiter (ci li : Z) (c : addr) (C : list addr) (H : list Z) (W R Wt S : list addr)
    (n : Z) (left : Z) (st : store) (s' : sync_st) : Prop :=
  (forall a, pid_at s'.1.1 a = pid_at st a) /\
  if decide (0 < left)
  then W = [] /\ cvar_world ci li C (n :: H) [] (R ++ [c]) Wt S s'.1.1 s'.1.2 s'.2 /\
    permits s'.2 li = left - 1 /\ p_state <$> st_pcbs s'.1.1 !! c = Some READY
  else cvar_world ci li C H (W ++ [c]) R Wt S s'.1.1 s'.1.2 s'.2 /\ permits s'.2 li = left.

(** Links of other blocks changed: what the blocks of [l] say stays. *)
Lemma keeps_goes st st' X (l : list addr) li :
  next_only st st' X ->
  (forall c, c ∈ l -> exists b, st_pcbs st !! c = Some b /\ p_cvar_lock_id b = li /\ 0 < p_pid b) ->
  forall c, c ∈ l -> exists b, st_pcbs st' !! c = Some b /\ p_cvar_lock_id b = li /\ 0 < p_pid b.
Proof.
  intros Hn Hg c Hc. destruct (Hg c Hc) as (b & Hb & ? & ?).
  destruct (next_only_block _ _ _ _ _ Hn Hb) as [n Hb']. by exists (set_p_next n b).
Qed.

Lemma pids_same (st st' : store) (l : list addr) :
  (forall a, pid_at st' a = pid_at st a) -> pid_at st' <$> l = pid_at st <$> l.
Proof. intros Hp. apply list_fmap_ext. intros. apply Hp. Qed.

(** After [schedule_process], up to the state and the link a block is the old one. *)
Lemma scheduled_goes st st' p b X (l : list addr) li :
  st_pcbs st !! p = Some b ->
  next_only (set_pcbs (<[p := set_p_state READY b]> (st_pcbs st)) st) st' X ->
  (forall c, c ∈ l -> exists b, st_pcbs st !! c = Some b /\ p_cvar_lock_id b = li /\ 0 < p_pid b) ->
  forall c, c ∈ l -> exists b, st_pcbs st' !! c = Some b /\ p_cvar_lock_id b = li /\ 0 < p_pid b.
Proof.
  intros Hb Hn Hg. eapply keeps_goes; [exact Hn|]. intros c Hc. simpl.
  destruct (Hg c Hc) as (bc & Hbc & ? & ?). destruct (decide (p = c)) as [->|].
  - rewrite lookup_insert_eq. simplify_eq. by eexists.
  - rewrite lookup_insert_ne by done. by eexists.
Qed.
Lemma scheduled_keeps st st' p b X l :
  st_pcbs st !! p = Some b ->
  next_only (set_pcbs (<[p := set_p_state READY b]> (st_pcbs st)) st) st' X ->
  (forall a, a ∈ l -> a ∉ X) -> keeps st st' l.
Proof.
  intros Hb Hn Hd. eapply keeps_trans; [|by eapply keeps_next_only].
  by apply (keeps_update _ p b (set_p_state READY)).
Qed.

Section one_cvar.
Context (ci li : Z) (C : list addr) (H : list Z) (W R Wt S : list addr).

(** Taking the first waiter off. *)
Lemma pop_cvar_ok st sc sy c :
  cvar_world ci li (c :: C) H W R Wt S st sc sy ->
  wp (pop_cvar ci) (fun r s' => exists st' cs', r = Some c /\ s' = ((st', sc), set_cvar_table cs' (open_cvar_idx sy) (cvar_arr_size sy) sy) /\
    next_only st st' [c] /\ cvar_world ci li C H W R Wt S st' sc s'.2) ((st, sc), sy).
Proof.
  intros [Hsz (cv & Hg & Huse & Hq) (lk & Hlk & Hr) Hinv Hgo Hnd Hap].
  unfold pop_cvar. wp_step. unfold get_cvar. wp_step. wp_step. eapply wp_lift_opt; [exact Hg|].
  wp_step. wp_step. change (lget ((st, sc), sy)) with st. eapply wp_mono; [by apply pop_ok|].
  intros r st' (q' & -> & Hq' & Hn). change (lset st' ((st, sc), sy)) with ((st', sc), sy).
  wp_step. unfold update_cvar. wp_step. wp_step. wp_step.
  eapply wp_lift_opt; [exact Hg|].
  pose proof (zget_Some _ _ _ Hg). wp_step. eapply wp_lift_opt; [by apply zset_inside|].
  unfold put_cvars. wp_step. wp_step. eexists st', _. split; [done|]. split; [done|]. split; [done|].
  assert (forall a, pid_at st' a = pid_at st a) as Hpid by (intros; by eapply next_only_pid_at).
  assert (c ∉ C) as HcC by (by pose proof (fr_nodup _ _ _ Hq) as [? _]%NoDup_cons).
  assert (c ∉ W) as HcW.
  { intros Hin. apply NoDup_app in Hnd as (_ & _ & Hnd). rewrite fmap_app in Hnd.
    apply NoDup_app in Hnd as (_ & Hnd & _). apply (Hnd (pid_at st c)); [by apply list_elem_of_fmap_2|].
    simpl. set_solver. }
  split; simpl.
  - by rewrite zlen_insert.
  - eexists. split; [by apply zget_insert_eq|]. by split.
  - exists lk. split; [done|]. eapply lock_repr_keeps; [done| |done].
    eapply keeps_next_only; [done|]. set_solver.
  - eapply sched_inv_keeps; [done|]. eapply keeps_next_only; [done|].
    intros a Ha ->%list_elem_of_singleton. destruct (Hap c); set_solver.
  - eapply keeps_goes; [done|]. intros; apply Hgo. set_solver.
  - rewrite (pids_same st st') by done. rewrite fmap_app in *. simpl in Hnd. rewrite app_assoc in *.
    apply NoDup_app in Hnd as (? & Hd & [_ ?]%NoDup_cons). apply NoDup_app. split_and!; set_solver.
  - intros a Ha. apply Hap. set_solver.
Qed.

Lemma wake_waiter_ok st sc sy c b :
  cvar_world ci li C H W R Wt S st sc sy ->
  st_pcbs st !! c = Some b -> p_cvar_lock_id b = li -> 0 < p_pid b ->
  NoDup ((Some <$> H) ++ (pid_at st <$> W ++ c :: C)) ->
  c ∉ R ++ Wt ++ S -> idle_proc sc <> Some c ->
  wp (wake_waiter c) (fun _ s' => woken_waiter ci li c C H W R Wt S (p_pid b) (permits sy li) st s')
    ((st, sc), sy).
Proof.
  intros [Hsz (cv & Hg & Huse & Hq) (lk & Hlk & Hr) Hinv Hgo Hnd Hap] Hb Hcl Hpid Hnd' Hcq Hidle.
  assert (pid_at st c = Some (p_pid b)) as Hpc by (unfold pid_at; by rewrite Hb).
  assert (Some (p_pid b) ∉ (Some <$> H) ++ (pid_at st <$> W ++ C)) as Hfresh.
  { rewrite fmap_app, fmap_cons, Hpc, <- Permutation_middle, <- Permutation_middle in Hnd'.
    rewrite fmap_app. by apply NoDup_cons in Hnd' as [? _]. }
  assert (c ∉ W ++ C) as Hc.
  { intros Hin. apply Hfresh, elem_of_app. right. rewrite <- Hpc. by apply list_elem_of_fmap_2. }
  unfold wake_waiter. wp_step. wp_step. change (lget ((st, sc), sy)) with st.
  eapply wp_load; [done|]. change (lset st ((st, sc), sy)) with ((st, sc), sy). rewrite Hcl.
  pose proof (zget_Some _ _ _ Hlk) as Hi. destruct Hsz as [Hsz1 Hsz2].
  wp_step. rewrite <- (lock_tab_same li sy Hi lk Hlk) at 1.
  eapply wp_mono; [apply (acquire_ok li sy Hi st sc lk H W c b true Hsz2 Hr Hb Hpid)|].
  { rewrite Hpc. rewrite fmap_app in Hfresh. set_solver. }
  intros r s'. cbv beta. rewrite decide_False by set_solver. intros (lk' & st' & -> & [Hcap _] & Hres).
  unfold woken_waiter, permits. rewrite Hlk.
  destruct (decide (0 < lk_val lk)) as [Hval|Hval].
  - destruct Hres as (-> & -> & Hr'). change (ACQUIRED =? ACQUIRED) with true. cbv iota.
    assert (W = []) as -> by (destruct W; [done|]; pose proof (lr_wait _ _ _ _ Hr ltac:(done)); lia).
    wp_step. change (lget _) with (st, sc). eapply wp_mono; [by eapply schedule_process_ok|].
    intros [] [st2 sc2] Hs. rewrite decide_False in Hs by done.
    destruct Hs as (Hinv2 & Ho & q' & Hsc2). simpl in Ho, Hsc2. subst sc2.
    destruct (scheduled_frame _ _ _ _ _ Hb Ho) as [Hpid2 Hready]. simpl.
    split; [done|]. split; [done|]. split; [|split; [|done]].
    2: { rewrite zget_insert_eq by done. rewrite (lr_val _ _ _ _ Hr'), (lr_val _ _ _ _ Hr).
         rewrite Hcap. unfold zlen. simpl. lia. }
    split; simpl; try done.
    + split; [done|]. by rewrite zlen_insert.
    + exists cv. split; [done|]. split; [done|]. eapply fifo_repr_keeps; [done|].
      eapply scheduled_keeps; [done|done|]. intros a Ha [->|Ha']%elem_of_cons; [set_solver|].
      destruct (Hap a); set_solver.
    + exists lk'. split; [by apply zget_insert_eq|]. eapply lock_repr_keeps; [exact Hr'| |done].
      intros a ? []%not_elem_of_nil.
    + eapply scheduled_goes; [exact Hb|exact Ho|done].
    + rewrite (pids_same st st2) by done. simpl in *. apply NoDup_cons. by split.
    + intros a Ha. destruct (Hap a Ha) as [Ha1 Ha2]. split; [set_solver|done].
  - destruct Hres as (-> & Hr' & Ho). change (NEED =? ACQUIRED) with false. cbv iota. wp_step.
    assert (forall a, pid_at st' a = pid_at st a) as Hpid' by (intros; by eapply next_only_pid_at).
    simpl. split; [done|]. split. 2: { rewrite zget_insert_eq by done.
      by rewrite (lr_val _ _ _ _ Hr'), (lr_val _ _ _ _ Hr), Hcap. }
    split; simpl; try done.
    + split; [done|]. by rewrite zlen_insert.
    + exists cv. split; [done|]. split; [done|]. eapply fifo_repr_frame; [done|done|].
      intros a Ha [->|Ha']%elem_of_cons; [set_solver|]. apply NoDup_app in Hnd as (_ & _ & Hnd).
      rewrite fmap_app in Hnd. apply NoDup_app in Hnd as (_ & Hnd & _).
      apply (Hnd (pid_at st a)); by apply list_elem_of_fmap_2.
    + exists lk'. split; [by apply zget_insert_eq|done].
    + eapply sched_inv_keeps; [done|]. eapply keeps_next_only; [done|].
      intros a Ha [->|Ha']%elem_of_cons; [done|]. destruct (Hap a); set_solver.
    + eapply keeps_goes; [exact Ho|done].
    + rewrite (pids_same st st') by done. by rewrite <- (assoc_L (++)).
    + intros a Ha. rewrite <- (assoc_L (++)) in Ha.
      destruct (decide (a = c)) as [->|]; [done|]. apply Hap. set_solver.
Qed.

(** Nobody to take off. *)
Lemma pop_cvar_nil st sc sy :
  cvar_world ci li [] H W R Wt S st sc sy ->
  wp (pop_cvar ci) (fun r s' => r = None /\ s' = ((st, sc), sy)) ((st, sc), sy).
Proof.
  intros [_ (cv & Hg & Huse & Hq) _ _ _ _ _].
  unfold pop_cvar. wp_step. unfold get_cvar. wp_step. wp_step. eapply wp_lift_opt; [exact Hg|].
  wp_step. wp_step. change (lget ((st, sc), sy)) with st. eapply wp_mono; [by apply pop_ok|].
  intros r st' [-> ->]. change (lset st ((st, sc), sy)) with ((st, sc), sy).
  wp_step. unfold update_cvar. wp_step. wp_step. wp_step. eapply wp_lift_opt; [exact Hg|].
  pose proof (zget_Some _ _ _ Hg). wp_step. eapply wp_lift_opt; [by apply zset_inside|].
  unfold put_cvars. wp_step. wp_step. split; [done|]. f_equal. simpl.
  rewrite zget_nonneg in Hg by lia. rewrite list_insert_id; [by destruct sy|]. by destruct cv.
Qed.

(** Taking the first waiter off and waking it. *)
Lemma wake_first_ok st sc sy c :
  cvar_world ci li (c :: C) H W R Wt S st sc sy ->
  wp (pop_cvar ci) (fun r s' => r = Some c /\
    wp (wake_waiter c) (fun _ s'' => exists n, pid_at st c = Some n /\
      woken_waiter ci li c C H W R Wt S n (permits sy li) st s'') s') ((st, sc), sy).
Proof.
  intros Hw. eapply wp_mono; [by apply pop_cvar_ok|].
  intros r s' (st' & cs' & -> & -> & Hn & Hw').
  assert (forall a, pid_at st' a = pid_at st a) as Hpid by (intros; by eapply next_only_pid_at).
  destruct (cw_goes _ _ _ _ _ _ _ _ _ _ _ Hw c) as (b & Hb & Hli & Hp); [set_solver|].
  destruct (next_only_block _ _ _ _ _ Hn Hb) as [n Hb'].
  destruct (cw_apart _ _ _ _ _ _ _ _ _ _ _ Hw c) as [Hq Hidle]; [set_solver|].
  split; [done|]. eapply wp_mono; [apply (wake_waiter_ok st' sc _ c _ Hw' Hb'); try done|].
  { rewrite (pids_same st st') by done. by apply Hw. }
  intros [] s'' [Hs1 Hs2]. exists (p_pid b). split; [unfold pid_at; by rewrite Hb|].
  split; [intros; by rewrite Hs1, Hpid|done].
Qed.
End one_cvar.

(** ** [signal_cvar] and [broadcast_cvar] *)

(** The guards of the two calls pass. *)
Lemma cvar_guards ci li C H W R Wt S st sc sy (k : M sync_st bool) Q :
  cvar_world ci li C H W R Wt S st sc sy -> wp k Q ((st, sc), sy) ->
  wp (size ← gets (fun s : sync_st => cvar_arr_size s.2);
      if (ci <? 0) || (size <=? ci) then mret false
      else c ← get_cvar ci; if negb (cv_in_use c) then mret false else k) Q ((st, sc), sy).
Proof.
  intros [[Hsz _] (cv & Hg & Huse & Hq) _ _ _ _ _] Hk. pose proof (zget_Some _ _ _ Hg).
  wp_step. wp_step. simpl. rewrite Hsz. rewrite (proj2 (Z.ltb_ge _ _)), (proj2 (Z.leb_gt _ _)) by lia.
  simpl. wp_step. unfold get_cvar. wp_step. wp_step. eapply wp_lift_opt; [exact Hg|]. by rewrite Huse.
Qed.

Lemma signal_cvar_ok ci li C H W R Wt S st sc sy :
  cvar_world ci li C H W R Wt S st sc sy ->
  wp (signal_cvar ci) (fun r s' => r = true /\
    match C with
    | [] => s' = ((st, sc), sy)
    | c :: C' => exists n, pid_at st c = Some n /\
        woken_waiter ci li c C' H W R Wt S n (permits sy li) st s'
    end) ((st, sc), sy).
Proof.
  intros Hw. unfold signal_cvar. eapply cvar_guards; [done|]. destruct C as [|c C].
  - wp_step. eapply wp_mono; [by eapply pop_cvar_nil|]. intros r s' [-> ->]. wp_step. by wp_step.
  - wp_step. eapply wp_mono; [by apply wake_first_ok|]. intros r s' [-> Hwake].
    wp_step. eapply wp_mono; [exact Hwake|]. intros [] s'' Hs. by wp_step.
Qed.

(** All of [C] woken: the first [k] of them, as many as there are permits, are
    holders and ready; the others wait for the lock. *)
Definition all_woken (ci li : Z) (C : list addr) (H : list Z) (W R Wt S : list addr)
    (left : Z) (st : store) (s' : sync_st) : Prop :=
  let k := Z.to_nat (left `min` zlen C) in
  exists ns, (Some <$> ns) = (pid_at st <$> take k C) /\
    cvar_world ci li [] (reverse ns ++ H) (W ++ drop k C) (R ++ take k C) Wt S s'.1.1 s'.1.2 s'.2 /\
    permits s'.2 li = left - Z.of_nat k.

Lemma broadcast_loop_ok ci li Wt S fuel : forall C H W R st sc sy,
  cvar_world ci li C H W R Wt S st sc sy -> 0 <= permits sy li -> (length C < fuel)%nat ->
  wp (broadcast_loop fuel ci) (fun _ s' => all_woken ci li C H W R Wt S (permits sy li) st s')
    ((st, sc), sy).
Proof.
  induction fuel as [|fuel IH]; intros C H W R st sc sy Hw Hp Hf; [lia|]. simpl. wp_step.
  destruct C as [|c C].
  - eapply wp_mono; [by eapply pop_cvar_nil|]. intros r s' [-> ->]. wp_step.
    exists []. replace (Z.to_nat _) with 0%nat by (unfold zlen; simpl; lia).
    simpl. rewrite !app_nil_r. split; [done|]. split; [done|lia].
  - eapply wp_mono; [by apply wake_first_ok|]. intros r s' [-> Hwake].
    wp_step. eapply wp_mono; [exact Hwake|]. clear Hwake s'.
    intros [] [[st' sc'] sy'] (n & Hn & Hpid & Hs). simpl in Hs, Hpid.
    destruct (decide (0 < permits sy li)) as [Hpos|Hzero].
    + destruct Hs as (-> & Hw' & Hleft & _).
      eapply wp_mono; [eapply (IH C); [exact Hw'|lia|simpl in Hf; lia]|].
      intros [] s'' (ns & Hns & Hw'' & Hl). rewrite Hleft in *.
      exists (n :: ns). replace (Z.to_nat (permits sy li `min` zlen (c :: C)))
        with (Datatypes.S (Z.to_nat ((permits sy li - 1) `min` zlen C))) by (unfold zlen; simpl; lia).
      cbn [take drop]. split; [rewrite !fmap_cons, Hn, Hns; f_equal; by apply pids_same|].
      split; [|unfold zlen in *; lia].
      rewrite reverse_cons. rewrite <- !(assoc_L (++)) in *. exact Hw''.
    + destruct Hs as (Hw' & Hleft).
      eapply wp_mono; [eapply (IH C); [exact Hw'|lia|simpl in Hf; lia]|].
      intros [] s'' (ns & Hns & Hw'' & Hl). rewrite Hleft in *.
      assert (permits sy li = 0) as E by lia. rewrite E in *.
      replace (Z.to_nat (0 `min` zlen C)) with 0%nat in * by (unfold zlen; lia).
      exists []. replace (Z.to_nat _) with 0%nat by (unfold zlen; lia).
      simpl in *. destruct ns; [|done]. split; [done|].
      rewrite <- !(assoc_L (++)) in Hw''. split; [exact Hw''|lia].
Qed.

Lemma broadcast_cvar_ok ci li C H W R Wt S st sc sy :
  cvar_world ci li C H W R Wt S st sc sy ->
  wp (broadcast_cvar ci) (fun r s' => r = true /\ all_woken ci li C H W R Wt S (permits sy li) st s')
    ((st, sc), sy).
Proof.
  intros Hw. unfold broadcast_cvar. eapply cvar_guards; [done|]. wp_step. wp_step.
  destruct (cw_cvar _ _ _ _ _ _ _ _ _ _ _ Hw) as (cv & _ & _ & Hq).
  destruct (cw_lock _ _ _ _ _ _ _ _ _ _ _ Hw) as (lk & Hlk & Hr).
  wp_step. eapply wp_mono; [apply broadcast_loop_ok; [exact Hw| |]|].
  - unfold permits. rewrite Hlk. by eapply lr_holders_le.
  - apply Nat.lt_succ_r.
    rewrite <- (size_list_to_set (C := gset addr)) by apply Hq.
    rewrite <- size_dom. apply subseteq_size. intros a Ha%elem_of_list_to_set.
    apply elem_of_dom. by eapply fifo_repr_live.
  - intros [] s' Hs. wp_step. by split.
Qed.

(** ** [wait_cvar] *)

(** The world after the lock [li] is released: to the first waiter, if any. *)
Definition given_up (ci li : Z) (C : list addr) (H0 : list Z) (W R Wt S : list addr) (n : Z) (left : Z)
    (s' : sync_st) : Prop :=
  match W with
  | [] => cvar_world ci li C H0 [] R Wt S s'.1.1 s'.1.2 s'.2 /\ permits s'.2 li = left + 1
  | w :: W' => cvar_world ci li C (n :: H0) W' (R ++ [w]) Wt S s'.1.1 s'.1.2 s'.2 /\
      permits s'.2 li = left /\ p_state <$> st_pcbs s'.1.1 !! w = Some READY
  end.

Section wait.
Context (ci li : Z) (C : list addr) (H : list Z) (W R Wt S : list addr).

(** Releasing the lock disturbs none of the waiters of the condition variable. *)
Lemma release_world st sc sy p b cu :
  cvar_world ci li C H W R Wt S st sc sy ->
  st_pcbs st !! p = Some b -> 0 < p_pid b -> p ∉ W ++ R ->
  wp (release li p cu) (fun r s' =>
    if decide (p_pid b ∈ H) then
      r = true /\ exists H0 n, H ≡ₚ p_pid b :: H0 /\
        (forall w W', W = w :: W' -> pid_at st w = Some n) /\
        (forall a, pid_at s'.1.1 a = pid_at st a) /\ idle_proc s'.1.2 = idle_proc sc /\
        st_pcbs s'.1.1 !! p = Some b /\
        (forall lk, zget (locks sy) li = Some lk ->
           lk_needed_by <$> zget (locks s'.2) li = Some (needed cu (-1) lk)) /\
        given_up ci li C H0 W R Wt S n (permits sy li) s'
    else r = false /\ s' = ((st, sc), sy)) ((st, sc), sy).
Proof.
  intros [[Hsz1 Hsz2] (cv & Hg & Huse & Hq) (lk & Hlk & Hr) Hinv Hgo Hnd Hap] Hb Hpid Hp.
  pose proof (zget_Some _ _ _ Hlk) as Hi. unfold permits. rewrite Hlk.
  rewrite <- (lock_tab_same li sy Hi lk Hlk) at 1.
  eapply wp_mono; [apply (release_ok li sy Hi st sc lk H W R Wt S p b cu Hsz2 Hr Hinv); try done|].
  { intros a Ha. apply Hap. set_solver. }
  intros r s' Hres. case_decide as Hin; [|by rewrite (lock_tab_same li sy Hi lk Hlk) in Hres].
  destruct Hres as (-> & lk' & H0 & st' & sc' & -> & [Hcap Hneed] & HH & Hpid' & Hout & Hidle & Hres).
  split; [done|].
  assert (exists n, forall w W', W = w :: W' -> pid_at st w = Some n) as [n Hn].
  { destruct W as [|w W']; [by exists 0|]. destruct Hres as (n & Hn & _). exists n.
    intros ? ? [= <- <-]. done. }
  exists H0, n. do 4 (split; [done|]). simpl. split; [by rewrite Hout|].
  split. { intros lk2 Hlk2. rewrite zget_insert_eq by done. simpl. rewrite Hneed. by simplify_eq. }
  assert (forall a, a ∈ C -> a ∉ W ++ R) as HC.
  { intros a Ha [Hw|Hr']%elem_of_app; [|destruct (Hap a); set_solver].
    apply NoDup_app in Hnd as (_ & _ & Hnd). rewrite fmap_app in Hnd.
    apply NoDup_app in Hnd as (_ & Hnd & _). apply (Hnd (pid_at st a)); by apply list_elem_of_fmap_2. }
  assert (forall H' W' R', lock_repr st' lk' H' W' -> sched_inv (st', sc') R' Wt S ->
    (Some <$> H) ++ (pid_at st <$> W) ≡ₚ Some (p_pid b) :: ((Some <$> H') ++ (pid_at st <$> W')) ->
    (forall a, a ∈ W' ++ C -> a ∉ R' ++ Wt ++ S /\ idle_proc sc' <> Some a) ->
    cvar_world ci li C H' W' R' Wt S st' sc' (lock_tab li lk' sy)) as Hworld.
  { intros H' W' R' Hr' Hinv' Hperm Hap'. split; simpl; try done.
    - split; [done|]. by rewrite zlen_insert.
    - exists cv. split; [done|]. split; [done|]. eapply fifo_repr_keeps; [done|].
      intros a ba Ha Hba. exists ba. rewrite Hout by auto. done.
    - exists lk'. split; [by apply zget_insert_eq|done].
    - intros c Hc. destruct (Hgo c Hc) as (bc & ? & ?). exists bc. by rewrite Hout by auto.
    - rewrite (pids_same st st') by done. rewrite fmap_app, (assoc_L (++)).
      rewrite fmap_app, (assoc_L (++)), Hperm in Hnd.
      simpl in Hnd. by apply NoDup_cons in Hnd as [_ ?]. }
  unfold given_up. pose proof (lr_val _ _ _ _ Hr) as Hv.
  assert (zlen H = 1 + zlen H0) as Hlen by (unfold zlen; rewrite (Permutation_length HH); simpl; lia).
  destruct W as [|w W']; unfold permits; simpl; rewrite zget_insert_eq by done.
  - destruct Hres as (-> & -> & Hr'). split; [|rewrite (lr_val _ _ _ _ Hr'); lia].
    apply Hworld; [done|done| |done]. simpl. rewrite !app_nil_r, HH. done.
  - destruct Hres as (n' & Hn' & Hr' & Hinv' & Hready).
    assert (n' = n) as -> by (specialize (Hn w W' eq_refl); congruence).
    split; [|split; [|done]].
    + apply Hworld; [done|done| |].
      * simpl. rewrite HH, Hn'. simpl. by rewrite <- Permutation_middle.
      * intros a Ha. rewrite Hidle. destruct (Hap a) as [Ha1 Ha2]; [set_solver|]. split; [|done].
        assert (a <> w); [|set_solver]. intros ->. apply elem_of_app in Ha as [Ha|Ha].
        -- by pose proof (fr_nodup _ _ _ (lr_queue _ _ _ _ Hr)) as [? _]%NoDup_cons.
        -- apply (HC w Ha). set_solver.
    + rewrite (lr_val _ _ _ _ Hr'). unfold zlen in *. simpl. lia.
Qed.

(** Joining the waiters. *)
Lemma join_cvar_ok st sc sy p b :
  cvar_world ci li C H W R Wt S st sc sy ->
  st_pcbs st !! p = Some b -> 0 < p_pid b ->
  NoDup (Some (p_pid b) :: (Some <$> H) ++ (pid_at st <$> W ++ C)) ->
  p ∉ R ++ Wt ++ S -> idle_proc sc <> Some p ->
  wp (zoom (update p (set_p_cvar_lock_id li));;
      c ← get_cvar ci;
      q ← zoom (insert_pcb (cv_queue c) p);
      update_cvar ci (fun c => {| cv_queue := q; cv_in_use := cv_in_use c |});;
      mret true)
    (fun r s' => r = true /\ cvar_world ci li (C ++ [p]) H W R Wt S s'.1.1 s'.1.2 s'.2 /\
       locks s'.2 = locks sy /\ (forall a, p_state <$> st_pcbs s'.1.1 !! a = p_state <$> st_pcbs st !! a))
    ((st, sc), sy).
Proof.
  intros [Hsz (cv & Hg & Huse & Hq) (lk & Hlk & Hr) Hinv Hgo Hnd Hap] Hb Hpid Hfresh Hpq Hidle.
  set (b1 := set_p_cvar_lock_id li b). set (st1 := set_pcbs (<[p := b1]> (st_pcbs st)) st).
  assert (forall l, keeps st st1 l) as Hk1 by (intros; by apply (keeps_update _ p b (set_p_cvar_lock_id li))).
  assert (forall a, pid_at st1 a = pid_at st a) as Hpid1.
  { intros a. unfold pid_at. simpl. destruct (decide (p = a)) as [->|];
      [by rewrite lookup_insert_eq, Hb|by rewrite lookup_insert_ne]. }
  assert (pid_at st p = Some (p_pid b)) as Hpp by (unfold pid_at; by rewrite Hb).
  assert (p ∉ W ++ C) as HpWC.
  { intros Hin. apply NoDup_cons in Hfresh as [Hf _]. apply Hf, elem_of_app. right.
    rewrite <- Hpp. by apply list_elem_of_fmap_2. }
  wp_step. wp_step. change (lget ((st, sc), sy)) with st. eapply wp_update; [exact Hb|].
  change (lset _ ((st, sc), sy)) with ((st1, sc), sy).
  wp_step. unfold get_cvar. wp_step. wp_step. eapply wp_lift_opt; [exact Hg|].
  wp_step. wp_step. change (lget ((st1, sc), sy)) with st1.
  eapply wp_mono; [apply (push_ok _ _ C); [by eapply fifo_repr_keeps|set_solver|]|].
  { simpl. rewrite lookup_insert_eq. by eexists. }
  intros q' st' [Hq' Hn]. change (lset st' ((st1, sc), sy)) with ((st', sc), sy).
  wp_step. unfold update_cvar. wp_step. wp_step. wp_step. eapply wp_lift_opt; [exact Hg|].
  pose proof (zget_Some _ _ _ Hg). wp_step. eapply wp_lift_opt; [by apply zset_inside|].
  unfold put_cvars. wp_step. wp_step. simpl.
  assert (forall a, pid_at st' a = pid_at st a) as Hpid'
    by (intros; rewrite <- Hpid1; by eapply next_only_pid_at).
  assert (forall l, (forall a, a ∈ l -> a ∉ p :: C) -> keeps st st' l) as Hk.
  { intros l Hl. eapply keeps_trans; [apply Hk1|by eapply keeps_next_only]. }
  assert (forall a, a ∈ W -> a ∉ C) as HWC.
  { intros a Ha Ha'. apply NoDup_app in Hnd as (_ & _ & Hnd). rewrite fmap_app in Hnd.
    apply NoDup_app in Hnd as (_ & Hnd & _). apply (Hnd (pid_at st a)); by apply list_elem_of_fmap_2. }
  split; [done|]. split; [|split; [done|]].
  - split; simpl; try done.
    + by rewrite zlen_insert.
    + eexists. split; [by apply zget_insert_eq|]. by split.
    + exists lk. split; [done|]. eapply lock_repr_keeps; [done| |done]. apply Hk.
      intros a Ha [->|Ha']%elem_of_cons; [set_solver|by apply (HWC a)].
    + eapply sched_inv_keeps; [done|]. apply Hk. intros a Ha [->|Ha']%elem_of_cons; [done|].
      destruct (Hap a); set_solver.
    + intros c Hc. apply elem_of_app in Hc as [Hc|Hc%list_elem_of_singleton]; [|subst c].
      * destruct (Hgo c Hc) as (bc & Hbc & ? & ?).
        destruct (next_only_block _ _ _ c bc Hn) as [n ->]; [|by eexists].
        simpl. rewrite lookup_insert_ne; [done|set_solver].
      * destruct (next_only_block _ _ _ p b1 Hn) as [n ->]; [|by eexists]. simpl. apply lookup_insert_eq.
    + rewrite (pids_same st st') by done. rewrite !fmap_app, !(assoc_L (++)).
      apply NoDup_cons in Hfresh as [Hf _]. rewrite fmap_app, (assoc_L (++)) in Hf, Hnd.
      apply NoDup_app. split; [done|]. split; [|apply NoDup_singleton].
      intros x Hx ->%list_elem_of_singleton. apply Hf. by rewrite <- Hpp.
    + intros a Ha. destruct (decide (a = p)) as [->|]; [done|]. apply Hap. set_solver.
  - intros a. rewrite (next_only_field p_state _ _ _ a Hn) by done. simpl.
    destruct (decide (p = a)) as [->|]; [by rewrite lookup_insert_eq, Hb|by rewrite lookup_insert_ne].
Qed.
End wait.

Lemma wait_cvar_ok ci li C H W R Wt S st sc sy p b :
  cvar_world ci li C H W R Wt S st sc sy ->
  st_pcbs st !! p = Some b -> 0 < p_pid b -> p ∉ W ++ C ++ R ++ Wt ++ S -> idle_proc sc <> Some p ->
  wp (wait_cvar ci li p) (fun r s' =>
    if decide (p_pid b ∈ H) then
      r = true /\ exists H0 n, H ≡ₚ p_pid b :: H0 /\
        (forall w W', W = w :: W' -> pid_at st w = Some n) /\
        (forall lk, zget (locks sy) li = Some lk ->
           lk_needed_by <$> zget (locks s'.2) li = Some (lk_needed_by lk)) /\
        given_up ci li (C ++ [p]) H0 W R Wt S n (permits sy li) s'
    else r = false /\ s' = ((st, sc), sy)) ((st, sc), sy).
Proof.
  intros Hw Hb Hpid Hp Hidle. unfold wait_cvar. eapply cvar_guards; [done|].
  wp_step. eapply wp_mono; [apply (release_world ci li C H W R Wt S st sc sy p b true Hw Hb Hpid); set_solver|].
  intros r [[st1 sc1] sy1] Hres. case_decide as Hin.
  2: { destruct Hres as [-> E]. rewrite E. simpl. by wp_step. }
  destruct Hres as (-> & H0 & n & HH & Hn & Hpid1 & Hidle1 & Hb1 & Hneed & Hgiven). simpl in *.
  assert (forall lk, needed true (-1) lk = lk_needed_by lk) as Hneeded by (intros; apply Z.add_0_r).
  setoid_rewrite Hneeded in Hneed. clear Hneeded.
  pose proof (cw_nodup _ _ _ _ _ _ _ _ _ _ _ Hw) as Hnd. rewrite HH in Hnd.
  rewrite <- (pids_same st st1) in Hnd by done. rewrite <- Hidle1 in Hidle.
  unfold given_up in *. destruct W as [|w W']; simpl in *.
  - destruct Hgiven as [Hw1 Hperm].
    eapply wp_mono; [apply (join_cvar_ok ci li C _ _ _ Wt S st1 sc1 sy1 p b Hw1 Hb1 Hpid Hnd)|];
      [set_solver|done|].
    intros r [[st2 sc2] sy2] (-> & Hw2 & El & _). simpl in *. split; [done|].
    exists H0, n. unfold permits in *. rewrite El. by split_and!.
  - destruct Hgiven as (Hw1 & Hperm & Hready).
    eapply wp_mono; [apply (join_cvar_ok ci li C _ _ _ Wt S st1 sc1 sy1 p b Hw1 Hb1 Hpid)|];
      [|set_solver|done|].
    { rewrite Hpid1, (Hn w W' eq_refl) in Hnd. simpl. by rewrite <- Permutation_middle in Hnd. }
    intros r [[st2 sc2] sy2] (-> & Hw2 & El & Hst). simpl in *. split; [done|].
    exists H0, n. unfold permits in *. rewrite El. split_and!; try done. by rewrite Hst.
Qed.

(** ** Properties *)

(** C26: [signal_cvar] wakes exactly the process that has waited longest, and
    loses no wake-up: if its lock has a permit left it becomes a holder, READY
    at the end of the ready queue, and otherwise it goes to the end of the
    lock's queue.  The other waiters stay in order.  Without waiters nothing
    changes. *)
Theorem signal_wakes_first (ci li : Z) (C : list addr) (H : list Z) (W R Wt S : list addr)
    (st : store) (sc : sched_t) (sy : sync_t) :
  cvar_world ci li C H W R Wt S st sc sy ->
  exists s', signal_cvar ci ((st, sc), sy) = Some (true, s') /\
    match C with
    | [] => s' = ((st, sc), sy)
    | c :: C' => exists n, pid_at st c = Some n /\
        woken_waiter ci li c C' H W R Wt S n (permits sy li) st s'
    end.
Proof.
  intros Hw. destruct (proj1 (wp_run _ _ _) (signal_cvar_ok _ _ _ _ _ _ _ _ _ _ _ Hw))
    as (r & s' & Hrun & -> & Hs). by exists s'.
Qed.

(** C23: [broadcast_cvar] ends, with no process left waiting on the condition
    variable: of its waiters, as many as the lock has permits left become
    holders and ready, in order, and all the others wait for the lock, in
    order, behind those that did. *)
Theorem broadcast_wakes_all (ci li : Z) (C : list addr) (H : list Z) (W R Wt S : list addr)
    (st : store) (sc : sched_t) (sy : sync_t) :
  cvar_world ci li C H W R Wt S st sc sy ->
  exists s', broadcast_cvar ci ((st, sc), sy) = Some (true, s') /\
    all_woken ci li C H W R Wt S (permits sy li) st s'.
Proof.
  intros Hw. destruct (proj1 (wp_run _ _ _) (broadcast_cvar_ok _ _ _ _ _ _ _ _ _ _ _ Hw))
    as (r & s' & Hrun & -> & Hs). by exists s'.
Qed.

(** C27: [wait_cvar] by a process that does not hold the lock is refused and
    changes nothing.  By a holder, it gives the lock up, to the process that
    waits for it longest or else freeing a permit, and puts the caller at the
    end of the waiters.  The lock stays needed, so it cannot be reclaimed while
    somebody waits to get it back. *)
Theorem wait_gives_up_lock (ci li : Z) (C : list addr) (H : list Z) (W R Wt S : list addr)
    (st : store) (sc : sched_t) (sy : sync_t) (p : addr) (b : pcb) :
  cvar_world ci li C H W R Wt S st sc sy ->
  st_pcbs st !! p = Some b -> 0 < p_pid b -> p ∉ W ++ C ++ R ++ Wt ++ S -> idle_proc sc <> Some p ->
  exists r s', wait_cvar ci li p ((st, sc), sy) = Some (r, s') /\
    if decide (p_pid b ∈ H) then
      r = true /\ exists H0 n, H ≡ₚ p_pid b :: H0 /\
        (forall w W', W = w :: W' -> pid_at st w = Some n) /\
        (forall lk, zget (locks sy) li = Some lk ->
           lk_needed_by <$> zget (locks s'.2) li = Some (lk_needed_by lk)) /\
        given_up ci li (C ++ [p]) H0 W R Wt S n (permits sy li) s'
    else r = false /\ s' = ((st, sc), sy).
Proof.
  intros Hw Hb Hpid Hp Hidle.
  by destruct (proj1 (wp_run _ _ _) (wait_cvar_ok _ _ _ _ _ _ _ _ _ _ _ p b Hw Hb Hpid Hp Hidle))
    as (r & s' & Hrun & Hs); exists r, s'.
Qed.

(** 9 and 10 wait on condition variable 0, for lock 1, of whose two permits 8
    holds one and 1, if [both], the other. *)
Definition demo_cv_procs : store :=
  set_pcbs (set_p_cvar_lock_id 1 <$> st_pcbs demo_lock_procs) demo_lock_procs.
Definition demo_cv_sync (both : bool) : sync_t :=
  {| locks := [lock_zero;
       {| lk_capacity := 2; lk_val := if both then 0 else 1; lk_in_use := true; lk_queue := fifo_empty;
          lk_pids := Some [8; if both then 1 else 0]; lk_needed_by := 4 |}];
     cvars := [{| cv_queue := {| q_first := Some 9%positive; q_last := Some 10%positive |};
                  cv_in_use := true |}];
     open_lock_idx := 0; open_cvar_idx := 1; cvar_arr_size := 1; lock_arr_size := 2 |}.

Lemma demo_cv_world (both : bool) :
  cvar_world 0 1 [9%positive; 10%positive] (8 :: if both then [1] else []) []
    [2%positive; 3%positive] [4%positive] [5%positive; 6%positive] demo_cv_procs demo_sched (demo_cv_sync both).
Proof.
  split.
  - by split.
  - eexists. split; [reflexivity|]. split; [done|]. split; try done; [by apply (bool_decide_unpack _)|].
    intros [|[|i]] a Hi; simplify_eq/=; eexists; split; reflexivity.
  - eexists. split; [reflexivity|]. split; simpl; try done.
    + eexists. split; [done|]. split; [done|]. by destruct both.
    + by destruct both.
    + destruct both; by apply (bool_decide_unpack _).
    + intros w n []%not_elem_of_nil.
    + apply fifo_repr_empty.
  - eapply sched_inv_keeps; [exact demo_lock_sched_inv|].
    intros a b Ha Hb. exists (set_p_cvar_lock_id 1 b). split; [|done].
    simpl. rewrite lookup_fmap. simpl in Hb. by rewrite Hb.
  - intros c Hc. repeat (apply elem_of_cons in Hc as [->|Hc]; [by eexists|]). by apply not_elem_of_nil in Hc.
  - destruct both; by apply (bool_decide_unpack _).
  - intros a Ha. repeat (apply elem_of_cons in Ha as [->|Ha];
      [split; [by apply (bool_decide_unpack _)|done]|]). by apply not_elem_of_nil in Ha.
Defined.

Lemma signal_wakes_first_witness :
  exists s', signal_cvar 0 ((demo_cv_procs, demo_sched), demo_cv_sync false) = Some (true, s') /\
    woken_waiter 0 1 9 [10%positive] [8] [] [2%positive; 3%positive] [4%positive]
      [5%positive; 6%positive] 9 1 demo_cv_procs s'.
Proof.
  destruct (signal_wakes_first _ _ _ _ _ _ _ _ _ _ _ (demo_cv_world false)) as (s' & Hrun & n & Hn & Hs).
  exists s'. split; [exact Hrun|]. vm_compute in Hn. injection Hn as <-. exact Hs.
Defined.

Lemma broadcast_wakes_all_witness :
  exists s', broadcast_cvar 0 ((demo_cv_procs, demo_sched), demo_cv_sync false) = Some (true, s') /\
    all_woken 0 1 [9%positive; 10%positive] [8] [] [2%positive; 3%positive] [4%positive]
      [5%positive; 6%positive] 1 demo_cv_procs s'.
Proof.
  destruct (broadcast_wakes_all _ _ _ _ _ _ _ _ _ _ _ (demo_cv_world false)) as (s' & Hrun & Hs).
  exists s'. split; [exact Hrun|exact Hs].
Defined.

Lemma wait_gives_up_lock_witness :
  exists s', wait_cvar 0 1 1 ((demo_cv_procs, demo_sched), demo_cv_sync true) = Some (true, s') /\
    permits s'.2 1 = 1.
Proof.
  destruct (wait_gives_up_lock _ _ _ _ _ _ _ _ _ _ _ 1 (set_p_cvar_lock_id 1 (set_p_pid 1 (demo_pcb RUNNING 0 [])))
    (demo_cv_world true) eq_refl ltac:(done) ltac:(by apply (bool_decide_unpack _)) ltac:(done))
    as (r & s' & Hrun & Hs).
  rewrite decide_True in Hs by set_solver. destruct Hs as (-> & H0 & n & _ & _ & _ & _ & Hp).
  exists s'. split; [exact Hrun|exact Hp].
Defined.
