(* ===== verification/PipeTable.v ===== *)
(** * The table of pipes and their blocked readers ([pipe.c], but for the calls)

    A pipe is named by its place in a table that grows when it is full; a
    pointer to a pipe is that place.  The bytes of a pipe are the subject of
    [PipeBuffer], the calls [PipeInit], [PipeRead] and [PipeWrite] of
    [PipeCalls]. *)

From S2P Require Import Prelude Machine Tables Pcb Fifo SleepHeap Scheduler PipeBuffer.

(** ** Definitions *)

Definition INITIAL_PIPE_COUNT : Z := 10.

Record pipes_t := { pipes : list pipe_t; pipes_size : Z; open_pipe_idx : Z }.

(** The state: the scheduler's and the table. *)
Abbreviation pipe_st := (sched_st * pipes_t)%type.
#[export] Instance pipe_store_lens : Lens store pipe_st :=
  {| lget := fun s => s.1.1; lset := fun st s => ((st, s.1.2), s.2) |}.

Definition put_pipes (t : list pipe_t) : M pipe_st unit :=
  modify (fun s : pipe_st => (s.1, {| pipes := t; pipes_size := pipes_size s.2;
                                      open_pipe_idx := open_pipe_idx s.2 |})).
(** [*pipe] and an assignment to it *)
Definition load_pipe (pipe : Z) : M pipe_st pipe_t :=
  t ← gets (fun s : pipe_st => pipes s.2); lift_opt (zget t pipe).
Definition update_pipe (pipe : Z) (f : pipe_t -> pipe_t) : M pipe_st unit :=
  t ← gets (fun s : pipe_st => pipes s.2);
  p ← lift_opt (zget t pipe);
  t' ← lift_opt (zset t pipe (f p));
  put_pipes t'.

Definition init_pipes : M pipe_st bool :=
  ok ← zoom malloc;
  if negb ok then
    modify (fun s : pipe_st => (s.1, {| pipes := []; pipes_size := pipes_size s.2;
                                        open_pipe_idx := open_pipe_idx s.2 |}));;
    mret false
  else
    modify (fun s : pipe_st => (s.1, {| pipes := replicate (Z.to_nat INITIAL_PIPE_COUNT) pipe_zero;
                                        pipes_size := INITIAL_PIPE_COUNT; open_pipe_idx := 0 |}));;
    mret true.

Definition get_pipe (pipe_id : Z) : M pipe_st (option Z) :=
  s ← gets (fun s : pipe_st => s.2);
  if (pipe_id <? 0) || (pipes_size s <=? pipe_id) then mret None
  else
    p ← lift_opt (zget (pipes s) pipe_id);
    if negb (pi_in_use p) then mret None else mret (Some pipe_id).

Definition pipe_reclaim (pipe_id : Z) : M pipe_st bool :=
  pipe ← get_pipe pipe_id;
  match pipe with
  | None => mret false
  | Some pipe =>
      p ← load_pipe pipe;
      match q_first (pi_readers p) with
      | Some _ => mret false
      | None =>
          update_pipe pipe (fun _ => pipe_zero);;
          modify (fun s : pipe_st => (s.1, {| pipes := pipes s.2; pipes_size := pipes_size s.2;
            open_pipe_idx := if pipe_id <? open_pipe_idx s.2 then pipe_id else open_pipe_idx s.2 |}));;
          mret true
      end
  end.

Section new_pipe.
Context `{Machine}.

Definition new_pipe : M pipe_st Z :=
  s ← gets (fun s : pipe_st => s.2);
  grown ←
    (if pipes_size s <=? open_pipe_idx s then
       let new_size := pipes_size s * 2 in
       ok ← zoom malloc;
       if negb ok then mret false
       else
         temp ← lift_opt (move_table pipe_zero (pipes s) (pipes_size s) new_size);
         modify (fun x : pipe_st => (x.1, {| pipes := temp; pipes_size := new_size;
                                             open_pipe_idx := open_pipe_idx x.2 |}));;
         mret true
     else mret true);
  if negb grown then mret ERROR
  else
    pipe_id ← gets (fun s : pipe_st => open_pipe_idx s.2);
    update_pipe pipe_id (fun _ => pipe_zero);;
    ok ← zoom malloc;
    if negb ok then mret ERROR
    else
      update_pipe pipe_id (fun p =>
        {| pi_in_use := true; pi_buf := Some (replicate (Z.to_nat PIPE_BUFFER_LEN) 0);
           pi_cap := PIPE_BUFFER_LEN; pi_head := pi_head p; pi_len := pi_len p;
           pi_readers := pi_readers p |});;
      s ← gets (fun s : pipe_st => s.2);
      idx ← lift_opt (next_open pi_in_use (Z.to_nat (pipes_size s)) (open_pipe_idx s)
                        (pipes_size s) (pipes s));
      modify (fun x : pipe_st => (x.1, {| pipes := pipes x.2; pipes_size := pipes_size x.2;
                                          open_pipe_idx := idx |}));;
      mret pipe_id.
End new_pipe.

(** [readq_pop(pipe)] *)
Definition readq_pop (pipe : Z) : M pipe_st (option addr) :=
  p ← load_pipe pipe;
  r ← zoom (pop_front (pi_readers p));
  update_pipe pipe (set_pi_readers r.2);;
  mret r.1.
Definition readq_push (pipe : Z) (proc : addr) : M pipe_st unit :=
  p ← load_pipe pipe;
  q ← zoom (push_on_tail (pi_readers p) proc);
  update_pipe pipe (set_pi_readers q).

(** No process is in a queue twice, so there are at most as many readers as
    process control blocks. *)
Fixpoint wake_readers_loop (fuel : nat) (pipe : Z) : M pipe_st unit :=
  match fuel with
  | O => ub
  | Datatypes.S fuel' =>
      proc ← readq_pop pipe;
      match proc with
      | Some p => zoom (schedule_process p);; wake_readers_loop fuel' pipe
      | None => mret tt
      end
  end.
Definition wake_readers (pipe : Z) : M pipe_st unit :=
  fuel ← gets (fun s : pipe_st => Datatypes.S (base.size (st_pcbs s.1.1)));
  wake_readers_loop fuel pipe.

(** ** What the table stands for *)

Definition pipe_of (t : pipes_t) (i : Z) : option pipe_t := used pi_in_use (pipes t) i.
Definition pipes_ok (t : pipes_t) : Prop := open_at pi_in_use (pipes_size t) (open_pipe_idx t) (pipes t).

Definition pipe_tab (i : Z) (p : pipe_t) (t : pipes_t) : pipes_t :=
  {| pipes := <[Z.to_nat i := p]> (pipes t); pipes_size := pipes_size t;
     open_pipe_idx := open_pipe_idx t |}.
Lemma pipe_tab_same i p t : zget (pipes t) i = Some p -> pipe_tab i p t = t.
Proof.
  intros Hg. pose proof (zget_Some _ _ _ Hg). rewrite zget_nonneg in Hg by lia. unfold pipe_tab.
  rewrite list_insert_id by done. by destruct t.
Qed.

Section one_pipe.
Context (i : Z) (t : pipes_t).
Hypothesis Hi : 0 <= i < zlen (pipes t).

Lemma wp_load_pipe ss p Q : Q p (ss, pipe_tab i p t) -> wp (load_pipe i) Q (ss, pipe_tab i p t).
Proof.
  intros HQ. unfold load_pipe. wp_step. wp_step. eapply wp_lift_opt; [|exact HQ].
  by apply zget_insert_eq.
Qed.
Lemma wp_update_pipe ss p f Q :
  Q tt (ss, pipe_tab i (f p) t) -> wp (update_pipe i f) Q (ss, pipe_tab i p t).
Proof.
  intros HQ. unfold update_pipe. wp_step. wp_step. wp_step.
  eapply wp_lift_opt; [by apply zget_insert_eq|]. wp_step.
  eapply wp_lift_opt; [apply zset_inside; simpl; by rewrite zlen_insert|].
  unfold put_pipes. wp_step. unfold pipe_tab in HQ. simpl. rewrite list_insert_insert_eq. exact HQ.
Qed.

(** All readers become ready, in order. *)
Lemma wake_readers_loop_ok fuel : forall st sc p L R W S,
  fifo_repr st (pi_readers p) L -> sched_inv (st, sc) R W S ->
  (forall a, a ∈ L -> a ∉ R ++ W ++ S /\ idle_proc sc <> Some a) -> (length L < fuel)%nat ->
  wp (wake_readers_loop fuel i) (fun _ s' => exists st' sc' q, s' = ((st', sc'), pipe_tab i (set_pi_readers q p) t) /\
      fifo_repr st' q [] /\ sched_inv (st', sc') (R ++ L) W S /\ idle_proc sc' = idle_proc sc /\
      (forall a, a ∈ L -> p_state <$> st_pcbs st' !! a = Some READY) /\
      (forall a, a ∉ L -> set_p_next None <$> st_pcbs st' !! a = set_p_next None <$> st_pcbs st !! a))
    ((st, sc), pipe_tab i p t).
Proof.
  induction fuel as [|fuel IH]; intros st sc p L R W S Hq Hinv Hap Hf; [lia|].
  cbn [wake_readers_loop]. wp_step. unfold readq_pop. wp_step. apply wp_load_pipe.
  wp_step. wp_step. change (lget _) with st. eapply wp_mono; [by apply (pop_ok st (pi_readers p) L)|].
  intros r st1 Hpop. change (lset st1 _) with ((st1, sc), pipe_tab i p t). destruct L as [|a L].
  - destruct Hpop as [-> ->]. wp_step. apply wp_update_pipe. wp_step. cbn [fst snd]. wp_step.
    eexists st, sc, _. split; [done|]. rewrite app_nil_r. simpl. split_and!; try done.
    by intros a []%not_elem_of_nil.
  - destruct Hpop as (q1 & -> & Hq1 & Ho1). wp_step. apply wp_update_pipe. wp_step. cbn [fst snd].
    destruct (Hap a) as [Ha Hidle]; [set_solver|].
    assert (is_Some (st_pcbs st !! a)) as [b Hb] by (eapply fifo_repr_live; [exact Hq|set_solver]).
    destruct (next_only_block _ _ _ _ _ Ho1 Hb) as [n Hb1].
    pose proof (fr_nodup _ _ _ Hq) as [HaL HndL]%NoDup_cons.
    assert (sched_inv (st1, sc) R W S) as Hinv1.
    { eapply sched_inv_keeps; [done|]. eapply keeps_next_only; [done|]. set_solver. }
    wp_step. wp_step. change (lget _) with (st1, sc). eapply wp_mono; [by eapply schedule_process_ok|].
    intros [] [st2 sc2] Hs. rewrite decide_False in Hs by done.
    destruct Hs as (Hinv2 & Ho2 & q2 & Esc). simpl in Ho2, Esc.
    assert (idle_proc sc2 = idle_proc sc) as Hid2 by (by rewrite Esc). clear Esc.
    change (lset (st2, sc2) _) with ((st2, sc2), pipe_tab i (set_pi_readers q1 p) t).
    eapply wp_mono; [apply (IH st2 sc2 (set_pi_readers q1 p) L (R ++ [a]) W S)|].
    + simpl. eapply fifo_repr_frame; [|exact Ho2|].
      * eapply fifo_repr_keeps; [exact Hq1|]. by apply (keeps_update st1 a (set_p_next n b) (set_p_state READY)).
      * intros x Hx [->|Hx']%elem_of_cons; [done|]. destruct (Hap x); set_solver.
    + done.
    + intros x Hx. rewrite Hid2. destruct (Hap x); [set_solver|]. split; [|done].
      assert (x <> a) by (intros ->; done). set_solver.
    + simpl in Hf. lia.
    + intros [] s' (st' & sc' & q & -> & Hq' & Hinv' & Hid' & Hready & Hrest).
      exists st', sc', q. split; [done|]. split; [done|]. rewrite <- app_assoc in Hinv'.
      split; [exact Hinv'|]. split; [congruence|]. split.
      * intros x [->|Hx]%elem_of_cons; [|by apply Hready].
        assert (set_p_next None <$> st_pcbs st' !! a = Some (set_p_next None (set_p_state READY (set_p_next n b)))) as E.
        { rewrite Hrest by done. rewrite (no_fields _ _ _ Ho2 a). simpl. by rewrite lookup_insert_eq. }
        destruct (st_pcbs st' !! a) as [b'|]; [|done]. simpl in E. injection E. intros.
        simpl. f_equal. destruct b'. by simplify_eq/=.
      * intros x Hx. rewrite Hrest by set_solver. rewrite (no_fields _ _ _ Ho2 x). simpl.
        rewrite lookup_insert_ne by set_solver. apply (no_fields _ _ _ Ho1).
Qed.
End one_pipe.

Lemma wake_readers_ok i t st sc p L R W S :
  0 <= i < zlen (pipes t) -> fifo_repr st (pi_readers p) L -> sched_inv (st, sc) R W S ->
  (forall a, a ∈ L -> a ∉ R ++ W ++ S /\ idle_proc sc <> Some a) ->
  wp (wake_readers i) (fun _ s' => exists st' sc' q, s' = ((st', sc'), pipe_tab i (set_pi_readers q p) t) /\
      fifo_repr st' q [] /\ sched_inv (st', sc') (R ++ L) W S /\ idle_proc sc' = idle_proc sc /\
      (forall a, a ∈ L -> p_state <$> st_pcbs st' !! a = Some READY) /\
      (forall a, a ∉ L -> set_p_next None <$> st_pcbs st' !! a = set_p_next None <$> st_pcbs st !! a))
    ((st, sc), pipe_tab i p t).
Proof.
  intros Hi Hq Hinv Hap. unfold wake_readers. wp_step. wp_step.
  apply (wake_readers_loop_ok i t Hi _ st sc p L R W S); try done.
  apply Nat.lt_succ_r.
  rewrite <- (size_list_to_set (C := gset addr)) by apply Hq.
  rewrite <- size_dom. apply subseteq_size. intros a Ha%elem_of_list_to_set.
  apply elem_of_dom. by eapply fifo_repr_live.
Qed.

(** ** Making and reclaiming pipes *)
Section making.
Context `{MachineOk}.

Definition fresh_pipe : pipe_t :=
  {| pi_in_use := true; pi_buf := Some (replicate (Z.to_nat PIPE_BUFFER_LEN) 0);
     pi_cap := PIPE_BUFFER_LEN; pi_head := 0; pi_len := 0; pi_readers := fifo_empty |}.
Lemma fresh_pipe_repr : pipe_repr fresh_pipe [].
Proof.
  pose proof sizes_pos as (_ & _ & ?). split; simpl; try done; try lia.
  - eexists. split; [done|]. unfold zlen. rewrite length_replicate. lia.
  - unfold zlen. simpl. lia.
  - intros i b Hg. apply zget_Some in Hg. unfold zlen in Hg. simpl in Hg. lia.
Qed.

Definition with_pipes (l : list pipe_t) (o n : Z) : pipes_t :=
  {| pipes := l; pipes_size := n; open_pipe_idx := o |}.

(** What follows when the table has a place to give. *)
Lemma new_pipe_entry_ok (ss : sched_st) l o n :
  open_at pi_in_use n o l -> o < n ->
  wp (pipe_id ← gets (fun s : pipe_st => open_pipe_idx s.2);
      update_pipe pipe_id (fun _ => pipe_zero);;
      ok ← zoom malloc;
      if negb ok then mret ERROR
      else
        update_pipe pipe_id (fun p =>
          {| pi_in_use := true; pi_buf := Some (replicate (Z.to_nat PIPE_BUFFER_LEN) 0);
             pi_cap := PIPE_BUFFER_LEN; pi_head := pi_head p; pi_len := pi_len p;
             pi_readers := pi_readers p |});;
        s ← gets (fun s : pipe_st => s.2);
        idx ← lift_opt (next_open pi_in_use (Z.to_nat (pipes_size s)) (open_pipe_idx s)
                          (pipes_size s) (pipes s));
        modify (fun x : pipe_st => (x.1, {| pipes := pipes x.2; pipes_size := pipes_size x.2;
                                            open_pipe_idx := idx |}));;
        mret pipe_id)
    (fun r s' => exists st' l' o', s' = ((st', ss.2), with_pipes l' o' n) /\ same_blocks ss.1 st' /\
       open_at pi_in_use n o' l' /\
       ((r = ERROR /\ forall i, used pi_in_use l' i = used pi_in_use l i) \/
        (r = o /\ forall i, used pi_in_use l' i =
           if decide (i = o) then Some fresh_pipe else used pi_in_use l i)))
    (ss, with_pipes l o n).
Proof.
  intros Ho Hlt. pose proof (oa_size _ _ _ _ Ho) as Hl. pose proof (oa_range _ _ _ _ Ho).
  assert (0 <= o < zlen l) as Hol by lia. destruct (zget_inside l o) as [x Hx]; [lia|].
  wp_step. wp_step. change (open_pipe_idx (ss, with_pipes l o n).2) with o.
  rewrite <- (pipe_tab_same o x (with_pipes l o n) Hx) at 1.
  wp_step. apply (wp_update_pipe o (with_pipes l o n) Hol). wp_step. wp_step. apply wp_malloc.
  intros ok st' Hsb. change (lset st' _) with ((st', ss.2), pipe_tab o pipe_zero (with_pipes l o n)).
  destruct ok; cbn [negb].
  - wp_step. apply (wp_update_pipe o (with_pipes l o n) Hol). wp_step. wp_step.
    destruct (open_at_take pi_in_use n o l fresh_pipe Ho Hlt eq_refl) as (j & Hj & Hoj).
    wp_step. eapply wp_lift_opt; [exact Hj|]. wp_step. wp_step. wp_step.
    exists st', (<[Z.to_nat o := fresh_pipe]> l), j. do 3 (split; [done|]). right. split; [done|].
    intros i. rewrite used_insert by lia. by case_decide.
  - wp_step. destruct (open_at_same pi_in_use n o l pipe_zero Ho Hlt eq_refl) as [Ho' Hsame].
    exists st', (<[Z.to_nat o := pipe_zero]> l), o. do 3 (split; [done|]). by left.
Qed.

Lemma new_pipe_ok (ss : sched_st) t :
  pipes_ok t ->
  wp new_pipe (fun r s' => same_blocks ss.1 s'.1.1 /\ s'.1.2 = ss.2 /\ pipes_ok s'.2 /\
    made (pipe_of t) (pipe_of s'.2) r fresh_pipe) (ss, t).
Proof.
  intros Hok. unfold pipes_ok in Hok. pose proof (oa_range _ _ _ _ Hok) as Hr.
  unfold new_pipe. wp_step. wp_step. simpl.
  destruct (Z.leb_spec (pipes_size t) (open_pipe_idx t)) as [Hge|Hlt].
  - assert (open_pipe_idx t = pipes_size t) as Eo by lia.
    wp_step. wp_step. wp_step. apply wp_malloc. intros ok st' Hsb. simpl. destruct ok; simpl.
    + destruct (open_at_grow pi_in_use pipe_zero _ _ _ eq_refl Hok Hge) as (t' & Ht & Ho & Hlt & Hsame).
      rewrite Z.mul_comm. rewrite Eo in Ht. wp_step. eapply wp_lift_opt; [exact Ht|].
      wp_step. wp_step. wp_step. simpl.
      eapply wp_mono; [exact (new_pipe_entry_ok (st', ss.2) t' _ _ Ho Hlt)|].
      intros r s' (st2 & l' & o' & -> & Hsb' & Ho' & Hres). simpl in *.
      split; [unfold same_blocks in *; destruct_and!; split_and!; congruence|]. do 2 (split; [done|]).
      unfold made, pipe_of. simpl. destruct Hres as [[-> Hi]|[-> Hi]]; [left|right].
      * split; [done|]. intros i. by rewrite Hi, Hsame.
      * split; [lia|]. split; [by apply Hok|]. split; [by apply Hok|]. intros i. rewrite Hi.
        case_decide; [done|]. apply Hsame.
    + wp_step. simpl. wp_step. simpl. do 3 (split; [done|]). by left.
  - wp_step. wp_step. simpl.
    pose proof (new_pipe_entry_ok ss (pipes t) _ _ Hok Hlt) as Hwp.
    assert (with_pipes (pipes t) (open_pipe_idx t) (pipes_size t) = t) as E by (by destruct t).
    rewrite E in Hwp. eapply wp_mono; [exact Hwp|].
    intros r s' (st2 & l' & o' & -> & Hsb' & Ho' & Hres). simpl in *. do 3 (split; [done|]).
    unfold made, pipe_of. simpl. destruct Hres as [[-> Hi]|[-> Hi]]; [by left|right].
    split; [lia|]. split; [by apply Hok|]. split; [by apply Hok|]. done.
Qed.
End making.

(** No process waits to read from the pipe. *)
Definition no_reader (p : pipe_t) : bool := match q_first (pi_readers p) with None => true | Some _ => false end.

Lemma get_pipe_ok (ss : sched_st) t i :
  pipes_ok t -> get_pipe i (ss, t) = Some (match pipe_of t i with Some _ => Some i | None => None end, (ss, t)).
Proof.
  intros Hok. pose proof (oa_size _ _ _ _ Hok) as Hl.
  unfold get_pipe, mbind, M_bind, gets. simpl. unfold pipe_of.
  destruct (Z.ltb_spec i 0), (Z.leb_spec (pipes_size t) i); simpl;
    try (by rewrite used_outside by lia).
  destruct (zget_inside (pipes t) i) as [p Hg]; [lia|]. rewrite Hg. simpl.
  rewrite (used_inside _ _ _ _ Hg). by destruct (pi_in_use p).
Qed.

Lemma pipe_reclaim_ok (ss : sched_st) t i :
  pipes_ok t ->
  wp (pipe_reclaim i) (fun r s' => s'.1 = ss /\ pipes_ok s'.2 /\
    reclaimed (pipe_of t) (pipe_of s'.2) no_reader i r) (ss, t).
Proof.
  intros Hok. unfold pipe_reclaim. wp_step. unfold wp. rewrite get_pipe_ok by done.
  destruct (pipe_of t i) as [p|] eqn:Ep.
  2: { unfold mret, M_ret. cbn [fst snd]. split; [done|]. split; [done|]. apply reclaim_refused. by rewrite Ep. }
  pose proof (used_range _ _ _ _ Ep) as Hi. apply used_Some in Ep as Ep'. destruct Ep' as [Hg _].
  change (wp (p ← load_pipe i; match q_first (pi_readers p) with Some _ => mret false | None =>
      update_pipe i (fun _ => pipe_zero);;
      modify (fun s : pipe_st => (s.1, {| pipes := pipes s.2; pipes_size := pipes_size s.2;
        open_pipe_idx := if i <? open_pipe_idx s.2 then i else open_pipe_idx s.2 |}));;
      mret true end) (fun r s' => s'.1 = ss /\ pipes_ok s'.2 /\
        reclaimed (pipe_of t) (pipe_of s'.2) no_reader i r) (ss, t)).
  replace (ss, t) with (ss, pipe_tab i p t) by (by rewrite (pipe_tab_same i p t Hg)).
  wp_step. apply (wp_load_pipe i t Hi).
  destruct (q_first (pi_readers p)) eqn:Eq.
  - wp_step. rewrite (pipe_tab_same i p t Hg). cbn [snd]. split; [done|]. split; [done|].
    apply reclaim_refused. rewrite Ep. intros x [= <-]. unfold no_reader. by rewrite Eq.
  - wp_step. apply (wp_update_pipe i t Hi). wp_step. wp_step. wp_step. simpl.
    destruct (open_at_free pi_in_use _ _ _ i p pipe_zero Hok Ep eq_refl) as [Ho Hsame].
    split; [done|]. split; [exact Ho|]. split.
    + rewrite Ep. unfold no_reader. by rewrite Eq.
    + intros j. unfold pipe_of. simpl. rewrite Hsame. by repeat case_decide.
Qed.
