(* ===== verification/Terminals.v ===== *)
(** * Terminals ([tty.c], but for the two calls that block)

    Each terminal has a process whose line is being transmitted, the processes
    that wait to write, the lines received and not read yet, and the processes
    that wait to read.  The functions here run on the scheduler, the device
    events and the terminals; [kernel_tty_write] and [kernel_tty_read] are in
    [TtyCalls]. *)

From S2P Require Import Prelude Machine Pcb Fifo SleepHeap Scheduler.

(** ** Definitions *)

(** A line received: its bytes, how many there are, how many were read. *)
Record rx_line_t := { rx_buf : list Z; rx_len : Z; rx_off : Z }.
Definition set_rx_off (off : Z) (l : rx_line_t) : rx_line_t :=
  {| rx_buf := rx_buf l; rx_len := rx_len l; rx_off := off |}.

(** The list [rx_head], [rx_tail] of lines is a list, first line first. *)
Record tty_state_t := {
  tx_owner : option addr;
  transmitting : bool;
  tx_last_chunk : Z;
  w_queue : fifo;
  rx_lines : list rx_line_t;
  r_queue : fifo
}.
Definition tty_zero : tty_state_t :=
  {| tx_owner := None; transmitting := false; tx_last_chunk := 0; w_queue := fifo_empty;
     rx_lines := []; r_queue := fifo_empty |}.
Definition set_tx_owner (o : option addr) (t : tty_state_t) : tty_state_t :=
  {| tx_owner := o; transmitting := transmitting t; tx_last_chunk := tx_last_chunk t;
     w_queue := w_queue t; rx_lines := rx_lines t; r_queue := r_queue t |}.
Definition set_transmitting (b : bool) (t : tty_state_t) : tty_state_t :=
  {| tx_owner := tx_owner t; transmitting := b; tx_last_chunk := tx_last_chunk t;
     w_queue := w_queue t; rx_lines := rx_lines t; r_queue := r_queue t |}.
Definition set_tx_last_chunk (n : Z) (t : tty_state_t) : tty_state_t :=
  {| tx_owner := tx_owner t; transmitting := transmitting t; tx_last_chunk := n;
     w_queue := w_queue t; rx_lines := rx_lines t; r_queue := r_queue t |}.
Definition set_w_queue (q : fifo) (t : tty_state_t) : tty_state_t :=
  {| tx_owner := tx_owner t; transmitting := transmitting t; tx_last_chunk := tx_last_chunk t;
     w_queue := q; rx_lines := rx_lines t; r_queue := r_queue t |}.
Definition set_rx_lines (ls : list rx_line_t) (t : tty_state_t) : tty_state_t :=
  {| tx_owner := tx_owner t; transmitting := transmitting t; tx_last_chunk := tx_last_chunk t;
     w_queue := w_queue t; rx_lines := ls; r_queue := r_queue t |}.
Definition set_r_queue (q : fifo) (t : tty_state_t) : tty_state_t :=
  {| tx_owner := tx_owner t; transmitting := transmitting t; tx_last_chunk := tx_last_chunk t;
     w_queue := w_queue t; rx_lines := rx_lines t; r_queue := q |}.

(** The state: the scheduler's, the device events (latest first), [ttys]. *)
Abbreviation tty_st := ((sched_st * list hw_event) * list tty_state_t)%type.
#[export] Instance tty_sched_lens : Lens sched_st tty_st :=
  {| lget := fun s => s.1.1; lset := fun x s => ((x, s.1.2), s.2) |}.
#[export] Instance tty_store_lens : Lens store tty_st :=
  {| lget := fun s => s.1.1.1; lset := fun x s => (((x, s.1.1.2), s.1.2), s.2) |}.

Section definitions.
Context `{Machine}.

Definition get_tty (tty_id : Z) : M tty_st tty_state_t :=
  ts ← gets (fun s : tty_st => s.2); lift_opt (zget ts tty_id).
Definition update_tty (tty_id : Z) (f : tty_state_t -> tty_state_t) : M tty_st unit :=
  ts ← gets (fun s : tty_st => s.2);
  t ← lift_opt (zget ts tty_id);
  ts' ← lift_opt (zset ts tty_id (f t));
  modify (fun s : tty_st => (s.1, ts')).
Definition tty_emit (e : hw_event) : M tty_st unit :=
  modify (fun s : tty_st => ((s.1.1, e :: s.1.2), s.2)).

Definition init_tty : M tty_st unit :=
  modify (fun s : tty_st => (s.1, replicate (Z.to_nat NUM_TERMINALS) tty_zero)).

(** The queue helpers, on the terminal [tty_id]: the processes that wait to
    write and those that wait to read, linked through their blocks. *)
Definition wq_push (tty_id : Z) (p : addr) : M tty_st unit :=
  t ← get_tty tty_id;
  q ← zoom (push_on_tail (w_queue t) p);
  update_tty tty_id (set_w_queue q).
Definition wq_pop (tty_id : Z) : M tty_st (option addr) :=
  t ← get_tty tty_id;
  r ← zoom (pop_front (w_queue t));
  update_tty tty_id (set_w_queue r.2);;
  mret r.1.
Definition rq_push (tty_id : Z) (p : addr) : M tty_st unit :=
  t ← get_tty tty_id;
  q ← zoom (push_on_tail (r_queue t) p);
  update_tty tty_id (set_r_queue q).
Definition rq_pop (tty_id : Z) : M tty_st (option addr) :=
  t ← get_tty tty_id;
  r ← zoom (pop_front (r_queue t));
  update_tty tty_id (set_r_queue r.2);;
  mret r.1.

Definition start_chunk (tty_id : Z) : M tty_st unit :=
  t ← get_tty tty_id;
  owner ← lift_opt (tx_owner t);
  b ← zoom (load owner);
  let remaining := p_io_total b - p_io_sent b in
  let chunk := if remaining <? TERMINAL_MAX_LINE then remaining else TERMINAL_MAX_LINE in
  update_tty tty_id (set_tx_last_chunk chunk);;
  update_tty tty_id (set_transmitting true);;
  bytes ← lift_opt (buf ← p_io_kbuf b; zslice buf (p_io_sent b) chunk);
  tty_emit (TtyTransmit tty_id bytes).

(** The bytes [consume_into_user] copies to the user, and the lines it leaves. *)
Definition consume (lines : list rx_line_t) (len : Z) : option (list Z * list rx_line_t) :=
  match lines with
  | [] => Some ([], [])
  | line :: next =>
      let avail := rx_len line - rx_off line in
      let n := if avail <? len then avail else len in
      bytes ← zslice (rx_buf line) (rx_off line) n;
      let line := set_rx_off (rx_off line + n) line in
      Some (bytes, if rx_len line <=? rx_off line then next else line :: next)
  end.

Definition tty_transmit_done (tty_id : Z) : M tty_st unit :=
  if (tty_id <? 0) || (NUM_TERMINALS <=? tty_id) then mret tt
  else
    t ← get_tty tty_id;
    match tx_owner t with
    | None => mret tt
    | Some owner =>
        zoom (update owner (fun b => set_p_io_sent (p_io_sent b + tx_last_chunk t) b));;
        update_tty tty_id (set_transmitting false);;
        b ← zoom (load owner);
        if p_io_sent b <? p_io_total b then start_chunk tty_id
        else
          update_tty tty_id (set_tx_owner None);;
          zoom (schedule_process owner);;
          nxt ← wq_pop tty_id;
          match nxt with
          | Some nxt =>
              update_tty tty_id (set_tx_owner (Some nxt));;
              start_chunk tty_id
          | None => mret tt
          end
    end.

(** [received] is the line [TtyReceive] gives, at most [TERMINAL_MAX_LINE]
    bytes; it is not asked for when there is no memory. *)
Definition tty_receive_done (tty_id : Z) (received : list Z) : M tty_st unit :=
  if (tty_id <? 0) || (NUM_TERMINALS <=? tty_id) then mret tt
  else
    ok ← zoom malloc;
    if negb ok then mret tt
    else
      let line := {| rx_buf := received; rx_len := zlen received; rx_off := 0 |} in
      update_tty tty_id (fun t => set_rx_lines (rx_lines t ++ [line]) t);;
      reader ← rq_pop tty_id;
      match reader with
      | Some p => zoom (schedule_process p)
      | None => mret tt
      end.
End definitions.

(** ** What was sent to a terminal *)

(** The bytes transmitted to the terminal [i], first byte first. *)
Fixpoint transmitted (i : Z) (events : list hw_event) : list Z :=
  match events with
  | [] => []
  | TtyTransmit j bytes :: evs => transmitted i evs ++ (if decide (j = i) then bytes else [])
  | _ :: evs => transmitted i evs
  end.

(** The process at [p] writes [bytes], of which [k] are sent. *)
Definition writer (st : store) (p : addr) (bytes : list Z) (k : Z) : Prop :=
  exists b, st_pcbs st !! p = Some b /\ p_io_kbuf b = Some bytes /\ p_io_total b = zlen bytes /\
    p_io_sent b = k.

Lemma writer_next_only st st' X p bytes k :
  next_only st st' X -> writer st p bytes k -> writer st' p bytes k.
Proof.
  intros Hn (b & Hb & ? & ? & ?). destruct (next_only_block _ _ _ _ _ Hn Hb) as [n Hb'].
  by exists (set_p_next n b).
Qed.
Lemma writer_update st p b q bytes k :
  st_pcbs st !! p = Some b -> writer st q bytes k ->
  writer (set_pcbs (<[p := set_p_state READY b]> (st_pcbs st)) st) q bytes k.
Proof.
  intros Hb (bq & Hbq & ? & ? & ?). unfold writer. simpl. destruct (decide (p = q)) as [->|].
  - rewrite lookup_insert_eq. simplify_eq. by eexists.
  - rewrite lookup_insert_ne by done. by eexists.
Qed.

Section one_tty.
Context `{MachineOk} (i : Z) (ts : list tty_state_t).
Hypothesis Hi : 0 <= i < zlen ts.

(** The terminals with [t] for the terminal [i]. *)
Definition tty_tab (t : tty_state_t) : list tty_state_t := <[Z.to_nat i := t]> ts.

Lemma tty_tab_same t : zget ts i = Some t -> tty_tab t = ts.
Proof. intros Hg. rewrite zget_nonneg in Hg by lia. unfold tty_tab. by rewrite list_insert_id. Qed.
Lemma wp_get_tty x t Q : Q t (x, tty_tab t) -> wp (get_tty i) Q (x, tty_tab t).
Proof.
  intros HQ. unfold get_tty. wp_step. wp_step. eapply wp_lift_opt; [by apply zget_insert_eq|done].
Qed.
Lemma wp_update_tty x t f Q : Q tt (x, tty_tab (f t)) -> wp (update_tty i f) Q (x, tty_tab t).
Proof.
  intros HQ. unfold update_tty. wp_step. wp_step. wp_step.
  eapply wp_lift_opt; [by apply zget_insert_eq|]. wp_step.
  eapply wp_lift_opt; [apply zset_inside; unfold tty_tab; simpl; by rewrite zlen_insert|]. wp_step. unfold tty_tab.
  simpl. rewrite list_insert_insert_eq. exact HQ.
Qed.

(** The chunk after the first [k] bytes. *)
Definition chunk_len (bytes : list Z) (k : Z) : Z := (zlen bytes - k) `min` TERMINAL_MAX_LINE.
Definition chunk_at (bytes : list Z) (k : Z) : list Z :=
  take (Z.to_nat (chunk_len bytes k)) (drop (Z.to_nat k) bytes).

Lemma chunk_pos bytes k : k < zlen bytes -> 0 < chunk_len bytes k.
Proof. pose proof sizes_pos as (? & _). unfold chunk_len. lia. Qed.

(** The terminal once a chunk is on its way. *)
Definition on_its_way (n : Z) (t : tty_state_t) : tty_state_t :=
  set_transmitting true (set_tx_last_chunk n t).

Lemma start_chunk_ok st sc evs t p bytes k :
  tx_owner t = Some p -> writer st p bytes k -> 0 <= k <= zlen bytes ->
  wp (start_chunk i) (fun _ s' => s' = (((st, sc), TtyTransmit i (chunk_at bytes k) :: evs),
       tty_tab (on_its_way (chunk_len bytes k) t))) (((st, sc), evs), tty_tab t).
Proof.
  intros Ho (b & Hb & Hbuf & Htot & Hsent) Hk. unfold start_chunk.
  wp_step. apply wp_get_tty. wp_step. eapply wp_lift_opt; [exact Ho|].
  wp_step. wp_step. eapply wp_load; [exact Hb|].
  change (lset _ _) with (((st, sc), evs), tty_tab t).
  rewrite Htot, Hsent. cbv zeta.
  assert ((if zlen bytes - k <? TERMINAL_MAX_LINE then zlen bytes - k else TERMINAL_MAX_LINE)
    = chunk_len bytes k) as -> by (unfold chunk_len; destruct (Z.ltb_spec (zlen bytes - k) TERMINAL_MAX_LINE); lia).
  pose proof sizes_pos as (? & _).
  wp_step. apply wp_update_tty. wp_step. apply wp_update_tty. wp_step.
  eapply wp_lift_opt. { rewrite Hbuf. simpl. unfold zslice. rewrite decide_True by (unfold chunk_len; lia). done. }
  unfold tty_emit. by wp_step.
Qed.

(** ** The end of a transmission *)

(** [p] is sending [bytes], the chunk after the first [k] being on its way; [W]
    wait to write. *)
Record sending (st : store) (t : tty_state_t) (p : addr) (bytes : list Z) (k : Z) (W : list addr)
    : Prop := {
  se_owner : tx_owner t = Some p;
  se_writer : writer st p bytes k;
  se_range : 0 <= k < zlen bytes;
  se_chunk : tx_last_chunk t = chunk_len bytes k;
  se_queue : fifo_repr st (w_queue t) W;
  se_wait : forall w, w ∈ W -> exists bs, writer st w bs 0 /\ 0 < zlen bs
}.

(** The terminal after the last chunk: idle, or sending the line of the first
    process that waits. *)
Definition handed_on (st : store) (t : tty_state_t) (W : list addr) (evs evs' : list hw_event) : Prop :=
  match W with
  | [] => tx_owner t = None /\ fifo_repr st (w_queue t) [] /\ evs' = evs
  | w :: W' => exists bs, sending st t w bs 0 W' /\ evs' = TtyTransmit i (chunk_at bs 0) :: evs
  end.

Lemma transmit_done_ok st sc evs t p bytes k W R Wt S :
  zlen ts = NUM_TERMINALS -> sending st t p bytes k W -> sched_inv (st, sc) R Wt S ->
  p ∉ W ++ R ++ Wt ++ S -> (forall w, w ∈ W -> w ∉ R ++ Wt ++ S) -> idle_proc sc <> Some p ->
  wp (tty_transmit_done i) (fun _ s' => exists st' sc' evs' t',
      s' = (((st', sc'), evs'), tty_tab t') /\ rx_lines t' = rx_lines t /\ r_queue t' = r_queue t /\
      idle_proc sc' = idle_proc sc /\
      let k' := k + chunk_len bytes k in
      if decide (k' < zlen bytes) then
        sending st' t' p bytes k' W /\ sched_inv (st', sc') R Wt S /\
        evs' = TtyTransmit i (chunk_at bytes k') :: evs
      else
        k' = zlen bytes /\ handed_on st' t' W evs evs' /\ sched_inv (st', sc') (R ++ [p]) Wt S /\
        p_state <$> st_pcbs st' !! p = Some READY)
    (((st, sc), evs), tty_tab t).
Proof.
  intros Hnum [Ho (b & Hb & Hbuf & Htot & Hsent) Hk Hch Hq Hw] Hinv Hp HW Hidle.
  unfold tty_transmit_done. rewrite <- Hnum.
  rewrite (proj2 (Z.ltb_ge _ _)), (proj2 (Z.leb_gt _ _)) by lia. simpl.
  wp_step. apply wp_get_tty. rewrite Ho. wp_step. wp_step. eapply wp_update; [exact Hb|].
  set (k' := k + chunk_len bytes k). set (b1 := set_p_io_sent k' b).
  set (st1 := set_pcbs (<[p := b1]> (st_pcbs st)) st).
  assert (set_p_io_sent (p_io_sent b + tx_last_chunk t) b = b1) as Eb by (by rewrite Hch, Hsent).
  rewrite Eb. change (lset _ _) with (((st1, sc), evs), tty_tab t).
  wp_step. apply wp_update_tty. wp_step. wp_step. eapply wp_load; [apply lookup_insert_eq|].
  change (lset _ _) with (((st1, sc), evs), tty_tab (set_transmitting false t)).
  change (p_io_sent b1) with k'. change (p_io_total b1) with (p_io_total b). rewrite Htot.
  assert (writer st1 p bytes k') as Hwr by (exists b1; split; [apply lookup_insert_eq|done]).
  assert (forall w, w ∈ W -> exists bs, writer st1 w bs 0 /\ 0 < zlen bs) as Hw1.
  { intros w Hin. destruct (Hw w Hin) as (bs & (bw & ? & ?) & ?). exists bs. split; [|done].
    exists bw. simpl. rewrite lookup_insert_ne; [done|]. set_solver. }
  assert (forall l, keeps st st1 l) as Hk1 by (intros; by apply (keeps_update _ p b (set_p_io_sent k'))).
  assert (sched_inv (st1, sc) R Wt S) as Hinv1 by (by eapply sched_inv_keeps).
  assert (fifo_repr st1 (w_queue t) W) as Hq1 by (by eapply fifo_repr_keeps).
  pose proof (chunk_pos bytes k ltac:(lia)).
  destruct (Z.ltb_spec k' (zlen bytes)) as [Hlt|Hge].
  - eapply wp_mono; [apply (start_chunk_ok st1 sc evs _ p bytes k'); [done|done|lia]|].
    intros [] s' ->. eexists st1, sc, _, _. split; [done|]. do 3 (split; [done|]).
    rewrite decide_True by done. split; [|done]. split; try done. lia.
  - assert (k' = zlen bytes) as Ek by (unfold k', chunk_len in *; lia).
    wp_step. apply wp_update_tty. wp_step. wp_step.
    change (lget _) with (st1, sc).
    eapply wp_mono; [eapply (schedule_process_ok st1 sc R Wt S p b1); [done|set_solver|apply lookup_insert_eq]|].
    intros [] [st2 sc2] Hs. rewrite decide_False in Hs by done. destruct Hs as (Hinv2 & Ho2 & q2 & Esc).
    simpl in Ho2, Esc. assert (idle_proc sc2 = idle_proc sc) as Hidle2 by (by rewrite Esc). clear Esc.
    assert (st_pcbs st1 !! p = Some b1) as Hb1 by apply lookup_insert_eq.
    assert (p_state <$> st_pcbs st2 !! p = Some READY) as Hready.
    { rewrite (next_only_field p_state _ _ _ p Ho2) by done. simpl. by rewrite lookup_insert_eq. }
    assert (fifo_repr st2 (w_queue t) W) as Hq2.
    { eapply fifo_repr_frame; [|exact Ho2|intros a Ha; specialize (HW a Ha); set_solver].
      eapply fifo_repr_keeps; [exact Hq1|]. by apply (keeps_update st1 p b1 (set_p_state READY)). }
    assert (forall w, w ∈ W -> exists bs, writer st2 w bs 0 /\ 0 < zlen bs) as Hw2.
    { intros w Hin. destruct (Hw1 w Hin) as (bs & Hbs & ?). exists bs. split; [|done].
      eapply writer_next_only; [exact Ho2|]. exact (writer_update st1 p b1 w bs 0 Hb1 Hbs). }
    change (lset (st2, sc2) _) with (((st2, sc2), evs), tty_tab (set_tx_owner None (set_transmitting false t))).
    wp_step. unfold wq_pop. wp_step. apply wp_get_tty. wp_step. wp_step. change (lget _) with st2.
    eapply wp_mono; [by apply pop_ok|].
    intros r st3 Hpop. change (lset st3 _) with
      (((st3, sc2), evs), tty_tab (set_tx_owner None (set_transmitting false t))).
    wp_step. apply wp_update_tty. wp_step. destruct W as [|w W].
    + destruct Hpop as [-> ->]. cbn [fst snd]. wp_step. eexists st2, sc2, _, _. split; [done|]. do 3 (split; [done|]).
      rewrite decide_False by lia. split; [done|]. split; [|done]. by split.
    + destruct Hpop as (q' & -> & Hq3 & Ho3). cbn [fst snd].
      destruct (Hw2 w) as (bs & Hbs & Hpos); [set_solver|].
      assert (sched_inv (st3, sc2) (R ++ [p]) Wt S) as Hinv3.
      { eapply sched_inv_keeps; [done|]. eapply keeps_next_only; [done|].
        intros a Ha ->%list_elem_of_singleton. specialize (HW w). set_solver. }
      wp_step. apply wp_update_tty.
      eapply wp_mono; [apply (start_chunk_ok st3 sc2 evs _ w bs 0);
        [done|by eapply writer_next_only|lia]|].
      intros [] s' ->. eexists st3, sc2, _, _. split; [done|]. do 3 (split; [done|]).
      rewrite decide_False by lia. split; [done|]. split; [|split; [done|]].
      * exists bs. split; [|done]. split; try done; [by eapply writer_next_only|].
        intros a Ha. destruct (Hw2 a) as (ba & ? & ?); [set_solver|]. exists ba.
        split; [by eapply writer_next_only|done].
      * by rewrite (next_only_field p_state _ _ _ p Ho3).
Qed.

(** ** A whole line *)

(** [n] completions in a row. *)
Fixpoint completions (n : nat) : M tty_st unit :=
  match n with
  | O => mret tt
  | Datatypes.S n' => tty_transmit_done i;; completions n'
  end.

Lemma take_chunk bytes k :
  0 <= k <= zlen bytes ->
  take (Z.to_nat k) bytes ++ chunk_at bytes k = take (Z.to_nat (k + chunk_len bytes k)) bytes.
Proof.
  intros Hk. pose proof sizes_pos as (? & _). unfold chunk_at.
  replace (Z.to_nat (k + chunk_len bytes k)) with (Z.to_nat k + Z.to_nat (chunk_len bytes k))%nat
    by (unfold chunk_len; lia).
  by rewrite take_take_drop.
Qed.

Lemma completions_ok p bytes W R Wt S pre n : forall st sc evs t k,
  zlen ts = NUM_TERMINALS -> sending st t p bytes k W -> sched_inv (st, sc) R Wt S ->
  p ∉ W ++ R ++ Wt ++ S -> (forall w, w ∈ W -> w ∉ R ++ Wt ++ S) -> idle_proc sc <> Some p ->
  transmitted i evs = pre ++ take (Z.to_nat (k + chunk_len bytes k)) bytes ->
  (Z.of_nat n - 1) * TERMINAL_MAX_LINE < zlen bytes - k <= Z.of_nat n * TERMINAL_MAX_LINE ->
  wp (completions n) (fun _ s' => exists st' sc' evs1 evs' t', s' = (((st', sc'), evs'), tty_tab t') /\
      rx_lines t' = rx_lines t /\ r_queue t' = r_queue t /\
      transmitted i evs1 = pre ++ bytes /\ handed_on st' t' W evs1 evs' /\
      sched_inv (st', sc') (R ++ [p]) Wt S /\ p_state <$> st_pcbs st' !! p = Some READY)
    (((st, sc), evs), tty_tab t).
Proof.
  induction n as [|n IH]; intros st sc evs t k Hnum Hs Hinv Hp HW Hidle Htr Hn.
  { destruct Hs as [_ _ ? _ _ _]. change (Z.of_nat 0) with 0 in Hn. lia. }
  simpl. wp_step. pose proof (se_range _ _ _ _ _ _ Hs) as Hk.
  eapply wp_mono; [by apply (transmit_done_ok st sc evs t p bytes k W R Wt S)|].
  intros [] s' (st' & sc' & evs' & t' & -> & Hrx & Hrq & Hid & Hres). cbv zeta in Hres.
  case_decide as Hlt.
  - destruct Hres as (Hs' & Hinv' & ->).
    eapply wp_mono; [eapply (IH st' sc' _ t' (k + chunk_len bytes k)); try done|].
    + by rewrite Hid.
    + simpl. rewrite decide_True by done. rewrite Htr, <- app_assoc. f_equal.
      apply take_chunk. pose proof (chunk_pos bytes k ltac:(lia)). lia.
    + unfold chunk_len in *. lia.
    + intros [] s' (st2 & sc2 & evs1 & evs2 & t2 & -> & Hrx2 & Hrq2 & Hres).
      exists st2, sc2, evs1, evs2, t2. rewrite Hrx2, Hrq2. do 3 (split; [congruence|]). exact Hres.
  - destruct Hres as (Ek & Hh & Hinv' & Hready). rewrite Ek in Htr.
    assert (n = 0%nat) as -> by (unfold chunk_len in *; nia).
    simpl. wp_step. exists st', sc', evs, evs', t'. split_and!; try done.
    rewrite Htr, take_ge; [done|]. unfold zlen. lia.
Qed.

(** ** Input *)

(** The lines not read yet, as the bytes left of each. *)
Definition unread (lines : list rx_line_t) : list (list Z) :=
  (fun l => drop (Z.to_nat (rx_off l)) (rx_buf l)) <$> lines.
Definition line_ok (l : rx_line_t) : Prop := 0 <= rx_off l <= rx_len l /\ rx_len l = zlen (rx_buf l).

Lemma tty_receive_ok st sc evs t line Rd R Wt S :
  zlen ts = NUM_TERMINALS -> fifo_repr st (r_queue t) Rd -> Forall line_ok (rx_lines t) ->
  sched_inv (st, sc) R Wt S -> (forall a, a ∈ Rd -> a ∉ R ++ Wt ++ S /\ idle_proc sc <> Some a) ->
  wp (tty_receive_done i line) (fun _ s' => exists st' sc' t', s' = (((st', sc'), evs), tty_tab t') /\
      ((t' = t /\ sc' = sc /\ same_blocks st st') \/
       (unread (rx_lines t') = unread (rx_lines t) ++ [line] /\ Forall line_ok (rx_lines t') /\
        tx_owner t' = tx_owner t /\ w_queue t' = w_queue t /\
        match Rd with
        | [] => sched_inv (st', sc') R Wt S /\ sc' = sc
        | r :: Rd' => sched_inv (st', sc') (R ++ [r]) Wt S /\ fifo_repr st' (r_queue t') Rd' /\
            p_state <$> st_pcbs st' !! r = Some READY
        end))) (((st, sc), evs), tty_tab t).
Proof.
  intros Hnum Hq Hok Hinv Hap. unfold tty_receive_done. rewrite <- Hnum.
  rewrite (proj2 (Z.ltb_ge _ _)), (proj2 (Z.leb_gt _ _)) by lia. simpl.
  wp_step. wp_step. apply wp_malloc. intros ok st1 Hsb. destruct ok; simpl.
  2: { wp_step. exists st1, sc, t. split; [done|]. by left. }
  set (l := {| rx_buf := line; rx_len := zlen line; rx_off := 0 |}).
  assert (forall l, keeps st st1 l) as Hk1 by (intros; by apply keeps_same, Hsb).
  assert (sched_inv (st1, sc) R Wt S) as Hinv1 by (by eapply sched_inv_keeps).
  assert (unread (rx_lines t ++ [l]) = unread (rx_lines t) ++ [line]) as Hun
    by (unfold unread; by rewrite fmap_app).
  assert (Forall line_ok (rx_lines t ++ [l])) as Hok'.
  { apply Forall_app. split; [done|]. apply Forall_singleton. split; simpl; [|done]. unfold zlen. lia. }
  wp_step. apply wp_update_tty. wp_step. unfold rq_pop. wp_step. apply wp_get_tty. wp_step. wp_step.
  change (lget _) with st1. simpl.
  eapply wp_mono; [apply (pop_ok st1 (r_queue t) Rd); by eapply fifo_repr_keeps|].
  intros r st2 Hpop. destruct Rd as [|rd Rd].
  - destruct Hpop as [-> ->]. wp_step. apply wp_update_tty. wp_step. simpl. wp_step.
    eexists st1, sc, _. split; [done|]. right. simpl. by split_and!.
  - destruct Hpop as (q' & -> & Hq2 & Ho). destruct (Hap rd) as [Hrd Hidle]; [set_solver|].
    assert (is_Some (st_pcbs st1 !! rd)) as [b Hb].
    { eapply (fifo_repr_live _ _ (rd :: Rd)); [by eapply fifo_repr_keeps|set_solver]. }
    destruct (next_only_block _ _ _ _ _ Ho Hb) as [n Hb2].
    assert (sched_inv (st2, sc) R Wt S) as Hinv2.
    { eapply sched_inv_keeps; [exact Hinv1|]. eapply keeps_next_only; [done|]. set_solver. }
    wp_step. apply wp_update_tty. wp_step. simpl. wp_step. change (lget _) with (st2, sc).
    eapply wp_mono; [by eapply schedule_process_ok|]. intros [] [st3 sc3] Hs.
    rewrite decide_False in Hs by done. destruct Hs as (Hinv3 & Ho3 & _). simpl in Ho3.
    eexists st3, sc3, _. split; [done|]. right. simpl. split_and!; try done.
    + eapply fifo_repr_frame; [|exact Ho3|].
      * eapply fifo_repr_keeps; [exact Hq2|]. by apply (keeps_update st2 rd (set_p_next n b) (set_p_state READY)).
      * pose proof (fr_nodup _ _ _ Hq) as [? _]%NoDup_cons.
        intros a Ha [->|Ha']%elem_of_cons; [done|]. destruct (Hap a); set_solver.
    + rewrite (next_only_field p_state _ _ _ rd Ho3) by done. simpl. by rewrite lookup_insert_eq.
Qed.
End one_tty.

Lemma consume_ok lines len :
  Forall line_ok lines -> 0 < len ->
  exists bytes lines', consume lines len = Some (bytes, lines') /\ Forall line_ok lines' /\
    match unread lines with
    | [] => bytes = [] /\ lines' = []
    | l :: ls => bytes = take (Z.to_nat len) l /\
        unread lines' = if zlen l <=? len then ls else drop (Z.to_nat len) l :: ls
    end.
Proof.
  intros Hok Hlen. destruct lines as [|l ls]; simpl; [by exists [], []|].
  apply Forall_cons in Hok as [[Ho Hl] Hok].
  assert ((if rx_len l - rx_off l <? len then rx_len l - rx_off l else len)
    = (rx_len l - rx_off l) `min` len) as -> by (destruct (Z.ltb_spec (rx_len l - rx_off l) len); lia).
  set (n := (rx_len l - rx_off l) `min` len). unfold zslice. rewrite decide_True by lia. simpl.
  assert (zlen (drop (Z.to_nat (rx_off l)) (rx_buf l)) = rx_len l - rx_off l) as Hd
    by (unfold zlen in *; rewrite length_drop; lia).
  eexists _, _. split; [done|]. rewrite Hd.
  split; [|split].
  - destruct (Z.leb_spec (rx_len l) (rx_off l + n)); [done|]. apply Forall_cons. split; [|done].
    split; simpl; lia.
  - destruct (decide (rx_len l - rx_off l <= len)).
    + rewrite !take_ge; unfold zlen in *; [done|lia|lia].
    + by replace n with len by lia.
  - destruct (Z.leb_spec (rx_len l) (rx_off l + n)), (Z.leb_spec (rx_len l - rx_off l) len); try done; try lia.
    simpl. f_equal. rewrite drop_drop. f_equal. lia.
Qed.

(** ** Properties *)

(** C31: a line written to a terminal is transmitted whole and in order, in
    chunks of at most [TERMINAL_MAX_LINE] bytes.  When the device has completed
    as many chunks as there are, the writer is READY at the end of the ready
    queue; and the first process that waits to write has become the owner, its
    first chunk on the way, so that lines are never mixed. *)
Theorem line_transmitted_whole `{MachineOk} (i : Z) (ts : list tty_state_t) (t : tty_state_t)
    (st : store) (sc : sched_t) (evs : list hw_event) (p : addr) (bytes pre : list Z) (k : Z) (n : nat)
    (W R Wt S : list addr) :
  0 <= i < zlen ts -> zlen ts = NUM_TERMINALS -> zget ts i = Some t ->
  sending st t p bytes k W -> sched_inv (st, sc) R Wt S ->
  p ∉ W ++ R ++ Wt ++ S -> (forall w, w ∈ W -> w ∉ R ++ Wt ++ S) -> idle_proc sc <> Some p ->
  transmitted i evs = pre ++ take (Z.to_nat (k + chunk_len bytes k)) bytes ->
  (Z.of_nat n - 1) * TERMINAL_MAX_LINE < zlen bytes - k <= Z.of_nat n * TERMINAL_MAX_LINE ->
  exists st' sc' evs1 evs' t',
    completions i n (((st, sc), evs), ts) = Some (tt, (((st', sc'), evs'), tty_tab i ts t')) /\
    rx_lines t' = rx_lines t /\ r_queue t' = r_queue t /\
    transmitted i evs1 = pre ++ bytes /\ handed_on i st' t' W evs1 evs' /\
    sched_inv (st', sc') (R ++ [p]) Wt S /\ p_state <$> st_pcbs st' !! p = Some READY.
Proof.
  intros Hi Hnum Hg Hs Hinv Hp HW Hidle Htr Hn.
  pose proof (completions_ok i ts Hi p bytes W R Wt S pre n st sc evs t k Hnum Hs Hinv Hp HW Hidle Htr Hn)
    as Hwp. rewrite (tty_tab_same i ts Hi t Hg) in Hwp.
  apply wp_run in Hwp as ([] & s' & Hrun & st' & sc' & evs1 & evs' & t' & -> & Hres).
  by exists st', sc', evs1, evs', t'.
Qed.

(** A line received is kept behind the lines not read yet, and the process
    that has waited longest to read becomes READY at the end of the ready queue,
    the other readers keeping their places; when there is no memory for the
    line it is dropped and nothing else changes. *)
Theorem received_line_kept `{MachineOk} (i : Z) (ts : list tty_state_t) (t : tty_state_t)
    (st : store) (sc : sched_t) (evs : list hw_event) (line : list Z) (Rd R Wt S : list addr) :
  0 <= i < zlen ts -> zlen ts = NUM_TERMINALS -> zget ts i = Some t ->
  fifo_repr st (r_queue t) Rd -> Forall line_ok (rx_lines t) ->
  sched_inv (st, sc) R Wt S -> (forall a, a ∈ Rd -> a ∉ R ++ Wt ++ S /\ idle_proc sc <> Some a) ->
  exists st' sc' t',
    tty_receive_done i line (((st, sc), evs), ts) = Some (tt, (((st', sc'), evs), tty_tab i ts t')) /\
    ((t' = t /\ sc' = sc /\ same_blocks st st') \/
     (unread (rx_lines t') = unread (rx_lines t) ++ [line] /\ Forall line_ok (rx_lines t') /\
      tx_owner t' = tx_owner t /\ w_queue t' = w_queue t /\
      match Rd with
      | [] => sched_inv (st', sc') R Wt S /\ sc' = sc
      | r :: Rd' => sched_inv (st', sc') (R ++ [r]) Wt S /\ fifo_repr st' (r_queue t') Rd' /\
          p_state <$> st_pcbs st' !! r = Some READY
      end)).
Proof.
  intros Hi Hnum Hg Hq Hok Hinv Hap.
  pose proof (tty_receive_ok i ts Hi st sc evs t line Rd R Wt S Hnum Hq Hok Hinv Hap) as Hwp.
  rewrite (tty_tab_same i ts Hi t Hg) in Hwp.
  apply wp_run in Hwp as ([] & s' & Hrun & st' & sc' & t' & -> & Hres). by exists st', sc', t'.
Qed.

(** Reading takes bytes of the first line only: as many as were asked for
    or are left of it, in order.  A line that is read to its end is dropped,
    otherwise what is left of it stays first, and the other lines stay as they
    are; without a line nothing is read. *)
Theorem consume_first_line (lines : list rx_line_t) (len : Z) :
  Forall line_ok lines -> 0 < len ->
  exists bytes lines', consume lines len = Some (bytes, lines') /\ Forall line_ok lines' /\
    match unread lines with
    | [] => bytes = [] /\ lines' = []
    | l :: ls => bytes = take (Z.to_nat len) l /\
        unread lines' = if zlen l <=? len then ls else drop (Z.to_nat len) l :: ls
    end.
Proof. intros Hok Hlen. by apply consume_ok. Qed.

Definition two_lines : list rx_line_t :=
  [{| rx_buf := [97; 98; 99; 10]; rx_len := 4; rx_off := 1 |}; {| rx_buf := [100; 10]; rx_len := 2; rx_off := 0 |}].
Lemma two_lines_ok : Forall line_ok two_lines.
Proof. repeat constructor; simpl; done. Defined.
Lemma consume_first_line_witness :
  exists lines', consume two_lines 2 = Some ([98; 99], lines') /\ unread lines' = [[10]; [100; 10]].
Proof.
  destruct (consume_first_line two_lines 2 two_lines_ok ltac:(done)) as (bytes & lines' & Hrun & _ & -> & Hun).
  exists lines'. split; [exact Hrun|exact Hun].
Defined.

(** On the first of two terminals, 9 transmits six bytes, of which four are on
    their way, 10 waits to write two; on it 11 waits to read. *)
Definition writing (bytes : list Z) (b : pcb) : pcb :=
  set_p_io_sent 0 (set_p_io_total (zlen bytes) (set_p_io_kbuf (Some bytes) b)).
Definition demo_tty_procs : store :=
  set_pcbs (<[9%positive := writing [65; 66; 67; 68; 69; 70] (demo_pcb WAITING 0 [])]>
    (<[10%positive := writing [80; 81] (demo_pcb WAITING 0 [])]>
    (<[11%positive := demo_pcb WAITING 0 []]> (st_pcbs demo_procs)))) demo_procs.
Definition demo_tty : tty_state_t :=
  {| tx_owner := Some 9%positive; transmitting := true; tx_last_chunk := 4;
     w_queue := {| q_first := Some 10%positive; q_last := Some 10%positive |};
     rx_lines := []; r_queue := {| q_first := Some 11%positive; q_last := Some 11%positive |} |}.
Definition demo_ttys : list tty_state_t := [demo_tty; tty_zero].

Lemma one_repr st a : p_next <$> st_pcbs st !! a = Some None ->
  fifo_repr st {| q_first := Some a; q_last := Some a |} [a].
Proof.
  intros Ha. split; try done; [apply NoDup_singleton|]. intros [|k] x Hx; simplify_eq/=.
  apply fmap_Some in Ha as (b & -> & Hb). by exists b.
Defined.
Lemma demo_tty_sched_inv :
  sched_inv (demo_tty_procs, demo_sched) [2%positive; 3%positive] [4%positive] [5%positive; 6%positive].
Proof.
  eapply sched_inv_keeps; [exact demo_sched_inv|]. intros a b Ha Hb. exists b. split; [|done].
  simpl in Ha. repeat (apply elem_of_cons in Ha as [->|Ha]; [exact Hb|]). by apply not_elem_of_nil in Ha.
Defined.
Lemma demo_sending : @sending demo_machine demo_tty_procs demo_tty 9 [65; 66; 67; 68; 69; 70] 0 [10%positive].
Proof.
  split; try done.
  - by eexists.
  - by apply one_repr.
  - intros w ->%list_elem_of_singleton. exists [80; 81]. split; [by eexists|done].
Defined.

Lemma line_transmitted_whole_witness :
  let _ := demo_machine in
  exists st' sc' evs' t', completions 0 2
      (((demo_tty_procs, demo_sched), [TtyTransmit 0 [65; 66; 67; 68]]), demo_ttys) =
      Some (tt, (((st', sc'), evs'), tty_tab 0 demo_ttys t')) /\ tx_owner t' = Some 10%positive /\
    transmitted 0 evs' = [65; 66; 67; 68; 69; 70; 80; 81].
Proof.
  pose proof demo_machine_ok.
  destruct (line_transmitted_whole (H := demo_machine) 0 demo_ttys demo_tty demo_tty_procs demo_sched
    [TtyTransmit 0 [65; 66; 67; 68]] 9 [65; 66; 67; 68; 69; 70] [] 0 2
    [10%positive] [2%positive; 3%positive] [4%positive] [5%positive; 6%positive]
    ltac:(by split) eq_refl eq_refl demo_sending demo_tty_sched_inv ltac:(by apply (bool_decide_unpack _)))
    as (st' & sc' & evs1 & evs' & t' & Hrun & _ & _ & Htr & Hh & _).
  - intros w ->%list_elem_of_singleton. by apply (bool_decide_unpack _).
  - done.
  - reflexivity.
  - by split.
  - exists st', sc', evs', t'. split; [exact Hrun|]. destruct Hh as (bs & Hs & ->).
    split; [apply Hs|]. destruct (se_writer _ _ _ _ _ _ Hs) as (b & Hb & Hbuf & _).
    pose proof (f_equal (fun o => o ≫= fun x => st_pcbs x.2.1.1.1 !! 10%positive) Hrun) as E.
    simpl in E. rewrite Hb in E. vm_compute in E. injection E as <-. vm_compute in Hbuf.
    injection Hbuf as <-. simpl. rewrite Htr. reflexivity.
Defined.

Lemma received_line_kept_witness :
  let _ := demo_machine in
  exists st' sc' t', tty_receive_done 0 [104; 105; 10] (((demo_tty_procs, demo_sched), []), demo_ttys) =
      Some (tt, (((st', sc'), []), tty_tab 0 demo_ttys t')) /\
    ((t' = demo_tty /\ sc' = demo_sched) \/
     (unread (rx_lines t') = [[104; 105; 10]] /\
      sched_inv (st', sc') [2%positive; 3%positive; 11%positive] [4%positive] [5%positive; 6%positive])).
Proof.
  pose proof demo_machine_ok.
  destruct (received_line_kept (H := demo_machine) 0 demo_ttys demo_tty demo_tty_procs demo_sched []
    [104; 105; 10] [11%positive] [2%positive; 3%positive] [4%positive] [5%positive; 6%positive] ltac:(by split) eq_refl eq_refl)
    as (st' & sc' & t' & Hrun & Hres); [by apply one_repr|by apply Forall_nil|exact demo_tty_sched_inv| |].
  - intros a ->%list_elem_of_singleton. split; [by apply (bool_decide_unpack _)|done].
  - exists st', sc', t'. split; [exact Hrun|].
    destruct Hres as [(-> & -> & _)|(Hun & _ & _ & _ & Hinv & _)]; [by left|right].
    split; [exact Hun|exact Hinv].
Defined.
