(* ===== verification/Kernel.v ===== *)
(** * The state of the kernel and switching between processes

    [kstate] joins the state of the components; each component's functions run
    on their part of it through a lens.  A handler of a trap that gives the
    processor to another process does not come back: [FullContextSwitch] saves
    what is left to do in the process control block of the process that stops
    (a [kcontext]) and gives the [kcontext] of the process that goes on, which
    [Interrupt] then continues with. *)

From S2P Require Import Prelude Machine Pcb FrameTracking Paging KernelMemory UserMemory Fifo SleepHeap Scheduler PipeBuffer PipeTable Locks Terminals.

(** ** The state *)
Record kstate := {
  k_mem : mstate;
  k_sched : sched_t;
  k_sync : sync_t;
  k_pipes : pipes_t;
  k_ttys : list tty_state_t
}.
Definition set_k_mem v (s : kstate) : kstate :=
  {| k_mem := v; k_sched := k_sched s; k_sync := k_sync s; k_pipes := k_pipes s; k_ttys := k_ttys s |}.
Definition set_k_store (v : store) (s : kstate) : kstate := set_k_mem (set_m_store v (k_mem s)) s.

#[export] Instance k_mem_lens : Lens mstate kstate := {| lget := k_mem; lset := set_k_mem |}.
#[export] Instance k_store_lens : Lens store kstate :=
  {| lget := fun s => m_store (k_mem s); lset := set_k_store |}.
#[export] Instance k_sched_lens : Lens sched_st kstate := {|
  lget := fun s => (m_store (k_mem s), k_sched s);
  lset := fun x s => {| k_mem := set_m_store x.1 (k_mem s); k_sched := x.2; k_sync := k_sync s;
                        k_pipes := k_pipes s; k_ttys := k_ttys s |} |}.
#[export] Instance k_sync_lens : Lens sync_st kstate := {|
  lget := fun s => ((m_store (k_mem s), k_sched s), k_sync s);
  lset := fun x s => {| k_mem := set_m_store x.1.1 (k_mem s); k_sched := x.1.2; k_sync := x.2;
                        k_pipes := k_pipes s; k_ttys := k_ttys s |} |}.
#[export] Instance k_pipes_lens : Lens pipe_st kstate := {|
  lget := fun s => ((m_store (k_mem s), k_sched s), k_pipes s);
  lset := fun x s => {| k_mem := set_m_store x.1.1 (k_mem s); k_sched := x.1.2; k_sync := k_sync s;
                        k_pipes := x.2; k_ttys := k_ttys s |} |}.
#[export] Instance k_ttys_lens : Lens tty_st kstate := {|
  lget := fun s => (((m_store (k_mem s), k_sched s), m_events (k_mem s)), k_ttys s);
  lset := fun x s => {| k_mem := set_m_events x.1.2 (set_m_store x.1.1.1 (k_mem s));
                        k_sched := x.1.1.2; k_sync := k_sync s; k_pipes := k_pipes s;
                        k_ttys := x.2 |} |}.

(** Each is a lens. *)
#[export] Instance k_mem_lens_ok : LensOk mstate kstate.
Proof. split; try done. by intros []. Qed.
#[export] Instance k_store_lens_ok : LensOk store kstate.
Proof. split; try done. by intros [[] ? ? ? ?]. Qed.
#[export] Instance k_sched_lens_ok : LensOk sched_st kstate.
Proof. split; try done; [by intros []|by intros [[] ? ? ? ?]]. Qed.
#[export] Instance k_sync_lens_ok : LensOk sync_st kstate.
Proof. split; try done; [by intros [[]]|by intros [[] ? ? ? ?]]. Qed.
#[export] Instance k_pipes_lens_ok : LensOk pipe_st kstate.
Proof. split; try done; [by intros [[]]|by intros [[] ? ? ? ?]]. Qed.
#[export] Instance k_ttys_lens_ok : LensOk tty_st kstate.
Proof. split; try done; [by intros [[[]]]|by intros [[] ? ? ? ?]]. Qed.

(** ** User contexts in process control blocks

    A handler is given [uc], a pointer to the user context in the block of the
    process that trapped: here the address of that block. *)
Definition get_uc (uc : addr) : M kstate UserContext := b ← zoom (load uc); mret (p_uc b).
Definition set_reg0 (uc : addr) (v : Z) : M kstate unit :=
  zoom (update uc (fun b => set_p_uc (uc_set_reg0 v (p_uc b)) b)).
(** A register as a C [int]. *)
Definition reg0_int (u : UserContext) : Z := to_i32 (uc_reg0 u).
Definition reg1_int (u : UserContext) : Z := to_i32 (uc_reg1 u).
Definition reg2_int (u : UserContext) : Z := to_i32 (uc_reg2 u).

(** [get_running_proc()], dereferenced by the caller. *)
Definition running : M kstate addr := p ← zoom get_running_proc; lift_opt p.

(** ** How a handler ends *)
Inductive flow :=
| Returned                       (* the handler returned to the trap's entry *)
| Started (uc : UserContext)     (* [KernelStart] returned with this user context *)
| Switched (k : kcontext)        (* another process goes on, with [k] *)
| Halted.                        (* [Halt()] *)

Section switching.
Context `{Machine}.

(** [KernelContextSwitch(KCSwitch, curr, next)] calls [KCSwitch] with the
    current context [kc] and goes on with the one it gives back; it fails only
    if that is NULL, which [KCSwitch] never returns. *)
Definition FullContextSwitch (kc : kcontext) (curr_proc : option addr) (next_proc : addr)
    : M kstate kcontext :=
  zoom (UCSwitch next_proc);;
  zoom (set_running_proc next_proc);;
  zoom (KCSwitch kc curr_proc next_proc).

(** [next = get_next_process(); FullContextSwitch(curr, next);], with [kc] left
    to do for [curr]. *)
Definition switch_away (kc : kcontext) (curr : option addr) : M kstate flow :=
  next ← zoom get_next_process;
  k ← FullContextSwitch kc curr next;
  mret (Switched k).

Definition halt : M kstate flow := zoom (emit Halt);; mret Halted.
End switching.
