(* ===== verification/DemoKernel.v ===== *)
(** * A concrete kernel

    The state the witnesses of the theorems about whole system calls compute
    on: the idle process at 1, the first user process at 2, which runs, and its
    child at 3, which is ready; one lock, one condition variable, one pipe and
    two terminals, all unused; 24 frames, of which the last eight are free. *)

From S2P Require Import Prelude Machine Tables Pcb FrameTracking Paging KernelMemory UserMemory Fifo SleepHeap Scheduler PipeBuffer PipeTable Locks Terminals Kernel.

Definition demo_frames : frames_t :=
  {| frame_bitset := [255; 255; 0]; after_bitset := 0; next_free := 16; NUM_FRAMES := 24 |}.

Definition demo_stack (f g : Z) : list pte := [mapped_pte f 3; mapped_pte g 3].
Definition demo_image (text data stack : Z) : mem_ctx_t :=
  {| region1_pt := Some ([mapped_pte text 5; mapped_pte data 3] ++ replicate 13 pte_zero ++ [mapped_pte stack 3]);
     curr_brk_page := 18; orig_brk_page := 18; txt_start_page := 16; data_start_page := 17 |}.
Definition demo_no_image : mem_ctx_t :=
  {| region1_pt := Some (replicate 16 pte_zero); curr_brk_page := 16; orig_brk_page := 16;
     txt_start_page := 16; data_start_page := 16 |}.

(** A process with a number, a state, children, a stack and an image; its user
    context has the stack pointer 496 and the registers given. *)
Definition demo_uc (r0 r1 r2 : Z) : UserContext :=
  {| uc_code := 0; uc_addr := 0; uc_pc := 256; uc_sp := 496; uc_reg0 := r0; uc_reg1 := r1; uc_reg2 := r2 |}.
Definition demo_proc (pid : Z) (st : process_state) (kids : list addr) (ks : list pte) (c : mem_ctx_t)
    (u : UserContext) : pcb :=
  set_p_kc KC_return (set_p_uc u (set_p_mem_ctx c (set_p_ks_pt (Some ks) (set_p_pid pid (demo_pcb st 0 kids))))).
Definition demo_uc_proc (u : UserContext) : pcb :=
  demo_proc 1 RUNNING [3%positive] (demo_stack 8 9) (demo_image 5 6 7) u.

(** [u] is the user context of the running process. *)
Definition demo_kstore (u : UserContext) : store := {|
  st_pcbs := {[ 1%positive := demo_proc 0 READY [] (demo_stack 4 15) demo_no_image uc_zero;
                2%positive := demo_uc_proc u;
                3%positive := demo_proc 2 READY [] (demo_stack 10 11) (demo_image 12 13 14) (demo_uc 0 0 0) ]};
  st_next := 4; st_malloc := []; st_pid_calls := [NewPid 2; NewPid 1; NewPid 0] |}.
Definition demo_kmem (u : UserContext) : mstate := {|
  m_store := demo_kstore u; m_frames := demo_frames; m_vm_enabled := true;
  m_region0_pt := [mapped_pte 0 5; mapped_pte 1 5; mapped_pte 2 3; mapped_pte 3 3] ++
                  replicate 10 pte_zero ++ demo_stack 8 9;
  m_current_brk_page := 4; m_mem_ctx := Some 2%positive; m_pmem := fun f o => f * 100 + o;
  m_events := [] |}.
Definition demo_ksched : sched_t := {|
  sleepers := {| h_arr := replicate 20 None; h_length := 0; h_current_size := HEAP_INIT_SIZE |};
  num_ticks := 5; running_proc := Some 2%positive; idle_proc := Some 1%positive;
  main_queue := {| qu_ends := {| q_first := Some 3%positive; q_last := Some 3%positive |}; qu_length := 1 |};
  wait_queue := queue_empty; io_queue := queue_empty |}.
Definition demo_lock : lock_t :=
  {| lk_capacity := 1; lk_val := 1; lk_in_use := true; lk_queue := fifo_empty; lk_pids := Some [0];
     lk_needed_by := 0 |}.
Definition demo_ksync : sync_t := {|
  locks := [demo_lock; lock_zero]; cvars := [{| cv_queue := fifo_empty; cv_in_use := true |}; cvar_zero];
  open_lock_idx := 1; open_cvar_idx := 1; cvar_arr_size := 2; lock_arr_size := 2 |}.
Definition demo_kpipes : pipes_t := {|
  pipes := [@fresh_pipe demo_machine; pipe_zero]; pipes_size := 2; open_pipe_idx := 1 |}.
Definition demo_kernel_state (u : UserContext) : kstate := {|
  k_mem := demo_kmem u; k_sched := demo_ksched; k_sync := demo_ksync; k_pipes := demo_kpipes;
  k_ttys := [tty_zero; tty_zero] |}.

Lemma demo_kernel_frames_wf : frames_wf demo_frames.
Proof.
  split; simpl; [repeat constructor; lia|vm_compute; done|lia|].
  intros n Hn.
  assert (In n [0; 1; 2; 3; 4; 5; 6; 7; 8; 9; 10; 11; 12; 13; 14; 15]) as Hin by (simpl; lia).
  simpl in Hin. repeat destruct Hin as [<-|Hin]; done.
Defined.
Lemma demo_kernel_user_ok (u : UserContext) :
  @user_ok demo_machine (demo_kmem u) (demo_image 5 6 7) ([mapped_pte 5 5; mapped_pte 6 3] ++ replicate 13 pte_zero ++ [mapped_pte 7 3]).
Proof.
  split; [done|done|]. apply (table_check_ok (T := @region1_table demo_machine));
    [exact demo_kernel_frames_wf|done|]. vm_compute. done.
Defined.
Lemma demo_kernel_kernel_ok (u : UserContext) : @kernel_ok demo_machine (demo_kmem u).
Proof.
  split; [done| |by vm_compute|by vm_compute| |].
  - apply (table_check_ok (T := @region0_table demo_machine));
      [exact demo_kernel_frames_wf|done|]. by vm_compute.
  - intros vpn Hv. change (4 <= vpn < 14) in Hv.
    assert (In vpn [4; 5; 6; 7; 8; 9; 10; 11; 12; 13]) as Hin by (simpl; lia).
    simpl in Hin. repeat destruct Hin as [<-|Hin]; done.
  - intros vpn Hv. change (14 <= vpn < 16) in Hv. assert (vpn = 14 \/ vpn = 15) as [-> | ->] by lia;
      do 2 eexists; (split; [reflexivity|]); by vm_compute.
Defined.
Lemma demo_kernel_sched (u : UserContext) : sched_inv (demo_kstore u, demo_ksched) [3%positive] [] [].
Proof.
  split; simpl.
  - split; [|done]. split; try done; [by apply (bool_decide_unpack _)|].
    intros [|i] a Hi; simplify_eq/=; eexists; split; reflexivity.
  - split; [apply fifo_repr_empty|done].
  - split; simpl; try done; [by exists (replicate 20 None)|]. by intros a ?%not_elem_of_nil.
  - intros i Hi. simpl in Hi. lia.
  - by apply (bool_decide_unpack _).
  - intros p [= <-]. by apply (bool_decide_unpack _).
Defined.
