(* ===== verification/Switching.v ===== *)
(** * Context switches

    What [FullContextSwitch] and the hand-over of the processor that follows a
    blocking call leave behind: the running process, the memory context the
    hardware uses, the kernel stack, and the saved kernel context. *)

From S2P Require Import Prelude Machine Pcb FrameTracking Paging KernelMemory UserMemory Fifo SleepHeap Scheduler PipeBuffer PipeTable Locks Terminals Kernel DemoKernel.

(** ** Definitions *)

(** The heap of the kernel. *)
Definition k_store (s : kstate) : store := m_store (k_mem s).

Lemma alter_Some {A} (f : A -> A) (m : gmap addr A) i x :
  m !! i = Some x -> alter f i m = <[i := f x]> m.
Proof.
  intros Hx. apply map_eq. intros j. destruct (decide (i = j)) as [->|].
  - by rewrite lookup_alter_eq, lookup_insert_eq, Hx.
  - by rewrite lookup_alter_ne, lookup_insert_ne.
Qed.

Section switching.
Context `{MachineOk}.

(** The process at [a] has a kernel stack, and goes on with [kc]. *)
Definition switchable (st : store) (kc : kcontext) (a : addr) : Prop :=
  exists b ks, st_pcbs st !! a = Some b /\ p_ks_pt b = Some ks /\ zlen ks = K_STACK_VPNS /\ p_kc b = kc.

(** [s] after the switch: [t] is the page table of region 0, and [curr] has
    [kc] left to do. *)
Definition switched (kc : kcontext) (curr : option addr) (next : addr) (t : list pte) (s : kstate)
    : kstate :=
  let m := k_mem s in
  {| k_mem := {|
       m_store := match curr with
         | Some c => set_pcbs (alter (set_p_kc kc) c (st_pcbs (m_store m))) (m_store m)
         | None => m_store m
         end;
       m_frames := m_frames m; m_vm_enabled := m_vm_enabled m; m_region0_pt := t;
       m_current_brk_page := m_current_brk_page m; m_mem_ctx := Some next; m_pmem := m_pmem m;
       m_events := TLBFlushKStack :: TLBFlushRegion1 :: WritePTLR1 REGION1_VPNS :: WritePTBR1 next ::
                   m_events m |};
     k_sched := set_running (Some next) (k_sched s); k_sync := k_sync s; k_pipes := k_pipes s;
     k_ttys := k_ttys s |}.

(** ** Specifications *)
Lemma stack_blit (t ks : list pte) :
  zlen t = REGION0_VPNS -> zlen ks = K_STACK_VPNS ->
  exists t', zblit t K_STACK_BASE_VPN ks = Some t' /\ zlen t' = REGION0_VPNS /\
    zslice t' K_STACK_BASE_VPN K_STACK_VPNS = Some ks /\
    forall i, i < K_STACK_BASE_VPN \/ K_STACK_LIMIT_VPN <= i -> zget t' i = zget t i.
Proof.
  intros Ht Hks. destruct kstack_vpns_spec as (Hb & Hl & Hk).
  assert (K_STACK_VPNS = K_STACK_LIMIT_VPN - K_STACK_BASE_VPN) as Hv by done.
  unfold zblit, zslice. rewrite decide_True by lia. eexists. split; [done|].
  unfold zlen in *. split; [rewrite !length_app, length_take, length_drop; lia|]. split.
  - rewrite decide_True by (rewrite !length_app, length_take, length_drop; lia).
    rewrite drop_app_length' by (rewrite length_take; lia).
    by rewrite take_app_length' by lia.
  - intros i Hi. unfold zget. case_decide; [|done]. destruct Hi as [Hi|Hi].
    + rewrite lookup_app_l by (rewrite length_take; lia). by rewrite lookup_take_lt by lia.
    + rewrite lookup_app_r by (rewrite length_take; lia). rewrite length_take.
      rewrite lookup_app_r by lia. rewrite lookup_drop. f_equal. lia.
Qed.

Lemma FullContextSwitch_ok s kc kc' curr next :
  switchable (k_store s) kc' next -> zlen (m_region0_pt (k_mem s)) = REGION0_VPNS ->
  match curr with Some c => c <> next /\ is_Some (st_pcbs (k_store s) !! c) | None => True end ->
  wp (FullContextSwitch kc curr next) (fun r s' => r = kc' /\ exists t ks b,
    st_pcbs (k_store s) !! next = Some b /\ p_ks_pt b = Some ks /\ zlen ks = K_STACK_VPNS /\
    zblit (m_region0_pt (k_mem s)) K_STACK_BASE_VPN ks = Some t /\
    s' = switched kc curr next t s) s.
Proof.
  intros (b & ks & Hb & Hks & Hl & Hkc) Ht Hcurr. unfold k_store in *.
  destruct (stack_blit _ _ Ht Hl) as (t & Hblit & _).
  unfold FullContextSwitch. wp_step. wp_step. unfold UCSwitch, use_ctx. wp_steps.
  eapply wp_load; [exact Hb|]. wp_steps. unfold emit. wp_steps. unfold set_running_proc. wp_steps. cbn.
  unfold KCSwitch. wp_step. destruct curr as [c|].
  - destruct Hcurr as [Hne [bc Hc]]. wp_step. eapply wp_update; [exact Hc|]. wp_step. wp_step. cbn.
    eapply wp_load; [cbn; by rewrite lookup_insert_ne|]. wp_steps. cbn.
    eapply wp_lift_opt.
    { rewrite Hks. simpl. rewrite zslice_all by done. simpl. exact Hblit. }
    unfold emit. wp_steps. split; [done|]. exists t, ks, b. do 4 (split; [done|]).
    unfold switched. destruct s as [[] ? ? ? ?]. cbn in *. unfold set_pcbs. cbn.
    by rewrite (alter_Some _ _ _ _ Hc).
  - wp_step. wp_step. wp_step. eapply wp_load; [exact Hb|]. wp_steps. cbn. eapply wp_lift_opt.
    { rewrite Hks. simpl. rewrite zslice_all by done. simpl. exact Hblit. }
    unfold emit. wp_steps. split; [done|]. exists t, ks, b. do 4 (split; [done|]).
    unfold switched. by destruct s as [[] ? ? ? ?].
Qed.

(** The process that runs when [R] is ready. *)
Definition next_of (idle : addr) (R : list addr) : addr := match R with [] => idle | r :: _ => r end.

(** The block of [next] is the old one up to its state and its link, that of
    [p] up to the saved context, and every other one the old one. *)
Definition handed_to (kc : kcontext) (p idle : addr) (R : list addr) (st st' : store) : Prop :=
  st_pcbs st' !! p = set_p_kc kc <$> st_pcbs st !! p /\
  (forall a, a <> p -> a <> next_of idle R -> st_pcbs st' !! a = st_pcbs st !! a) /\
  match R with
  | [] => st_pcbs st' !! idle = st_pcbs st !! idle
  | r :: _ => exists n, st_pcbs st' !! r = (fun b => set_p_state RUNNING (set_p_next n b)) <$> st_pcbs st !! r
  end.

(** A block after the switch, up to state, link and saved context. *)
Lemma handed_to_field {A} (f : pcb -> A) {idle} kc p R st st' a :
  handed_to kc p idle R st st' -> p <> next_of idle R ->
  (forall b k, f (set_p_kc k b) = f b) -> (forall b n, f (set_p_state RUNNING (set_p_next n b)) = f b) ->
  f <$> st_pcbs st' !! a = f <$> st_pcbs st !! a.
Proof.
  intros (Hp & Ho & Hn) Hne Hkc Hst. destruct (decide (a = p)) as [->|Hap].
  - rewrite Hp. destruct (st_pcbs st !! p); simpl; [|done]. by rewrite Hkc.
  - destruct (decide (a = next_of idle R)) as [->|]; [|by rewrite Ho].
    destruct R as [|r R]; simpl in *; [by rewrite Hn|]. destruct Hn as [n ->].
    destruct (st_pcbs st !! r); simpl; [|done]. by rewrite Hst.
Qed.

(** The hardware works for [next] now. *)
Record taken_over (next : addr) (m m' : mstate) : Prop := {
  to_ctx : m_mem_ctx m' = Some next;
  to_stack : exists b, st_pcbs (m_store m') !! next = Some b /\
    zslice (m_region0_pt m') K_STACK_BASE_VPN K_STACK_VPNS = p_ks_pt b;
  to_rest : forall i, i < K_STACK_BASE_VPN \/ K_STACK_LIMIT_VPN <= i ->
    zget (m_region0_pt m') i = zget (m_region0_pt m) i;
  to_length : zlen (m_region0_pt m') = zlen (m_region0_pt m);
  to_flushed : m_events m' = TLBFlushKStack :: TLBFlushRegion1 :: WritePTLR1 REGION1_VPNS ::
    WritePTBR1 next :: m_events m;
  to_same : m_frames m' = m_frames m /\ m_pmem m' = m_pmem m /\ m_vm_enabled m' = m_vm_enabled m /\
    m_current_brk_page m' = m_current_brk_page m
}.

(** What [switch_away] does to the kernel. *)
Record switch_done (kc : kcontext) (p idle : addr) (R Wt S : list addr) (s s' : kstate) : Prop := {
  sd_running : running_proc (k_sched s') = Some (next_of idle R);
  sd_idle : idle_proc (k_sched s') = Some idle;
  sd_ticks : num_ticks (k_sched s') = num_ticks (k_sched s);
  sd_sched : sched_inv (k_store s', k_sched s') (tail R) Wt S;
  sd_blocks : handed_to kc p idle R (k_store s) (k_store s');
  sd_machine : taken_over (next_of idle R) (k_mem s) (k_mem s');
  sd_rest : k_sync s' = k_sync s /\ k_pipes s' = k_pipes s /\ k_ttys s' = k_ttys s
}.

(** From the choice of the next process on, when that is not the one that
    stops. *)
Lemma next_and_switch_ok kc kc' p idle R Wt S s :
  sched_inv (k_store s, k_sched s) R Wt S -> idle_proc (k_sched s) = Some idle ->
  p <> next_of idle R -> is_Some (st_pcbs (k_store s) !! p) ->
  switchable (k_store s) kc' (next_of idle R) -> zlen (m_region0_pt (k_mem s)) = REGION0_VPNS ->
  wp (zoom get_next_process) (fun next s1 => next = next_of idle R /\
    wp (FullContextSwitch kc (Some p) next) (fun r s' => r = kc' /\ switch_done kc p idle R Wt S s s') s1) s.
Proof.
  intros Hinv Hidle Hp Hlive (b & ks & Hb & Hks & Hlk & Hkc) Ht.
  wp_step. change (lget s) with (k_store s, k_sched s).
  eapply wp_mono; [by apply (get_next_process_ok _ _ R Wt S idle)|].
  intros next s1 Hs1. cbv beta.
  set (s2 := lset s1 s).
  assert (next = next_of idle R /\ sched_inv (k_store s2, k_sched s2) (tail R) Wt S /\
    idle_proc (k_sched s2) = Some idle /\ num_ticks (k_sched s2) = num_ticks (k_sched s) /\
    k_store s2 = k_store s2 /\ switchable (k_store s2) kc' next /\
    (forall a, a <> next -> st_pcbs (k_store s2) !! a = st_pcbs (k_store s) !! a) /\
    match R with
    | [] => st_pcbs (k_store s2) !! idle = st_pcbs (k_store s) !! idle
    | r :: _ => exists n, st_pcbs (k_store s2) !! r =
        (fun b => set_p_state RUNNING (set_p_next n b)) <$> st_pcbs (k_store s) !! r
    end) as (-> & Hinv2 & Hidle2 & Hticks2 & _ & Hsw & Hout & Hnext).
  { destruct R as [|r R]; simpl in *.
    - destruct Hs1 as [-> ->]. unfold s2. destruct s as [[] ? ? ? ?]. cbn in *.
      do 5 (split; [done|]). split; [by exists b, ks|done].
    - destruct Hs1 as (-> & Hinv' & b' & n & q' & Hb' & E2 & E1). destruct s1 as [st1 sc1].
      simpl in *. subst sc1 st1. assert (b' = b) as -> by congruence.
      unfold s2, k_store in *. simpl in *. do 5 (split; [done|]). split; [|split].
      + eexists _, ks. split; [apply lookup_insert_eq|]. by destruct b.
      + intros a Ha. by apply lookup_insert_ne.
      + exists n. rewrite Hb. apply lookup_insert_eq. }
  assert (m_region0_pt (k_mem s2) = m_region0_pt (k_mem s)) as Et by done.
  split; [done|].
  eapply wp_mono; [eapply FullContextSwitch_ok; [exact Hsw|done|]|].
  { split; [done|]. by rewrite Hout. }
  intros r s' (-> & t & ks2 & b2 & Hb2 & Hks2 & Hlk2 & Hblit & ->). split; [done|].
  destruct Hlive as [bp Hbp].
  destruct (stack_blit _ _ Ht Hlk2) as (t' & Hblit' & Hlt & Hslice & Hrest).
  rewrite Et in Hblit. assert (t' = t) as -> by congruence.
  assert (forall a, a <> p -> st_pcbs (k_store (switched kc (Some p) (next_of idle R) t s2)) !! a =
    st_pcbs (k_store s2) !! a) as Hsame by (intros; cbn; by rewrite lookup_alter_ne).
  split; try done.
  - simpl. apply sched_inv_set_running. eapply sched_inv_keeps; [exact Hinv2|].
    cbn. change (m_store (k_mem s2)) with (k_store s2).
    assert (st_pcbs (k_store s2) !! p = Some bp) as Hbp2 by (by rewrite Hout).
    rewrite (alter_Some _ _ _ _ Hbp2). by apply (keeps_update _ p bp (set_p_kc kc)).
  - split; [|split].
    + cbn. rewrite lookup_alter_eq. f_equal. by apply Hout.
    + intros a ? ?. by rewrite Hsame, Hout.
    + destruct R; simpl in *; [by rewrite Hsame|]. destruct Hnext as [n Hn]. exists n. by rewrite Hsame.
  - split; try done; cbn.
    + exists b2. rewrite Hslice, Hks2, lookup_alter_ne by done. done.
    + by rewrite Hlt.
Qed.

Lemma switch_away_ok kc kc' p idle R Wt S s :
  sched_inv (k_store s, k_sched s) R Wt S -> idle_proc (k_sched s) = Some idle ->
  p <> next_of idle R -> is_Some (st_pcbs (k_store s) !! p) ->
  switchable (k_store s) kc' (next_of idle R) -> zlen (m_region0_pt (k_mem s)) = REGION0_VPNS ->
  wp (switch_away kc (Some p)) (fun f s' => f = Switched kc' /\ switch_done kc p idle R Wt S s s') s.
Proof.
  intros. unfold switch_away. wp_step. eapply wp_mono; [by eapply (next_and_switch_ok kc)|].
  intros next s1 [-> Hsw]. wp_step. eapply wp_mono; [exact Hsw|].
  intros r s' [-> Hd]. by wp_step.
Qed.
End switching.

(** ** Properties *)


