(* ===== verification/MonitorWorld.v ===== *)
(** * One lock and one condition variable among all the processes

    Every process is in exactly one place: it runs, is ready, sleeps, waits for
    the lock or waits on the condition variable.  Here: how the world of
    [CondVars] changes when only the processes outside its two queues move, the
    specification of [acquire] in it, and the state of the kernel it is part
    of. *)

From S2P Require Import Prelude Machine Tables Pcb FrameTracking Paging KernelMemory UserMemory Fifo SleepHeap Scheduler PipeBuffer PipeTable Locks Frame CondVars Terminals Kernel DemoKernel Switching.

(** ** Moving the other processes *)
Lemma cvar_world_move ci li C H W R Wt S R' Wt' S' st st' sc sc' sy :
  cvar_world ci li C H W R Wt S st sc sy ->
  keeps st st' (W ++ C) -> (forall a, pid_at st' a = pid_at st a) ->
  (forall c, c ∈ C -> p_cvar_lock_id <$> st_pcbs st' !! c = p_cvar_lock_id <$> st_pcbs st !! c) ->
  sched_inv (st', sc') R' Wt' S' -> idle_proc sc' = idle_proc sc ->
  (forall a, a ∈ W ++ C -> a ∉ R' ++ Wt' ++ S') ->
  cvar_world ci li C H W R' Wt' S' st' sc' sy.
Proof.
  intros [Hsz (cv & Hg & Huse & Hq) (lk & Hlk & Hr) Hinv Hgo Hnd Hap] Hk Hpid Hcl Hinv' Hidle Hap'.
  split; try done.
  - exists cv. split; [done|]. split; [done|]. eapply fifo_repr_keeps; [done|].
    eapply keeps_mono; [done|set_solver].
  - exists lk. split; [done|]. eapply lock_repr_keeps; [done| |done].
    eapply keeps_mono; [done|set_solver].
  - intros c Hc. destruct (Hgo c Hc) as (b & Hb & ? & ?).
    destruct (Hk c b) as (b' & Hb' & _ & _); [apply elem_of_app; by right|done|]. exists b'. split; [done|].
    specialize (Hcl c Hc). specialize (Hpid c). unfold pid_at in Hpid.
    rewrite Hb, Hb' in Hcl, Hpid. simpl in *. injection Hcl as ->. injection Hpid as ->. done.
  - by rewrite (pids_same st st').
  - intros a Ha. rewrite Hidle. split; [by apply Hap'|by apply Hap].
Qed.

Section world.
Context (ci li : Z) (C : list addr) (H : list Z) (W R Wt S : list addr).

(** [acquire] by a process that is in no queue. *)
Lemma acquire_world st sc sy p b cu :
  cvar_world ci li C H W R Wt S st sc sy ->
  st_pcbs st !! p = Some b -> 0 < p_pid b -> pid_at st p ∉ pid_at st <$> W ++ C ->
  p ∉ R ++ Wt ++ S -> idle_proc sc <> Some p ->
  wp (acquire li p cu) (fun r s' => s'.1.2 = sc /\
    if decide (p_pid b ∈ H) then r = ERROR /\ s' = ((st, sc), sy)
    else if decide (0 < permits sy li)
    then r = ACQUIRED /\ W = [] /\ cvar_world ci li C (p_pid b :: H) [] R Wt S s'.1.1 sc s'.2 /\
      permits s'.2 li = permits sy li - 1
    else r = NEED /\ cvar_world ci li C H (W ++ [p]) R Wt S s'.1.1 sc s'.2 /\
      permits s'.2 li = permits sy li) ((st, sc), sy).
Proof.
  intros [Hsz (cv & Hg & Huse & Hq) (lk & Hlk & Hr) Hinv Hgo Hnd Hap] Hb Hpid HpWC Hpq Hidle.
  pose proof (zget_Some _ _ _ Hlk) as Hi. destruct Hsz as [Hsz1 Hsz2].
  assert (pid_at st p = Some (p_pid b)) as Hpc by (unfold pid_at; by rewrite Hb).
  rewrite fmap_app in HpWC.
  rewrite <- (lock_tab_same li sy Hi lk Hlk) at 1. unfold permits. rewrite Hlk.
  eapply wp_mono; [apply (acquire_ok li sy Hi st sc lk H W p b cu Hsz2 Hr Hb Hpid); set_solver|].
  intros r s'. cbv beta. destruct (decide (p_pid b ∈ H)) as [|HpH].
  { intros [-> ->]. by rewrite (lock_tab_same li sy Hi lk Hlk). }
  intros (lk' & st' & -> & [Hcap _] & Hres). split; [done|]. simpl.
  assert (forall H' W', lock_repr st' lk' H' W' -> permits (lock_tab li lk' sy) li = lk_val lk + zlen H - zlen H') as Hperm.
  { intros H' W' Hr'. unfold permits, lock_tab. simpl. rewrite zget_insert_eq by done.
    rewrite (lr_val _ _ _ _ Hr'), (lr_val _ _ _ _ Hr), Hcap. lia. }
  assert (forall a, a ∈ W -> a ∉ C) as HWC.
  { intros a Ha Ha'. apply NoDup_app in Hnd as (_ & _ & Hnd). rewrite fmap_app in Hnd.
    apply NoDup_app in Hnd as (_ & Hnd & _). apply (Hnd (pid_at st a)); by apply list_elem_of_fmap_2. }
  assert (p ∉ W ++ C) as Hp.
  { intros Hin. apply HpWC. rewrite <- fmap_app. by apply list_elem_of_fmap_2. }
  destruct (decide (0 < lk_val lk)) as [Hval|Hval].
  - destruct Hres as (-> & -> & Hr'). split; [done|].
    assert (W = []) as -> by (destruct W; [done|]; pose proof (lr_wait _ _ _ _ Hr ltac:(done)); lia).
    split; [done|]. split; [|etrans; [exact (Hperm _ _ Hr')|unfold zlen; simpl; lia]]. split; simpl; try done.
    + split; [done|]. by rewrite zlen_insert.
    + by exists cv.
    + exists lk'. split; [by apply zget_insert_eq|done].
    + apply NoDup_cons. split; [|done]. rewrite <- Hpc. simpl in HpWC.
      intros [Hin|Hin]%elem_of_app; [|done]. rewrite Hpc in Hin. set_solver.
  - destruct Hres as (-> & Hr' & Ho). split; [done|].
    assert (forall a, pid_at st' a = pid_at st a) as Hpid' by (intros; by eapply next_only_pid_at).
    split; [|etrans; [exact (Hperm _ _ Hr')|lia]]. split; simpl; try done.
    + split; [done|]. by rewrite zlen_insert.
    + exists cv. split; [done|]. split; [done|]. eapply fifo_repr_frame; [done|done|].
      intros a Ha [->|Ha']%elem_of_cons; [set_solver|by apply (HWC a)].
    + exists lk'. split; [by apply zget_insert_eq|done].
    + eapply sched_inv_keeps; [done|]. eapply keeps_next_only; [done|].
      intros a Ha [->|Ha']%elem_of_cons; [done|]. destruct (Hap a); set_solver.
    + eapply keeps_goes; [exact Ho|done].
    + rewrite (pids_same st st') by done. rewrite <- (assoc_L (++)), !fmap_app. simpl.
      rewrite <- Permutation_middle, <- Permutation_middle, Hpc.
      apply NoDup_cons. split; [|by rewrite <- fmap_app].
      rewrite <- Hpc. intros [Hin|Hin]%elem_of_app; [|done]. rewrite Hpc in Hin. set_solver.
    + intros a Ha. rewrite <- (assoc_L (++)) in Ha.
      destruct (decide (a = p)) as [->|]; [done|]. apply Hap. set_solver.
Qed.
End world.

(** ** The kernel the lock and the condition variable are part of *)

(** The idle process is never queued. *)
Definition placed (idle p : addr) : list addr := if decide (p = idle) then [] else [p].

Section kernel.
Context {hw : Machine} {hw_ok : MachineOk} (ci li : Z) (P : list addr) (idle : addr).

(** The processes are [P] and the idle one.  [p] runs; those of [X] are in no
    queue; [C] wait on the condition variable and [W] for the lock, [R] are
    ready and [S] asleep.  A process that does not run has only the end of a
    trap left to do in the kernel. *)
Record kworld (p : addr) (X C : list addr) (H : list Z) (W R S : list addr) (s : kstate) : Prop := {
  kw_world : cvar_world ci li C H W R [] S (k_store s) (k_sched s) (k_sync s);
  kw_roles : running_proc (k_sched s) = Some p /\ idle_proc (k_sched s) = Some idle;
  kw_all : X ++ W ++ C ++ R ++ S ≡ₚ P;
  kw_runs : p ∈ idle :: P;
  kw_idle : idle ∉ P;
  kw_pids : NoDup (pid_at (k_store s) <$> P);
  kw_positive : forall a n, a ∈ P -> pid_at (k_store s) a = Some n -> 0 < n;
  kw_stacks : forall a, a ∈ idle :: P -> exists kc, switchable (k_store s) kc a /\ (a <> p -> kc = KC_return);
  kw_region0 : zlen (m_region0_pt (k_mem s)) = REGION0_VPNS
}.

(** A state of the monitor: [p] runs and nobody is out of place. *)
Definition monitor (p : addr) (C : list addr) (H : list Z) (W R S : list addr) (s : kstate) : Prop :=
  kworld p (placed idle p) C H W R S s.

Lemma kw_nodup p X C H W R S s : kworld p X C H W R S s -> NoDup P.
Proof. intros Hk. eapply NoDup_fmap_1. apply Hk. Qed.

Lemma kw_block p X C H W R S s : kworld p X C H W R S s -> exists b, st_pcbs (k_store s) !! p = Some b.
Proof.
  intros Hk. destruct (kw_stacks _ _ _ _ _ _ _ _ Hk p (kw_runs _ _ _ _ _ _ _ _ Hk)) as (kc & (b & ks & Hb & _) & _).
  by exists b.
Qed.

(** The processes of [X] are in no queue. *)
Lemma kw_out p X C H W R S s a :
  kworld p X C H W R S s -> a ∈ X -> a ∉ W ++ C ++ R ++ S /\ a <> idle.
Proof.
  intros Hk Ha. pose proof (kw_nodup _ _ _ _ _ _ _ _ Hk) as Hnd.
  pose proof (kw_all _ _ _ _ _ _ _ _ Hk) as HP. rewrite <- HP in Hnd.
  apply NoDup_app in Hnd as (_ & Hd & _). split; [by apply Hd|].
  intros ->. apply (kw_idle _ _ _ _ _ _ _ _ Hk). rewrite <- HP. set_solver.
Qed.

Lemma identity_field {A} (f : pcb -> A) st st' a :
  same_processes st st' -> (forall b, f (identity_of b) = f b) ->
  f <$> st_pcbs st' !! a = f <$> st_pcbs st !! a.
Proof.
  intros Hs Hf. specialize (Hs a).
  destruct (st_pcbs st !! a) as [b|], (st_pcbs st' !! a) as [b'|]; simpl in *; try done.
  f_equal. assert (identity_of b' = identity_of b) as E by congruence.
  by rewrite <- (Hf b'), <- (Hf b), E.
Qed.
Lemma same_processes_pid st st' a : same_processes st st' -> pid_at st' a = pid_at st a.
Proof. intros Hs. by apply (identity_field p_pid). Qed.
Lemma same_processes_switchable st st' kc a :
  same_processes st st' -> switchable st kc a -> switchable st' kc a.
Proof.
  intros Hs (b & ks & Hb & Hks & Hl & Hkc).
  pose proof (identity_field p_ks_pt _ _ a Hs (fun _ => eq_refl)) as E1.
  pose proof (identity_field p_kc _ _ a Hs (fun _ => eq_refl)) as E2.
  rewrite Hb in E1, E2. destruct (st_pcbs st' !! a) as [b'|] eqn:Hb'; [|done]. simpl in *.
  injection E1 as E1. injection E2 as E2. exists b', ks. split; [done|]. split; [congruence|].
  split; [done|congruence].
Qed.

(** An operation that preserves the processes and gives another world. *)
Lemma kworld_step p X C H W R S s X' C' H' W' R' S' s' :
  kworld p X C H W R S s ->
  same_processes (k_store s) (k_store s') -> running_proc (k_sched s') = running_proc (k_sched s) ->
  idle_proc (k_sched s') = idle_proc (k_sched s) -> m_region0_pt (k_mem s') = m_region0_pt (k_mem s) ->
  cvar_world ci li C' H' W' R' [] S' (k_store s') (k_sched s') (k_sync s') ->
  X' ++ W' ++ C' ++ R' ++ S' ≡ₚ X ++ W ++ C ++ R ++ S ->
  kworld p X' C' H' W' R' S' s'.
Proof.
  intros [Hw [Hr Hi] HP Hp Hid Hpids Hpos Hst H0] Hs Hr' Hi' Ht Hw' Hperm.
  assert (forall a, pid_at (k_store s') a = pid_at (k_store s) a) as Hpid
    by (intros; by apply same_processes_pid).
  split; try done.
  - by rewrite Hr', Hi'.
  - by rewrite Hperm.
  - by rewrite (pids_same (k_store s)).
  - intros a n Ha. rewrite Hpid. by apply Hpos.
  - intros a Ha. destruct (Hst a Ha) as (kc & Hsw & Hkc). exists kc. split; [|done].
    by eapply same_processes_switchable.
  - by rewrite Ht.
Qed.

(** Registers of a process changed, or its context saved: [f] is such a write. *)
Definition writes_uc (f : pcb -> pcb) : Prop := forall b, exists u, f b = set_p_uc u b.
Lemma kworld_uc p X C H W R S s a b f :
  kworld p X C H W R S s -> st_pcbs (k_store s) !! a = Some b -> writes_uc f ->
  kworld p X C H W R S (set_k_store (set_pcbs (<[a := f b]> (st_pcbs (k_store s))) (k_store s)) s).
Proof.
  intros [Hw Hro HP Hp Hid Hpids Hpos Hst H0] Hb Hf. destruct (Hf b) as [u ->].
  set (st' := set_pcbs _ _).
  assert (forall {A} (g : pcb -> A), (forall b, g (set_p_uc u b) = g b) ->
    forall x, g <$> st_pcbs st' !! x = g <$> st_pcbs (k_store s) !! x) as Hsame.
  { intros A g Hg x. simpl. destruct (decide (a = x)) as [->|]; [|by rewrite lookup_insert_ne].
    rewrite lookup_insert_eq, Hb. simpl. by rewrite Hg. }
  assert (forall x, pid_at st' x = pid_at (k_store s) x) as Hpid by (intros; by apply Hsame).
  assert (forall l, keeps (k_store s) st' l) as Hk by (intros l; by apply (keeps_update _ a b (set_p_uc u))).
  split; try done; simpl.
  - eapply cvar_world_move; [exact Hw|apply Hk|exact Hpid| | |done|].
    + intros c _. by apply Hsame.
    + eapply sched_inv_keeps; [apply Hw|apply Hk].
    + intros x Hx. by apply (cw_apart _ _ _ _ _ _ _ _ _ _ _ Hw).
  - change (NoDup (pid_at st' <$> P)). by rewrite (pids_same (k_store s)).
  - intros x n Hx E. apply (Hpos x n Hx). rewrite <- Hpid. exact E.
  - intros x Hx. destruct (Hst x Hx) as (kc & (bx & ks & Hbx & Hks & Hl & Hkc) & Hret).
    exists kc. split; [|done]. unfold switchable. simpl. destruct (decide (a = x)) as [->|].
    + exists (set_p_uc u bx), ks. split; [|done]. change (k_store (set_k_store st' s)) with st'.
      assert (bx = b) as -> by congruence. by rewrite lookup_insert_eq.
    + exists bx, ks. split; [|done]. change (k_store (set_k_store st' s)) with st'.
      by rewrite lookup_insert_ne.
Qed.

(** ** Giving the processor away *)

Lemma handed_to_switchable kc kc' p R st st' a :
  handed_to kc p idle R st st' -> p <> next_of idle R -> switchable st kc' a ->
  switchable st' (if decide (a = p) then kc else kc') a.
Proof.
  intros Hh Hne (b & ks & Hb & Hks & Hl & Hkc).
  pose proof (handed_to_field p_ks_pt _ _ _ _ _ a Hh Hne (fun _ _ => eq_refl) (fun _ _ => eq_refl)) as E.
  rewrite Hb in E. destruct (st_pcbs st' !! a) as [b'|] eqn:Hb'; [|done]. injection E as E.
  exists b', ks. split; [done|]. split; [congruence|]. split; [done|].
  destruct Hh as (Hp & Ho & Hn). case_decide as Hap.
  - subst a. rewrite Hb, Hb' in Hp. by injection Hp as ->.
  - destruct (decide (a = next_of idle R)) as [->|]; [|rewrite Ho in Hb' by done; congruence].
    destruct R as [|r R]; simpl in *; [congruence|]. destruct Hn as [n Hn].
    rewrite Hb, Hb' in Hn. simpl in Hn. injection Hn as ->. done.
Qed.

Lemma kworld_switched p C H W R S s s' :
  kworld p [] C H W R S s -> p <> next_of idle R ->
  switch_done KC_return p idle R [] S s s' ->
  monitor (next_of idle R) C H W (tail R) S s'.
Proof.
  intros Hk Hne [Hrun Hidle' _ Hinv' Hh Hm (Hsy & _)].
  pose proof (kw_world _ _ _ _ _ _ _ _ Hk) as Hw.
  assert (forall a, pid_at (k_store s') a = pid_at (k_store s) a) as Hpid
    by (intros a; by apply (handed_to_field p_pid _ _ _ _ _ a Hh Hne)).
  assert (idle :: P ≡ₚ idle :: W ++ C ++ R ++ S) as HP by (by rewrite <- (kw_all _ _ _ _ _ _ _ _ Hk)).
  assert (next_of idle R ∈ idle :: P) as Hnext by (rewrite HP; destruct R; simpl; set_solver).
  assert (forall a, a ∈ W ++ C -> a <> next_of idle R) as HWC.
  { intros a Ha ->. destruct (cw_apart _ _ _ _ _ _ _ _ _ _ _ Hw _ Ha) as [Ha1 Ha2].
    rewrite (proj2 (kw_roles _ _ _ _ _ _ _ _ Hk)) in Ha2.
    destruct R; simpl in *; [done|set_solver]. }
  assert (m_region0_pt (k_mem s') = m_region0_pt (k_mem s') /\
    zlen (m_region0_pt (k_mem s')) = REGION0_VPNS) as [_ Ht].
  { split; [done|]. destruct Hm as [_ _ _ Hl _ _]. rewrite Hl. apply Hk. }
  destruct Hk as [_ [Hro Hid0] Hall _ Hidle Hpids Hpos Hst _]. split; try done.
  - rewrite Hsy. eapply cvar_world_move; [exact Hw| |exact Hpid| |exact Hinv'|congruence|].
    + intros a b Ha Hb. destruct Hh as (Hp & Ho & _). destruct (decide (a = p)) as [->|].
      * exists (set_p_kc KC_return b). by rewrite Hp, Hb.
      * exists b. by rewrite Ho by auto.
    + intros c _. by apply (handed_to_field p_cvar_lock_id _ _ _ _ _ c Hh Hne).
    + intros a Ha. destruct (cw_apart _ _ _ _ _ _ _ _ _ _ _ Hw _ Ha) as [Ha1 _].
      destruct R; simpl in *; set_solver.
  - rewrite <- Hall. unfold placed. destruct R as [|r R]; simpl.
    + by rewrite decide_True.
    + rewrite decide_False; [|intros ->; apply Hidle; rewrite <- Hall; set_solver].
      change (r :: (W ++ C ++ R ++ S) ≡ₚ W ++ C ++ r :: (R ++ S)).
      rewrite !(assoc_L (++) W C). by rewrite <- Permutation_middle.
  - by rewrite (pids_same (k_store s)).
  - intros a n Ha. rewrite Hpid. by apply Hpos.
  - intros a Ha. destruct (Hst a Ha) as (kc & Hsw & Hkc).
    eexists. split; [by eapply handed_to_switchable|]. intros _. case_decide; [done|by apply Hkc].
Qed.

(** The process that stops is queued, or is the idle process. *)
Lemma switch_away_world p C H W R S s :
  kworld p [] C H W R S s -> p <> next_of idle R ->
  wp (switch_away KC_return (Some p)) (fun f s' => f = Switched KC_return /\
    monitor (next_of idle R) C H W (tail R) S s') s.
Proof.
  intros Hk Hne. pose proof (kw_world _ _ _ _ _ _ _ _ Hk) as Hw.
  destruct (kw_block _ _ _ _ _ _ _ _ Hk) as [b Hb].
  destruct (kw_stacks _ _ _ _ _ _ _ _ Hk (next_of idle R)) as (kc & Hsw & Hkc).
  { rewrite <- (kw_all _ _ _ _ _ _ _ _ Hk). destruct R; simpl; set_solver. }
  rewrite Hkc in Hsw by done.
  eapply wp_mono; [eapply (switch_away_ok KC_return KC_return p idle R [] S)|].
  - apply Hw.
  - apply Hk.
  - done.
  - by exists b.
  - done.
  - apply Hk.
  - intros f s' [-> Hd]. split; [done|]. by eapply kworld_switched.
Qed.
End kernel.
