(* ===== verification/PipeCalls.v ===== *)
(** * The calls on pipes ([PipeInit_Impl], [PipeRead_Impl], [PipeWrite_Impl] of [pipe.c]) *)

From S2P Require Import Prelude Machine Tables Pcb FrameTracking Paging UserMemory Fifo SleepHeap Scheduler Identifiers PipeBuffer PipeTable Kernel.

(** ** Definitions *)
Section definitions.
Context `{Machine}.

Definition PipeInit_Impl (uc : addr) : M kstate unit :=
  u ← get_uc uc;
  let pipe_idp := uc_reg0 u in
  if pipe_idp =? 0 then set_reg0 uc ERROR
  else
    pipe_id ← zoom new_pipe;
    if pipe_id =? ERROR then set_reg0 uc ERROR
    else
      zoom (user_write_int pipe_idp (CREATE_ID PIPE_FLAG pipe_id));;
      set_reg0 uc SUCCESS.

(** The loop of [PipeRead_Impl] from the test of [get_pipe] on, and what follows
    it: entered when the call is made and again when the reader is woken. *)
Definition pipe_read_loop (uc : addr) (pipe_id buf len : Z) : M kstate flow :=
  pipe ← zoom (get_pipe pipe_id);
  match pipe with
  | None => set_reg0 uc ERROR;; mret Returned
  | Some pipe =>
      p ← zoom (load_pipe pipe);
      if pi_len p =? 0 then
        curr_proc ← running;
        zoom (readq_push pipe curr_proc);;
        zoom (update curr_proc (set_p_state WAITING));;
        switch_away (KC_pipe_read pipe_id buf len) (Some curr_proc)
      else
        r ← lift_opt (read_bytes p len);
        zoom (copy_to_user buf r.1);;
        zoom (update_pipe pipe (fun _ => r.2));;
        set_reg0 uc (zlen r.1);;
        mret Returned
  end.

Definition PipeRead_Impl (uc : addr) : M kstate flow :=
  u ← get_uc uc;
  let pipe_id := reg0_int u in
  let buf := uc_reg1 u in
  let len := reg2_int u in
  if negb (IS_PIPE_ID pipe_id) || (buf =? 0) || (len <? 0) then
    set_reg0 uc ERROR;; mret Returned
  else if len =? 0 then set_reg0 uc 0;; mret Returned
  else pipe_read_loop uc (GET_ID pipe_id) buf len.

Definition PipeWrite_Impl (uc : addr) : M kstate unit :=
  u ← get_uc uc;
  let pipe_id := reg0_int u in
  let buf := uc_reg1 u in
  let len := reg2_int u in
  if negb (IS_PIPE_ID pipe_id) || (buf =? 0) || (len <? 0) then set_reg0 uc ERROR
  else if len =? 0 then set_reg0 uc 0
  else
    pipe ← zoom (get_pipe (GET_ID pipe_id));
    match pipe with
    | None => set_reg0 uc ERROR
    | Some pipe =>
        p ← zoom (load_pipe pipe);
        r ← zoom (ensure_capacity p (pi_len p + len));
        zoom (update_pipe pipe (fun _ => r.2));;
        if negb r.1 then set_reg0 uc ERROR
        else
          bytes ← zoom (copy_from_user buf (Z.to_nat len));
          p' ← lift_opt (append_bytes bytes r.2);
          zoom (update_pipe pipe (fun _ => p'));;
          zoom (wake_readers pipe);;
          set_reg0 uc len
    end.
End definitions.
