(* ===== verification/TtyCalls.v ===== *)
(** * The calls on terminals ([kernel_tty_write], [kernel_tty_read] of [tty.c]) *)

From S2P Require Import Prelude Machine Pcb FrameTracking Paging UserMemory Fifo SleepHeap Scheduler Terminals Kernel.

(** ** Definitions *)
Section definitions.
Context `{Machine}.

Definition consume_into_user (tty_id ubuf len : Z) : M kstate Z :=
  t ← zoom (get_tty tty_id);
  r ← lift_opt (consume (rx_lines t) len);
  zoom (copy_to_user ubuf r.1);;
  zoom (update_tty tty_id (set_rx_lines r.2));;
  mret (zlen r.1).

Definition bad_tty_args (tty_id ubuf len : Z) : bool :=
  (tty_id <? 0) || (NUM_TERMINALS <=? tty_id) || (len <? 0) || (ubuf =? 0).

(** The part of [kernel_tty_write] after the writer is woken. *)
Definition tty_write_resumed (curr : addr) : M kstate unit :=
  zoom (update curr (set_p_io_kbuf None));;
  b ← zoom (load curr);
  set_reg0 curr (p_io_total b).

Definition kernel_tty_write (uc : addr) : M kstate flow :=
  u ← get_uc uc;
  let tty_id := reg0_int u in
  let ubuf := uc_reg1 u in
  let len := reg2_int u in
  if bad_tty_args tty_id ubuf len then set_reg0 uc ERROR;; mret Returned
  else if len =? 0 then set_reg0 uc 0;; mret Returned
  else
    curr ← running;
    ok ← zoom malloc;
    if negb ok then
      zoom (update curr (set_p_io_kbuf None));;
      set_reg0 uc ERROR;; mret Returned
    else
      bytes ← zoom (copy_from_user ubuf (Z.to_nat len));
      zoom (update curr (fun b =>
        set_p_io_tty_id tty_id (set_p_io_sent 0 (set_p_io_total len (set_p_io_kbuf (Some bytes) b)))));;
      t ← zoom (get_tty tty_id);
      match tx_owner t with
      | None =>
          zoom (update_tty tty_id (set_tx_owner (Some curr)));;
          zoom (start_chunk tty_id)
      | Some _ => zoom (wq_push tty_id curr)
      end;;
      zoom (update curr (set_p_state WAITING));;
      switch_away KC_tty_write (Some curr).

(** The part of [kernel_tty_read] after the reader is woken. *)
Definition tty_read_resumed (curr : addr) (tty_id : Z) : M kstate unit :=
  b ← zoom (load curr);
  n ← consume_into_user tty_id (p_io_user_buf b) (p_io_len b);
  set_reg0 curr n.

Definition kernel_tty_read (uc : addr) : M kstate flow :=
  u ← get_uc uc;
  let tty_id := reg0_int u in
  let ubuf := uc_reg1 u in
  let len := reg2_int u in
  if bad_tty_args tty_id ubuf len then set_reg0 uc ERROR;; mret Returned
  else if len =? 0 then set_reg0 uc 0;; mret Returned
  else
    curr ← running;
    t ← zoom (get_tty tty_id);
    match rx_lines t with
    | _ :: _ =>
        n ← consume_into_user tty_id ubuf len;
        set_reg0 uc n;; mret Returned
    | [] =>
        zoom (update curr (fun b =>
          set_p_io_tty_id tty_id (set_p_io_len len (set_p_io_user_buf ubuf b))));;
        zoom (rq_push tty_id curr);;
        zoom (update curr (set_p_state WAITING));;
        switch_away (KC_tty_read tty_id) (Some curr)
    end.
End definitions.
