(* ===== verification/Synchronization.v ===== *)
(** * The calls on locks, semaphores and condition variables (the [_Impl]
    functions of [synchronization.c]) *)

From S2P Require Import Prelude Machine Pcb FrameTracking Paging UserMemory Fifo SleepHeap Scheduler Identifiers PipeTable Locks Kernel.

(** ** Definitions *)
Section definitions.
Context `{Machine}.

(** A truth value as a result. *)
Definition set_result (uc : addr) (res : bool) : M kstate unit :=
  set_reg0 uc (if res then SUCCESS else ERROR).

Definition Release_Impl (uc : addr) : M kstate unit :=
  u ← get_uc uc;
  let lock_id := reg0_int u in
  if negb (IS_LOCK_ID lock_id) then set_reg0 uc ERROR
  else
    curr_proc ← running;
    res ← zoom (release (GET_ID lock_id) curr_proc false);
    set_result uc res.

(** What [Acquire_Impl] and [SemDown_Impl] do once the kind of the identifier
    is checked. *)
Definition acquire_or_block (uc : addr) (id : Z) : M kstate flow :=
  curr_proc ← running;
  res ← zoom (acquire (GET_ID id) curr_proc false);
  if res =? ERROR then set_reg0 uc ERROR;; mret Returned
  else if res =? ACQUIRED then set_reg0 uc SUCCESS;; mret Returned
  else
    set_reg0 uc SUCCESS;;
    switch_away KC_return (Some curr_proc).

Definition Acquire_Impl (uc : addr) : M kstate flow :=
  u ← get_uc uc;
  let lock_id := reg0_int u in
  if negb (IS_LOCK_ID lock_id) then set_reg0 uc ERROR;; mret Returned
  else acquire_or_block uc lock_id.

Definition SemDown_Impl (uc : addr) : M kstate flow :=
  u ← get_uc uc;
  let sem_id := reg0_int u in
  if negb (IS_SEM_ID sem_id) then set_reg0 uc ERROR;; mret Returned
  else acquire_or_block uc sem_id.

Definition SemUp_Impl (uc : addr) : M kstate unit :=
  u ← get_uc uc;
  let sem_id := reg0_int u in
  if negb (IS_SEM_ID sem_id) then set_reg0 uc ERROR
  else
    curr_proc ← running;
    res ← zoom (release (GET_ID sem_id) curr_proc false);
    set_result uc res.

Definition LockInit_Impl (uc : addr) : M kstate unit :=
  u ← get_uc uc;
  let lock_idp := uc_reg0 u in
  if lock_idp =? 0 then set_reg0 uc ERROR
  else
    lock_id ← zoom (new_lock 1);
    if lock_id =? ERROR then set_reg0 uc ERROR
    else
      set_reg0 uc SUCCESS;;
      zoom (user_write_int lock_idp (CREATE_ID LOCK_FLAG lock_id)).

Definition SemInit_Impl (uc : addr) : M kstate unit :=
  u ← get_uc uc;
  let sem_idp := uc_reg0 u in
  let cap := reg1_int u in
  if (sem_idp =? 0) || (cap <? 1) then set_reg0 uc ERROR
  else
    sem_id ← zoom (new_lock cap);
    if sem_id =? ERROR then set_reg0 uc ERROR
    else
      set_reg0 uc SUCCESS;;
      zoom (user_write_int sem_idp (CREATE_ID SEM_FLAG sem_id)).

Definition CvarInit_Impl (uc : addr) : M kstate unit :=
  u ← get_uc uc;
  let cvar_idp := uc_reg0 u in
  if cvar_idp =? 0 then set_reg0 uc ERROR
  else
    cvar_id ← zoom new_cvar;
    if cvar_id =? ERROR then set_reg0 uc ERROR
    else
      set_reg0 uc SUCCESS;;
      zoom (user_write_int cvar_idp (CREATE_ID CVAR_FLAG cvar_id)).

Definition CvarWait_Impl (uc : addr) : M kstate flow :=
  u ← get_uc uc;
  let cvar_id := reg0_int u in
  let lock_id := reg1_int u in
  if negb (IS_CVAR_ID cvar_id) || negb (IS_LOCK_ID lock_id) then set_reg0 uc ERROR;; mret Returned
  else
    curr_proc ← running;
    res ← zoom (wait_cvar (GET_ID cvar_id) (GET_ID lock_id) curr_proc);
    if res : bool then
      set_reg0 uc SUCCESS;;
      switch_away KC_return (Some curr_proc)
    else set_reg0 uc ERROR;; mret Returned.

Definition CvarSignal_Impl (uc : addr) : M kstate unit :=
  u ← get_uc uc;
  let cvar_id := reg0_int u in
  if negb (IS_CVAR_ID cvar_id) then set_reg0 uc ERROR
  else
    res ← zoom (signal_cvar (GET_ID cvar_id));
    set_result uc res.

Definition CvarBroadcast_Impl (uc : addr) : M kstate unit :=
  u ← get_uc uc;
  let cvar_id := reg0_int u in
  if negb (IS_CVAR_ID cvar_id) then set_reg0 uc ERROR
  else
    res ← zoom (broadcast_cvar (GET_ID cvar_id));
    set_result uc res.

Definition Reclaim_Impl (uc : addr) : M kstate unit :=
  u ← get_uc uc;
  let id := reg0_int u in
  res ←
    (if IS_LOCK_ID id || IS_SEM_ID id then zoom (delete_lock (GET_ID id))
     else if IS_PIPE_ID id then zoom (pipe_reclaim (GET_ID id))
     else if IS_CVAR_ID id then zoom (delete_cvar (GET_ID id))
     else mret false);
  set_result uc res.
End definitions.
