(* ===== verification/LoadProgram.v ===== *)
(** * Loading a program ([load_program.c])

    The executable file is not part of the repository: what the code uses of it
    (opening it, the header [LoadInfo] reads, its bytes) is the class [Files].
    The strings of the caller are given as lists of bytes without the final
    NUL. *)

From S2P Require Import Prelude Machine Pcb FrameTracking Paging UserMemory.

(** ** The file *)

(** The fields of [struct load_info] the code uses. *)
Record load_info := {
  li_entry : Z;
  li_t_vaddr : Z;
  li_t_faddr : Z;
  li_t_npg : Z;
  li_id_vaddr : Z;
  li_id_faddr : Z;
  li_id_npg : Z;
  li_ud_npg : Z;
  li_id_end : Z;
  li_ud_end : Z
}.

(** [open_file name] is [None] when [open] fails, [LoadInfo fd] when the result
    is not [LI_NO_ERROR]; [read_file fd off n] are the bytes [read] delivers
    when [n] are asked for at [off]. *)
Class Files := {
  file : Type;
  open_file : list Z -> option file;
  LoadInfo : file -> option load_info;
  read_file : file -> Z -> Z -> list Z
}.

(** ** Definitions *)
Definition POINTER_SIZE : Z := 4.

Section definitions.
Context `{Machine} `{Files}.

(** The bytes the arguments take on the new stack. *)
Definition args_size (args : list (list Z)) : Z := foldr (fun a n => zlen a + 1 + n) 0 args.

(** [cp], [cpp] and the new stack pointer. *)
Definition args_start (args : list (list Z)) : Z := VMEM_1_LIMIT - args_size args.
Definition argv_start (args : list (list Z)) : Z :=
  Z.land (args_start args - (zlen args + 3 + POST_ARGV_NULL_SPACE) * POINTER_SIZE) (Z.lnot 7).
Definition new_sp (args : list (list Z)) : Z :=
  argv_start args - INITIAL_STACK_FRAME_SIZE * POINTER_SIZE.
Definition stack_pages (args : list (list Z)) : Z :=
  Z.shiftr (VMEM_1_LIMIT - DOWN_TO_PAGE (new_sp args)) PAGESHIFT.

Definition text_page (li : load_info) : Z := Z.shiftr (li_t_vaddr li - VMEM_1_BASE) PAGESHIFT.
Definition data_page (li : load_info) : Z := Z.shiftr (li_id_vaddr li - VMEM_1_BASE) PAGESHIFT.
Definition data_pages (li : load_info) : Z := li_id_npg li + li_ud_npg li.

(** [lseek] and [read] of a segment of [npg] pages to [vaddr]: whether all of
    it could be read. *)
Definition load_segment (fd : file) (faddr vaddr npg : Z) : M mstate bool :=
  let segment_size := Z.shiftl npg PAGESHIFT in
  let bytes := read_file fd faddr segment_size in
  copy_to_user vaddr bytes;;
  mret (zlen bytes =? segment_size).

(** The loop that copies each argument and sets its [argv] pointer, and the
    two NULL pointers. *)
Fixpoint write_args (args : list (list Z)) (cp cpp : Z) : M mstate unit :=
  match args with
  | [] =>
      user_write_int cpp 0;;
      user_write_int (cpp + POINTER_SIZE) 0
  | a :: args' =>
      user_write_int cpp cp;;
      copy_to_user cp (a ++ [0]);;
      write_args args' (cp + zlen a + 1) (cpp + POINTER_SIZE)
  end.
Definition build_stack (args : list (list Z)) : M mstate unit :=
  let cpp := argv_start args in
  copy_to_user cpp (replicate (Z.to_nat (VMEM_1_LIMIT - cpp)) 0);;
  user_write_int cpp (zlen args);;
  write_args args (args_start args) (cpp + POINTER_SIZE).

(** The part of [LoadProgram] after the old pages are released: it succeeds or
    the process is killed. *)
Definition load_image (fd : file) (li : load_info) (args : list (list Z)) (proc : addr) : M mstate Z :=
  let global_text_pg1 := text_page li + REGION1_BASE_VPN in
  ok ← alloc_region global_text_pg1 (global_text_pg1 + li_t_npg li) (Z.lor PROT_READ PROT_WRITE);
  if negb ok then mret KILL
  else
    let global_data_pg1 := data_page li + REGION1_BASE_VPN in
    ok ← alloc_region global_data_pg1 (global_data_pg1 + data_pages li) (Z.lor PROT_READ PROT_WRITE);
    if negb ok then mret KILL
    else
      ok ← alloc_region (REGION1_LIMIT_VPN - stack_pages args) REGION1_LIMIT_VPN
             (Z.lor PROT_READ PROT_WRITE);
      if negb ok then mret KILL
      else
        emit TLBFlushRegion1;;
        ok ← load_segment fd (li_t_faddr li) (li_t_vaddr li) (li_t_npg li);
        if negb ok then mret KILL
        else
          ok ← load_segment fd (li_id_faddr li) (li_id_vaddr li) (li_id_npg li);
          if negb ok then mret KILL
          else
            prot_region global_text_pg1 (global_text_pg1 + li_t_npg li) (Z.lor PROT_READ PROT_EXEC);;
            copy_to_user (li_id_end li) (replicate (Z.to_nat (li_ud_end li - li_id_end li)) 0);;
            zoom (update proc (fun b => set_p_uc (uc_set_pc (li_entry li) (p_uc b)) b));;
            let brk_page := global_data_pg1 + data_pages li in
            zoom (update proc (fun b =>
              set_p_mem_ctx (set_layout global_text_pg1 global_data_pg1 brk_page brk_page (p_mem_ctx b)) b));;
            build_stack args;;
            mret SUCCESS.

Definition LoadProgram (name : list Z) (args : list (list Z)) (proc : addr) : M mstate Z :=
  match open_file name with
  | None => mret ERROR
  | Some fd =>
      match LoadInfo fd with
      | None => mret (-1)
      | Some li =>
          if li_entry li <? VMEM_1_BASE then mret ERROR
          else if MAX_PT_LEN <=? stack_pages args + data_page li + data_pages li then mret ERROR
          else
            zoom (update proc (fun b => set_p_uc (uc_set_sp (new_sp args) (p_uc b)) b));;
            ok ← zoom malloc;
            if negb ok then mret ERROR
            else
              deallocate_region1;;
              load_image fd li args proc
      end
  end.
End definitions.

(** The file "i" (105): a page of text, a page of data and a page more, of
    which 8 bytes are to be zeroed. *)
Definition demo_info : load_info :=
  {| li_entry := 260; li_t_vaddr := 256; li_t_faddr := 0; li_t_npg := 1; li_id_vaddr := 272;
     li_id_faddr := 16; li_id_npg := 1; li_ud_npg := 1; li_id_end := 288; li_ud_end := 296 |}.
Definition demo_files : Files := {|
  file := unit; open_file name := if decide (name = [105]) then Some tt else None;
  LoadInfo _ := Some demo_info; read_file _ off n := (fun i => off + i) <$> seqZ 0 n |}.
