(* ===== verification/Syscalls.v ===== *)
(** * System calls ([syscalls.c])

    Each call is given [uc], the block whose user context holds its arguments
    and takes its result, and checks the user's pointers before the component
    it calls uses them. *)

From S2P Require Import Prelude Machine Pcb FrameTracking Paging KernelMemory UserMemory Fifo SleepHeap Scheduler PipeBuffer PipeTable Locks Terminals Kernel PipeCalls TtyCalls Synchronization LoadProgram.

(** ** Definitions *)
Definition MAX_STRING_LEN : Z := 1024.
Definition MAX_ARGV_LEN : Z := 1024.

(** A handler that comes back. *)
Definition returning (m : M kstate unit) : M kstate flow := m;; mret Returned.

Section definitions.
Context `{Machine} `{Files} `{PidHelper}.

(** The result of a search that a [return] in the loop ends, [false] if none. *)
Definition found_true (r : option bool) : bool := match r with Some b => b | None => false end.

Definition check_c_string (str : Z) : M mstate bool :=
  if str =? 0 then mret false
  else
    r ← for_range_ret 0 MAX_STRING_LEN (fun i =>
      let a := to_i32 (str + i) in
      ok ← has_perms a false;
      if negb ok then mret (Some false)
      else
        c ← user_read a;
        if c =? 0 then mret (Some true) else mret None);
    mret (found_true r).

Definition check_argv (argv : Z) : M mstate bool :=
  if argv =? 0 then mret false
  else
    r ← for_range_ret 0 MAX_ARGV_LEN (fun i =>
      let a := to_i32 (argv + i * POINTER_SIZE) in
      ok ← has_perms a false;
      if negb ok then mret (Some false)
      else
        p ← user_read_word a;
        if p =? 0 then mret (Some true) else mret None);
    mret (found_true r).

Definition check_c_buf (str len : Z) (needs_write : bool) : M mstate bool :=
  if str =? 0 then mret false
  else
    r ← for_range_ret 0 len (fun i =>
      ok ← has_perms (to_i32 str + i) needs_write;
      if negb ok then mret (Some false) else mret None);
    mret (match r with Some b => b | None => true end).

(** The bytes of a string and the words of an array in user memory, up to the
    NUL; the bounds are those of the checks. *)
Fixpoint fetch_string (fuel : nat) (a : Z) : M mstate (list Z) :=
  match fuel with
  | O => ub
  | Datatypes.S fuel' =>
      c ← user_read a;
      if c =? 0 then mret [] else cs ← fetch_string fuel' (a + 1); mret (c :: cs)
  end.
Fixpoint fetch_argv (fuel : nat) (a : Z) : M mstate (list Z) :=
  match fuel with
  | O => ub
  | Datatypes.S fuel' =>
      p ← user_read_word a;
      if p =? 0 then mret [] else ps ← fetch_argv fuel' (a + POINTER_SIZE); mret (p :: ps)
  end.

Definition KernelGetPid (uc : addr) : M kstate unit :=
  p ← running;
  b ← zoom (load p);
  set_reg0 uc (p_pid b).

Definition KernelBrk (uc : addr) : M kstate unit :=
  u ← get_uc uc;
  r ← zoom (KernelBrk_Impl (uc_reg0 u) (uc_sp u));
  set_reg0 uc r.

Definition KernelDelay (uc : addr) : M kstate flow :=
  u ← get_uc uc;
  let clock_ticks := reg0_int u in
  running_proc ← running;
  if clock_ticks <=? 0 then
    returning (set_reg0 uc (if clock_ticks =? 0 then 0 else ERROR))
  else
    ok ← zoom (put_to_sleep running_proc clock_ticks);
    if ok : bool then
      set_reg0 uc 0;;
      switch_away KC_return (Some running_proc)
    else returning (set_reg0 uc ERROR).

(** [uc] is [None] for NULL. *)
Definition KernelExit (uc : option addr) : M kstate flow :=
  running_proc ← running;
  b ← zoom (load running_proc);
  if p_pid b =? 1 then halt
  else
    new_proc ← zoom get_next_process;
    code ← (match uc with
            | None => mret (-1)
            | Some a => u ← get_uc a; mret (reg0_int u)
            end);
    zoom (update running_proc (set_p_exit_code code));;
    zoom (update running_proc (set_p_state EXITED));;
    zoom deallocate_region1;;
    zoom deallocate_kernel_stack;;
    zoom (retire_pcb running_proc);;
    k ← FullContextSwitch KC_zero None new_proc;
    mret (Switched k).

(** The strings of [argvec], each checked. *)
Fixpoint check_args (argvec : list Z) : M mstate bool :=
  match argvec with
  | [] => mret true
  | a :: rest => ok ← check_c_string a; if negb ok then mret false else check_args rest
  end.
Definition fetch_args (argvec : list Z) : M mstate (list (list Z)) :=
  foldr (fun a m => s ← fetch_string (Z.to_nat MAX_STRING_LEN) a; ss ← m; mret (s :: ss)) (mret []) argvec.

Definition KernelExec (uc : addr) : M kstate flow :=
  u ← get_uc uc;
  let filename := uc_reg0 u in
  let argvec := uc_reg1 u in
  ok ← zoom (check_c_string filename);
  if negb ok then returning (set_reg0 uc ERROR)
  else
    ok ← zoom (check_argv argvec);
    if negb ok then returning (set_reg0 uc ERROR)
    else
      ptrs ← zoom (fetch_argv (Z.to_nat MAX_ARGV_LEN) argvec);
      ok ← zoom (check_args ptrs);
      if negb ok then returning (set_reg0 uc ERROR)
      else
        running_proc ← running;
        name ← zoom (fetch_string (Z.to_nat MAX_STRING_LEN) filename);
        args ← zoom (fetch_args ptrs);
        res ← zoom (LoadProgram name args running_proc);
        if res =? KILL then KernelExit None
        else if res =? ERROR then returning (set_reg0 uc ERROR)
        else mret Returned.

Definition KernelFork (uc : addr) : M kstate unit :=
  running_proc ← running;
  u ← get_uc uc;
  new_proc ← zoom (create_new_pcb K_STACK_VPNS REGION1_VPNS u);
  new_proc ← lift_opt new_proc;
  ok ← zoom (UCCopy u new_proc);
  if negb ok then
    set_reg0 uc ERROR;;
    zoom (retire_pcb new_proc);;
    zoom (free new_proc)
  else
    b ← zoom (load new_proc);
    set_reg0 uc (p_pid b);;
    set_reg0 new_proc 0;;
    zoom (add_child_proc running_proc new_proc);;
    zoom (schedule_process new_proc);;
    zoom (KCCopy KC_return new_proc);;
    mret tt.

(** [KernelWait] after the process is woken. *)
Definition wait_resumed (uc : addr) : M kstate unit :=
  u ← get_uc uc;
  (if uc_reg0 u =? 0 then mret tt else zoom (user_write_int (uc_reg0 u) (uc_reg1 u)));;
  set_reg0 uc 0.
Definition KernelWait (uc : addr) : M kstate flow :=
  running_proc ← running;
  u ← get_uc uc;
  code ← zoom (find_exited_child running_proc);
  match code with
  | Some code =>
      (if uc_reg0 u =? 0 then mret tt else zoom (user_write_int (uc_reg0 u) code));;
      returning (set_reg0 uc 0)
  | None =>
      zoom (wait_block_process running_proc);;
      switch_away KC_wait (Some running_proc)
  end.

(** A call that is made only when the user's buffer is as it must be. *)
Definition with_buffer (uc : addr) (needs_write : bool) (call : M kstate flow) : M kstate flow :=
  u ← get_uc uc;
  ok ← zoom (check_c_buf (uc_reg1 u) (reg2_int u) needs_write);
  if ok : bool then call else returning (set_reg0 uc ERROR).

Definition KernelTtyRead (uc : addr) : M kstate flow := with_buffer uc true (kernel_tty_read uc).
Definition KernelTtyWrite (uc : addr) : M kstate flow := with_buffer uc false (kernel_tty_write uc).
Definition KernelLockInit (uc : addr) : M kstate unit := LockInit_Impl uc.
Definition KernelAcquire (uc : addr) : M kstate flow := Acquire_Impl uc.
Definition KernelRelease (uc : addr) : M kstate unit := Release_Impl uc.
Definition KernelCvarInit (uc : addr) : M kstate unit := CvarInit_Impl uc.
Definition KernelCvarSignal (uc : addr) : M kstate unit := CvarSignal_Impl uc.
Definition KernelCvarBroadcast (uc : addr) : M kstate unit := CvarBroadcast_Impl uc.
Definition KernelCvarWait (uc : addr) : M kstate flow := CvarWait_Impl uc.
Definition KernelReclaim (uc : addr) : M kstate unit := Reclaim_Impl uc.
Definition KernelSemInit (uc : addr) : M kstate unit := SemInit_Impl uc.
Definition KernelSemUp (uc : addr) : M kstate unit := SemUp_Impl uc.
Definition KernelSemDown (uc : addr) : M kstate flow := SemDown_Impl uc.
Definition KernelPipeInit (uc : addr) : M kstate unit := PipeInit_Impl uc.
Definition KernelPipeRead (uc : addr) : M kstate flow := with_buffer uc true (PipeRead_Impl uc).
Definition KernelPipeWrite (uc : addr) : M kstate flow :=
  with_buffer uc false (returning (PipeWrite_Impl uc)).
End definitions.
