(* ===== verification/HeapFrame.v ===== *)
(** * What the calls on processes keep of the C heap

    While no allocation fails, none will, and the addresses that [calloc] gives
    out next are unused: [tidy] says of a function that it keeps this, on any
    input.  Its rules follow the structure of the code, and the tactic [tidy]
    applies them to the calls on processes and to what they call. *)

From S2P Require Import Prelude Machine FrameTracking Pcb Paging KernelMemory UserMemory Fifo SleepHeap Scheduler PipeBuffer PipeTable Locks Frame Terminals Kernel PipeCalls TtyCalls Synchronization LoadProgram Syscalls.

(** ** The states that hold the heap *)
#[export] Instance mem_blocks : HasBlocks mstate := {| blocks_of := m_store; roles_of _ := None |}.
#[export] Instance kernel_blocks : HasBlocks kstate :=
  {| blocks_of s := m_store (k_mem s); roles_of _ := None |}.

(** Memory does not run out, and the next address is free. *)
Definition heap_ok (st : store) : Prop :=
  st_malloc st = [] /\ forall a, is_Some (st_pcbs st !! a) -> (a < st_next st)%positive.

Lemma heap_ok_fresh st : heap_ok st -> st_pcbs st !! st_next st = None.
Proof. intros [_ H]. apply eq_None_not_Some. intros ?%H. lia. Qed.

Definition tidy {S A} `{HasBlocks S} (m : M S A) : Prop :=
  forall s a s', m s = Some (a, s') -> heap_ok (blocks_of s) -> heap_ok (blocks_of s').

Lemma wp_tidy {S A} `{HasBlocks S} (m : M S A) Q s :
  tidy m -> heap_ok (blocks_of s) -> wp m Q s -> wp m (fun a s' => Q a s' /\ heap_ok (blocks_of s')) s.
Proof.
  intros Hm Hs (a & s' & E & HQ)%wp_run. apply wp_run. exists a, s'. split; [done|]. split; [done|]. by eapply Hm.
Qed.

(** ** Rules *)
Section rules.
Context {S A B : Type} `{HasBlocks S}.
Implicit Types (m : M S A).

Lemma tidy_ret (a : A) : tidy (mret a : M S A).
Proof. by intros s a' s' [= <- <-]. Qed.
Lemma tidy_bind m (k : A -> M S B) : tidy m -> (forall a, tidy (k a)) -> tidy (mbind k m).
Proof.
  intros Hm Hk s b s'. unfold mbind, M_bind. destruct (m s) as [[a s1]|] eqn:E; [|done].
  intros Hb Hs. eapply Hk; [exact Hb|]. by eapply Hm.
Qed.
Lemma tidy_ub : tidy (ub : M S A).
Proof. by intros s a s'. Qed.
Lemma tidy_gets (f : S -> A) : tidy (gets f).
Proof. by intros s a s' [= <- <-]. Qed.
Lemma tidy_lift_opt (o : option A) : tidy (lift_opt o : M S A).
Proof. intros s a s'. unfold lift_opt. destruct o; [|done]. by intros [= <- <-]. Qed.
Lemma tidy_modify (f : S -> S) :
  (forall s, heap_ok (blocks_of s) -> heap_ok (blocks_of (f s))) -> tidy (modify f).
Proof. intros Hf s a s' [= <- <-]. apply Hf. Qed.
End rules.

Section loops.
Context {S : Type} `{HasBlocks S}.

Lemma tidy_for (n : nat) (body : Z -> M S unit) : (forall i, tidy (body i)) -> forall i, tidy (for_ n i body).
Proof.
  intros Hb. induction n as [|n IH]; intros i; simpl; [apply tidy_ret|]. by apply tidy_bind.
Qed.
Lemma tidy_for_range first last (body : Z -> M S unit) : (forall i, tidy (body i)) -> tidy (for_range first last body).
Proof. intros Hb. by apply tidy_for. Qed.
Lemma tidy_for_ret {R} (n : nat) (body : Z -> M S (option R)) :
  (forall i, tidy (body i)) -> forall i, tidy (for_ret n i body).
Proof.
  intros Hb. induction n as [|n IH]; intros i; simpl; [apply tidy_ret|].
  apply tidy_bind; [done|]. intros [x|]; [apply tidy_ret|apply IH].
Qed.
Lemma tidy_for_range_ret {R} first last (body : Z -> M S (option R)) :
  (forall i, tidy (body i)) -> tidy (for_range_ret first last body).
Proof. intros Hb. by apply tidy_for_ret. Qed.
Lemma tidy_while fuel (cond : M S bool) (body : M S unit) : tidy cond -> tidy body -> tidy (while_ fuel cond body).
Proof.
  intros Hc Hb. induction fuel as [|fuel IH]; [apply tidy_ub|]. simpl.
  apply tidy_bind; [done|]. intros [|]; [|apply tidy_ret]. by apply tidy_bind.
Qed.
End loops.

(** A lens to a part that holds the heap, or to one that does not. *)
Class HeapLens (T S : Type) `{Lens T S, HasBlocks T, HasBlocks S} : Prop := {
  heap_lget : forall s, blocks_of (lget s) = blocks_of s;
  heap_lset : forall t s, blocks_of (lset t s) = blocks_of t
}.
#[export] Instance heap_of_blocks_lens T S `{BlocksLens T S} : HeapLens T S.
Proof. split; [apply blocks_lget|apply blocks_lset]. Qed.
#[export] Instance mem_store_heap : HeapLens store mstate.
Proof. by split. Qed.
#[export] Instance kernel_mem_heap : HeapLens mstate kstate.
Proof. by split. Qed.
#[export] Instance kernel_store_heap : HeapLens store kstate.
Proof. by split. Qed.
#[export] Instance kernel_sched_heap : HeapLens sched_st kstate.
Proof. by split. Qed.

Lemma tidy_zoom {T S A} `{HeapLens T S} (m : M T A) : tidy m -> tidy (zoom m : M S A).
Proof.
  intros Hm s a s'. unfold zoom. destruct (m (lget s)) as [[x t]|] eqn:E; [|done].
  intros [= <- <-] Hs. rewrite heap_lset. eapply Hm; [exact E|]. by rewrite heap_lget.
Qed.
Lemma tidy_zoom_frames {A} (m : M frames_t A) : tidy (zoom m : M mstate A).
Proof. intros s a s'. unfold zoom. destruct (m (lget s)) as [[x t]|]; [|done]. by intros [= <- <-]. Qed.

(** ** The primitives on blocks *)
Lemma heap_ok_insert st p b : heap_ok st -> is_Some (st_pcbs st !! p) -> heap_ok (set_pcbs (<[p := b]> (st_pcbs st)) st).
Proof.
  intros [Hm Hn] Hp. split; [done|]. simpl. intros a. destruct (decide (p = a)) as [->|]; [intros _; by apply Hn|].
  rewrite lookup_insert_ne by done. apply Hn.
Qed.
Lemma tidy_load p : tidy (load p).
Proof. intros s a s'. unfold load. destruct (_ !! _); [|done]. by intros [= <- <-]. Qed.
Lemma tidy_update p f : tidy (update p f).
Proof.
  intros s a s'. unfold update. destruct (st_pcbs s !! p) eqn:E; [|done]. intros [= <- <-] Hs.
  apply heap_ok_insert; [exact Hs|by eexists].
Qed.
Lemma tidy_free p : tidy (Pcb.free p).
Proof.
  intros s a s'. unfold Pcb.free. destruct (st_pcbs s !! p) eqn:E; [|done]. intros [= <- <-] [Hm Hn]. split; [done|].
  simpl in *. intros x [y Hy]. apply Hn. rewrite lookup_delete in Hy. case_decide; [done|by eexists].
Qed.
Lemma tidy_malloc : tidy malloc.
Proof.
  intros s a s'. unfold malloc. destruct (st_malloc s) eqn:E; intros [= <- <-] [Hm Hn]; [done|].
  simpl in *. congruence.
Qed.
Lemma tidy_new_block b : tidy (new_block b).
Proof.
  intros s a s' [= <- <-] [Hm Hn]. split; [done|]. simpl in *. intros x [y Hy].
  destruct (decide (st_next s = x)) as [<-|]; [lia|]. rewrite lookup_insert_ne in Hy by done.
  assert (x < st_next s)%positive by (apply Hn; by eexists). lia.
Qed.

Create HintDb tidy.
#[export] Hint Resolve tidy_load tidy_update tidy_free tidy_malloc tidy_new_block tidy_zoom_frames : tidy.

Ltac tidy_step :=
  lazymatch goal with
  | |- forall _, _ => intros
  | |- tidy (mret _) => apply tidy_ret
  | |- tidy (M_ret _ _ _) => apply tidy_ret
  | |- tidy (mbind _ _) => apply tidy_bind
  | |- tidy ub => apply tidy_ub
  | |- tidy (gets _) => apply tidy_gets
  | |- tidy (lift_opt _) => apply tidy_lift_opt
  | |- tidy (modify _) => apply tidy_modify; by intros
  | |- tidy (for_range _ _ _) => apply tidy_for_range
  | |- tidy (for_range_ret _ _ _) => apply tidy_for_range_ret
  | |- tidy (while_ _ _ _) => apply tidy_while
  | |- tidy (when ?b _) => destruct b; simpl
  | |- tidy (@zoom frames_t _ _ _ _) => apply tidy_zoom_frames
  | |- tidy (zoom _) => apply tidy_zoom
  | |- tidy (let _ := _ in _) => cbv zeta
  | |- tidy (match ?x with _ => _ end) => destruct x
  | |- tidy _ => solve [eauto with tidy]
  end.
Ltac tidy := repeat tidy_step.

(** ** The blocks and the families *)
Lemma tidy_heap_at i : tidy (heap_at i).
Proof. intros s a s'. unfold heap_at. destruct (zget _ _) as [[]|]; try done. by intros [= <- <-]. Qed.
Lemma tidy_heap_put i p : tidy (heap_put i p).
Proof. intros s a s'. unfold heap_put. destruct (zset _ _ _); [|done]. by intros [= <- <-]. Qed.
#[export] Hint Resolve tidy_heap_at tidy_heap_put : tidy.

Lemma tidy_create_new_pcb `{PidHelper} nk nr uc : tidy (create_new_pcb nk nr uc).
Proof. unfold create_new_pcb, helper_new_pid. tidy. Qed.
Lemma tidy_find_exited_child p : tidy (find_exited_child p).
Proof. unfold find_exited_child. tidy. Qed.
Lemma tidy_add_child_proc p c : tidy (add_child_proc p c).
Proof. unfold add_child_proc. tidy. Qed.
Lemma tidy_retire_pcb p : tidy (retire_pcb p).
Proof. unfold retire_pcb, helper_retire_pid. tidy. Qed.
#[export] Hint Resolve tidy_create_new_pcb tidy_find_exited_child tidy_add_child_proc tidy_retire_pcb : tidy.

(** ** The scheduler *)
Lemma tidy_compare a b : tidy (compare a b).
Proof. unfold compare. tidy. Qed.
#[export] Hint Resolve tidy_compare : tidy.
Lemma tidy_sift_up fuel : forall i, tidy (sift_up fuel i).
Proof. induction fuel as [|fuel IH]; intros i; simpl; tidy. Qed.
Lemma tidy_lesser c l : tidy (lesser c l).
Proof. unfold lesser. tidy. Qed.
Lemma tidy_resize_heap n : tidy (resize_heap n).
Proof. unfold resize_heap. tidy. Qed.
#[export] Hint Resolve tidy_sift_up tidy_lesser tidy_resize_heap : tidy.
Lemma tidy_sift_down fuel : forall i, tidy (sift_down fuel i).
Proof. induction fuel as [|fuel IH]; intros i; simpl; tidy. Qed.
#[export] Hint Resolve tidy_sift_down : tidy.
Lemma tidy_add_to_heap p : tidy (add_to_heap p).
Proof. unfold add_to_heap. tidy. Qed.
Lemma tidy_remove_from_heap : tidy remove_from_heap.
Proof. unfold remove_from_heap. tidy. Qed.
Lemma tidy_enque_process type p : tidy (enque_process type p).
Proof. unfold enque_process. tidy. Qed.
Lemma tidy_deque_process : tidy deque_process.
Proof. unfold deque_process. tidy. Qed.
#[export] Hint Resolve tidy_add_to_heap tidy_remove_from_heap tidy_enque_process tidy_deque_process : tidy.
Lemma tidy_schedule_process p : tidy (schedule_process p).
Proof. unfold schedule_process. tidy. Qed.
Lemma tidy_get_next_process : tidy get_next_process.
Proof. unfold get_next_process. tidy. Qed.
Lemma tidy_put_to_sleep p t : tidy (put_to_sleep p t).
Proof. unfold put_to_sleep. tidy. Qed.
Lemma tidy_wake_sleepers : tidy wake_sleepers.
Proof. unfold wake_sleepers. tidy. Qed.
Lemma tidy_wait_block_process p : tidy (wait_block_process p).
Proof. unfold wait_block_process. tidy. Qed.
Lemma tidy_wait_unblock_cond p : tidy (wait_unblock_cond p).
Proof. unfold wait_unblock_cond. tidy. Qed.
#[export] Hint Resolve tidy_schedule_process tidy_get_next_process tidy_put_to_sleep tidy_wake_sleepers
  tidy_wait_block_process tidy_wait_unblock_cond : tidy.
Lemma tidy_find_blocked_loop fuel cond : (forall p, tidy (cond p)) -> forall prev curr q, tidy (find_blocked_loop fuel cond prev curr q).
Proof. intros Hc. induction fuel as [|fuel IH]; intros prev curr q; simpl; tidy. Qed.
#[export] Hint Resolve tidy_find_blocked_loop : tidy.
Lemma tidy_wake_waiters_loop fuel : tidy (wake_waiters_loop fuel).
Proof. induction fuel as [|fuel IH]; simpl; unfold find_blocked_process; tidy. Qed.
#[export] Hint Resolve tidy_wake_waiters_loop : tidy.
Lemma tidy_wake_waiters : tidy wake_waiters.
Proof. unfold wake_waiters. tidy. Qed.
#[export] Hint Resolve tidy_wake_waiters : tidy.

(** ** Memory *)
Class HeapTable (T : page_table) : Prop :=
  heap_table : forall t s, heap_ok (m_store s) -> heap_ok (m_store (pt_put T t s)).
Section memory.
Context `{Machine}.

#[export] Instance region0_heap : HeapTable region0_table.
Proof. by intros t s. Qed.
#[export] Instance region1_heap : HeapTable region1_table.
Proof.
  intros t s [Hm Hn]. simpl. unfold put_region1. destruct (m_mem_ctx s) as [a|]; [|done]. split; [done|].
  simpl. intros x. rewrite lookup_alter. case_decide; [|apply Hn]. intros [y Hy]. apply Hn. simplify_eq.
  destruct (st_pcbs (m_store s) !! x); [by eexists|done].
Qed.
Lemma tidy_put_table T t : HeapTable T -> tidy (put_table T t).
Proof. intros HT s a s' [= <- <-]. exact (HT t s). Qed.
#[local] Hint Resolve region0_heap region1_heap tidy_put_table : tidy.

Lemma tidy_alloc_page T vpn prot : HeapTable T -> tidy (alloc_page T vpn prot).
Proof. intros. unfold alloc_page, get_table. tidy. Qed.
Lemma tidy_dealloc_page T vpn : HeapTable T -> tidy (dealloc_page T vpn).
Proof. intros. unfold dealloc_page, get_table, emit. tidy. Qed.
Lemma tidy_unmap_no_free T vpn : HeapTable T -> tidy (unmap_no_free T vpn).
Proof. intros. unfold unmap_no_free, get_table, emit. tidy. Qed.
#[local] Hint Resolve tidy_alloc_page tidy_dealloc_page tidy_unmap_no_free : tidy.
Lemma tidy_undo_allocation T a b : HeapTable T -> tidy (undo_allocation T a b).
Proof. intros. unfold undo_allocation. tidy. Qed.
#[local] Hint Resolve tidy_undo_allocation : tidy.
Lemma tidy_alloc_or_undo T a b prot : HeapTable T -> tidy (alloc_or_undo T a b prot).
Proof. intros. unfold alloc_or_undo. tidy. Qed.
Lemma tidy_translate T vpn prot : tidy (translate T vpn prot).
Proof. unfold translate, get_table. tidy. Qed.
#[local] Hint Resolve tidy_alloc_or_undo tidy_translate : tidy.
Lemma tidy_copy_page T d v : tidy (copy_page T d v).
Proof. unfold copy_page. tidy. Qed.
#[local] Hint Resolve tidy_copy_page : tidy.
Lemma tidy_kernel_alloc_page vpn prot : tidy (kernel_alloc_page vpn prot).
Proof. unfold kernel_alloc_page. tidy. Qed.
Lemma tidy_kernel_dealloc_page vpn : tidy (kernel_dealloc_page vpn).
Proof. unfold kernel_dealloc_page, emit. tidy. Qed.
Lemma tidy_kernel_unmap_no_free vpn : tidy (kernel_unmap_no_free vpn).
Proof. unfold kernel_unmap_no_free, emit. tidy. Qed.
#[local] Hint Resolve tidy_kernel_alloc_page tidy_kernel_dealloc_page tidy_kernel_unmap_no_free : tidy.
Lemma tidy_kernel_undo_allocation a b : tidy (kernel_undo_allocation a b).
Proof. unfold kernel_undo_allocation. tidy. Qed.
#[local] Hint Resolve tidy_kernel_undo_allocation : tidy.
Lemma tidy_SetKernelBrk a : tidy (SetKernelBrk a).
Proof. unfold SetKernelBrk. tidy. Qed.
#[local] Hint Resolve tidy_SetKernelBrk : tidy.
Lemma tidy_KCCopy kc n : tidy (KCCopy kc n).
Proof. unfold KCCopy. tidy. Qed.
Lemma tidy_KCSwitch kc c n : tidy (KCSwitch kc c n).
Proof. unfold KCSwitch, emit. tidy. Qed.
Lemma tidy_UCSwitch n : tidy (UCSwitch n).
Proof. unfold UCSwitch, use_ctx, emit. tidy. Qed.
Lemma tidy_deallocate_kernel_stack : tidy deallocate_kernel_stack.
Proof. unfold deallocate_kernel_stack, free_no_unmap. tidy. Qed.
Lemma tidy_deallocate_region1 : tidy deallocate_region1.
Proof. unfold deallocate_region1. tidy. Qed.
Lemma tidy_KernelBrk_Impl a sp : tidy (KernelBrk_Impl a sp).
Proof. unfold KernelBrk_Impl, get_ctx, update_ctx. tidy. Qed.
Lemma tidy_expand_stack a : tidy (expand_stack a).
Proof. unfold expand_stack, get_ctx, get_table. tidy. Qed.
Lemma tidy_copy_pages n brk a b prot : tidy (copy_pages n brk a b prot).
Proof. unfold copy_pages, table_of, set_table_of, destroy_pt. tidy. Qed.
#[local] Hint Resolve tidy_KCCopy tidy_KCSwitch tidy_UCSwitch tidy_deallocate_kernel_stack tidy_deallocate_region1
  tidy_KernelBrk_Impl tidy_expand_stack tidy_copy_pages : tidy.
Lemma tidy_UCCopy u n : tidy (UCCopy u n).
Proof. unfold UCCopy, get_ctx. tidy. Qed.
Lemma tidy_user_write a v : tidy (user_write a v).
Proof. unfold user_write. tidy. Qed.
#[local] Hint Resolve tidy_UCCopy tidy_user_write : tidy.
Lemma tidy_copy_to_user bytes : forall a, tidy (copy_to_user a bytes).
Proof. induction bytes as [|b bs IH]; intros a; simpl; tidy. Qed.
#[local] Hint Resolve tidy_copy_to_user : tidy.
Lemma tidy_user_write_int a v : tidy (user_write_int a v).
Proof. unfold user_write_int. tidy. Qed.
#[local] Hint Resolve tidy_user_write_int : tidy.

(** ** Loading a program *)
Section load.
Context `{Files}.
Lemma tidy_alloc_region a b prot : tidy (alloc_region a b prot).
Proof. unfold alloc_region. tidy. Qed.
Lemma tidy_change_prot vpn prot : tidy (change_prot vpn prot).
Proof. unfold change_prot, get_table, emit. tidy. Qed.
#[local] Hint Resolve tidy_alloc_region tidy_change_prot : tidy.
Lemma tidy_prot_region a b prot : tidy (prot_region a b prot).
Proof. unfold prot_region. tidy. Qed.
Lemma tidy_load_segment fd faddr vaddr npg : tidy (load_segment fd faddr vaddr npg).
Proof. unfold load_segment. tidy. Qed.
Lemma tidy_write_args args : forall cp cpp, tidy (write_args args cp cpp).
Proof. induction args as [|a args IH]; intros cp cpp; simpl; tidy. Qed.
#[local] Hint Resolve tidy_prot_region tidy_load_segment tidy_write_args : tidy.
Lemma tidy_build_stack args : tidy (build_stack args).
Proof. unfold build_stack. tidy. Qed.
#[local] Hint Resolve tidy_build_stack : tidy.
Lemma tidy_load_image fd li args p : tidy (load_image fd li args p).
Proof. unfold load_image, emit. tidy. Qed.
#[local] Hint Resolve tidy_load_image : tidy.
Lemma tidy_LoadProgram name args p : tidy (LoadProgram name args p).
Proof. unfold LoadProgram. tidy. Qed.
End load.

(** ** The calls *)
Lemma tidy_running : tidy running.
Proof. unfold running, get_running_proc. tidy. Qed.
Lemma tidy_get_uc a : tidy (get_uc a).
Proof. unfold get_uc. tidy. Qed.
Lemma tidy_set_reg0 a v : tidy (set_reg0 a v).
Proof. unfold set_reg0. tidy. Qed.
Lemma tidy_FullContextSwitch kc c n : tidy (FullContextSwitch kc c n).
Proof. unfold FullContextSwitch, set_running_proc. tidy. Qed.
#[local] Hint Resolve tidy_running tidy_get_uc tidy_set_reg0 tidy_FullContextSwitch : tidy.
Lemma tidy_switch_away kc c : tidy (switch_away kc c).
Proof. unfold switch_away. tidy. Qed.
#[local] Hint Resolve tidy_switch_away : tidy.
Lemma tidy_KernelGetPid u : tidy (KernelGetPid u).
Proof. unfold KernelGetPid. tidy. Qed.
Lemma tidy_KernelBrk u : tidy (KernelBrk u).
Proof. unfold KernelBrk. tidy. Qed.
Lemma tidy_KernelDelay u : tidy (KernelDelay u).
Proof. unfold KernelDelay, returning. tidy. Qed.
Lemma tidy_KernelExit u : tidy (KernelExit u).
Proof. unfold KernelExit, halt, emit. tidy. Qed.
Lemma tidy_KernelFork `{PidHelper} u : tidy (KernelFork u).
Proof. unfold KernelFork. tidy. Qed.
Lemma tidy_wait_resumed u : tidy (wait_resumed u).
Proof. unfold wait_resumed. tidy. Qed.
Lemma tidy_KernelWait u : tidy (KernelWait u).
Proof. unfold KernelWait, returning. tidy. Qed.
End memory.
