(* ===== verification/UserBuffers.v ===== *)
(** * Buffers of the user

    The kernel checks every byte of a buffer before it copies from it or to
    it: what a successful check guarantees about the copies. *)

From S2P Require Import Prelude Machine Pcb FrameTracking Paging UserMemory Fifo SleepHeap Scheduler PipeBuffer PipeTable Locks Terminals Kernel DemoKernel PipeCalls TtyCalls Synchronization LoadProgram Syscalls.

Section buffers.
Context {hw : Machine} {hw_ok : MachineOk}.

(** ** Definitions *)

(** The user may read the byte at [a], and write it if [w]. *)
Definition accessible (t : list pte) (a : Z) (w : bool) : Prop :=
  VMEM_1_BASE <= a < VMEM_1_LIMIT /\
  exists p prot, maps t (vpn_of a - REGION1_BASE_VPN) = Some (p, prot) /\
    Z.land prot PROT_READ <> 0 /\ (w = true -> Z.land prot PROT_WRITE <> 0).

(** Frame and offset of the byte at [a]. *)
Definition location (t : list pte) (a : Z) : option (Z * Z) :=
  '(p, _) ← maps t (vpn_of a - REGION1_BASE_VPN); Some (p, a mod PAGESIZE).

Definition byte_in (t : list pte) (s : mstate) (a : Z) : option Z :=
  '(p, o) ← location t a; Some (m_pmem s p o).

(** Memory with [bytes] written from [a] on. *)
Fixpoint written (t : list pte) (a : Z) (bytes : list Z) (m : Z -> Z -> Z) : Z -> Z -> Z :=
  match bytes with
  | [] => m
  | b :: bs => written t (a + 1) bs
      (fun f o => if decide (location t a = Some (f, o)) then b else m f o)
  end.

(** ** Lemmas *)
Lemma accessible_location t a w : accessible t a w -> exists p, location t a = Some (p, a mod PAGESIZE).
Proof. intros (_ & p & prot & Hm & _). exists p. unfold location. by rewrite Hm. Qed.

Lemma location_inj f t a a' x :
  table_ok (T := region1_table) f t -> location t a = Some x -> location t a' = Some x -> a = a'.
Proof.
  intros Hok. unfold location. destruct (maps t (vpn_of a - _)) as [[p q]|] eqn:Ea; [|done].
  destruct (maps t (vpn_of a' - _)) as [[p' q']|] eqn:Ea'; [|done]. simpl. intros [= <-] [= -> Ho].
  pose proof (to_inj _ _ Hok _ _ _ _ _ Ea Ea') as E. rewrite !vpn_of_div in E.
  pose proof pagesize_pos. pose proof (Z.div_mod a PAGESIZE). pose proof (Z.div_mod a' PAGESIZE). nia.
Qed.

Lemma written_other t bytes : forall a m f o,
  (forall i, 0 <= i < zlen bytes -> location t (a + i) <> Some (f, o)) -> written t a bytes m f o = m f o.
Proof.
  induction bytes as [|b bs IH]; intros a m f o Hn; [done|]. simpl. unfold zlen in *. simpl in Hn.
  rewrite IH.
  - rewrite decide_False; [done|]. specialize (Hn 0). rewrite Z.add_0_r in Hn. apply Hn. lia.
  - intros i Hi. rewrite <- Z.add_assoc. apply Hn. lia.
Qed.

Lemma user_ok_pmem s c t m : user_ok s c t -> user_ok (set_m_pmem m s) c t.
Proof. by intros [Hc Ht Hok]; split. Qed.

Lemma user_read_at s c t a w :
  user_ok s c t -> accessible t a w -> exists b, user_read a s = Some (b, s) /\ byte_in t s a = Some b.
Proof.
  intros Hu (_ & p & prot & Hm & Hr & _). exists (m_pmem s p (a mod PAGESIZE)).
  split; [by eapply user_read_ok|]. unfold byte_in, location. by rewrite Hm.
Qed.
Lemma user_write_at s c t a b :
  user_ok s c t -> accessible t a true -> exists m,
    user_write a b s = Some (tt, set_m_pmem m s) /\ forall f o, m f o = written t a [b] (m_pmem s) f o.
Proof.
  intros Hu (_ & p & prot & Hm & _ & Hw). eexists. split; [eapply user_write_ok; eauto|].
  intros f o. simpl. unfold location. rewrite Hm. simpl.
  destruct (decide (f = p /\ o = a mod PAGESIZE)) as [[-> ->]|Hne]; [by rewrite decide_True|].
  rewrite decide_False; [done|]. intros E. apply Hne. by simplify_eq.
Qed.

Lemma written_ext t bytes : forall a m m' f o,
  (forall f o, m f o = m' f o) -> written t a bytes m f o = written t a bytes m' f o.
Proof.
  induction bytes as [|b bs IH]; intros a m m' f o Hm; simpl; [done|]. apply IH. intros f' o'.
  by rewrite Hm.
Qed.

Lemma copy_to_user_ok c t bytes : forall s a,
  user_ok s c t -> (forall i, 0 <= i < zlen bytes -> accessible t (a + i) true) -> exists m,
    copy_to_user a bytes s = Some (tt, set_m_pmem m s) /\
    forall f o, m f o = written t a bytes (m_pmem s) f o.
Proof.
  induction bytes as [|b bs IH]; intros s a Hu Hacc; simpl.
  - exists (m_pmem s). split; [by destruct s|done].
  - unfold zlen in Hacc. simpl in Hacc.
    destruct (user_write_at s c t a b Hu) as (m & Hrun & Hm).
    { specialize (Hacc 0). rewrite Z.add_0_r in Hacc. apply Hacc. lia. }
    unfold mbind, M_bind. rewrite Hrun.
    destruct (IH (set_m_pmem m s) (a + 1)) as (m' & Hrun' & Hm').
    { by apply user_ok_pmem. }
    { intros i Hi. rewrite <- Z.add_assoc. apply Hacc. unfold zlen in Hi. lia. }
    exists m'. split; [exact Hrun'|]. intros f o. rewrite Hm'. simpl. by apply written_ext.
Qed.

Lemma copy_from_user_ok s c t w n : forall a,
  user_ok s c t -> (forall i, 0 <= i < Z.of_nat n -> accessible t (a + i) w) -> exists bytes,
    copy_from_user a n s = Some (bytes, s) /\ length bytes = n /\
    forall i, 0 <= i < Z.of_nat n -> zget bytes i = byte_in t s (a + i).
Proof.
  induction n as [|n IH]; intros a Hu Hacc; simpl.
  - exists []. do 2 (split; [done|]). intros. lia.
  - destruct (user_read_at s c t a w Hu) as (b & Hrun & Hb).
    { specialize (Hacc 0). rewrite Z.add_0_r in Hacc. apply Hacc. lia. }
    destruct (IH (a + 1) Hu) as (bytes & Hrun' & Hl & Hbytes).
    { intros i Hi. rewrite <- Z.add_assoc. apply Hacc. lia. }
    exists (b :: bytes). unfold mbind, M_bind. rewrite Hrun, Hrun'. split; [done|].
    split; [simpl; lia|]. intros i Hi. destruct (decide (i = 0)) as [->|].
    + rewrite Z.add_0_r, Hb. done.
    + replace (a + i) with (a + 1 + (i - 1)) by lia. rewrite <- Hbytes by lia.
      rewrite !zget_nonneg by lia. replace (Z.to_nat i) with (Datatypes.S (Z.to_nat (i - 1))) by lia.
      done.
Qed.

(** Reading back what was written. *)
Lemma byte_in_written f0 t bytes : forall a s i m,
  table_ok (T := region1_table) f0 t ->
  (forall i, 0 <= i < zlen bytes -> accessible t (a + i) true) -> 0 <= i < zlen bytes ->
  byte_in t (set_m_pmem (written t a bytes m) s) (a + i) = zget bytes i.
Proof.
  induction bytes as [|b bs IH]; intros a s i m Hok Hacc Hi; unfold zlen in *; simpl in *; [lia|].
  destruct (decide (i = 0)) as [->|].
  - rewrite Z.add_0_r in *. destruct (accessible_location t a true) as [p Hp].
    { specialize (Hacc 0). rewrite Z.add_0_r in Hacc. apply Hacc. lia. }
    unfold byte_in. rewrite Hp. simpl. rewrite written_other; [by rewrite decide_True|].
    intros j Hj E. pose proof (location_inj _ _ _ _ _ Hok Hp E). lia.
  - replace (a + i) with (a + 1 + (i - 1)) by lia. rewrite IH; [|done| |lia].
    + rewrite !zget_nonneg by lia. by replace (Z.to_nat i) with (Datatypes.S (Z.to_nat (i - 1))) by lia.
    + intros j Hj. rewrite <- Z.add_assoc. apply Hacc. lia.
Qed.

(** What was copied to the user is read back, and nothing else changed. *)
Lemma copied_back s c t str bytes :
  user_ok s c t -> (forall i, 0 <= i < zlen bytes -> accessible t (str + i) true) ->
  exists m, copy_to_user str bytes s = Some (tt, set_m_pmem m s) /\
    copy_from_user str (length bytes) (set_m_pmem m s) = Some (bytes, set_m_pmem m s) /\
    forall f o, (forall i, 0 <= i < zlen bytes -> location t (str + i) <> Some (f, o)) ->
      m f o = m_pmem s f o.
Proof.
  intros Hu Hacc. destruct (copy_to_user_ok c t bytes s str Hu Hacc) as (m & Hw & Hm).
  exists m. split; [done|]. split.
  - destruct (copy_from_user_ok (set_m_pmem m s) c t true (length bytes) str) as (bytes' & Hr & Hl & Hbytes').
    { by apply user_ok_pmem. }
    { intros i Hi. by apply Hacc. }
    rewrite Hr. do 2 f_equal. apply (list_eq_same_length _ _ (length bytes)); [done|done|].
    intros i x y Hi Hx Hy. specialize (Hbytes' (Z.of_nat i)). rewrite zget_nat, Hx in Hbytes'.
    pose proof (byte_in_written (m_frames s) t bytes str s (Z.of_nat i) (m_pmem s) (uo_ok _ _ _ Hu) Hacc) as E.
    rewrite zget_nat, Hy in E. unfold byte_in in *. unfold zlen in *.
    destruct (location t (str + Z.of_nat i)) as [[f o]|]; simpl in *; [|by specialize (E ltac:(lia))].
    rewrite Hm in Hbytes'. specialize (Hbytes' ltac:(lia)). specialize (E ltac:(lia)). congruence.
  - intros f o Hout. rewrite Hm. by apply written_other.
Qed.

(** The check looks at every byte. *)
Lemma has_perms_accessible s c t a w :
  user_ok s c t -> exists ok, has_perms a w s = Some (ok, s) /\ (ok = true <-> accessible t a w).
Proof.
  intros Hu. rewrite (has_perms_ok s c t a w Hu). eexists. split; [done|]. unfold accessible.
  destruct (maps t (vpn_of a - REGION1_BASE_VPN)) as [[p prot]|].
  2: { split; [done|]. intros (_ & ? & ? & ? & _). done. }
  rewrite !andb_true_iff, orb_true_iff, !negb_true_iff, !Z.eqb_neq, bool_decide_eq_true.
  split.
  - intros ([Hr Hwr] & Hin). split; [done|]. exists p, prot. do 2 (split; [done|]). destruct w; naive_solver.
  - intros (Hin & p' & prot' & [= <- <-] & Hr & Hwr). split; [|done]. split; [done|]. destruct w; naive_solver.
Qed.

Lemma check_c_buf_ok s c t str len w :
  user_ok s c t -> exists ok, check_c_buf str len w s = Some (ok, s) /\
    (ok = true <-> str <> 0 /\ forall i, 0 <= i < len -> accessible t (to_i32 str + i) w).
Proof.
  intros Hu. unfold check_c_buf. destruct (Z.eqb_spec str 0) as [->|Hstr].
  { exists false. split; [done|]. split; [done|]. by intros [? _]. }
  assert (wp (r ← for_range_ret 0 len (fun i =>
      ok ← has_perms (to_i32 str + i) w;
      if negb ok then mret (Some false) else mret None);
    mret (match r with Some b => b | None => true end)) (fun ok s' => s' = s /\
      (ok = true <-> forall i, 0 <= i < len -> accessible t (to_i32 str + i) w)) s)
    as (ok & s' & Hrun & -> & Hok)%wp_run.
  { wp_step. apply (wp_for_range_ret _ _ _ (fun i s' => s' = s /\
      forall j, 0 <= j < i -> accessible t (to_i32 str + j) w)).
    - split; [done|]. intros. lia.
    - intros i ? Hi [-> Hacc].
      destruct (has_perms_accessible s c t (to_i32 str + i) w Hu) as (ok & Hrun & Hok).
      wp_step. unfold wp at 1. rewrite Hrun. destruct ok; simpl; wp_step.
      + split; [done|]. intros j Hj. destruct (decide (j = i)) as [->|]; [by apply Hok|]. apply Hacc. lia.
      + wp_step. split; [done|]. split; [done|]. intros Hall. by apply Hok, Hall.
    - intros s' [-> Hacc]. wp_step. split; [done|]. split; [|done]. intros _ i Hi. apply Hacc. lia. }
  exists ok. split; [exact Hrun|]. rewrite Hok. by split; [intros ?; split|intros [_ ?]].
Qed.

(** The check reads the address as a signed number; for an accessible one that
    is the same. *)
Lemma accessible_signed t str w :
  0 <= str < 4294967296 -> accessible t (to_i32 str) w -> to_i32 str = str.
Proof.
  intros Hs ([Hlo _] & _). pose proof vmem_1_base_spec. destruct vmem_0_pages as (n & Hn & E).
  pose proof pagesize_pos. unfold to_i32 in *. destruct (decide (str < 2147483648)).
  - rewrite Z.mod_small by lia. lia.
  - replace (str + 2147483648) with (str - 2147483648 + 1 * 4294967296) in Hlo by lia.
    rewrite Z.mod_add, Z.mod_small in Hlo by lia. nia.
Qed.

(** A buffer that passed. *)
Lemma checked_accessible t str len w :
  0 <= str < 4294967296 -> (forall i, 0 <= i < len -> accessible t (to_i32 str + i) w) ->
  forall i, 0 <= i < len -> accessible t (str + i) w.
Proof.
  intros Hstr Hacc i Hi. rewrite <- (accessible_signed t str w); auto.
  specialize (Hacc 0). rewrite Z.add_0_r in Hacc. apply Hacc. lia.
Qed.
End buffers.

(** ** Properties *)

(** C16: [check_c_buf] says yes exactly when the pointer is not NULL and every
    byte of the buffer lies in region 1 in a mapped page with the permissions
    asked for.  Then the kernel can copy all of the buffer without a trap, and
    gets its bytes in order; and if write permission was asked for, it can
    write as many bytes there: reading them back gives the same bytes, and no
    byte of physical memory outside of the buffer changes. *)
Theorem checked_buffer_safe {hw : Machine} {hw_ok : MachineOk} (s : mstate) (c : mem_ctx_t)
    (t : list pte) (str len : Z) (w : bool) :
  user_ok s c t -> 0 <= str < 4294967296 ->
  exists ok, check_c_buf str len w s = Some (ok, s) /\
    (ok = true <-> str <> 0 /\ forall i, 0 <= i < len -> accessible t (to_i32 str + i) w) /\
    (ok = true ->
       (exists bytes, copy_from_user str (Z.to_nat len) s = Some (bytes, s) /\
          length bytes = Z.to_nat len /\
          forall i, 0 <= i < len -> zget bytes i = byte_in t s (str + i)) /\
       (w = true -> forall bytes, zlen bytes <= len -> exists m,
          copy_to_user str bytes s = Some (tt, set_m_pmem m s) /\
          copy_from_user str (length bytes) (set_m_pmem m s) = Some (bytes, set_m_pmem m s) /\
          forall f o, (forall i, 0 <= i < zlen bytes -> location t (str + i) <> Some (f, o)) ->
            m f o = m_pmem s f o)).
Proof.
  intros Hu Hstr. destruct (check_c_buf_ok s c t str len w Hu) as (ok & Hrun & Hok).
  exists ok. split; [exact Hrun|]. split; [exact Hok|]. intros Eok. apply Hok in Eok as [_ Hacc].
  pose proof (checked_accessible t str len w Hstr Hacc) as Hacc'.
  split.
  - destruct (copy_from_user_ok s c t w (Z.to_nat len) str Hu) as (bytes & Hb & Hl & Hbytes).
    { intros i Hi. apply Hacc'. lia. }
    exists bytes. do 2 (split; [done|]). intros i Hi. apply Hbytes. lia.
  - intros -> bytes Hlen.
    assert (forall i, 0 <= i < zlen bytes -> accessible t (str + i) true) as Hacc2
      by (intros; apply Hacc'; lia).
    by apply (copied_back s c t).
Qed.

(** Four bytes of the data page of the running process. *)
Lemma checked_buffer_safe_witness :
  exists m, @copy_to_user demo_machine 275 [1; 2; 3; 4] (demo_kmem (demo_uc 0 0 0)) =
      Some (tt, set_m_pmem m (demo_kmem (demo_uc 0 0 0))) /\
    @copy_from_user demo_machine 275 4 (set_m_pmem m (demo_kmem (demo_uc 0 0 0))) =
      Some ([1; 2; 3; 4], set_m_pmem m (demo_kmem (demo_uc 0 0 0))).
Proof.
  destruct (@checked_buffer_safe demo_machine demo_machine_ok (demo_kmem (demo_uc 0 0 0)) _ _ 275 4 true
    (demo_kernel_user_ok _) ltac:(lia)) as (ok & Hrun & _ & Hsafe).
  assert (ok = true) as Eok by (vm_compute in Hrun; by injection Hrun).
  destruct (Hsafe Eok) as [_ Hw]. destruct (Hw eq_refl [1; 2; 3; 4] ltac:(by vm_compute)) as (m & Hm & Hr & _).
  exists m. split; [exact Hm|exact Hr].
Defined.
