(* ===== verification/PipeWorld.v ===== *)
(** * Pipes, from the call of the user to its result

    [KernelPipeWrite] and [KernelPipeRead] on one pipe in the state of the
    kernel: the buffer of the user, the queue of bytes, the blocked readers and
    the scheduler together. *)

From S2P Require Import Prelude Machine Tables Pcb FrameTracking Paging KernelMemory UserMemory Fifo SleepHeap Scheduler Identifiers PipeBuffer PipeTable Locks Terminals Kernel DemoKernel Switching PipeCalls TtyCalls Synchronization LoadProgram Syscalls UserBuffers.

(** ** Definitions *)

(** The state [s] with another heap, scheduler and table of pipes. *)
Definition kp (s : kstate) (st : store) (sc : sched_t) (t : pipes_t) : kstate :=
  {| k_mem := set_m_store st (k_mem s); k_sched := sc; k_sync := k_sync s; k_pipes := t; k_ttys := k_ttys s |}.

(** The pipe [i] holds [bytes], and [L] wait to read from it; only from an
    empty pipe do processes wait. *)
Record pipe_world (i : Z) (bytes : list Z) (L R Wt S : list addr) (st : store) (sc : sched_t)
    (t : pipes_t) : Prop := {
  pw_table : pipes_ok t;
  pw_pipe : exists p, pipe_of t i = Some p /\ pipe_repr p bytes /\ fifo_repr st (pi_readers p) L;
  pw_sched : sched_inv (st, sc) R Wt S;
  pw_apart : forall a, a ∈ L -> a ∉ R ++ Wt ++ S /\ idle_proc sc <> Some a;
  pw_empty : L <> [] -> bytes = []
}.

Lemma kp_same s : kp s (k_store s) (k_sched s) (k_pipes s) = s.
Proof. by destruct s as [[] ? ? ? ?]. Qed.


(** [get_pipe] finds the pipe that is there. *)
Lemma get_pipe_here (ss : sched_st) t i p :
  pipes_ok t -> pipe_of t i = Some p ->
  wp (get_pipe i) (fun r x => r = Some i /\ x = (ss, t)) (ss, t).
Proof. intros Hok Hp. unfold wp. rewrite get_pipe_ok by done. by rewrite Hp. Qed.

(** A function of the pipes, and one of the heap, in that state. *)
Lemma wp_kp {A} (m : M pipe_st A) Q s st sc t :
  wp m (fun a x => Q a (kp s x.1.1 x.1.2 x.2)) ((st, sc), t) -> wp (zoom m) Q (kp s st sc t).
Proof. intros Hm. wp_step. exact Hm. Qed.
Lemma wp_kp_store {A} (m : M store A) Q s st sc t :
  wp m (fun a st' => Q a (kp s st' sc t)) st -> wp (zoom m) Q (kp s st sc t).
Proof. intros Hm. wp_step. exact Hm. Qed.

(** ** Lemmas *)

(** Another pipe in the place [i] of the table. *)
Lemma pipes_ok_update i p p' t :
  pipes_ok t -> pipe_of t i = Some p -> pi_in_use p' = true ->
  pipes_ok (pipe_tab i p' t) /\
  forall j, pipe_of (pipe_tab i p' t) j = if decide (j = i) then Some p' else pipe_of t j.
Proof. intros Hok Hp Huse. exact (open_at_update pi_in_use _ _ _ i p p' Hok Hp Huse). Qed.

(** Blocks that changed outside of the links and the times of the queues. *)
Lemma pipe_world_keeps i bytes L R Wt S st st' sc t :
  pipe_world i bytes L R Wt S st sc t -> (forall l, keeps st st' l) ->
  pipe_world i bytes L R Wt S st' sc t.
Proof.
  intros [Hok (p & Hp & Hr & Hq) Hinv Hap He] Hk. split; try done.
  - exists p. split; [done|]. split; [done|]. by eapply fifo_repr_keeps.
  - by eapply sched_inv_keeps.
Qed.

Lemma wp_kp_read {A} (m : M mstate A) a Q s st sc t :
  m (set_m_store st (k_mem s)) = Some (a, set_m_store st (k_mem s)) -> Q a (kp s st sc t) ->
  wp (zoom m) Q (kp s st sc t).
Proof. intros Hm HQ. wp_step. unfold wp. change (lget _) with (set_m_store st (k_mem s)). by rewrite Hm. Qed.
Lemma get_uc_kp s st sc t a b Q :
  st_pcbs st !! a = Some b -> Q (p_uc b) (kp s st sc t) -> wp (get_uc a) Q (kp s st sc t).
Proof. intros Hb HQ. unfold get_uc. wp_step. apply wp_kp_store. eapply wp_load; [exact Hb|]. by wp_step. Qed.

Section calls.
Context {hw : Machine} {hw_ok : MachineOk}.

Lemma user_ok_blocks s c tb st :
  user_ok (k_mem s) c tb -> st_pcbs st = st_pcbs (k_store s) ->
  user_ok (set_m_store st (k_mem s)) c tb.
Proof.
  intros [Hc Ht Hok] E. split; [|done|done]. unfold current_ctx in *. simpl. unfold k_store in E. by rewrite E.
Qed.

Lemma set_reg0_kp s st sc t a b v Q :
  st_pcbs st !! a = Some b ->
  Q tt (kp s (set_pcbs (<[a := set_p_uc (uc_set_reg0 v (p_uc b)) b]> (st_pcbs st)) st) sc t) ->
  wp (set_reg0 a v) Q (kp s st sc t).
Proof. intros Hb HQ. unfold set_reg0. wp_step. eapply wp_update; [exact Hb|exact HQ]. Qed.

(** The result of a call in the user's register 0. *)
Definition result_is (st : store) (uc : addr) (v : Z) : Prop :=
  (fun b => uc_reg0 (p_uc b)) <$> st_pcbs st !! uc = Some (to_u32 v).

(** The call ends: the result is set, the pipes are as before it. *)
Lemma result_kp s st sc t uc b v i bytes L R Wt S (Q : store -> Prop) :
  st_pcbs st !! uc = Some b -> pipe_world i bytes L R Wt S st sc t ->
  (forall st', pipe_world i bytes L R Wt S st' sc t -> result_is st' uc v ->
     (forall a, p_state <$> st_pcbs st' !! a = p_state <$> st_pcbs st !! a) -> Q st') ->
  wp (set_reg0 uc v) (fun _ s' => exists st', s' = kp s st' sc t /\ Q st') (kp s st sc t).
Proof.
  intros Hb Hw HQ. eapply set_reg0_kp; [exact Hb|]. eexists. split; [done|]. apply HQ.
  - eapply pipe_world_keeps; [exact Hw|]. intros l.
    by apply (keeps_update st uc b (set_p_uc (uc_set_reg0 v (p_uc b)))).
  - unfold result_is. simpl. by rewrite lookup_insert_eq.
  - intros a. simpl. destruct (decide (uc = a)) as [<-|]; [|by rewrite lookup_insert_ne].
    by rewrite lookup_insert_eq, Hb.
Qed.

(** What a write of the [len] bytes at [buf] leaves: an error and the pipe as it
    was (it could not be made larger), or all of them in the pipe. *)
Definition pipe_written (uc : addr) (i len : Z) (bytes : list Z) (tb : list pte) (m : mstate) (buf : Z)
    (L R Wt S : list addr) (st : store) (sc : sched_t) (t : pipes_t) : Prop :=
  (result_is st uc ERROR /\ pipe_world i bytes L R Wt S st sc t) \/
  (exists new, zlen new = len /\ (forall j, 0 <= j < len -> zget new j = byte_in tb m (buf + j)) /\
   result_is st uc len /\ pipe_world i (bytes ++ new) [] (R ++ L) Wt S st sc t /\
   forall a, a ∈ L -> p_state <$> st_pcbs st !! a = Some READY).

(** The last part of [PipeWrite_Impl], with room for the bytes. *)
Lemma append_and_wake_ok s c tb uc b i p bytes L R Wt S st sc t buf len :
  user_ok (set_m_store st (k_mem s)) c tb -> pipe_world i bytes L R Wt S st sc t ->
  pipe_of t i = Some p -> zlen bytes + len <= pi_cap p -> st_pcbs st !! uc = Some b -> uc ∉ L ->
  0 < len -> (forall j, 0 <= j < len -> accessible tb (buf + j) false) ->
  wp (new ← zoom (copy_from_user buf (Z.to_nat len));
      p' ← lift_opt (append_bytes new p);
      zoom (update_pipe i (fun _ => p'));;
      zoom (wake_readers i);;
      set_reg0 uc len)
    (fun _ s' => exists st' sc' t' new, s' = kp s st' sc' t' /\ zlen new = len /\
      (forall j, 0 <= j < len -> zget new j = byte_in tb (k_mem s) (buf + j)) /\
      (forall j, j <> i -> pipe_of t' j = pipe_of t j) /\
      result_is st' uc len /\ pipe_world i (bytes ++ new) [] (R ++ L) Wt S st' sc' t' /\
      forall a, a ∈ L -> p_state <$> st_pcbs st' !! a = Some READY) (kp s st sc t).
Proof.
  intros Hu [Hok (p' & Hp & Hr & Hq) Hinv Hap He] Hp' Hcap Hb HucL Hlen Hacc.
  assert (p' = p) as -> by congruence. clear Hp'.
  destruct (copy_from_user_ok _ c tb false (Z.to_nat len) buf Hu) as (new & Hcopy & Hnlen & Hnew);
    [intros; apply Hacc; lia|].
  rewrite Z2Nat.id in Hnew by lia. assert (zlen new = len) as Hzl by (unfold zlen; lia).
  pose proof (used_range _ _ _ _ Hp) as Hi. pose proof Hp as [Hg Huse]%used_Some.
  wp_step. eapply wp_kp_read; [exact Hcopy|].
  destruct (append_bytes_ok new p bytes Hr) as (p2 & Hp2 & Hr2 & [Hsp3 Hsp4]); [lia|].
  wp_step. eapply wp_lift_opt; [exact Hp2|]. wp_step. apply wp_kp.
  rewrite <- (pipe_tab_same i p t Hg) at 1. apply (wp_update_pipe i t Hi). cbn [fst snd].
  wp_step. apply wp_kp. rewrite <- Hsp4 in Hq.
  eapply wp_mono; [by apply (wake_readers_ok i t st sc p2 L R Wt S)|].
  intros [] s2 (st2 & sc2 & q & -> & Hq3 & Hinv2 & Hid2 & Hready & Hrest). cbn [fst snd].
  assert (exists b2, st_pcbs st2 !! uc = Some b2) as [b2 Hb2].
  { specialize (Hrest uc HucL). rewrite Hb in Hrest. destruct (st_pcbs st2 !! uc); [by eexists|done]. }
  assert (pi_in_use (set_pi_readers q p2) = true) as Huse3 by (simpl; congruence).
  destruct (pipes_ok_update i p (set_pi_readers q p2) t Hok Hp Huse3) as [Hok3 Hof3].
  eapply wp_mono; [eapply (result_kp s st2 sc2 _ uc b2 len i (bytes ++ new) [] (R ++ L) Wt S
    (fun st' => pipe_world i (bytes ++ new) [] (R ++ L) Wt S st' sc2 (pipe_tab i (set_pi_readers q p2) t) /\
       result_is st' uc len /\ forall a, a ∈ L -> p_state <$> st_pcbs st' !! a = Some READY))|].
  - done.
  - split; try done; [|by intros a ?%not_elem_of_nil]. exists (set_pi_readers q p2).
    split; [rewrite Hof3; by rewrite decide_True|]. split; [|done].
    destruct Hr2 as [? ? ? ? ? Hbytes]. by split.
  - intros st' Hw' Hres Hst. split; [done|]. split; [done|]. intros a Ha. rewrite Hst. by apply Hready.
  - intros [] s' (st' & -> & Hw' & Hres & Hst). exists st', sc2, (pipe_tab i (set_pi_readers q p2) t), new.
    split_and!; try done. intros j Hj. by rewrite Hof3, decide_False.
Qed.

Lemma PipeWrite_Impl_ok s c tb uc b i bytes L R Wt S :
  let u := p_uc b in
  user_ok (k_mem s) c tb ->
  pipe_world i bytes L R Wt S (k_store s) (k_sched s) (k_pipes s) ->
  st_pcbs (k_store s) !! uc = Some b -> uc ∉ L ->
  IS_PIPE_ID (reg0_int u) = true -> GET_ID (reg0_int u) = i -> uc_reg1 u <> 0 -> 0 < reg2_int u ->
  (forall j, 0 <= j < reg2_int u -> accessible tb (uc_reg1 u + j) false) ->
  wp (PipeWrite_Impl uc) (fun _ s' => exists st' sc' t', s' = kp s st' sc' t' /\
    (forall j, j <> i -> pipe_of t' j = pipe_of (k_pipes s) j) /\
    pipe_written uc i (reg2_int u) bytes tb (k_mem s) (uc_reg1 u) L R Wt S st' sc' t') s.
Proof.
  intros u Hu Hw Hb HucL Hid Hget Hbuf Hlen Hacc.
  unfold PipeWrite_Impl. rewrite <- (kp_same s) at 1. wp_step. eapply get_uc_kp; [exact Hb|].
  change (p_uc b) with u. rewrite Hid, Hget. rewrite (proj2 (Z.eqb_neq _ _) Hbuf), (proj2 (Z.ltb_ge _ _)) by lia.
  cbn [negb orb]. rewrite (proj2 (Z.eqb_neq _ _)) by lia.
  destruct Hw as [Hok (p & Hp & Hr & Hq) Hinv Hap He].
  pose proof (used_range _ _ _ _ Hp) as Hi. pose proof Hp as [Hg Huse]%used_Some.
  set (st := k_store s) in *. set (sc := k_sched s) in *. set (t := k_pipes s) in *.
  wp_step. apply wp_kp. eapply wp_mono; [by eapply get_pipe_here|].
  intros ? ? [-> ->]. cbn [fst snd].
  wp_step. apply wp_kp. rewrite <- (pipe_tab_same i p t Hg) at 1. apply (wp_load_pipe i t Hi). cbn [fst snd].
  wp_step. apply wp_kp_store. pose proof (pr_len _ _ Hr) as Hpl. pose proof (zlen_nonneg bytes).
  eapply wp_mono; [apply (ensure_capacity_ok st p bytes _ Hr); lia|].
  intros [ok p1] st1 ((Hsb & _ & _) & [Hsp1 Hsp2] & Hr1 & Hcap). cbn [fst snd] in *.
  wp_step. apply wp_kp. apply (wp_update_pipe i t Hi). cbn [fst snd].
  assert (pi_in_use p1 = true) as Huse1 by congruence.
  destruct (pipes_ok_update i p p1 t Hok Hp Huse1) as [Hok1 Hof1].
  assert (pipe_of (pipe_tab i p1 t) i = Some p1) as Hp1 by (rewrite Hof1; by rewrite decide_True).
  assert (forall j, j <> i -> pipe_of (pipe_tab i p1 t) j = pipe_of t j) as Hrest1
    by (intros; by rewrite Hof1, decide_False).
  assert (pipe_world i bytes L R Wt S st1 sc (pipe_tab i p1 t)) as Hw1.
  { apply (pipe_world_keeps i bytes L R Wt S st); [|intros; by apply keeps_same]. split; try done.
    exists p1. split; [done|]. split; [done|]. by rewrite Hsp2. }
  assert (st_pcbs st1 !! uc = Some b) as Hb1 by (by rewrite Hsb).
  destruct ok; cbn [negb].
  - eapply wp_mono; [eapply (append_and_wake_ok s c tb uc b i p1 bytes L R Wt S st1 sc); try done|].
    + by apply user_ok_blocks.
    + lia.
    + intros [] s' (st' & sc' & t' & new & -> & Hzl & Hnew & Hrest & Hres & Hw' & Hready).
      exists st', sc', t'. split; [done|]. split; [intros; by rewrite Hrest, Hrest1|]. right. by exists new.
  - eapply wp_mono; [eapply (result_kp s st1 sc _ uc b ERROR i bytes L R Wt S
      (fun st' => pipe_world i bytes L R Wt S st' sc (pipe_tab i p1 t) /\ result_is st' uc ERROR)); auto|].
    intros [] s' (st' & -> & Hw' & Hres). exists st', sc, (pipe_tab i p1 t).
    split; [done|]. split; [done|]. left; by split.
Qed.

(** The state [s] with other contents of physical memory. *)
Definition with_memory (m : Z -> Z -> Z) (s : kstate) : kstate := set_k_mem (set_m_pmem m (k_mem s)) s.

(** What reading up to [len] bytes into the buffer [buf] leaves, when there are some. *)
Definition pipe_was_read (uc : addr) (i len : Z) (bytes : list Z) (tb : list pte) (buf : Z)
    (R Wt S : list addr) (s s' : kstate) : Prop :=
  let got := take (Z.to_nat len) bytes in
  result_is (k_store s') uc (zlen got) /\
  pipe_world i (drop (Z.to_nat len) bytes) [] R Wt S (k_store s') (k_sched s') (k_pipes s') /\
  (forall j, 0 <= j < zlen got -> byte_in tb (k_mem s') (buf + j) = zget got j) /\
  (forall f o, (forall j, 0 <= j < zlen got -> location tb (buf + j) <> Some (f, o)) ->
     m_pmem (k_mem s') f o = m_pmem (k_mem s) f o) /\
  (forall j, j <> i -> pipe_of (k_pipes s') j = pipe_of (k_pipes s) j).

Lemma pipe_read_some_ok s c tb uc b i buf len bytes L R Wt S :
  user_ok (k_mem s) c tb ->
  pipe_world i bytes L R Wt S (k_store s) (k_sched s) (k_pipes s) -> bytes <> [] ->
  st_pcbs (k_store s) !! uc = Some b -> 0 < len ->
  (forall j, 0 <= j < len -> accessible tb (buf + j) true) ->
  wp (pipe_read_loop uc i buf len) (fun f s' => f = Returned /\
    pipe_was_read uc i len bytes tb buf R Wt S s s') s.
Proof.
  intros Hu [Hok (p & Hp & Hr & Hq) Hinv Hap He] Hne Hb Hlen Hacc.
  assert (L = []) as -> by (destruct L; [done|]; by destruct Hne; apply He).
  pose proof (used_range _ _ _ _ Hp) as Hi. pose proof Hp as [Hg Huse]%used_Some.
  unfold pipe_read_loop. rewrite <- (kp_same s) at 1.
  set (st := k_store s) in *. set (sc := k_sched s) in *. set (t := k_pipes s) in *.
  wp_step. apply wp_kp. eapply wp_mono; [by eapply get_pipe_here|]. intros ? ? [-> ->]. cbn [fst snd].
  wp_step. apply wp_kp. rewrite <- (pipe_tab_same i p t Hg) at 1. apply (wp_load_pipe i t Hi). cbn [fst snd].
  rewrite (pipe_tab_same i p t Hg).
  pose proof (pr_len _ _ Hr) as Hpl. rewrite (proj2 (Z.eqb_neq _ _)).
  2: { rewrite Hpl. unfold zlen. by destruct bytes. }
  destruct (read_bytes_ok p bytes len Hr) as (p2 & Hread & Hr2 & [Hsp1 Hsp2]); [lia|].
  wp_step. eapply wp_lift_opt; [exact Hread|]. cbn [fst snd]. set (got := take (Z.to_nat len) bytes).
  assert (zlen got <= len) as Hgot by (unfold got, zlen; rewrite length_take; lia).
  destruct (copy_to_user_ok c tb got _ buf (user_ok_blocks s c tb st Hu eq_refl)) as (m & Hcopy & Hm).
  { intros j Hj. apply Hacc. lia. }
  wp_step. wp_step. unfold wp at 1. change (lget _) with (set_m_store st (k_mem s)). rewrite Hcopy.
  change (lset _ _) with (kp (with_memory m s) st sc t).
  wp_step. apply wp_kp. rewrite <- (pipe_tab_same i p t Hg) at 1. apply (wp_update_pipe i t Hi). cbn [fst snd].
  assert (pi_in_use p2 = true) as Huse2 by congruence.
  destruct (pipes_ok_update i p p2 t Hok Hp Huse2) as [Hok2 Hof2].
  wp_step. eapply wp_mono; [eapply (result_kp (with_memory m s) st sc _ uc b (zlen got) i
    (drop (Z.to_nat len) bytes) [] R Wt S (fun st' => result_is st' uc (zlen got) /\
      pipe_world i (drop (Z.to_nat len) bytes) [] R Wt S st' sc (pipe_tab i p2 t)))|].
  - done.
  - split; try done. exists p2. split; [rewrite Hof2; by rewrite decide_True|]. split; [done|]. by rewrite Hsp2.
  - done.
  - intros [] s' (st' & -> & Hres & Hw'). wp_step. split; [done|].
    split; [exact Hres|]. split; [exact Hw'|]. split; [|split].
    + intros j Hj.
      pose proof (byte_in_written (m_frames (k_mem s)) tb got buf (k_mem s) j (m_pmem (k_mem s)) (uo_ok _ _ _ Hu)) as E.
      specialize (E ltac:(intros; apply Hacc; lia) Hj). etrans; [|exact E]. unfold byte_in.
      destruct (location tb (buf + j)) as [[f o]|]; [|done]. simpl. f_equal. apply Hm.
    + intros f o Hout. simpl. rewrite Hm. by apply written_other.
    + intros j Hj. simpl. by rewrite Hof2, decide_False.
Qed.

(** A reader joins the queue of the pipe. *)
Lemma readq_push_ok i p q L st sc t :
  zget (pipes t) i = Some q -> fifo_repr st (pi_readers q) L -> p ∉ L -> is_Some (st_pcbs st !! p) ->
  wp (readq_push i p) (fun _ x => exists st' q', x = ((st', sc), pipe_tab i (set_pi_readers q' q) t) /\
    fifo_repr st' q' (L ++ [p]) /\ next_only st st' (p :: L)) ((st, sc), t).
Proof.
  intros Hg Hf Hp Hlive. pose proof (zget_Some _ _ _ Hg) as Hi.
  unfold readq_push. rewrite <- (pipe_tab_same i q t Hg) at 1. wp_step. apply (wp_load_pipe i t Hi).
  wp_step. wp_step. change (lget _) with st. eapply wp_mono; [by apply (push_ok st (pi_readers q) L)|].
  intros q' st' [Hq' Hn]. change (lset st' _) with ((st', sc), pipe_tab i q t).
  apply (wp_update_pipe i t Hi). by exists st', q'.
Qed.

(** An empty pipe: the reader waits behind the others. *)
Lemma pipe_read_none_ok s kc' p i buf len b idle L R Wt S :
  pipe_world i [] L R Wt S (k_store s) (k_sched s) (k_pipes s) ->
  running_proc (k_sched s) = Some p -> idle_proc (k_sched s) = Some idle ->
  st_pcbs (k_store s) !! p = Some b -> p ∉ L ++ R ++ Wt ++ S -> p <> idle ->
  switchable (k_store s) kc' (next_of idle R) ->
  zlen (m_region0_pt (k_mem s)) = REGION0_VPNS ->
  wp (pipe_read_loop p i buf len) (fun f s' => f = Switched kc' /\
    pipe_world i [] (L ++ [p]) (tail R) Wt S (k_store s') (k_sched s') (k_pipes s') /\
    p_kc <$> st_pcbs (k_store s') !! p = Some (KC_pipe_read i buf len) /\
    p_state <$> st_pcbs (k_store s') !! p = Some WAITING /\
    running_proc (k_sched s') = Some (next_of idle R) /\
    m_mem_ctx (k_mem s') = Some (next_of idle R) /\
    m_pmem (k_mem s') = m_pmem (k_mem s) /\
    (forall j, j <> i -> pipe_of (k_pipes s') j = pipe_of (k_pipes s) j)) s.
Proof.
  intros [Hok (q & Hq & Hr & Hf) Hinv Hap He] Hrun Hidle Hb Hp Hpi Hsw Ht.
  pose proof (used_range _ _ _ _ Hq) as Hi. pose proof Hq as [Hg Huse]%used_Some.
  unfold pipe_read_loop. rewrite <- (kp_same s) at 1.
  set (st := k_store s) in *. set (sc := k_sched s) in *. set (t := k_pipes s) in *.
  wp_step. apply wp_kp. eapply wp_mono; [by eapply get_pipe_here|]. intros ? ? [-> ->]. cbn [fst snd].
  wp_step. apply wp_kp. rewrite <- (pipe_tab_same i q t Hg) at 1. apply (wp_load_pipe i t Hi). cbn [fst snd].
  rewrite (pipe_tab_same i q t Hg). rewrite (pr_len _ _ Hr). change (zlen [] =? 0) with true. cbv iota.
  wp_step. unfold running. wp_step. wp_step. unfold get_running_proc. wp_step.
  eapply wp_lift_opt; [exact Hrun|]. change (lset _ _) with (kp s st sc t).
  assert (p ∉ L /\ p ∉ R ++ Wt ++ S) as [HpL HpR] by (rewrite elem_of_app in Hp; tauto).
  wp_step. apply wp_kp. eapply wp_mono; [by eapply readq_push_ok|].
  intros [] x (st1 & q1 & -> & Hf1 & Hn1). cbn [fst snd].
  destruct (next_only_block _ _ _ _ _ Hn1 Hb) as [n Hb1]. set (b1 := set_p_next n b) in *.
  wp_step. apply wp_kp_store. eapply wp_update; [exact Hb1|].
  set (st2 := set_pcbs _ st1).
  assert (forall l, keeps st1 st2 l) as Hk2 by (intros; by apply (keeps_update _ p b1 (set_p_state WAITING))).
  assert (forall a, a ∈ R ++ Wt ++ S -> a ∉ p :: L) as Hout.
  { intros a Ha [->|HaL]%elem_of_cons; [done|]. by destruct (Hap a HaL). }
  assert (next_of idle R ∉ p :: L) as Hnext.
  { destruct R as [|r R]; simpl; [|apply Hout; set_solver].
    intros [->|HiL]%elem_of_cons; [done|]. by destruct (Hap idle HiL). }
  assert (sched_inv (st2, sc) R Wt S) as Hinv2.
  { eapply sched_inv_keeps; [|apply Hk2]. eapply sched_inv_keeps; [done|]. by eapply keeps_next_only. }
  assert (next_of idle R <> p) as Hne by set_solver.
  eapply wp_mono; [apply (switch_away_ok (KC_pipe_read i buf len) kc' p idle R Wt S)|].
  - exact Hinv2.
  - done.
  - congruence.
  - exists (set_p_state WAITING b1). apply lookup_insert_eq.
  - destruct Hsw as (bn & ks & Hbn & Hks). exists bn, ks. split; [|done].
    change (k_store (kp s st2 sc _)) with st2. unfold st2. simpl. rewrite lookup_insert_ne by congruence.
    rewrite (no_out _ _ _ Hn1); [done|exact Hnext].
  - exact Ht.
  - intros f s' [-> [Hr' Hid' _ Hs' (Hp' & Ho' & Hn') [Hc' _ _ _ _ (_ & Hm' & _)] (_ & Hpi' & _)]].
    change (k_store (kp s st2 sc _)) with st2 in *.
    assert (st_pcbs st2 !! p = Some (set_p_state WAITING b1)) as Hb2 by apply lookup_insert_eq.
    rewrite Hb2 in Hp'. destruct (pipes_ok_update i q (set_pi_readers q1 q) t Hok Hq Huse) as [Hok2 Hof2].
    split; [done|]. split.
    2: { rewrite Hp'. split_and!; try done. intros j Hj. rewrite Hpi'. simpl. by rewrite Hof2, decide_False. }
    rewrite Hpi'. split; simpl; try done.
    + exists (set_pi_readers q1 q). split; [rewrite Hof2; by rewrite decide_True|].
      split; [by destruct Hr; split|]. eapply fifo_repr_keeps; [eapply fifo_repr_keeps; [exact Hf1|apply Hk2]|].
      intros a ba Ha Hba. destruct (decide (a = p)) as [->|Hap'].
      * rewrite Hb2 in Hba. injection Hba as <-. eexists. split; [exact Hp'|done].
      * exists ba. rewrite Ho' by set_solver. done.
    + intros a Ha. rewrite Hid'. apply elem_of_app in Ha as [Ha| ->%list_elem_of_singleton].
      * destruct (Hap a Ha) as [Ha1 Ha2]. split; [destruct R; set_solver|congruence].
      * split; [destruct R; set_solver|congruence].
Qed.
End calls.

(** ** Properties *)
Section checked.
Context {hw : Machine} {hw_ok : MachineOk}.

(** The user's buffer is as the call needs it. *)
Definition good_buffer (tb : list pte) (u : UserContext) (w : bool) : Prop :=
  uc_reg1 u <> 0 /\ forall j, 0 <= j < reg2_int u -> accessible tb (to_i32 (uc_reg1 u) + j) w.

Lemma with_buffer_ok s c tb uc b w (call : M kstate flow) Q :
  user_ok (k_mem s) c tb -> st_pcbs (k_store s) !! uc = Some b ->
  (good_buffer tb (p_uc b) w -> wp call Q s) ->
  (~ good_buffer tb (p_uc b) w -> wp (returning (set_reg0 uc ERROR)) Q s) ->
  wp (with_buffer uc w call) Q s.
Proof.
  intros Hu Hb Hgood Hbad. unfold with_buffer.
  destruct (check_c_buf_ok (k_mem s) c tb (uc_reg1 (p_uc b)) (reg2_int (p_uc b)) w Hu) as (ok & Hrun & Hok).
  rewrite <- (kp_same s). rewrite <- (kp_same s) in Hgood, Hbad.
  wp_step. eapply get_uc_kp; [exact Hb|]. wp_step. eapply (wp_kp_read _ ok).
  - replace (set_m_store (k_store s) (k_mem s)) with (k_mem s) by (by destruct s as [[] ? ? ? ?]). exact Hrun.
  - destruct ok; [by apply Hgood, Hok|]. apply Hbad. intros Hg. apply Hok in Hg. done.
Qed.

(** A call refused for its buffer changes the result only. *)
Lemma refused_call s uc b i bytes L R Wt S :
  pipe_world i bytes L R Wt S (k_store s) (k_sched s) (k_pipes s) -> st_pcbs (k_store s) !! uc = Some b ->
  wp (returning (set_reg0 uc ERROR)) (fun f s' => f = Returned /\ exists st, s' = kp s st (k_sched s) (k_pipes s) /\
    result_is st uc ERROR /\ pipe_world i bytes L R Wt S st (k_sched s) (k_pipes s)) s.
Proof.
  intros Hw Hb. unfold returning. wp_step. rewrite <- (kp_same s) at 1.
  eapply wp_mono; [eapply (result_kp s _ _ _ uc b ERROR i bytes L R Wt S
    (fun st => result_is st uc ERROR /\ pipe_world i bytes L R Wt S st (k_sched s) (k_pipes s))); auto|].
  intros [] s' (st & -> & Hres & Hw'). wp_step. split; [done|]. by exists st.
Qed.
End checked.


(** C22: reading from a pipe is refused, and changes no pipe, when a byte of the
    user's buffer may not be written.  Otherwise, if the pipe holds bytes, the
    call returns at once with the smaller of the length asked for and the bytes
    there: these are the oldest ones, in order, they are in the user's buffer
    and gone from the pipe, and no other byte of memory changes.  If the pipe
    is empty, the caller waits behind the other readers, with the same read
    left to do, and the next process runs. *)
Theorem pipe_read_takes {hw : Machine} {hw_ok : MachineOk} (s : kstate) (c : mem_ctx_t) (tb : list pte)
    (kc' : kcontext) (p idle : addr) (b : pcb) (i : Z) (bytes : list Z) (L R Wt S : list addr) :
  let u := p_uc b in
  user_ok (k_mem s) c tb -> pipe_world i bytes L R Wt S (k_store s) (k_sched s) (k_pipes s) ->
  running_proc (k_sched s) = Some p -> idle_proc (k_sched s) = Some idle ->
  st_pcbs (k_store s) !! p = Some b -> p ∉ L ++ R ++ Wt ++ S -> p <> idle ->
  switchable (k_store s) kc' (match R with [] => idle | r :: _ => r end) ->
  zlen (m_region0_pt (k_mem s)) = REGION0_VPNS ->
  IS_PIPE_ID (reg0_int u) = true -> GET_ID (reg0_int u) = i -> 0 <= uc_reg1 u < 4294967296 ->
  0 < reg2_int u ->
  exists f s', KernelPipeRead p s = Some (f, s') /\
    ((~ good_buffer tb u true /\ f = Returned /\ result_is (k_store s') p ERROR /\
        pipe_world i bytes L R Wt S (k_store s') (k_sched s') (k_pipes s')) \/
     (good_buffer tb u true /\ bytes <> [] /\ f = Returned /\
        pipe_was_read p i (reg2_int u) bytes tb (uc_reg1 u) R Wt S s s') \/
     (good_buffer tb u true /\ bytes = [] /\ f = Switched kc' /\
        pipe_world i [] (L ++ [p]) (tail R) Wt S (k_store s') (k_sched s') (k_pipes s') /\
        p_kc <$> st_pcbs (k_store s') !! p = Some (KC_pipe_read i (uc_reg1 u) (reg2_int u)) /\
        p_state <$> st_pcbs (k_store s') !! p = Some WAITING /\
        running_proc (k_sched s') = Some (match R with [] => idle | r :: _ => r end) /\
        m_pmem (k_mem s') = m_pmem (k_mem s))).
Proof.
  intros u Hu Hw Hrun Hidle Hb Hp Hpi Hsw Ht Hid Hget Hreg Hlen.
  apply wp_run. unfold KernelPipeRead. eapply with_buffer_ok; [done|done| |]; fold u.
  - intros Hgood. pose proof Hgood as [Hnz Hacc].
    assert (forall Q, wp (pipe_read_loop p i (uc_reg1 u) (reg2_int u)) Q s -> wp (PipeRead_Impl p) Q s) as Hloop.
    { intros Q HQ. unfold PipeRead_Impl. rewrite <- (kp_same s) in HQ |- *. wp_step.
      eapply get_uc_kp; [exact Hb|]. fold u.
      rewrite Hid, Hget, (proj2 (Z.eqb_neq _ _) Hnz), (proj2 (Z.ltb_ge _ _)) by lia. cbn [negb orb].
      by rewrite (proj2 (Z.eqb_neq _ _)) by lia. }
    apply Hloop. destruct (decide (bytes = [])) as [->|Hne].
    + eapply wp_mono; [by eapply pipe_read_none_ok|].
      intros f s' (-> & Hw' & Hkc & Hst & Hr' & _ & Hm & _). right; right. by split_and!.
    + eapply wp_mono; [eapply (pipe_read_some_ok s c tb p b); try done; by apply checked_accessible|].
      intros f s' [-> Hres]. right; left. by split_and!.
  - intros Hbad. eapply wp_mono; [by eapply refused_call|].
    intros f ? (-> & st & -> & Hres & Hw'). left. by split_and!.
Qed.

(** The running process writes four bytes of its data page, and reads from the
    empty pipe. *)
Definition demo_pipe_uc : UserContext := demo_uc (CREATE_ID PIPE_FLAG 0) 275 4.
Lemma demo_pipe_world (u : UserContext) :
  pipe_world 0 [] [] [3%positive] [] [] (demo_kstore u) demo_ksched demo_kpipes.
Proof.
  split.
  - split; simpl; try done. intros i Hi. assert (i = 0) as -> by lia. by eexists.
  - exists (@fresh_pipe demo_machine). split; [done|]. split; [|apply fifo_repr_empty].
    apply (@fresh_pipe_repr demo_machine demo_machine_ok).
  - apply demo_kernel_sched.
  - by intros a ?%not_elem_of_nil.
  - done.
Defined.


Lemma pipe_read_takes_witness :
  exists s', @KernelPipeRead demo_machine 2 (demo_kernel_state demo_pipe_uc) = Some (Switched KC_return, s') /\
    running_proc (k_sched s') = Some 3%positive.
Proof.
  destruct (@pipe_read_takes demo_machine demo_machine_ok (demo_kernel_state demo_pipe_uc) _ _ KC_return 2 1
    (demo_uc_proc demo_pipe_uc) 0 [] [] [3%positive] [] []
    (demo_kernel_user_ok _) (demo_pipe_world _) eq_refl eq_refl eq_refl ltac:(by apply (bool_decide_unpack _))
    ltac:(done) ltac:(do 2 eexists; split; [reflexivity|by split]) eq_refl eq_refl eq_refl
    ltac:(done) ltac:(done)) as (f & s' & Hrun & Hres).
  assert (f = Switched KC_return) as -> by (vm_compute in Hrun; by injection Hrun).
  exists s'. split; [exact Hrun|].
  destruct Hres as [(_ & ? & _)|[(_ & Hne & _)|(_ & _ & _ & _ & _ & _ & Hr & _)]]; [done|by destruct Hne|exact Hr].
Defined.
