(* ===== verification/TtyWorld.v ===== *)
(** * Terminals, from the call of the user to its result

    [KernelTtyRead] and [KernelTtyWrite] on one terminal in the state of the
    kernel: the buffer of the user, the lines and queues of the terminal, the
    device and the scheduler together.  The traps of the device are in
    [Terminals]. *)

From S2P Require Import Prelude Machine Pcb FrameTracking Paging KernelMemory UserMemory Fifo SleepHeap Scheduler PipeBuffer PipeTable Locks Terminals Kernel DemoKernel Switching PipeCalls TtyCalls Synchronization LoadProgram Syscalls UserBuffers PipeWorld.

(** ** Definitions *)

(** The state [s] with another heap, scheduler, log of the devices and
    terminals. *)
Definition kt (s : kstate) (st : store) (sc : sched_t) (evs : list hw_event) (ts : list tty_state_t) : kstate :=
  {| k_mem := set_m_events evs (set_m_store st (k_mem s)); k_sched := sc; k_sync := k_sync s;
     k_pipes := k_pipes s; k_ttys := ts |}.

Section worlds.
Context {hw : Machine}.

(** [wr] write to the terminal: the first of them is sending, the others wait. *)
Definition outgoing (st : store) (t : tty_state_t) (wr : list addr) : Prop :=
  match wr with
  | [] => tx_owner t = None /\ fifo_repr st (w_queue t) []
  | p :: W => exists bytes k, sending st t p bytes k W
  end.

(** The terminal has the unread [lines], and [rd] wait to read. *)
Record tty_at (st : store) (t : tty_state_t) (lines : list (list Z)) (wr rd : list addr) : Prop := {
  ta_lines : unread (rx_lines t) = lines;
  ta_ok : Forall line_ok (rx_lines t);
  ta_out : outgoing st t wr;
  ta_in : fifo_repr st (r_queue t) rd
}.

(** The same of the terminal [i] of the kernel, whose processes wait nowhere
    else. *)
Record tty_world (i : Z) (lines : list (list Z)) (wr rd R Wt S : list addr) (st : store) (sc : sched_t)
    (ts : list tty_state_t) : Prop := {
  tw_num : zlen ts = NUM_TERMINALS;
  tw_tty : exists t, zget ts i = Some t /\ tty_at st t lines wr rd;
  tw_sched : sched_inv (st, sc) R Wt S;
  tw_apart : forall a, a ∈ wr ++ rd -> a ∉ R ++ Wt ++ S /\ idle_proc sc <> Some a;
  tw_nodup : NoDup (wr ++ rd)
}.
End worlds.

(** ** Lemmas *)
Lemma kt_same s : kt s (k_store s) (k_sched s) (m_events (k_mem s)) (k_ttys s) = s.
Proof. by destruct s as [[] ? ? ? ?]. Qed.
Lemma wp_kt {A} (m : M tty_st A) Q s st sc evs ts :
  wp m (fun a x => Q a (kt s x.1.1.1 x.1.1.2 x.1.2 x.2)) (((st, sc), evs), ts) -> wp (zoom m) Q (kt s st sc evs ts).
Proof. intros Hm. wp_step. exact Hm. Qed.
Lemma wp_kt_store {A} (m : M store A) Q s st sc evs ts :
  wp m (fun a st' => Q a (kt s st' sc evs ts)) st -> wp (zoom m) Q (kt s st sc evs ts).
Proof. intros Hm. wp_step. exact Hm. Qed.
Lemma wp_kt_running s st sc evs ts p Q :
  running_proc sc = Some p -> Q p (kt s st sc evs ts) -> wp running Q (kt s st sc evs ts).
Proof.
  intros Hr HQ. unfold running. wp_step. unfold get_running_proc. wp_step. by eapply wp_lift_opt.
Qed.
Lemma get_uc_kt s st sc evs ts a b Q :
  st_pcbs st !! a = Some b -> Q (p_uc b) (kt s st sc evs ts) -> wp (get_uc a) Q (kt s st sc evs ts).
Proof. intros Hb HQ. unfold get_uc. wp_step. apply wp_kt_store. eapply wp_load; [exact Hb|]. by wp_step. Qed.
Lemma set_reg0_kt s st sc evs ts a b v Q :
  st_pcbs st !! a = Some b ->
  Q tt (kt s (set_pcbs (<[a := set_p_uc (uc_set_reg0 v (p_uc b)) b]> (st_pcbs st)) st) sc evs ts) ->
  wp (set_reg0 a v) Q (kt s st sc evs ts).
Proof. intros Hb HQ. unfold set_reg0. wp_step. eapply wp_update; [exact Hb|exact HQ]. Qed.

(** What the queues of a terminal and of the scheduler see of a block. *)
Definition io_part (b : pcb) := (p_next b, p_wake_up b, p_io_kbuf b, p_io_total b, p_io_sent b).
Definition io_same (st st' : store) (l : list addr) : Prop :=
  forall a, a ∈ l -> io_part <$> st_pcbs st' !! a = io_part <$> st_pcbs st !! a.

Lemma io_same_block st st' l a b :
  io_same st st' l -> a ∈ l -> st_pcbs st !! a = Some b -> exists b', st_pcbs st' !! a = Some b' /\ io_part b' = io_part b.
Proof. intros Hs Ha Hb. specialize (Hs a Ha). rewrite Hb in Hs. by apply fmap_Some in Hs as (b' & ? & ?); exists b'. Qed.
Lemma io_same_keeps st st' l l' : io_same st st' l -> l' ⊆ l -> keeps st st' l'.
Proof.
  intros Hs Hl a b Ha Hb. destruct (io_same_block _ _ _ a b Hs (Hl a Ha) Hb) as (b' & Hb' & E).
  exists b'. injection E. auto.
Qed.
Lemma io_same_writer st st' l p bytes k : io_same st st' l -> p ∈ l -> writer st p bytes k -> writer st' p bytes k.
Proof.
  intros Hs Hp (b & Hb & H1 & H2 & H3). destruct (io_same_block _ _ _ _ _ Hs Hp Hb) as (b' & Hb' & E).
  injection E as _ _ E1 E2 E3. exists b'. by rewrite E1, E2, E3.
Qed.
Lemma io_same_update st p b f : st_pcbs st !! p = Some b -> io_part (f b) = io_part b ->
  forall l, io_same st (set_pcbs (<[p := f b]> (st_pcbs st)) st) l.
Proof.
  intros Hb E l a _. simpl. destruct (decide (p = a)) as [<-|]; [|by rewrite lookup_insert_ne].
  rewrite lookup_insert_eq, Hb. simpl. by rewrite E.
Qed.
Lemma io_same_other st p b l : p ∉ l -> io_same st (set_pcbs (<[p := b]> (st_pcbs st)) st) l.
Proof. intros Hp a Ha. simpl. rewrite lookup_insert_ne; [done|]. by intros ->. Qed.

Section calls.
Context {hw : Machine} {hw_ok : MachineOk}.

Lemma outgoing_same st st' t wr : outgoing st t wr -> io_same st st' wr -> outgoing st' t wr.
Proof.
  destruct wr as [|p W]; simpl.
  - intros [Ho Hq] _. split; [done|]. eapply fifo_repr_keeps; [exact Hq|]. by intros a b ?%not_elem_of_nil.
  - intros (bytes & k & [H1 H2 H3 H4 H5 H6]) Hs. exists bytes, k. split; try done.
    + eapply io_same_writer; [exact Hs|left|exact H2].
    + eapply fifo_repr_keeps; [exact H5|]. eapply io_same_keeps; [exact Hs|]. set_solver.
    + intros w Hw. destruct (H6 w Hw) as (bs & Hbs & ?). exists bs. split; [|done].
      eapply io_same_writer; [exact Hs|by right|exact Hbs].
Qed.
Lemma tty_at_same st st' t lines wr rd : tty_at st t lines wr rd -> io_same st st' (wr ++ rd) -> tty_at st' t lines wr rd.
Proof.
  intros [H1 H2 H3 H4] Hs. split; try done.
  - eapply outgoing_same; [exact H3|]. intros a Ha. apply Hs, elem_of_app. by left.
  - eapply fifo_repr_keeps; [exact H4|]. eapply io_same_keeps; [exact Hs|]. set_solver.
Qed.
Lemma user_ok_kt s c tb st sc evs ts :
  user_ok (k_mem s) c tb -> st_pcbs st = st_pcbs (k_store s) -> user_ok (k_mem (kt s st sc evs ts)) c tb.
Proof.
  intros [Hc Ht Hok] E. split; [|done|done]. unfold current_ctx in *. simpl. unfold k_store in E. by rewrite E.
Qed.
Lemma zget_tab i ts t : 0 <= i < zlen ts -> zget (tty_tab i ts t) i = Some t.
Proof. intros Hi. unfold tty_tab. by apply zget_insert_eq. Qed.
Lemma zlen_tab i ts t : zlen (tty_tab i ts t) = zlen ts.
Proof. unfold tty_tab. apply zlen_insert. Qed.

Lemma outgoing_lines st t wr ls : outgoing st t wr -> outgoing st (set_rx_lines ls t) wr.
Proof. destruct wr as [|p W]; [done|]. intros (bytes & k & [H1 H2 H3 H4 H5 H6]). by exists bytes, k. Qed.
Lemma outgoing_readers st t wr q : outgoing st t wr -> outgoing st (set_r_queue q t) wr.
Proof. destruct wr as [|p W]; [done|]. intros (bytes & k & [H1 H2 H3 H4 H5 H6]). by exists bytes, k. Qed.
Lemma io_same_next_only st st' X l : next_only st st' X -> (forall a, a ∈ l -> a ∉ X) -> io_same st st' l.
Proof. intros Hn Hd a Ha. by rewrite (no_out _ _ _ Hn) by by apply Hd. Qed.

(** The writer or reader [p] has joined its queue: it waits, and the next
    process runs. *)
Lemma tty_switch s st sc evs ts i t lines wr rd p b kc kc' idle R Wt S :
  zget ts i = Some t -> zlen ts = NUM_TERMINALS -> tty_at st t lines wr rd -> sched_inv (st, sc) R Wt S ->
  (forall a, a ∈ wr ++ rd -> a ∉ R ++ Wt ++ S /\ Some idle <> Some a) -> NoDup (wr ++ rd) -> p ∈ wr ++ rd ->
  idle_proc sc = Some idle -> st_pcbs st !! p = Some b -> switchable st kc' (next_of idle R) ->
  zlen (m_region0_pt (k_mem s)) = REGION0_VPNS ->
  wp (zoom (update p (set_p_state WAITING));; switch_away kc (Some p)) (fun f s' => f = Switched kc' /\
    tty_world i lines wr rd (tail R) Wt S (k_store s') (k_sched s') (k_ttys s') /\
    st_pcbs (k_store s') !! p = Some (set_p_kc kc (set_p_state WAITING b)) /\
    running_proc (k_sched s') = Some (next_of idle R) /\
    m_pmem (k_mem s') = m_pmem (k_mem s) /\ transmitted i (m_events (k_mem s')) = transmitted i evs)
    (kt s st sc evs ts).
Proof.
  intros Hg Hnum Hat Hinv Hap Hnd Hp Hidle Hb Hsw Ht.
  assert (next_of idle R ∉ wr ++ rd) as Hnext.
  { intros Hn. destruct (Hap _ Hn) as [H1 H2]. destruct R as [|r R]; simpl in *; [done|]. apply H1. left. }
  assert (p <> next_of idle R) as Hpn by (intros ->; done).
  wp_step. apply wp_kt_store. eapply wp_update; [exact Hb|]. set (st2 := set_pcbs _ _).
  pose proof (io_same_update st p b (set_p_state WAITING) Hb eq_refl) as Hs2.
  eapply wp_mono; [apply (switch_away_ok kc kc' p idle R Wt S)|].
  - eapply sched_inv_keeps; [exact Hinv|]. eapply io_same_keeps; [apply Hs2|reflexivity].
  - exact Hidle.
  - exact Hpn.
  - eexists. apply lookup_insert_eq.
  - destruct Hsw as (bn & ks & Hbn & Hr). exists bn, ks. split; [|exact Hr].
    change (k_store (kt s st2 sc evs ts)) with st2. simpl. by rewrite lookup_insert_ne.
  - exact Ht.
  - intros f s' [-> [Hr' Hid' _ Hs' (Hp' & Ho' & Hn') [_ _ _ _ Hev (_ & Hm' & _)] (_ & _ & Ets)]].
    change (k_store (kt s st2 sc evs ts)) with st2 in *.
    assert (st_pcbs st2 !! p = Some (set_p_state WAITING b)) as Hb2 by apply lookup_insert_eq.
    rewrite Hb2 in Hp'. split; [done|]. split; [|split; [exact Hp'|split; [exact Hr'|split; [exact Hm'|by rewrite Hev]]]].
    rewrite Ets. split; [exact Hnum| |exact Hs'| |exact Hnd].
    + exists t. split; [exact Hg|]. eapply tty_at_same; [eapply tty_at_same; [exact Hat|apply Hs2]|].
      intros a Ha. destruct (decide (a = p)) as [->|Hap']; [rewrite Hp'; simpl; by rewrite lookup_insert_eq|]. rewrite Ho'; [done|done|by intros ->].
    + intros a Ha. destruct (Hap a Ha) as [H1 H2]. split; [destruct R; set_solver|by rewrite Hid'].
Qed.

(** ** Writing *)

(** The bytes of the buffer are in the block of the writer. *)
Definition loaded_writer (i : Z) (bytes : list Z) (b : pcb) : pcb :=
  set_p_io_tty_id i (set_p_io_sent 0 (set_p_io_total (zlen bytes) (set_p_io_kbuf (Some bytes) b))).

(** The writer starts, or joins the others. *)
Lemma join_writers s st sc evs ts i t lines wr rd p b bytes (Q : unit -> kstate -> Prop) :
  0 <= i < zlen ts -> zget ts i = Some t -> tty_at st t lines wr rd -> NoDup (wr ++ rd) -> p ∉ wr ++ rd ->
  st_pcbs st !! p = Some b -> writer st p bytes 0 -> 0 < zlen bytes ->
  (forall st' evs' t', tty_at st' t' lines (wr ++ [p]) rd -> next_only st st' (p :: wr) ->
     transmitted i evs' = transmitted i evs ++ (if decide (wr = []) then chunk_at bytes 0 else []) ->
     Q tt (kt s st' sc evs' (tty_tab i ts t'))) ->
  wp (match tx_owner t with
      | None => zoom (update_tty i (set_tx_owner (Some p)));; zoom (start_chunk i)
      | Some _ => zoom (wq_push i p)
      end) Q (kt s st sc evs ts).
Proof.
  intros Hi Hg [Hl Hlo Hout Hin] Hnd Hp Hb Hwr Hpos HQ. rewrite <- (tty_tab_same i ts Hi t Hg).
  apply not_elem_of_app in Hp as [HpW Hprd]. destruct wr as [|o W]; simpl in Hout.
  - destruct Hout as [-> Hq]. wp_step. apply wp_kt, wp_update_tty; [exact Hi|]. cbn [fst snd]. apply wp_kt.
    eapply wp_mono; [eapply (start_chunk_ok i ts Hi st sc evs (set_tx_owner (Some p) t) p bytes 0); [done|exact Hwr|lia]|].
    intros [] ? ->. cbn [fst snd]. apply HQ.
    + split; try done. exists bytes, 0. split; [done|exact Hwr|lia|done|exact Hq|by intros w ?%not_elem_of_nil].
    + apply next_only_refl.
    + simpl. rewrite !decide_True by done. done.
  - destruct Hout as (bo & k & [E1 E2 E3 E4 E5 E6]). rewrite E1. apply wp_kt. unfold wq_push.
    wp_step. apply wp_get_tty; [exact Hi|]. wp_step. wp_step. change (lget _) with st.
    eapply wp_mono; [apply (push_ok st (w_queue t) W p E5); [set_solver|by eexists]|].
    intros q st' [Hq Hn]. change (lset st' _) with (((st', sc), evs), tty_tab i ts t).
    apply wp_update_tty; [exact Hi|]. cbn [fst snd].
    assert (forall a, a ∈ rd -> a ∉ p :: W) as Hrd.
    { intros a Ha [->|HaW]%elem_of_cons; [done|]. apply NoDup_app in Hnd as (_ & Hnd & _).
      apply (Hnd a); [by right|exact Ha]. }
    apply HQ.
    + split; try done; [|by eapply fifo_repr_frame].
      exists bo, k. split; try done; [by eapply writer_next_only|].
      intros w [Hw| ->%list_elem_of_singleton]%elem_of_app.
      * destruct (E6 w Hw) as (bs & Hbs & ?). exists bs. split; [by eapply writer_next_only|done].
      * exists bytes. split; [by eapply writer_next_only|done].
    + eapply next_only_mono; [exact Hn|set_solver].
    + by rewrite app_nil_r.
Qed.

(** What a write of [len] bytes at [buf] leaves. *)
Definition tty_was_written (i len : Z) (lines : list (list Z)) (wr rd : list addr) (tb : list pte) (buf : Z)
    (p idle : addr) (R Wt S : list addr) (s s' : kstate) : Prop :=
  exists bytes, zlen bytes = len /\ (forall j, 0 <= j < len -> zget bytes j = byte_in tb (k_mem s) (buf + j)) /\
    tty_world i lines (wr ++ [p]) rd (tail R) Wt S (k_store s') (k_sched s') (k_ttys s') /\
    writer (k_store s') p bytes 0 /\
    transmitted i (m_events (k_mem s')) =
      transmitted i (m_events (k_mem s)) ++ (if decide (wr = []) then chunk_at bytes 0 else []) /\
    p_kc <$> st_pcbs (k_store s') !! p = Some KC_tty_write /\
    p_state <$> st_pcbs (k_store s') !! p = Some WAITING /\
    running_proc (k_sched s') = Some (next_of idle R).

Section call.
Context (s : kstate) (c : mem_ctx_t) (tb : list pte) (kc' : kcontext) (p idle : addr) (b : pcb) (i : Z)
  (lines : list (list Z)) (wr rd R Wt S : list addr).
Let u : UserContext := p_uc b.
Hypothesis Hu : user_ok (k_mem s) c tb.
Hypothesis Hw : tty_world i lines wr rd R Wt S (k_store s) (k_sched s) (k_ttys s).
Hypothesis Hrun : running_proc (k_sched s) = Some p.
Hypothesis Hidle : idle_proc (k_sched s) = Some idle.
Hypothesis Hb : st_pcbs (k_store s) !! p = Some b.
Hypothesis Hp : p ∉ (wr ++ rd) ++ R ++ Wt ++ S.
Hypothesis Hpi : p <> idle.
Hypothesis Hsw : switchable (k_store s) kc' (next_of idle R).
Hypothesis Ht : zlen (m_region0_pt (k_mem s)) = REGION0_VPNS.
Hypothesis Hid : reg0_int u = i.
Hypothesis Hi : 0 <= i < NUM_TERMINALS.
Hypothesis Hlen : 0 < reg2_int u.
Hypothesis Hbuf : uc_reg1 u <> 0.

Lemma args_fine : bad_tty_args (reg0_int u) (uc_reg1 u) (reg2_int u) = false.
Proof.
  unfold bad_tty_args. rewrite Hid, (proj2 (Z.ltb_ge _ _)), (proj2 (Z.leb_gt _ _)), (proj2 (Z.ltb_ge _ _)) by lia. simpl.
  by apply Z.eqb_neq.
Qed.
Lemma caller_apart : p ∉ wr ++ rd /\ p ∉ R ++ Wt ++ S.
Proof. rewrite elem_of_app in Hp. tauto. Qed.
Lemma next_apart : next_of idle R <> p.
Proof. destruct caller_apart as [_ H]. destruct R as [|r R']; simpl; [congruence|]. intros ->. apply H. left. Qed.

(** The caller is in the terminal's queues, and the others as before. *)
Lemma joined wr' rd' : wr' ++ rd' ≡ₚ p :: wr ++ rd ->
  NoDup (wr' ++ rd') /\ p ∈ wr' ++ rd' /\ forall a, a ∈ wr' ++ rd' -> a ∉ R ++ Wt ++ S /\ Some idle <> Some a.
Proof.
  intros E. destruct caller_apart as [H1 H2]. split; [|split].
  - rewrite E. apply NoDup_cons. split; [exact H1|apply Hw].
  - rewrite E. left.
  - intros a. rewrite E. intros [->|Ha]%elem_of_cons; [split; [exact H2|congruence]|].
    destruct (tw_apart _ _ _ _ _ _ _ _ _ _ Hw a Ha) as [? Hn]. by rewrite Hidle in Hn.
Qed.
(** From the heap of the call on, blocks of [p] and of the queue it joined
    changed. *)
Lemma switch_to_next st1 st2 X : st_pcbs st1 = <[p := default b (st_pcbs st1 !! p)]> (st_pcbs (k_store s)) ->
  p_next (default b (st_pcbs st1 !! p)) = p_next b /\ p_wake_up (default b (st_pcbs st1 !! p)) = p_wake_up b ->
  next_only st1 st2 (p :: X) -> X ⊆ wr ++ rd ->
  sched_inv (st2, k_sched s) R Wt S /\ switchable st2 kc' (next_of idle R).
Proof.
  intros E [E1 E2] Hn HX. pose proof (tw_sched _ _ _ _ _ _ _ _ _ _ Hw) as Hinv.
  assert (forall a, a ∈ R ++ Wt ++ S -> a ∉ p :: X) as Hout.
  { intros a Ha [->|HaX]%elem_of_cons; [by apply (proj2 caller_apart)|]. by destruct (tw_apart _ _ _ _ _ _ _ _ _ _ Hw a (HX a HaX)). }
  split.
  - eapply sched_inv_keeps; [|eapply keeps_next_only; [exact Hn|exact Hout]].
    eapply sched_inv_keeps; [exact Hinv|]. intros a ba Ha Hba. rewrite E. destruct (decide (p = a)) as [<-|].
    + rewrite lookup_insert_eq. eexists. split; [done|]. assert (ba = b) as -> by congruence. done.
    + rewrite lookup_insert_ne by done. by exists ba.
  - destruct Hsw as (bn & ks & Hbn & Hr). exists bn, ks. split; [|exact Hr]. rewrite (no_out _ _ _ Hn), E.
    + rewrite lookup_insert_ne; [exact Hbn|]. by apply not_eq_sym, next_apart.
    + intros [En|HnX]%elem_of_cons; [by apply next_apart|].
      destruct (tw_apart _ _ _ _ _ _ _ _ _ _ Hw _ (HX _ HnX)) as [H1 H2]. rewrite Hidle in H2.
      destruct R as [|r R']; simpl in *; [done|]. apply H1. left.
Qed.

Lemma wp_kt_read {A} (m : M mstate A) a Q st sc evs ts :
  m (k_mem (kt s st sc evs ts)) = Some (a, k_mem (kt s st sc evs ts)) -> Q a (kt s st sc evs ts) ->
  wp (zoom m) Q (kt s st sc evs ts).
Proof. intros Hm HQ. wp_step. unfold wp. change (lget _) with (k_mem (kt s st sc evs ts)). by rewrite Hm. Qed.
Lemma wp_kt_get_tty st sc evs ts t Q :
  zget ts i = Some t -> Q t (kt s st sc evs ts) -> wp (zoom (get_tty i)) Q (kt s st sc evs ts).
Proof.
  intros Hg HQ. apply wp_kt. unfold get_tty. wp_step. wp_step. by eapply wp_lift_opt.
Qed.

(** A result is set, and the terminal is as before. *)
Lemma tty_result {A} st v f (k : M kstate A) Q :
  same_blocks (k_store s) st ->
  (forall st', tty_world i lines wr rd R Wt S st' (k_sched s) (k_ttys s) -> result_is st' p v ->
     wp k Q (kt s st' (k_sched s) (m_events (k_mem s)) (k_ttys s))) ->
  wp (zoom (update p f);; set_reg0 p v;; k) Q (kt s st (k_sched s) (m_events (k_mem s)) (k_ttys s)).
Proof.
  intros (Hsb & _ & _) HQ. wp_step. apply wp_kt_store. eapply wp_update; [by rewrite Hsb|].
  wp_step. eapply set_reg0_kt; [apply lookup_insert_eq|]. apply HQ.
  - destruct Hw as [H1 (t & Hg & Hat) H3 H4 H5]. split; try done.
    + exists t. split; [exact Hg|]. eapply tty_at_same; [exact Hat|]. intros a Ha. simpl.
      rewrite insert_insert_eq, lookup_insert_ne, Hsb; [done|]. intros <-. by apply (proj1 caller_apart).
    + eapply sched_inv_keeps; [exact H3|]. intros a ba Ha Hba. simpl. rewrite insert_insert_eq, Hsb, lookup_insert_ne; [by exists ba|].
      intros <-. by apply (proj2 caller_apart).
  - unfold result_is. simpl. by rewrite lookup_insert_eq.
Qed.

Lemma kernel_tty_write_ok :
  (forall j, 0 <= j < reg2_int u -> accessible tb (uc_reg1 u + j) false) ->
  wp (kernel_tty_write p) (fun f s' => m_pmem (k_mem s') = m_pmem (k_mem s) /\
     ((f = Returned /\ result_is (k_store s') p ERROR /\
         tty_world i lines wr rd R Wt S (k_store s') (k_sched s') (k_ttys s')) \/
      (f = Switched kc' /\ tty_was_written i (reg2_int u) lines wr rd tb (uc_reg1 u) p idle R Wt S s s'))) s.
Proof.
  intros Hacc. pose proof Hw as [Hnum (t & Hg & Hat) Hinv Hap Hnd]. destruct caller_apart as [Hpq HpR].
  unfold kernel_tty_write. rewrite <- (kt_same s) at 1. wp_step. eapply get_uc_kt; [exact Hb|]. fold u. cbv zeta.
  rewrite args_fine, (proj2 (Z.eqb_neq _ _)) by lia. wp_step. apply wp_kt_running with p; [exact Hrun|].
  wp_step. apply wp_kt_store, wp_malloc. intros ok st1 Hsb. pose proof Hsb as (Esb & _ & _).
  destruct ok; cbn [negb]; last first.
  { apply tty_result; [exact Hsb|]. intros st' Hw' Hres. wp_step. split; [done|]. left. done. }
  set (evs := m_events (k_mem s)). set (ts := k_ttys s) in *. set (sc := k_sched s) in *.
  destruct (copy_from_user_ok _ c tb false (Z.to_nat (reg2_int u)) (uc_reg1 u) (user_ok_kt s c tb st1 sc evs ts Hu Esb))
    as (bytes & Hcopy & Hl & Hbytes); [intros j Hj; apply Hacc; lia|].
  assert (zlen bytes = reg2_int u) as Hzl by (unfold zlen; lia).
  wp_step. eapply wp_kt_read; [exact Hcopy|]. wp_step. apply wp_kt_store. eapply wp_update; [by rewrite Esb|].
  rewrite <- Hzl, Hid. fold (loaded_writer i bytes b). set (b2 := loaded_writer i bytes b). set (st2 := set_pcbs _ _).
  assert (st_pcbs st2 = <[p := b2]> (st_pcbs (k_store s))) as E2 by (simpl; by rewrite Esb).
  assert (st_pcbs st2 !! p = Some b2) as Hb2 by (rewrite E2; apply lookup_insert_eq).
  wp_step. eapply wp_kt_get_tty; [exact Hg|]. wp_step. eapply (join_writers s st2 sc evs ts i t lines wr rd p b2 bytes).
  - lia.
  - exact Hg.
  - eapply tty_at_same; [exact Hat|]. intros a Ha. rewrite E2, lookup_insert_ne; [done|]. by intros <-.
  - exact Hnd.
  - exact Hpq.
  - exact Hb2.
  - exists b2. done.
  - lia.
  - intros st3 evs3 t3 Hat3 Hn3 Htr. destruct (joined (wr ++ [p]) rd) as (Hnd3 & Hp3 & Hap3).
    { rewrite <- (assoc_L (++)). by rewrite Permutation_middle. }
    destruct (switch_to_next st2 st3 wr) as [Hinv3 Hsw3]; [by rewrite Hb2|by rewrite Hb2|exact Hn3|set_solver|].
    destruct (next_only_block _ _ _ _ _ Hn3 Hb2) as [n Hb3].
    eapply wp_mono; [eapply (tty_switch s st3 sc evs3 _ i t3 lines (wr ++ [p]) rd p _ KC_tty_write kc' idle R Wt S); try done|].
    + apply zget_tab. lia.
    + by rewrite zlen_tab.
    + intros f s' (-> & Hw' & Hb' & Hr' & Hm' & Htr'). split; [exact Hm'|]. right. split; [done|]. exists bytes.
      split; [done|]. split; [intros j Hj; rewrite Hbytes by lia; done|]. split; [exact Hw'|].
      split; [eexists; split; [exact Hb'|done]|]. split; [by rewrite Htr', Htr|]. by rewrite Hb'.
Qed.

(** ** Reading *)

(** What a read of [len] bytes gets, and the lines it leaves. *)
Definition line_got (len : Z) : list Z := match lines with [] => [] | l :: _ => take (Z.to_nat len) l end.
Definition lines_left (len : Z) : list (list Z) :=
  match lines with [] => [] | l :: ls => if zlen l <=? len then ls else drop (Z.to_nat len) l :: ls end.

Definition tty_was_read (len buf : Z) (s' : kstate) : Prop :=
  result_is (k_store s') p (zlen (line_got len)) /\
  tty_world i (lines_left len) wr rd R Wt S (k_store s') (k_sched s') (k_ttys s') /\
  running_proc (k_sched s') = Some p /\
  (forall j, 0 <= j < zlen (line_got len) -> byte_in tb (k_mem s') (buf + j) = zget (line_got len) j) /\
  (forall f o, (forall j, 0 <= j < zlen (line_got len) -> location tb (buf + j) <> Some (f, o)) ->
     m_pmem (k_mem s') f o = m_pmem (k_mem s) f o).

Lemma consumed {A} len buf (k : M kstate A) Q :
  0 < len -> (forall j, 0 <= j < len -> accessible tb (buf + j) true) ->
  (forall s', tty_was_read len buf s' -> wp k Q s') ->
  wp (n ← consume_into_user i buf len; set_reg0 p n;; k) Q s.
Proof.
  intros Hl0 Hacc HQ. pose proof Hw as [Hnum (t & Hg & [Hl Hlo Hout Hin]) Hinv Hap Hnd].
  assert (0 <= i < zlen (k_ttys s)) as Hi' by lia. rewrite <- (kt_same s).
  destruct (consume_ok (rx_lines t) len Hlo Hl0) as (bytes & ls' & Hc & Hlo' & Hres). rewrite Hl in Hres.
  assert (bytes = line_got len /\ unread ls' = lines_left len) as [Eb El].
  { unfold line_got, lines_left. destruct lines; [|done]. by destruct Hres as [-> ->]. }
  clear Hres. wp_step. unfold consume_into_user. wp_step. eapply wp_kt_get_tty; [exact Hg|].
  wp_step. eapply wp_lift_opt; [exact Hc|]. cbn [fst snd]. rewrite Eb. set (got := line_got len) in *.
  assert (zlen got <= len) as Hgot.
  { unfold got, line_got, zlen. destruct lines; simpl; [lia|]. rewrite length_take. lia. }
  destruct (copy_to_user_ok c tb got _ buf (user_ok_kt s c tb (k_store s) (k_sched s) (m_events (k_mem s)) (k_ttys s) Hu eq_refl))
    as (m & Hcopy & Hm); [intros j Hj; apply Hacc; lia|].
  wp_step. wp_step. unfold wp at 1. change (lget _) with (k_mem (kt s (k_store s) (k_sched s) (m_events (k_mem s)) (k_ttys s))).
  rewrite Hcopy. change (lset _ _) with (kt (with_memory m s) (k_store s) (k_sched s) (m_events (k_mem s)) (k_ttys s)).
  wp_step. apply wp_kt. rewrite <- (tty_tab_same i _ Hi' t Hg) at 1. apply wp_update_tty; [exact Hi'|]. cbn [fst snd].
  wp_step. wp_step. eapply set_reg0_kt; [exact Hb|]. apply HQ.
  split; [unfold result_is; simpl; by rewrite lookup_insert_eq|]. split; [|split; [exact Hrun|split]].
  - split; try done; [etrans; [apply zlen_tab|done]| |].
    + exists (set_rx_lines ls' t). split; [by apply zget_tab|].
      split; try done; [|by eapply fifo_repr_keeps, keeps_update]. eapply outgoing_same; [by apply outgoing_lines|].
      by apply (io_same_update _ p b (set_p_uc _)).
    + eapply sched_inv_keeps; [exact Hinv|]. by apply (keeps_update _ p b (set_p_uc _)).
  - intros j Hj.
    pose proof (byte_in_written (m_frames (k_mem s)) tb got buf (k_mem s) j (m_pmem (k_mem s)) (uo_ok _ _ _ Hu)) as E.
    specialize (E ltac:(intros; apply Hacc; lia) Hj). etrans; [|exact E]. unfold byte_in.
    destruct (location tb (buf + j)) as [[f o]|]; [|done]. simpl. f_equal. apply Hm.
  - intros f o Hno. simpl. rewrite Hm. by apply written_other.
Qed.

(** Nothing to read: the reader waits behind the others. *)
Definition tty_reader_waits (s' : kstate) : Prop :=
  tty_world i [] wr (rd ++ [p]) (tail R) Wt S (k_store s') (k_sched s') (k_ttys s') /\
  (exists b', st_pcbs (k_store s') !! p = Some b' /\ p_kc b' = KC_tty_read i /\ p_state b' = WAITING /\
     p_io_user_buf b' = uc_reg1 u /\ p_io_len b' = reg2_int u) /\
  running_proc (k_sched s') = Some (next_of idle R) /\ m_pmem (k_mem s') = m_pmem (k_mem s).

Lemma kernel_tty_read_ok :
  (forall j, 0 <= j < reg2_int u -> accessible tb (uc_reg1 u + j) true) ->
  wp (kernel_tty_read p) (fun f s' =>
    (lines <> [] /\ f = Returned /\ tty_was_read (reg2_int u) (uc_reg1 u) s') \/
    (lines = [] /\ f = Switched kc' /\ tty_reader_waits s')) s.
Proof.
  intros Hacc. pose proof Hw as [Hnum (t & Hg & Hat) Hinv Hap Hnd]. destruct caller_apart as [Hpq HpR].
  assert (0 <= i < zlen (k_ttys s)) as Hi' by lia.
  unfold kernel_tty_read. rewrite <- (kt_same s) at 1. wp_step. eapply get_uc_kt; [exact Hb|]. fold u. cbv zeta.
  rewrite args_fine, (proj2 (Z.eqb_neq _ _)) by lia. wp_step. apply wp_kt_running with p; [exact Hrun|].
  rewrite Hid. wp_step. eapply wp_kt_get_tty; [exact Hg|]. pose proof Hat as [Hl Hlo Hout Hin].
  destruct (rx_lines t) as [|l ls] eqn:Erx; last first.
  { rewrite kt_same. apply consumed; [exact Hlen|exact Hacc|]. intros s' Hr. wp_step. left. split; [by rewrite <- Hl|done]. }
  unfold unread in Hl. simpl in Hl.
  set (evs := m_events (k_mem s)). set (ts := k_ttys s) in *. set (sc := k_sched s) in *.
  wp_step. apply wp_kt_store. eapply wp_update; [exact Hb|].
  set (b2 := set_p_io_tty_id _ _). set (st2 := set_pcbs _ _).
  assert (st_pcbs st2 !! p = Some b2) as Hb2 by apply lookup_insert_eq.
  assert (io_same (k_store s) st2 (wr ++ rd)) as Hs2 by by apply io_same_other.
  wp_step. apply wp_kt. rewrite <- (tty_tab_same i ts Hi' t Hg) at 1. unfold rq_push.
  wp_step. apply wp_get_tty; [exact Hi'|]. wp_step. wp_step. change (lget _) with st2.
  assert (fifo_repr st2 (r_queue t) rd) as Hin2.
  { eapply fifo_repr_keeps; [exact Hin|]. eapply io_same_keeps; [exact Hs2|set_solver]. }
  eapply wp_mono; [apply (push_ok st2 (r_queue t) rd p Hin2); [set_solver|by eexists]|].
  intros q st3 [Hq Hn3]. change (lset st3 _) with (((st3, sc), evs), tty_tab i ts t).
  apply wp_update_tty; [exact Hi'|]. cbn [fst snd].
  destruct (joined wr (rd ++ [p])) as (Hnd3 & Hp3 & Hap3).
  { rewrite (assoc_L (++)). by rewrite <- Permutation_cons_append. }
  destruct (switch_to_next st2 st3 rd) as [Hinv3 Hsw3]; [by rewrite Hb2|by rewrite Hb2|exact Hn3|set_solver|].
  destruct (next_only_block _ _ _ _ _ Hn3 Hb2) as [n Hb3].
  assert (tty_at st3 (set_r_queue q t) [] wr (rd ++ [p])) as Hat3.
  { split; try done; [by simpl; rewrite Erx| |].
    - simpl. by rewrite Erx.
    - apply outgoing_readers. eapply outgoing_same; [exact Hout|]. intros a Ha.
      assert (a ∉ p :: rd) as Hno.
      { intros [->|Har]%elem_of_cons; [apply Hpq, elem_of_app; by left|].
        apply NoDup_app in Hnd as (_ & Hnd & _). by apply (Hnd a). }
      rewrite (no_out _ _ _ Hn3) by done. apply Hs2, elem_of_app. by left. }
  eapply wp_mono; [eapply (tty_switch s st3 sc evs _ i _ [] wr (rd ++ [p]) p _ (KC_tty_read i) kc' idle R Wt S); try done|].
  - by apply zget_tab.
  - by rewrite zlen_tab.
  - intros f s' (-> & Hw' & Hb' & Hr' & Hm' & _). right. split; [by rewrite <- Hl|]. split; [done|].
    split; [exact Hw'|]. split; [|done]. eexists. split; [exact Hb'|done].
Qed.

(** ** What a process does that was woken *)
Lemma tty_read_resumed_ok :
  0 < p_io_len b -> (forall j, 0 <= j < p_io_len b -> accessible tb (p_io_user_buf b + j) true) ->
  wp (tty_read_resumed p i) (fun _ s' => tty_was_read (p_io_len b) (p_io_user_buf b) s') s.
Proof.
  intros Hl Hacc. unfold tty_read_resumed. rewrite <- (kt_same s) at 1. wp_step. apply wp_kt_store. eapply wp_load; [exact Hb|].
  rewrite kt_same. pose proof (consumed (p_io_len b) (p_io_user_buf b) (mret tt) (fun _ => tty_was_read (p_io_len b) (p_io_user_buf b)) Hl Hacc) as H.
  specialize (H (fun s' Hs => Hs)). apply wp_bind_inv in H. wp_step. eapply wp_mono; [exact H|]. intros n s1 H1.
  apply wp_bind_inv in H1. by eapply wp_mono; [exact H1|intros []].
Qed.
Lemma tty_write_resumed_ok :
  wp (tty_write_resumed p) (fun _ s' => result_is (k_store s') p (p_io_total b) /\
    (p_io_kbuf <$> st_pcbs (k_store s') !! p) = Some None /\
    tty_world i lines wr rd R Wt S (k_store s') (k_sched s') (k_ttys s')) s.
Proof.
  unfold tty_write_resumed. rewrite <- (kt_same s) at 1. wp_step. apply wp_kt_store. eapply wp_update; [exact Hb|].
  wp_step. apply wp_kt_store. eapply wp_load; [apply lookup_insert_eq|]. eapply set_reg0_kt; [apply lookup_insert_eq|].
  split; [unfold result_is; simpl; by rewrite lookup_insert_eq|]. split; [simpl; by rewrite lookup_insert_eq|].
  destruct Hw as [H1 (t & Hg & Hat) H3 H4 H5]. split; try done.
  - exists t. split; [exact Hg|]. eapply tty_at_same; [exact Hat|]. intros a Ha. simpl.
    rewrite insert_insert_eq, lookup_insert_ne; [done|]. intros <-. by apply (proj1 caller_apart).
  - eapply sched_inv_keeps; [exact H3|]. intros a ba Ha Hba. simpl. rewrite insert_insert_eq, lookup_insert_ne; [by exists ba|].
    intros <-. by apply (proj2 caller_apart).
Qed.
End call.
End calls.

(** ** Properties *)

(** The process [p] runs, in its own pages; the terminal [i] is as said, and
    [p] waits nowhere. *)
Record tty_caller {hw : Machine} (s : kstate) (c : mem_ctx_t) (tb : list pte) (kc' : kcontext) (p idle : addr) (b : pcb)
    (i : Z) (lines : list (list Z)) (wr rd R Wt S : list addr) : Prop := {
  tc_user : user_ok (k_mem s) c tb;
  tc_world : tty_world i lines wr rd R Wt S (k_store s) (k_sched s) (k_ttys s);
  tc_running : running_proc (k_sched s) = Some p;
  tc_idle : idle_proc (k_sched s) = Some idle;
  tc_block : st_pcbs (k_store s) !! p = Some b;
  tc_apart : p ∉ (wr ++ rd) ++ R ++ Wt ++ S;
  tc_other : p <> idle;
  tc_next : switchable (k_store s) kc' (next_of idle R);
  tc_table : zlen (m_region0_pt (k_mem s)) = REGION0_VPNS;
  tc_range : 0 <= i < NUM_TERMINALS
}.

(** The registers ask for [i] and a positive length. *)
Definition asks_tty (u : UserContext) (i : Z) : Prop :=
  reg0_int u = i /\ 0 <= uc_reg1 u < 4294967296 /\ 0 < reg2_int u.

(** A call refused for its buffer leaves the terminal alone. *)
Lemma refused_tty {hw : Machine} {hw_ok : MachineOk} s c tb kc' p idle b i lines wr rd R Wt S :
  tty_caller s c tb kc' p idle b i lines wr rd R Wt S ->
  wp (returning (set_reg0 p ERROR)) (fun f s' => f = Returned /\ result_is (k_store s') p ERROR /\
    m_pmem (k_mem s') = m_pmem (k_mem s) /\
    tty_world i lines wr rd R Wt S (k_store s') (k_sched s') (k_ttys s')) s.
Proof.
  intros [_ Hw _ _ Hb Hp _ _ _ _]. unfold returning. rewrite <- (kt_same s) at 1. wp_step. eapply set_reg0_kt; [exact Hb|].
  wp_step. split; [done|]. split; [unfold result_is; simpl; by rewrite lookup_insert_eq|]. split; [done|].
  destruct Hw as [H1 (t & Hg & Hat) H3 H4 H5]. split; try done.
  - exists t. split; [exact Hg|]. eapply tty_at_same; [exact Hat|]. by apply (io_same_update _ p b (set_p_uc _)).
  - eapply sched_inv_keeps; [exact H3|]. by apply (keeps_update _ p b (set_p_uc _)).
Qed.

(** C28: reading from a terminal is refused when a byte of the user's buffer may
    not be written.  Otherwise, if there are lines that were received and not
    read, the call returns at once with as many bytes of the first one as were
    asked for: they are in the user's buffer and gone from the line, which is
    gone when it was read to its end, and no other byte of memory changes.  If
    there is no line, the caller waits behind the other readers and the next
    process runs.  When it goes on it gets the first line in the same way, or
    nothing if somebody else has read it in the meantime. *)
Theorem tty_read_takes {hw : Machine} {hw_ok : MachineOk} (s : kstate) (c : mem_ctx_t) (tb : list pte)
    (kc' : kcontext) (p idle : addr) (b : pcb) (i : Z) (lines : list (list Z)) (wr rd R Wt S : list addr) :
  tty_caller s c tb kc' p idle b i lines wr rd R Wt S ->
  (asks_tty (p_uc b) i -> exists f s', KernelTtyRead p s = Some (f, s') /\
    ((~ good_buffer tb (p_uc b) true /\ f = Returned /\ result_is (k_store s') p ERROR /\
        tty_world i lines wr rd R Wt S (k_store s') (k_sched s') (k_ttys s')) \/
     (good_buffer tb (p_uc b) true /\ lines <> [] /\ f = Returned /\
        tty_was_read s tb p i lines wr rd R Wt S (reg2_int (p_uc b)) (uc_reg1 (p_uc b)) s') \/
     (good_buffer tb (p_uc b) true /\ lines = [] /\ f = Switched kc' /\
        tty_reader_waits s p idle b i wr rd R Wt S s'))) /\
  (0 < p_io_len b -> (forall j, 0 <= j < p_io_len b -> accessible tb (p_io_user_buf b + j) true) ->
   exists s', tty_read_resumed p i s = Some (tt, s') /\
     tty_was_read s tb p i lines wr rd R Wt S (p_io_len b) (p_io_user_buf b) s').
Proof.
  intros Hc. pose proof Hc as [Hu Hw Hrun Hidle Hb Hp Hpi Hsw Ht Hi]. split.
  - intros (Hid & Hreg & Hlen). apply wp_run. unfold KernelTtyRead. eapply with_buffer_ok; [exact Hu|exact Hb| |].
    + intros Hgood. pose proof Hgood as [Hnz Hacc]. eapply wp_mono; [eapply kernel_tty_read_ok; eauto; by apply checked_accessible|].
      intros f s' [(Hl & -> & Hr)|(Hl & -> & Hr)]; right; [left|right]; done.
    + intros Hbad. eapply wp_mono; [by eapply refused_tty|]. intros f s' (-> & Hr & _ & Hw'). by left.
  - intros Hl Hacc.
    assert (wp (tty_read_resumed p i)
      (fun _ s' => tty_was_read s tb p i lines wr rd R Wt S (p_io_len b) (p_io_user_buf b) s') s)
      as ([] & s' & Hr & Hd)%wp_run by (eapply tty_read_resumed_ok; eauto). by exists s'.
Qed.


(** The running process reads into its data page from a terminal with two lines,
    or writes four bytes to it. *)
Definition demo_tty_state : kstate :=
  let s := demo_kernel_state (demo_uc 0 275 4) in
  {| k_mem := k_mem s; k_sched := k_sched s; k_sync := k_sync s; k_pipes := k_pipes s;
     k_ttys := [set_rx_lines two_lines tty_zero; tty_zero] |}.
Lemma demo_tty_caller :
  @tty_caller demo_machine demo_tty_state (demo_image 5 6 7)
    ([mapped_pte 5 5; mapped_pte 6 3] ++ replicate 13 pte_zero ++ [mapped_pte 7 3]) KC_return 2 1
    (demo_uc_proc (demo_uc 0 275 4)) 0 [[98; 99; 10]; [100; 10]] [] [] [3%positive] [] [].
Proof.
  split; try done.
  - apply (demo_kernel_user_ok (demo_uc 0 275 4)).
  - split; try done.
    + exists (set_rx_lines two_lines tty_zero). split; [done|].
      split; [done|exact two_lines_ok|split; [done|apply fifo_repr_empty]|apply fifo_repr_empty].
    + apply demo_kernel_sched.
    + by intros a ?%not_elem_of_nil.
    + apply NoDup_nil. done.
  - by apply (bool_decide_unpack _).
  - do 2 eexists. split; [reflexivity|by split].
Defined.

Lemma tty_read_takes_witness :
  exists s', @KernelTtyRead demo_machine 2 demo_tty_state = Some (Returned, s') /\ result_is (k_store s') 2 3 /\
    @byte_in demo_machine ([mapped_pte 5 5; mapped_pte 6 3] ++ replicate 13 pte_zero ++ [mapped_pte 7 3]) (k_mem s') 276 = Some 99.
Proof.
  destruct (@tty_read_takes demo_machine demo_machine_ok _ _ _ _ _ _ _ _ _ _ _ _ _ _ demo_tty_caller) as [Hr _].
  destruct Hr as (f & s' & Hrun & Hres); [done|].
  assert (f = Returned) as -> by (vm_compute in Hrun; by injection Hrun). exists s'. split; [exact Hrun|].
  destruct Hres as [(_ & _ & He & _)|[(_ & _ & _ & Hres & _ & _ & Hby & _)|(_ & ? & _)]]; [|split|done].
  - assert (result_is (k_store s') 2 3) as E3.
    { pose proof (f_equal (fun o => '(_, x) ← o; uc_reg0 ∘ p_uc <$> st_pcbs (k_store x) !! 2%positive) Hrun) as E.
      vm_compute in E. unfold result_is. simpl in E |- *. symmetry. exact E. }
    unfold result_is in *. rewrite E3 in He. discriminate He.
  - exact Hres.
  - apply (Hby 1). by split.
Defined.

