(* ===== verification/Processes.v ===== *)
(** * Making processes ([KernelFork])

    The state of the kernel as the calls on processes see it, and the call that
    makes one, in the state of the kernel: the heap of process control
    blocks, the frames and page tables, and the scheduler together.  The
    definitions are in [Syscalls]. *)

From S2P Require Import Prelude Machine Pcb FrameTracking Paging KernelMemory UserMemory AddressSpace Fifo SleepHeap Scheduler PipeBuffer PipeTable Locks Terminals Kernel DemoKernel Switching PipeCalls TtyCalls Synchronization LoadProgram Syscalls PipeWorld.

(** ** The state of the kernel as memory and scheduler *)
Definition km (s : kstate) (m : mstate) (sc : sched_t) : kstate :=
  {| k_mem := m; k_sched := sc; k_sync := k_sync s; k_pipes := k_pipes s; k_ttys := k_ttys s |}.

Lemma km_same s : km s (k_mem s) (k_sched s) = s.
Proof. by destruct s. Qed.
Lemma set_m_store_same m : set_m_store (m_store m) m = m.
Proof. by destruct m. Qed.
Lemma wp_km {A} (x : M mstate A) Q s m sc :
  wp x (fun a m' => Q a (km s m' sc)) m -> wp (zoom x) Q (km s m sc).
Proof. intros Hx. wp_step. exact Hx. Qed.
Lemma wp_km_store {A} (x : M store A) Q s m sc :
  wp x (fun a st => Q a (km s (set_m_store st m) sc)) (m_store m) -> wp (zoom x) Q (km s m sc).
Proof. intros Hx. wp_step. exact Hx. Qed.
Lemma wp_km_sched {A} (x : M sched_st A) Q s m sc :
  wp x (fun a y => Q a (km s (set_m_store y.1 m) y.2)) (m_store m, sc) -> wp (zoom x) Q (km s m sc).
Proof. intros Hx. wp_step. exact Hx. Qed.
Lemma wp_km_running s m sc p Q :
  running_proc sc = Some p -> Q p (km s m sc) -> wp running Q (km s m sc).
Proof.
  intros Hr HQ. unfold running. wp_step. apply wp_km_sched. unfold get_running_proc. wp_step.
  eapply wp_lift_opt; [exact Hr|]. by destruct m.
Qed.
Lemma get_uc_km s m sc a b Q :
  st_pcbs (m_store m) !! a = Some b -> Q (p_uc b) (km s m sc) -> wp (get_uc a) Q (km s m sc).
Proof.
  intros Hb HQ. unfold get_uc. wp_step. apply wp_km_store. eapply wp_load; [exact Hb|]. wp_step.
  by destruct m.
Qed.

(** The state [m] with the block [b] at [a]. *)
Definition with_block (a : addr) (b : pcb) (m : mstate) : mstate :=
  set_m_store (set_pcbs (<[a := b]> (st_pcbs (m_store m))) (m_store m)) m.

Lemma set_reg0_km s m sc a b v Q :
  st_pcbs (m_store m) !! a = Some b ->
  Q tt (km s (with_block a (set_p_uc (uc_set_reg0 v (p_uc b)) b) m) sc) ->
  wp (set_reg0 a v) Q (km s m sc).
Proof. intros Hb HQ. unfold set_reg0. apply wp_km_store. eapply wp_update; [exact Hb|exact HQ]. Qed.

(** ** What the calls rely on when memory does not run out *)
Section plenty.
Context {pids : PidHelper}.

Lemma create_new_pcb_plenty st nk nr uc :
  st_malloc st = [] ->
  wp (create_new_pcb nk nr uc) (fun r st' => is_Some r /\ st_malloc st' = []) st.
Proof.
  intros E. unfold create_new_pcb.
  wp_step. apply wp_malloc_plenty. intros ok st1 _ [-> E1]; [done|]. simpl.
  wp_step. apply wp_new_block.
  wp_step. apply wp_malloc_plenty. intros ok st2 [Hpc2 _] [-> E2]; [done|]. simpl in *.
  wp_step. eapply wp_update; [rewrite Hpc2; apply lookup_insert_eq|]. simpl.
  wp_step. apply wp_malloc_plenty. intros ok st3 [Hpc3 _] [-> E3]; [done|]. simpl in *.
  wp_step. eapply wp_update; [rewrite Hpc3; apply lookup_insert_eq|]. simpl.
  wp_step. apply wp_malloc_plenty. intros ok st4 [Hpc4 _] [-> E4]; [done|]. simpl in *.
  wp_step. eapply wp_update; [rewrite Hpc4; apply lookup_insert_eq|]. simpl.
  unfold helper_new_pid. wp_steps. eapply wp_update; [simpl; apply lookup_insert_eq|]. wp_step.
  split; [by eexists|done].
Qed.
End plenty.

(** A fresh table. *)
Lemma blank_table k j : maps (replicate k pte_zero) j = None.
Proof.
  unfold maps. destruct (zget _ j) as [x|] eqn:Hx; [|done].
  pose proof (zget_Some _ _ _ Hx) as Hr. rewrite zget_nonneg in Hx by lia.
  by apply lookup_replicate in Hx as [-> _].
Qed.

(** ** What the calls do not look at *)
Section frames.
Context {hw : Machine} {hw_ok : MachineOk}.

Lemma kernel_ok_store m st : kernel_ok m -> kernel_ok (set_m_store st m).
Proof. by intros []; split. Qed.
Lemma user_ok_ext m m' c t :
  user_ok m c t -> m_mem_ctx m' = m_mem_ctx m ->
  table_ok (T := region1_table) (m_frames m') t ->
  (forall a, m_mem_ctx m = Some a ->
     p_mem_ctx <$> st_pcbs (m_store m') !! a = p_mem_ctx <$> st_pcbs (m_store m) !! a) ->
  user_ok m' c t.
Proof.
  intros [Hc Ht _] Em Hok E. split; [|done|done].
  apply current_ctx_Some in Hc as (a & b & Ha & Hb & Hcb). apply current_ctx_Some.
  specialize (E a Ha). rewrite Hb in E. apply fmap_Some in E as (b' & Hb' & E).
  exists a, b'. split; [congruence|]. split; [done|]. by rewrite <- E.
Qed.
Lemma user_ok_store m st c t :
  user_ok m c t ->
  (forall a, m_mem_ctx m = Some a -> p_mem_ctx <$> st_pcbs st !! a = p_mem_ctx <$> st_pcbs (m_store m) !! a) ->
  user_ok (set_m_store st m) c t.
Proof. intros Hu E. apply (user_ok_ext m); [done|done|apply Hu|done]. Qed.
(** The kernel's own table, when the frames of a new process were taken. *)
Lemma kernel_ok_shrink m m' :
  kernel_ok m -> same_kernel m m' -> frames_wf (m_frames m') ->
  NUM_FRAMES (m_frames m') = NUM_FRAMES (m_frames m) ->
  free_set (m_frames m') ⊆ free_set (m_frames m) -> kernel_ok m'.
Proof.
  intros [] [Evm Et Eb _ _ _ _] Hwf Hn Hsub. split; rewrite ?Evm, ?Et, ?Eb; try done.
  by eapply table_ok_shrink.
Qed.
End frames.

(** ** [KernelFork] *)
Section fork.
Context {hw : Machine} {hw_ok : MachineOk} {pids : PidHelper}.
Context (s : kstate) (p : addr) (b : pcb) (c : mem_ctx_t) (t : list pte) (l R W S : list addr).

Let n : addr := st_next (k_store s).
Let pid : Z := helper_pid (st_pid_calls (k_store s)).
Let u : UserContext := p_uc b.
Let free : gset Z := free_set (m_frames (k_mem s)).

(** The process [p] runs, with the block [b], the children [l] and the pages
    [t]; no allocation fails. *)
Record forks : Prop := {
  fs_running : running_proc (k_sched s) = Some p;
  fs_ctx : m_mem_ctx (k_mem s) = Some p;
  fs_block : st_pcbs (k_store s) !! p = Some b;
  fs_children : rel_repr (p_relations b) l;
  fs_user : user_ok (k_mem s) c t;
  fs_pages : forkable t c (vpn_of (uc_sp u));
  fs_kernel : kernel_ok (k_mem s);
  fs_sched : sched_inv (k_store s, k_sched s) R W S;
  fs_queued : p ∉ R ++ W ++ S;
  fs_idle : forall i, idle_proc (k_sched s) = Some i -> is_Some (st_pcbs (k_store s) !! i);
  fs_fresh : st_pcbs (k_store s) !! n = None;
  fs_malloc : st_malloc (k_store s) = []
}.

(** The block of the new process: the pages [tn], the kernel stack [ks], and
    [kc] left to do in the kernel; [nx] is its link in the ready queue. *)
Definition child_pcb (tn : list pte) (kc : kcontext) (ks : list pte) (nx : option addr) : pcb :=
  set_p_next nx (set_p_kc kc (set_p_ks_pt (Some ks) (set_p_uc (uc_set_reg0 0 u)
    (forked_pcb (fresh_pcb K_STACK_VPNS REGION1_VPNS pid u) c u tn)))).

(** The blocks besides those of [p] and [n] are the same but for their links. *)
Definition others_same (s' : kstate) : Prop := forall a, a <> p -> a <> n ->
  set_p_next None <$> st_pcbs (k_store s') !! a = set_p_next None <$> st_pcbs (k_store s) !! a.

(** There were not enough frames for the pages. *)
Record fork_refused (s' : kstate) : Prop := {
  rf_result : exists t', st_pcbs (k_store s') !! p = Some (set_p_uc (uc_set_reg0 ERROR u) (with_table b t')) /\
    user_ok (k_mem s') (set_region1_pt (Some t') c) t' /\ same_maps t t';
  rf_gone : st_pcbs (k_store s') !! n = None;
  rf_others : others_same s';
  rf_sched : sched_inv (k_store s', k_sched s') R W S;
  rf_pids : st_pid_calls (k_store s') = RetirePid pid :: NewPid pid :: st_pid_calls (k_store s);
  rf_frames : free_set (m_frames (k_mem s')) = free;
  rf_kernel : kernel_ok (k_mem s') /\ m_region0_pt (k_mem s') = m_region0_pt (k_mem s) /\
    m_current_brk_page (k_mem s') = m_current_brk_page (k_mem s) /\
    NUM_FRAMES (m_frames (k_mem s')) = NUM_FRAMES (m_frames (k_mem s));
  rf_roles : k_sched s' = k_sched s /\ m_mem_ctx (k_mem s') = Some p;
  rf_memory : forall f, f ∉ free -> m_pmem (k_mem s') f = m_pmem (k_mem s) f
}.

(** The new process [n] is ready, with its own copy of the pages, in the frames
    of [tn], and its own copy of the kernel stack, in those of [ks], or no
    stack at all when there was no room for one. *)
Record fork_done (s' : kstate) : Prop := {
  dn_result : exists r t', st_pcbs (k_store s') !! p =
      Some (set_p_relations r (set_p_uc (uc_set_reg0 pid u) (with_table b t'))) /\
    rel_repr r (l ++ [n]) /\ has_parent r = has_parent (p_relations b) /\
    user_ok (k_mem s') (set_region1_pt (Some t') c) t' /\ same_maps t t';
  dn_new : exists tn kc ks nx, st_pcbs (k_store s') !! n = Some (child_pcb tn kc ks nx) /\
    (forall j, match fork_prot c (vpn_of (uc_sp u)) j with
       | Some prot => exists f ps q, maps tn j = Some (f, prot) /\ f ∈ free /\
           maps t j = Some (ps, q) /\ m_pmem (k_mem s') f = m_pmem (k_mem s) ps
       | None => maps tn j = None
       end) /\
    table_ok (T := region1_table) (m_frames (k_mem s')) tn /\
    let free' := free ∖ frames_of tn 0 REGION1_VPNS in
    if decide (m_current_brk_page (k_mem s) + K_STACK_VPNS < K_STACK_BASE_VPN - 2 /\
        K_STACK_VPNS <= Z.of_nat (size free'))
    then kc = KC_return /\ zlen ks = K_STACK_VPNS /\
      (forall i, 0 <= i < K_STACK_VPNS -> exists f ps q,
         maps ks i = Some (f, Z.lor PROT_READ PROT_WRITE) /\ f ∈ free' /\
         maps (m_region0_pt (k_mem s)) (K_STACK_BASE_VPN + i) = Some (ps, q) /\
         m_pmem (k_mem s') f = m_pmem (k_mem s) ps) /\
      (forall i j f q q', maps ks i = Some (f, q) -> maps ks j = Some (f, q') -> i = j) /\
      free_set (m_frames (k_mem s')) = free' ∖ frames_of ks 0 K_STACK_VPNS
    else kc = KC_zero /\ ks = replicate (Z.to_nat K_STACK_VPNS) pte_zero /\
      free_set (m_frames (k_mem s')) = free';
  dn_rest : others_same s';
  dn_ready : sched_inv (k_store s', k_sched s') (R ++ [n]) W S;
  dn_pids : st_pid_calls (k_store s') = NewPid pid :: st_pid_calls (k_store s);
  dn_map : kernel_ok (k_mem s') /\ same_maps (m_region0_pt (k_mem s)) (m_region0_pt (k_mem s')) /\
    m_current_brk_page (k_mem s') = m_current_brk_page (k_mem s);
  dn_roles : running_proc (k_sched s') = Some p /\ idle_proc (k_sched s') = idle_proc (k_sched s) /\
    m_mem_ctx (k_mem s') = Some p /\ NUM_FRAMES (m_frames (k_mem s')) = NUM_FRAMES (m_frames (k_mem s));
  dn_memory : forall f, f ∉ free -> m_pmem (k_mem s') f = m_pmem (k_mem s) f
}.

(** After the block of the new process was made. *)
Definition created (st : store) : Prop :=
  st_pcbs st = <[n := fresh_pcb K_STACK_VPNS REGION1_VPNS pid u]> (st_pcbs (k_store s)) /\
  st_pid_calls st = NewPid pid :: st_pid_calls (k_store s) /\ st_malloc st = [].

Hypothesis Hfs : forks.

Lemma forks_apart : n <> p /\ n ∉ R ++ W ++ S /\ idle_proc (k_sched s) <> Some n.
Proof.
  destruct Hfs. split; [congruence|]. split.
  - intros Hin. pose proof (sched_inv_live _ _ _ _ _ _ fs_sched0 Hin) as [? E]. congruence.
  - intros E. apply fs_idle0 in E as [? E]. congruence.
Qed.
Lemma created_sched st : created st -> sched_inv (st, k_sched s) R W S.
Proof.
  intros (E & _ & _). destruct forks_apart as (_ & Hn & _). eapply sched_inv_keeps; [apply Hfs|].
  intros a ba Ha Hba. exists ba. rewrite E, lookup_insert_ne by congruence. done.
Qed.
Lemma created_user st : created st -> user_ok (set_m_store st (k_mem s)) c t.
Proof.
  intros (E & _ & _). destruct forks_apart as (Hnp & _). apply user_ok_store; [apply Hfs|].
  intros a Ha. rewrite (fs_ctx Hfs) in Ha. injection Ha as <-. by rewrite E, lookup_insert_ne.
Qed.

Lemma created_parent st m2 t' :
  created st -> same_but_table (set_m_store st (k_mem s)) m2 t' ->
  st_pcbs (m_store m2) !! p = Some (with_table b t').
Proof.
  intros (E & _ & _) Hpar. destruct forks_apart as (Hnp & _). apply Hpar; [apply Hfs|].
  simpl. rewrite E, lookup_insert_ne by done. apply Hfs.
Qed.

(** The copy of the pages was given up. *)
Lemma fork_refused_ok st m2 t' :
  created st ->
  fork_failed (set_m_store st (k_mem s)) c t n (fresh_pcb K_STACK_VPNS REGION1_VPNS pid u) u m2 t' ->
  wp (set_reg0 p ERROR;; zoom (retire_pcb n);; zoom (Pcb.free n)) (fun _ s' => fork_refused s')
    (km s m2 (k_sched s)).
Proof.
  intros Hcr [Hk Hpar (tx & Hchild) _ Hnum Hu Hsame Hfree Hoth Hmem].
  pose proof (created_parent _ _ _ Hcr Hpar) as Hp2. destruct Hcr as (Epcb & Epid & Emal).
  destruct forks_apart as (Hnp & Hnq & Hni).
  wp_step. eapply set_reg0_km; [exact Hp2|]. wp_step. apply wp_km_store.
  eapply wp_mono; [eapply (retire_pcb_ok _ n (with_table (fresh_pcb K_STACK_VPNS REGION1_VPNS pid u) tx) [])|].
  - simpl. rewrite lookup_insert_ne by done. exact Hchild.
  - apply fresh_pcb_children.
  - constructor.
  - apply not_elem_of_nil.
  - by intros ? ?%not_elem_of_nil.
  - intros [] st3 (Hnx & Hpids & Hst3). simpl in Hpids. apply wp_km_store.
    eapply wp_free; [simpl; rewrite Hst3, decide_True by done; done|].
    set (s' := km s _ _).
    assert (forall a, st_pcbs (k_store s') !! a = if decide (a = n) then None else
      if decide (a = p) then Some (set_p_uc (uc_set_reg0 ERROR u) (with_table b t'))
      else st_pcbs (k_store s) !! a) as Hst.
    { intros a. unfold s', k_store. simpl. rewrite lookup_delete. case_decide as En; [by subst; rewrite decide_True|].
      rewrite decide_False by congruence. rewrite Hst3, decide_False by congruence.
      rewrite decide_False by apply not_elem_of_nil. simpl.
      destruct (decide (a = p)) as [->|]; [by rewrite lookup_insert_eq|].
      rewrite lookup_insert_ne by done. rewrite Hoth; [|done|simpl; rewrite (fs_ctx Hfs); congruence].
      simpl. by rewrite Epcb, lookup_insert_ne by congruence. }
    split.
    + exists t'. rewrite Hst, decide_False, decide_True by done. split; [done|]. split; [|done].
      change (k_mem s') with (set_m_store (k_store s') m2). apply user_ok_store; [exact Hu|].
      intros a Ha. rewrite (sk_ctx _ _ Hk) in Ha. simpl in Ha. rewrite (fs_ctx Hfs) in Ha.
      injection Ha as <-. by rewrite Hst, decide_False, decide_True, Hp2.
    + by rewrite Hst, decide_True.
    + intros a Hap Han. by rewrite Hst, !decide_False.
    + eapply sched_inv_keeps; [apply Hfs|]. intros a ba Ha Hba. exists ba.
      rewrite Hst, !decide_False; [done|intros ->; by apply (fs_queued Hfs)|by intros ->].
    + change (st_pid_calls (k_store s')) with (st_pid_calls st3).
      rewrite Hpids, (sk_pids _ _ Hk). simpl. by rewrite Epid.
    + exact Hfree.
    + change (k_mem s') with (set_m_store (k_store s') m2). split.
      * apply kernel_ok_store. apply (kernel_ok_shrink (set_m_store st (k_mem s)));
          [apply kernel_ok_store, Hfs|exact Hk|apply Hu|exact Hnum|by rewrite Hfree].
      * split; [apply (sk_region0 _ _ Hk)|]. split; [apply (sk_brk _ _ Hk)|exact Hnum].
    + split; [done|]. etrans; [apply (sk_ctx _ _ Hk)|apply Hfs].
    + exact Hmem.
Qed.

(** After the new process was entered everywhere; it has no kernel stack yet. *)
Record entered (m2 : mstate) (t' tn : list pte) (st3 : store) (sc3 : sched_t) : Prop := {
  en_parent : exists r, st_pcbs st3 !! p =
      Some (set_p_relations r (set_p_uc (uc_set_reg0 pid u) (with_table b t'))) /\
    rel_repr r (l ++ [n]) /\ has_parent r = has_parent (p_relations b);
  en_child : exists nx, st_pcbs st3 !! n =
    Some (child_pcb tn KC_zero (replicate (Z.to_nat K_STACK_VPNS) pte_zero) nx);
  en_others : forall a, a <> p -> a <> n ->
    set_p_next None <$> st_pcbs st3 !! a = set_p_next None <$> st_pcbs (k_store s) !! a;
  en_sched : sched_inv (st3, sc3) (R ++ [n]) W S;
  en_pids : st_pid_calls st3 = NewPid pid :: st_pid_calls (k_store s);
  en_roles : running_proc sc3 = Some p /\ idle_proc sc3 = idle_proc (k_sched s)
}.

Lemma enter_child_ok st m2 t' tn (Q : unit -> kstate -> Prop) :
  created st ->
  forked (set_m_store st (k_mem s)) c t n (fresh_pcb K_STACK_VPNS REGION1_VPNS pid u) u m2 t' tn ->
  (forall st3 sc3, entered m2 t' tn st3 sc3 ->
     wp (zoom (KCCopy KC_return n);; mret tt) Q (km s (set_m_store st3 m2) sc3)) ->
  wp (b ← zoom (load n); set_reg0 p (p_pid b);; set_reg0 n 0;; zoom (add_child_proc p n);;
      zoom (schedule_process n);; zoom (KCCopy KC_return n);; mret tt) Q (km s m2 (k_sched s)).
Proof.
  intros Hcr [Hk Hpar Hu Hchild Hoth Hcs] HQ. pose proof (created_parent _ _ _ Hcr Hpar) as Hp2. destruct Hcr as (Epcb & Epid & Emal).
  destruct forks_apart as (Hnp & Hnq & Hni).
  wp_step. apply wp_km_store. eapply wp_load; [exact Hchild|]. rewrite set_m_store_same.
  wp_step. eapply set_reg0_km; [exact Hp2|]. wp_step.
  eapply set_reg0_km; [simpl; rewrite lookup_insert_ne by done; exact Hchild|].
  set (b1 := set_p_uc (uc_set_reg0 pid u) (with_table b t')).
  set (n1 := set_p_uc (uc_set_reg0 0 u) (forked_pcb (fresh_pcb K_STACK_VPNS REGION1_VPNS pid u) c u tn)).
  set (m3 := with_block n _ _).
  assert (st_pcbs (m_store m3) !! p = Some b1) as Hp3.
  { unfold m3. simpl. rewrite lookup_insert_ne, lookup_insert_eq by done. done. }
  wp_step. apply wp_km_store.
  eapply wp_mono; [eapply (add_child_proc_ok _ p b1 l n); [exact Hp3|apply Hfs]|].
  intros ok st4 (Hnx4 & Hpid4 & Hok & Hres). destruct Hok as [-> _].
  { change (st_malloc (m_store m3)) with (st_malloc (m_store m2)). by rewrite (sk_malloc _ _ Hk). }
  destruct Hres as (r & Hr & Hrp & E4). wp_step. apply wp_km_sched.
  assert (st_pcbs st4 !! n = Some n1) as Hn4.
  { rewrite E4, lookup_insert_ne by done. apply lookup_insert_eq. }
  assert (forall a, a <> p -> a <> n -> st_pcbs st4 !! a = st_pcbs (k_store s) !! a) as Ho4.
  { intros a Hap Han. rewrite E4, lookup_insert_ne by done. unfold m3. simpl.
    rewrite !lookup_insert_ne by done. rewrite Hoth; [|done|simpl; rewrite (fs_ctx Hfs); congruence].
    simpl. by rewrite Epcb, lookup_insert_ne. }
  assert (sched_inv (st4, k_sched s) R W S) as Hinv4.
  { eapply sched_inv_keeps; [apply Hfs|]. intros a ba Ha Hba. exists ba.
    rewrite Ho4; [done|intros ->; by apply (fs_queued Hfs)|by intros ->]. }
  eapply wp_mono; [by apply (schedule_process_ok st4 _ R W S n n1)|].
  intros [] [st5 sc5]. rewrite decide_False by done. intros (Hinv5 & Hn5 & q5 & Esc5).
  apply HQ. simpl in *. pose proof (no_fields _ _ _ Hn5) as Hf5. simpl in Hf5. split; try done.
  - exists r. split; [|done]. rewrite (no_out _ _ _ Hn5).
    + simpl. rewrite lookup_insert_ne by done. rewrite E4. apply lookup_insert_eq.
    + intros [->|Hin]%elem_of_cons; [done|]. apply (fs_queued Hfs). apply elem_of_app. by left.
  - destruct (next_only_block _ _ _ n (set_p_state READY n1) Hn5) as [nx Hnx]; [apply lookup_insert_eq|].
    exists nx. exact Hnx.
  - intros a Hap Han. rewrite Hf5, lookup_insert_ne by done. by rewrite Ho4.
  - rewrite (no_pids _ _ _ Hn5). simpl. rewrite Hpid4. simpl. by rewrite (sk_pids _ _ Hk).
  - subst sc5. split; [apply Hfs|done].
Qed.

(** The frames that are left once the pages were copied. *)
Lemma forked_free st m2 t' tn :
  forked (set_m_store st (k_mem s)) c t n (fresh_pcb K_STACK_VPNS REGION1_VPNS pid u) u m2 t' tn ->
  free_set (m_frames m2) = free ∖ frames_of tn 0 REGION1_VPNS.
Proof.
  intros [_ _ _ _ _ [_ _ Hok _ _ _ _ _ Htot _ _]].
  replace (REGION1_LIMIT_VPN - REGION1_BASE_VPN) with REGION1_VPNS in Htot
    by (unfold REGION1_LIMIT_VPN; lia).
  simpl in Htot. fold free in Htot. rewrite <- Htot. apply set_eq. intros f.
  rewrite elem_of_difference, elem_of_union. split; [|tauto]. intros Hf. split; [by left|].
  intros (i & q & _ & Hm)%elem_of_frames_of. by apply (to_used _ _ Hok) in Hm.
Qed.

(** The last step, the copy of the kernel stack. *)
Lemma fork_stack_ok st m2 t' tn st3 sc3 :
  created st ->
  forked (set_m_store st (k_mem s)) c t n (fresh_pcb K_STACK_VPNS REGION1_VPNS pid u) u m2 t' tn ->
  entered m2 t' tn st3 sc3 ->
  wp (zoom (KCCopy KC_return n);; mret tt) (fun _ s' => fork_done s') (km s (set_m_store st3 m2) sc3).
Proof.
  intros Hcr Hfk [(r & Hp & Hr & Hrp) (nx & Hn) Hoth Hinv Hpids [Hrun Hidle]].
  pose proof (forked_free _ _ _ _ Hfk) as Hfree. destruct Hfk as [Hk Hpar Hu _ _ Hcs].
  pose proof (created_parent _ _ _ Hcr Hpar) as Hp2.
  destruct forks_apart as (Hnp & _). set (m := set_m_store st3 m2).
  assert (kernel_ok m) as Hko.
  { apply kernel_ok_store. apply (kernel_ok_shrink (set_m_store st (k_mem s)));
      [apply kernel_ok_store, Hfs|exact Hk|apply Hcs..]. }
  epose proof (KCCopy_ok m (m_region0_pt m) (m_frames m) (m_events m) (m_current_brk_page m) (m_pmem m)
    (m_store m) KC_return n _ _) as Hcopy.
  cbv zeta in Hcopy. rewrite <- kst_same in Hcopy. wp_step. apply wp_km.
  eapply wp_mono; [apply Hcopy; [exact Hko|exact Hn|done|]|].
  { unfold zlen. rewrite length_replicate. destruct kstack_vpns_spec as (? & ? & ?). unfold K_STACK_VPNS. lia. }
  clear Hcopy. intros ok' m' (t0' & f' & e' & pm' & Hok' & Hnum' & Hsame0 & Hmem' & Hres).
  change (free_set (m_frames m)) with (free_set (m_frames m2)) in Hmem', Hres. rewrite Hfree in Hmem', Hres.
  change (m_current_brk_page m) with (m_current_brk_page m2) in Hres. rewrite (sk_brk _ _ Hk) in Hres.
  wp_step. set (s' := km s m' sc3). pose proof (sk_region0 _ _ Hk) as Er0. simpl in Er0.
  change (m_region0_pt m) with (m_region0_pt m2) in *. rewrite Er0 in Hsame0, Hres.
  assert (forall f, f ∉ free -> pm' f = m_pmem (k_mem s) f) as Hm.
  { intros f Hf. rewrite Hmem' by set_solver. by apply Hcs. }
  assert (forall j, match fork_prot c (vpn_of (uc_sp u)) j with
     | Some prot => exists f ps q, maps tn j = Some (f, prot) /\ f ∈ free /\
         maps t j = Some (ps, q) /\ pm' f = m_pmem (k_mem s) ps
     | None => maps tn j = None
     end) as Hpages.
  { intros j. destruct (fork_prot c (vpn_of (uc_sp u)) j) as [prot|] eqn:E; [|by apply Hcs].
    destruct (cs_in _ _ _ _ _ _ _ _ _ Hcs j prot E) as (f & ps & q & Hj & Hf & Hps & Epm).
    exists f, ps, q. do 3 (split; [done|]). simpl in Epm. rewrite <- Epm. apply Hmem'.
    rewrite <- Hfree. by apply (to_used _ _ (cs_child _ _ _ _ _ _ _ _ _ Hcs)) in Hj. }
  assert (forall k, m_mem_ctx k = m_mem_ctx m2 -> m_frames k = f' ->
    free_set f' ⊆ free_set (m_frames m2) -> st_pcbs (m_store k) !! p = st_pcbs st3 !! p ->
    user_ok k (set_region1_pt (Some t') c) t') as Hu'.
  { intros k Ek Ef Hsub Ep. apply (user_ok_ext m2); [exact Hu|done| |].
    - rewrite Ef. eapply table_ok_shrink; [apply Hu|apply Hok'|exact Hnum'|exact Hsub].
    - intros a Ha. rewrite (sk_ctx _ _ Hk) in Ha. simpl in Ha. rewrite (fs_ctx Hfs) in Ha.
      injection Ha as <-. by rewrite Ep, Hp, Hp2. }
  assert (forall pm st', kernel_ok (kst m t0' f' e' (m_current_brk_page m2) pm st')) as Hko'.
  { intros pm st'. apply kernel_ok_same; [exact Hko| |exact Hok'|done].
    change (m_region0_pt m) with (m_region0_pt m2). by rewrite Er0. }
  rewrite (sk_brk _ _ Hk) in Hko'.
  assert (table_ok (T := region1_table) (m_frames m2) tn) as Htn by apply (cs_child _ _ _ _ _ _ _ _ _ Hcs).
  assert (NUM_FRAMES f' = NUM_FRAMES (m_frames (k_mem s)) /\ m_mem_ctx m2 = Some p) as [Hnum Hctx].
  { split; [etrans; [exact Hnum'|apply (cs_num _ _ _ _ _ _ _ _ _ Hcs)]|]. rewrite (sk_ctx _ _ Hk). apply Hfs. }
  case_decide as Hroom.
  - destruct Hres as (-> & ks' & -> & Hlk & Hks & Hinj & Hf'). split.
    + exists r, t'. split; [simpl; by rewrite lookup_insert_ne|]. do 2 (split; [done|]). split; [|apply Hcs].
      apply Hu'; try done; [set_solver|]. simpl. by rewrite lookup_insert_ne.
    + exists tn, KC_return, ks', nx. split; [simpl; by rewrite lookup_insert_eq|].
      split; [exact Hpages|]. split.
      { eapply table_ok_shrink; [exact Htn|apply Hok'|exact Hnum'|]. rewrite Hfree. simpl. rewrite Hf'. set_solver. }
      cbv zeta. rewrite decide_True by done. do 2 (split; [done|]). split; [|done].
      intros i Hi. destruct (Hks i Hi) as (f & ps & q & Hf & Hin & Hps & Epm).
      exists f, ps, q. do 3 (split; [done|]). etrans; [exact Epm|]. apply Hcs.
      apply (to_used _ _ (ko_table _ (fs_kernel Hfs))) in Hps. done.
    + intros a Hap Han. simpl. rewrite lookup_insert_ne by done. by apply Hoth.
    + simpl. eapply sched_inv_keeps; [exact Hinv|]. by eapply keeps_update.
    + exact Hpids.
    + split; [apply Hko'|]. split; [done|first [done|apply (sk_brk _ _ Hk)]].
    + done.
    + exact Hm.
  - destruct Hres as (-> & Hf' & -> & ->). split.
    + exists r, t'. split; [done|]. do 2 (split; [done|]). split; [|apply Hcs].
      apply Hu'; try done. set_solver.
    + exists tn, KC_zero, (replicate (Z.to_nat K_STACK_VPNS) pte_zero), nx. split; [done|].
      split; [exact Hpages|]. split.
      { eapply table_ok_shrink; [exact Htn|apply Hok'|exact Hnum'|]. rewrite Hfree. simpl. by rewrite Hf'. }
      cbv zeta. by rewrite decide_False.
    + exact Hoth.
    + exact Hinv.
    + exact Hpids.
    + split; [apply Hko'|]. split; [done|first [done|apply (sk_brk _ _ Hk)]].
    + done.
    + exact Hm.
Qed.

Lemma KernelFork_ok :
  wp (KernelFork p) (fun _ s' =>
    if decide (pages_to_copy c (vpn_of (uc_sp u)) <= Z.of_nat (size free)) then fork_done s'
    else fork_refused s') s.
Proof.
  destruct forks_apart as (Hnp & Hnq & Hni). unfold KernelFork. rewrite <- (km_same s) at 1.
  wp_step. apply wp_km_running with p; [apply Hfs|]. wp_step. eapply get_uc_km; [apply Hfs|].
  wp_step. apply wp_km_store. eapply wp_mono.
  { apply wp_conj; [apply (create_new_pcb_ok (k_store s)), Hfs|apply create_new_pcb_plenty, Hfs]. }
  intros r st [Hres [[a ->] Emal]]. destruct Hres as (-> & _ & Epid & Epcb).
  fold n in Epcb. fold n.
  assert (created st) as Hcr by done.
  wp_step. eapply wp_lift_opt; [done|]. wp_step. apply wp_km.
  pose proof (UCCopy_ok (set_m_store st (k_mem s)) c t p n
    (fresh_pcb K_STACK_VPNS REGION1_VPNS pid u) (replicate (Z.to_nat REGION1_VPNS) pte_zero) u) as Hcopy.
  eapply wp_mono; [apply Hcopy|].
  - by apply created_user.
  - apply Hfs.
  - done.
  - simpl. rewrite Epcb. apply lookup_insert_eq.
  - done.
  - unfold zlen. rewrite length_replicate. destruct region1_vpns_spec. lia.
  - apply blank_table.
  - apply Hfs.
  - clear Hcopy. intros ok m2 (t' & Hres). destruct ok; simpl.
    + destruct Hres as (tn & Hfk).
      assert (pages_to_copy c (vpn_of (uc_sp u)) <= Z.of_nat (size free)) as Hle.
      { destruct (fs_pages Hfs). eapply (copied_size p n); [..|apply Hfk];
          first [done|lia|apply (uo_ok _ _ _ (created_user _ Hcr))]. }
      destruct (decide _); [|done]. eapply enter_child_ok; [done|exact Hfk|].
      intros st3 sc3 Hen. by eapply fork_stack_ok.
    + pose proof (ff_short _ _ _ _ _ _ _ _ Hres) as Hs. simpl in Hs. fold free in Hs.
      destruct (decide _); [lia|]. by eapply fork_refused_ok.
Qed.
End fork.

(** C10: [KernelFork], when no allocation fails.  If there are as many free
    frames as pages between the start of the text and the break and from the
    stack pointer to the top, the call returns the number of the new process to
    the caller, whose last child it is; the new process is last in the ready
    queue, with 0 in its register and a copy of each of these pages in frames
    of its own.  If there is also room for a kernel stack it has its own copy of
    the caller's and goes on at the end of the trap; if not it is ready all the
    same, without a stack.  Otherwise the call returns an error, the new block
    is freed and every frame is free again.  In all cases the caller keeps its
    pages, no frame in use changes, and no other block changes but for a link. *)
Theorem fork_copies_process {hw : Machine} {hw_ok : MachineOk} {pids : PidHelper} (s : kstate) (p : addr)
    (b : pcb) (c : mem_ctx_t) (t : list pte) (l R W S : list addr) :
  forks s p b c t l R W S ->
  exists s', KernelFork p s = Some (tt, s') /\
    (pages_to_copy c (vpn_of (uc_sp (p_uc b))) <= Z.of_nat (size (free_set (m_frames (k_mem s)))) ->
     fork_done s p b c t l R W S s') /\
    (Z.of_nat (size (free_set (m_frames (k_mem s)))) < pages_to_copy c (vpn_of (uc_sp (p_uc b))) ->
     fork_refused s p b c t R W S s').
Proof.
  intros Hfs. destruct (proj1 (wp_run _ _ _) (KernelFork_ok s p b c t l R W S Hfs)) as ([] & s' & Hrun & Hres).
  exists s'. split; [done|]. split; intros ?; [by rewrite decide_True in Hres|].
  rewrite decide_False in Hres by lia. done.
Qed.

Lemma demo_forks : @forks demo_machine (demo_kernel_state (demo_uc 0 0 0)) 2
  (demo_uc_proc (demo_uc 0 0 0)) (demo_image 5 6 7)
  ([mapped_pte 5 5; mapped_pte 6 3] ++ replicate 13 pte_zero ++ [mapped_pte 7 3]) [3%positive] [3%positive] [] [].
Proof.
  split; try reflexivity.
  - apply demo_pcb_repr.
  - apply demo_kernel_user_ok.
  - split; try by vm_compute.
    intros vpn Hv. change (16 <= vpn < 18 \/ 31 <= vpn < 32) in Hv.
    assert (vpn = 16 \/ vpn = 17 \/ vpn = 31) as [->|[->| ->]] by lia;
      do 2 eexists; (split; [reflexivity|]); vm_compute; done.
  - apply demo_kernel_kernel_ok.
  - apply demo_kernel_sched.
  - by apply (bool_decide_unpack _).
  - intros i [= <-]. by eexists.
Defined.

(** The first user process of the concrete kernel forks: the new process is
    at 4, with the number the helper gives. *)
Lemma fork_copies_process_witness :
  exists s', @KernelFork demo_machine demo_pids 2 (demo_kernel_state (demo_uc 0 0 0)) = Some (tt, s') /\
    sched_inv (k_store s', k_sched s') [3%positive; 4%positive] [] [] /\
    is_Some (st_pcbs (k_store s') !! 4%positive).
Proof.
  destruct (@fork_copies_process demo_machine demo_machine_ok demo_pids _ _ _ _ _ _ _ _ _ demo_forks)
    as (s' & Hrun & Hdone & _).
  destruct Hdone as [_ (tn & kc & ks & nx & Hn & _) _ Hready _ _ _ _]; [by vm_compute|].
  exists s'. split; [exact Hrun|]. split; [exact Hready|]. eexists. exact Hn.
Defined.
