(* ===== verification/WaitExit.v ===== *)
(** * Waiting for children to exit ([KernelWait])

    The call in the state of the kernel: the family of a process, the frames
    and page tables, and the scheduler together.  The definitions are in
    [Syscalls]. *)

From S2P Require Import Prelude Machine Pcb FrameTracking Paging KernelMemory UserMemory AddressSpace Fifo SleepHeap Scheduler PipeBuffer PipeTable Locks Terminals Kernel DemoKernel Switching PipeCalls TtyCalls Synchronization LoadProgram Syscalls UserBuffers PipeWorld Processes.

(** ** Words in user memory *)
Lemma lor_next_byte a c : 0 <= a < 256 -> Z.lor a (Z.shiftl c 8) = a + 256 * c.
Proof.
  intros Ha. rewrite <- Z.add_nocarry_lor.
  - rewrite Z.shiftl_mul_pow2 by lia. lia.
  - apply Z.bits_inj'. intros i Hi. rewrite Z.land_spec, Z.shiftl_spec, Z.bits_0 by done.
    destruct (decide (i < 8)).
    + rewrite (Z.testbit_neg_r c) by lia. apply andb_false_r.
    + rewrite <- (Z.mod_small a (2 ^ 8)) by lia. by rewrite Z.mod_pow2_bits_high by lia.
Qed.
Lemma le_bytes_round_trip v : of_le_bytes (le_bytes v) = to_u32 v.
Proof.
  unfold le_bytes, of_le_bytes. cbn [fmap list_fmap foldr]. set (x := to_u32 v).
  assert (0 <= x < 4294967296) as Hx by (unfold x, to_u32; apply Z.mod_pos_bound; lia).
  change 255 with (Z.ones 8). rewrite !Z.land_ones, !Z.shiftr_div_pow2 by lia.
  change (2 ^ 8) with 256. change (2 ^ 0) with 1. change (2 ^ 16) with 65536. change (2 ^ 24) with 16777216.
  rewrite !lor_next_byte by (apply Z.mod_pos_bound; lia). zdiv.
Qed.

(** ** [KernelWait] *)
Section words.
Context {hw : Machine} {hw_ok : MachineOk}.

Lemma user_write_int_ok s c t a v :
  user_ok s c t -> (forall i, 0 <= i < 4 -> accessible t (a + i) true) ->
  exists m, user_write_int a v s = Some (tt, set_m_pmem m s) /\
    user_read_word a (set_m_pmem m s) = Some (to_u32 v, set_m_pmem m s) /\
    forall f o, (forall i, 0 <= i < 4 -> location t (a + i) <> Some (f, o)) -> m f o = m_pmem s f o.
Proof.
  intros Hu Hacc. destruct (copied_back s c t a (le_bytes v) Hu Hacc) as (m & Hw & Hr & Hm).
  exists m. split; [done|]. split; [|done].
  unfold user_read_word, mbind, M_bind. change 4%nat with (length (le_bytes v)). rewrite Hr.
  by rewrite le_bytes_round_trip.
Qed.

(** The word read depends on the pages and on memory only. *)
Lemma user_read_word_same m m' c c' t a v :
  user_ok m c t -> user_ok m' c' t -> m_pmem m' = m_pmem m ->
  (forall i, 0 <= i < 4 -> accessible t (a + i) true) ->
  user_read_word a m = Some (v, m) -> user_read_word a m' = Some (v, m').
Proof.
  intros Hu Hu' Em Hacc.
  destruct (copy_from_user_ok m c t true 4 a Hu Hacc) as (x & Hx & Hlx & Ex).
  destruct (copy_from_user_ok m' c' t true 4 a Hu' Hacc) as (y & Hy & Hly & Ey).
  assert (x = y) as ->.
  { apply (list_eq_same_length _ _ 4); [done|done|]. intros i vx vy Hi Hvx Hvy.
    specialize (Ex (Z.of_nat i) ltac:(lia)). specialize (Ey (Z.of_nat i) ltac:(lia)).
    rewrite zget_nat, Hvx in Ex. rewrite zget_nat, Hvy in Ey. unfold byte_in in *. rewrite Em in Ey. congruence. }
  unfold user_read_word, mbind, M_bind. rewrite Hx, Hy. by intros [= ->].
Qed.
End words.

Section wait.
Context {hw : Machine} {hw_ok : MachineOk}.
Context (s : kstate) (kc' : kcontext) (p idle : addr) (b : pcb) (c : mem_ctx_t) (t : list pte)
  (l R W S : list addr).

Let u : UserContext := p_uc b.

(** The process [p] runs, with the block [b], the children [l] and the pages
    [t]; no process in a queue has exited. *)
Record waits : Prop := {
  wt_running : running_proc (k_sched s) = Some p;
  wt_idle : idle_proc (k_sched s) = Some idle /\ p <> idle;
  wt_ctx : m_mem_ctx (k_mem s) = Some p;
  wt_block : st_pcbs (k_store s) !! p = Some b;
  wt_children : rel_repr (p_relations b) l /\ p ∉ l;
  wt_live : forall a, a ∈ l -> is_Some (st_pcbs (k_store s) !! a);
  wt_user : user_ok (k_mem s) c t;
  wt_sched : sched_inv (k_store s, k_sched s) R W S;
  wt_queued : p ∉ R ++ W ++ S;
  wt_alive : forall a, a ∈ R ++ W ++ S -> exited (k_store s) a = false;
  wt_next : switchable (k_store s) kc' (next_of idle R);
  wt_region0 : zlen (m_region0_pt (k_mem s)) = REGION0_VPNS
}.

(** The first exited child [k], the [i]-th, was reaped; its exit code is where
    the caller asked for it. *)
Record wait_reaped (i : nat) (k : addr) (s' : kstate) : Prop := {
  wr_block : exists r, st_pcbs (k_store s') !! p = Some (set_p_uc (uc_set_reg0 0 u) (set_p_relations r b)) /\
    rel_repr r (delete i l) /\ has_parent r = has_parent (p_relations b);
  wr_freed : st_pcbs (k_store s') !! k = None;
  wr_others : forall a, a <> p -> a <> k -> st_pcbs (k_store s') !! a = st_pcbs (k_store s) !! a;
  wr_code : exists bk, st_pcbs (k_store s) !! k = Some bk /\ (uc_reg0 u <> 0 ->
    user_read_word (uc_reg0 u) (k_mem s') = Some (to_u32 (p_exit_code bk), k_mem s'));
  wr_memory : forall f o, (uc_reg0 u <> 0 -> forall j, 0 <= j < 4 -> location t (uc_reg0 u + j) <> Some (f, o)) ->
    m_pmem (k_mem s') f o = m_pmem (k_mem s) f o;
  wr_sched : k_sched s' = k_sched s /\ sched_inv (k_store s', k_sched s') R W S
}.

(** The caller waits behind the others, and the next process runs. *)
Record wait_blocked (s' : kstate) : Prop := {
  wb_running : running_proc (k_sched s') = Some (next_of idle R);
  wb_sched : sched_inv (k_store s', k_sched s') (tail R) (W ++ [p]) S;
  wb_block : exists n, st_pcbs (k_store s') !! p = Some (set_p_kc KC_wait (set_p_next n (set_p_state WAITING b)));
  wb_memory : m_pmem (k_mem s') = m_pmem (k_mem s) /\ m_frames (k_mem s') = m_frames (k_mem s)
}.

Hypothesis Hw : waits.

Lemma wait_reaped_ok i k bk r st :
  st_pcbs (k_store s) !! k = Some bk -> k ∈ l -> exited (k_store s) k = true ->
  rel_repr r (delete i l) -> has_parent r = has_parent (p_relations b) ->
  st_pcbs st = <[p := set_p_relations r b]> (delete k (st_pcbs (k_store s))) ->
  (uc_reg0 u <> 0 -> forall j, 0 <= j < 4 -> accessible t (uc_reg0 u + j) true) ->
  wp ((if uc_reg0 u =? 0 then mret tt else zoom (user_write_int (uc_reg0 u) (p_exit_code bk)));;
      returning (set_reg0 p 0)) (fun f s' => f = Returned /\ wait_reaped i k s')
    (km s (set_m_store st (k_mem s)) (k_sched s)).
Proof.
  intros Hbk Hk Hex Hr Hrp Est Hacc. set (m1 := set_m_store st (k_mem s)).
  assert (k <> p) as Hkp by (intros ->; by apply (proj2 (wt_children Hw))).
  assert (user_ok m1 c t) as Hu1.
  { apply user_ok_store; [apply Hw|]. intros a Ha. rewrite (wt_ctx Hw) in Ha. injection Ha as <-.
    change (m_store (k_mem s)) with (k_store s). by rewrite Est, lookup_insert_eq, (wt_block Hw). }
  assert (st_pcbs st !! p = Some (set_p_relations r b)) as Hp by (rewrite Est; apply lookup_insert_eq).
  assert (exists pm, wp (if uc_reg0 u =? 0 then mret tt else zoom (user_write_int (uc_reg0 u) (p_exit_code bk)))
    (fun _ s' => s' = km s (set_m_pmem pm m1) (k_sched s)) (km s m1 (k_sched s)) /\
    (uc_reg0 u <> 0 -> user_read_word (uc_reg0 u) (set_m_pmem pm m1) = Some (to_u32 (p_exit_code bk), set_m_pmem pm m1)) /\
    forall f o, (uc_reg0 u <> 0 -> forall j, 0 <= j < 4 -> location t (uc_reg0 u + j) <> Some (f, o)) ->
      pm f o = m_pmem (k_mem s) f o) as (pm & Hwrite & Hread & Hpm).
  { destruct (Z.eqb_spec (uc_reg0 u) 0) as [E|E].
    - exists (m_pmem m1). split; [by wp_step; destruct s as [[] ? ? ? ?]|]. done.
    - destruct (user_write_int_ok m1 c t (uc_reg0 u) (p_exit_code bk) Hu1 (Hacc E)) as (pm & Hrun & Hread & Hpm).
      exists pm. split; [apply wp_km; unfold wp; by rewrite Hrun|]. split; [done|]. intros f o Hf. by apply Hpm, Hf. }
  wp_step. eapply wp_mono; [exact Hwrite|]. intros [] ? ->.
  unfold returning. wp_step. eapply set_reg0_km; [exact Hp|]. wp_step. split; [done|].
  set (b' := set_p_uc _ _).
  assert (user_ok (with_block p b' (set_m_pmem pm m1)) c t) as Hu2.
  { apply user_ok_store; [by apply user_ok_pmem|]. intros a Ha. simpl in Ha.
    rewrite (wt_ctx Hw) in Ha. injection Ha as <-. simpl. by rewrite lookup_insert_eq, Hp. }
  split.
  - exists r. split; [|done]. simpl. by rewrite lookup_insert_eq.
  - simpl. by rewrite lookup_insert_ne, Est, lookup_insert_ne, lookup_delete_eq.
  - intros a Hap Hak. simpl. by rewrite lookup_insert_ne, Est, lookup_insert_ne, lookup_delete_ne.
  - exists bk. split; [done|]. intros E.
    eapply (user_read_word_same (set_m_pmem pm m1)); [by apply user_ok_pmem|exact Hu2|done|by apply Hacc|by apply Hread].
  - exact Hpm.
  - split; [done|]. eapply sched_inv_keeps; [apply Hw|]. intros a ba Ha Hba.
    assert (a <> k) as Hak by (intros ->; rewrite (wt_alive Hw k Ha) in Hex; done).
    assert (a <> p) as Hap by (intros ->; by apply (wt_queued Hw)).
    exists ba. simpl. by rewrite lookup_insert_ne, Est, lookup_insert_ne, lookup_delete_ne.
Qed.

Lemma wait_blocked_ok st :
  st_pcbs st = st_pcbs (k_store s) ->
  wp (zoom (wait_block_process p);; switch_away KC_wait (Some p))
    (fun f s' => f = Switched kc' /\ wait_blocked s') (km s (set_m_store st (k_mem s)) (k_sched s)).
Proof.
  intros Est. destruct Hw as [Hrun [Hidle Hpi] Hctx Hb _ _ _ Hinv Hq _ (bn & ks & Hbn & Hsw) Ht].
  wp_step. apply wp_km_sched. eapply wp_mono.
  { eapply (wait_block_process_ok st (k_sched s) R W S p b); [|done|by rewrite Est|congruence].
    eapply sched_inv_keeps; [exact Hinv|by apply keeps_same]. }
  intros [] [st1 sc1] (Hinv1 & Hn1 & q' & Esc). simpl in *. subst sc1.
  assert (next_of idle R <> p) as Hnp.
  { destruct R; simpl; [congruence|]. intros ->. apply Hq. by left. }
  assert (next_of idle R ∉ p :: W) as Hnw.
  { intros [|Hin]%elem_of_cons; [done|]. destruct R as [|r R']; simpl in *.
    - apply (si_idle _ _ _ _ Hinv idle Hidle). apply elem_of_app. right. apply elem_of_app. by left.
    - pose proof (si_nodup _ _ _ _ Hinv) as Hnd. apply NoDup_cons in Hnd as [Hnd _]. apply Hnd.
      apply elem_of_app. right. apply elem_of_app. by left. }
  destruct (next_only_block _ _ _ p (set_p_state WAITING b) Hn1) as [n Hp1]; [apply lookup_insert_eq|].
  eapply wp_mono; [apply (switch_away_ok KC_wait kc' p idle R (W ++ [p]) S); simpl|].
  - exact Hinv1.
  - done.
  - done.
  - by eexists.
  - exists bn, ks. split; [|done]. change (k_store (km s (set_m_store st1 _) _)) with st1.
    rewrite (no_out _ _ _ Hn1) by done. simpl. by rewrite lookup_insert_ne, Est by done.
  - exact Ht.
  - intros f s' [-> [Hr _ _ Hs (Hbp & _) [_ _ _ _ _ (Hf & Hm & _)] _]]. split; [done|].
    split; [exact Hr|exact Hs| |by split]. exists n. rewrite Hbp.
    change (k_store (km s (set_m_store st1 _) _)) with st1. by rewrite Hp1.
Qed.

Lemma KernelWait_ok :
  (uc_reg0 u <> 0 -> forall j, 0 <= j < 4 -> accessible t (uc_reg0 u + j) true) ->
  wp (KernelWait p) (fun f s' =>
    match list_find (fun k => exited (k_store s) k = true) l with
    | Some (i, k) => f = Returned /\ wait_reaped i k s'
    | None => f = Switched kc' /\ wait_blocked s'
    end) s.
Proof.
  intros Hacc. unfold KernelWait. rewrite <- (km_same s) at 1.
  wp_step. apply wp_km_running with p; [apply Hw|]. wp_step. eapply get_uc_km; [apply Hw|].
  wp_step. apply wp_km_store.
  eapply wp_mono; [eapply (find_exited_child_ok (k_store s) p b l); apply Hw|].
  intros code st (_ & _ & Hres). destruct (list_find _ l) as [[i k]|] eqn:Hf.
  - destruct Hres as (bk & r & Hbk & -> & Hr & Hrp & Est).
    apply list_find_Some in Hf as (Hi & Hex & _).
    eapply wait_reaped_ok; try done. by eapply list_elem_of_lookup_2.
  - destruct Hres as [-> Est]. by apply wait_blocked_ok.
Qed.
End wait.

(** C13: [KernelWait].  If a child has exited, the call returns 0 at once: the
    first exited child is no longer a child and its block is freed, its exit
    code is the word at the address the caller gave, unless that is 0, and
    nothing else changes.  Otherwise the caller, in state WAITING, is last in
    the queue of waiting processes with the end of the call left to do, and
    the next process runs. *)
Theorem wait_reaps_or_blocks {hw : Machine} {hw_ok : MachineOk} (s : kstate) (kc' : kcontext) (p idle : addr)
    (b : pcb) (c : mem_ctx_t) (t : list pte) (l R W S : list addr) :
  waits s kc' p idle b c t l R W S ->
  (uc_reg0 (p_uc b) <> 0 -> forall j, 0 <= j < 4 -> accessible t (uc_reg0 (p_uc b) + j) true) ->
  exists f s', KernelWait p s = Some (f, s') /\
    match list_find (fun k => exited (k_store s) k = true) l with
    | Some (i, k) => f = Returned /\ wait_reaped s p b t l R W S i k s'
    | None => f = Switched kc' /\ wait_blocked s p idle b R W S s'
    end.
Proof.
  intros Hw Hacc. destruct (proj1 (wp_run _ _ _) (KernelWait_ok s kc' p idle b c t l R W S Hw Hacc))
    as (f & s' & Hrun & Hres). by exists f, s'.
Qed.

(** The child of the running process has exited with code 7; the parent wants
    the code at 272, in its page of data. *)
Definition demo_wait_uc : UserContext := demo_uc 272 0 0.
Definition demo_wait_state : kstate :=
  set_k_store (set_pcbs (<[5%positive := demo_pcb EXITED 7 []]> (<[2%positive :=
      demo_proc 1 RUNNING [3%positive; 5%positive] (demo_stack 8 9) (demo_image 5 6 7) demo_wait_uc]>
    (st_pcbs (demo_kstore demo_wait_uc)))) (demo_kstore demo_wait_uc)) (demo_kernel_state demo_wait_uc).
Lemma demo_waits : @waits demo_machine demo_wait_state KC_return 2 1
  (demo_proc 1 RUNNING [3%positive; 5%positive] (demo_stack 8 9) (demo_image 5 6 7) demo_wait_uc)
  (demo_image 5 6 7) ([mapped_pte 5 5; mapped_pte 6 3] ++ replicate 13 pte_zero ++ [mapped_pte 7 3])
  [3%positive; 5%positive] [3%positive] [] [].
Proof.
  split; try reflexivity.
  - by split.
  - split; [apply demo_pcb_repr|by apply (bool_decide_unpack _)].
  - intros a [->|[->|[]%not_elem_of_nil]%elem_of_cons]%elem_of_cons; by eexists.
  - destruct (demo_kernel_user_ok demo_wait_uc). by split.
  - eapply (sched_inv_keeps (demo_kstore demo_wait_uc)); [apply demo_kernel_sched|].
    intros a ba ->%list_elem_of_singleton [= <-]. by eexists.
  - by apply (bool_decide_unpack _).
  - by intros a ->%list_elem_of_singleton.
  - do 2 eexists. split; [reflexivity|]. by split.
Defined.

Lemma wait_reaps_or_blocks_witness :
  exists s', @KernelWait demo_machine 2 demo_wait_state = Some (Returned, s') /\
    st_pcbs (k_store s') !! 5%positive = None /\
    @user_read_word demo_machine 272 (k_mem s') = Some (7, k_mem s').
Proof.
  destruct (@wait_reaps_or_blocks demo_machine demo_machine_ok _ _ _ _ _ _ _ _ _ _ _ demo_waits)
    as (f & s' & Hrun & Hres).
  { intros _ j Hj. assert (j = 0 \/ j = 1 \/ j = 2 \/ j = 3) as [->|[->|[->| ->]]] by lia;
      (split; [by vm_compute|]; do 2 eexists; split; [reflexivity|]; by split; vm_compute). }
  destruct Hres as [-> [_ Hfree _ (bk & Hbk & Hcode) _ _]].
  exists s'. split; [exact Hrun|]. split; [exact Hfree|]. vm_compute in Hbk. injection Hbk as <-.
  exact (Hcode ltac:(done)).
Defined.
