(* ===== verification/Exiting.v ===== *)
(** * Ending a process ([KernelExit])

    What is given back and to whom the processor goes, in the state of the
    kernel.  The definitions are in [Syscalls]. *)

From S2P Require Import Prelude Machine Pcb FrameTracking Paging KernelMemory UserMemory AddressSpace Fifo SleepHeap Scheduler PipeBuffer PipeTable Locks Terminals Kernel DemoKernel Switching PipeCalls TtyCalls Synchronization LoadProgram Syscalls UserBuffers PipeWorld Processes.

Lemma in_ctx_blocks x f e m p :
  m_mem_ctx m = Some p ->
  st_pcbs (m_store (set_m_frames f (in_ctx x f e m))) = alter (set_p_mem_ctx x) p (st_pcbs (m_store m)).
Proof. intros Hp. unfold in_ctx. by rewrite Hp. Qed.

(** ** Giving the kernel stack back *)
Section stack.
Context {hw : Machine} {hw_ok : MachineOk}.

Lemma deallocate_kernel_stack_ok m :
  frames_wf (m_frames m) -> zlen (m_region0_pt m) = REGION0_VPNS ->
  (forall i f q, maps (m_region0_pt m) i = Some (f, q) -> frame_range (m_frames m) f) ->
  wp deallocate_kernel_stack (fun _ m' => exists f', m' = set_m_frames f' m /\ frames_wf f' /\
    NUM_FRAMES f' = NUM_FRAMES (m_frames m) /\
    free_set f' = free_set (m_frames m) ∪ frames_of (m_region0_pt m) K_STACK_BASE_VPN K_STACK_LIMIT_VPN) m.
Proof.
  intros Hwf Hlen Hrange. destruct kstack_vpns_spec as (Hb & Hl & Hk).
  unfold deallocate_kernel_stack.
  apply (wp_for_range _ _ _ (fun vpn m' => exists f', m' = set_m_frames f' m /\ frames_wf f' /\
    NUM_FRAMES f' = NUM_FRAMES (m_frames m) /\
    free_set f' = free_set (m_frames m) ∪ frames_of (m_region0_pt m) K_STACK_BASE_VPN vpn)).
  - exists (m_frames m). split; [by destruct m|]. do 2 (split; [done|]).
    unfold frames_of. rewrite Z.sub_diag. set_solver.
  - intros vpn ? Hvpn (f1 & -> & Hwf1 & Hn1 & Hf1). unfold free_no_unmap.
    rewrite (proj2 (Z.leb_gt _ _)), (proj2 (Z.ltb_ge _ _)) by lia. cbn [orb].
    wp_step. wp_step. wp_step.
    destruct (zget_inside (m_region0_pt m) vpn) as [e He]; [lia|]. wp_step. eapply wp_lift_opt; [exact He|].
    assert (forall f, f ∈ frames_of (m_region0_pt m) K_STACK_BASE_VPN (vpn + 1) <->
      f ∈ frames_of (m_region0_pt m) K_STACK_BASE_VPN vpn \/ (pte_valid e = true /\ f = pte_pfn e)) as Hstep.
    { intros f. rewrite !elem_of_frames_of. split.
      - intros (i & q & Hi & Hm). destruct (decide (i = vpn)) as [->|]; [right|left; exists i, q; split; [lia|done]].
        unfold maps in Hm. rewrite He in Hm. simpl in Hm. by destruct (pte_valid e); simplify_eq.
      - intros [(i & q & Hi & Hm)|[Hv ->]]; [exists i, q; split; [lia|done]|].
        exists vpn, (pte_prot e). unfold maps. rewrite He. simpl. rewrite Hv. split; [lia|done]. }
    destruct (pte_valid e) eqn:Hv; simpl.
    + wp_step. wp_step. change (lget (set_m_frames f1 m)) with f1.
      eapply wp_mono; [by apply free_frame_ok|]. intros r f2 (Hwf2 & Hn2 & Hres).
      assert (free_set f2 = free_set f1 ∪ {[pte_pfn e]}) as Hf2.
      { case_decide as Hc; [by destruct Hres|]. destruct Hres as [_ ->].
        assert (pte_pfn e ∈ free_set f1) as Hin; [|set_solver].
        apply dec_stable. intros Hin. apply Hc. split; [|done]. unfold frame_range. rewrite Hn1.
        apply (Hrange vpn _ (pte_prot e)). unfold maps. rewrite He. simpl. by rewrite Hv. }
      assert (wp (if negb r then mret false else mret true : M mstate bool) (fun _ m' => m' = set_m_frames f2 m)
        (set_m_frames f2 m)) as Hlast by (by destruct r; apply wp_ret).
      eapply wp_mono; [exact Hlast|]. intros _ ? ->. wp_step. exists f2. split; [done|]. split; [done|].
      split; [congruence|]. apply set_eq. intros f. rewrite Hf2, Hf1, !elem_of_union, elem_of_singleton, Hstep. naive_solver.
    + wp_step. wp_step. exists f1. do 3 (split; [done|]). apply set_eq. intros f.
      rewrite Hf1, !elem_of_union, Hstep. naive_solver.
  - intros ? (f' & -> & ? & ? & Hf). exists f'. do 3 (split; [done|]).
    by rewrite Z.max_r in Hf by lia.
Qed.
End stack.

(** ** The process that is chosen to run next *)

(** A block without what the scheduler writes. *)
Definition unscheduled (b : pcb) : pcb := set_p_state RUNNING (set_p_next None b).

Record picked (idle : addr) (R W S : list addr) (st : store) (sc : sched_t) (st1 : store) (sc1 : sched_t)
    : Prop := {
  pk_sched : sched_inv (st1, sc1) (tail R) W S;
  pk_running : running_proc sc1 = running_proc sc /\ idle_proc sc1 = idle_proc sc;
  pk_others : forall a, a <> next_of idle R -> st_pcbs st1 !! a = st_pcbs st !! a;
  pk_next : exists bn b1, st_pcbs st !! next_of idle R = Some bn /\ st_pcbs st1 !! next_of idle R = Some b1 /\
    unscheduled b1 = unscheduled bn /\ p_state b1 <> EXITED /\ (R <> [] -> p_state b1 = RUNNING);
  pk_calls : st_pid_calls st1 = st_pid_calls st
}.

Lemma next_picked st sc R W S idle :
  sched_inv (st, sc) R W S -> idle_proc sc = Some idle -> is_Some (st_pcbs st !! idle) ->
  exited st idle = false ->
  wp get_next_process (fun r x => r = next_of idle R /\ picked idle R W S st sc x.1 x.2) (st, sc).
Proof.
  intros Hinv Hidle [bi Hbi] Hex. eapply wp_mono; [by apply (get_next_process_ok _ _ R W S idle)|].
  intros r [st1 sc1] Hres. destruct R as [|a R]; simpl in *.
  - destruct Hres as [-> [= -> ->]]. split; [done|]. split; try done.
    exists bi, bi. split; [done|]. split; [done|]. split; [done|]. split; [|done].
    unfold exited in Hex. rewrite Hbi in Hex. by case_bool_decide.
  - destruct Hres as (-> & Hinv' & b & n & q' & Hb & -> & ->). split; [done|]. split; simpl; try done.
    + intros x Hx. by rewrite lookup_insert_ne.
    + exists b. eexists. split; [done|]. split; [apply lookup_insert_eq|]. by destruct b.
Qed.

Lemma next_of_other idle R p : p <> idle -> p ∉ R -> next_of idle R <> p.
Proof. intros Hi Hp. destruct R; simpl; [congruence|]. intros ->. apply Hp. by left. Qed.

Lemma next_of_in idle R : next_of idle R ∈ idle :: R.
Proof. destruct R; simpl; set_solver. Qed.

Lemma elem_of_tail {A} (x : A) R : x ∈ tail R -> x ∈ R.
Proof. destruct R; [done|]. by right. Qed.
Lemma next_not_queued st sc idle R W S :
  sched_inv (st, sc) R W S -> idle_proc sc = Some idle -> next_of idle R ∉ tail R ++ W ++ S.
Proof.
  intros [_ _ _ _ Hnd Hi] Hidle. destruct R as [|r R]; simpl in *; [by apply Hi|].
  by apply NoDup_cons in Hnd as [? _].
Qed.

(** ** [KernelExit] *)
Section exit.
Context {hw : Machine} {hw_ok : MachineOk}.
Context (s : kstate) (kc' : kcontext) (p idle : addr) (b : pcb) (c : mem_ctx_t) (t : list pte)
  (l R W S : list addr).

Let nxt : addr := next_of idle R.

(** The process [p] runs, with the block [b], the children [l] and the pages
    [t]; neither the idle process nor one in a queue has exited. *)
Record exits : Prop := {
  ex_running : running_proc (k_sched s) = Some p;
  ex_idle : idle_proc (k_sched s) = Some idle /\ p <> idle /\ is_Some (st_pcbs (k_store s) !! idle);
  ex_ctx : m_mem_ctx (k_mem s) = Some p;
  ex_block : st_pcbs (k_store s) !! p = Some b;
  ex_pid : p_pid b <> 1;
  ex_children : rel_repr (p_relations b) l /\ NoDup l /\ p ∉ l;
  ex_live : forall a, a ∈ l -> is_Some (st_pcbs (k_store s) !! a);
  ex_user : user_ok (k_mem s) c t;
  ex_kernel : kernel_ok (k_mem s);
  ex_sched : sched_inv (k_store s, k_sched s) R W S;
  ex_queued : p ∉ R ++ W ++ S;
  ex_alive : forall a, a ∈ idle :: R ++ W ++ S -> exited (k_store s) a = false;
  ex_next : switchable (k_store s) kc' nxt
}.

(** What becomes of the block at [a]: children that exited are freed, the
    others lose their parent; [p] itself is kept, without what it owned, when
    its parent has still to ask for the [code]. *)
Definition after_exit (code : Z) (a : addr) : option pcb :=
  if decide (a = p) then
    (if has_parent (p_relations b) then Some (retired (set_p_state EXITED (set_p_exit_code code b))) else None)
  else if decide (a ∈ l) then st_pcbs (k_store s) !! a ≫= after_parent
  else st_pcbs (k_store s) !! a.

Record exit_done (code : Z) (s' : kstate) : Prop := {
  xd_running : running_proc (k_sched s') = Some nxt /\ m_mem_ctx (k_mem s') = Some nxt;
  xd_sched : sched_inv (k_store s', k_sched s') (tail R) W S;
  xd_blocks : forall a, a <> nxt -> st_pcbs (k_store s') !! a = after_exit code a;
  xd_next : exists bn b', after_exit code nxt = Some bn /\ st_pcbs (k_store s') !! nxt = Some b' /\
    unscheduled b' = unscheduled bn /\ p_state b' <> EXITED /\ (R <> [] -> p_state b' = RUNNING) /\
    zslice (m_region0_pt (k_mem s')) K_STACK_BASE_VPN K_STACK_VPNS = p_ks_pt b';
  xd_frames : free_set (m_frames (k_mem s')) = free_set (m_frames (k_mem s)) ∪
    frames_of t 0 REGION1_VPNS ∪ frames_of (m_region0_pt (k_mem s)) K_STACK_BASE_VPN K_STACK_LIMIT_VPN;
  xd_pids : st_pid_calls (k_store s') = RetirePid (p_pid b) :: st_pid_calls (k_store s);
  xd_memory : m_pmem (k_mem s') = m_pmem (k_mem s);
  xd_allocator : frames_wf (m_frames (k_mem s')) /\ NUM_FRAMES (m_frames (k_mem s')) = NUM_FRAMES (m_frames (k_mem s));
  xd_idle : idle_proc (k_sched s') = Some idle;
  xd_kernel : m_vm_enabled (k_mem s') = m_vm_enabled (k_mem s) /\
    m_current_brk_page (k_mem s') = m_current_brk_page (k_mem s) /\
    zlen (m_region0_pt (k_mem s')) = REGION0_VPNS /\
    forall i, i < K_STACK_BASE_VPN \/ K_STACK_LIMIT_VPN <= i ->
      zget (m_region0_pt (k_mem s')) i = zget (m_region0_pt (k_mem s)) i
}.

Hypothesis Hex : exits.

Lemma exit_next_other : nxt <> p.
Proof.
  apply next_of_other; [apply Hex|]. pose proof (ex_queued Hex). set_solver.
Qed.

(** The frames of the process are given back. *)
Lemma exit_frames_ok st (Q : unit -> mstate -> Prop) :
  (p_mem_ctx <$> st_pcbs st !! p) = Some (p_mem_ctx b) ->
  (forall t' f' e', frames_wf f' -> NUM_FRAMES f' = NUM_FRAMES (m_frames (k_mem s)) -> free_set f' = free_set (m_frames (k_mem s)) ∪ frames_of t 0 REGION1_VPNS ∪
       frames_of (m_region0_pt (k_mem s)) K_STACK_BASE_VPN K_STACK_LIMIT_VPN ->
     Q tt (set_m_frames f' (in_ctx (set_region1_pt t' c) f' e' (set_m_store st (k_mem s))))) ->
  wp (deallocate_region1;; deallocate_kernel_stack) Q (set_m_store st (k_mem s)).
Proof.
  intros Hp HQ. assert (user_ok (set_m_store st (k_mem s)) c t) as Hu.
  { apply user_ok_store; [apply Hex|]. intros a Ha. rewrite (ex_ctx Hex) in Ha. injection Ha as <-.
    change (m_store (k_mem s)) with (k_store s). by rewrite Hp, (ex_block Hex). }
  wp_step. eapply wp_mono; [by apply (deallocate_region1_ok _ c t)|].
  intros [] ? (t' & f' & e' & -> & Hok & _ & Hf & Hn). simpl in Hf, Hn.
  assert (forall x, m_region0_pt (in_ctx x f' e' (set_m_store st (k_mem s))) = m_region0_pt (k_mem s)) as Er
    by (intros x; unfold in_ctx; simpl; by rewrite (ex_ctx Hex)).
  pose proof (ko_table _ (ex_kernel Hex)) as Hok0.
  eapply wp_mono; [apply deallocate_kernel_stack_ok|].
  - apply Hok.
  - rewrite Er. apply (to_len _ _ Hok0).
  - intros i f q. rewrite Er. simpl. unfold frame_range. rewrite Hn. apply (to_range _ _ Hok0).
  - intros [] ? (f2 & -> & Hwf2 & Hn2 & Hf2). rewrite Er in Hf2. simpl in Hf2, Hn2. rewrite Hf in Hf2.
    apply (HQ (Some t') f2 e' Hwf2 ltac:(congruence) Hf2).
Qed.

(** The block of [p] as it exits, with the pages [x]. *)
Definition exiting (code : Z) (x : mem_ctx_t) : pcb :=
  set_p_mem_ctx x (set_p_state EXITED (set_p_exit_code code b)).

Lemma exit_ctx : p_mem_ctx b = c.
Proof.
  destruct (proj1 (current_ctx_Some _ _) (uo_ctx _ _ _ (ex_user Hex))) as (a & ba & Ha & Hba & <-).
  pose proof (ex_ctx Hex). pose proof (ex_block Hex). unfold k_store in *. congruence.
Qed.

(** The family after [retire_pcb]. *)
Lemma exit_family code t' st1 sc1 st3 :
  picked idle R W S (k_store s) (k_sched s) st1 sc1 ->
  st_pcbs st3 = <[p := exiting code (set_region1_pt t' c)]> (st_pcbs st1) -> st_pid_calls st3 = st_pid_calls st1 ->
  wp (retire_pcb p) (fun _ st4 => st_pid_calls st4 = RetirePid (p_pid b) :: st_pid_calls (k_store s) /\
    (forall a, a <> nxt -> st_pcbs st4 !! a = after_exit code a) /\
    exists bn b4, after_exit code nxt = Some bn /\ st_pcbs st4 !! nxt = Some b4 /\
      unscheduled b4 = unscheduled bn /\ p_state b4 <> EXITED /\ (R <> [] -> p_state b4 = RUNNING)) st3.
Proof.
  intros [_ _ Hoth (bn & b1 & Hbn & Hb1 & Eu & Hne & Hrun) Hcalls] Est Ecalls.
  pose proof exit_next_other as Hnp. fold nxt in Hoth, Hbn, Hb1.
  eapply wp_mono; [eapply (retire_pcb_ok st3 p (exiting code (set_region1_pt t' c)) l)|].
  - rewrite Est. apply lookup_insert_eq.
  - apply Hex.
  - apply Hex.
  - apply Hex.
  - intros a Ha. assert (a <> p) by (intros ->; by apply Hex in Ha).
    rewrite Est, lookup_insert_ne by done. destruct (decide (a = nxt)) as [->|]; [by eexists|].
    rewrite Hoth by done. by apply Hex.
  - intros [] st4 (_ & Hcalls4 & Hst4). split; [|split].
    + rewrite Hcalls4, Ecalls, Hcalls. done.
    + intros a Ha. rewrite Hst4. unfold after_exit. case_decide as Hap.
      { simpl. unfold exiting, retired. rewrite <- exit_ctx. done. }
      rewrite Est, lookup_insert_ne, Hoth by done. done.
    + assert (st_pcbs st4 !! nxt = if decide (nxt ∈ l) then Some (orphaned b1) else Some b1) as Hn4.
      { rewrite Hst4, decide_False by done. rewrite Est, lookup_insert_ne, Hb1 by done.
        case_decide; [|done]. simpl. unfold after_parent. by rewrite decide_False. }
      unfold after_exit. rewrite decide_False by done. rewrite Hbn, Hn4. case_decide; simpl.
      * unfold after_parent. rewrite decide_False.
        2: { pose proof (ex_alive Hex nxt) as Ha. unfold exited in Ha. rewrite Hbn in Ha.
             rewrite bool_decide_eq_false in Ha. apply Ha. unfold nxt.
             pose proof (next_of_in idle R). set_solver. }
        exists (orphaned bn), (orphaned b1). do 2 (split; [done|]). split; [|done].
        change (orphaned (unscheduled b1) = orphaned (unscheduled bn)). by rewrite Eu.
      * exists bn, b1. done.
Qed.

(** The switch to the next process, which still has its kernel stack. *)
Lemma exit_switch_ok code f' e' st4 sc1 st1 st2 x :
  picked idle R W S (k_store s) (k_sched s) st1 sc1 ->
  frames_wf f' -> NUM_FRAMES f' = NUM_FRAMES (m_frames (k_mem s)) ->
  free_set f' = free_set (m_frames (k_mem s)) ∪ frames_of t 0 REGION1_VPNS ∪
    frames_of (m_region0_pt (k_mem s)) K_STACK_BASE_VPN K_STACK_LIMIT_VPN ->
  st_pid_calls st4 = RetirePid (p_pid b) :: st_pid_calls (k_store s) ->
  (forall a, a <> nxt -> st_pcbs st4 !! a = after_exit code a) ->
  (exists bn b4, after_exit code nxt = Some bn /\ st_pcbs st4 !! nxt = Some b4 /\
     unscheduled b4 = unscheduled bn /\ p_state b4 <> EXITED /\ (R <> [] -> p_state b4 = RUNNING)) ->
  wp (k ← FullContextSwitch KC_zero None nxt; mret (Switched k))
    (fun f s' => f = Switched kc' /\ exit_done code s')
    (km s (set_m_store st4 (set_m_frames f' (in_ctx x f' e' (set_m_store st2 (k_mem s))))) sc1).
Proof.
  intros [Hinv1 [_ Hid1] Hoth1 Hnx1 _] Hwf Hnum Hf Hcalls Hst4 (bn & b4 & Hbn & Hb4 & Eu & Hne4 & Hrun).
  set (m := set_m_store st4 _).
  assert (m_region0_pt m = m_region0_pt (k_mem s) /\ m_pmem m = m_pmem (k_mem s) /\
    m_vm_enabled m = m_vm_enabled (k_mem s) /\ m_current_brk_page m = m_current_brk_page (k_mem s)) as (Er & Em & Evm & Ebk)
    by (unfold m, in_ctx; simpl; by rewrite (ex_ctx Hex)).
  pose proof (to_len _ _ (ko_table _ (ex_kernel Hex))) as Hlen.
  assert (exists b0, st_pcbs (k_store s) !! nxt = Some b0 /\ p_ks_pt b4 = p_ks_pt b0 /\ p_kc b4 = p_kc b0)
    as (b0 & Hb0 & Eks & Ekc).
  { unfold after_exit in Hbn. rewrite decide_False in Hbn by apply exit_next_other.
    destruct (st_pcbs (k_store s) !! nxt) as [b0|]; [|by case_decide]. exists b0. split; [done|].
    assert (p_ks_pt bn = p_ks_pt b0 /\ p_kc bn = p_kc b0) as [<- <-].
    { case_decide; [|by simplify_eq]. simpl in Hbn. unfold after_parent in Hbn. case_decide; by simplify_eq/=. }
    by destruct b4, bn; simplify_eq/=. }
  assert (switchable st4 kc' nxt) as Hsw.
  { destruct (ex_next Hex) as (b0' & ks & Hb0' & Hks & Hl & Hkc). simplify_eq. exists b4, ks.
    split; [done|]. split; [congruence|]. split; [done|congruence]. }
  wp_step. eapply wp_mono; [apply (FullContextSwitch_ok (km s m sc1) KC_zero kc' None nxt Hsw); [|done]|].
  { change (zlen (m_region0_pt m) = REGION0_VPNS). by rewrite Er. }
  intros k s' (-> & t0 & ks & b4' & Hb4' & Hks & Hlk & Hblit & ->). wp_step. split; [done|].
  change (k_store (km s m sc1)) with st4 in *. assert (b4' = b4) as -> by congruence.
  change (zblit (m_region0_pt m) K_STACK_BASE_VPN ks = Some t0) in Hblit. rewrite Er in Hblit.
  destruct (stack_blit (m_region0_pt (k_mem s)) ks Hlen Hlk) as (t0' & Hblit' & Hlen' & Hslice & Hrest).
  assert (t0' = t0) as -> by congruence. split; try done.
  - simpl. apply sched_inv_set_running. eapply sched_inv_keeps; [exact Hinv1|].
    intros a ba Ha Hba.
    assert (a ∈ R ++ W ++ S) as Ha' by (destruct (decide (a ∈ tail R)); [|set_solver];
      apply elem_of_app; left; by apply elem_of_tail).
    assert (a <> nxt) as Han by (intros ->; apply (next_not_queued _ _ idle R W S (ex_sched Hex)); [apply Hex|done]).
    rewrite Hoth1 in Hba by done. rewrite Hst4 by done. unfold after_exit.
    rewrite decide_False by (intros ->; by apply (ex_queued Hex)). rewrite Hba. case_decide; [|by exists ba].
    simpl. unfold after_parent. rewrite decide_False; [by eexists|].
    pose proof (ex_alive Hex a) as Hal. unfold exited in Hal. rewrite Hba, bool_decide_eq_false in Hal.
    apply Hal. by right.
  - exists bn, b4. do 5 (split; [done|]). simpl. congruence.
  - simpl. rewrite Hid1. apply Hex.
Qed.

(** The code the parent will be told: the argument of [Exit], -1 of a process
    that is killed. *)
Definition exit_code_of (uc : option addr) : Z :=
  match uc with Some _ => reg0_int (p_uc b) | None => -1 end.

Lemma KernelExit_ok uc :
  uc = None \/ uc = Some p ->
  wp (KernelExit uc) (fun f s' => f = Switched kc' /\ exit_done (exit_code_of uc) s') s.
Proof.
  intros Huc. destruct Hex as [Hrun (Hidle & Hpi & Hli) Hctx Hb Hpid _ _ _ _ Hinv _ Hal _].
  unfold KernelExit. rewrite <- (km_same s) at 1.
  wp_step. apply wp_km_running with p; [done|]. wp_step. apply wp_km_store. eapply wp_load; [exact Hb|].
  rewrite (proj2 (Z.eqb_neq _ _) Hpid). change (m_store (k_mem s)) with (k_store s).
  wp_step. apply wp_km_sched. eapply wp_mono.
  { apply (next_picked (k_store s) (k_sched s) R W S idle); [done..|]. apply Hal. by left. }
  intros r [st1 sc1] [-> Hpk]. cbn [fst snd] in *. fold nxt.
  assert (st_pcbs st1 !! p = Some b) as Hp1.
  { rewrite (pk_others _ _ _ _ _ _ _ _ Hpk); [done|]. apply not_eq_sym, exit_next_other. }
  set (m1 := set_m_store st1 (k_mem s)).
  assert (wp (match uc with None => mret (-1) | Some a => u ← get_uc a; mret (reg0_int u) end)
    (fun code s' => code = exit_code_of uc /\ s' = km s m1 sc1) (km s m1 sc1)) as Hcode.
  { destruct Huc as [->| ->]; [by wp_step|]. wp_step. eapply get_uc_km; [exact Hp1|]. by wp_step. }
  wp_step. eapply wp_mono; [exact Hcode|]. intros code ? [-> ->]. set (code := exit_code_of uc).
  wp_step. apply wp_km_store. eapply wp_update; [exact Hp1|].
  wp_step. apply wp_km_store. eapply wp_update; [apply lookup_insert_eq|].
  set (st2 := set_pcbs _ _). change (set_m_store st2 _) with (set_m_store st2 (k_mem s)).
  assert (st_pcbs st2 = <[p := set_p_state EXITED (set_p_exit_code code b)]> (st_pcbs st1)) as Est2
    by (unfold st2; simpl; by rewrite insert_insert_eq).
  set (freed := fun (_ : unit) (m : mstate) => exists (t' : option (list pte)) f' e',
    m = set_m_frames f' (in_ctx (set_region1_pt t' c) f' e' (set_m_store st2 (k_mem s))) /\
    frames_wf f' /\ NUM_FRAMES f' = NUM_FRAMES (m_frames (k_mem s)) /\
    free_set f' = free_set (m_frames (k_mem s)) ∪ frames_of t 0 REGION1_VPNS ∪
      frames_of (m_region0_pt (k_mem s)) K_STACK_BASE_VPN K_STACK_LIMIT_VPN).
  assert (wp (deallocate_region1;; deallocate_kernel_stack) freed (set_m_store st2 (k_mem s))) as Hfr%wp_bind_inv.
  { apply exit_frames_ok; [by rewrite Est2, lookup_insert_eq|]. intros t' f' e' Hwf Hn Hf. by exists t', f', e'. }
  wp_step. apply wp_km. eapply wp_mono; [exact Hfr|].
  intros [] m3 Hm3. wp_step. apply wp_km. eapply wp_mono; [exact Hm3|].
  intros [] ? (t' & f' & e' & -> & Hwf & Hn & Hf). clear Hm3. wp_step. apply wp_km_store.
  eapply wp_mono; [eapply (exit_family code t' st1 sc1); [exact Hpk| |]|].
  - etrans; [apply (in_ctx_blocks (set_region1_pt t' c) f' e' (set_m_store st2 (k_mem s)) p Hctx)|].
    change (m_store (set_m_store st2 _)) with st2. rewrite Est2.
    rewrite (alter_Some _ _ _ (set_p_state EXITED (set_p_exit_code code b))) by apply lookup_insert_eq.
    by rewrite insert_insert_eq.
  - unfold in_ctx. simpl. rewrite Hctx. done.
  - intros [] st4 (Hcalls & Hst4 & Hn4).
    eapply wp_mono; [eapply (exit_switch_ok code f' e' st4 sc1 st1 st2 (set_region1_pt t' c)); done|].
    done.
Qed.
End exit.

(** C12: [KernelExit], of any process but the first.  Every frame of its pages
    and of its kernel stack is free, its number is retired, and the next ready
    process, or the idle one, runs on its own kernel stack with its own pages,
    going on with what it had left to do.  The children that have exited are
    freed and the others have no parent any more.  If the process has a parent
    its block stays, EXITED, with the exit code and without tables, for the
    parent to find; otherwise it is freed.  No other block changes, the rest of
    the ready queue keeps its order and no byte of memory changes. *)
Theorem exit_gives_back {hw : Machine} {hw_ok : MachineOk} (s : kstate) (kc' : kcontext) (p idle : addr)
    (b : pcb) (c : mem_ctx_t) (t : list pte) (l R W S : list addr) (uc : option addr) :
  exits s kc' p idle b c t l R W S -> uc = None \/ uc = Some p ->
  exists s', KernelExit uc s = Some (Switched kc', s') /\
    exit_done s p idle b t l R W S (exit_code_of b uc) s'.
Proof.
  intros Hex Huc. destruct (proj1 (wp_run _ _ _) (KernelExit_ok s kc' p idle b c t l R W S Hex uc Huc))
    as (f & s' & Hrun & -> & Hd). by exists s'.
Qed.

(** The running process of the concrete kernel, with the number 2 and the exit
    code 9, whose child at 3 is the next to run. *)
Definition demo_exit_proc : pcb :=
  demo_proc 2 RUNNING [3%positive] (demo_stack 8 9) (demo_image 5 6 7) (demo_uc 9 0 0).
Definition demo_exit_state : kstate :=
  set_k_store (set_pcbs (<[2%positive := demo_exit_proc]> (st_pcbs (demo_kstore (demo_uc 9 0 0))))
    (demo_kstore (demo_uc 9 0 0))) (demo_kernel_state (demo_uc 9 0 0)).
Lemma demo_exits : @exits demo_machine demo_exit_state KC_return 2 1 demo_exit_proc (demo_image 5 6 7)
  ([mapped_pte 5 5; mapped_pte 6 3] ++ replicate 13 pte_zero ++ [mapped_pte 7 3]) [3%positive] [3%positive] [] [].
Proof.
  split; try reflexivity.
  - split; [done|]. split; [done|by eexists].
  - done.
  - split; [apply demo_pcb_repr|]. split; by apply (bool_decide_unpack _).
  - intros a ->%list_elem_of_singleton. by eexists.
  - destruct (demo_kernel_user_ok (demo_uc 9 0 0)). by split.
  - apply kernel_ok_store. apply demo_kernel_kernel_ok.
  - eapply (sched_inv_keeps (demo_kstore (demo_uc 9 0 0))); [apply demo_kernel_sched|].
    intros a ba ->%list_elem_of_singleton [= <-]. by eexists.
  - by apply (bool_decide_unpack _).
  - intros a [->|[->|[]%not_elem_of_nil]%elem_of_cons]%elem_of_cons; reflexivity.
  - do 2 eexists. split; [reflexivity|]. by split.
Defined.

Lemma exit_gives_back_witness :
  exists s', @KernelExit demo_machine (Some 2%positive) demo_exit_state = Some (Switched KC_return, s') /\
    p_exit_code <$> st_pcbs (k_store s') !! 2%positive = Some 9 /\
    running_proc (k_sched s') = Some 3%positive.
Proof.
  destruct (@exit_gives_back demo_machine demo_machine_ok _ _ _ _ _ _ _ _ _ _ _ (Some 2%positive) demo_exits
    (or_intror eq_refl)) as (s' & Hrun & [[Hr _] _ Hblocks _ _ _ _]).
  exists s'. split; [exact Hrun|]. split; [|exact Hr]. rewrite Hblocks by done. reflexivity.
Defined.
