(* ===== verification/ExecImage.v ===== *)
(** * The image of a program ([LoadProgram] of [load_program.c])

    What a process looks like after an executable was loaded into it: its
    pages, the bytes of text and data, the stack of arguments.  The definitions
    are in [LoadProgram]. *)

From S2P Require Import Prelude Machine Pcb FrameTracking Paging KernelMemory UserMemory Fifo SleepHeap Scheduler PipeBuffer PipeTable Locks Terminals Kernel DemoKernel PipeCalls TtyCalls Synchronization LoadProgram Syscalls UserBuffers.

Section image.
Context {hw : Machine} {hw_ok : MachineOk}.

(** ** Memory as the process sees it *)
Definition vbyte (t : list pte) (pm : Z -> Z -> Z) (a : Z) : option Z :=
  '(f, o) ← location t a; Some (pm f o).

(** The word [v] at [a]. *)
Definition word (t : list pte) (pm : Z -> Z -> Z) (a v : Z) : Prop :=
  forall i, 0 <= i < 4 -> vbyte t pm (a + i) = zget (le_bytes v) i.

(** The frame is not one of the table's. *)
Definition foreign (t : list pte) (f : Z) : Prop := forall i q, maps t i <> Some (f, q).

Lemma location_own t a f o : location t a = Some (f, o) -> ~ foreign t f.
Proof.
  unfold location. destruct (maps t _) as [[f' q]|] eqn:E; [|done]. intros [= -> _] Hf. by eapply Hf.
Qed.

(** ** The state while a program is loaded

    The process [p] has the block [b] but for the memory context [c]; the
    frames, the log and physical memory are [f], [e] and [pm], and the rest is
    that of [m]. *)
Section loading.
Context (m : mstate) (p : addr).
Hypothesis Hctx : m_mem_ctx m = Some p.
Hypothesis Hlive : is_Some (st_pcbs (m_store m) !! p).

Definition loading (b : pcb) (c : mem_ctx_t) (f : frames_t) (e : list hw_event) (pm : Z -> Z -> Z) : mstate :=
  {| m_store := set_pcbs (<[p := set_p_mem_ctx c b]> (st_pcbs (m_store m))) (m_store m);
     m_frames := f; m_vm_enabled := m_vm_enabled m; m_region0_pt := m_region0_pt m;
     m_current_brk_page := m_current_brk_page m; m_mem_ctx := m_mem_ctx m; m_pmem := pm; m_events := e |}.

Lemma in_ctx_loading b c c' f f' e e' pm :
  in_ctx c' f' e' (loading b c f e pm) = loading b c' f' e' pm.
Proof.
  unfold in_ctx. simpl. rewrite Hctx. unfold loading, set_m_events, set_m_frames, set_m_store. simpl.
  f_equal. unfold set_pcbs. simpl. f_equal. apply map_eq. intros x.
  destruct (decide (p = x)) as [<-|]; [by rewrite lookup_alter_eq, !lookup_insert_eq|].
  by rewrite lookup_alter_ne, !lookup_insert_ne.
Qed.
Lemma loading_user b c t f e pm :
  region1_pt c = Some t -> table_ok (T := region1_table) f t -> user_ok (loading b c f e pm) c t.
Proof.
  intros Ht Hok. split; [|done|done]. apply current_ctx_Some. exists p, (set_p_mem_ctx c b).
  split; [done|]. split; [simpl; apply lookup_insert_eq|]. by destruct b.
Qed.
Lemma loading_pmem b c f e pm pm' : set_m_pmem pm' (loading b c f e pm) = loading b c f e pm'.
Proof. done. Qed.
Lemma wp_loading_update b c f e pm g Q :
  (forall x, set_p_mem_ctx c (g x) = g (set_p_mem_ctx c x)) -> Q tt (loading (g b) c f e pm) ->
  wp (zoom (update p g)) Q (loading b c f e pm).
Proof.
  intros Hg HQ. wp_step. eapply wp_update; [apply lookup_insert_eq|].
  unfold loading in HQ. simpl. rewrite insert_insert_eq, <- Hg. exact HQ.
Qed.
Lemma wp_loading_layout b c f e pm x y z w Q :
  Q tt (loading b (set_layout x y z w c) f e pm) ->
  wp (zoom (update p (fun b => set_p_mem_ctx (set_layout x y z w (p_mem_ctx b)) b))) Q (loading b c f e pm).
Proof.
  intros HQ. wp_step. eapply wp_update; [apply lookup_insert_eq|].
  unfold loading in HQ. simpl. rewrite insert_insert_eq. exact HQ.
Qed.

(** ** Copies to the process *)
Section copies.
Context (t : list pte) (f : frames_t) (c : mem_ctx_t).
Hypothesis Ht : region1_pt c = Some t.
Hypothesis Hok : table_ok (T := region1_table) f t.

(** Memory [pm'] is [pm] with [bytes] at [a]. *)
Definition copied_at (a : Z) (bytes : list Z) (pm pm' : Z -> Z -> Z) : Prop :=
  (forall x, vbyte t pm' x =
     if decide (a <= x < a + zlen bytes) then zget bytes (x - a) else vbyte t pm x) /\
  forall g o, foreign t g -> pm' g o = pm g o.

Lemma wp_copy b e a bytes pm Q :
  (forall x, a <= x < a + zlen bytes -> accessible t x true) ->
  (forall pm', copied_at a bytes pm pm' -> Q tt (loading b c f e pm')) ->
  wp (copy_to_user a bytes) Q (loading b c f e pm).
Proof.
  intros Hacc HQ. pose proof (loading_user b c t f e pm Ht Hok) as Hu.
  assert (forall i, 0 <= i < zlen bytes -> accessible t (a + i) true) as Hacc' by (intros; apply Hacc; lia).
  destruct (copy_to_user_ok c t bytes _ a Hu Hacc') as (pm' & Hrun & Hpm).
  unfold wp. rewrite Hrun, loading_pmem. apply HQ. split.
  - intros x. case_decide as Hx.
    + pose proof (byte_in_written f t bytes a (loading b c f e pm) (x - a) pm Hok Hacc' ltac:(lia)) as E.
      replace (a + (x - a)) with x in E by lia. rewrite <- E. unfold vbyte, byte_in.
      destruct (location t x) as [[g o]|]; [|done]. simpl. by rewrite Hpm.
    + unfold vbyte. destruct (location t x) as [[g o]|] eqn:E; [|done]. simpl. rewrite Hpm. f_equal.
      apply written_other. intros i Hi Ei. pose proof (location_inj _ _ _ _ _ Hok E Ei). lia.
  - intros g o Hg. rewrite Hpm. apply written_other. intros i Hi Ei. by apply location_own in Ei.
Qed.
Lemma wp_write_int b e a v pm Q :
  (forall x, a <= x < a + 4 -> accessible t x true) ->
  (forall pm', copied_at a (le_bytes v) pm pm' -> Q tt (loading b c f e pm')) ->
  wp (user_write_int a v) Q (loading b c f e pm).
Proof. intros Hacc HQ. unfold user_write_int. by apply wp_copy. Qed.
Lemma copied_word a v pm pm' : copied_at a (le_bytes v) pm pm' -> word t pm' a v.
Proof.
  intros [E _] i Hi. rewrite E. change (zlen (le_bytes v)) with 4. rewrite decide_True by lia.
  f_equal. lia.
Qed.
Lemma word_same a v pm pm' :
  (forall x, a <= x < a + 4 -> vbyte t pm' x = vbyte t pm x) -> word t pm a v -> word t pm' a v.
Proof. intros E Hw i Hi. rewrite E by lia. by apply Hw. Qed.

(** ** The stack of arguments *)

(** The strings [args] follow each other from [cp] on, and the pointers to them,
    with two NULL pointers behind, from [cpp] on. *)
Fixpoint args_at (pm : Z -> Z -> Z) (args : list (list Z)) (cp cpp : Z) : Prop :=
  match args with
  | [] => word t pm cpp 0 /\ word t pm (cpp + POINTER_SIZE) 0
  | a :: args' => word t pm cpp cp /\
      (forall i, 0 <= i < zlen a + 1 -> vbyte t pm (cp + i) = zget (a ++ [0]) i) /\
      args_at pm args' (cp + zlen a + 1) (cpp + POINTER_SIZE)
  end.

(** Outside of the pointers and the strings nothing changes. *)
Definition outside_args (args : list (list Z)) (cp cpp : Z) (pm pm' : Z -> Z -> Z) : Prop :=
  (forall x, x < cpp \/ (cpp + (zlen args + 2) * POINTER_SIZE <= x < cp) \/ cp + args_size args <= x ->
     vbyte t pm' x = vbyte t pm x) /\
  forall g o, foreign t g -> pm' g o = pm g o.

Lemma args_size_nonneg args : 0 <= args_size args.
Proof. induction args as [|a args IH]; simpl; [lia|]. unfold args_size in *. pose proof (zlen_nonneg a). lia. Qed.

Lemma write_args_ok b e args : forall cp cpp pm,
  (forall x, cpp <= x < cp + args_size args -> accessible t x true) ->
  cpp + (zlen args + 2) * POINTER_SIZE <= cp ->
  wp (write_args args cp cpp) (fun _ s' => exists pm', s' = loading b c f e pm' /\
    args_at pm' args cp cpp /\ outside_args args cp cpp pm pm') (loading b c f e pm).
Proof.
  unfold POINTER_SIZE. induction args as [|a args IH]; intros cp cpp pm Hacc Hroom.
  - unfold zlen in Hroom. simpl in *. wp_step. apply wp_write_int; [intros; apply Hacc; lia|]. intros pm1 H1.
    apply wp_write_int; [intros; apply Hacc; unfold POINTER_SIZE in *; lia|]. intros pm2 H2.
    exists pm2. split; [done|]. unfold POINTER_SIZE in *.
    pose proof (copied_word _ _ _ _ H1) as Hw1. pose proof (copied_word _ _ _ _ H2) as Hw2.
    destruct H1 as [E1 F1], H2 as [E2 F2]. change (zlen (le_bytes 0)) with 4 in *. split.
    + split; [|done]. eapply word_same; [|exact Hw1]. intros x Hx. by rewrite E2, decide_False by lia.
    + split; [|intros; by rewrite F2, F1]. unfold zlen. simpl. intros x Hx.
      change (args_size []) with 0 in Hx. unfold POINTER_SIZE in Hx. by rewrite E2, E1, !decide_False by lia.
  - assert (zlen (a :: args) = zlen args + 1) as El by (unfold zlen; simpl; lia).
    pose proof (zlen_nonneg args). pose proof (zlen_nonneg a). pose proof (args_size_nonneg args).
    assert (args_size (a :: args) = zlen a + 1 + args_size args) as Es by (unfold args_size; simpl; lia).
    assert (zlen (a ++ [0]) = zlen a + 1) as Ea by (unfold zlen; rewrite length_app; simpl; lia).
    simpl. rewrite El in Hroom. rewrite Es in Hacc.
    wp_step. apply wp_write_int; [intros; apply Hacc; lia|]. intros pm1 Hc1.
    wp_step. apply wp_copy; [rewrite Ea; intros; apply Hacc; lia|]. intros pm2 Hc2.
    eapply wp_mono; [apply IH; unfold POINTER_SIZE; [intros; apply Hacc; lia|lia]|].
    intros [] ? (pm' & -> & Hargs & [E3 F3]). exists pm'. split; [done|].
    pose proof (copied_word _ _ _ _ Hc1) as Hw1. destruct Hc1 as [E1 F1], Hc2 as [E2 F2].
    change (zlen (le_bytes cp)) with 4 in *. rewrite Ea in E2. unfold POINTER_SIZE in *. split.
    + split; [|split; [|done]].
      * eapply word_same; [|exact Hw1]. intros x Hx. by rewrite E3, E2, decide_False by lia.
      * intros i Hi. rewrite E3 by lia. rewrite E2, decide_True by lia. f_equal. lia.
    + split; [|intros; by rewrite F3, F2, F1]. rewrite El, Es. intros x Hx.
      unfold POINTER_SIZE in Hx. by rewrite E3, E2, E1, !decide_False by lia.
Qed.

(** The whole stack above the stack pointer. *)
Definition stack_at (pm : Z -> Z -> Z) (args : list (list Z)) : Prop :=
  word t pm (argv_start args) (zlen args) /\
  args_at pm args (args_start args) (argv_start args + POINTER_SIZE).

Lemma argv_start_bound args : argv_start args + (zlen args + 3) * POINTER_SIZE <= args_start args.
Proof.
  unfold argv_start, POINTER_SIZE. destruct stack_frame_spec as [Hp _].
  rewrite <- Z.ldiff_land. change 7 with (Z.ones 3). rewrite Z.ldiff_ones_r, Z.shiftr_div_pow2, Z.shiftl_mul_pow2 by lia.
  change (2 ^ 3) with 8. set (y := args_start args - _). assert (y / 8 * 8 <= y) by zdiv. unfold y in *. nia.
Qed.

Lemma build_stack_ok b e args pm :
  (forall x, argv_start args <= x < VMEM_1_LIMIT -> accessible t x true) ->
  wp (build_stack args) (fun _ s' => exists pm', s' = loading b c f e pm' /\ stack_at pm' args /\
    (forall x, x < argv_start args -> vbyte t pm' x = vbyte t pm x) /\
    forall g o, foreign t g -> pm' g o = pm g o) (loading b c f e pm).
Proof.
  intros Hacc. pose proof (argv_start_bound args) as Hb. pose proof (zlen_nonneg args).
  pose proof (args_size_nonneg args). unfold POINTER_SIZE in Hb.
  assert (args_start args + args_size args = VMEM_1_LIMIT) as Hend by (unfold args_start; lia).
  unfold build_stack. cbv zeta. set (cpp := argv_start args) in *.
  assert (zlen (replicate (Z.to_nat (VMEM_1_LIMIT - cpp)) 0) = VMEM_1_LIMIT - cpp) as Ez
    by (unfold zlen; rewrite length_replicate; lia).
  wp_step. apply wp_copy; [rewrite Ez; intros; apply Hacc; lia|]. intros pm1 [E1 F1]. rewrite Ez in E1.
  wp_step. apply wp_write_int; [intros; apply Hacc; lia|]. intros pm2 H2.
  pose proof (copied_word _ _ _ _ H2) as Hw2. destruct H2 as [E2 F2]. change (zlen (le_bytes _)) with 4 in E2.
  eapply wp_mono; [apply write_args_ok; unfold POINTER_SIZE; [intros; apply Hacc; lia|lia]|].
  intros [] ? (pm' & -> & Hargs & [E3 F3]). unfold POINTER_SIZE in *. exists pm'. split; [done|]. split; [|split].
  - split; [|done]. eapply word_same; [|exact Hw2]. intros x Hx. by rewrite E3 by (left; unfold cpp in *; lia).
  - intros x Hx. by rewrite E3, E2, E1, !decide_False by lia.
  - intros. by rewrite F3, F2, F1.
Qed.
End copies.

(** ** The pages *)
Notation B := REGION1_BASE_VPN.

Lemma loading_paged b c t t' f f' e e' pm :
  region1_pt c = Some t ->
  paged region1_table t' f' e' (loading b c f e pm) = loading b (set_region1_pt (Some t') c) f' e' pm.
Proof.
  intros Ht. rewrite <- (in_ctx_loading b c (set_region1_pt (Some t') c) f f' e e' pm).
  apply paged_in_ctx, current_ctx_Some. exists p, (set_p_mem_ctx c b).
  split; [done|]. split; [simpl; apply lookup_insert_eq|]. by destruct b.
Qed.

Lemma alloc_region_ok b c t f e pm first last prot :
  region1_pt c = Some t -> table_ok (T := region1_table) f t -> B <= first -> last <= REGION1_LIMIT_VPN ->
  (forall j, first - B <= j < last - B -> maps t j = None) ->
  wp (alloc_region first last prot) (fun ok s' => exists t' f' e',
    s' = loading b (set_region1_pt (Some t') c) f' e' pm /\
    ok = bool_decide (last - first <= Z.of_nat (size (free_set f))) /\
    if ok then allocated (T := region1_table) f t (first - B) (last - B) prot f' t'
    else table_ok (T := region1_table) f' t' /\ NUM_FRAMES f' = NUM_FRAMES f /\ same_maps t t' /\
      free_set f' = free_set f) (loading b c f e pm).
Proof.
  intros Ht Hok Hf Hl Hnone. unfold alloc_region.
  rewrite (proj2 (Z.ltb_ge first _)), (proj2 (Z.ltb_ge _ last)) by (unfold REGION1_LIMIT_VPN in Hl; lia).
  pose proof (loading_user b c t f e pm Ht Hok) as Hu.
  pose proof (user_ok_paged _ _ _ Hu) as Ep. cbn [m_frames m_events loading] in Ep.
  cbn [orb]. rewrite Ep.
  eapply wp_mono.
  { eapply (alloc_or_undo_ok (T := region1_table)); [by eapply user_ok_get|exact Hok| | |exact Hnone];
      simpl; unfold REGION1_LIMIT_VPN in Hl; lia. }
  intros ok ? (t' & f' & e' & -> & Eok & Hal). exists t', f', e'. by rewrite (loading_paged b c t).
Qed.

(** The same frames, the pages [a .. b - 1] with another protection. *)
Definition reprotected (a z prot : Z) (t t' : list pte) : Prop :=
  zlen t' = zlen t /\
  forall j, maps t' j = if decide (a <= j < z) then (fun x => (x.1, prot)) <$> maps t j else maps t j.

Lemma reprotected_ok a z prot f t t' :
  reprotected a z prot t t' -> table_ok (T := region1_table) f t -> table_ok (T := region1_table) f t'.
Proof.
  intros [Hl Hm] [Hwf Hlen Hr Hu Hi].
  assert (forall j x q, maps t' j = Some (x, q) -> exists q', maps t j = Some (x, q')) as Hback.
  { intros j x q. rewrite Hm. case_decide; [|eauto]. destruct (maps t j) as [[y r]|]; [|done].
    simpl. intros [= <- <-]. eauto. }
  split; [done|congruence|..].
  - intros j x q Hj. destruct (Hback _ _ _ Hj) as [q' Hj']. by eapply Hr.
  - intros j x q Hj. destruct (Hback _ _ _ Hj) as [q' Hj']. by eapply Hu.
  - intros i j x q q' Hx Hy. destruct (Hback _ _ _ Hx) as [? Hx'], (Hback _ _ _ Hy) as [? Hy']. by eapply Hi.
Qed.
Lemma reprotected_location a z prot t t' x : reprotected a z prot t t' -> location t' x = location t x.
Proof.
  intros [_ Hm]. unfold location. rewrite Hm. case_decide; [|done].
  by destruct (maps t _) as [[y r]|].
Qed.
Lemma reprotected_vbyte a z prot t t' pm x : reprotected a z prot t t' -> vbyte t' pm x = vbyte t pm x.
Proof. intros Hr. unfold vbyte. by rewrite (reprotected_location _ _ _ _ _ _ Hr). Qed.

Lemma reprotected_foreign a z prot t t' g : reprotected a z prot t t' -> foreign t g -> foreign t' g.
Proof.
  intros [_ Hm] Hg i q. rewrite Hm. case_decide; [|apply Hg].
  destruct (maps t i) as [[y r]|] eqn:E; [|done]. intros [= -> _]. by eapply Hg.
Qed.
Lemma reprotected_frames a z prot t t' i j :
  reprotected a z prot t t' -> frames_of t' i j = frames_of t i j.
Proof.
  intros [_ Hm]. apply set_eq. intros x. rewrite !elem_of_frames_of. setoid_rewrite Hm. split.
  - intros (k & q & Hk & E). case_decide; [|by eauto]. destruct (maps t k) as [[y r]|] eqn:E'; [|done].
    injection E as -> <-. eauto.
  - intros (k & q & Hk & E). exists k. rewrite E. simpl. case_decide; eauto.
Qed.

Lemma change_prot_ok b c t f e pm vpn prot x q :
  region1_pt c = Some t -> zlen t = REGION1_VPNS -> maps t (vpn - B) = Some (x, q) ->
  wp (change_prot vpn prot) (fun _ s' => exists t' e', s' = loading b (set_region1_pt (Some t') c) f e' pm /\
    reprotected (vpn - B) (vpn - B + 1) prot t t') (loading b c f e pm).
Proof.
  intros Ht Hlen Hm. pose proof (maps_range _ _ _ Hm) as Hr. rewrite Hlen in Hr.
  unfold change_prot. cbv zeta. rewrite (proj2 (Z.leb_gt _ _)), (proj2 (Z.ltb_ge _ _)) by lia. cbn [orb].
  assert (pt_get region1_table (loading b c f e pm) = Some t) as Hg.
  { change (pt_get region1_table (loading b c f e pm)) with
      (c0 ← current_ctx (loading b c f e pm); region1_pt c0).
    assert (current_ctx (loading b c f e pm) = Some c) as ->; [|done].
    apply current_ctx_Some. exists p, (set_p_mem_ctx c b).
    split; [done|]. split; [simpl; apply lookup_insert_eq|]. by destruct b. }
  wp_step. unfold get_table. wp_step. wp_step. eapply wp_lift_opt; [exact Hg|].
  wp_step. unfold maps in Hm. destruct (zget t (vpn - B)) as [en|] eqn:He; [|done]. simpl in Hm.
  eapply wp_lift_opt; [done|]. destruct (pte_valid en) eqn:Hv; [|done]. injection Hm as <- <-. cbn [negb].
  wp_step. eapply wp_lift_opt; [apply zset_inside; lia|]. wp_step. unfold put_table. wp_step.
  unfold emit. wp_step.
  exists (<[Z.to_nat (vpn - B) := {| pte_valid := true; pte_prot := prot; pte_pfn := pte_pfn en |}]> t),
    (TLBFlushPage (Z.shiftl vpn PAGESHIFT) :: e).
  split; [rewrite <- (loading_paged b c t _ f f e _ pm Ht); unfold paged; simpl;
          unfold put_region1; simpl; by rewrite Hctx|].
  split; [apply zlen_insert|]. intros j. rewrite maps_insert by lia. simpl. case_decide as E.
  - subst j. rewrite decide_True by lia. unfold maps. rewrite He. simpl. by rewrite Hv.
  - by rewrite decide_False by lia.
Qed.

Lemma prot_region_ok b c t f e pm first last prot :
  region1_pt c = Some t -> zlen t = REGION1_VPNS -> B <= first <= last -> last <= REGION1_LIMIT_VPN ->
  (forall j, first - B <= j < last - B -> is_Some (maps t j)) ->
  wp (prot_region first last prot) (fun _ s' => exists t' e', s' = loading b (set_region1_pt (Some t') c) f e' pm /\
    reprotected (first - B) (last - B) prot t t') (loading b c f e pm).
Proof.
  intros Ht Hlen Hf Hl Hm. unfold prot_region.
  rewrite (proj2 (Z.ltb_ge first _)), (proj2 (Z.ltb_ge _ last)) by lia. cbn [orb].
  apply (wp_for_range _ _ _ (fun vpn s' => exists t' e', s' = loading b (set_region1_pt (Some t') c) f e' pm /\
    reprotected (first - B) (vpn - B) prot t t')).
  - exists t, e. split; [|split; [done|]; intros j; rewrite decide_False by lia; done].
    assert (set_region1_pt (Some t) c = c) as ->; [|done]. destruct c. simpl in *. by subst.
  - intros vpn ? Hvpn (t1 & e1 & -> & Hl1 & Hm1).
    destruct (Hm (vpn - B)) as [[x q] Hx]; [lia|].
    eapply wp_mono; [eapply (change_prot_ok b _ t1 f e1 pm vpn prot x q); [done|congruence|]|].
    { rewrite Hm1, decide_False by lia. exact Hx. }
    intros [] ? (t2 & e2 & -> & Hl2 & Hm2). exists t2, e2. split; [done|]. split; [congruence|].
    intros j. rewrite Hm2, Hm1. repeat case_decide; try done; try lia.
  - intros ? (t' & e' & -> & Hr). exists t', e'. split; [done|]. by rewrite Z.max_r in Hr by lia.
Qed.

(** Every frame stays accounted for. *)
Lemma allocated_total f t a z prot f' t' F :
  allocated (T := region1_table) f t a z prot f' t' -> 0 <= a -> z <= REGION1_VPNS ->
  (forall j, a <= j < z -> maps t j = None) ->
  free_set f ∪ frames_of t 0 REGION1_VPNS = F -> free_set f' ∪ frames_of t' 0 REGION1_VPNS = F.
Proof.
  intros [_ _ Hin Hout Hfree _] Ha Hz Hnone <-. apply set_eq. intros x.
  rewrite Hfree, !elem_of_union, elem_of_difference, !elem_of_frames_of. split.
  - intros [[Hx _]|(i & q & Hi & Hm)]; [by left|].
    destruct (decide (a <= i < z)) as [Hr|Hr].
    + destruct (Hin i Hr) as (y & Hy & Hf). left. congruence.
    + right. exists i, q. rewrite Hout in Hm by done. done.
  - intros [Hx|(i & q & Hi & Hm)].
    + destruct (decide (x ∈ frames_of t' a z)) as [(i & q & Hi & Hm)%elem_of_frames_of|Hn].
      * right. exists i, q. split; [lia|done].
      * left. split; [done|]. by rewrite elem_of_frames_of in Hn.
    + right. exists i, q. split; [done|]. rewrite Hout; [done|]. intros Hr. by rewrite Hnone in Hm.
Qed.

(** The bytes of mapped pages are there. *)
Lemma mapped_accessible t first last x :
  B <= first -> last <= REGION1_LIMIT_VPN ->
  (forall j, first - B <= j < last - B -> exists f, maps t j = Some (f, Z.lor PROT_READ PROT_WRITE)) ->
  first * PAGESIZE <= x < last * PAGESIZE -> accessible t x true.
Proof.
  intros Hf Hl Hm Hx. pose proof pagesize_pos.
  assert (first <= x / PAGESIZE < last) as Hp.
  { split; [apply Z.div_le_lower_bound; lia|apply Z.div_lt_upper_bound; lia]. }
  split; [apply region1_vpn; rewrite vpn_of_div; lia|].
  destruct (Hm (vpn_of x - B)) as (f & E); [rewrite vpn_of_div; lia|].
  destruct prot_rw as [Hr Hw]. by exists f, (Z.lor PROT_READ PROT_WRITE).
Qed.
End loading.

(** ** Where the pages of a program are *)
Lemma zget_zeros n i : 0 <= i < n -> zget (replicate (Z.to_nat n) 0) i = Some 0.
Proof. intros Hi. rewrite zget_nonneg by lia. apply lookup_replicate. lia. Qed.
Section places.
Lemma region1_bytes : VMEM_1_BASE = REGION1_BASE_VPN * PAGESIZE /\ VMEM_1_LIMIT = REGION1_LIMIT_VPN * PAGESIZE.
Proof.
  pose proof vmem_1_base_spec. pose proof vmem_1_limit_spec.
  destruct region0_vpns_spec, region1_vpns_spec. unfold REGION1_LIMIT_VPN, REGION1_BASE_VPN. lia.
Qed.
Lemma max_pt_len : MAX_PT_LEN = REGION1_VPNS.
Proof. pose proof max_pt_len_spec. pose proof pagesize_pos. destruct region1_vpns_spec. nia. Qed.
Lemma stack_pages_spec args : REGION1_LIMIT_VPN - stack_pages args = new_sp args / PAGESIZE.
Proof.
  unfold stack_pages. rewrite down_to_page_spec. destruct region1_bytes as [_ ->].
  rewrite <- Z.mul_sub_distr_r, shift_page. lia.
Qed.
Lemma stack_above args x :
  argv_start args <= x < VMEM_1_LIMIT ->
  (REGION1_LIMIT_VPN - stack_pages args) * PAGESIZE <= x < REGION1_LIMIT_VPN * PAGESIZE.
Proof.
  intros Hx. destruct region1_bytes as [_ El]. rewrite stack_pages_spec. pose proof pagesize_pos.
  pose proof (Z.mul_div_le (new_sp args) PAGESIZE). destruct stack_frame_spec as [_ ?].
  assert (new_sp args <= argv_start args) by (unfold new_sp, POINTER_SIZE; lia). lia.
Qed.
End places.

(** ** Programs *)
Section programs.
Context {files : Files}.

(** An executable for region 1 whose segments start at page boundaries, text
    below data, and that leaves a page free below the stack.  [read] gives no
    more bytes than it was asked for. *)
Record loadable (fd : file) (li : load_info) (args : list (list Z)) : Prop := {
  lo_entry : VMEM_1_BASE <= li_entry li;
  lo_text : li_t_vaddr li = VMEM_1_BASE + text_page li * PAGESIZE;
  lo_data : li_id_vaddr li = VMEM_1_BASE + data_page li * PAGESIZE;
  lo_pages : 0 <= text_page li /\ 0 <= li_t_npg li /\ text_page li + li_t_npg li <= data_page li;
  lo_sizes : 0 <= li_id_npg li /\ 0 <= li_ud_npg li;
  lo_bss : li_id_vaddr li <= li_id_end li <= li_ud_end li /\
    li_ud_end li <= li_id_vaddr li + data_pages li * PAGESIZE;
  lo_file : zlen (read_file fd (li_t_faddr li) (li_t_npg li * PAGESIZE)) <= li_t_npg li * PAGESIZE /\
    zlen (read_file fd (li_id_faddr li) (li_id_npg li * PAGESIZE)) <= li_id_npg li * PAGESIZE;
  lo_fits : stack_pages args + data_page li + data_pages li < MAX_PT_LEN
}.

(** The file has all bytes of the segments. *)
Definition whole (fd : file) (li : load_info) : Prop :=
  zlen (read_file fd (li_t_faddr li) (li_t_npg li * PAGESIZE)) = li_t_npg li * PAGESIZE /\
  zlen (read_file fd (li_id_faddr li) (li_id_npg li * PAGESIZE)) = li_id_npg li * PAGESIZE.
#[export] Instance whole_dec fd li : Decision (whole fd li).
Proof. apply and_dec; apply Z.eq_dec. Defined.

(** The pages the program needs. *)
Definition pages_of (li : load_info) (args : list (list Z)) : Z :=
  li_t_npg li + data_pages li + stack_pages args.

(** The protections of the pages of the program. *)
Definition page_prot (li : load_info) (args : list (list Z)) (j : Z) : option Z :=
  if decide (text_page li <= j < text_page li + li_t_npg li) then Some (Z.lor PROT_READ PROT_EXEC)
  else if decide (data_page li <= j < data_page li + data_pages li) then Some (Z.lor PROT_READ PROT_WRITE)
  else if decide (REGION1_VPNS - stack_pages args <= j < REGION1_VPNS) then Some (Z.lor PROT_READ PROT_WRITE)
  else None.

(** Pages and memory hold the program. *)
Record program_image (fd : file) (li : load_info) (args : list (list Z)) (t : list pte) (pm : Z -> Z -> Z)
    : Prop := {
  im_pages : forall j, snd <$> maps t j = page_prot li args j;
  im_text : forall i, 0 <= i < li_t_npg li * PAGESIZE ->
    vbyte t pm (li_t_vaddr li + i) = zget (read_file fd (li_t_faddr li) (li_t_npg li * PAGESIZE)) i;
  im_data : forall i, 0 <= i < li_id_npg li * PAGESIZE -> ~ (li_id_end li <= li_id_vaddr li + i < li_ud_end li) ->
    vbyte t pm (li_id_vaddr li + i) = zget (read_file fd (li_id_faddr li) (li_id_npg li * PAGESIZE)) i;
  im_bss : forall x, li_id_end li <= x < li_ud_end li -> vbyte t pm x = Some 0;
  im_stack : stack_at t pm args
}.

Section load.
Context (m : mstate) (p : addr) (fd : file) (li : load_info) (args : list (list Z)).
Hypothesis Hctx : m_mem_ctx m = Some p.
Hypothesis Hlo : loadable fd li args.

Notation B := REGION1_BASE_VPN.
Notation RW := (Z.lor PROT_READ PROT_WRITE).
Let T : Z := text_page li + B.
Let D : Z := data_page li + B.
Let K : Z := REGION1_LIMIT_VPN - stack_pages args.

Lemma load_order :
  B <= T /\ T + li_t_npg li <= D /\ D + data_pages li < K /\ K <= REGION1_LIMIT_VPN /\ 0 <= data_pages li /\
  REGION1_LIMIT_VPN - B = REGION1_VPNS /\ 0 < PAGESIZE.
Proof.
  destruct Hlo as [_ _ _ ? [? ?] _ _ Hfits]. rewrite max_pt_len in Hfits. unfold T, D, K, data_pages in *.
  assert (REGION1_LIMIT_VPN = B + REGION1_VPNS) by done. pose proof pagesize_pos.
  assert (0 <= stack_pages args); [|lia].
  pose proof (stack_pages_spec args) as E. pose proof region1_bytes as [_ El].
  assert (new_sp args <= VMEM_1_LIMIT) as Hsp.
  { pose proof (argv_start_bound args). pose proof (zlen_nonneg args). pose proof (args_size_nonneg args).
    destruct stack_frame_spec as [_ ?]. unfold new_sp, args_start, POINTER_SIZE in *. lia. }
  assert (new_sp args / PAGESIZE <= REGION1_LIMIT_VPN); [|lia].
  apply Z.div_le_upper_bound; lia.
Qed.

(** The pages of the three regions, all writable while the program is loaded. *)
Record regions (t : list pte) (f : frames_t) (F : gset Z) : Prop := {
  rg_ok : table_ok (T := region1_table) f t;
  rg_total : free_set f ∪ frames_of t 0 REGION1_VPNS = F;
  rg_pages : forall j,
    if decide (T - B <= j < T + li_t_npg li - B \/ D - B <= j < D + data_pages li - B \/ K - B <= j < REGION1_VPNS)
    then exists x, maps t j = Some (x, RW) else maps t j = None
}.

(** All frames of [F] are free or in the table. *)
Definition accounted (t : list pte) (f f0 : frames_t) : Prop :=
  table_ok (T := region1_table) f t /\ NUM_FRAMES f = NUM_FRAMES f0 /\
  free_set f ∪ frames_of t 0 REGION1_VPNS = free_set f0.

Lemma accounted_none t f : table_ok (T := region1_table) f t -> (forall j, maps t j = None) -> accounted t f f.
Proof.
  intros Hok Hnone. split; [done|]. split; [done|]. apply set_eq. intros x. rewrite elem_of_union, elem_of_frames_of. split; [|by left].
  intros [?|(i & q & _ & Hm)]; [done|]. by rewrite Hnone in Hm.
Qed.
Lemma accounted_same t t' f f' f0 :
  accounted t f f0 -> table_ok (T := region1_table) f' t' -> NUM_FRAMES f' = NUM_FRAMES f -> same_maps t t' ->
  free_set f' = free_set f -> accounted t' f' f0.
Proof.
  intros (_ & Hn & E) Hok Hn' Hs Hf. split; [done|]. split; [by rewrite Hn'|]. rewrite <- E, Hf. f_equal.
  apply set_eq. intros x. rewrite !elem_of_frames_of. unfold same_maps in Hs. by setoid_rewrite Hs.
Qed.
Lemma accounted_more t t' f f' f0 a z prot :
  accounted t f f0 -> allocated (T := region1_table) f t a z prot f' t' -> 0 <= a -> z <= REGION1_VPNS ->
  (forall j, a <= j < z -> maps t j = None) -> accounted t' f' f0.
Proof.
  intros (_ & Hn & E) Hal Ha Hz Hnone. split; [apply Hal|]. split; [by rewrite (al_num _ _ _ _ _ _ _ Hal)|].
  by eapply allocated_total.
Qed.

(** The three calls of [alloc_region]: all of them succeed, or one fails and
    the pages of those before it stay. *)
Lemma alloc_regions_ok b c t0 f0 e0 pm (Q : Z -> mstate -> Prop) (k : M mstate Z) :
  region1_pt c = Some t0 -> table_ok (T := region1_table) f0 t0 -> (forall j, maps t0 j = None) ->
  (pages_of li args <= Z.of_nat (size (free_set f0)) -> forall t f e,
     regions t f (free_set f0) -> NUM_FRAMES f = NUM_FRAMES f0 -> wp k Q (loading m p b (set_region1_pt (Some t) c) f e pm)) ->
  (Z.of_nat (size (free_set f0)) < pages_of li args -> forall t f e,
     accounted t f f0 -> Q KILL (loading m p b (set_region1_pt (Some t) c) f e pm)) ->
  wp (ok ← alloc_region T (T + li_t_npg li) RW;
      if negb ok then mret KILL else
      ok ← alloc_region D (D + data_pages li) RW;
      if negb ok then mret KILL else
      ok ← alloc_region K REGION1_LIMIT_VPN RW;
      if negb ok then mret KILL else k) Q (loading m p b c f0 e0 pm).
Proof.
  intros Ht Hok Hnone HQ Hkill. destruct load_order as (H1 & H2 & H3 & H4 & H5 & H6 & _).
  destruct Hlo as [_ _ _ (_ & Hn & _) _ _ _ _]. unfold pages_of in *.
  assert (REGION1_LIMIT_VPN - K = stack_pages args) as EK by (unfold K; lia).
  pose proof (accounted_none _ _ Hok Hnone) as C0.
  wp_step. eapply wp_mono; [eapply (alloc_region_ok m p Hctx); [exact Ht|exact Hok|lia|lia|intros; apply Hnone]|].
  intros ok1 ? (t1 & f1 & e1 & -> & E1 & A1). symmetry in E1. destruct ok1; cbn [negb].
  2: { apply bool_decide_eq_false in E1. wp_step. apply Hkill; [lia|]. destruct A1 as (? & ? & ? & ?). by eapply accounted_same. }
  clear E1. pose proof (al_size _ _ _ _ _ _ _ A1) as S1.
  assert (accounted t1 f1 f0) as C1 by (eapply accounted_more; [exact C0|exact A1|lia|lia|intros; apply Hnone]).
  assert (forall j, D - B <= j < D + data_pages li - B -> maps t1 j = None) as N1.
  { intros j Hj. rewrite (al_out _ _ _ _ _ _ _ A1) by lia. apply Hnone. }
  wp_step. eapply wp_mono; [eapply (alloc_region_ok m p Hctx); [done|apply A1|lia|lia|exact N1]|].
  intros ok2 ? (t2 & f2 & e2 & -> & E2 & A2). symmetry in E2. destruct ok2; cbn [negb].
  2: { apply bool_decide_eq_false in E2. wp_step. apply Hkill; [lia|]. destruct A2 as (? & ? & ? & ?). by eapply accounted_same. }
  clear E2. pose proof (al_size _ _ _ _ _ _ _ A2) as S2.
  assert (accounted t2 f2 f0) as C2 by (eapply accounted_more; [exact C1|exact A2|lia|lia|exact N1]).
  assert (forall j, K - B <= j < REGION1_LIMIT_VPN - B -> maps t2 j = None) as N2.
  { intros j Hj. rewrite (al_out _ _ _ _ _ _ _ A2), (al_out _ _ _ _ _ _ _ A1) by lia. apply Hnone. }
  wp_step. eapply wp_mono; [eapply (alloc_region_ok m p Hctx); [done|apply A2|lia|lia|exact N2]|].
  intros ok3 ? (t3 & f3 & e3 & -> & E3 & A3). symmetry in E3. destruct ok3; cbn [negb].
  2: { apply bool_decide_eq_false in E3. wp_step. apply Hkill; [lia|]. destruct A3 as (? & ? & ? & ?). by eapply accounted_same. }
  apply bool_decide_eq_true in E3.
  assert (accounted t3 f3 f0) as (C3 & C4 & C5) by (eapply accounted_more; [exact C2|exact A3|lia|lia|exact N2]).
  apply HQ; [lia| |exact C4]. split; [exact C3|exact C5|].
  intros j. destruct (decide (K - B <= j < REGION1_VPNS)) as [Hk|Hk].
    { rewrite decide_True by tauto. destruct (al_in _ _ _ _ _ _ _ A3 j) as (x & Hx & _); [lia|by exists x]. }
    rewrite (al_out _ _ _ _ _ _ _ A3) by lia.
    destruct (decide (D - B <= j < D + data_pages li - B)) as [Hd|Hd].
    { rewrite decide_True by tauto. destruct (al_in _ _ _ _ _ _ _ A2 j Hd) as (x & Hx & _). by exists x. }
    rewrite (al_out _ _ _ _ _ _ _ A2) by lia.
    destruct (decide (T - B <= j < T + li_t_npg li - B)) as [Hx|Hx].
    { rewrite decide_True by tauto. destruct (al_in _ _ _ _ _ _ _ A1 j Hx) as (x & Hx' & _). by exists x. }
    rewrite (al_out _ _ _ _ _ _ _ A1), decide_False by tauto. apply Hnone.
Qed.
(** The bytes of the regions are there. *)
Lemma regions_accessible t f F x :
  regions t f F ->
  T * PAGESIZE <= x < (T + li_t_npg li) * PAGESIZE \/ D * PAGESIZE <= x < (D + data_pages li) * PAGESIZE \/
  K * PAGESIZE <= x < REGION1_LIMIT_VPN * PAGESIZE ->
  accessible t x true.
Proof.
  intros [_ _ Hp] Hx. destruct load_order as (O1 & O2 & O3 & O4 & O5 & O6 & _).
  destruct Hlo as [_ _ _ (_ & Hn & _) _ _ _ _].
  destruct Hx as [Hx|[Hx|Hx]]; (eapply mapped_accessible; [..|exact Hx]); try lia; intros j Hj;
    specialize (Hp j); rewrite decide_True in Hp; eauto; lia.
Qed.

(** Reading the file into a segment of the process. *)
Lemma load_segment_ok c t f e pm b faddr vaddr npg Q :
  region1_pt c = Some t -> table_ok (T := region1_table) f t ->
  (forall x, vaddr <= x < vaddr + npg * PAGESIZE -> accessible t x true) ->
  zlen (read_file fd faddr (npg * PAGESIZE)) <= npg * PAGESIZE ->
  (forall pm', copied_at t vaddr (read_file fd faddr (npg * PAGESIZE)) pm pm' ->
     Q (zlen (read_file fd faddr (npg * PAGESIZE)) =? npg * PAGESIZE) (loading m p b c f e pm')) ->
  wp (load_segment fd faddr vaddr npg) Q (loading m p b c f e pm).
Proof.
  intros Ht Hok Hacc Hl HQ. unfold load_segment. cbv zeta. rewrite shiftl_page.
  wp_step. eapply (wp_copy m p Hctx); [exact Ht|exact Hok|intros; apply Hacc; lia|].
  intros pm' Hc. wp_step. by apply HQ.
Qed.

(** Where the segments are, in bytes. *)
Lemma segment_bounds :
  li_t_vaddr li = T * PAGESIZE /\ li_id_vaddr li = D * PAGESIZE /\
  (T + li_t_npg li) * PAGESIZE <= D * PAGESIZE /\ (D + data_pages li) * PAGESIZE <= K * PAGESIZE /\
  0 <= li_id_npg li * PAGESIZE <= data_pages li * PAGESIZE /\ 0 <= li_t_npg li * PAGESIZE /\
  K * PAGESIZE <= argv_start args.
Proof.
  destruct load_order as (O1 & O2 & O3 & O4 & O5 & O6 & O7).
  destruct Hlo as [_ Et Ed (_ & Hn & _) (? & ?) _ _ _]. destruct region1_bytes as [Eb El].
  assert (K * PAGESIZE <= argv_start args) as HK.
  { pose proof (stack_above args (argv_start args)) as Ha. change (REGION1_LIMIT_VPN - stack_pages args) with K in Ha.
    pose proof (argv_start_bound args). pose proof (zlen_nonneg args). pose proof (args_size_nonneg args).
    unfold args_start, POINTER_SIZE in *. lia. }
  unfold T, D, data_pages in *. repeat split; nia.
Qed.

(** The copies, one after the other, build the program. *)
Lemma image_built t t' f F pm pm1 pm2 pm3 pm4 zeros :
  whole fd li -> regions t f F -> reprotected (T - B) (T + li_t_npg li - B) (Z.lor PROT_READ PROT_EXEC) t t' ->
  copied_at t (li_t_vaddr li) (read_file fd (li_t_faddr li) (li_t_npg li * PAGESIZE)) pm pm1 ->
  copied_at t (li_id_vaddr li) (read_file fd (li_id_faddr li) (li_id_npg li * PAGESIZE)) pm1 pm2 ->
  zeros = replicate (Z.to_nat (li_ud_end li - li_id_end li)) 0 ->
  copied_at t' (li_id_end li) zeros pm2 pm3 ->
  stack_at t' pm4 args -> (forall x, x < argv_start args -> vbyte t' pm4 x = vbyte t' pm3 x) ->
  program_image fd li args t' pm4.
Proof.
  intros [Hlt Hld] [_ _ Hp] Hr [E1 _] [E2 _] -> [E3 _] Hst E4.
  destruct segment_bounds as (Et & Ed & L1 & L2 & L3 & L4 & L5).
  destruct load_order as (O1 & O2 & O3 & O4 & O5 & O6 & O7).
  pose proof Hlo as [_ _ _ (_ & Hn & _) [? ?] [[Hb1 Hb2] Hb3] _ _].
  rewrite Hlt in E1. rewrite Hld in E2.
  assert (zlen (replicate (Z.to_nat (li_ud_end li - li_id_end li)) 0) = li_ud_end li - li_id_end li) as Ez
    by (unfold zlen; rewrite length_replicate; lia).
  rewrite Ez in E3. pose proof (fun pm x => reprotected_vbyte _ _ _ _ _ pm x Hr) as Ev. split; [..|done].
  - intros j. destruct Hr as [_ Hm]. rewrite Hm. specialize (Hp j). unfold page_prot.
    replace (T - B) with (text_page li) in * by (unfold T; lia).
    replace (T + li_t_npg li - B) with (text_page li + li_t_npg li) in * by (unfold T; lia).
    replace (D - B) with (data_page li) in * by (unfold D; lia).
    replace (D + data_pages li - B) with (data_page li + data_pages li) in * by (unfold D; lia).
    replace (K - B) with (REGION1_VPNS - stack_pages args) in * by (unfold K; lia).
    destruct (decide (text_page li <= j < text_page li + li_t_npg li)) as [Hj|Hj].
    { rewrite decide_True in Hp by tauto. destruct Hp as (x & ->). done. }
    destruct (decide (data_page li <= j < data_page li + data_pages li)) as [Hj'|Hj'].
    { rewrite decide_True in Hp by tauto. destruct Hp as (x & ->). done. }
    destruct (decide (REGION1_VPNS - stack_pages args <= j < REGION1_VPNS)) as [Hj''|Hj''].
    { rewrite decide_True in Hp by tauto. destruct Hp as (x & ->). done. }
    rewrite decide_False in Hp by tauto. by rewrite Hp.
  - intros i Hi. rewrite E4, E3, decide_False, Ev, E2, decide_False, E1, decide_True by lia. f_equal. lia.
  - intros i Hi Hbss. rewrite E4, E3, decide_False, Ev, E2, decide_True by lia. f_equal. lia.
  - intros x Hx. rewrite E4, E3, decide_True by lia. apply zget_zeros. lia.
Qed.

(** [load_image] succeeds when there are frames enough and the file is whole,
    and builds the program out of the free frames.  Otherwise the process is to
    be killed, and has some of the pages. *)
Definition image_done (b : pcb) (c : mem_ctx_t) (f0 : frames_t) (pm : Z -> Z -> Z) (r : Z) (s' : mstate) : Prop :=
  if decide (pages_of li args <= Z.of_nat (size (free_set f0)) /\ whole fd li) then
    r = SUCCESS /\ exists t f e pm',
      s' = loading m p (set_p_uc (uc_set_pc (li_entry li) (p_uc b)) b)
             (set_layout T D (D + data_pages li) (D + data_pages li) (set_region1_pt (Some t) c)) f e pm' /\
      accounted t f f0 /\ program_image fd li args t pm' /\ forall g o, g ∉ free_set f0 -> pm' g o = pm g o
  else r = KILL /\ exists t f e pm',
      s' = loading m p b (set_region1_pt (Some t) c) f e pm' /\ accounted t f f0 /\
      forall g o, g ∉ free_set f0 -> pm' g o = pm g o.

Lemma foreign_frames t f F g : regions t f F -> g ∉ F -> foreign t g.
Proof.
  intros [Hok <- _] Hg i q Hm. apply Hg, elem_of_union_r, elem_of_frames_of. exists i, q. split; [|done].
  apply maps_range in Hm. rewrite (to_len _ _ Hok) in Hm. done.
Qed.

Lemma load_image_ok b c t0 f0 e0 pm :
  region1_pt c = Some t0 -> table_ok (T := region1_table) f0 t0 -> (forall j, maps t0 j = None) ->
  wp (load_image fd li args p) (image_done b c f0 pm) (loading m p b c f0 e0 pm).
Proof.
  intros Ht Hok Hnone. destruct segment_bounds as (Et & Ed & L1 & L2 & L3 & L4 & L5).
  destruct load_order as (O1 & O2 & O3 & O4 & O5 & O6 & O7). destruct region1_bytes as [_ El].
  pose proof Hlo as [_ _ _ (_ & Hn & _) [? ?] [[Hb1 Hb2] Hb3] [Hlt Hld] _]. unfold image_done.
  unfold load_image. eapply alloc_regions_ok; [done..| |]; last first.
  { intros Hsz t f e Hac. rewrite decide_False by lia. split; [done|]. by exists t, f, e, pm. }
  intros Hsz t f e Hrg Hnum. pose proof Hrg as [Hok1 Htot Hp].
  pose proof (fun x => regions_accessible _ _ _ x Hrg) as Hacc. pose proof (fun g => foreign_frames _ _ _ g Hrg) as Hft.
  wp_step. unfold emit. do 2 wp_step.
  change (set_m_events _ _) with (loading m p b (set_region1_pt (Some t) c) f (TLBFlushRegion1 :: e) pm).
  eapply load_segment_ok; [done|exact Hok1|intros; apply Hacc; lia|exact Hlt|]. intros pm1 C1.
  destruct (Z.eqb_spec (zlen (read_file fd (li_t_faddr li) (li_t_npg li * PAGESIZE))) (li_t_npg li * PAGESIZE)) as [W1|W1];
    cbn [negb]; wp_step; last first.
  { rewrite decide_False by (intros [_ [? _]]; done). split; [done|]. exists t, f, (TLBFlushRegion1 :: e), pm1.
    split; [done|]. split; [by split|]. intros g o Hg. destruct C1 as [_ C1]. by apply C1, Hft. }
  eapply load_segment_ok; [done|exact Hok1|intros; apply Hacc; lia|exact Hld|]. intros pm2 C2.
  destruct (Z.eqb_spec (zlen (read_file fd (li_id_faddr li) (li_id_npg li * PAGESIZE))) (li_id_npg li * PAGESIZE)) as [W2|W2];
    cbn [negb]; wp_step; last first.
  { rewrite decide_False by (intros [_ [_ ?]]; done). split; [done|]. exists t, f, (TLBFlushRegion1 :: e), pm2.
    split; [done|]. split; [by split|]. intros g o Hg. destruct C1 as [_ C1], C2 as [_ C2]. by rewrite C2, C1 by by apply Hft. }
  eapply wp_mono; [eapply (prot_region_ok m p Hctx); [done|apply Hok1|lia|lia|]|].
  { intros j Hj. specialize (Hp j). rewrite decide_True in Hp by tauto. destruct Hp as [x ->]. by eexists. }
  intros [] ? (t' & e' & -> & Hr). pose proof (reprotected_ok _ _ _ _ _ _ Hr Hok1) as Hok2.
  assert (forall x, (T + li_t_npg li) * PAGESIZE <= x -> accessible t x true -> accessible t' x true) as Hacc'.
  { intros x Hx (Hv & g & q & Hm & Hq). split; [done|]. exists g, q. split; [|done].
    destruct Hr as [_ Hm']. rewrite Hm', decide_False; [done|].
    rewrite vpn_of_div. intros [_ Hx2]. apply Z.lt_add_lt_sub_r in Hx2.
    assert (T + li_t_npg li <= x / PAGESIZE); [apply Z.div_le_lower_bound; lia|lia]. }
  assert (zlen (replicate (Z.to_nat (li_ud_end li - li_id_end li)) 0) = li_ud_end li - li_id_end li) as Ez
    by (unfold zlen; rewrite length_replicate; lia).
  wp_step. eapply (wp_copy m p Hctx); [done|exact Hok2|rewrite Ez; intros; apply Hacc'; [lia|apply Hacc; lia]|].
  intros pm3 C3. wp_step. apply wp_loading_update; [done|]. cbv zeta. wp_step. apply wp_loading_layout.
  wp_step. eapply wp_mono; [eapply (build_stack_ok m p Hctx); [done|exact Hok2|]|].
  { intros x Hx. pose proof (stack_above args x Hx) as Hs. apply Hacc'; [lia|]. apply Hacc. right. right. exact Hs. }
  intros [] ? (pm4 & -> & Hst & E4 & F4). wp_step. rewrite decide_True by done. split; [done|].
  exists t', f, e', pm4. split; [by destruct b, c|]. split; [|split].
  - split; [done|]. split; [done|]. rewrite <- Htot. f_equal. by eapply reprotected_frames.
  - by eapply image_built.
  - intros g o Hg. specialize (Hft g Hg). assert (foreign t' g) as Hft' by by eapply reprotected_foreign.
    destruct C1 as [_ C1], C2 as [_ C2], C3 as [_ C3]. by rewrite F4, C3, C2, C1.
Qed.
End load.

(** ** [LoadProgram] *)

(** The process [p], whose pages are the current ones, asks for the program
    [li] of the file [fd]; no allocation of the kernel fails. *)
Record starts (m : mstate) (p : addr) (b : pcb) (t : list pte) (name : list Z) (args : list (list Z)) (fd : file)
    (li : load_info) : Prop := {
  ls_ctx : m_mem_ctx m = Some p;
  ls_block : st_pcbs (m_store m) !! p = Some b;
  ls_user : user_ok m (p_mem_ctx b) t;
  ls_malloc : st_malloc (m_store m) = [];
  ls_open : open_file name = Some fd;
  ls_info : LoadInfo fd = Some li;
  ls_loadable : loadable fd li args
}.

(** The file is whole, and the free frames with those of the process are
    enough. *)
Definition available (m : mstate) (t : list pte) (args : list (list Z)) (fd : file) (li : load_info) : Prop :=
  pages_of li args <= Z.of_nat (size (free_set (m_frames m) ∪ frames_of t 0 REGION1_VPNS)) /\ whole fd li.

Definition loads (m : mstate) (p : addr) (b : pcb) (t : list pte) (name : list Z) (args : list (list Z)) (fd : file)
    (li : load_info) : Prop :=
  starts m p b t name args fd li /\ available m t args fd li.

(** The break and the segments of the loaded program. *)
Definition loaded_ctx (li : load_info) (t : list pte) (c : mem_ctx_t) : mem_ctx_t :=
  let text := text_page li + REGION1_BASE_VPN in
  let data := data_page li + REGION1_BASE_VPN in
  set_layout text data (data + data_pages li) (data + data_pages li) (set_region1_pt (Some t) c).

Record loaded (m : mstate) (p : addr) (b : pcb) (t : list pte) (args : list (list Z)) (fd : file) (li : load_info)
    (t' : list pte) (m' : mstate) : Prop := {
  ld_block : st_pcbs (m_store m') !! p =
    Some (set_p_uc (uc_set_pc (li_entry li) (uc_set_sp (new_sp args) (p_uc b)))
      (set_p_mem_ctx (loaded_ctx li t' (p_mem_ctx b)) b));
  ld_user : user_ok m' (loaded_ctx li t' (p_mem_ctx b)) t';
  ld_image : program_image fd li args t' (m_pmem m');
  ld_frames : free_set (m_frames m') ∪ frames_of t' 0 REGION1_VPNS =
    free_set (m_frames m) ∪ frames_of t 0 REGION1_VPNS;
  ld_others : forall a, a <> p -> st_pcbs (m_store m') !! a = st_pcbs (m_store m) !! a;
  ld_memory : forall g o, g ∉ free_set (m_frames m) ∪ frames_of t 0 REGION1_VPNS ->
    m_pmem m' g o = m_pmem m g o;
  ld_kernel : m_region0_pt m' = m_region0_pt m /\ m_current_brk_page m' = m_current_brk_page m /\
    m_mem_ctx m' = m_mem_ctx m /\ m_vm_enabled m' = m_vm_enabled m /\
    NUM_FRAMES (m_frames m') = NUM_FRAMES (m_frames m)
}.

(** The process has lost its program: it has other pages or none. *)
Record unloaded (m : mstate) (p : addr) (b : pcb) (t : list pte) (args : list (list Z)) (t' : list pte) (m' : mstate)
    : Prop := {
  ul_block : st_pcbs (m_store m') !! p =
    Some (set_p_uc (uc_set_sp (new_sp args) (p_uc b)) (set_p_mem_ctx (set_region1_pt (Some t') (p_mem_ctx b)) b));
  ul_user : user_ok m' (set_region1_pt (Some t') (p_mem_ctx b)) t';
  ul_frames : free_set (m_frames m') ∪ frames_of t' 0 REGION1_VPNS =
    free_set (m_frames m) ∪ frames_of t 0 REGION1_VPNS;
  ul_others : forall a, a <> p -> st_pcbs (m_store m') !! a = st_pcbs (m_store m) !! a;
  ul_memory : forall g o, g ∉ free_set (m_frames m) ∪ frames_of t 0 REGION1_VPNS ->
    m_pmem m' g o = m_pmem m g o;
  ul_kernel : m_region0_pt m' = m_region0_pt m /\ m_current_brk_page m' = m_current_brk_page m /\
    m_mem_ctx m' = m_mem_ctx m /\ m_vm_enabled m' = m_vm_enabled m /\
    NUM_FRAMES (m_frames m') = NUM_FRAMES (m_frames m)
}.

Lemma loading_start m p b :
  st_pcbs (m_store m) !! p = Some b ->
  m = loading m p b (p_mem_ctx b) (m_frames m) (m_events m) (m_pmem m).
Proof.
  intros Hb. unfold loading. rewrite insert_id by (destruct b; exact Hb). destruct m as [[] ]; done.
Qed.

Lemma wp_malloc_all (st : store) (Q : bool -> store -> Prop) : st_malloc st = [] -> Q true st -> wp malloc Q st.
Proof. intros E HQ. unfold wp, malloc. by rewrite E. Qed.

Lemma LoadProgram_result m p b t name args fd li :
  starts m p b t name args fd li ->
  wp (LoadProgram name args p) (fun r m' => exists t',
    r = SUCCESS /\ available m t args fd li /\ loaded m p b t args fd li t' m' \/
    r = KILL /\ ~ available m t args fd li /\ unloaded m p b t args t' m') m.
Proof.
  intros [Hctx Hb Hu Hmal Hopen Hinfo Hlo]. unfold LoadProgram. rewrite Hopen, Hinfo.
  rewrite (proj2 (Z.ltb_ge _ _)) by apply Hlo. rewrite (proj2 (Z.leb_gt _ _)) by apply Hlo.
  pose proof Hu as [_ Ht Hok]. set (c := p_mem_ctx b) in *.
  rewrite (loading_start m p b Hb) at 1. fold c.
  wp_step. apply wp_loading_update; [done|]. wp_step. wp_step. apply wp_malloc_all; [exact Hmal|].
  change (lset _ _) with
    (loading m p (set_p_uc (uc_set_sp (new_sp args) (p_uc b)) b) c (m_frames m) (m_events m) (m_pmem m)).
  cbn [negb]. set (b1 := set_p_uc _ b).
  wp_step. eapply wp_mono; [apply deallocate_region1_ok, loading_user; [exact Hctx|exact Ht|exact Hok]|].
  intros [] ? (t0 & f0 & e0 & -> & Hok0 & Hnone & Hfree & Hn0). cbn [m_frames loading] in Hfree.
  rewrite (in_ctx_loading m p Hctx).
  eapply wp_mono; [eapply (load_image_ok m p fd li args Hctx Hlo); [done|exact Hok0|exact Hnone]|].
  unfold image_done, available. rewrite <- Hfree. intros r m' Hd.
  case_decide as Hav; destruct Hd as (-> & t' & f & e & pm & -> & (Hok' & Hnf & Htot) & Hrest); exists t'; [left|right];
    (split; [done|]; split; [done|]); rewrite Hfree in *.
  - destruct Hrest as [Him Hmem]. fold (loaded_ctx li t' (set_region1_pt (Some t0) c)).
    assert (loaded_ctx li t' (set_region1_pt (Some t0) c) = loaded_ctx li t' c) as -> by done.
    split; try done.
    + simpl. rewrite lookup_insert_eq. by destruct b.
    + by apply (loading_user m p Hctx).
    + intros a Ha. simpl. by apply lookup_insert_ne.
    + do 4 (split; [done|]). etrans; [exact Hnf|exact Hn0].
  - assert (set_region1_pt (Some t') (set_region1_pt (Some t0) c) = set_region1_pt (Some t') c) as -> by done. split; try done.
    + simpl. rewrite lookup_insert_eq. by destruct b.
    + by apply (loading_user m p Hctx).
    + intros a Ha. simpl. by apply lookup_insert_ne.
    + do 4 (split; [done|]). etrans; [exact Hnf|exact Hn0].
Qed.
Lemma LoadProgram_ok m p b t name args fd li :
  loads m p b t name args fd li ->
  wp (LoadProgram name args p) (fun r m' => r = SUCCESS /\ exists t', loaded m p b t args fd li t' m') m.
Proof.
  intros [Hs Ha]. eapply wp_mono; [by eapply LoadProgram_result|].
  intros r m' (t' & [(-> & _ & Hd)|(_ & Hn & _)]); [|done]. by eauto.
Qed.
Lemma LoadProgram_killed m p b t name args fd li :
  starts m p b t name args fd li -> ~ available m t args fd li ->
  wp (LoadProgram name args p) (fun r m' => r = KILL /\ exists t', unloaded m p b t args t' m') m.
Proof.
  intros Hs Ha. eapply wp_mono; [by eapply LoadProgram_result|].
  intros r m' (t' & [(_ & Hn & _)|(-> & _ & Hd)]); [done|]. by eauto.
Qed.
End programs.
End image.
