(* ===== verification/Exec.v ===== *)
(** * The Exec call ([KernelExec] of [syscalls.c])

    How the kernel finds the name and the arguments of a program in the memory
    of the caller, and what the call does with the caller.  The definitions are
    in [Syscalls]. *)

From S2P Require Import Prelude Machine Pcb FrameTracking Paging KernelMemory UserMemory Fifo SleepHeap Scheduler PipeBuffer PipeTable Locks Terminals Kernel DemoKernel Switching PipeCalls TtyCalls Synchronization LoadProgram Syscalls UserBuffers PipeWorld Processes WaitExit ExecImage.

(** ** Strings and pointers in user memory *)
Section strings.
Context {hw : Machine} {hw_ok : MachineOk}.

(** The string [str] and its NUL can be read at [a]. *)
Definition string_at (t : list pte) (pm : Z -> Z -> Z) (a : Z) (str : list Z) : Prop :=
  Forall (fun x => x <> 0) str /\
  forall i, 0 <= i <= zlen str -> accessible t (a + i) false /\ vbyte t pm (a + i) = zget (str ++ [0]) i.

(** The pointers [ps] and a NULL pointer behind them can be read at [a]. *)
Fixpoint pointers_at (t : list pte) (pm : Z -> Z -> Z) (a : Z) (ps : list Z) : Prop :=
  (forall i, 0 <= i < POINTER_SIZE -> accessible t (a + i) false) /\
  match ps with
  | [] => word t pm a 0
  | q :: qs => word t pm a q /\ 0 < q < 4294967296 /\ pointers_at t pm (a + POINTER_SIZE) qs
  end.

(** What the checks of the kernel ask for. *)
Definition good_string (t : list pte) (pm : Z -> Z -> Z) (a : Z) (str : list Z) : Prop :=
  a <> 0 /\ zlen str < MAX_STRING_LEN /\ string_at t pm a str.
Definition good_argv (t : list pte) (pm : Z -> Z -> Z) (a : Z) (ps : list Z) : Prop :=
  a <> 0 /\ zlen ps < MAX_ARGV_LEN /\ pointers_at t pm a ps.

Section reading.
Context (m : mstate) (c : mem_ctx_t) (t : list pte).
Hypothesis Hu : user_ok m c t.
Notation pm := (m_pmem m).

Lemma accessible_i32 a w : accessible t a w -> to_i32 a = a.
Proof.
  intros ([Hlo Hhi] & _). pose proof vmem_1_base_spec. pose proof vmem_1_limit_int. pose proof pagesize_pos.
  destruct vmem_0_pages as (n & Hn & E). unfold to_i32, INT_MAX in *. rewrite Z.mod_small; nia.
Qed.
Lemma wp_has_perms a w Q : accessible t a w -> Q true m -> wp (has_perms a w) Q m.
Proof.
  intros Ha HQ. destruct (has_perms_accessible m c t a w Hu) as (ok & Hrun & Hok).
  unfold wp. rewrite Hrun. by rewrite (proj2 Hok Ha).
Qed.
Lemma wp_user_read a x Q : accessible t a false -> vbyte t pm a = Some x -> Q x m -> wp (user_read a) Q m.
Proof.
  intros Ha Hx HQ. destruct (user_read_at m c t a false Hu Ha) as (x' & Hrun & Hb).
  assert (x' = x) as ->; [|by unfold wp; rewrite Hrun]. unfold vbyte, byte_in in *. congruence.
Qed.
Lemma wp_user_read_word a v Q :
  (forall i, 0 <= i < POINTER_SIZE -> accessible t (a + i) false) -> word t pm a v -> 0 <= v < 4294967296 ->
  Q v m -> wp (user_read_word a) Q m.
Proof.
  intros Ha Hw Hv HQ. unfold user_read_word. wp_step.
  destruct (copy_from_user_ok m c t false 4 a Hu Ha) as (bytes & Hrun & Hl & Hb).
  unfold wp at 1. rewrite Hrun. wp_step.
  assert (bytes = le_bytes v) as ->.
  { apply (list_eq_same_length _ _ 4%nat); [done|done|]. intros i x y Hi Hx Hy.
    specialize (Hb (Z.of_nat i) ltac:(lia)). specialize (Hw (Z.of_nat i) ltac:(lia)).
    rewrite zget_nat in *. unfold vbyte, byte_in in *. congruence. }
  rewrite le_bytes_round_trip. unfold to_u32. by rewrite Z.mod_small by lia.
Qed.

Lemma string_next a x str : string_at t pm a (x :: str) -> string_at t pm (a + 1) str.
Proof.
  intros [Hf Hb]. split; [by inversion Hf|]. intros i Hi.
  specialize (Hb (i + 1)). unfold zlen in *. simpl in Hb. replace (a + 1 + i) with (a + (i + 1)) by lia.
  destruct Hb as [Ha Hv]; [lia|]. split; [done|]. rewrite Hv, !zget_nonneg by lia.
  by replace (Z.to_nat (i + 1)) with (Datatypes.S (Z.to_nat i)) by lia.
Qed.
Lemma string_char a str i :
  string_at t pm a str -> 0 <= i <= zlen str -> exists x,
    zget (str ++ [0]) i = Some x /\ (x = 0 <-> i = zlen str).
Proof.
  intros [Hf _] Hi. rewrite zget_nonneg by lia. unfold zlen in *. destruct (decide (i = Z.of_nat (length str))) as [->|].
  - exists 0. rewrite Nat2Z.id, lookup_app_r by lia. by rewrite Nat.sub_diag.
  - rewrite lookup_app_l by lia. destruct (lookup_lt_is_Some_2 str (Z.to_nat i)) as [x Hx]; [lia|].
    exists x. split; [done|]. split; [|lia]. intros ->. rewrite Forall_lookup in Hf. by specialize (Hf _ _ Hx).
Qed.

Lemma check_c_string_ok a str Q : good_string t pm a str -> Q true m -> wp (check_c_string a) Q m.
Proof.
  intros (Hnull & Hlen & Hs) HQ. unfold check_c_string. rewrite (proj2 (Z.eqb_neq _ _)) by done.
  wp_step. apply (wp_for_range_ret _ _ _ (fun i s' => s' = m /\ i <= zlen str)).
  - split; [done|]. apply zlen_nonneg.
  - intros i ? Hi [-> Hle]. destruct Hs as [Hf Hb]. destruct (Hb i ltac:(lia)) as [Ha Hv].
    destruct (string_char a str i (conj Hf Hb)) as (x & Hx & Hz); [lia|]. rewrite Hx in Hv.
    cbv zeta. rewrite (accessible_i32 _ _ Ha). wp_step. apply wp_has_perms; [done|]. cbn [negb].
    wp_step. eapply wp_user_read; [done..|]. destruct (Z.eqb_spec x 0) as [E|E]; wp_step.
    { wp_step. exact HQ. }
    split; [done|]. assert (i <> zlen str) by tauto. lia.
  - intros ? [-> Hle]. unfold MAX_STRING_LEN in *. lia.
Qed.
Lemma fetch_string_ok str : forall a fuel Q,
  string_at t pm a str -> (length str < fuel)%nat -> Q str m -> wp (fetch_string fuel a) Q m.
Proof.
  induction str as [|x str IH]; intros a [|fuel] Q Hs Hl HQ; simpl in Hl; try lia; cbn [fetch_string];
    destruct (string_char a _ 0 Hs) as (y & Hy & Hz); try (unfold zlen; simpl; lia);
    pose proof Hs as [_ Hb]; specialize (Hb 0 ltac:(unfold zlen; simpl; lia)); rewrite Z.add_0_r, Hy in Hb;
    destruct Hb as [Ha Hv]; wp_step; (eapply wp_user_read; [exact Ha|exact Hv|]).
  - rewrite (proj2 Hz) by done. cbn [Z.eqb]. by wp_step.
  - rewrite (proj2 (Z.eqb_neq y 0)) by (rewrite Hz; unfold zlen; simpl; lia).
    wp_step. apply IH; [by eapply string_next|lia|]. wp_step. injection Hy as <-. exact HQ.
Qed.

Lemma pointers_drop a ps i :
  pointers_at t pm a ps -> 0 <= i <= zlen ps -> pointers_at t pm (a + i * POINTER_SIZE) (drop (Z.to_nat i) ps).
Proof.
  intros Hp Hi. assert (i = Z.of_nat (Z.to_nat i)) as E by lia. rewrite E at 1. unfold zlen in Hi.
  assert (Z.to_nat i <= length ps)%nat as Hn by lia. clear E Hi. revert a ps Hp Hn.
  induction (Z.to_nat i) as [|n IH]; intros a ps Hp Hn; [by rewrite Z.add_0_r|].
  destruct ps as [|q ps]; simpl in Hn; [lia|]. destruct Hp as (_ & _ & _ & Hp). simpl drop.
  replace (a + Z.of_nat (Datatypes.S n) * POINTER_SIZE) with (a + POINTER_SIZE + Z.of_nat n * POINTER_SIZE) by lia.
  apply IH; [done|lia].
Qed.
Lemma check_argv_ok a ps Q : good_argv t pm a ps -> Q true m -> wp (check_argv a) Q m.
Proof.
  intros (Hnull & Hlen & Hp) HQ. unfold check_argv. rewrite (proj2 (Z.eqb_neq _ _)) by done.
  wp_step. apply (wp_for_range_ret _ _ _ (fun i s' => s' = m /\ i <= zlen ps)).
  - split; [done|]. apply zlen_nonneg.
  - intros i ? Hi [-> Hle]. pose proof (pointers_drop _ _ i Hp ltac:(lia)) as Hd.
    assert (accessible t (a + i * POINTER_SIZE) false) as Ha.
    { rewrite <- (Z.add_0_r (a + _)). destruct (drop _ ps); destruct Hd as [Ha _]; apply Ha; unfold POINTER_SIZE; lia. }
    cbv zeta. rewrite (accessible_i32 _ _ Ha). wp_step. apply wp_has_perms; [done|]. cbn [negb]. wp_step.
    destruct (drop (Z.to_nat i) ps) as [|q qs] eqn:Ed.
    + destruct Hd as [Hacc Hw]. eapply wp_user_read_word; [done..|]. cbn [Z.eqb]. wp_step. wp_step. exact HQ.
    + destruct Hd as (Hacc & Hw & Hq & _). eapply wp_user_read_word; [done|done|lia|].
      rewrite (proj2 (Z.eqb_neq q 0)) by lia. wp_step. split; [done|].
      apply (f_equal length) in Ed. rewrite length_drop in Ed. simpl in Ed. unfold zlen. lia.
  - intros ? [-> Hle]. unfold MAX_ARGV_LEN in *. lia.
Qed.
Lemma fetch_argv_ok ps : forall a fuel Q,
  pointers_at t pm a ps -> (length ps < fuel)%nat -> Q ps m -> wp (fetch_argv fuel a) Q m.
Proof.
  induction ps as [|q ps IH]; intros a [|fuel] Q Hp Hl HQ; simpl in Hl; try lia; cbn [fetch_argv]; wp_step.
  - destruct Hp as [Hacc Hw]. eapply wp_user_read_word; [done..|]. cbn [Z.eqb]. by wp_step.
  - destruct Hp as (Hacc & Hw & Hq & Hp). eapply wp_user_read_word; [done|done|lia|].
    rewrite (proj2 (Z.eqb_neq q 0)) by lia. wp_step. apply IH; [done|lia|]. by wp_step.
Qed.

Lemma check_args_ok ps args Q : Forall2 (good_string t pm) ps args -> Q true m -> wp (check_args ps) Q m.
Proof.
  intros Hf HQ. induction Hf as [|a str ps args Hs Hf IH]; cbn [check_args]; [by wp_step|].
  wp_step. by eapply check_c_string_ok.
Qed.
Lemma fetch_args_ok ps args : forall Q, Forall2 (good_string t pm) ps args -> Q args m -> wp (fetch_args ps) Q m.
Proof.
  intros Q Hf. revert Q. induction Hf as [|a str ps args (_ & Hl & Hs) Hf IH]; intros Q HQ;
    unfold fetch_args in *; cbn [foldr]; [by wp_step|]. wp_step. eapply fetch_string_ok; [done|unfold zlen in *; lia|].
  wp_step. apply IH. by wp_step.
Qed.
End reading.
End strings.

(** ** [KernelExec] *)
Section exec.
Context {hw : Machine} {hw_ok : MachineOk} {files : Files}.

(** The process [p] runs, in its own pages [t]. *)
Record execs (s : kstate) (p : addr) (b : pcb) (t : list pte) : Prop := {
  xc_running : running_proc (k_sched s) = Some p;
  xc_block : st_pcbs (k_store s) !! p = Some b;
  xc_user : user_ok (k_mem s) (p_mem_ctx b) t
}.

(** The registers point to the name and to pointers to the arguments. *)
Definition asks (u : UserContext) (t : list pte) (pm : Z -> Z -> Z) (name : list Z) (args : list (list Z)) : Prop :=
  good_string t pm (uc_reg0 u) name /\
  exists ps, good_argv t pm (uc_reg1 u) ps /\ Forall2 (good_string t pm) ps args.

(** There is no such program, or it is not for region 1 or does not fit. *)
Definition unfit (name : list Z) (args : list (list Z)) : Prop :=
  match open_file name with
  | None => True
  | Some fd =>
      match LoadInfo fd with
      | None => True
      | Some li => li_entry li < VMEM_1_BASE \/ MAX_PT_LEN <= stack_pages args + data_page li + data_pages li
      end
  end.

(** The call returns an error, and that is all. *)
Definition exec_error (s : kstate) (p : addr) (b : pcb) : kstate :=
  set_k_mem (with_block p (set_p_uc (uc_set_reg0 ERROR (p_uc b)) b) (k_mem s)) s.

Lemma k_mem_same s : set_k_mem (k_mem s) s = s.
Proof. by destruct s. Qed.

Lemma LoadProgram_unfit name args p m Q : unfit name args -> Q ERROR m -> wp (LoadProgram name args p) Q m.
Proof.
  intros Hun HQ. unfold LoadProgram, unfit in *. destruct (open_file name) as [fd|]; [|by wp_step].
  destruct (LoadInfo fd) as [li|]; [|by wp_step].
  destruct (Z.ltb_spec (li_entry li) VMEM_1_BASE); [by wp_step|].
  destruct (Z.leb_spec MAX_PT_LEN (stack_pages args + data_page li + data_pages li)); [by wp_step|lia].
Qed.

Section call.
Context (s : kstate) (p : addr) (b : pcb) (t : list pte).
Hypothesis Hx : execs s p b t.

Lemma exec_error_ok : wp (returning (set_reg0 p ERROR)) (fun f s' => f = Returned /\ s' = exec_error s p b) s.
Proof.
  unfold returning. rewrite <- (km_same s) at 1. wp_step. eapply set_reg0_km; [apply Hx|]. wp_step.
  split; [done|]. unfold exec_error. by destruct s.
Qed.

(** The checks pass, and what is loaded is what the caller asked for. *)
Lemma exec_checks name args Q :
  asks (p_uc b) t (m_pmem (k_mem s)) name args ->
  wp (LoadProgram name args p) (fun res m' =>
    wp (if res =? KILL then KernelExit None
        else if res =? ERROR then returning (set_reg0 p ERROR) else mret Returned) Q (set_k_mem m' s)) (k_mem s) ->
  wp (KernelExec p) Q s.
Proof.
  intros (Hname & ps & Hargv & Hargs) HQ. pose proof Hx as [Hr Hb Hu]. unfold KernelExec.
  rewrite <- (km_same s) at 1. wp_step. eapply get_uc_km; [exact Hb|]. cbv zeta.
  wp_step. apply wp_km. eapply check_c_string_ok; [exact Hu|exact Hname|]. cbn [negb].
  wp_step. apply wp_km. eapply check_argv_ok; [exact Hu|exact Hargv|]. cbn [negb].
  wp_step. apply wp_km. destruct Hargv as (_ & Hlen & Hptrs).
  eapply fetch_argv_ok; [exact Hu|exact Hptrs|unfold zlen in *; lia|].
  wp_step. apply wp_km. eapply check_args_ok; [exact Hu|exact Hargs|]. cbn [negb].
  wp_step. apply wp_km_running with p; [exact Hr|].
  wp_step. apply wp_km. destruct Hname as (_ & Hnlen & Hstr).
  eapply fetch_string_ok; [exact Hu|exact Hstr|unfold zlen in *; lia|].
  wp_step. apply wp_km. eapply fetch_args_ok; [exact Hu|exact Hargs|].
  wp_step. apply wp_km. eapply wp_mono; [exact HQ|]. intros res m'. by destruct s.
Qed.

(** A name that cannot be read. *)
Lemma exec_bad_name Q :
  uc_reg0 (p_uc b) = 0 \/ ~ accessible t (to_i32 (uc_reg0 (p_uc b))) false ->
  wp (returning (set_reg0 p ERROR)) Q s -> wp (KernelExec p) Q s.
Proof.
  intros Hbad HQ. pose proof Hx as [Hr Hb Hu]. unfold KernelExec.
  rewrite <- (km_same s) at 1. wp_step. eapply get_uc_km; [exact Hb|]. cbv zeta. wp_step. apply wp_km.
  enough (wp (check_c_string (uc_reg0 (p_uc b))) (fun ok m' => ok = false /\ m' = k_mem s) (k_mem s)) as Hw.
  { eapply wp_mono; [exact Hw|]. intros ? ? [-> ->]. cbn [negb]. by rewrite km_same. }
  unfold check_c_string. destruct (Z.eqb_spec (uc_reg0 (p_uc b)) 0); [by wp_step|].
  destruct Hbad as [|Hbad]; [done|]. wp_step.
  apply (wp_for_range_ret _ _ _ (fun i s' => s' = k_mem s /\ i = 0)); [done| |intros ? [-> E]; discriminate E].
  intros i ? _ [-> ->]. cbv zeta. rewrite Z.add_0_r.
  destruct (has_perms_accessible (k_mem s) _ t (to_i32 (uc_reg0 (p_uc b))) false Hu) as (ok & Hrun & Hok).
  wp_step. unfold wp at 1. rewrite Hrun. destruct ok; [by destruct Hbad; apply Hok|]. cbn [negb].
  wp_step. by wp_step.
Qed.
End call.
End exec.

(** C11: [KernelExec].  When the name register is NULL or cannot be read the
    call returns an error.  When the registers point to a name and to arguments
    that can be read, the program of that name is loaded with these arguments:
    if there is none, or it is not for region 1 or does not fit, the call
    returns an error and nothing else changes; if there is one and its pages
    fit into the free frames with those of the caller, then the pages of the
    caller are replaced by a text that can be read and run, a data segment and
    a stack that can be written, with the bytes of the file, zeroed bss,
    and the arguments with their pointers on the stack; the caller goes on at
    the entry of the program with the stack pointer below the arguments, its
    break behind the data.  When they do not fit, or the file is cut short, the
    process has lost its program and ends as with [Exit] of -1.  In both cases
    no frame is lost, no frame in use by others and no other process changes. *)
Theorem exec_replaces_program {hw : Machine} {hw_ok : MachineOk} {files : Files} (s : kstate) (p : addr)
    (b : pcb) (t : list pte) :
  execs s p b t ->
  (uc_reg0 (p_uc b) = 0 \/ ~ accessible t (to_i32 (uc_reg0 (p_uc b))) false ->
     KernelExec p s = Some (Returned, exec_error s p b)) /\
  forall name args, asks (p_uc b) t (m_pmem (k_mem s)) name args ->
    (unfit name args -> KernelExec p s = Some (Returned, exec_error s p b)) /\
    forall fd li, starts (k_mem s) p b t name args fd li -> exists m' t',
      (available (k_mem s) t args fd li ->
        KernelExec p s = Some (Returned, set_k_mem m' s) /\ loaded (k_mem s) p b t args fd li t' m') /\
      (~ available (k_mem s) t args fd li ->
        (forall f s', KernelExit None (set_k_mem m' s) = Some (f, s') -> KernelExec p s = Some (f, s')) /\
        unloaded (k_mem s) p b t args t' m').
Proof.
  intros Hx. split; [|intros name args Hask; split].
  - intros Hbad.
    destruct (proj1 (wp_run _ _ _) (exec_bad_name s p b t Hx _ Hbad (exec_error_ok s p b t Hx)))
      as (f & s' & Hrun & -> & ->). done.
  - intros Hun. destruct kill_spec as [Hk _].
    assert (wp (KernelExec p) (fun f s' => f = Returned /\ s' = exec_error s p b) s)
      as (f & s' & Hrun & -> & ->)%wp_run; [|done].
    eapply exec_checks; [exact Hx|exact Hask|]. apply LoadProgram_unfit; [done|].
    rewrite (proj2 (Z.eqb_neq ERROR KILL)), Z.eqb_refl, k_mem_same by congruence.
    by eapply exec_error_ok.
  - intros fd li Hl. destruct kill_spec as [_ Hk].
    destruct (proj1 (wp_run _ _ _) (LoadProgram_result _ _ _ _ _ _ _ _ Hl)) as (r & m' & Hrun & t' & Hd).
    assert (forall Q, wp (if r =? KILL then KernelExit None
        else if r =? ERROR then returning (set_reg0 p ERROR) else mret Returned) Q (set_k_mem m' s) -> wp (KernelExec p) Q s) as Hk'.
    { intros Q HQ. eapply exec_checks; [exact Hx|exact Hask|]. unfold wp at 1. by rewrite Hrun. }
    exists m', t'. destruct Hd as [(-> & Ha & Hd)|(-> & Ha & Hd)]; (split; intros Ha'; [try done|try done]);
      (split; [|exact Hd]).
    + rewrite (proj2 (Z.eqb_neq SUCCESS KILL)) in Hk' by congruence.
      by destruct (proj1 (wp_run _ _ _) (Hk' (fun f s' => f = Returned /\ s' = set_k_mem m' s) (conj eq_refl eq_refl)))
        as (f & s' & Hr & -> & ->).
    + intros f s' Hr. rewrite Z.eqb_refl in Hk'.
      destruct (proj1 (wp_run _ _ _) (Hk' (fun f1 s1 => f1 = f /\ s1 = s') ltac:(unfold wp; by rewrite Hr)))
        as (f1 & s1 & Hr1 & -> & ->). exact Hr1.
Qed.

(** The first user process of the concrete kernel with "i" at 272 and the
    pointers of [argv] at 276. *)
Definition demo_exec_memory (f o : Z) : Z :=
  if f =? 6 then default 0 (zget [105; 0; 0; 0; 16; 1; 0; 0; 0; 0; 0; 0] o) else f * 100 + o.
Definition demo_exec_state : kstate :=
  set_k_mem (set_m_pmem demo_exec_memory (demo_kmem (demo_uc 272 276 0))) (demo_kernel_state (demo_uc 272 276 0)).
Definition demo_table : list pte := [mapped_pte 5 5; mapped_pte 6 3] ++ replicate 13 pte_zero ++ [mapped_pte 7 3].

Lemma demo_execs : @execs demo_machine demo_exec_state 2 (demo_uc_proc (demo_uc 272 276 0)) demo_table.
Proof. split; [done|done|]. destruct (demo_kernel_user_ok (demo_uc 272 276 0)). by split. Defined.

(** Addresses of the data page can be read. *)
Lemma demo_data_readable i : 272 <= i < 288 -> @accessible demo_machine demo_table i false.
Proof.
  intros Hi. split; [unfold VMEM_1_BASE, VMEM_1_LIMIT, demo_machine; lia|]. exists 6, 3.
  assert (@vpn_of demo_machine i = 17) as ->; [|done].
  rewrite (@vpn_of_div demo_machine demo_machine_ok). change (@PAGESIZE demo_machine) with 16. zdiv.
Defined.
Lemma demo_asks : @asks demo_machine (demo_uc 272 276 0) demo_table demo_exec_memory [105] [[105]].
Proof.
  assert (@good_string demo_machine demo_table (m_pmem (k_mem demo_exec_state)) 272 [105]) as Hs.
  { split; [done|]. split; [by vm_compute|]. split; [by repeat constructor|]. intros i Hi.
    change (zlen [105]) with 1 in Hi. split; [apply demo_data_readable; lia|].
    assert (i = 0 \/ i = 1) as [-> | ->] by lia; reflexivity. }
  split; [exact Hs|]. exists [272]. split; [|apply Forall2_cons_2; [exact Hs|apply Forall2_nil_2]].
  split; [done|]. split; [by vm_compute|].
  assert (forall v a, (v = 272 /\ a = 276 \/ v = 0 /\ a = 280) ->
    @word demo_machine demo_table (m_pmem (k_mem demo_exec_state)) a v) as Hw.
  { intros v a Hva i Hi. assert (i = 0 \/ i = 1 \/ i = 2 \/ i = 3) as Ei by lia.
    destruct Hva as [[-> ->]|[-> ->]]; destruct Ei as [->|[->|[-> | ->]]]; reflexivity. }
  split; [intros i Hi; apply demo_data_readable; unfold POINTER_SIZE in Hi; simpl; lia|].
  split; [apply Hw; by left|]. split; [done|]. split; [|apply Hw; by right].
  intros i Hi; apply demo_data_readable; unfold POINTER_SIZE in *; simpl; lia.
Defined.

Lemma demo_loadable : @loadable demo_machine demo_files tt demo_info [[105]].
Proof. split; done. Defined.
Lemma demo_starts : @starts demo_machine demo_files (k_mem demo_exec_state) 2 (demo_uc_proc (demo_uc 272 276 0))
  demo_table [105] [[105]] tt demo_info.
Proof. split; try done. apply demo_execs. Defined.

Lemma exec_replaces_program_witness :
  exists m' t', @KernelExec demo_machine demo_files 2 demo_exec_state = Some (Returned, set_k_mem m' demo_exec_state) /\
    uc_pc ∘ p_uc <$> st_pcbs (m_store m') !! 2%positive = Some 260 /\
    (forall i, 0 <= i < 16 -> @vbyte demo_machine t' (m_pmem m') (256 + i) = zget (seqZ 0 16) i).
Proof.
  destruct (@exec_replaces_program demo_machine demo_machine_ok demo_files _ _ _ _ demo_execs) as [_ Hex].
  destruct (Hex [105] [[105]] demo_asks) as [_ Hl].
  destruct (Hl tt demo_info demo_starts) as (m' & t' & Hloads & _).
  destruct Hloads as [Hrun [Hb _ Him _ _ _ _]]; [by split|].
  exists m', t'. split; [exact Hrun|]. split; [by rewrite Hb|]. intros i Hi.
  apply (@im_text demo_machine demo_files _ _ _ _ _ Him).
  exact Hi.
Defined.
