(* ===== verification/KernelStart.v ===== *)
(** * Starting the kernel ([kernel_start.c])

    [KernelStart] runs on the state the bootstrap code leaves: static variables
    zero, no process, the kernel's memory in use and the rest free.  Its last
    part runs twice, for the idle process at once and for the first user
    process when it is switched to. *)

From S2P Require Import Prelude Machine Pcb FrameTracking Paging KernelMemory UserMemory Fifo SleepHeap Scheduler PipeBuffer PipeTable Locks Terminals Kernel LoadProgram.

(** ** Definitions *)

(** The command line, and the address of [do_idle], which only pauses. *)
Class Boot := { cmd_args : list (list Z); idle_func : Z }.

Section definitions.
Context `{Machine} `{Files} `{PidHelper} `{Boot}.

Definition set_up_uc (uc : UserContext) (func sp : Z) : UserContext := uc_set_sp sp (uc_set_pc func uc).

Definition init_interrupt_vector : M mstate unit := emit WriteVectorBase.

(** [KernelStart] after [KernelContextSwitch], with [uctxt] as it then is. *)
Definition kernel_started (init_pcb : addr) (uctxt : UserContext) : M kstate flow :=
  curr_proc ← running;
  if decide (curr_proc = init_pcb) then
    r ← (match cmd_args with
         | [] => mret ERROR
         | init_name :: _ => zoom (LoadProgram init_name cmd_args curr_proc)
         end);
    if negb (r =? SUCCESS) then halt
    else
      b ← zoom (load curr_proc);
      mret (Started (p_uc b))
  else mret (Started (set_up_uc uctxt idle_func (VMEM_1_LIMIT - 1))).

Definition KernelStart (pmem_size : Z) (uctxt : UserContext) : M kstate flow :=
  ok ← zoom malloc;
  let calloc n := if ok : bool then Some (replicate (Z.to_nat n) 0) else None in
  zoom (zoom (initialize_frame_tracking calloc pmem_size) : M mstate bool);;
  zoom init_kernel_brk;;
  zoom init_interrupt_vector;;
  idle_pcb ← zoom (create_new_pcb K_STACK_VPNS REGION1_VPNS uctxt);
  init_pcb ← zoom (create_new_pcb K_STACK_VPNS REGION1_VPNS uctxt);
  idle_pcb ← lift_opt idle_pcb;
  init_pcb ← lift_opt init_pcb;
  zoom (init_region0_pt idle_pcb);;
  zoom (init_region1_pt idle_pcb);;
  zoom init_sync;;
  zoom init_pipes;;
  zoom (init_scheduler idle_pcb);;
  zoom init_tty;;
  zoom (schedule_process init_pcb);;
  zoom enable_vm;;
  zoom (KCCopy (KC_start init_pcb) init_pcb);;
  kernel_started init_pcb uctxt.
End definitions.

Definition demo_boot : Boot := {| cmd_args := [[105]]; idle_func := 4 |}.
