(* ===== verification/Boot.v ===== *)
(** * What the boot leaves behind ([KernelStart])

    From the state the bootstrap code leaves to the first trap: the memory of
    the kernel mapped to itself, the idle process running on it, and the first
    process ready with a kernel stack of its own.  The definitions are in
    [KernelStart]. *)

From S2P Require Import Prelude Machine Pcb FrameTracking Paging KernelMemory UserMemory Fifo SleepHeap Scheduler PipeBuffer PipeTable Locks Terminals Kernel DemoKernel Switching LoadProgram PipeCalls TtyCalls Synchronization Syscalls UserBuffers PipeWorld Processes ExecImage KernelStart.

Section boot.
Context {hw : Machine} {hw_ok : MachineOk}.
Notation RW := (Z.lor PROT_READ PROT_WRITE).
Notation RX := (Z.lor PROT_READ PROT_EXEC).

(** ** The frames and the map of the kernel *)

(** The number of frames of a machine with [pmem_size] bytes. *)
Definition frame_count (pmem_size : Z) : Z := Z.shiftr (DOWN_TO_PAGE pmem_size) PAGESHIFT - PMEM_BASE_FRAME.
Definition all_frames (pmem_size : Z) : gset Z := list_to_set (seqZ PMEM_BASE_FRAME (frame_count pmem_size)).

(** The pages of the kernel: its text, its data and its stack, each in the
    frame of the same number. *)
Definition kernel_prot (j : Z) : option Z :=
  if decide (first_kernel_text_page <= j < first_kernel_data_page) then Some RX
  else if decide (first_kernel_data_page <= j < orig_kernel_brk_page) then Some RW
  else if decide (K_STACK_BASE_VPN <= j < K_STACK_LIMIT_VPN) then Some RW
  else None.
Definition kernel_frames : gset Z :=
  list_to_set (filter (fun j => is_Some (kernel_prot j)) (seqZ 0 K_STACK_LIMIT_VPN)).

Lemma elem_of_all_frames pmem_size x :
  x ∈ all_frames pmem_size <-> PMEM_BASE_FRAME <= x < PMEM_BASE_FRAME + frame_count pmem_size.
Proof. unfold all_frames. rewrite elem_of_list_to_set, elem_of_seqZ. lia. Qed.

(** A fresh allocator has every frame, when the bitset has a bit for each. *)
Lemma zero_block n (after : Z) :
  0 <= n -> Z.even ((n + 7) / 8) = true ->
  frames_wf {| frame_bitset := replicate (Z.to_nat (bitset_size n)) 0; after_bitset := after; next_free := 0;
               NUM_FRAMES := n |}.
Proof.
  intros Hn He. apply initial_block_wf; [|by apply Forall_replicate]. split; [lia|].
  unfold zlen. rewrite length_replicate, bitset_size_even. rewrite Zeven_mod, Z.eqb_eq in He.
  assert (0 <= (n + 7) / 8) by (apply Z.div_pos; lia). pose proof (Z.mul_div_le (n + 7) 8).
  pose proof (Z.div_mod (n + 7) 8). pose proof (Z.mod_pos_bound (n + 7) 8).
  set (k := (n + 7) / 8) in *. pose proof (Z.div_mod k 2). set (q := k / 2) in *. lia.
Qed.
Lemma zero_block_free pmem_size after :
  free_set {| frame_bitset := replicate (Z.to_nat (bitset_size (frame_count pmem_size))) 0; after_bitset := after;
              next_free := 0; NUM_FRAMES := frame_count pmem_size |} = all_frames pmem_size.
Proof.
  apply set_eq. intros x. rewrite elem_of_free_set, elem_of_all_frames. unfold frame_range. simpl.
  split; [by intros [? _]|]. intros Hx. split; [done|]. unfold frame_bit. simpl.
  destruct (zget _ _) as [b|] eqn:E; [|done].
  assert (b = 0) as ->; [|apply Z.testbit_0_l].
  pose proof (zget_Some _ _ _ E) as Hr. rewrite zget_nonneg in E by lia. by apply lookup_replicate in E as [-> _].
Qed.

(** ** [init_region0_pt] *)
Section region0.
Context (s : mstate) (brk : Z) (pm : Z -> Z -> Z).

Lemma map_identity_ok first last prot t f e st :
  0 <= first <= last -> last <= zlen t -> frames_wf f -> (forall j, first <= j < last -> j ∈ free_set f) ->
  wp (map_identity first last prot) (fun ok s' => ok = true /\ exists t' f', s' = kst s t' f' e brk pm st /\
    zlen t' = zlen t /\ frames_wf f' /\ NUM_FRAMES f' = NUM_FRAMES f /\
    (forall x, x ∈ free_set f' <-> x ∈ free_set f /\ ~ first <= x < last) /\
    forall j, maps t' j = if decide (first <= j < last) then Some (j, prot) else maps t j) (kst s t f e brk pm st).
Proof.
  intros Hfl Hlen Hwf Hfree. unfold map_identity. wp_step.
  apply (wp_for_range_ret _ _ _ (fun vpn s' => exists t' f', s' = kst s t' f' e brk pm st /\
    zlen t' = zlen t /\ frames_wf f' /\ NUM_FRAMES f' = NUM_FRAMES f /\
    (forall x, x ∈ free_set f' <-> x ∈ free_set f /\ ~ first <= x < vpn) /\
    forall j, maps t' j = if decide (first <= j < vpn) then Some (j, prot) else maps t j)).
  - exists t, f. split; [done|]. split; [done|]. split; [done|]. split; [done|]. split; [intros x; split; [intros ?; split; [done|lia]|tauto]|].
    intros j. by rewrite decide_False by lia.
  - intros vpn ? Hv (t1 & f1 & -> & Hl1 & Hwf1 & Hn1 & Hf1 & Hm1).
    assert (vpn ∈ free_set f1) as Hin by (rewrite Hf1; split; [by apply Hfree|lia]).
    wp_step. wp_step. eapply wp_mono.
    { apply (acquire_frame_ok f1 vpn Hwf1). by apply free_set_range. }
    intros ok f2 (Hwf2 & Hn2 & -> & Hf2). rewrite bool_decide_eq_true_2 by done. cbn [negb].
    change (lset f2 (kst s t1 f1 e brk pm st)) with (kst s t1 f2 e brk pm st).
    wp_step. wp_step. cbn [m_region0_pt kst]. destruct (create_pte_maps t1 vpn vpn prot) as (t2 & Hc & Hl2 & Hm2); [lia|].
    wp_step. eapply wp_lift_opt; [exact Hc|]. wp_step. wp_step. wp_step.
    exists t2, f2. split; [done|]. split; [congruence|]. split; [done|]. split; [congruence|]. split.
    + intros x. rewrite Hf2, elem_of_difference, elem_of_singleton, Hf1.
      split; [intros [[? ?] ?]; split; [done|lia]|intros [? ?]; repeat split; [done|lia|lia]].
    + intros j. rewrite Hm2, Hm1. repeat case_decide; try lia; try done. by subst.
  - intros ? (t' & f' & -> & Hl & Hwf' & Hn & Hf & Hm). wp_step. split; [done|]. exists t', f'.
    rewrite Z.max_r in Hf, Hm by lia. done.
Qed.

Lemma save_stack_ptes_ok a b ks t f e st :
  st_pcbs st !! a = Some b -> p_ks_pt b = Some ks -> zlen ks = K_STACK_VPNS -> zlen t = REGION0_VPNS ->
  wp (save_stack_ptes a) (fun _ s' => exists ks',
    s' = kst s t f e brk pm (set_pcbs (<[a := set_p_ks_pt (Some ks') b]> (st_pcbs st)) st) /\
    zlen ks' = K_STACK_VPNS /\ forall i, 0 <= i < K_STACK_VPNS -> maps ks' i = maps t (K_STACK_BASE_VPN + i))
    (kst s t f e brk pm st).
Proof.
  intros Hb Hks Hlk Hlt. destruct kstack_vpns_spec as (Hk1 & Hk2 & Hk3).
  unfold save_stack_ptes. wp_step. wp_step. cbn [m_region0_pt kst].
  assert (exists l, zslice t K_STACK_BASE_VPN K_STACK_VPNS = Some l) as [l Hsl].
  { unfold zslice, K_STACK_VPNS in *. rewrite decide_True by lia. eauto. }
  wp_step. eapply wp_lift_opt; [exact Hsl|]. wp_step. wp_step. eapply wp_load; [exact Hb|].
  pose proof (zslice_length _ _ _ _ Hsl) as Hll.
  assert (zblit ks 0 l = Some l) as Hbl.
  { unfold zblit. rewrite decide_True by lia. simpl. f_equal. rewrite drop_ge, app_nil_r; [done|].
    unfold zlen in *. lia. }
  wp_step. eapply wp_lift_opt; [rewrite Hks; exact Hbl|]. wp_step. eapply wp_update; [exact Hb|].
  exists l. split; [done|]. split; [done|]. intros i Hi. by eapply zslice_maps.
Qed.
End region0.

(** ** The machine is large enough

    The symbols of the linker are in order, there is room for the copy of a
    kernel stack below the kernel stack, every page of the kernel has a frame
    and the bitset a bit for every frame; one more frame and those of a kernel
    stack are free. *)
Record boot_layout (pmem_size : Z) : Prop := {
  bl_text : 0 <= first_kernel_text_page <= first_kernel_data_page;
  bl_data : first_kernel_data_page <= orig_kernel_brk_page;
  bl_brk : orig_kernel_brk_page + K_STACK_VPNS < K_STACK_BASE_VPN - 2;
  bl_base : PMEM_BASE_FRAME <= first_kernel_text_page;
  bl_top : K_STACK_LIMIT_VPN <= PMEM_BASE_FRAME + frame_count pmem_size;
  bl_even : Z.even ((frame_count pmem_size + 7) / 8) = true;
  bl_room : K_STACK_VPNS + 1 <= Z.of_nat (size (all_frames pmem_size ∖ kernel_frames))
}.

Section layout.
Context (pmem_size : Z).
Hypothesis Hbl : boot_layout pmem_size.

Lemma kernel_prot_range j q : kernel_prot j = Some q ->
  0 <= j < K_STACK_LIMIT_VPN /\ PMEM_BASE_FRAME <= j < PMEM_BASE_FRAME + frame_count pmem_size.
Proof.
  destruct Hbl. destruct kstack_vpns_spec as (? & ? & ?). unfold kernel_prot, K_STACK_VPNS in *.
  repeat case_decide; try done; lia.
Qed.
Lemma elem_of_kernel_frames x : x ∈ kernel_frames <-> is_Some (kernel_prot x).
Proof.
  unfold kernel_frames. rewrite elem_of_list_to_set, list_elem_of_filter, elem_of_seqZ.
  split; [tauto|]. intros [q Hq]. split; [by eexists|]. apply kernel_prot_range in Hq. lia.
Qed.

Lemma init_region0_pt_ok s a b ks t f e pm st :
  st_pcbs st !! a = Some b -> p_ks_pt b = Some ks -> zlen ks = K_STACK_VPNS ->
  frames_wf f -> NUM_FRAMES f = frame_count pmem_size -> free_set f = all_frames pmem_size ->
  wp (init_region0_pt a) (fun ok s' => ok = true /\ exists t' f' e' ks',
    s' = kst s t' f' e' orig_kernel_brk_page pm
           (set_pcbs (<[a := set_p_ks_pt (Some ks') b]> (st_pcbs st)) st) /\
    table_ok (T := region0_table) f' t' /\ NUM_FRAMES f' = frame_count pmem_size /\
    (forall j, maps t' j = pair j <$> kernel_prot j) /\
    free_set f' = all_frames pmem_size ∖ kernel_frames /\ zlen ks' = K_STACK_VPNS /\
    forall i, 0 <= i < K_STACK_VPNS -> maps ks' i = maps t' (K_STACK_BASE_VPN + i))
    (kst s t f e orig_kernel_brk_page pm st).
Proof.
  intros Hb Hks Hlk Hwf Hn Hfree. pose proof Hbl as [L1 L2 L3 L4 L5 _ _].
  destruct kstack_vpns_spec as (Hk1 & Hk2 & Hk3). unfold init_region0_pt. wp_step. wp_step.
  set (t0 := replicate _ pte_zero).
  assert (zlen t0 = REGION0_VPNS) as Hl0
    by (destruct region0_vpns_spec; unfold t0, zlen; rewrite length_replicate; lia).
  assert (forall j, maps t0 j = None) as Hm0 by (intros; apply blank_table).
  change (set_m_region0_pt t0 (kst s t f e orig_kernel_brk_page pm st))
    with (kst s t0 f e orig_kernel_brk_page pm st).
  assert (forall x, x ∈ free_set f <-> PMEM_BASE_FRAME <= x < PMEM_BASE_FRAME + frame_count pmem_size) as Hf0
    by (intros; by rewrite Hfree, elem_of_all_frames).
  wp_step. eapply wp_mono; [apply map_identity_ok; [lia|unfold K_STACK_VPNS in *; lia|exact Hwf|]|].
  { intros j Hj. apply Hf0. unfold K_STACK_VPNS in *. lia. }
  intros ? ? (-> & t1 & f1 & -> & Hl1 & Hwf1 & Hn1 & Hf1 & Hm1). cbn [negb]. wp_step. wp_step.
  cbn [m_current_brk_page kst].
  wp_step. eapply wp_mono; [apply map_identity_ok; [lia|unfold K_STACK_VPNS in *; lia|exact Hwf1|]|].
  { intros j Hj. rewrite Hf1, Hf0. unfold K_STACK_VPNS in *. lia. }
  intros ? ? (-> & t2 & f2 & -> & Hl2 & Hwf2 & Hn2 & Hf2 & Hm2). cbn [negb].
  wp_step. eapply wp_mono; [apply map_identity_ok; [unfold K_STACK_VPNS in *; lia|lia|exact Hwf2|]|].
  { intros j Hj. rewrite Hf2, Hf1, Hf0. unfold K_STACK_VPNS in *. lia. }
  intros ? ? (-> & t3 & f3 & -> & Hl3 & Hwf3 & Hn3 & Hf3 & Hm3). cbn [negb].
  assert (forall j, maps t3 j = pair j <$> kernel_prot j) as Hm.
  { intros j. rewrite Hm3, Hm2, Hm1, Hm0. unfold kernel_prot, K_STACK_VPNS in *. repeat case_decide; try done; lia. }
  assert (free_set f3 = all_frames pmem_size ∖ kernel_frames) as Hf.
  { apply set_eq. intros x. rewrite Hf3, Hf2, Hf1, Hfree, elem_of_difference, elem_of_kernel_frames.
    unfold kernel_prot, K_STACK_VPNS in *. repeat case_decide; rewrite ?is_Some_alt; simpl; intuition lia. }
  wp_step. eapply wp_mono; [eapply save_stack_ptes_ok; [exact Hb|exact Hks|exact Hlk|congruence]|].
  intros [] ? (ks' & -> & Hlk' & Hks'). unfold emit. do 5 wp_step. split; [done|].
  eexists t3, f3, _, ks'. split; [done|]. split; [|split; [congruence|done]].
  split; [done|simpl; congruence|..].
  - intros j p q. rewrite Hm. destruct (kernel_prot j) as [q'|] eqn:E; [|done]. intros [= <- <-].
    unfold frame_range. rewrite Hn3, Hn2, Hn1, Hn. by eapply kernel_prot_range.
  - intros j p q. rewrite Hm, Hf. destruct (kernel_prot j) as [q'|] eqn:E; [|done]. intros [= <- <-].
    rewrite elem_of_difference, elem_of_kernel_frames, E. intros [_ []]. by eexists.
  - intros i j p q q'. rewrite !Hm. destruct (kernel_prot i), (kernel_prot j); try done. simpl. congruence.
Qed.
End layout.

(** ** [init_region1_pt] *)
Definition first_layout (t : list pte) (c : mem_ctx_t) : mem_ctx_t :=
  set_layout REGION1_BASE_VPN REGION1_BASE_VPN REGION1_BASE_VPN REGION1_BASE_VPN (set_region1_pt (Some t) c).

Lemma top_page : vpn_of (VMEM_1_LIMIT - 1) - REGION1_BASE_VPN = REGION1_VPNS - 1.
Proof.
  destruct region1_bytes as [_ El]. rewrite vpn_of_div, El. pose proof pagesize_pos.
  assert ((REGION1_LIMIT_VPN * PAGESIZE - 1) / PAGESIZE = REGION1_LIMIT_VPN - 1) as ->.
  { symmetry. apply (Z.div_unique _ _ _ (PAGESIZE - 1)); lia. }
  unfold REGION1_LIMIT_VPN. lia.
Qed.

Lemma init_region1_pt_ok m a b t1 :
  st_pcbs (m_store m) !! a = Some b -> region1_pt (p_mem_ctx b) = Some t1 -> zlen t1 = REGION1_VPNS ->
  (forall j, maps t1 j = None) -> frames_wf (m_frames m) -> free_set (m_frames m) <> ∅ ->
  wp (init_region1_pt a) (fun ok s' => ok = true /\ exists t1' f' e' pfn,
    s' = loading (set_m_mem_ctx (Some a) m) a b (first_layout t1' (p_mem_ctx b)) f' e' (m_pmem m) /\
    table_ok (T := region1_table) f' t1' /\ NUM_FRAMES f' = NUM_FRAMES (m_frames m) /\
    pfn ∈ free_set (m_frames m) /\ free_set f' = free_set (m_frames m) ∖ {[pfn]} /\
    forall j, maps t1' j = if decide (j = REGION1_VPNS - 1) then Some (pfn, RW) else None) m.
Proof.
  intros Hb Ht Hlen Hnone Hwf Hfree. pose proof region1_vpns_spec as [Hv _].
  unfold init_region1_pt, use_ctx, emit. wp_step. wp_step. wp_step. eapply wp_load; [exact Hb|].
  do 6 wp_step. set (m1 := set_m_mem_ctx (Some a) m).
  assert (table_ok (T := region1_table) (m_frames m) t1) as Hok
    by (split; [done|done|intros ? ? ?; by rewrite Hnone..]).
  set (e1 := WritePTLR1 REGION1_VPNS :: WritePTBR1 a :: m_events m).
  match goal with |- wp _ _ ?x => assert (x = loading m1 a b (p_mem_ctx b) (m_frames m) e1 (m_pmem m)) as -> end.
  { unfold loading, m1. simpl. rewrite insert_id by (destruct b; exact Hb). by destruct m as [[]]. }
  set (B := REGION1_BASE_VPN).
  unfold update_ctx. wp_step. wp_step. wp_step. eapply wp_lift_opt; [done|].
  apply (wp_loading_layout m1 a b _ _ _ _ B B B B).
  pose proof (loading_user m1 a eq_refl b (set_layout B B B B (p_mem_ctx b)) t1 (m_frames m) e1 (m_pmem m) Ht Hok) as Hu.
  rewrite (user_ok_paged _ _ _ Hu). cbn [m_frames m_events loading].
  eapply wp_mono.
  { apply (alloc_page_ok (T := region1_table) _ t1 t1); [by eapply user_ok_get|exact Hok| |by apply Hnone].
    simpl. rewrite top_page. lia. }
  intros ok ? (t' & f' & -> & Hok' & Hn & Hres). destruct ok; [|by destruct Hres as (_ & ? & _)].
  split; [done|]. destruct Hres as (pfn & Hp & Hf & Hm). simpl in Hm. rewrite top_page in Hm.
  exists t', f', e1, pfn. split; [|repeat (split; [done|]); intros j; rewrite Hm; case_decide; [done|apply Hnone]].
  by rewrite (loading_paged m1 a eq_refl b _ t1) by done.
Qed.

(** ** The tables *)
Definition empty_sync : sync_t := {|
  locks := replicate (Z.to_nat INITIAL_ARR_SIZE) lock_zero; cvars := replicate (Z.to_nat INITIAL_ARR_SIZE) cvar_zero;
  open_lock_idx := 0; open_cvar_idx := 0; cvar_arr_size := INITIAL_ARR_SIZE; lock_arr_size := INITIAL_ARR_SIZE |}.
Definition empty_pipes : pipes_t := {|
  pipes := replicate (Z.to_nat INITIAL_PIPE_COUNT) pipe_zero; pipes_size := INITIAL_PIPE_COUNT;
  open_pipe_idx := 0 |}.
Definition empty_ttys : list tty_state_t := replicate (Z.to_nat NUM_TERMINALS) tty_zero.

Lemma init_sync_ok st sc sy Q :
  st_malloc st = [] -> open_lock_idx sy = 0 -> open_cvar_idx sy = 0 -> Q true (st, sc, empty_sync) ->
  wp init_sync Q (st, sc, sy).
Proof.
  intros E E1 E2 HQ. unfold init_sync. wp_step. wp_step. apply wp_malloc_all; [exact E|]. cbn [negb].
  unfold put_locks, put_cvars. wp_step. wp_step. wp_step. wp_step. apply wp_malloc_all; [exact E|]. cbn [negb].
  do 5 wp_step. unfold empty_sync in HQ. simpl. by rewrite E1, E2.
Qed.
Lemma init_pipes_ok st sc (pi : pipes_t) Q :
  st_malloc st = [] -> Q true (st, sc, empty_pipes) -> wp init_pipes Q (st, sc, pi).
Proof.
  intros E HQ. unfold init_pipes. wp_step. wp_step. apply wp_malloc_all; [exact E|]. cbn [negb].
  wp_step. wp_step. wp_step. exact HQ.
Qed.

(** ** The state of the kernel, part by part *)
Section parts.
Context (m : mstate) (sc : sched_t) (sy : sync_t) (pi : pipes_t) (tt : list tty_state_t).
Definition kparts : kstate := {| k_mem := m; k_sched := sc; k_sync := sy; k_pipes := pi; k_ttys := tt |}.
End parts.

Section zooms.
Context {A : Type} (Q : A -> kstate -> Prop) (m : mstate) (sc : sched_t) (sy : sync_t) (pi : pipes_t)
  (tt : list tty_state_t).
Lemma wp_part_mem (x : M mstate A) :
  wp x (fun a m' => Q a (kparts m' sc sy pi tt)) m -> wp (zoom x) Q (kparts m sc sy pi tt).
Proof. intros Hx. wp_step. exact Hx. Qed.
Lemma wp_part_store (x : M store A) :
  wp x (fun a st => Q a (kparts (set_m_store st m) sc sy pi tt)) (m_store m) ->
  wp (zoom x) Q (kparts m sc sy pi tt).
Proof. intros Hx. wp_step. exact Hx. Qed.
Lemma wp_part_sched (x : M sched_st A) :
  wp x (fun a y => Q a (kparts (set_m_store y.1 m) y.2 sy pi tt)) (m_store m, sc) ->
  wp (zoom x) Q (kparts m sc sy pi tt).
Proof. intros Hx. wp_step. exact Hx. Qed.
Lemma wp_part_sync (x : M sync_st A) :
  wp x (fun a y => Q a (kparts (set_m_store y.1.1 m) y.1.2 y.2 pi tt)) (m_store m, sc, sy) ->
  wp (zoom x) Q (kparts m sc sy pi tt).
Proof. intros Hx. wp_step. exact Hx. Qed.
Lemma wp_part_pipes (x : M pipe_st A) :
  wp x (fun a y => Q a (kparts (set_m_store y.1.1 m) y.1.2 sy y.2 tt)) (m_store m, sc, pi) ->
  wp (zoom x) Q (kparts m sc sy pi tt).
Proof. intros Hx. wp_step. exact Hx. Qed.
Lemma wp_part_ttys (x : M tty_st A) :
  wp x (fun a y => Q a (kparts (set_m_events y.1.2 (set_m_store y.1.1.1 m)) y.1.1.2 sy pi y.2))
    (m_store m, sc, m_events m, tt) -> wp (zoom x) Q (kparts m sc sy pi tt).
Proof. intros Hx. wp_step. exact Hx. Qed.
End zooms.

(** ** The booted kernel *)
Section start.
Context {files : Files} {pids : PidHelper} {bootargs : Boot}.
Context (pmem_size : Z) (a n : addr) (pid : Z).

(** A process without children that is ready. *)
Definition alone (b : pcb) : Prop := rel_repr (p_relations b) [] /\ p_state b = READY.

(** The block of the idle process: its kernel stack is the one in use, and one
    page, the last, is mapped for its own stack; its segments are empty. *)
Record idle_block (s : kstate) (bi : pcb) (t : list pte) (pfn : Z) : Prop := {
  ib_block : st_pcbs (k_store s) !! a = Some bi;
  ib_stack : exists ks, p_ks_pt bi = Some ks /\ zlen ks = K_STACK_VPNS /\
    forall i, 0 <= i < K_STACK_VPNS -> maps ks i = maps (m_region0_pt (k_mem s)) (K_STACK_BASE_VPN + i);
  ib_user : user_ok (k_mem s) (p_mem_ctx bi) t;
  ib_pages : forall j, maps t j = if decide (j = REGION1_VPNS - 1) then Some (pfn, RW) else None;
  ib_alone : alone bi;
  ib_layout : p_mem_ctx bi = first_layout t (p_mem_ctx bi)
}.

(** The block of the first process: it is to go on after the switch in
    [KernelStart], on a copy of the kernel stack, and has no pages. *)
Record first_block (s : kstate) (bn : pcb) (uctxt : UserContext) (kn : list pte) : Prop := {
  fb_block : st_pcbs (k_store s) !! n = Some bn;
  fb_state : alone bn /\ p_pid bn = pid /\ p_uc bn = uctxt /\ p_kc bn = KC_start n /\ p_ks_pt bn = Some kn;
  fb_stack : forall i, 0 <= i < K_STACK_VPNS -> exists f, maps kn i = Some (f, RW) /\
    m_pmem (k_mem s) f = m_pmem (k_mem s) (K_STACK_BASE_VPN + i);
  fb_inj : forall i j f q q', maps kn i = Some (f, q) -> maps kn j = Some (f, q') -> i = j;
  fb_pages : region1_pt (p_mem_ctx bn) = Some (replicate (Z.to_nat REGION1_VPNS) pte_zero)
}.

Record booted (uctxt : UserContext) (s : kstate) : Prop := {
  bd_running : running_proc (k_sched s) = Some a /\ idle_proc (k_sched s) = Some a;
  bd_ready : sched_inv (k_store s, k_sched s) [n] [] [];
  bd_kernel : kernel_ok (k_mem s);
  bd_map : forall j, maps (m_region0_pt (k_mem s)) j = pair j <$> kernel_prot j;
  bd_blocks : exists bi bn t kn pfn, idle_block s bi t pfn /\ first_block s bn uctxt kn /\ p_pid bi <> p_pid bn /\
    pfn ∈ all_frames pmem_size ∖ kernel_frames /\
    zlen kn = K_STACK_VPNS /\ frames_of kn 0 K_STACK_VPNS ⊆ all_frames pmem_size ∖ kernel_frames ∖ {[pfn]} /\
    free_set (m_frames (k_mem s)) =
      all_frames pmem_size ∖ kernel_frames ∖ {[pfn]} ∖ frames_of kn 0 K_STACK_VPNS;
  bd_only : forall x, is_Some (st_pcbs (k_store s) !! x) <-> x = a \/ x = n;
  bd_machine : m_mem_ctx (k_mem s) = Some a /\ NUM_FRAMES (m_frames (k_mem s)) = frame_count pmem_size /\
    m_current_brk_page (k_mem s) = orig_kernel_brk_page;
  bd_heap : st_malloc (k_store s) = [] /\ st_next (k_store s) = Pos.succ n;
  bd_tables : k_sync s = empty_sync /\ k_pipes s = empty_pipes /\ k_ttys s = empty_ttys
}.

(** From the page tables on. *)
Section tail.
Context (m : mstate) (sc : sched_t) (sy : sync_t) (pi : pipes_t) (tt : list tty_state_t).
Context (bi : pcb) (u : UserContext) (t : list pte) (ks : list pte) (pfn : Z).
Notation bn := (fresh_pcb K_STACK_VPNS REGION1_VPNS pid u).
Hypothesis Hbl : boot_layout pmem_size.
Hypothesis Han : a <> n.
Hypothesis Hmal : st_malloc (m_store m) = [].
Hypothesis Hnx : st_next (m_store m) = Pos.succ n.
Hypothesis Hi : st_pcbs (m_store m) !! a = Some bi.
Hypothesis Hn : st_pcbs (m_store m) !! n = Some bn.
Hypothesis Honly : forall x, is_Some (st_pcbs (m_store m) !! x) <-> x = a \/ x = n.
Hypothesis Hpid : p_pid bi <> pid.
Hypothesis Hal : alone bi.
Hypothesis Hlay : p_mem_ctx bi = first_layout t (p_mem_ctx bi).
Hypothesis Hcount : NUM_FRAMES (m_frames m) = frame_count pmem_size.
Hypothesis Hopen : open_lock_idx sy = 0 /\ open_cvar_idx sy = 0.
Hypothesis Hr0 : table_ok (T := region0_table) (m_frames m) (m_region0_pt m).
Hypothesis Hmap : forall j, maps (m_region0_pt m) j = pair j <$> kernel_prot j.
Hypothesis Hbrk : m_current_brk_page m = orig_kernel_brk_page.
Hypothesis Hks : p_ks_pt bi = Some ks /\ zlen ks = K_STACK_VPNS /\
  forall i, 0 <= i < K_STACK_VPNS -> maps ks i = maps (m_region0_pt m) (K_STACK_BASE_VPN + i).
Hypothesis Hu : user_ok m (p_mem_ctx bi) t.
Hypothesis Hctx : m_mem_ctx m = Some a.
Hypothesis Ht : forall j, maps t j = if decide (j = REGION1_VPNS - 1) then Some (pfn, RW) else None.
Hypothesis Hpfn : pfn ∈ all_frames pmem_size ∖ kernel_frames.
Hypothesis Hfree : free_set (m_frames m) = all_frames pmem_size ∖ kernel_frames ∖ {[pfn]}.

Lemma kernel_ready st e :
  kernel_ok (set_m_vm_enabled true (set_m_events e (set_m_store st m))).
Proof.
  destruct Hbl as [L1 L2 L3 L4 L5 _ _]. destruct kstack_vpns_spec as (Hk1 & Hk2 & Hk3).
  split; simpl; rewrite ?Hbrk; try done; try lia.
  - intros j Hj. rewrite Hmap. unfold kernel_prot, K_STACK_VPNS in *. repeat case_decide; try done; lia.
  - intros j Hj. rewrite Hmap. exists j, RW. split; [|apply prot_rw].
    unfold kernel_prot, K_STACK_VPNS in *. repeat case_decide; try done; lia.
Qed.
Lemma stack_room : K_STACK_VPNS <= Z.of_nat (size (free_set (m_frames m))).
Proof.
  destruct Hbl as [_ _ _ _ _ _ L]. rewrite Hfree.
  rewrite size_difference by (apply singleton_subseteq_l, Hpfn). rewrite size_singleton. lia.
Qed.

(** The last two steps: the kernel stack of the first process, and the return
    to the idle process. *)
Lemma kernel_stack_ok st1 st2 sc2 e2 :
  st_pcbs st1 = st_pcbs (m_store m) -> st_malloc st1 = [] -> st_next st1 = Pos.succ n -> running_proc sc2 = Some a -> idle_proc sc2 = Some a ->
  next_only (set_pcbs (<[n := set_p_state READY bn]> (st_pcbs st1)) st1) st2 [n] ->
  sched_inv (st2, sc2) [n] [] [] ->
  wp (zoom (KCCopy (KC_start n) n);; kernel_started n u)
    (fun f s' => f = Started (set_up_uc u idle_func (VMEM_1_LIMIT - 1)) /\ booted u s')
    (kparts (set_m_vm_enabled true (set_m_events e2 (set_m_store st2 m))) sc2 empty_sync empty_pipes empty_ttys).
Proof.
  intros Hpc Hm1 Hn1 Hrun Hidle Hno Hinv. pose proof (kernel_ready st2 e2) as Hko. set (m4 := set_m_vm_enabled _ _) in *.
  assert (st_pcbs st2 !! a = Some bi) as Ha2.
  { rewrite (no_out _ _ _ Hno) by (by intros ->%list_elem_of_singleton). simpl.
    by rewrite lookup_insert_ne, Hpc. }
  destruct (next_only_block _ _ _ n (set_p_state READY bn) Hno) as [nx Hn2]; [apply lookup_insert_eq|].
  epose proof (KCCopy_ok m4 (m_region0_pt m) (m_frames m) e2 (m_current_brk_page m) (m_pmem m) st2
    (KC_start n) n _ _) as Hcopy. cbv zeta in Hcopy.
  assert (kst m4 (m_region0_pt m) (m_frames m) e2 (m_current_brk_page m) (m_pmem m) st2 = m4) as Em by done.
  rewrite Em in Hcopy. wp_step. apply wp_part_mem.
  eapply wp_mono; [apply Hcopy; [exact Hko|exact Hn2|done|]|].
  { unfold zlen. rewrite length_replicate. destruct kstack_vpns_spec as (? & ? & ?). lia. }
  clear Hcopy. intros ok m' (t' & f' & e' & pm' & Hok' & Hnum & Hsame & Hmem & Hres).
  rewrite decide_True in Hres; [|split; [rewrite Hbrk; apply Hbl|apply stack_room]].
  destruct Hres as (-> & kn & -> & Hlk & Hkn & Hinj & Hf'). rewrite Hfree in Hf', Hkn, Hmem.
  set (bn' := with_stack _ _ _) in *. set (st' := set_pcbs _ st2).
  unfold kernel_started. wp_step. unfold running. wp_step. apply wp_part_sched. unfold get_running_proc. wp_step.
  eapply wp_lift_opt; [exact Hrun|]. rewrite decide_False by done. wp_step. split; [done|].
  assert (st_pcbs st' !! a = Some bi) as Ha' by (simpl; by rewrite lookup_insert_ne).
  split; try done.
  - simpl. eapply sched_inv_keeps; [exact Hinv|]. by eapply keeps_update.
  - simpl. apply (kernel_ok_same m4); [exact Hko|exact Hsame|exact Hok'|done].
  - intros j. simpl. by rewrite Hsame.
  - exists bi, bn', t, kn, pfn. split; [|split; [|split; [done|split; [done|split; [exact Hlk|split; [|done]]]]]].
    + split; [exact Ha'| | |exact Ht|exact Hal|exact Hlay].
      * destruct Hks as (Hk1 & Hk2 & Hk3). exists ks. do 2 (split; [done|]). intros i Hi'. simpl.
        by rewrite Hsame, Hk3.
      * apply (user_ok_ext m); [exact Hu|done| |].
        -- simpl. eapply table_ok_shrink; [apply Hu|apply Hok'|exact Hnum|]. rewrite Hf', Hfree. set_solver.
        -- intros x. rewrite Hctx. intros [= <-]. simpl. by rewrite lookup_insert_ne, Ha2, Hi.
    + split; [simpl; apply lookup_insert_eq| | |exact Hinj|done].
      { split; [split; [apply fresh_pcb_children|done]|done]. }
      intros i Hi'. destruct (Hkn i Hi') as (f & ps & q & Hf & Hfin & Hps & Epm). exists f. split; [done|]. simpl.
      rewrite Hmap in Hps. destruct (kernel_prot _) as [q'|] eqn:E; [|done]. injection Hps as <- _.
      rewrite Epm. symmetry. apply Hmem. rewrite !elem_of_difference, elem_of_kernel_frames by done.
      rewrite E. intros [[_ []] _]. by eexists.
    + intros f (i & q & Hi' & Hf)%elem_of_frames_of. destruct (Hkn i Hi') as (f1 & ps & q1 & Hf1 & Hfin & _).
      rewrite Hf in Hf1. injection Hf1 as <- _. done.
  - intros x. simpl. destruct (decide (x = n)) as [->|Hxn]; [rewrite lookup_insert_eq; naive_solver|].
    rewrite lookup_insert_ne by done. rewrite (no_out _ _ _ Hno) by (by intros ->%list_elem_of_singleton).
    simpl. rewrite lookup_insert_ne, Hpc by done. apply Honly.
  - simpl. split; [exact Hctx|]. split; [by rewrite Hnum|exact Hbrk].
  - simpl. split; [by rewrite (no_malloc _ _ _ Hno)|by rewrite (no_alloc _ _ _ Hno)].
Qed.

Lemma boot_tail_ok :
  wp (zoom init_sync;; zoom init_pipes;; zoom (init_scheduler a);; zoom init_tty;; zoom (schedule_process n);;
      zoom enable_vm;; zoom (KCCopy (KC_start n) n);; kernel_started n u)
    (fun f s' => f = Started (set_up_uc u idle_func (VMEM_1_LIMIT - 1)) /\ booted u s')
    (kparts m sc sy pi tt).
Proof.
  destruct Hopen as [Ho1 Ho2]. wp_step. apply wp_part_sync, init_sync_ok; [exact Hmal|done|done|]. simpl.
  wp_step. apply wp_part_pipes, init_pipes_ok; [exact Hmal|]. simpl.
  wp_step. apply wp_part_sched. eapply wp_mono; [apply init_scheduler_ok|].
  intros ok [st1 sc1] ((Hpc1 & Hnx1 & _) & _ & Hr1 & Hid1 & Hok & Hinv). simpl in *.
  destruct (Hok Hmal) as [Eok Hm1]. specialize (Hinv Eok).
  wp_step. apply wp_part_ttys. unfold init_tty. wp_step. simpl.
  assert (st_pcbs st1 !! n = Some bn) as Hn1 by by rewrite Hpc1.
  wp_step. apply wp_part_sched. eapply wp_mono.
  { apply (schedule_process_ok st1 sc1 [] [] [] n bn Hinv); [by apply not_elem_of_nil|exact Hn1]. }
  intros [] [st2 sc2]. rewrite Hid1, decide_False by congruence. intros (Hinv2 & Hno & q2 & E2). simpl in *. subst sc2.
  wp_step. apply wp_part_mem. unfold enable_vm, emit. do 3 wp_step. simpl.
  set (e2 := WriteVMEnable :: m_events m).
  match goal with |- wp _ _ (kparts ?x _ _ _ _) =>
    change x with (set_m_vm_enabled true (set_m_events e2 (set_m_store st2 m))) end.
  eapply kernel_stack_ok; [|exact Hm1| |done..|exact Hno|exact Hinv2]; [by rewrite Hpc1|by rewrite Hnx1].
Qed.
End tail.

(** ** From the bootstrap code to the first trap *)
Section head.
Context (m : mstate) (sc : sched_t) (sy : sync_t) (pi : pipes_t) (tt : list tty_state_t) (u : UserContext).
Context {pids_ok : PidHelperOk}.
Hypothesis Hbl : boot_layout pmem_size.
Hypothesis Ha : a = st_next (m_store m).
Hypothesis Hn : n = Pos.succ a.
Hypothesis Hempty : st_pcbs (m_store m) = ∅.
Hypothesis Hmal : st_malloc (m_store m) = [].
Hypothesis Hopen : open_lock_idx sy = 0 /\ open_cvar_idx sy = 0.

Let f0 : frames_t :=
  {| frame_bitset := replicate (Z.to_nat (bitset_size (frame_count pmem_size))) 0;
     after_bitset := after_bitset (m_frames m); next_free := 0; NUM_FRAMES := frame_count pmem_size |}.
Let pid1 : Z := helper_pid (st_pid_calls (m_store m)).
Hypothesis Hpid2 : helper_pid (NewPid pid1 :: st_pid_calls (m_store m)) = pid.
Notation fresh pid := (fresh_pcb K_STACK_VPNS REGION1_VPNS pid u).

(** The two blocks are made. *)
Definition blocks_made (st : store) : Prop :=
  st_pcbs st = <[n := fresh pid]> {[a := fresh pid1]} /\ st_malloc st = [] /\ st_next st = Pos.succ n.

(** The page tables. *)
Lemma boot_tables_ok e st :
  blocks_made st ->
  wp (zoom (init_region0_pt a);; zoom (init_region1_pt a);; zoom init_sync;; zoom init_pipes;;
      zoom (init_scheduler a);; zoom init_tty;; zoom (schedule_process n);; zoom enable_vm;;
      zoom (KCCopy (KC_start n) n);; kernel_started n u)
    (fun f s' => f = Started (set_up_uc u idle_func (VMEM_1_LIMIT - 1)) /\ booted u s')
    (kparts (kst m (m_region0_pt m) f0 e orig_kernel_brk_page (m_pmem m) st) sc sy pi tt).
Proof.
  intros (Hst & Hmal2 & Hnx2). pose proof Hbl as [L1 L2 L3 L4 L5 Hev Hroom].
  destruct kstack_vpns_spec as (Hk1 & Hk2 & Hk3). destruct region1_vpns_spec as [Hv1 _].
  assert (a <> n) as Han by lia.
  assert (zlen (replicate (Z.to_nat K_STACK_VPNS) pte_zero) = K_STACK_VPNS) as Hlk
    by (unfold zlen; rewrite length_replicate; lia).
  assert (zlen (replicate (Z.to_nat REGION1_VPNS) pte_zero) = REGION1_VPNS) as Hlr
    by (unfold zlen; rewrite length_replicate; lia).
  assert (frames_wf f0) as Hwf0 by (apply zero_block; [unfold K_STACK_VPNS in *; lia|done]).
  wp_step. apply wp_part_mem. eapply wp_mono.
  { apply (init_region0_pt_ok pmem_size Hbl m a (fresh pid1) (replicate (Z.to_nat K_STACK_VPNS) pte_zero));
      [|done|exact Hlk|exact Hwf0|done|apply zero_block_free].
    by rewrite Hst, lookup_insert_ne, lookup_singleton_eq. }
  intros ok1 ? (-> & t0 & f1 & e1 & ks & -> & Hok0 & Hn1 & Hm0 & Hf1 & Hlks & Hks).
  set (b1 := set_p_ks_pt (Some ks) (fresh pid1)). set (st1 := set_pcbs _ st).
  wp_step. apply wp_part_mem. eapply wp_mono.
  { apply (init_region1_pt_ok _ a b1 (replicate (Z.to_nat REGION1_VPNS) pte_zero));
      [apply lookup_insert_eq|done|exact Hlr|intros; apply blank_table|apply Hok0|].
    simpl. rewrite Hf1. intros E. rewrite E, size_empty in Hroom. lia. }
  intros ok2 ? (-> & t1 & f2 & e2 & pfn & -> & Hok1 & Hn2 & Hp & Hf2 & Hm1). cbn [m_frames m_pmem kst] in *.
  rewrite Hf1 in Hp, Hf2.
  set (c1 := first_layout t1 (p_mem_ctx b1)). set (b2 := set_p_mem_ctx c1 b1).
  apply (boot_tail_ok _ sc sy pi tt b2 u t1 ks pfn); try done.
  - simpl. by rewrite lookup_insert_eq.
  - simpl. by rewrite !lookup_insert_ne, Hst, lookup_insert_eq.
  - intros x. simpl. rewrite Hst. destruct (decide (x = a)) as [->|Hxa]; [rewrite lookup_insert_eq; naive_solver|].
    rewrite !(lookup_insert_ne _ a x) by done. destruct (decide (x = n)) as [->|Hxn];
      [rewrite lookup_insert_eq; naive_solver|].
    rewrite lookup_insert_ne, lookup_singleton_ne by done. rewrite is_Some_alt. naive_solver.
  - simpl. intros E. apply (helper_pid_fresh (NewPid pid1 :: st_pid_calls (m_store m))).
    rewrite Hpid2. rewrite <- E. simpl. set_solver.
  - split; [apply fresh_pcb_children|done].
  - simpl. by rewrite Hn2, Hn1.
  - simpl. eapply table_ok_shrink; [exact Hok0|apply Hok1|congruence|]. rewrite Hf2, Hf1. set_solver.
  - by apply (loading_user _ a).
Qed.

Lemma KernelStart_ok :
  wp (KernelStart pmem_size u)
    (fun f s' => f = Started (set_up_uc u idle_func (VMEM_1_LIMIT - 1)) /\ booted u s') (kparts m sc sy pi tt).
Proof.
  unfold KernelStart. wp_step. apply wp_part_store, wp_malloc_all; [exact Hmal|]. cbv zeta.
  wp_step. apply wp_part_mem. wp_step. unfold wp at 1, initialize_frame_tracking. cbv beta iota zeta.
  wp_step. apply wp_part_mem. unfold init_kernel_brk. wp_step.
  wp_step. apply wp_part_mem. unfold init_interrupt_vector, emit. wp_step.
  match goal with |- wp _ _ (kparts ?x _ _ _ _) =>
    change x with (kst m (m_region0_pt m) f0 (WriteVectorBase :: m_events m) orig_kernel_brk_page (m_pmem m)
      (m_store m)) end.
  wp_step. apply wp_part_store. eapply wp_mono.
  { apply wp_conj; [apply create_new_pcb_ok|by apply create_new_pcb_plenty]. simpl. by rewrite Hempty. }
  intros r1 st1 [Hres1 [[a1 ->] Emal1]]. destruct Hres1 as (-> & En1 & Epid1 & Epcb1). simpl in Epid1, Epcb1, En1.
  rewrite <- Ha in *. rewrite Hempty in Epcb1. fold pid1 in Epid1, Epcb1.
  wp_step. apply wp_part_store. eapply wp_mono.
  { apply wp_conj; [apply create_new_pcb_ok|by apply create_new_pcb_plenty]. simpl.
    rewrite En1, Epcb1.
    rewrite lookup_insert_ne by lia. done. }
  intros r2 st2 [Hres2 [[a2 ->] Emal2]]. destruct Hres2 as (-> & En2 & _ & Epcb2). simpl in Epcb2, En2.
  cbn [m_store kst set_m_store]. rewrite <- Ha, En1, <- Hn. rewrite En1, <- Hn, Epid1, Epcb1, Hpid2 in Epcb2.
  wp_step. eapply wp_lift_opt; [done|]. wp_step. eapply wp_lift_opt; [done|].
  apply (boot_tables_ok _ st2). split; [done|]. split; [done|]. by rewrite En2, En1, <- Hn.
Qed.
End head.
End start.

(** The number of the first process, the second that is handed out. *)
Definition second_pid {pids : PidHelper} (calls : list pid_call) : Z := helper_pid (NewPid (helper_pid calls) :: calls).

(** The state the bootstrap code leaves: no process, the tables of
    [synchronization.c] zero, and memory enough. *)
Record bootstrap (pmem_size : Z) (s : kstate) : Prop := {
  bs_layout : boot_layout pmem_size;
  bs_empty : st_pcbs (k_store s) = ∅;
  bs_malloc : st_malloc (k_store s) = [];
  bs_open : open_lock_idx (k_sync s) = 0 /\ open_cvar_idx (k_sync s) = 0
}.

(** The first process, when it runs for the first time. *)
Lemma kernel_started_first {files : Files} {bootargs : Boot} (s : kstate) (n : addr) (b : pcb) (t : list pte) (name : list Z)
    (rest : list (list Z)) (fd : file) (li : load_info) (u : UserContext) :
  cmd_args = name :: rest -> running_proc (k_sched s) = Some n ->
  loads (k_mem s) n b t name (name :: rest) fd li ->
  wp (kernel_started n u) (fun f s' => f = Started (uc_set_pc (li_entry li) (uc_set_sp (new_sp (name :: rest)) (p_uc b))) /\
    exists t' m', s' = set_k_mem m' s /\ loaded (k_mem s) n b t (name :: rest) fd li t' m') s.
Proof.
  intros Hargs Hr Hl. unfold kernel_started. rewrite <- (km_same s) at 1.
  wp_step. apply wp_km_running with n; [exact Hr|]. rewrite decide_True by done. rewrite Hargs.
  wp_step. apply wp_km. eapply wp_mono; [by eapply LoadProgram_ok|]. intros r m' (-> & t' & Hd).
  cbn [negb SUCCESS Z.eqb]. wp_step. apply wp_km_store. eapply wp_load; [apply Hd|]. wp_step.
  split; [by destruct b|]. exists t', m'. split; [by destruct s, m'|exact Hd].
Qed.
End boot.

(** C9: [KernelStart], on a machine that is large enough.  The kernel runs as
    the idle process, which goes on at the idle loop with the stack pointer at
    the top of region 1; region 0 maps exactly the text, data and stack of the
    kernel, each page to the frame of its number; the tables are empty.  There
    are two processes with different numbers.  The idle process has one page,
    the last.  The first process is alone in the ready queue, with no pages and
    a copy of the kernel stack in frames of its own; every other frame is free.
    When the first process then runs for the first time, and the program named
    first on the command line can be loaded, it is loaded, and the process goes
    on at its entry. *)
Theorem kernel_boots {hw : Machine} {hw_ok : MachineOk} {files : Files} {pids : PidHelper} {pids_ok : PidHelperOk}
    {bootargs : Boot} (pmem_size : Z) (s : kstate) (u : UserContext) :
  bootstrap pmem_size s ->
  let idle := st_next (k_store s) in
  let first := Pos.succ idle in
  (exists s', KernelStart pmem_size u s = Some (Started (set_up_uc u idle_func (VMEM_1_LIMIT - 1)), s') /\
     booted pmem_size idle first (second_pid (st_pid_calls (k_store s))) u s') /\
  forall s1 b t name rest fd li, cmd_args = name :: rest -> running_proc (k_sched s1) = Some first ->
    loads (k_mem s1) first b t name (name :: rest) fd li -> exists m' t',
    kernel_started first u s1 =
      Some (Started (uc_set_pc (li_entry li) (uc_set_sp (new_sp (name :: rest)) (p_uc b))), set_k_mem m' s1) /\
    loaded (k_mem s1) first b t (name :: rest) fd li t' m'.
Proof.
  intros [Hbl He Hm Ho] idle first. split.
  - pose proof (KernelStart_ok pmem_size idle first _ (k_mem s) (k_sched s) (k_sync s) (k_pipes s) (k_ttys s) u
      Hbl eq_refl eq_refl He Hm Ho eq_refl) as (f & s' & Hrun & -> & Hb)%wp_run.
    exists s'. split; [|exact Hb]. destruct s. exact Hrun.
  - intros s1 b t name rest fd li Hargs Hr Hl.
    destruct (proj1 (wp_run _ _ _) (kernel_started_first s1 first b t name rest fd li u Hargs Hr Hl))
      as (f & s' & Hrun & -> & t' & m' & -> & Hd). by exists m', t'.
Qed.

(** 32 frames. *)
Definition demo_boot_state : kstate := {|
  k_mem := {| m_store := {| st_pcbs := ∅; st_next := 1; st_malloc := []; st_pid_calls := [] |};
              m_frames := {| frame_bitset := []; after_bitset := 0; next_free := 0; NUM_FRAMES := 0 |};
              m_vm_enabled := false; m_region0_pt := []; m_current_brk_page := 0; m_mem_ctx := None;
              m_pmem := fun f o => f * 100 + o; m_events := [] |};
  k_sched := demo_ksched;
  k_sync := {| locks := []; cvars := []; open_lock_idx := 0; open_cvar_idx := 0; cvar_arr_size := 0; lock_arr_size := 0 |};
  k_pipes := {| pipes := []; pipes_size := 0; open_pipe_idx := 0 |};
  k_ttys := [] |}.

Lemma kernel_boots_witness :
  exists s', @KernelStart demo_machine demo_files demo_pids demo_boot 512 uc_zero demo_boot_state =
      Some (Started (uc_set_sp 511 (uc_set_pc 4 uc_zero)), s') /\
    running_proc (k_sched s') = Some 1%positive /\ sched_inv (k_store s', k_sched s') [2%positive] [] [].
Proof.
  assert (@bootstrap demo_machine 512 demo_boot_state) as Hb.
  { split; [split; by vm_compute|done|done|done]. }
  destruct (@kernel_boots demo_machine demo_machine_ok demo_files demo_pids demo_pids_ok demo_boot _ _ uc_zero Hb)
    as [(s' & Hrun & [[Hr _] Hs _ _ _ _ _]) _].
  exists s'. split; [exact Hrun|]. split; [exact Hr|exact Hs].
Defined.
