(* ===== verification/Interrupt.v ===== *)
(** * Traps ([interrupt.c])

    A trap gives the hardware's user context to its handler and gets back the
    one to go on with: that of the process that runs then, whose kernel context
    is continued when the handler switched to it. *)

From S2P Require Import Prelude Machine Pcb FrameTracking Paging KernelMemory UserMemory Fifo SleepHeap Scheduler PipeBuffer PipeTable Locks Terminals Kernel PipeCalls TtyCalls Synchronization LoadProgram Syscalls KernelStart.

(** ** Definitions *)

(** The numbers of the system calls, from the Yalnix headers. *)
Class SyscallCodes := {
  YALNIX_GETPID : Z; YALNIX_BRK : Z; YALNIX_DELAY : Z; YALNIX_EXIT : Z; YALNIX_FORK : Z;
  YALNIX_EXEC : Z; YALNIX_WAIT : Z; YALNIX_TTY_READ : Z; YALNIX_TTY_WRITE : Z;
  YALNIX_LOCK_INIT : Z; YALNIX_CVAR_INIT : Z; YALNIX_LOCK_ACQUIRE : Z; YALNIX_LOCK_RELEASE : Z;
  YALNIX_CVAR_SIGNAL : Z; YALNIX_CVAR_BROADCAST : Z; YALNIX_CVAR_WAIT : Z; YALNIX_RECLAIM : Z;
  YALNIX_SEM_UP : Z; YALNIX_SEM_DOWN : Z; YALNIX_SEM_INIT : Z;
  YALNIX_PIPE_INIT : Z; YALNIX_PIPE_READ : Z; YALNIX_PIPE_WRITE : Z
}.

Section definitions.
Context `{Machine} `{Files} `{PidHelper} `{Boot} `{SyscallCodes}.

(** The [switch] of [trap_kernel_handler], case by case. *)
Definition syscalls : list (Z * (addr -> M kstate flow)) :=
  [ (YALNIX_GETPID, fun uc => returning (KernelGetPid uc));
    (YALNIX_BRK, fun uc => returning (KernelBrk uc));
    (YALNIX_DELAY, KernelDelay);
    (YALNIX_EXIT, fun uc => KernelExit (Some uc));
    (YALNIX_FORK, fun uc => returning (KernelFork uc));
    (YALNIX_EXEC, KernelExec);
    (YALNIX_WAIT, KernelWait);
    (YALNIX_TTY_READ, KernelTtyRead);
    (YALNIX_TTY_WRITE, KernelTtyWrite);
    (YALNIX_LOCK_INIT, fun uc => returning (KernelLockInit uc));
    (YALNIX_CVAR_INIT, fun uc => returning (KernelCvarInit uc));
    (YALNIX_LOCK_ACQUIRE, KernelAcquire);
    (YALNIX_LOCK_RELEASE, fun uc => returning (KernelRelease uc));
    (YALNIX_CVAR_SIGNAL, fun uc => returning (KernelCvarSignal uc));
    (YALNIX_CVAR_BROADCAST, fun uc => returning (KernelCvarBroadcast uc));
    (YALNIX_CVAR_WAIT, KernelCvarWait);
    (YALNIX_RECLAIM, fun uc => returning (KernelReclaim uc));
    (YALNIX_SEM_UP, fun uc => returning (KernelSemUp uc));
    (YALNIX_SEM_DOWN, KernelSemDown);
    (YALNIX_SEM_INIT, fun uc => returning (KernelSemInit uc));
    (YALNIX_PIPE_INIT, fun uc => returning (KernelPipeInit uc));
    (YALNIX_PIPE_READ, KernelPipeRead);
    (YALNIX_PIPE_WRITE, KernelPipeWrite) ].

Fixpoint dispatch (cases : list (Z * (addr -> M kstate flow))) (code : Z) (uc : addr) : M kstate flow :=
  match cases with
  | [] => mret Returned
  | (c, handler) :: rest => if code =? c then handler uc else dispatch rest code uc
  end.

(** What the process that is switched to does with its kernel context. *)
Definition resume (k : kcontext) : M kstate flow :=
  curr ← running;
  match k with
  | KC_zero => ub
  | KC_start init_pcb => kernel_started init_pcb uc_zero
  | KC_return => mret Returned
  | KC_wait => returning (wait_resumed curr)
  | KC_tty_write => returning (tty_write_resumed curr)
  | KC_tty_read tty_id => returning (tty_read_resumed curr tty_id)
  | KC_pipe_read pipe_id buf len => pipe_read_loop curr pipe_id buf len
  end.

(** The end of a trap: [curr_proc = get_running_proc(); memcpy(uc, &(curr_proc->uc), ...)],
    in the process that runs then. [None] when the machine was halted. *)
Fixpoint end_of_trap (fuel : nat) (f : flow) : M kstate (option UserContext) :=
  match f with
  | Halted => mret None
  | Started uc => mret (Some uc)
  | Returned => curr_proc ← running; u ← get_uc curr_proc; mret (Some u)
  | Switched k =>
      match fuel with
      | O => ub
      | Datatypes.S fuel' => f' ← resume k; end_of_trap fuel' f'
      end
  end.
(** Only a reader that finds its pipe empty again switches on, and it leaves
    the ready queue: no more often than there are processes. *)
Definition finish (f : flow) : M kstate (option UserContext) :=
  fuel ← gets (fun s => Datatypes.S (Datatypes.S (size (st_pcbs (m_store (k_mem s))))));
  end_of_trap fuel f.

(** [memcpy(&(curr_proc->uc), uc, sizeof(UserContext))] *)
Definition save_uc (uc : UserContext) : M kstate addr :=
  curr_proc ← running;
  zoom (update curr_proc (set_p_uc uc));;
  mret curr_proc.

Definition trap_kernel_handler (uc : UserContext) : M kstate (option UserContext) :=
  curr_proc ← save_uc uc;
  f ← dispatch syscalls (to_u32 (uc_code uc)) curr_proc;
  finish f.

Definition trap_clock_handler (uc : UserContext) : M kstate (option UserContext) :=
  zoom increment_ticks;;
  zoom wake_waiters;;
  zoom wake_sleepers;;
  curr_proc ← save_uc uc;
  zoom (schedule_process curr_proc);;
  next_proc ← zoom get_next_process;
  f ← (if decide (curr_proc <> next_proc) then
         k ← FullContextSwitch KC_return (Some curr_proc) next_proc; mret (Switched k)
       else mret Returned);
  finish f.

Definition trap_math_handler (uc : UserContext) : M kstate (option UserContext) :=
  f ← KernelExit None; finish f.
Definition trap_illegal_handler (uc : UserContext) : M kstate (option UserContext) :=
  f ← KernelExit None; finish f.

(** [line] is what [TtyReceive] will give. *)
Definition trap_tty_receive_handler (line : list Z) (uc : UserContext) : M kstate (option UserContext) :=
  save_uc uc;;
  zoom (tty_receive_done (to_i32 (uc_code uc)) line);;
  finish Returned.
Definition trap_tty_transmit_handler (uc : UserContext) : M kstate (option UserContext) :=
  save_uc uc;;
  zoom (tty_transmit_done (to_i32 (uc_code uc)));;
  finish Returned.

Definition trap_memory_handler (uc : UserContext) : M kstate (option UserContext) :=
  ok ← zoom (expand_stack (to_i32 (uc_addr uc)));
  if negb ok then f ← KernelExit None; finish f else mret (Some uc).

(** [interrupt_vector] *)
Inductive trap := TRAP_KERNEL | TRAP_CLOCK | TRAP_MATH | TRAP_ILLEGAL | TRAP_TTY_RECEIVE (line : list Z)
  | TRAP_TTY_TRANSMIT | TRAP_MEMORY.
Definition interrupt_vector (t : trap) : UserContext -> M kstate (option UserContext) :=
  match t with
  | TRAP_KERNEL => trap_kernel_handler
  | TRAP_CLOCK => trap_clock_handler
  | TRAP_MATH => trap_math_handler
  | TRAP_ILLEGAL => trap_illegal_handler
  | TRAP_TTY_RECEIVE line => trap_tty_receive_handler line
  | TRAP_TTY_TRANSMIT => trap_tty_transmit_handler
  | TRAP_MEMORY => trap_memory_handler
  end.

(** The calls have different numbers. *)
Class SyscallCodesOk : Prop := syscall_codes_differ : NoDup syscalls.*1.
End definitions.

Lemma dispatch_ok cases code handler uc :
  NoDup cases.*1 -> (code, handler) ∈ cases -> dispatch cases code uc = handler uc.
Proof.
  induction cases as [|[c h] cases IH]; simpl; [by intros _ ?%not_elem_of_nil|].
  intros [Hc Hnd]%NoDup_cons [[= <- <-]|Hin]%elem_of_cons; [by rewrite Z.eqb_refl|].
  destruct (Z.eqb_spec code c) as [->|]; [|by apply IH]. destruct Hc.
  by apply (list_elem_of_fmap_2 fst _ (c, handler)).
Qed.

(** The numbers 1 to 23. *)
Definition demo_codes : SyscallCodes := {|
  YALNIX_GETPID := 1; YALNIX_BRK := 2; YALNIX_DELAY := 3; YALNIX_EXIT := 4; YALNIX_FORK := 5;
  YALNIX_EXEC := 6; YALNIX_WAIT := 7; YALNIX_TTY_READ := 8; YALNIX_TTY_WRITE := 9;
  YALNIX_LOCK_INIT := 10; YALNIX_CVAR_INIT := 11; YALNIX_LOCK_ACQUIRE := 12;
  YALNIX_LOCK_RELEASE := 13; YALNIX_CVAR_SIGNAL := 14; YALNIX_CVAR_BROADCAST := 15;
  YALNIX_CVAR_WAIT := 16; YALNIX_RECLAIM := 17; YALNIX_SEM_UP := 18; YALNIX_SEM_DOWN := 19;
  YALNIX_SEM_INIT := 20; YALNIX_PIPE_INIT := 21; YALNIX_PIPE_READ := 22; YALNIX_PIPE_WRITE := 23 |}.
Lemma demo_codes_ok : @SyscallCodesOk demo_machine demo_files demo_pids demo_codes.
Proof. unfold SyscallCodesOk. by apply (bool_decide_unpack _). Defined.
