(* ===== verification/Faults.v ===== *)
(** * Faults of a process ([trap_memory_handler], [trap_math_handler] and
    [trap_illegal_handler] of [interrupt.c])

    A fault either grows the stack or ends the process; in both cases the
    processor goes on with a process that can run.  The handlers are in
    [Interrupt]. *)

From S2P Require Import Prelude Machine Pcb FrameTracking Paging KernelMemory UserMemory Fifo SleepHeap Scheduler PipeBuffer PipeTable Locks Terminals Kernel DemoKernel Switching PipeCalls TtyCalls Synchronization LoadProgram Syscalls UserBuffers PipeWorld Processes Exiting ExecImage KernelStart Interrupt.

Section faults.
Context {hw : Machine} {hw_ok : MachineOk} {files : Files} {pids : PidHelper} {bootargs : Boot} {codes : SyscallCodes}.

(** The address is outside of region 1 or not above the break. *)
Definition bad_address (c : mem_ctx_t) (a : Z) : Prop :=
  a < VMEM_1_BASE \/ VMEM_1_LIMIT <= a \/ vpn_of a <= curr_brk_page c.

Lemma expand_stack_refused m c t a Q :
  user_ok m c t -> bad_address c a -> Q false m -> wp (expand_stack a) Q m.
Proof.
  intros [Hc _ _] Hbad HQ. unfold expand_stack, bad_address in *.
  destruct (Z.ltb_spec a VMEM_1_BASE); cbn [orb]; [by wp_step|].
  destruct (Z.leb_spec VMEM_1_LIMIT a); [by wp_step|]. wp_step. eapply wp_get_current; [exact Hc|]. rewrite (proj2 (Z.ltb_lt _ _)) by lia. by wp_step.
Qed.

(** The end of a trap in a process with nothing left to do in the kernel. *)
Lemma finish_return s q b (Q : option UserContext -> kstate -> Prop) f :
  f = Returned \/ f = Switched KC_return ->
  running_proc (k_sched s) = Some q -> st_pcbs (k_store s) !! q = Some b -> Q (Some (p_uc b)) s ->
  wp (finish f) Q s.
Proof.
  intros Hf Hr Hb HQ. unfold finish. wp_step. wp_step.
  assert (wp (curr_proc ← running; u ← get_uc curr_proc; mret (Some u)) Q s) as Hend.
  { rewrite <- (km_same s). wp_step. eapply wp_km_running; [exact Hr|]. wp_step.
    eapply get_uc_km; [exact Hb|]. wp_step. by rewrite km_same. }
  destruct Hf as [-> | ->]; cbn [end_of_trap]; [exact Hend|]. wp_step. unfold resume.
  rewrite <- (km_same s). wp_step. eapply wp_km_running; [exact Hr|]. wp_step. by rewrite km_same.
Qed.

(** The stack grows. *)
Lemma memory_trap_grows s c t uc :
  let a := to_i32 (uc_addr uc) in
  user_ok (k_mem s) c t ->
  ~ bad_address c a -> REGION1_BASE_VPN <= curr_brk_page c ->
  wp (trap_memory_handler uc) (fun r s' => r = Some uc /\ exists t' f' top,
    s' = set_k_mem (in_ctx (set_region1_pt (Some t') c) f' (m_events (k_mem s)) (k_mem s)) s /\
    vpn_of a <= top <= REGION1_LIMIT_VPN /\
    (top < REGION1_LIMIT_VPN -> is_Some (maps t (top - REGION1_BASE_VPN))) /\
    (forall vpn, vpn_of a <= vpn < top -> maps t (vpn - REGION1_BASE_VPN) = None) /\
    allocated (T := region1_table) (m_frames (k_mem s)) t (vpn_of a - REGION1_BASE_VPN)
      (Z.min top (vpn_of a + Z.of_nat (size (free_set (m_frames (k_mem s))))) - REGION1_BASE_VPN)
      (Z.lor PROT_READ PROT_WRITE) f' t') s.
Proof.
  intros a Hu Hok Hbase. unfold bad_address in Hok. unfold trap_memory_handler.
  rewrite <- (km_same s) at 1. wp_step. apply wp_km. eapply wp_mono.
  { apply (expand_stack_ok _ c t); [exact Hu|fold a; lia|fold a; lia|exact Hbase]. }
  intros ok m' (-> & t' & f' & top & -> & Hres). cbn [negb]. wp_step. split; [done|].
  exists t', f', top. split; [by destruct s|exact Hres].
Qed.

Section exit.
Context (s : kstate) (p idle : addr) (b : pcb) (c : mem_ctx_t) (t : list pte) (l R W S : list addr).
Hypothesis Hex : exits s KC_return p idle b c t l R W S.

(** The process has ended and the next one goes on. *)
Definition ended (r : option UserContext) (s' : kstate) : Prop :=
  exit_done s p idle b t l R W S (-1) s' /\
  exists bq, st_pcbs (k_store s') !! next_of idle R = Some bq /\ r = Some (p_uc bq).

Lemma exit_ends : wp (f ← KernelExit None; finish f) ended s.
Proof.
  wp_step. eapply wp_mono; [apply (KernelExit_ok _ _ _ _ _ _ _ _ _ _ _ Hex None); by left|].
  intros f s' [-> Hd]. pose proof (xd_next _ _ _ _ _ _ _ _ _ _ _ Hd) as (bn & bq & _ & Hq & _).
  eapply finish_return; [by right|apply Hd|exact Hq|]. split; [exact Hd|]. by exists bq.
Qed.
Lemma memory_trap_ends uc : bad_address c (to_i32 (uc_addr uc)) -> wp (trap_memory_handler uc) ended s.
Proof.
  intros Hbad. unfold trap_memory_handler. rewrite <- (km_same s). wp_step. apply wp_km.
  eapply expand_stack_refused; [apply Hex|exact Hbad|]. cbn [negb]. rewrite km_same. apply exit_ends.
Qed.
End exit.
End faults.

(** What new pages mean for the others. *)
Lemma allocated_keeps {hw : Machine} {hw_ok : MachineOk} f t lo hi f' t' :
  allocated (T := region1_table) f t lo hi (Z.lor PROT_READ PROT_WRITE) f' t' ->
  (forall j, lo <= j < hi -> maps t j = None) ->
  (forall j x, maps t j = Some x -> maps t' j = Some x) /\
  (forall j g q, maps t j = None -> maps t' j = Some (g, q) -> q = Z.lor PROT_READ PROT_WRITE /\ g ∈ free_set f).
Proof.
  intros [_ _ Hin Hout _ _] Hnone. split.
  - intros j x Hj. rewrite Hout; [done|]. intros Hr. by rewrite Hnone in Hj.
  - intros j g q Hj Hj'. destruct (decide (lo <= j < hi)) as [Hr|Hr]; [|by rewrite Hout, Hj in Hj'].
    destruct (Hin j Hr) as (g' & E & Hf). rewrite E in Hj'. by injection Hj' as -> <-.
Qed.

(** C14: a fault of a process stays with the process.  A memory trap at an
    address outside of region 1 or not above the break, a math trap and an
    illegal instruction end it: what it had is given back, its parent finds the
    exit code -1, and the next process goes on with its own registers.  A memory
    trap at any other address gives the process back its registers as they were,
    and changes nothing but its page table and the free frames: no page it has
    is lost, the new ones can be read and written and are in frames that were
    free, no frame is lost, and when there was a free frame the page of the
    address is there. *)
Theorem faults_contained {hw : Machine} {hw_ok : MachineOk} {files : Files} {pids : PidHelper} {bootargs : Boot}
    {codes : SyscallCodes} (s : kstate) (p idle : addr) (b : pcb) (c : mem_ctx_t) (t : list pte) (l R W S : list addr)
    (uc : UserContext) :
  exits s KC_return p idle b c t l R W S -> REGION1_BASE_VPN <= curr_brk_page c ->
  let a := to_i32 (uc_addr uc) in
  (forall trap, trap = TRAP_MEMORY /\ bad_address c a \/ trap = TRAP_MATH \/ trap = TRAP_ILLEGAL ->
     exists r s', interrupt_vector trap uc s = Some (r, s') /\ ended s p idle b t l R W S r s') /\
  (~ bad_address c a -> exists t' f',
     let m' := in_ctx (set_region1_pt (Some t') c) f' (m_events (k_mem s)) (k_mem s) in
     interrupt_vector TRAP_MEMORY uc s = Some (Some uc, set_k_mem m' s) /\
     user_ok m' (set_region1_pt (Some t') c) t' /\
     (forall j x, maps t j = Some x -> maps t' j = Some x) /\
     (forall j f q, maps t j = None -> maps t' j = Some (f, q) ->
        q = Z.lor PROT_READ PROT_WRITE /\ f ∈ free_set (m_frames (k_mem s))) /\
     free_set f' ∪ frames_of t' 0 REGION1_VPNS = free_set (m_frames (k_mem s)) ∪ frames_of t 0 REGION1_VPNS /\
     (free_set (m_frames (k_mem s)) <> ∅ -> is_Some (maps t' (vpn_of a - REGION1_BASE_VPN)))).
Proof.
  intros Hex Hbase a. split.
  - intros trap Ht. apply (wp_run _ (ended s p idle b t l R W S)).
    destruct Ht as [[-> Hbad]|[-> | ->]]; cbn [interrupt_vector].
    + eapply memory_trap_ends; [exact Hex|exact Hbad].
    + unfold trap_math_handler. eapply exit_ends. exact Hex.
    + unfold trap_illegal_handler. eapply exit_ends. exact Hex.
  - intros Hok.
    destruct (proj1 (wp_run _ _ _) (memory_trap_grows s c t uc (ex_user _ _ _ _ _ _ _ _ _ _ _ Hex) Hok Hbase))
      as (r & s' & Hrun & -> & t' & f' & top & -> & Htop & Hnext & Hnone & Hal).
    fold a in Htop, Hnext, Hnone, Hal. pose proof Hal as [Hok' Hn Hin Hout _ _].
    assert (VMEM_1_BASE <= a < VMEM_1_LIMIT) as Hv%region1_vpn by (unfold bad_address in Hok; lia).
    assert (REGION1_LIMIT_VPN - REGION1_BASE_VPN = REGION1_VPNS) as HV by (unfold REGION1_LIMIT_VPN; lia).
    set (frees := Z.of_nat (size (free_set (m_frames (k_mem s))))) in *.
    exists t', f'. intros m'. split; [exact Hrun|]. split.
    { pose proof (ex_user _ _ _ _ _ _ _ _ _ _ _ Hex) as [Hc _ _].
      split; [by eapply in_ctx_current|done|done]. }
    assert (forall j, vpn_of a - REGION1_BASE_VPN <= j < Z.min top (vpn_of a + frees) - REGION1_BASE_VPN ->
      maps t j = None) as Hnone'.
    { intros j Hj. rewrite <- (Hnone (j + REGION1_BASE_VPN)) by lia. f_equal. lia. }
    destruct (allocated_keeps _ _ _ _ _ _ Hal Hnone') as [Hkeep Hnew]. do 2 (split; [done|]).
    split; [eapply allocated_total; [exact Hal|lia|lia|exact Hnone'|reflexivity]|].
    intros Hne. assert (0 < frees) as Hpos.
    { unfold frees. destruct (decide (size (free_set (m_frames (k_mem s))) = 0%nat)) as [E|]; [|lia].
      apply size_empty_inv in E. destruct Hne. by apply leibniz_equiv. }
    destruct (decide (vpn_of a < top)).
    + destruct (Hin (vpn_of a - REGION1_BASE_VPN)) as (f & E & _); [lia|]. by eexists.
    + assert (top = vpn_of a) as -> by lia. rewrite Hout by lia. apply Hnext. lia.
Qed.

(** A read of the kernel's memory at 10 ends the process at 2, and the one at 3
    goes on; a push at 470 does not. *)
Lemma faults_contained_witness :
  (exists r s', @interrupt_vector demo_machine demo_files demo_pids demo_boot demo_codes TRAP_MEMORY
      {| uc_code := 0; uc_addr := 10; uc_pc := 256; uc_sp := 496; uc_reg0 := 0; uc_reg1 := 0; uc_reg2 := 0 |}
      demo_exit_state = Some (r, s') /\ running_proc (k_sched s') = Some 3%positive) /\
  exists s', @interrupt_vector demo_machine demo_files demo_pids demo_boot demo_codes TRAP_MEMORY
      {| uc_code := 0; uc_addr := 470; uc_pc := 256; uc_sp := 470; uc_reg0 := 0; uc_reg1 := 0; uc_reg2 := 0 |}
      demo_exit_state = Some (Some
      {| uc_code := 0; uc_addr := 470; uc_pc := 256; uc_sp := 470; uc_reg0 := 0; uc_reg1 := 0; uc_reg2 := 0 |}, s').
Proof.
  split.
  - destruct (@faults_contained demo_machine demo_machine_ok demo_files demo_pids demo_boot demo_codes _ _ _ _ _ _ _ _ _ _
      {| uc_code := 0; uc_addr := 10; uc_pc := 256; uc_sp := 496; uc_reg0 := 0; uc_reg1 := 0; uc_reg2 := 0 |}
      demo_exits ltac:(by vm_compute)) as [Hend _].
    destruct (Hend TRAP_MEMORY) as (r & s' & Hrun & [[[Hr _] _ _ _ _ _ _] _]).
    { left. split; [done|]. by left. }
    exists r, s'. split; [exact Hrun|exact Hr].
  - destruct (@faults_contained demo_machine demo_machine_ok demo_files demo_pids demo_boot demo_codes _ _ _ _ _ _ _ _ _ _
      {| uc_code := 0; uc_addr := 470; uc_pc := 256; uc_sp := 470; uc_reg0 := 0; uc_reg1 := 0; uc_reg2 := 0 |}
      demo_exits ltac:(by vm_compute)) as [_ Hgrow].
    destruct Hgrow as (t' & f' & Hrun & _); [|by eexists].
    unfold bad_address. vm_compute. by intros [?|[?|?]].
Defined.
