(* ===== verification/ProcessWorld.v ===== *)
(** * The world of processes

    What holds of the kernel between two traps, of all processes at once: who
    owns which frame, who is whose child, what each process has left to do in
    the kernel.  [world] joins the invariants of the components; the lemmas say
    what kind of change keeps it.  The calls are in [ProcessCalls], the traps in
    [ProcessTraps]. *)

From S2P Require Import Prelude Machine FrameTracking Pcb Paging KernelMemory UserMemory AddressSpace Fifo SleepHeap Scheduler Waiters PipeBuffer PipeTable Locks Frame Terminals Kernel DemoKernel Switching PipeCalls TtyCalls Synchronization LoadProgram Syscalls HeapFrame UserBuffers PipeWorld Processes WaitExit Exiting.

(** ** Families *)

(** [A] are the processes that have not exited, [fam] gives the children of
    each: they are different, no process is its own child or the child of two;
    a process that is somebody's child has a parent, and the other way round but
    for the idle process and the first one, which nobody made; what is left of a
    process that exited is somebody's child. *)
Record family_ok (idle : addr) (fam : addr -> list addr) (st : store) (A : list addr) : Prop := {
  fm_alive : forall a, a ∈ A -> exists b, st_pcbs st !! a = Some b /\ rel_repr (p_relations b) (fam a);
  fm_running : forall a, a ∈ A -> exited st a = false;
  fm_nodup : forall a, a ∈ A -> NoDup (fam a) /\ a ∉ fam a;
  fm_live : forall a k, a ∈ A -> k ∈ fam a -> is_Some (st_pcbs st !! k);
  fm_apart : forall a a' k, a ∈ A -> a' ∈ A -> k ∈ fam a -> k ∈ fam a' -> a = a';
  fm_parent : forall a b, a ∈ A -> st_pcbs st !! a = Some b ->
    ((exists w, w ∈ A /\ a ∈ fam w) -> has_parent (p_relations b) = true) /\
    (has_parent (p_relations b) = true -> a <> idle -> p_pid b <> 1 -> exists w, w ∈ A /\ a ∈ fam w);
  fm_exited : forall k, is_Some (st_pcbs st !! k) -> k ∉ A ->
    exited st k = true /\ exists w, w ∈ A /\ k ∈ fam w
}.

(** What the families look at in a block. *)
Definition kin (b : pcb) : rel_t * Z := (p_relations b, p_pid b).

Lemma family_same idle fam st st' A A' :
  family_ok idle fam st A -> (forall a, a ∈ A' <-> a ∈ A) ->
  (forall a, kin <$> st_pcbs st' !! a = kin <$> st_pcbs st !! a) ->
  (forall a, exited st' a = exited st a) -> family_ok idle fam st' A'.
Proof.
  intros [Hal Hrun Hnd Hlive Hap Hpar Hex] HA Hrel Hexd.
  assert (forall a, is_Some (st_pcbs st' !! a) <-> is_Some (st_pcbs st !! a)) as Hdom.
  { intros a. specialize (Hrel a). destruct (st_pcbs st' !! a), (st_pcbs st !! a); simpl in *; try done; by rewrite !is_Some_alt. }
  split.
  - intros a Ha%HA. destruct (Hal a Ha) as (b & Hb & Hr). specialize (Hrel a). rewrite Hb in Hrel.
    apply fmap_Some in Hrel as (b' & Hb' & [= E _]). exists b'. by rewrite <- E.
  - intros a Ha%HA. rewrite Hexd. by apply Hrun.
  - intros a Ha%HA. by apply Hnd.
  - intros a k Ha%HA Hk. apply Hdom. by eapply Hlive.
  - intros a a' k Ha%HA Ha'%HA. by apply Hap.
  - intros a b' Ha%HA Hb'. destruct (Hal a Ha) as (b & Hb & _). specialize (Hrel a). rewrite Hb, Hb' in Hrel.
    injection Hrel as -> ->. destruct (Hpar a b Ha Hb) as [H1 H2]. split.
    + intros (w & Hw & ?). apply H1. exists w. by rewrite <- HA.
    + intros Hp Hi Hpid. destruct (H2 Hp Hi Hpid) as (w & Hw & ?). exists w. by rewrite HA.
  - intros k Hk%Hdom Hn. rewrite Hexd. rewrite HA in Hn. destruct (Hex k Hk Hn) as (? & w & Hw & ?).
    split; [done|]. exists w. by rewrite HA.
Qed.

(** *** Reaping *)

(** The children when the parents [D] have taken their first exited one. *)
Definition after_reaping (fam : addr -> list addr) (st : store) (D : addr -> bool) (a : addr) : list addr :=
  match list_find (fun k => exited st k = true) (fam a) with
  | Some (i, _) => if D a then delete i (fam a) else fam a
  | None => fam a
  end.
(** [k] is taken. *)
Definition taken (fam : addr -> list addr) (st : store) (D : addr -> bool) (A : list addr) (k : addr) : Prop :=
  exists a i, a ∈ A /\ D a = true /\ list_find (fun k => exited st k = true) (fam a) = Some (i, k).

Section reaping.
Context (idle : addr) (fam : addr -> list addr) (st : store) (D : addr -> bool) (A : list addr).
Hypothesis Hf : family_ok idle fam st A.

Lemma taken_exited k : taken fam st D A k -> exited st k = true /\ k ∉ A.
Proof.
  intros (a & i & Ha & _ & (_ & Hk & _)%list_find_Some). split; [done|]. intros Hin.
  by rewrite (fm_running _ _ _ _ Hf k Hin) in Hk.
Qed.
Lemma elem_of_after a k : a ∈ A -> k ∈ after_reaping fam st D a <-> k ∈ fam a /\ ~ taken fam st D A k.
Proof.
  intros Ha. destruct (fm_nodup _ _ _ _ Hf a Ha) as [Hnd _]. unfold after_reaping.
  assert (taken fam st D A k -> k ∈ fam a -> D a = true /\ exists i, list_find (fun k => exited st k = true) (fam a) = Some (i, k)) as Ht.
  { intros (a' & i & Ha' & HD & E) Hk. pose proof E as (Hi & _)%list_find_Some.
    assert (a' = a) as -> by (eapply (fm_apart _ _ _ _ Hf); [done..|by eapply list_elem_of_lookup_2|done]). split; [done|by exists i]. }
  destruct (list_find _ (fam a)) as [[i k']|] eqn:E.
  2: { split; [|by intros []]. intros Hk. split; [done|]. intros Htk. by destruct (Ht Htk Hk) as (_ & ? & ?). }
  destruct (D a) eqn:HD.
  - pose proof E as (Hi & _)%list_find_Some.
    assert (fam a ≡ₚ k' :: delete i (fam a)) as Hp by (by apply delete_Permutation).
    assert (k' ∉ delete i (fam a)) as Hk' by (rewrite Hp in Hnd; by apply NoDup_cons in Hnd as [? _]). split.
    + intros Hk. assert (k ∈ fam a) as Hin by (rewrite Hp; by right). split; [done|]. intros Htk.
      destruct (Ht Htk Hin) as (_ & j & Ej). congruence.
    + intros [Hk Hn]. rewrite Hp in Hk. apply elem_of_cons in Hk as [->|?]; [|done]. destruct Hn. by exists a, i.
  - split; [|by intros []]. intros Hk. split; [done|]. intros Htk. by destruct (Ht Htk Hk) as (? & _).
Qed.

Lemma family_reaped st' A' :
  (forall a, a ∈ A' <-> a ∈ A) ->
  (forall a b, a ∈ A -> st_pcbs st !! a = Some b -> exited st' a = false /\ exists b', st_pcbs st' !! a = Some b' /\
     rel_repr (p_relations b') (after_reaping fam st D a) /\ has_parent (p_relations b') = has_parent (p_relations b) /\
     p_pid b' = p_pid b) ->
  (forall k, taken fam st D A k -> st_pcbs st' !! k = None) ->
  (forall k, k ∉ A -> ~ taken fam st D A k -> exited st' k = exited st k /\
     (is_Some (st_pcbs st' !! k) <-> is_Some (st_pcbs st !! k))) ->
  family_ok idle (after_reaping fam st D) st' A'.
Proof.
  intros HA Hal Htk Hout.
  assert (forall a, a ∈ A -> is_Some (st_pcbs st' !! a)) as Hlive.
  { intros a Ha. destruct (fm_alive _ _ _ _ Hf a Ha) as (b & Hb & _). destruct (Hal a b Ha Hb) as (_ & b' & ? & _). by exists b'. }
  split.
  - intros a Ha%HA. destruct (fm_alive _ _ _ _ Hf a Ha) as (b & Hb & _). destruct (Hal a b Ha Hb) as (_ & b' & ? & ? & _). by exists b'.
  - intros a Ha%HA. destruct (fm_alive _ _ _ _ Hf a Ha) as (b & Hb & _). by apply (Hal a b).
  - intros a Ha%HA. destruct (fm_nodup _ _ _ _ Hf a Ha) as [Hnd Ho]. split.
    + unfold after_reaping. destruct (list_find _ _) as [[i k]|]; [|done]. destruct (D a); [|done].
      by eapply sublist_NoDup, sublist_delete.
    + by intros [? _]%elem_of_after.
  - intros a k Ha%HA [Hk Hn]%elem_of_after; [|done]. destruct (decide (k ∈ A)) as [|HkA]; [by apply Hlive|].
    apply (Hout k HkA Hn). by eapply (fm_live _ _ _ _ Hf).
  - intros a a' k Ha%HA Ha'%HA [Hk _]%elem_of_after [Hk' _]%elem_of_after; [|done..]. by eapply (fm_apart _ _ _ _ Hf).
  - intros a b' Ha%HA Hb'. destruct (fm_alive _ _ _ _ Hf a Ha) as (b & Hb & _). destruct (Hal a b Ha Hb) as (_ & b1 & Hb1 & _ & Hp & Hpid).
    assert (b1 = b') as -> by congruence. rewrite Hp, Hpid. destruct (fm_parent _ _ _ _ Hf a b Ha Hb) as [H1 H2].
    assert (~ taken fam st D A a) as Hn by (by intros [_ ?]%taken_exited).
    split; [intros (w & Hw & Hin); apply H1|intros Hpa Hi Hpi; destruct (H2 Hpa Hi Hpi) as (w & Hw & Hin)];
      exists w; rewrite HA in *; (split; [done|]); rewrite elem_of_after in * by done; tauto.
  - intros k Hk Hn. rewrite HA in Hn. assert (~ taken fam st D A k) as Hnt by (intros E%Htk; rewrite E in Hk; by destruct Hk).
    destruct (Hout k Hn Hnt) as [E Hdom]. rewrite E. destruct (fm_exited _ _ _ _ Hf k (proj1 Hdom Hk) Hn) as (? & w & Hw & Hin).
    split; [done|]. exists w. rewrite HA. split; [done|]. by apply elem_of_after.
Qed.
End reaping.

Section world.
Context {hw : Machine} {hw_ok : MachineOk}.

(** ** Frames and their owners *)

(** Kernel stacks as page tables. *)
Definition stack_table : page_table :=
  {| pt_get := fun _ => None; pt_put := fun _ s => s; pt_base := 0; pt_vpns := K_STACK_VPNS |}.

(** The layout of region 1: text, data, heap, and their pages mapped. *)
Record layout_ok (c : mem_ctx_t) (t : list pte) : Prop := {
  lo_text : REGION1_BASE_VPN <= txt_start_page c <= data_start_page c;
  lo_data : data_start_page c <= orig_brk_page c;
  lo_brk : orig_brk_page c <= curr_brk_page c <= REGION1_LIMIT_VPN;
  lo_mapped : forall vpn, txt_start_page c <= vpn < curr_brk_page c ->
    exists f q, maps t (vpn - REGION1_BASE_VPN) = Some (f, q) /\ Z.land q PROT_READ <> 0
}.

(** The process at [a] has the memory context [c] with the page table [t], and
    the kernel stack [ks]. *)
Definition image (st : store) (a : addr) (c : mem_ctx_t) (t ks : list pte) : Prop :=
  exists b, st_pcbs st !! a = Some b /\ p_mem_ctx b = c /\ region1_pt c = Some t /\ p_ks_pt b = Some ks.

Record image_ok (f : frames_t) (c : mem_ctx_t) (t ks : list pte) : Prop := {
  im_layout : layout_ok c t;
  im_table : table_ok (T := region1_table) f t;
  im_stack : table_ok (T := stack_table) f ks;
  im_mapped : forall i, 0 <= i < K_STACK_VPNS -> exists x q, maps ks i = Some (x, q) /\ Z.land q PROT_READ <> 0;
  im_apart : forall i j x q q', maps t i = Some (x, q) -> maps ks j = Some (x, q') -> False
}.

(** The frame [x] belongs to the process at [a]; to the kernel. *)
Definition owns (st : store) (a : addr) (x : Z) : Prop :=
  exists c t ks i q, image st a c t ks /\ (maps t i = Some (x, q) \/ maps ks i = Some (x, q)).
Definition kernel_page (i : Z) : Prop := i < K_STACK_BASE_VPN \/ K_STACK_LIMIT_VPN <= i.
Definition kernel_owns (r0 : list pte) (x : Z) : Prop :=
  exists i q, kernel_page i /\ maps r0 i = Some (x, q).

(** Every frame in use belongs to one process or to the kernel. *)
Record memory_ok (st : store) (f : frames_t) (r0 : list pte) (A : list addr) : Prop := {
  my_image : forall a, a ∈ A -> exists c t ks, image st a c t ks /\ image_ok f c t ks;
  my_apart : forall a a' x, a ∈ A -> a' ∈ A -> owns st a x -> owns st a' x -> a = a';
  my_kernel : forall a x, a ∈ A -> owns st a x -> ~ kernel_owns r0 x;
  my_total : forall x, frame_range f x -> x ∉ free_set f ->
    kernel_owns r0 x \/ exists a, a ∈ A /\ owns st a x
}.

Lemma image_inj st a c t ks c' t' ks' : image st a c t ks -> image st a c' t' ks' -> c = c' /\ t = t' /\ ks = ks'.
Proof. intros (b & Hb & <- & Ht & Hks) (b' & Hb' & <- & Ht' & Hks'). simplify_eq. done. Qed.

Lemma owns_image st a c t ks x :
  image st a c t ks -> owns st a x <-> exists i q, maps t i = Some (x, q) \/ maps ks i = Some (x, q).
Proof.
  intros Him. split.
  - intros (c' & t' & ks' & i & q & Him' & H). destruct (image_inj _ _ _ _ _ _ _ _ Him Him') as (_ & -> & ->). by exists i, q.
  - intros (i & q & H). by exists c, t, ks, i, q.
Qed.

Lemma owned_used st f r0 A a x : memory_ok st f r0 A -> a ∈ A -> owns st a x -> x ∉ free_set f /\ frame_range f x.
Proof.
  intros Hm Ha Ho. destruct (my_image _ _ _ _ Hm a Ha) as (c & t & ks & Him & [_ Ht Hks _ _]).
  apply (owns_image _ _ _ _ _ _ Him) in Ho as (i & q & [H|H]).
  - split; [by eapply (to_used _ _ Ht)|by eapply (to_range _ _ Ht)].
  - split; [by eapply (to_used _ _ Hks)|by eapply (to_range _ _ Hks)].
Qed.

(** All pages of a table. *)
Lemma frames_of_all {T : page_table} f t x :
  table_ok (T := T) f t -> x ∈ frames_of t 0 (pt_vpns T) <-> exists i q, maps t i = Some (x, q).
Proof.
  intros Hok. rewrite elem_of_frames_of. split; [naive_solver|]. intros (i & q & H). exists i, q. split; [|done].
  apply maps_range in H. by rewrite (to_len _ _ Hok) in H.
Qed.

(** A table whose frames are still in use. *)
Lemma table_ok_frames {T : page_table} f f' t :
  table_ok (T := T) f t -> frames_wf f' -> NUM_FRAMES f' = NUM_FRAMES f ->
  (forall i x q, maps t i = Some (x, q) -> x ∉ free_set f') -> table_ok (T := T) f' t.
Proof.
  intros [Hwf Hl Hr Hu Hi] Hwf' Hn Hf. split; try done. intros i p q E. unfold frame_range. rewrite Hn. by eapply Hr.
Qed.
Lemma image_ok_frames f f' c t ks :
  image_ok f c t ks -> frames_wf f' -> NUM_FRAMES f' = NUM_FRAMES f ->
  (forall x i q, maps t i = Some (x, q) \/ maps ks i = Some (x, q) -> x ∉ free_set f') -> image_ok f' c t ks.
Proof.
  intros [Hlo Ht Hks Hm Ha] Hwf Hn Hf. split; try done; eapply table_ok_frames; eauto.
Qed.

(** What a change of images and frames has to respect: a process has frames it
    had before or that were free, nobody shares what was free, and nothing is
    lost. *)
Lemma memory_step st f r0 A st' f' r0' A' :
  memory_ok st f r0 A -> NUM_FRAMES f' = NUM_FRAMES f ->
  (forall a, a ∈ A' -> exists c t ks, image st' a c t ks /\ image_ok f' c t ks) ->
  (forall a x, a ∈ A' -> owns st' a x -> (a ∈ A /\ owns st a x) \/ x ∈ free_set f) ->
  (forall a a' x, a ∈ A' -> a' ∈ A' -> x ∈ free_set f -> owns st' a x -> owns st' a' x -> a = a') ->
  (forall x, x ∉ free_set f' -> x ∈ free_set f \/ (exists a, a ∈ A /\ owns st a x) ->
     exists a, a ∈ A' /\ owns st' a x) ->
  (forall x, kernel_owns r0' x <-> kernel_owns r0 x) -> (forall x, kernel_owns r0 x -> x ∉ free_set f) ->
  memory_ok st' f' r0' A'.
Proof.
  intros Hm Hn Him Hown Hnew Htot Hk Hkf. split; [done| | |].
  - intros a a' x Ha Ha' Ho Ho'.
    destruct (Hown a x Ha Ho) as [[Ha1 Ho1]|Hf]; [|by eapply Hnew].
    destruct (Hown a' x Ha' Ho') as [[Ha2 Ho2]|Hf]; [by eapply (my_apart _ _ _ _ Hm)|by eapply Hnew].
  - intros a x Ha Ho Hkx%Hk. destruct (Hown a x Ha Ho) as [[Ha1 Ho1]|Hf]; [|by eapply Hkf].
    by eapply (my_kernel _ _ _ _ Hm).
  - intros x Hr Hx. destruct (decide (x ∈ free_set f)) as [Hf|Hf]; [right; apply Htot; [done|by left]|].
    destruct (my_total _ _ _ _ Hm x) as [Hkx|Hox]; [by unfold frame_range in *; rewrite <- Hn|done|left; by apply Hk|].
    right. apply Htot; [done|by right].
Qed.

(** Only other fields of the blocks changed. *)
Lemma memory_same st f r0 A st' r0' A' :
  memory_ok st f r0 A -> (forall a, a ∈ A' <-> a ∈ A) ->
  (forall a c t ks, a ∈ A -> image st a c t ks -> image st' a c t ks) ->
  (forall x, kernel_owns r0' x <-> kernel_owns r0 x) -> memory_ok st' f r0' A'.
Proof.
  intros Hm HA Him Hk.
  assert (forall a x, a ∈ A -> owns st' a x <-> owns st a x) as Ho.
  { intros a x Ha. destruct (my_image _ _ _ _ Hm a Ha) as (c & t & ks & Hi & _).
    by rewrite (owns_image _ _ _ _ _ _ Hi), (owns_image _ _ _ _ _ _ (Him _ _ _ _ Ha Hi)). }
  split.
  - intros a Ha%HA. destruct (my_image _ _ _ _ Hm a Ha) as (c & t & ks & Hi & Hok). exists c, t, ks. split; [by apply Him|done].
  - intros a a' x Ha%HA Ha'%HA. rewrite !Ho by done. by apply (my_apart _ _ _ _ Hm).
  - intros a x Ha%HA. rewrite Ho, Hk by done. by apply (my_kernel _ _ _ _ Hm).
  - intros x Hr Hx. rewrite Hk. destruct (my_total _ _ _ _ Hm x Hr Hx) as [?|(a & Ha & Hox)]; [by left|right].
    exists a. by rewrite HA, Ho.
Qed.

(** ** The world *)

(** The word that [Wait] stores to, if any, is writable. *)
Definition status_ok (b : pcb) : Prop :=
  uc_reg0 (p_uc b) <> 0 -> exists t, region1_pt (p_mem_ctx b) = Some t /\
    forall j, 0 <= j < 4 -> accessible t (uc_reg0 (p_uc b) + j) true.
(** What a process that does not run has left to do: the end of a trap, or of
    [KernelWait]. *)
Definition may_resume (b : pcb) : Prop := p_kc b = KC_return \/ p_kc b = KC_wait /\ status_ok b.

(** The processes that have not exited: [p] runs, [R] are ready, [W] wait for a
    child, [S] sleep. *)
Definition members (idle p : addr) (R W S : list addr) : list addr := idle :: p :: R ++ W ++ S.

Record world (idle p : addr) (fam : addr -> list addr) (R W S : list addr) (s : kstate) : Prop := {
  wd_roles : running_proc (k_sched s) = Some p /\ idle_proc (k_sched s) = Some idle /\
    m_mem_ctx (k_mem s) = Some p;
  wd_sched : sched_inv (k_store s, k_sched s) R W S;
  wd_family : family_ok idle fam (k_store s) (members idle p R W S);
  wd_memory : memory_ok (k_store s) (m_frames (k_mem s)) (m_region0_pt (k_mem s)) (members idle p R W S);
  wd_kernel : kernel_ok (k_mem s);
  wd_stack : exists b, st_pcbs (k_store s) !! p = Some b /\
    zslice (m_region0_pt (k_mem s)) K_STACK_BASE_VPN K_STACK_VPNS = p_ks_pt b;
  wd_resume : forall a, a ∈ members idle p R W S -> a <> p ->
    exists b, st_pcbs (k_store s) !! a = Some b /\ may_resume b;
  wd_heap : heap_ok (k_store s);
  wd_room : m_current_brk_page (k_mem s) + K_STACK_VPNS < K_STACK_BASE_VPN - 2
}.
(** The running process is in no queue. *)
Definition unqueued (idle p : addr) (R W S : list addr) : Prop := p = idle \/ p ∉ R ++ W ++ S.

Lemma member_cases idle p R W S a :
  a ∈ members idle p R W S <-> a = idle \/ a = p \/ a ∈ R \/ a ∈ W \/ a ∈ S.
Proof. unfold members. rewrite !elem_of_cons, !elem_of_app. tauto. Qed.
Lemma member_running idle p R W S : p ∈ members idle p R W S.
Proof. apply member_cases. tauto. Qed.

Lemma world_block idle p fam R W S s a :
  world idle p fam R W S s -> a ∈ members idle p R W S -> exists b, st_pcbs (k_store s) !! a = Some b.
Proof. intros Hw Ha. destruct (fm_alive _ _ _ _ (wd_family _ _ _ _ _ _ _ Hw) a Ha) as (b & Hb & _). by exists b. Qed.

(** The running process as the calls see it. *)
Record running_ok (p : addr) (fam : addr -> list addr) (s : kstate) (b : pcb) (c : mem_ctx_t) (t ks : list pte) : Prop := {
  ru_block : st_pcbs (k_store s) !! p = Some b;
  ru_ctx : p_mem_ctx b = c;
  ru_image : image (k_store s) p c t ks;
  ru_ok : image_ok (m_frames (k_mem s)) c t ks;
  ru_children : rel_repr (p_relations b) (fam p);
  ru_user : user_ok (k_mem s) c t
}.
Lemma world_running idle p fam R W S s :
  world idle p fam R W S s -> exists b c t ks, running_ok p fam s b c t ks.
Proof.
  intros Hw. pose proof (member_running idle p R W S) as Hp.
  destruct (fm_alive _ _ _ _ (wd_family _ _ _ _ _ _ _ Hw) p Hp) as (b & Hb & Hr).
  destruct (my_image _ _ _ _ (wd_memory _ _ _ _ _ _ _ Hw) p Hp) as (c & t & ks & Him & Hok).
  assert (p_mem_ctx b = c) as Hc by (destruct Him as (? & ? & ? & _); congruence).
  exists b, c, t, ks. split; try done. split; [|by destruct Him as (? & _ & _ & ? & _)|apply Hok].
  apply current_ctx_Some. exists p, b. split; [apply Hw|done].
Qed.

(** Nothing changed but links, states short of exiting, wake-up times and, of
    the running process, its registers and what it has left to do. *)
Definition core (b : pcb) : pcb := set_p_state RUNNING (set_p_next None (set_p_wake_up 0 b)).
Definition body (b : pcb) : pcb := set_p_uc uc_zero (set_p_kc KC_zero (core b)).
Record calm (p : addr) (st st' : store) : Prop := {
  ca_others : forall a, a <> p -> core <$> st_pcbs st' !! a = core <$> st_pcbs st !! a;
  ca_self : body <$> st_pcbs st' !! p = body <$> st_pcbs st !! p;
  ca_exited : forall a, exited st' a = exited st a
}.

Lemma calm_trans p st1 st2 st3 : calm p st1 st2 -> calm p st2 st3 -> calm p st1 st3.
Proof.
  intros [H1 H2 H3] [H4 H5 H6]. split.
  - intros a Ha. by rewrite H4, H1.
  - by rewrite H5.
  - intros a. by rewrite H6.
Qed.
Lemma calm_field {A} (f : pcb -> A) p st st' a :
  calm p st st' -> (forall b, f (body b) = f b) -> f <$> st_pcbs st' !! a = f <$> st_pcbs st !! a.
Proof.
  intros [H1 H2 _] Hf.
  assert (body <$> st_pcbs st' !! a = body <$> st_pcbs st !! a) as E.
  { destruct (decide (a = p)) as [->|Ha]; [done|]. specialize (H1 a Ha).
    destruct (st_pcbs st' !! a) as [x|], (st_pcbs st !! a) as [y|]; simpl in *; try done. f_equal. unfold body. congruence. }
  destruct (st_pcbs st' !! a) as [x|], (st_pcbs st !! a) as [y|]; simpl in *; try done.
  f_equal. rewrite <- (Hf x), <- (Hf y). congruence.
Qed.
Lemma calm_image p st st' a c t ks : calm p st st' -> image st a c t ks -> image st' a c t ks.
Proof.
  intros Hc (b & Hb & <- & Ht & Hks).
  pose proof (calm_field (fun b => (p_mem_ctx b, p_ks_pt b)) _ _ _ a Hc (fun _ => eq_refl)) as E. rewrite Hb in E.
  apply fmap_Some in E as (b' & Hb' & E). injection E as E1 E2. exists b'. by rewrite <- E1, <- E2.
Qed.
Lemma calm_other p st st' a b :
  calm p st st' -> a <> p -> st_pcbs st !! a = Some b -> exists b', st_pcbs st' !! a = Some b' /\ core b' = core b.
Proof.
  intros Hc Ha Hb. pose proof (ca_others _ _ _ Hc a Ha) as E. rewrite Hb in E. apply fmap_Some in E as (b' & Hb' & E).
  by exists b'.
Qed.
Lemma may_resume_core b b' : core b' = core b -> may_resume b -> may_resume b'.
Proof.
  intros E. unfold may_resume, status_ok.
  assert (p_kc b' = p_kc b /\ p_uc b' = p_uc b /\ p_mem_ctx b' = p_mem_ctx b) as (-> & -> & ->); [|done].
  pose proof (f_equal p_kc E). pose proof (f_equal p_uc E). pose proof (f_equal p_mem_ctx E). done.
Qed.

Lemma world_update idle p fam fam' R W S s R' W' S' s' :
  world idle p fam R W S s -> heap_ok (k_store s') -> sched_inv (k_store s', k_sched s') R' W' S' ->
  (forall a, a ∈ members idle p R' W' S' <-> a ∈ members idle p R W S) ->
  running_proc (k_sched s') = running_proc (k_sched s) -> idle_proc (k_sched s') = idle_proc (k_sched s) ->
  (exists st pm e, k_mem s' = set_m_events e (set_m_pmem pm (set_m_store st (k_mem s)))) ->
  family_ok idle fam' (k_store s') (members idle p R' W' S') ->
  (forall a c t ks, a ∈ members idle p R W S -> image (k_store s) a c t ks -> image (k_store s') a c t ks) ->
  (forall a b, a ∈ members idle p R W S -> a <> p -> st_pcbs (k_store s) !! a = Some b -> may_resume b ->
     exists b', st_pcbs (k_store s') !! a = Some b' /\ may_resume b') ->
  world idle p fam' R' W' S' s'.
Proof.
  intros [Hro Hsc Hfa Hme Hke Hst Hre Hhe Hroom] Hh Hs' HA Hr Hi (st & pm & e & Em) Hfa' Him Hmr.
  assert (m_frames (k_mem s') = m_frames (k_mem s) /\ m_region0_pt (k_mem s') = m_region0_pt (k_mem s) /\
    m_mem_ctx (k_mem s') = m_mem_ctx (k_mem s) /\ m_current_brk_page (k_mem s') = m_current_brk_page (k_mem s))
    as (Ef & E0 & Ec & Eb) by by rewrite Em.
  split; try done.
  - by rewrite Hr, Hi, Ec.
  - rewrite Ef, E0. by eapply memory_same.
  - rewrite Em. by destruct Hke.
  - pose proof (member_running idle p R W S) as Hp. destruct (my_image _ _ _ _ Hme p Hp) as (c & t & ks & Hi0 & _).
    destruct (Him _ _ _ _ Hp Hi0) as (b' & Hb' & _ & _ & Hks'). destruct Hi0 as (b & Hb & _ & _ & Hks).
    destruct Hst as (b0 & Hb0 & Hz). exists b'. split; [done|]. rewrite E0. congruence.
  - intros a Ha%HA Hp. destruct (Hre a Ha Hp) as (b & Hb & Hm). by eapply Hmr.
  - by rewrite Eb.
Qed.

Lemma world_calm idle p fam R W S s R' W' S' s' :
  world idle p fam R W S s -> calm p (k_store s) (k_store s') -> heap_ok (k_store s') ->
  sched_inv (k_store s', k_sched s') R' W' S' ->
  (forall a, a ∈ members idle p R' W' S' <-> a ∈ members idle p R W S) ->
  running_proc (k_sched s') = running_proc (k_sched s) -> idle_proc (k_sched s') = idle_proc (k_sched s) ->
  (exists st pm e, k_mem s' = set_m_events e (set_m_pmem pm (set_m_store st (k_mem s)))) ->
  world idle p fam R' W' S' s'.
Proof.
  intros Hw Hc Hh Hs' HA Hr Hi Hmem. eapply world_update; try done.
  - eapply family_same; [apply Hw|exact HA| |apply Hc]. intros a. by apply (calm_field kin _ _ _ a Hc).
  - intros a c t ks _. by apply (calm_image p).
  - intros a b _ Hp Hb Hmr. destruct (calm_other _ _ _ _ _ Hc Hp Hb) as (b' & Hb' & E). exists b'. split; [done|].
    by eapply may_resume_core.
Qed.

(** ** Giving the processor away *)

(** The kernel's table with another kernel stack mapped. *)
Lemma kernel_ok_restack m m' ks :
  kernel_ok m -> m_vm_enabled m' = m_vm_enabled m -> m_current_brk_page m' = m_current_brk_page m ->
  frames_wf (m_frames m') -> NUM_FRAMES (m_frames m') = NUM_FRAMES (m_frames m) ->
  zlen (m_region0_pt m') = REGION0_VPNS ->
  (forall i, kernel_page i -> zget (m_region0_pt m') i = zget (m_region0_pt m) i) ->
  zslice (m_region0_pt m') K_STACK_BASE_VPN K_STACK_VPNS = Some ks ->
  table_ok (T := stack_table) (m_frames m') ks ->
  (forall i, 0 <= i < K_STACK_VPNS -> exists x q, maps ks i = Some (x, q) /\ Z.land q PROT_READ <> 0) ->
  (forall x, kernel_owns (m_region0_pt m) x -> x ∉ free_set (m_frames m')) ->
  (forall i x q, maps ks i = Some (x, q) -> ~ kernel_owns (m_region0_pt m) x) ->
  kernel_ok m' /\ (forall x, kernel_owns (m_region0_pt m') x <-> kernel_owns (m_region0_pt m) x).
Proof.
  intros [Hvm Hok Ho Hb Hg Hs] Evm Eb Hwf Hn Hl Hout Hz Hks Hmap Hused Hap.
  destruct kstack_vpns_spec as (Hb0 & Hl0 & Hk).
  assert (K_STACK_LIMIT_VPN = K_STACK_BASE_VPN + K_STACK_VPNS) as HL by (unfold K_STACK_VPNS; lia).
  assert (forall i, kernel_page i -> maps (m_region0_pt m') i = maps (m_region0_pt m) i) as Hm
    by (intros i Hi; unfold maps; by rewrite Hout).
  assert (forall i, K_STACK_BASE_VPN <= i < K_STACK_LIMIT_VPN -> maps (m_region0_pt m') i = maps ks (i - K_STACK_BASE_VPN)) as Hmk.
  { intros i Hi. rewrite (zslice_maps _ _ _ _ (i - K_STACK_BASE_VPN) Hz) by lia. f_equal. lia. }
  assert (forall i, kernel_page i \/ K_STACK_BASE_VPN <= i < K_STACK_LIMIT_VPN) as Hcases by (unfold kernel_page; lia).
  assert (forall i x q, maps (m_region0_pt m') i = Some (x, q) ->
    (kernel_page i /\ maps (m_region0_pt m) i = Some (x, q)) \/
    (K_STACK_BASE_VPN <= i < K_STACK_LIMIT_VPN /\ maps ks (i - K_STACK_BASE_VPN) = Some (x, q))) as Hinv.
  { intros i x q E. destruct (Hcases i) as [Hi|Hi]; [left|right]; (split; [done|]); [by rewrite <- Hm|by rewrite <- Hmk]. }
  split; [split|].
  - by rewrite Evm.
  - split; [done|exact Hl|..].
    + intros i x q [[_ E]|[_ E]]%Hinv; [|by eapply (to_range _ _ Hks)].
      unfold frame_range. rewrite Hn. by eapply (to_range _ _ Hok).
    + intros i x q [[Hi E]|[_ E]]%Hinv; [apply Hused; by exists i, q|by eapply (to_used _ _ Hks)].
    + intros i j x q q' [[Hi E]|[Hi E]]%Hinv [[Hj E']|[Hj E']]%Hinv.
      * by eapply (to_inj _ _ Hok).
      * destruct (Hap _ _ _ E'). by exists i, q.
      * destruct (Hap _ _ _ E). by exists j, q'.
      * pose proof (to_inj _ _ Hks _ _ _ _ _ E E'). lia.
  - by rewrite Eb.
  - by rewrite Eb.
  - intros vpn Hv. rewrite Hm by (unfold kernel_page; lia). apply Hg. by rewrite <- Eb.
  - intros vpn Hv. rewrite Hmk by done. apply Hmap. lia.
  - intros x. split; intros (i & q & Hi & E); exists i, q; (split; [done|]); [by rewrite <- Hm|by rewrite Hm].
Qed.

(** ** After the switch *)
Lemma next_member idle p R W S : next_of idle R ∈ members idle p R W S.
Proof. apply member_cases. destruct R; simpl; set_solver. Qed.

Lemma switched_members idle p R W S a :
  p = idle \/ p ∈ R ++ W ++ S -> p <> next_of idle R ->
  a ∈ members idle (next_of idle R) (tail R) W S <-> a ∈ members idle p R W S.
Proof. rewrite !elem_of_app, !member_cases. destruct R as [|r R]; simpl; rewrite ?elem_of_cons, ?elem_of_nil; naive_solver. Qed.

(** The blocks of the others are the same up to the scheduler's fields. *)
Lemma handed_to_calm kc p idle R st st' :
  handed_to kc p idle R st st' -> p <> next_of idle R -> exited st (next_of idle R) = false -> calm p st st'.
Proof.
  intros Hh Hne Hal. pose proof Hh as (Hp & Ho & Hn).
  assert (forall a, a <> p -> core <$> st_pcbs st' !! a = core <$> st_pcbs st !! a) as Hcore.
  { intros a Ha. destruct (decide (a = next_of idle R)) as [->|]; [|by rewrite Ho].
    destruct R as [|r R]; simpl in *; [by rewrite Hn|]. destruct Hn as [n ->]. by destruct (st_pcbs st !! r). }
  split; [done| |].
  - rewrite Hp. by destruct (st_pcbs st !! p).
  - intros a. unfold exited. destruct (decide (a = p)) as [->|Ha]; [rewrite Hp; by destruct (st_pcbs st !! p)|].
    destruct (decide (a = next_of idle R)) as [->|]; [|by rewrite Ho]. unfold exited in Hal.
    destruct R as [|r R]; simpl in *; [by rewrite Hn|]. destruct Hn as [n ->].
    destruct (st_pcbs st !! r); simpl; [|done]. by rewrite Hal.
Qed.

(** What is left to do for the process that runs next. *)
Definition continues (k : kcontext) (p : addr) (st : store) : Prop :=
  exists b, st_pcbs st !! p = Some b /\ (k = KC_return \/ k = KC_wait /\ status_ok b).

Lemma world_next idle p fam R W S s :
  world idle p fam R W S s -> next_of idle R <> p ->
  exists k, switchable (k_store s) k (next_of idle R) /\ continues k (next_of idle R) (k_store s).
Proof.
  intros Hw Hne. pose proof (next_member idle p R W S) as Hin.
  destruct (wd_resume _ _ _ _ _ _ _ Hw _ Hin Hne) as (b & Hb & Hr).
  destruct (my_image _ _ _ _ (wd_memory _ _ _ _ _ _ _ Hw) _ Hin) as (c & t & ks & (b' & Hb' & _ & _ & Hks) & Hok).
  assert (b' = b) as -> by congruence. exists (p_kc b). split.
  - exists b, ks. split; [done|]. split; [done|]. split; [|done]. apply (to_len _ _ (im_stack _ _ _ _ Hok)).
  - exists b. split; [done|]. exact Hr.
Qed.
Lemma status_ok_core b b' : core b' = core b -> status_ok b -> status_ok b'.
Proof.
  intros E. unfold status_ok.
  assert (p_uc b' = p_uc b /\ p_mem_ctx b' = p_mem_ctx b) as (-> & ->); [|done].
  pose proof (f_equal p_uc E). pose proof (f_equal p_mem_ctx E). done.
Qed.
Lemma continues_calm k a p st st' : continues k a st -> a <> p -> calm p st st' -> continues k a st'.
Proof.
  intros (b & Hb & Hk) Ha Hc. destruct (calm_other _ _ _ _ _ Hc Ha Hb) as (b' & Hb' & E). exists b'. split; [done|].
  destruct Hk as [?|[? ?]]; [by left|right]. split; [done|]. by eapply status_ok_core.
Qed.

(** The kernel's table after the switch: the stack of the next process. *)
Lemma world_taken_over idle p fam R W S s m :
  world idle p fam R W S s -> calm p (k_store s) (m_store m) -> taken_over (next_of idle R) (k_mem s) m ->
  kernel_ok m /\ forall x, kernel_owns (m_region0_pt m) x <-> kernel_owns (m_region0_pt (k_mem s)) x.
Proof.
  intros Hw Hc [Ecx (b & Hb & Hz) Hout Hl _ (Ef & _ & Evm & Eb)].
  pose proof (wd_kernel _ _ _ _ _ _ _ Hw) as Hk. pose proof (wd_memory _ _ _ _ _ _ _ Hw) as Hm.
  pose proof (next_member idle p R W S) as Hin.
  destruct (my_image _ _ _ _ Hm _ Hin) as (c & t & ks & Him & Hok).
  pose proof (calm_image _ _ _ _ _ _ _ Hc Him) as (b' & Hb' & _ & _ & Hks).
  assert (p_ks_pt b = Some ks) as Eks by congruence. rewrite Eks in Hz.
  apply (kernel_ok_restack (k_mem s) m ks); try done.
  - rewrite Ef. apply (ko_table _ Hk).
  - by rewrite Ef.
  - rewrite Hl. apply (to_len _ _ (ko_table _ Hk)).
  - rewrite Ef. apply Hok.
  - apply Hok.
  - intros x (i & q & _ & E). rewrite Ef. by eapply (to_used _ _ (ko_table _ Hk)).
  - intros i x q E Hx. apply (my_kernel _ _ _ _ Hm _ x Hin); [|done]. exists c, t, ks, i, q. split; [done|by right].
Qed.

Lemma world_switched idle p fam R W S s kc s' :
  world idle p fam R W S s -> p = idle \/ p ∈ R ++ W ++ S -> p <> next_of idle R ->
  continues kc p (k_store s) -> heap_ok (k_store s') -> switch_done kc p idle R W S s s' ->
  world idle (next_of idle R) fam (tail R) W S s' /\ unqueued idle (next_of idle R) (tail R) W S /\
  calm p (k_store s) (k_store s').
Proof.
  intros Hw Hp Hne Hkc Hh [Hrun Hidle _ Hinv Hbl Hto _].
  pose proof (next_member idle p R W S) as Hin.
  pose proof (handed_to_calm _ _ _ _ _ _ Hbl Hne (fm_running _ _ _ _ (wd_family _ _ _ _ _ _ _ Hw) _ Hin)) as Hc.
  pose proof (world_taken_over _ _ _ _ _ _ _ _ Hw Hc Hto) as [Hk Hko].
  pose proof (fun a => switched_members idle p R W S a Hp Hne) as HA.
  destruct Hw as [(Hr & Hi & Hcx) Hs Hfa Hme Hke Hst Hre Hhe Hroom].
  destruct Hto as [Ecx Hstk Hout Hl _ (Ef & _ & _ & Eb)]. split; [|split; [|exact Hc]].
  - split; try done.
    + eapply family_same; [exact Hfa|exact HA| |apply Hc]. intros a. by apply (calm_field kin _ _ _ a Hc).
    + rewrite Ef. eapply memory_same; [exact Hme|exact HA| |exact Hko]. intros a c t ks _. by apply (calm_image p).
    + intros a Ha%HA Han. destruct (decide (a = p)) as [->|Hap].
      * destruct Hkc as (b & Hb & Hk'). destruct Hbl as (Hbp & _). rewrite Hb in Hbp.
        exists (set_p_kc kc b). split; [exact Hbp|]. exact Hk'.
      * destruct (Hre a Ha Hap) as (b & Hb & Hmr). destruct (calm_other _ _ _ _ _ Hc Hap Hb) as (b' & Hb' & E).
        exists b'. split; [done|]. by eapply may_resume_core.
    + by rewrite Eb.
  - destruct R as [|r R]; [by left|]. right. simpl. pose proof (si_nodup _ _ _ _ Hs) as Hnd.
    by apply NoDup_cons in Hnd as [? _].
Qed.
End world.
