(* ===== verification/ProcessCalls.v ===== *)
(** * The calls on processes in the world of processes

    Each call leaves a world: here [KernelGetPid], [KernelDelay], [KernelBrk]
    and [KernelWait], with what the processes that are switched to have left to
    do.  The world is defined in [ProcessWorld]; [KernelExit], [KernelFork] and
    [KernelExec] have files of their own. *)

From S2P Require Import Prelude Machine FrameTracking Pcb Paging KernelMemory UserMemory AddressSpace Fifo SleepHeap Scheduler Waiters PipeBuffer PipeTable Locks Frame Terminals Kernel DemoKernel Switching PipeCalls TtyCalls Synchronization LoadProgram Syscalls HeapFrame UserBuffers PipeWorld Processes WaitExit Exiting ExecImage ProcessWorld.

Section calls.
Context {hw : Machine} {hw_ok : MachineOk} (idle : addr).

(** How a call ends: in a world, with something to do that the process that
    runs then can do. *)
Definition settled (f : flow) (s : kstate) : Prop :=
  f = Halted \/ exists p fam R W S, world idle p fam R W S s /\ unqueued idle p R W S /\
    match f with
    | Returned => True
    | Switched k => continues k p (k_store s)
    | _ => False
    end.

(** ** Changes of the running process's own block *)
Lemma calm_update p st st' b b' :
  st_pcbs st' = <[p := b']> (st_pcbs st) -> st_pcbs st !! p = Some b -> body b' = body b ->
  (p_state b' = EXITED <-> p_state b = EXITED) -> calm p st st'.
Proof.
  intros Est Hb E Es. split.
  - intros a Ha. by rewrite Est, lookup_insert_ne.
  - by rewrite Est, lookup_insert_eq, Hb; simpl; rewrite E.
  - intros a. unfold exited. rewrite Est. destruct (decide (p = a)) as [<-|]; [|by rewrite lookup_insert_ne].
    rewrite lookup_insert_eq, Hb. by apply bool_decide_ext.
Qed.
Lemma calm_same p st st' : st_pcbs st' = st_pcbs st -> calm p st st'.
Proof. intros E. split; intros; unfold exited; by rewrite E. Qed.

Lemma world_state p fam R W S s a b :
  world idle p fam R W S s -> a ∈ members idle p R W S -> st_pcbs (k_store s) !! a = Some b -> p_state b <> EXITED.
Proof.
  intros Hw Ha Hb. pose proof (fm_running _ _ _ _ (wd_family _ _ _ _ _ _ _ Hw) a Ha) as E.
  unfold exited in E. rewrite Hb in E. by apply bool_decide_eq_false in E.
Qed.

(** The blocks of the heap changed but for nothing the world says. *)
Lemma world_store p fam R W S R' W' S' s st sc :
  world idle p fam R W S s -> calm p (k_store s) st -> heap_ok st -> sched_inv (st, sc) R' W' S' ->
  (forall a, a ∈ members idle p R' W' S' <-> a ∈ members idle p R W S) ->
  running_proc sc = running_proc (k_sched s) -> idle_proc sc = idle_proc (k_sched s) ->
  world idle p fam R' W' S' (km s (set_m_store st (k_mem s)) sc).
Proof.
  intros Hw Hc Hh Hs HA Hr Hi. eapply world_calm; try done.
  exists st, (m_pmem (k_mem s)), (m_events (k_mem s)). by destruct s as [[] ? ? ? ?].
Qed.

(** A write to the block of the running process that leaves its link, its
    wake-up time and its state alone. *)
Lemma world_own p fam R W S s b b' :
  world idle p fam R W S s -> st_pcbs (k_store s) !! p = Some b -> body b' = body b ->
  p_next b' = p_next b -> p_wake_up b' = p_wake_up b -> p_state b' = p_state b ->
  world idle p fam R W S (km s (with_block p b' (k_mem s)) (k_sched s)).
Proof.
  intros Hw Hb E En Ew Es. unfold with_block. change (m_store (k_mem s)) with (k_store s). eapply world_store; try done.
  - by apply (calm_update _ _ _ b b'); [..|rewrite Es].
  - apply heap_ok_insert; [apply Hw|by eexists].
  - eapply sched_inv_keeps; [apply Hw|]. by apply (keeps_update _ p b (fun _ => b')).
Qed.

Lemma set_reg0_in_world p fam R W S s v Q :
  world idle p fam R W S s ->
  (forall s', world idle p fam R W S s' -> Q tt s') -> wp (set_reg0 p v) Q s.
Proof.
  intros Hw HQ. destruct (world_block _ _ _ _ _ _ _ p Hw (member_running _ _ _ _ _)) as [b Hb].
  rewrite <- (km_same s). eapply set_reg0_km; [exact Hb|]. apply HQ. by eapply world_own.
Qed.

Lemma wp_running_world p fam R W S s Q : world idle p fam R W S s -> Q p s -> wp running Q s.
Proof.
  intros Hw HQ. rewrite <- (km_same s). eapply wp_km_running; [apply Hw|]. by rewrite km_same.
Qed.
Lemma get_uc_in_world p fam R W S s a Q :
  world idle p fam R W S s -> a ∈ members idle p R W S ->
  (forall b, st_pcbs (k_store s) !! a = Some b -> Q (p_uc b) s) -> wp (get_uc a) Q s.
Proof.
  intros Hw Ha HQ. destruct (world_block _ _ _ _ _ _ _ a Hw Ha) as [b Hb].
  rewrite <- (km_same s). eapply get_uc_km; [exact Hb|]. rewrite km_same. by apply HQ.
Qed.

Lemma settled_returned p fam R W S s :
  world idle p fam R W S s -> unqueued idle p R W S -> settled Returned s.
Proof. intros Hw Hu. right. by exists p, fam, R, W, S. Qed.

Lemma returning_world p fam R W S s v :
  world idle p fam R W S s -> unqueued idle p R W S -> wp (returning (set_reg0 p v)) settled s.
Proof.
  intros Hw Hu. unfold returning. wp_step. eapply set_reg0_in_world; [exact Hw|]. intros s' Hw'. wp_step.
  by eapply settled_returned.
Qed.

Lemma switch_away_in_world p fam R W S s kc :
  world idle p fam R W S s -> p ∈ R ++ W ++ S -> p <> next_of idle R ->
  continues kc p (k_store s) -> wp (switch_away kc (Some p)) settled s.
Proof.
  intros Hw Hp Hne Hk.
  destruct (world_next _ _ _ _ _ _ _ Hw (not_eq_sym Hne)) as (k & Hsw & Hc).
  destruct (world_block _ _ _ _ _ _ _ p Hw (member_running _ _ _ _ _)) as [b Hb].
  eapply wp_mono; [apply wp_tidy; [apply tidy_switch_away|apply Hw|]|].
  - eapply (switch_away_ok kc k p idle R W S); [apply Hw|apply Hw|done|by eexists|exact Hsw|].
    apply (to_len _ _ (ko_table _ (wd_kernel _ _ _ _ _ _ _ Hw))).
  - intros f s' [[-> Hd] Hh].
    destruct (world_switched _ _ _ _ _ _ _ _ _ Hw (or_intror Hp) Hne Hk Hh Hd) as (Hw' & Hu & Hca).
    right. do 5 eexists. split; [exact Hw'|]. split; [exact Hu|]. by eapply continues_calm.
Qed.

(** ** [KernelGetPid] *)
Lemma KernelGetPid_in_world p fam R W S s :
  world idle p fam R W S s -> unqueued idle p R W S -> wp (returning (KernelGetPid p)) settled s.
Proof.
  intros Hw Hu. destruct (world_block _ _ _ _ _ _ _ p Hw (member_running _ _ _ _ _)) as [b Hb].
  unfold returning, KernelGetPid. wp_step. wp_step. eapply wp_running_world; [exact Hw|].
  rewrite <- (km_same s). wp_step. apply wp_km_store. eapply wp_load; [exact Hb|].
  rewrite set_m_store_same, km_same.
  eapply set_reg0_in_world; [exact Hw|]. intros s' Hw'. wp_step. by eapply settled_returned.
Qed.

(** ** [KernelDelay] *)

(** A process in one of these queues is not the next to run. *)
Lemma blocked_not_next p R W S st sc :
  sched_inv (st, sc) R W S -> p ∈ W ++ S -> p <> idle -> p <> next_of idle R.
Proof.
  intros Hs Hp Hi. destruct R as [|r R]; [done|]. simpl. intros ->. pose proof (si_nodup _ _ _ _ Hs) as Hnd.
  apply NoDup_cons in Hnd as [Hn _]. apply Hn. set_solver.
Qed.

Lemma KernelDelay_in_world p fam R W S s :
  world idle p fam R W S s -> p <> idle -> p ∉ R ++ W ++ S -> wp (KernelDelay p) settled s.
Proof.
  intros Hw Hi Hp. unfold KernelDelay. wp_step. eapply get_uc_in_world; [exact Hw|apply member_running|]. intros b Hb.
  wp_step. eapply wp_running_world; [exact Hw|].
  destruct (reg0_int (p_uc b) <=? 0); [eapply returning_world; [exact Hw|by right]|].
  rewrite <- (km_same s). wp_step. apply wp_km_sched. change (m_store (k_mem s)) with (k_store s).
  eapply wp_mono; [apply wp_tidy; [apply tidy_put_to_sleep|apply Hw|]|].
  { apply (put_to_sleep_ok _ _ R W S p b); [apply Hw|done|done|].
    rewrite (proj1 (proj2 (wd_roles _ _ _ _ _ _ _ Hw))). congruence. }
  intros ok [st sc] [[(_ & Hr & Hid) Hres] Hh]. simpl in Hr, Hid, Hres, Hh |- *. destruct ok.
  - destruct Hres as (Est & S' & HS & Hinv).
    assert (world idle p fam R W S' (km s (set_m_store st (k_mem s)) sc)) as Hw1.
    { eapply world_store; [exact Hw| |exact Hh|exact Hinv| |done|done].
      - eapply calm_update; [exact Est|exact Hb|done|].
        pose proof (world_state _ _ _ _ _ _ _ _ Hw (member_running _ _ _ _ _) Hb). done.
      - intros a. rewrite !member_cases, HS, elem_of_cons. tauto. }
    wp_step. eapply set_reg0_in_world; [exact Hw1|]. intros s2 Hw2.
    destruct (world_block _ _ _ _ _ _ _ p Hw2 (member_running _ _ _ _ _)) as [b2 Hb2].
    eapply switch_away_in_world; [exact Hw2|rewrite HS; set_solver| |exists b2; split; [done|by left]].
    eapply blocked_not_next; [apply Hw2|rewrite HS; set_solver|done].
  - destruct Hres as (Est & Hinv).
    assert (world idle p fam R W S (km s (set_m_store st (k_mem s)) sc)) as Hw1.
    { eapply world_store; [exact Hw| |exact Hh|exact Hinv|done|done|done].
      eapply calm_update; [exact Est|exact Hb|done|].
      pose proof (world_state _ _ _ _ _ _ _ _ Hw (member_running _ _ _ _ _) Hb). done. }
    eapply returning_world; [exact Hw1|by right].
Qed.

(** ** [KernelWait] *)

(** The exit code is stored where the caller asked for it. *)
Lemma store_status_world p fam R W S s b v Q :
  world idle p fam R W S s -> st_pcbs (k_store s) !! p = Some b -> status_ok b ->
  (forall s', world idle p fam R W S s' -> Q tt s') ->
  wp (if uc_reg0 (p_uc b) =? 0 then mret tt else zoom (user_write_int (uc_reg0 (p_uc b)) v)) Q s.
Proof.
  intros Hw Hb Hst HQ. destruct (Z.eqb_spec (uc_reg0 (p_uc b)) 0) as [E|E]; [wp_step; by apply HQ|].
  destruct (world_running _ _ _ _ _ _ _ Hw) as (b' & c & t & ks & [Hb' Hc Him _ _ Hu]).
  assert (b' = b) as -> by congruence. destruct (Hst E) as (t' & Ht' & Hacc).
  assert (t' = t) as -> by (destruct Him as (b1 & Hb1 & E1 & E2 & _); congruence).
  destruct (user_write_int_ok (k_mem s) c t (uc_reg0 (p_uc b)) v Hu Hacc) as (pm & Hrun & _).
  rewrite <- (km_same s). apply wp_km. unfold wp. rewrite Hrun. apply HQ.
  eapply world_calm; [exact Hw|by apply calm_same|apply Hw|apply Hw|done|done|done|].
  exists (k_store s), pm, (m_events (k_mem s)). by destruct s as [[] ? ? ? ?].
Qed.

(** The rest of a wait, in the process that was woken. *)
Lemma wait_resumed_world p fam R W S s b Q :
  world idle p fam R W S s -> st_pcbs (k_store s) !! p = Some b -> status_ok b ->
  (forall s', world idle p fam R W S s' -> Q tt s') -> wp (wait_resumed p) Q s.
Proof.
  intros Hw Hb Hst HQ. unfold wait_resumed. wp_step. rewrite <- (km_same s). eapply get_uc_km; [exact Hb|]. rewrite km_same.
  wp_step. eapply store_status_world; [exact Hw|exact Hb|exact Hst|]. intros s1 Hw1. eapply set_reg0_in_world; [exact Hw1|exact HQ].
Qed.

(** The first exited child of the running process is taken. *)
Lemma reaped_world p fam R W S s b i k r st :
  world idle p fam R W S s -> st_pcbs (k_store s) !! p = Some b ->
  list_find (fun k => exited (k_store s) k = true) (fam p) = Some (i, k) ->
  rel_repr r (delete i (fam p)) -> has_parent r = has_parent (p_relations b) ->
  st_pcbs st = <[p := set_p_relations r b]> (delete k (st_pcbs (k_store s))) -> heap_ok st ->
  world idle p (after_reaping fam (k_store s) (fun a => bool_decide (a = p))) R W S
    (km s (set_m_store st (k_mem s)) (k_sched s)).
Proof.
  intros Hw Hb Hf Hr Hrp Est Hh. set (D := fun a => bool_decide (a = p)). set (A := members idle p R W S).
  pose proof (member_running idle p R W S) as Hp. pose proof (wd_family _ _ _ _ _ _ _ Hw) as Hfa.
  assert (forall x, taken fam (k_store s) D A x <-> x = k) as Htk.
  { intros x. split.
    - intros (a & j & _ & ->%bool_decide_eq_true & E). congruence.
    - intros ->. exists p, i. split; [done|]. split; [by apply bool_decide_eq_true|done]. }
  assert (k ∉ A /\ k <> p) as [HkA Hkp].
  { destruct (taken_exited _ _ _ D _ Hfa k) as [_ Hk]; [by apply Htk|]. split; [done|]. by intros ->. }
  assert (forall a, a <> p -> a <> k -> st_pcbs st !! a = st_pcbs (k_store s) !! a) as Hout
    by (intros a Ha Hk; by rewrite Est, lookup_insert_ne, lookup_delete_ne).
  assert (st_pcbs st !! p = Some (set_p_relations r b)) as Hp1 by (rewrite Est; apply lookup_insert_eq).
  assert (forall a, a ∈ A -> a <> k) as HA by (by intros a Ha ->).
  eapply world_update; [exact Hw|exact Hh| |done|done|done| | | |].
  - eapply sched_inv_keeps; [apply Hw|]. intros a ba Ha Hba. change (k_store (km _ _ _)) with st.
    assert (a ∈ A) as HaA by (apply member_cases; rewrite !elem_of_app in Ha; tauto).
    destruct (decide (a = p)) as [->|Hap]; [exists (set_p_relations r b); by simplify_eq|]. exists ba. by rewrite Hout by auto.
  - exists st, (m_pmem (k_mem s)), (m_events (k_mem s)). by destruct s as [[] ? ? ? ?].
  - apply (family_reaped _ _ _ _ A Hfa); [done| | |].
    + intros a ba Ha Hba. change (k_store (km _ _ _)) with st. split.
      * pose proof (fm_running _ _ _ _ Hfa a Ha) as E. unfold exited in *. destruct (decide (a = p)) as [->|Hap].
        -- rewrite Hp1. by rewrite Hb in E.
        -- by rewrite Hout by auto.
      * destruct (decide (a = p)) as [->|Hap].
        -- exists (set_p_relations r b). assert (ba = b) as -> by congruence. split; [done|]. split; [|done].
           unfold after_reaping. rewrite Hf. unfold D. by rewrite bool_decide_eq_true_2.
        -- exists ba. rewrite Hout by auto. split; [done|]. split; [|done].
           destruct (fm_alive _ _ _ _ Hfa a Ha) as (b' & Hb' & Hr'). assert (b' = ba) as -> by congruence.
           unfold after_reaping, D. destruct (list_find _ (fam a)) as [[]|]; [|done]. by rewrite bool_decide_eq_false_2.
    + intros x ->%Htk. change (k_store (km _ _ _)) with st. by rewrite Est, lookup_insert_ne, lookup_delete_eq.
    + intros x Hx Hn. rewrite Htk in Hn. change (k_store (km _ _ _)) with st. unfold exited.
      assert (x <> p) by (by intros ->). by rewrite Hout.
  - intros a c t ks Ha (ba & Hba & Hc & Ht & Hks). change (k_store (km _ _ _)) with st.
    destruct (decide (a = p)) as [->|Hap]; [|exists ba; by rewrite Hout by auto].
    exists (set_p_relations r b). assert (ba = b) as -> by congruence. done.
  - intros a ba Ha Hap Hba Hm. change (k_store (km _ _ _)) with st. exists ba. by rewrite Hout by auto.
Qed.

(** The heap after [schedule_process], [wait_block_process]: links and a state
    short of exiting. *)
Lemma calm_queued p a st st1 st2 b b' X :
  st_pcbs st !! a = Some b -> st_pcbs st1 = <[a := b']> (st_pcbs st) -> core b' = core b ->
  p_state b <> EXITED -> p_state b' <> EXITED -> next_only st1 st2 X -> calm p st st2.
Proof.
  intros Hb Est1 E Hs Hs' Hn. pose proof (no_fields _ _ _ Hn) as Hf.
  assert (forall x, core <$> st_pcbs st2 !! x = core <$> st_pcbs st !! x /\ exited st2 x = exited st x) as H.
  { intros x. specialize (Hf x). unfold exited. rewrite Est1 in Hf. destruct (decide (a = x)) as [<-|].
    - rewrite lookup_insert_eq in Hf. rewrite Hb. destruct (st_pcbs st2 !! a) as [y|]; [|done]. simpl in *.
      apply (inj Some) in Hf. assert (p_state y = p_state b') as Ey by (by apply (f_equal p_state) in Hf).
      split; [|by rewrite !bool_decide_eq_false_2 by congruence]. rewrite <- E. f_equal.
      apply (f_equal core) in Hf. exact Hf.
    - rewrite lookup_insert_ne in Hf by done. destruct (st_pcbs st2 !! x) as [y|], (st_pcbs st !! x) as [z|]; simpl in *; try done.
      apply (inj Some) in Hf. split; [f_equal; apply (f_equal core) in Hf; exact Hf|].
      apply (f_equal p_state) in Hf. simpl in Hf. by rewrite Hf. }
  split; [intros x _; apply H| |apply H]. destruct (H p) as [Hp _].
  destruct (st_pcbs st2 !! p), (st_pcbs st !! p); simpl in *; try done. f_equal. unfold body. congruence.
Qed.

Lemma KernelWait_world p fam R W S s :
  world idle p fam R W S s -> p <> idle -> p ∉ R ++ W ++ S ->
  (forall b, st_pcbs (k_store s) !! p = Some b -> status_ok b) -> wp (KernelWait p) settled s.
Proof.
  intros Hw Hi Hp Hst. unfold KernelWait. wp_step. eapply wp_running_world; [exact Hw|]. wp_step.
  eapply get_uc_in_world; [exact Hw|apply member_running|]. intros b Hb. specialize (Hst b Hb).
  pose proof (wd_family _ _ _ _ _ _ _ Hw) as Hfa. pose proof (member_running idle p R W S) as HpA.
  destruct (fm_alive _ _ _ _ Hfa p HpA) as (b' & Hb' & Hr). assert (b' = b) as -> by congruence.
  rewrite <- (km_same s). wp_step. apply wp_km_store. change (m_store (k_mem s)) with (k_store s).
  eapply wp_mono; [apply wp_tidy; [apply tidy_find_exited_child|apply Hw|]|].
  { eapply (find_exited_child_ok (k_store s) p b (fam p)); [done|done| |by apply Hfa].
    intros k Hk. by eapply (fm_live _ _ _ _ Hfa). }
  intros code st [(_ & _ & Hres) Hh]. destruct (list_find _ (fam p)) as [[i k]|] eqn:Hf.
  - destruct Hres as (bk & r & Hbk & -> & Hr' & Hrp & Est).
    pose proof (reaped_world _ _ _ _ _ _ _ _ _ _ _ Hw Hb Hf Hr' Hrp Est Hh) as Hw1.
    wp_step. change (uc_reg0 (p_uc b)) with (uc_reg0 (p_uc (set_p_relations r b))).
    eapply store_status_world; [exact Hw1| |exact Hst|].
    + change (st_pcbs st !! p = Some (set_p_relations r b)). by rewrite Est, lookup_insert_eq.
    + intros s1 Hw2. eapply returning_world; [exact Hw2|by right].
  - destruct Hres as [-> Est].
    assert (world idle p fam R W S (km s (set_m_store st (k_mem s)) (k_sched s))) as Hw1.
    { eapply world_store; [exact Hw|by apply calm_same|exact Hh| |done|done|done].
      eapply sched_inv_keeps; [apply Hw|by apply keeps_same]. }
    wp_step. apply wp_km_sched. eapply wp_mono; [apply wp_tidy; [apply tidy_wait_block_process|exact Hh|]|].
    { apply (wait_block_process_ok st (k_sched s) R W S p b); [apply Hw1|done|by rewrite Est|].
      rewrite (proj1 (proj2 (wd_roles _ _ _ _ _ _ _ Hw))). congruence. }
    intros [] [st1 sc1] [(Hinv & Hn & q' & Esc) Hh1]. simpl in Hinv, Hn, Esc, Hh1 |- *. subst sc1.
    assert (world idle p fam R (W ++ [p]) S (km s (set_m_store st1 (k_mem s)) (set_queue WAIT_BLOCKING_QUEUE q' (k_sched s)))) as Hw2.
    { eapply world_store; [exact Hw| |exact Hh1|exact Hinv| |done|done].
      - eapply calm_queued; [exact Hb| | |eapply world_state; [exact Hw|exact HpA|exact Hb]| |exact Hn]; [simpl; by rewrite Est|done|done].
      - intros a. rewrite !member_cases, elem_of_app, list_elem_of_singleton. tauto. }
    destruct (next_only_block _ _ _ p (set_p_state WAITING b) Hn) as [n Hp1]; [apply lookup_insert_eq|].
    eapply switch_away_in_world; [exact Hw2|set_solver| |].
    + eapply blocked_not_next; [apply Hw2|set_solver|done].
    + eexists. split; [exact Hp1|]. right. split; [done|]. exact Hst.
Qed.

(** ** The pages of the running process *)

(** The running process has the context [c'] with the table [t'], and the
    allocator is [f']; the frames of both together are the same as before. *)
Record own_change (p : addr) (s : kstate) (b b' : pcb) (c c' : mem_ctx_t) (t t' : list pte) (m' : mstate) : Prop := {
  oc_blocks : st_pcbs (m_store m') = <[p := b']> (st_pcbs (k_store s));
  oc_ctx : p_mem_ctx b' = c' /\ region1_pt c' = Some t';
  oc_stack : p_ks_pt b' = p_ks_pt b;
  oc_kin : kin b' = kin b;
  oc_queued : p_next b' = p_next b /\ p_wake_up b' = p_wake_up b /\ p_state b' = p_state b;
  oc_layout : layout_ok c' t';
  oc_table : table_ok (T := region1_table) (m_frames m') t';
  oc_count : NUM_FRAMES (m_frames m') = NUM_FRAMES (m_frames (k_mem s));
  oc_total : free_set (m_frames m') ∪ frames_of t' 0 REGION1_VPNS =
    free_set (m_frames (k_mem s)) ∪ frames_of t 0 REGION1_VPNS;
  oc_kernel : m_region0_pt m' = m_region0_pt (k_mem s) /\ m_vm_enabled m' = m_vm_enabled (k_mem s) /\
    m_current_brk_page m' = m_current_brk_page (k_mem s) /\ m_mem_ctx m' = m_mem_ctx (k_mem s);
  oc_heap : heap_ok (m_store m')
}.

Section own_pages.
Context (p : addr) (fam : addr -> list addr) (R W S : list addr) (s : kstate)
  (b b' : pcb) (c c' : mem_ctx_t) (t t' ks : list pte) (m' : mstate).
Hypothesis Hw : world idle p fam R W S s.
Hypothesis Hru : running_ok p fam s b c t ks.
Hypothesis Hoc : own_change p s b b' c c' t t' m'.

Let st' : store := m_store m'.
Let f' : frames_t := m_frames m'.

Lemma own_rest : m_region0_pt m' = m_region0_pt (k_mem s) /\ m_vm_enabled m' = m_vm_enabled (k_mem s) /\
  m_current_brk_page m' = m_current_brk_page (k_mem s) /\ m_mem_ctx m' = m_mem_ctx (k_mem s).
Proof. apply Hoc. Qed.
Lemma own_table : table_ok (T := region1_table) f' t'.
Proof. apply Hoc. Qed.
Lemma own_count : NUM_FRAMES f' = NUM_FRAMES (m_frames (k_mem s)).
Proof. apply Hoc. Qed.
Lemma own_blocks : st_pcbs st' = <[p := b']> (st_pcbs (k_store s)).
Proof. apply Hoc. Qed.

Lemma own_image_other a c0 t0 ks0 : a <> p -> image st' a c0 t0 ks0 <-> image (k_store s) a c0 t0 ks0.
Proof. intros Ha. unfold image. by rewrite own_blocks, lookup_insert_ne by done. Qed.
Lemma own_image : image st' p c' t' ks.
Proof.
  exists b'. rewrite own_blocks, lookup_insert_eq. split; [done|]. split; [apply Hoc|]. split; [apply Hoc|].
  rewrite (oc_stack _ _ _ _ _ _ _ _ _ Hoc).
  destruct (ru_image _ _ _ _ _ _ _ Hru) as (b0 & Hb0 & _ & _ & Hks). rewrite (ru_block _ _ _ _ _ _ _ Hru) in Hb0. by simplify_eq.
Qed.
(** A frame is free or the process's own now when it was before. *)
Lemma own_total x : x ∈ free_set f' \/ (exists i q, maps t' i = Some (x, q)) <->
  x ∈ free_set (m_frames (k_mem s)) \/ exists i q, maps t i = Some (x, q).
Proof.
  rewrite <- (frames_of_all (T := region1_table) f' t' x own_table).
  rewrite <- (frames_of_all (T := region1_table) _ t x (im_table _ _ _ _ (ru_ok _ _ _ _ _ _ _ Hru))).
  rewrite <- !elem_of_union. simpl. unfold f'. by rewrite (oc_total _ _ _ _ _ _ _ _ _ Hoc).
Qed.
(** What belongs to somebody else is still in use. *)
Lemma own_others_used a x : a ∈ members idle p R W S -> a <> p -> owns (k_store s) a x ->
  x ∉ free_set f' /\ ~ exists i q, maps t' i = Some (x, q).
Proof.
  intros Ha Hap Ho. pose proof (wd_memory _ _ _ _ _ _ _ Hw) as Hm.
  destruct (owned_used _ _ _ _ _ _ Hm Ha Ho) as [Hnf _].
  assert (~ (x ∈ free_set (m_frames (k_mem s)) \/ exists i q, maps t i = Some (x, q))) as Hno.
  { intros [?|(i & q & Hi)]; [done|]. apply Hap. apply (my_apart _ _ _ _ Hm a p x); [done|apply member_running|exact Ho|].
    apply (owns_image _ _ _ _ _ _ (ru_image _ _ _ _ _ _ _ Hru)). exists i, q. by left. }
  rewrite <- own_total in Hno. tauto.
Qed.
Lemma own_kernel_used x : kernel_owns (m_region0_pt (k_mem s)) x -> x ∉ free_set f' /\ ~ exists i q, maps t' i = Some (x, q).
Proof.
  intros Hk. pose proof (wd_memory _ _ _ _ _ _ _ Hw) as Hm.
  assert (~ (x ∈ free_set (m_frames (k_mem s)) \/ exists i q, maps t i = Some (x, q))) as Hno.
  { intros [Hf|(i & q & Hi)].
    - destruct Hk as (j & q' & _ & Hj). by apply (to_used _ _ (ko_table _ (wd_kernel _ _ _ _ _ _ _ Hw))) in Hj.
    - apply (my_kernel _ _ _ _ Hm p x); [apply member_running| |exact Hk].
      apply (owns_image _ _ _ _ _ _ (ru_image _ _ _ _ _ _ _ Hru)). exists i, q. by left. }
  rewrite <- own_total in Hno. tauto.
Qed.
Lemma own_stack_used i x q : maps ks i = Some (x, q) -> x ∉ free_set f' /\ ~ exists j q', maps t' j = Some (x, q').
Proof.
  intros Hi. destruct (ru_ok _ _ _ _ _ _ _ Hru) as [_ _ Hks _ Hap].
  assert (~ (x ∈ free_set (m_frames (k_mem s)) \/ exists i q, maps t i = Some (x, q))) as Hno.
  { intros [Hf|(j & q' & Hj)]; [by apply (to_used _ _ Hks) in Hi|by eapply Hap]. }
  rewrite <- own_total in Hno. tauto.
Qed.

Lemma own_image_ok : image_ok f' c' t' ks.
Proof.
  destruct (ru_ok _ _ _ _ _ _ _ Hru) as [_ _ Hks Hmap _]. split; try done; [apply Hoc|apply Hoc| |].
  - eapply table_ok_frames; [exact Hks|apply own_table|exact own_count|]. intros i x q Hi. by apply (own_stack_used i x q).
  - intros i j x q q' Hi Hj. destruct (own_stack_used j x q' Hj) as [_ []]. by exists i, q.
Qed.

Lemma own_memory : memory_ok st' f' (m_region0_pt (k_mem s)) (members idle p R W S).
Proof.
  pose proof (wd_memory _ _ _ _ _ _ _ Hw) as Hm.
  assert (forall a x, a ∈ members idle p R W S -> a <> p -> owns st' a x <-> owns (k_store s) a x) as Hoth.
  { intros a x Ha Hap. unfold owns. by setoid_rewrite (own_image_other a _ _ _ Hap). }
  assert (forall x, owns st' p x <-> exists i q, maps t' i = Some (x, q) \/ maps ks i = Some (x, q)) as Hown
    by (intros x; eapply owns_image, own_image).
  apply (memory_step _ _ _ _ _ _ _ _ Hm own_count).
  - intros a Ha. destruct (decide (a = p)) as [->|Hap]; [exists c', t', ks; split; [apply own_image|apply own_image_ok]|].
    destruct (my_image _ _ _ _ Hm a Ha) as (c0 & t0 & ks0 & Him & Hio). exists c0, t0, ks0.
    split; [by apply own_image_other|]. eapply image_ok_frames; [exact Hio|apply own_table|exact own_count|].
    intros x i q Hi. apply (own_others_used a x Ha Hap). apply (owns_image _ _ _ _ _ _ Him). by exists i, q.
  - intros a x Ha Ho. destruct (decide (a = p)) as [->|Hap]; [|left; split; [done|by apply Hoth]].
    apply Hown in Ho as (i & q & [Hi|Hi]).
    + destruct (proj1 (own_total x)) as [Hf|(j & q' & Hj)]; [right; by exists i, q|by right|left]. split; [done|].
      apply (owns_image _ _ _ _ _ _ (ru_image _ _ _ _ _ _ _ Hru)). eauto.
    + left. split; [done|]. apply (owns_image _ _ _ _ _ _ (ru_image _ _ _ _ _ _ _ Hru)). eauto.
  - intros a a' x Ha Ha' Hf Ho Ho'.
    assert (forall a, a ∈ members idle p R W S -> owns st' a x -> a = p) as Hp.
    { intros a0 Ha0 Ho0. destruct (decide (a0 = p)) as [|Hap]; [done|]. apply Hoth in Ho0; [|done..].
      by apply (owned_used _ _ _ _ _ _ Hm Ha0) in Ho0 as [? _]. }
    by rewrite (Hp a Ha Ho), (Hp a' Ha' Ho').
  - intros x Hx [Hf|(a & Ha & Ho)].
    + exists p. split; [apply member_running|]. apply Hown. destruct (proj2 (own_total x) (or_introl Hf)) as [?|(i & q & Hi)]; [done|eauto].
    + destruct (decide (a = p)) as [->|Hap]; [|exists a; split; [done|by apply Hoth]]. exists p. split; [done|]. apply Hown.
      apply (owns_image _ _ _ _ _ _ (ru_image _ _ _ _ _ _ _ Hru)) in Ho as (i & q & [Hi|Hi]); [|eauto].
      destruct (proj2 (own_total x)) as [?|(j & q' & Hj)]; [right; by exists i, q|done|eauto].
  - done.
  - intros x (i & q & _ & Hi). by apply (to_used _ _ (ko_table _ (wd_kernel _ _ _ _ _ _ _ Hw))) in Hi.
Qed.

Lemma own_world : world idle p fam R W S (km s m' (k_sched s)).
Proof.
  destruct own_rest as (E0 & Evm & Eb & Ec). pose proof own_memory as Hmem.
  destruct (oc_queued _ _ _ _ _ _ _ _ _ Hoc) as (Eqn & Eqw & Eqs).
  assert (st_pcbs (k_store s) !! p = Some b) as Hb by apply Hru.
  assert (forall a, kin <$> st_pcbs st' !! a = kin <$> st_pcbs (k_store s) !! a) as Hrel.
  { intros a. rewrite own_blocks. destruct (decide (p = a)) as [<-|]; [|by rewrite lookup_insert_ne].
    rewrite lookup_insert_eq, Hb. simpl. f_equal. apply Hoc. }
  destruct Hw as [Hro Hsc Hfa Hme Hke (b0 & Hb0 & Hz) Hre Hhe Hroom]. assert (b0 = b) as -> by congruence.
  split.
  - change (k_mem (km _ _ _)) with m'. by rewrite Ec.
  - eapply sched_inv_keeps; [exact Hsc|]. intros a ba _ Hba. change (k_store (km _ _ _)) with st'. rewrite own_blocks.
    destruct (decide (p = a)) as [<-|]; [|exists ba; by rewrite lookup_insert_ne].
    rewrite lookup_insert_eq. exists b'. by simplify_eq.
  - eapply family_same; [exact Hfa|done|exact Hrel|]. intros a. unfold exited. change (k_store (km _ _ _)) with st'. rewrite own_blocks.
    destruct (decide (p = a)) as [<-|]; [by rewrite lookup_insert_eq, Hb, Eqs|by rewrite lookup_insert_ne].
  - change (k_mem (km _ _ _)) with m'. rewrite E0. exact Hmem.
  - change (k_mem (km _ _ _)) with m'. destruct own_image as (b1 & _ & _ & _ & Hks1).
    assert (p_ks_pt b = Some ks) as Hks by (destruct (ru_image _ _ _ _ _ _ _ Hru) as (b2 & ? & _ & _ & ?); congruence).
    apply (kernel_ok_restack (k_mem s) m' ks); try done; rewrite ?E0; try done.
    + apply own_table.
    + apply own_count.
    + apply (to_len _ _ (ko_table _ Hke)).
    + by rewrite Hz.
    + apply own_image_ok.
    + apply Hru.
    + intros x Hx. by apply own_kernel_used.
    + intros i x q Hi. apply (my_kernel _ _ _ _ Hme p); [apply member_running|].
      apply (owns_image _ _ _ _ _ _ (ru_image _ _ _ _ _ _ _ Hru)). eauto.
  - exists b'. change (k_store (km _ _ _)) with st'. rewrite own_blocks, lookup_insert_eq. split; [done|].
    change (k_mem (km _ _ _)) with m'. rewrite E0, Hz. symmetry. apply Hoc.
  - intros a Ha Hap. destruct (Hre a Ha Hap) as (ba & Hba & Hmr). exists ba. change (k_store (km _ _ _)) with st'.
    by rewrite own_blocks, lookup_insert_ne.
  - apply Hoc.
  - change (k_mem (km _ _ _)) with m'. by rewrite Eb.
Qed.
Lemma own_running : running_ok p fam (km s m' (k_sched s)) b' c' t' ks.
Proof.
  destruct (oc_ctx _ _ _ _ _ _ _ _ _ Hoc) as [Ec Et]. destruct own_rest as (_ & _ & _ & Em).
  assert (st_pcbs st' !! p = Some b') as Hb' by (rewrite own_blocks; apply lookup_insert_eq).
  split; [exact Hb'|exact Ec|exact own_image|exact own_image_ok| |].
  - pose proof (oc_kin _ _ _ _ _ _ _ _ _ Hoc) as Ek. apply (f_equal fst) in Ek. simpl in Ek. rewrite Ek. apply Hru.
  - split; [|exact Et|exact own_table]. apply current_ctx_Some. exists p, b'. split; [exact (eq_trans Em (proj2 (proj2 (wd_roles _ _ _ _ _ _ _ Hw))))|]. split; [exact Hb'|exact Ec].
Qed.
End own_pages.

(** The same for a change of the memory context alone. *)
Lemma own_ctx_world p fam R W S s b c c' t t' ks f' e' :
  world idle p fam R W S s -> running_ok p fam s b c t ks -> region1_pt c' = Some t' -> layout_ok c' t' ->
  table_ok (T := region1_table) f' t' -> NUM_FRAMES f' = NUM_FRAMES (m_frames (k_mem s)) ->
  free_set f' ∪ frames_of t' 0 REGION1_VPNS = free_set (m_frames (k_mem s)) ∪ frames_of t 0 REGION1_VPNS ->
  world idle p fam R W S (km s (in_ctx c' f' e' (k_mem s)) (k_sched s)).
Proof.
  intros Hw Hru Ht' Hlo Hok Hn Htot. eapply (own_world _ _ _ _ _ _ _ (set_p_mem_ctx c' b)); [exact Hw|exact Hru|].
  pose proof (proj2 (proj2 (wd_roles _ _ _ _ _ _ _ Hw))) as Hc. pose proof (ru_block _ _ _ _ _ _ _ Hru) as Hb.
  assert (st_pcbs (m_store (in_ctx c' f' e' (k_mem s))) = <[p := set_p_mem_ctx c' b]> (st_pcbs (k_store s))) as Hblk
    by (unfold in_ctx; rewrite Hc; simpl; by apply alter_Some).
  assert (m_frames (in_ctx c' f' e' (k_mem s)) = f') as Ef by (unfold in_ctx; by rewrite Hc).
  split; rewrite ?Ef; try done; [unfold in_ctx; rewrite Hc; simpl; by rewrite Hc|].
  pose proof (heap_ok_insert (k_store s) p (set_p_mem_ctx c' b) (wd_heap _ _ _ _ _ _ _ Hw)) as [H1 H2]; [by eexists|].
  unfold heap_ok. rewrite Hblk. split; [|intros a Ha; specialize (H2 a Ha)]; unfold in_ctx; by rewrite Hc.
Qed.

(** ** [KernelBrk] *)
Lemma layout_ok_same c c' t t' :
  layout_ok c t -> same_maps t t' -> txt_start_page c' = txt_start_page c -> data_start_page c' = data_start_page c ->
  orig_brk_page c' = orig_brk_page c -> curr_brk_page c' = curr_brk_page c -> layout_ok c' t'.
Proof. intros [H1 H2 H3 H4] Hs E1 E2 E3 E4. split; rewrite ?E1, ?E2, ?E3, ?E4; try done. intros vpn Hv. rewrite Hs. by apply H4. Qed.
Lemma frames_of_same t t' a z : same_maps t t' -> frames_of t' a z = frames_of t a z.
Proof. intros Hs. apply set_eq. intros x. rewrite !elem_of_frames_of. unfold same_maps in Hs. by setoid_rewrite Hs. Qed.

(** The pages between the old and the new break are not mapped: the stack has
    not grown there. *)
Definition brk_clear (u : UserContext) (c : mem_ctx_t) (t : list pte) : Prop :=
  vpn_of (uc_sp u) <= REGION1_LIMIT_VPN /\
  forall vpn, curr_brk_page c <= vpn < up_vpn_of (uc_reg0 u) -> maps t (vpn - REGION1_BASE_VPN) = None.

Lemma KernelBrk_world p fam R W S s b c t ks :
  world idle p fam R W S s -> unqueued idle p R W S -> running_ok p fam s b c t ks -> brk_clear (p_uc b) c t ->
  wp (returning (KernelBrk p)) settled s.
Proof.
  intros Hw Hu Hru [Hsp Hclear]. pose proof (im_layout _ _ _ _ (ru_ok _ _ _ _ _ _ _ Hru)) as Hlo. pose proof Hlo as [Ht Hd Hb Hm].
  unfold returning, KernelBrk. wp_step. rewrite <- (km_same s). wp_step. eapply get_uc_km; [apply Hru|]. wp_step. apply wp_km.
  set (a := uc_reg0 (p_uc b)) in *. set (sp := uc_sp (p_uc b)) in *.
  eapply wp_mono; [apply (KernelBrk_Impl_ok (k_mem s) c t a sp); [apply Hru|lia|lia|exact Hsp|exact Hclear]|].
  intros r m Hres.
  enough (world idle p fam R W S (km s m (k_sched s))) as Hw'.
  { eapply set_reg0_in_world; [exact Hw'|]. intros s' Hw2. wp_step. by eapply settled_returned. }
  assert (REGION1_LIMIT_VPN = REGION1_BASE_VPN + REGION1_VPNS) as Hlim by done.
  pose proof (uo_table _ _ _ (ru_user _ _ _ _ _ _ _ Hru)) as Hrt.
  destruct (decide (orig_brk_page c <= up_vpn_of a < vpn_of sp - 1)) as [Hin|_]; [|destruct Hres as [_ ->]; by rewrite km_same].
  destruct Hres as (t' & f' & e' & Hok & Hn & Hres). case_decide as Hshort.
  - destruct Hres as (-> & -> & Hs & Hf). eapply own_ctx_world; [exact Hw|exact Hru|done| |exact Hok|exact Hn|].
    + by eapply layout_ok_same.
    + by rewrite Hf, (frames_of_same t t').
  - destruct Hres as (-> & -> & Hres). eapply own_ctx_world; [exact Hw|exact Hru|done| |exact Hok|exact Hn|].
    + split; simpl; try lia. intros vpn Hv. case_decide as Hup.
      * destruct Hres as [_ _ Hai Hao _ _]. destruct (decide (vpn < curr_brk_page c)) as [Hold|Hnew].
        -- rewrite Hao by lia. apply Hm. lia.
        -- destruct (Hai (vpn - REGION1_BASE_VPN)) as (x & Hx & _); [lia|]. exists x. eexists. split; [exact Hx|apply prot_rw].
      * destruct Hres as [Hm' _]. rewrite Hm', decide_False by lia. apply Hm. lia.
    + case_decide as Hup.
      * eapply (allocated_total _ t); [exact Hres|lia|lia| |done]. intros j Hj.
        replace j with (j + REGION1_BASE_VPN - REGION1_BASE_VPN) by lia. apply Hclear. lia.
      * destruct Hres as [Hm' Hf']. rewrite Hf'. apply set_eq. intros x. rewrite !elem_of_union, !elem_of_frames_of.
        setoid_rewrite Hm'. split.
        -- intros [[?|(i & q & Hi & E)]|(i & q & Hi & E)]; [by left|right; exists i, q; split; [|exact E]; apply maps_range in E|].
           ++ rewrite (to_len _ _ (uo_ok _ _ _ (ru_user _ _ _ _ _ _ _ Hru))) in E. exact E.
           ++ case_decide; [done|]. right. by exists i, q.
        -- intros [?|(i & q & Hi & E)]; [by left; left|].
           destruct (decide (up_vpn_of a - REGION1_BASE_VPN <= i < curr_brk_page c - REGION1_BASE_VPN)) as [Hr|Hr];
             [left; right|right]; exists i, q; (split; [done|]); [done|by rewrite decide_False].
Qed.
End calls.
