(* ===== verification/ProcessExit.v ===== *)
(** * Exit in the world of processes

    [KernelExit] takes a process out of the world: its frames are free, its
    children are orphans or gone, and the next process goes on.  The call is in
    [Exiting], the world in [ProcessWorld]. *)

From S2P Require Import Prelude Machine FrameTracking Pcb Paging KernelMemory UserMemory AddressSpace Fifo SleepHeap Scheduler Waiters PipeBuffer PipeTable Locks Frame Terminals Kernel DemoKernel Switching PipeCalls TtyCalls Synchronization LoadProgram Syscalls HeapFrame UserBuffers PipeWorld Processes WaitExit Exiting ProcessWorld ProcessCalls.

(** A process without its parent has the same children and pages. *)
Lemma orphaned_children b l : rel_repr (p_relations b) l -> rel_repr (p_relations (orphaned b)) l.
Proof. by intros []. Qed.

Section exit.
Context {hw : Machine} {hw_ok : MachineOk}.
Context (idle p : addr) (fam : addr -> list addr) (R W S : list addr) (s : kstate)
  (b : pcb) (c : mem_ctx_t) (t ks : list pte).
Hypothesis Hw : world idle p fam R W S s.
Hypothesis Hi : p <> idle.
Hypothesis Hp : p ∉ R ++ W ++ S.
Hypothesis Hru : running_ok p fam s b c t ks.

Let nxt : addr := next_of idle R.
Let A : list addr := members idle p R W S.
Let A' : list addr := members idle nxt (tail R) W S.

Lemma left_members a : a ∈ A' <-> a ∈ A /\ a <> p.
Proof.
  unfold A, A', nxt. rewrite !member_cases. rewrite !elem_of_app in Hp.
  destruct R as [|r R']; simpl; rewrite ?elem_of_cons, ?elem_of_nil in *; naive_solver.
Qed.
Lemma left_next : nxt <> p.
Proof. apply next_of_other; [done|]. rewrite !elem_of_app in Hp. tauto. Qed.

Lemma world_exits : p_pid b <> 1 -> exists k, exits s k p idle b c t (fam p) R W S /\ continues k nxt (k_store s).
Proof.
  intros Hpid. pose proof (wd_family _ _ _ _ _ _ _ Hw) as Hfa. pose proof (member_running idle p R W S) as HpA.
  destruct (world_next _ _ _ _ _ _ _ Hw left_next) as (k & Hsw & Hc). exists k. split; [|exact Hc].
  destruct Hw as [(Hr & Hid & Hcx) Hsc _ Hme Hke _ _ _ _]. split; try done.
  - split; [done|]. split; [done|]. destruct (fm_alive _ _ _ _ Hfa idle) as (bi & ? & _); [by left|by eexists].
  - apply Hru.
  - split; [apply Hru|]. apply Hfa. done.
  - intros a Ha. by eapply (fm_live _ _ _ _ Hfa).
  - apply Hru.
  - intros a Ha. apply (fm_running _ _ _ _ Hfa). apply member_cases. rewrite elem_of_cons, !elem_of_app in Ha. tauto.
Qed.

(** The process exits with the block [bx]. *)
Section done.
Hypothesis Hpid : p_pid b <> 1.
Context (code : Z) (s' : kstate) (bx : pcb).
Hypothesis Hrel : p_relations bx = p_relations b.
Hypothesis Hd : exit_done s p idle bx t (fam p) R W S code s'.
Hypothesis Hh : heap_ok (k_store s').

(** The block of a process that goes on. *)
Definition goes_on (a : addr) (ba b' : pcb) : Prop :=
  unscheduled b' = unscheduled (if decide (a ∈ fam p) then orphaned ba else ba) /\ p_state b' <> EXITED.

Lemma left_block a ba :
  a ∈ A' -> st_pcbs (k_store s) !! a = Some ba -> exists b', st_pcbs (k_store s') !! a = Some b' /\ goes_on a ba b'.
Proof.
  intros [Ha Hap]%left_members Hba. pose proof (fm_running _ _ _ _ (wd_family _ _ _ _ _ _ _ Hw) a Ha) as Hex.
  unfold exited in Hex. rewrite Hba in Hex. apply bool_decide_eq_false in Hex.
  assert (after_exit s p bx (fam p) code a = Some (if decide (a ∈ fam p) then orphaned ba else ba)) as E.
  { unfold after_exit. rewrite decide_False by done. case_decide; [|done]. rewrite Hba. simpl. unfold after_parent.
    by rewrite decide_False. }
  destruct (decide (a = nxt)) as [->|Han].
  - destruct (xd_next _ _ _ _ _ _ _ _ _ _ _ Hd) as (bn & b' & Hbn & Hb' & Eu & Hne & _). exists b'. split; [exact Hb'|].
    split; [|done]. rewrite Eu. unfold nxt in E. rewrite E in Hbn. by injection Hbn as <-.
  - rewrite (xd_blocks _ _ _ _ _ _ _ _ _ _ _ Hd a Han). eexists. split; [exact E|]. split; [done|]. by case_decide.
Qed.
Lemma goes_on_fields a ba b' : goes_on a ba b' ->
  p_kc b' = p_kc ba /\ p_uc b' = p_uc ba /\ p_mem_ctx b' = p_mem_ctx ba /\ p_ks_pt b' = p_ks_pt ba.
Proof. intros [E _]. case_decide; destruct b', ba; by simplify_eq/=. Qed.
Lemma goes_on_pid a ba b' : goes_on a ba b' -> p_pid b' = p_pid ba.
Proof. intros [E _]. apply (f_equal p_pid) in E. simpl in E. rewrite E. by case_decide. Qed.
Lemma goes_on_relations a ba b' : goes_on a ba b' ->
  p_relations b' = if decide (a ∈ fam p) then set_has_parent false (p_relations ba) else p_relations ba.
Proof. intros [E _]. apply (f_equal p_relations) in E. etrans; [exact E|]. by case_decide. Qed.

Lemma left_image a c0 t0 ks0 : a ∈ A' -> image (k_store s) a c0 t0 ks0 -> image (k_store s') a c0 t0 ks0.
Proof.
  intros Ha (ba & Hba & <- & Ht & Hks). destruct (left_block a ba Ha Hba) as (b' & Hb' & Hg).
  apply goes_on_fields in Hg as (_ & _ & Ec & Ek). exists b'. by rewrite Ec, Ek.
Qed.
Lemma left_owns a x : a ∈ A' -> owns (k_store s') a x <-> owns (k_store s) a x.
Proof.
  intros Ha. destruct (my_image _ _ _ _ (wd_memory _ _ _ _ _ _ _ Hw) a) as (c0 & t0 & ks0 & Him & _); [by apply left_members|].
  by rewrite (owns_image _ _ _ _ _ _ Him), (owns_image _ _ _ _ _ _ (left_image _ _ _ _ Ha Him)).
Qed.

(** The frames of the process are free now. *)
Lemma left_free x : x ∈ free_set (m_frames (k_mem s')) <-> x ∈ free_set (m_frames (k_mem s)) \/ owns (k_store s) p x.
Proof.
  destruct Hru as [Hb Hc Him Hok _ _]. rewrite (owns_image _ _ _ _ _ _ Him), (xd_frames _ _ _ _ _ _ _ _ _ _ _ Hd), !elem_of_union.
  rewrite (frames_of_all (T := region1_table) _ t x (im_table _ _ _ _ Hok)).
  assert (x ∈ frames_of (m_region0_pt (k_mem s)) K_STACK_BASE_VPN K_STACK_LIMIT_VPN <-> exists i q, maps ks i = Some (x, q)) as ->.
  2: { split; [intros [[?|(i & q & ?)]|(i & q & ?)]; eauto 6|intros [?|(i & q & [?|?])]; eauto 6]. }
  destruct (wd_stack _ _ _ _ _ _ _ Hw) as (b' & Hb' & Hz).
  assert (p_ks_pt b' = Some ks) as Hks by (destruct Him as (b0 & ? & _ & _ & ?); congruence). rewrite Hks in Hz.
  destruct kstack_vpns_spec as (Hb0 & Hl0 & Hk). assert (K_STACK_LIMIT_VPN = K_STACK_BASE_VPN + K_STACK_VPNS) as HL by (unfold K_STACK_VPNS; lia).
  rewrite elem_of_frames_of. split.
  - intros (i & q & Hr & E). exists (i - K_STACK_BASE_VPN), q. rewrite (zslice_maps _ _ _ _ _ Hz) by lia. rewrite <- E. f_equal. lia.
  - intros (i & q & E). pose proof (maps_range _ _ _ E) as Hr. rewrite (to_len _ _ (im_stack _ _ _ _ Hok)) in Hr. simpl in Hr.
    exists (K_STACK_BASE_VPN + i), q. split; [lia|]. by rewrite <- (zslice_maps _ _ _ _ i Hz) by lia.
Qed.

Lemma left_kernel :
  kernel_ok (k_mem s') /\ forall x, kernel_owns (m_region0_pt (k_mem s')) x <-> kernel_owns (m_region0_pt (k_mem s)) x.
Proof.
  pose proof (wd_kernel _ _ _ _ _ _ _ Hw) as Hk. pose proof (wd_memory _ _ _ _ _ _ _ Hw) as Hm.
  destruct (xd_allocator _ _ _ _ _ _ _ _ _ _ _ Hd) as [Hwf Hn].
  destruct (xd_kernel _ _ _ _ _ _ _ _ _ _ _ Hd) as (Evm & Eb & Hl & Hout).
  assert (nxt ∈ A') as HnA by apply member_running. pose proof HnA as [HnA0 Hnp]%left_members.
  destruct (my_image _ _ _ _ Hm nxt HnA0) as (c0 & t0 & ks0 & Him & Hok).
  destruct (xd_next _ _ _ _ _ _ _ _ _ _ _ Hd) as (bn & b' & _ & Hb' & _ & _ & _ & Hz).
  destruct (left_image _ _ _ _ HnA Him) as (b1 & Hb1 & _ & _ & Hks1).
  assert (forall x, kernel_owns (m_region0_pt (k_mem s)) x -> x ∉ free_set (m_frames (k_mem s'))) as Hused.
  { intros x Hx [Hf|Ho]%left_free.
    - destruct Hx as (i & q & _ & E). by apply (to_used _ _ (ko_table _ Hk)) in E.
    - by apply (my_kernel _ _ _ _ Hm p x (member_running _ _ _ _ _) Ho). }
  apply (kernel_ok_restack (k_mem s) (k_mem s') ks0); try done.
  - rewrite Hz. unfold nxt in Hb1. rewrite Hb' in Hb1. by injection Hb1 as <-.
  - eapply table_ok_frames; [apply Hok|exact Hwf|exact Hn|]. intros i x q E.
    assert (owns (k_store s) nxt x) as Ho by (exists c0, t0, ks0, i, q; auto).
    intros [Hf|Ho']%left_free; [by destruct (owned_used _ _ _ _ _ _ Hm HnA0 Ho)|].
    apply Hnp. eapply (my_apart _ _ _ _ Hm); [done|apply member_running|done|done].
  - apply Hok.
  - intros i x q E. apply (my_kernel _ _ _ _ Hm nxt x HnA0). exists c0, t0, ks0, i, q. auto.
Qed.

Lemma left_memory : memory_ok (k_store s') (m_frames (k_mem s')) (m_region0_pt (k_mem s')) A'.
Proof.
  pose proof (wd_memory _ _ _ _ _ _ _ Hw) as Hm. destruct (xd_allocator _ _ _ _ _ _ _ _ _ _ _ Hd) as [Hwf Hn].
  destruct left_kernel as [_ Hko].
  apply (memory_step _ _ _ _ _ _ _ _ Hm Hn); [| | | |exact Hko|].
  - intros a Ha. pose proof Ha as [HaA Hap]%left_members. destruct (my_image _ _ _ _ Hm a HaA) as (c0 & t0 & ks0 & Him & Hok).
    exists c0, t0, ks0. split; [by apply left_image|]. eapply image_ok_frames; [exact Hok|exact Hwf|exact Hn|].
    intros x i q E. assert (owns (k_store s) a x) as Ho by (apply (owns_image _ _ _ _ _ _ Him); eauto).
    intros [Hf|Ho']%left_free; [by destruct (owned_used _ _ _ _ _ _ Hm HaA Ho)|].
    apply Hap. eapply (my_apart _ _ _ _ Hm); [done|apply member_running|done|done].
  - intros a x Ha Ho. left. split; [by apply left_members|by apply left_owns].
  - intros a a' x Ha Ha' Hf Ho _. apply left_owns in Ho; [|done]. apply left_members in Ha as [Ha _].
    by apply (owned_used _ _ _ _ _ _ Hm Ha) in Ho as [? _].
  - intros x Hx [Hf|(a & Ha & Ho)]; [destruct Hx; apply left_free; by left|].
    assert (a <> p) as Hap by (intros ->; apply Hx, left_free; by right).
    exists a. assert (a ∈ A') as Ha' by by apply left_members. split; [done|by apply left_owns].
  - intros x (i & q & _ & E). by apply (to_used _ _ (ko_table _ (wd_kernel _ _ _ _ _ _ _ Hw))) in E.
Qed.

Lemma left_family : family_ok idle fam (k_store s') A'.
Proof.
  pose proof (wd_family _ _ _ _ _ _ _ Hw) as Hfa. fold A in Hfa. pose proof (member_running idle p R W S) as HpA. fold A in HpA.
  destruct Hru as [Hb _ _ _ Hch _].
  assert (forall a k, a ∈ A' -> k ∈ fam a -> k ∉ fam p) as Hnot.
  { intros a k [Ha Hap]%left_members Hk Hk'. by apply Hap, (fm_apart _ _ _ _ Hfa a p k). }
  assert (forall a ba b', a ∈ A' -> st_pcbs (k_store s) !! a = Some ba -> st_pcbs (k_store s') !! a = Some b' -> goes_on a ba b') as Hblk.
  { intros a ba b' Ha Hba Hb'. destruct (left_block a ba Ha Hba) as (b1 & Hb1 & Hg). by assert (b1 = b') as -> by congruence. }
  split.
  - intros a Ha. pose proof Ha as [HaA _]%left_members. destruct (fm_alive _ _ _ _ Hfa a HaA) as (ba & Hba & Hr).
    destruct (left_block a ba Ha Hba) as (b' & Hb' & Hg). exists b'. split; [done|].
    rewrite (goes_on_relations _ _ _ Hg). case_decide; [by apply (orphaned_children ba)|done].
  - intros a Ha. pose proof Ha as [HaA _]%left_members. destruct (fm_alive _ _ _ _ Hfa a HaA) as (ba & Hba & _).
    destruct (left_block a ba Ha Hba) as (b' & Hb' & [_ Hne]). unfold exited. rewrite Hb'. by apply bool_decide_eq_false.
  - intros a [Ha _]%left_members. by apply (fm_nodup _ _ _ _ Hfa).
  - intros a k Ha Hk. pose proof Ha as [HaA Hap]%left_members. pose proof (fm_live _ _ _ _ Hfa a k HaA Hk) as [bk Hbk].
    destruct (decide (k ∈ A')) as [HkA|HkA]; [destruct (left_block k bk HkA Hbk) as (? & ? & _); by eexists|].
    assert (k <> nxt) as Hkn by (intros ->; apply HkA, member_running).
    rewrite (xd_blocks _ _ _ _ _ _ _ _ _ _ _ Hd k Hkn). unfold after_exit. rewrite Hrel. case_decide as Hkp.
    + subst k. assert (has_parent (p_relations b) = true) as -> by (apply (fm_parent _ _ _ _ Hfa p b HpA Hb); by exists a). by eexists.
    + rewrite decide_False by (by apply (Hnot a)). by rewrite Hbk.
  - intros a a' k [Ha _]%left_members [Ha' _]%left_members. by apply (fm_apart _ _ _ _ Hfa).
  - intros a b' Ha Hb'. pose proof Ha as [HaA Hap]%left_members. destruct (fm_alive _ _ _ _ Hfa a HaA) as (ba & Hba & _).
    rewrite (goes_on_relations _ _ _ (Hblk _ _ _ Ha Hba Hb')), (goes_on_pid _ _ _ (Hblk _ _ _ Ha Hba Hb')). case_decide as Hc.
    + simpl. split; [|done]. intros (w & HwA & Hin). destruct (Hnot w a HwA Hin Hc).
    + destruct (fm_parent _ _ _ _ Hfa a ba HaA Hba) as [H1 H2]. split.
      * intros (w & HwA & Hin). apply H1. exists w. by apply left_members in HwA as [? _].
      * intros Hpa Hi' Hpi. destruct (H2 Hpa Hi' Hpi) as (w & HwA & Hin). exists w. split; [|done].
        apply left_members. split; [done|]. by intros ->.
  - intros k Hk HkA. assert (k <> nxt) as Hkn by (intros ->; apply HkA, member_running).
    unfold exited. rewrite (xd_blocks _ _ _ _ _ _ _ _ _ _ _ Hd k Hkn) in *. unfold after_exit in *. rewrite Hrel in *. case_decide as Hkp.
    + subst k. destruct (has_parent (p_relations b)) eqn:Hpar; [|by destruct Hk]. split; [done|].
      destruct (proj2 (fm_parent _ _ _ _ Hfa p b HpA Hb) Hpar Hi Hpid) as (w & HwA & Hin). exists w. split; [|done].
      apply left_members. split; [done|]. intros ->. by apply (fm_nodup _ _ _ _ Hfa p HpA).
    + assert (k ∉ A) as HkA0 by (intros HkA0; by apply HkA, left_members). case_decide as Hc.
      * destruct (st_pcbs (k_store s) !! k) as [bk|] eqn:Hbk; [|by destruct Hk].
        destruct (fm_exited _ _ _ _ Hfa k) as [Hex _]; [by eexists|done|]. unfold exited in Hex. rewrite Hbk in Hex.
        apply bool_decide_eq_true in Hex. simpl in Hk. unfold after_parent in Hk. rewrite decide_True in Hk by done. by destruct Hk.
      * destruct (fm_exited _ _ _ _ Hfa k Hk HkA0) as (Hex & w & HwA & Hin). split; [exact Hex|]. exists w. split; [|done].
        apply left_members. split; [done|]. by intros ->.
Qed.

Lemma left_world k : continues k nxt (k_store s) ->
  world idle nxt fam (tail R) W S s' /\ unqueued idle nxt (tail R) W S /\ continues k nxt (k_store s').
Proof.
  intros (bn & Hbn & Hk). pose proof (wd_sched _ _ _ _ _ _ _ Hw) as Hsc.
  assert (nxt ∈ A') as HnA by apply member_running.
  destruct (left_block nxt bn HnA Hbn) as (b' & Hb' & Hg). apply goes_on_fields in Hg as (Ekc & Euc & Ec & _).
  split; [split|split].
  - destruct (xd_running _ _ _ _ _ _ _ _ _ _ _ Hd) as [Hr Hcx]. split; [exact Hr|]. split; [apply (xd_idle _ _ _ _ _ _ _ _ _ _ _ Hd)|exact Hcx].
  - apply (xd_sched _ _ _ _ _ _ _ _ _ _ _ Hd).
  - apply left_family.
  - apply left_memory.
  - apply left_kernel.
  - destruct (xd_next _ _ _ _ _ _ _ _ _ _ _ Hd) as (_ & b1 & _ & Hb1 & _ & _ & _ & Hz). by exists b1.
  - intros a Ha Han. pose proof Ha as [HaA Hap]%left_members. destruct (wd_resume _ _ _ _ _ _ _ Hw a HaA Hap) as (ba & Hba & Hm).
    destruct (left_block a ba Ha Hba) as (b1 & Hb1 & Hg). exists b1. split; [exact Hb1|].
    apply goes_on_fields in Hg as (E1 & E2 & E3 & _). unfold may_resume, status_ok in *. by rewrite E1, E2, E3.
  - exact Hh.
  - destruct (xd_kernel _ _ _ _ _ _ _ _ _ _ _ Hd) as (_ & -> & _). apply Hw.
  - destruct R as [|r R']; [by left|]. right. simpl. pose proof (si_nodup _ _ _ _ Hsc) as Hnd. by apply NoDup_cons in Hnd as [? _].
  - exists b'. split; [exact Hb'|]. unfold status_ok in *. by rewrite Euc, Ec.
Qed.
End done.

(** The call, with or without a user context; the first process halts. *)
Lemma KernelExit_world uc : uc = None \/ uc = Some p -> wp (KernelExit uc) (settled idle) s.
Proof.
  intros Huc. destruct (decide (p_pid b = 1)) as [E|Hpid].
  - unfold KernelExit. wp_step. eapply wp_running_world; [exact Hw|]. rewrite <- (km_same s). wp_step. apply wp_km_store.
    eapply wp_load; [apply Hru|]. rewrite (proj2 (Z.eqb_eq _ _) E). unfold halt, emit. wp_steps. by left.
  - destruct (world_exits Hpid) as (k & Hex & Hc).
    eapply wp_mono; [apply wp_tidy; [apply tidy_KernelExit|apply Hw|]; apply (KernelExit_ok _ _ _ _ _ _ _ _ _ _ _ Hex uc Huc)|].
    intros f s' [[-> Hd] Hh]. destruct (left_world Hpid _ _ _ eq_refl Hd Hh k Hc) as (Hw' & Hu & Hc'). right. by do 5 eexists.
Qed.
(** The same when the block has other bounds of the segments. *)
Lemma exit_relaid c1 : region1_pt c1 = region1_pt c ->
  wp (KernelExit None) (settled idle) (km s (with_block p (set_p_mem_ctx c1 b) (k_mem s)) (k_sched s)).
Proof.
  intros Ec. set (b1 := set_p_mem_ctx c1 b). set (s1 := km _ _ _).
  assert (st_pcbs (k_store s1) = <[p := b1]> (st_pcbs (k_store s))) as Eb by done.
  assert (st_pcbs (k_store s1) !! p = Some b1) as Hb1 by (rewrite Eb; apply lookup_insert_eq).
  assert (forall a, a <> p -> st_pcbs (k_store s1) !! a = st_pcbs (k_store s) !! a) as Ho by (intros; by rewrite Eb, lookup_insert_ne).
  destruct (decide (p_pid b = 1)) as [E|Hpid].
  { unfold KernelExit. wp_step. apply wp_km_running with p; [apply Hw|]. wp_step. apply wp_km_store.
    eapply wp_load; [exact Hb1|]. rewrite (proj2 (Z.eqb_eq _ _)) by exact E. unfold halt, emit. wp_steps. by left. }
  destruct (world_exits Hpid) as (k & Hex & Hc).
  assert (exits s1 k p idle b1 c1 t (fam p) R W S) as Hex1.
  { destruct Hex as [H1 (H2 & H2' & H2'') H3 _ H5 H6 H7 [_ Ht Hok] H9 H10 H11 H12 H13]. split; try done.
    - split; [exact H2|]. split; [exact H2'|]. by rewrite Ho.
    - intros a Ha. destruct H6 as (_ & _ & Hpl). rewrite Ho by (by intros ->). by apply H7.
    - split; [|by rewrite Ec|exact Hok]. apply current_ctx_Some. exists p, b1. done.
    - by destruct H9.
    - eapply sched_inv_keeps; [exact H10|]. intros a ba _ Hba. destruct (decide (a = p)) as [->|]; [|exists ba; by rewrite Ho].
      exists b1. split; [exact Hb1|]. pose proof (ru_block _ _ _ _ _ _ _ Hru). by simplify_eq.
    - intros a Ha. unfold exited. rewrite Ho; [by apply H12|]. intros ->. rewrite elem_of_cons in Ha. by destruct Ha.
    - destruct H13 as (bn & ks1 & Hbn & Hr). exists bn, ks1. split; [|exact Hr]. rewrite Ho; [exact Hbn|exact left_next]. }
  assert (heap_ok (k_store s1)) as Hh1 by (apply heap_ok_insert; [apply Hw|by eexists; apply Hru]).
  eapply wp_mono; [apply wp_tidy; [apply tidy_KernelExit|exact Hh1|]; apply (KernelExit_ok _ _ _ _ _ _ _ _ _ _ _ Hex1 None (or_introl eq_refl))|].
  intros f s' [[-> Hd] Hh].
  assert (forall a, after_exit s1 p b1 (fam p) (exit_code_of b1 None) a = after_exit s p b1 (fam p) (exit_code_of b1 None) a) as Ea.
  { intros a. unfold after_exit. case_decide; [done|]. by rewrite Ho. }
  assert (exit_done s p idle b1 t (fam p) R W S (exit_code_of b1 None) s') as Hd'.
  { destruct Hd as [D1 D2 D3 D4 D5 D6 D7 D8 D9 D10]. split; try done.
    - intros a Hn. rewrite <- Ea. by apply D3.
    - rewrite <- Ea. exact D4. }
  destruct (left_world Hpid _ _ b1 eq_refl Hd' Hh k Hc) as (Hw' & Hu & Hc'). right. by do 5 eexists.
Qed.
End exit.
