(* ===== verification/ProcessFork.v ===== *)
(** * Fork in the world of processes

    [KernelFork] adds a process to the world, the last child of the one that
    made it, or leaves the world as it was.  The call is in [Processes], the
    world in [ProcessWorld]. *)

From S2P Require Import Prelude Machine FrameTracking Pcb Paging KernelMemory UserMemory AddressSpace Fifo SleepHeap Scheduler Waiters PipeBuffer PipeTable Locks Frame Terminals Kernel DemoKernel Switching PipeCalls TtyCalls Synchronization LoadProgram Syscalls HeapFrame UserBuffers PipeWorld Processes WaitExit Exiting ProcessWorld ProcessCalls.

(** A part of a table that maps the same, with every entry in use, is the same. *)
Lemma zslice_same t t' a k l :
  same_maps t t' -> zlen t' = zlen t -> zslice t a k = Some l ->
  (forall i, a <= i < a + k -> is_Some (maps t i)) -> zslice t' a k = Some l.
Proof.
  intros Hs Hl. unfold zslice. rewrite Hl. case_decide as Hr; [|done]. intros [= <-] Hm. f_equal.
  unfold zlen in *. apply list_eq. intros i. destruct (decide (i < Z.to_nat k)%nat) as [Hi|Hi].
  2: { rewrite !lookup_ge_None_2; [done|rewrite length_take; lia..]. }
  rewrite !lookup_take_lt, !lookup_drop by lia.
  destruct (Hm (a + Z.of_nat i)) as [x Hx]; [lia|]. pose proof (Hs (a + Z.of_nat i)) as E. rewrite Hx in E.
  unfold maps in Hx, E. rewrite zget_nonneg in Hx, E by lia.
  replace (Z.to_nat a + i)%nat with (Z.to_nat (a + Z.of_nat i)) by lia.
  destruct (t' !! Z.to_nat (a + Z.of_nat i)) as [[v1 q1 f1]|], (t !! Z.to_nat (a + Z.of_nat i)) as [[v2 q2 f2]|]; simpl in *; try done.
  destruct v1, v2; simpl in *; try done. congruence.
Qed.

(** The children when [p] has made [n]. *)
Definition with_child (fam : addr -> list addr) (p n a : addr) : list addr :=
  if decide (a = p) then fam p ++ [n] else if decide (a = n) then [] else fam a.

Section fork.
Context {hw : Machine} {hw_ok : MachineOk} {pids : PidHelper}.
Context (idle p : addr) (fam : addr -> list addr) (R W S : list addr) (s : kstate)
  (b : pcb) (c : mem_ctx_t) (t ks : list pte).
Hypothesis Hw : world idle p fam R W S s.
Hypothesis Hi : p <> idle.
Hypothesis Hp : p ∉ R ++ W ++ S.
Hypothesis Hru : running_ok p fam s b c t ks.

Let n : addr := st_next (k_store s).
Let A : list addr := members idle p R W S.
Let free : gset Z := free_set (m_frames (k_mem s)).

(** The stack goes from the stack pointer to the top of region 1, above the
    break and not next to it. *)
Definition stack_clear (u : UserContext) (c : mem_ctx_t) (t : list pte) : Prop :=
  curr_brk_page c < vpn_of (uc_sp u) <= REGION1_LIMIT_VPN /\ maps t (curr_brk_page c - REGION1_BASE_VPN) = None /\
  forall vpn, vpn_of (uc_sp u) <= vpn < REGION1_LIMIT_VPN ->
    exists f q, maps t (vpn - REGION1_BASE_VPN) = Some (f, q) /\ Z.land q PROT_READ <> 0.
Hypothesis Hst : stack_clear (p_uc b) c t.

Lemma stack_forkable : forkable t c (vpn_of (uc_sp (p_uc b))).
Proof.
  destruct Hst as (Hsp & Hn & Hm). destruct (im_layout _ _ _ _ (ru_ok _ _ _ _ _ _ _ Hru)) as [Ht Hd Hb Hlm].
  split; try done; try lia. intros vpn [Hv|Hv]; [by apply Hlm|by apply Hm].
Qed.
Lemma world_forks : forks s p b c t (fam p) R W S.
Proof.
  destruct Hw as [(Hr & Hid & Hcx) Hsc Hfa _ Hke _ _ Hhe _]. split; try done; try apply Hru.
  - apply stack_forkable.
  - intros i Hi'. assert (i = idle) as -> by congruence.
    destruct (fm_alive _ _ _ _ Hfa idle) as (bi & ? & _); [by left|by eexists].
  - by apply heap_ok_fresh.
  - apply Hhe.
Qed.

Lemma new_unused : st_pcbs (k_store s) !! n = None.
Proof. apply heap_ok_fresh, Hw. Qed.
Lemma new_no_member : n ∉ A.
Proof. intros Hn. destruct (world_block _ _ _ _ _ _ _ n Hw Hn) as [b' Hb']. by rewrite new_unused in Hb'. Qed.
Lemma new_no_child a : a ∈ A -> n ∉ fam a.
Proof. intros Ha Hn. destruct (fm_live _ _ _ _ (wd_family _ _ _ _ _ _ _ Hw) a n Ha Hn) as [? E]. by rewrite new_unused in E. Qed.
Lemma new_other : n <> p.
Proof. intros E. apply new_no_member. rewrite E. apply member_running. Qed.

(** ** The members of before *)
Section after.
Context (s' : kstate) (b' : pcb) (t' : list pte).
Hypothesis Hb' : st_pcbs (k_store s') !! p = Some b'.
Hypothesis Hctx : p_mem_ctx b' = set_region1_pt (Some t') c.
Hypothesis Hksp : p_ks_pt b' = p_ks_pt b.
Hypothesis Hstate : p_state b' = p_state b.
Hypothesis Hpar : has_parent (p_relations b') = has_parent (p_relations b).
Hypothesis Hsame : same_maps t t'.
Hypothesis Htok : table_ok (T := region1_table) (m_frames (k_mem s')) t'.
Hypothesis Hoth : others_same s p s'.
Hypothesis Hnum : NUM_FRAMES (m_frames (k_mem s')) = NUM_FRAMES (m_frames (k_mem s)).
Hypothesis Hsub : free_set (m_frames (k_mem s')) ⊆ free.
Hypothesis Hr0 : same_maps (m_region0_pt (k_mem s)) (m_region0_pt (k_mem s')).

Lemma kept_block a : a <> p -> a <> n -> core <$> st_pcbs (k_store s') !! a = core <$> st_pcbs (k_store s) !! a.
Proof.
  intros Hap Han. pose proof (Hoth a Hap Han) as E.
  destruct (st_pcbs (k_store s') !! a), (st_pcbs (k_store s) !! a); simpl in *; try done.
  apply (inj Some) in E. f_equal. apply (f_equal core) in E. exact E.
Qed.
Lemma kept_exited a : a <> n -> exited (k_store s') a = exited (k_store s) a.
Proof.
  intros Han. unfold exited. destruct (decide (a = p)) as [->|Hap].
  - by rewrite Hb', (ru_block _ _ _ _ _ _ _ Hru), Hstate.
  - pose proof (Hoth a Hap Han) as E.
    destruct (st_pcbs (k_store s') !! a), (st_pcbs (k_store s) !! a); simpl in *; try done.
    apply (inj Some), (f_equal p_state) in E. simpl in E. by rewrite E.
Qed.
Lemma kept_image a c0 t0 ks0 : a ∈ A -> a <> p -> image (k_store s) a c0 t0 ks0 -> image (k_store s') a c0 t0 ks0.
Proof.
  intros Ha Hap (ba & Hba & <- & Ht & Hks). assert (a <> n) as Han by (intros ->; by apply new_no_member).
  pose proof (kept_block a Hap Han) as E. rewrite Hba in E. apply fmap_Some in E as (ba' & Hba' & E). exists ba'.
  pose proof (f_equal p_mem_ctx E) as E1. pose proof (f_equal p_ks_pt E) as E2. simpl in E1, E2. by rewrite <- E1, <- E2.
Qed.
Lemma kept_self : image (k_store s') p (set_region1_pt (Some t') c) t' ks.
Proof.
  exists b'. do 3 (split; [done|]). rewrite Hksp. destruct (ru_image _ _ _ _ _ _ _ Hru) as (b0 & Hb0 & _ & _ & Hks).
  rewrite (ru_block _ _ _ _ _ _ _ Hru) in Hb0. by simplify_eq.
Qed.
Lemma kept_owns a x : a ∈ A -> owns (k_store s') a x <-> owns (k_store s) a x.
Proof.
  intros Ha. destruct (decide (a = p)) as [->|Hap].
  - rewrite (owns_image _ _ _ _ _ _ kept_self), (owns_image _ _ _ _ _ _ (ru_image _ _ _ _ _ _ _ Hru)).
    unfold same_maps in Hsame. by setoid_rewrite Hsame.
  - destruct (my_image _ _ _ _ (wd_memory _ _ _ _ _ _ _ Hw) a Ha) as (c0 & t0 & ks0 & Him & _).
    by rewrite (owns_image _ _ _ _ _ _ Him), (owns_image _ _ _ _ _ _ (kept_image _ _ _ _ Ha Hap Him)).
Qed.
Lemma kept_image_ok a : a ∈ A -> exists c0 t0 ks0, image (k_store s') a c0 t0 ks0 /\ image_ok (m_frames (k_mem s')) c0 t0 ks0.
Proof.
  intros Ha. pose proof (wd_memory _ _ _ _ _ _ _ Hw) as Hm.
  assert (forall x, x ∉ free -> x ∉ free_set (m_frames (k_mem s'))) as Hused by set_solver.
  destruct (decide (a = p)) as [->|Hap].
  - exists (set_region1_pt (Some t') c), t', ks. split; [apply kept_self|].
    destruct (ru_ok _ _ _ _ _ _ _ Hru) as [Hlo _ Hks Hmap Hap]. split; try done.
    + by eapply layout_ok_same.
    + eapply table_ok_frames; [exact Hks|apply Htok|exact Hnum|]. intros i x q E. apply Hused. by apply (to_used _ _ Hks) in E.
    + intros i j x q q' E. rewrite Hsame in E. by apply (Hap i j x q q').
  - destruct (my_image _ _ _ _ Hm a Ha) as (c0 & t0 & ks0 & Him & Hok). exists c0, t0, ks0. split; [by apply kept_image|].
    eapply image_ok_frames; [exact Hok|apply Htok|exact Hnum|]. intros x i q E. apply Hused.
    apply (owned_used _ _ _ _ _ _ Hm Ha). apply (owns_image _ _ _ _ _ _ Him). eauto.
Qed.
Lemma kept_kernel_owns x : kernel_owns (m_region0_pt (k_mem s')) x <-> kernel_owns (m_region0_pt (k_mem s)) x.
Proof. unfold kernel_owns. unfold same_maps in Hr0. by setoid_rewrite Hr0. Qed.
Lemma kept_stack : kernel_ok (k_mem s') ->
  zslice (m_region0_pt (k_mem s')) K_STACK_BASE_VPN K_STACK_VPNS = p_ks_pt b'.
Proof.
  intros Hk'. destruct (wd_stack _ _ _ _ _ _ _ Hw) as (b0 & Hb0 & Hz). rewrite (ru_block _ _ _ _ _ _ _ Hru) in Hb0. injection Hb0 as <-.
  destruct kept_self as (b1 & Hb1 & _ & _ & Hks1). rewrite Hb' in Hb1. injection Hb1 as <-.
  rewrite Hks1. rewrite Hksp in Hks1. rewrite Hks1 in Hz. pose proof (wd_kernel _ _ _ _ _ _ _ Hw) as Hk.
  eapply zslice_same; [exact Hr0| |exact Hz|].
  - by rewrite (to_len _ _ (ko_table _ Hk)), (to_len _ _ (ko_table _ Hk')).
  - intros i Hir. destruct kstack_vpns_spec as (? & ? & ?).
    destruct (ko_stack _ Hk i) as (x & q & E & _); [unfold K_STACK_VPNS in *; lia|]. by eexists.
Qed.
Lemma kept_resume a : a ∈ A -> a <> p -> exists ba, st_pcbs (k_store s') !! a = Some ba /\ may_resume ba.
Proof.
  intros Ha Hap. destruct (wd_resume _ _ _ _ _ _ _ Hw a Ha Hap) as (ba & Hba & Hm).
  assert (a <> n) as Han by (intros ->; by apply new_no_member).
  pose proof (kept_block a Hap Han) as E. rewrite Hba in E. apply fmap_Some in E as (ba' & Hba' & E). exists ba'.
  split; [done|]. by eapply may_resume_core.
Qed.
Lemma kept_relations a ba : a ∈ A -> a <> p -> st_pcbs (k_store s') !! a = Some ba ->
  exists b0, st_pcbs (k_store s) !! a = Some b0 /\ p_relations ba = p_relations b0 /\ p_pid ba = p_pid b0.
Proof.
  intros Ha Hap Hba. assert (a <> n) as Han by (intros ->; by apply new_no_member).
  pose proof (kept_block a Hap Han) as E. rewrite Hba in E. symmetry in E. apply fmap_Some in E as (b0 & Hb0 & E).
  exists b0. split; [done|]. by apply (f_equal kin) in E as [= E1 E2].
Qed.
Lemma kept_dom a : a <> n -> is_Some (st_pcbs (k_store s') !! a) <-> is_Some (st_pcbs (k_store s) !! a).
Proof.
  intros Han. destruct (decide (a = p)) as [->|Hap]; [by rewrite Hb', (ru_block _ _ _ _ _ _ _ Hru)|].
  pose proof (Hoth a Hap Han) as E.
  destruct (st_pcbs (k_store s') !! a), (st_pcbs (k_store s) !! a); simpl in *; try done; by rewrite !is_Some_alt.
Qed.
End after.

(** ** Refused *)
Lemma refused_world s' :
  fork_refused s p b c t R W S s' -> heap_ok (k_store s') -> world idle p fam R W S s'.
Proof.
  intros [(t' & Hb' & [_ _ Htok] & Hsame) Hgone Hoth Hsc _ Hfree (Hk & E0 & Eb & Hnum) (Esc & Ecx) _] Hh.
  set (b' := set_p_uc _ _) in Hb'. fold n in Hgone.
  assert (same_maps (m_region0_pt (k_mem s)) (m_region0_pt (k_mem s'))) as Hr0 by (intros i; by rewrite E0).
  pose proof (wd_memory _ _ _ _ _ _ _ Hw) as Hm. pose proof new_no_member as HnA.
  assert (free_set (m_frames (k_mem s')) ⊆ free) as Hsub by (by rewrite Hfree).
  assert (p_mem_ctx b' = set_region1_pt (Some t') c) as Hctx.
  { unfold b', with_table. simpl. by rewrite (ru_ctx _ _ _ _ _ _ _ Hru). }
  split.
  - rewrite Esc, Ecx. split; [apply Hw|]. split; [apply Hw|done].
  - exact Hsc.
  - eapply family_same; [apply Hw|done| |].
    + intros a. destruct (decide (a = p)) as [->|Hap]; [by rewrite Hb', (ru_block _ _ _ _ _ _ _ Hru)|].
      destruct (decide (a = n)) as [->|Han]; [by rewrite Hgone, new_unused|]. pose proof (Hoth a Hap Han) as E.
      destruct (st_pcbs (k_store s') !! a), (st_pcbs (k_store s) !! a); simpl in *; try done.
      apply (inj Some), (f_equal kin) in E. f_equal. exact E.
    + intros a. destruct (decide (a = n)) as [->|Han]; [unfold exited; by rewrite Hgone, new_unused|].
      by eapply kept_exited.
  - assert (forall a x, a ∈ A -> owns (k_store s') a x <-> owns (k_store s) a x) as Ho by (intros a x; by eapply kept_owns).
    apply (memory_step _ _ _ _ _ _ _ _ Hm Hnum).
    + intros a Ha. by eapply kept_image_ok.
    + intros a x Ha Hx. left. split; [done|by apply Ho].
    + intros a a' x Ha Ha' Hf Hx%Ho _; [|done]. by apply (owned_used _ _ _ _ _ _ Hm Ha) in Hx as [? _].
    + intros x Hx [Hf|(a & Ha & Hxo)]; [by rewrite Hfree in Hx|]. exists a. split; [done|by apply Ho].
    + intros x. by apply kept_kernel_owns.
    + intros x (i & q & _ & E). by apply (to_used _ _ (ko_table _ (wd_kernel _ _ _ _ _ _ _ Hw))) in E.
  - exact Hk.
  - exists b'. split; [exact Hb'|]. by eapply kept_stack.
  - intros a Ha Hap. by eapply kept_resume.
  - exact Hh.
  - rewrite Eb. apply Hw.
Qed.

(** ** Done *)

(** There are frames for the pages and the kernel stack. *)
Hypothesis Hroom : pages_to_copy c (vpn_of (uc_sp (p_uc b))) + K_STACK_VPNS <= Z.of_nat (size free).

Section done.
Context (s' : kstate) (tn : list pte).
Hypothesis Hpages : forall j, match fork_prot c (vpn_of (uc_sp (p_uc b))) j with
  | Some prot => exists f ps q, maps tn j = Some (f, prot) /\ f ∈ free /\
      maps t j = Some (ps, q) /\ m_pmem (k_mem s') f = m_pmem (k_mem s) ps
  | None => maps tn j = None
  end.

Lemma new_frames x : (exists i q, maps tn i = Some (x, q)) -> x ∈ free.
Proof.
  intros (i & q & E). specialize (Hpages i). destruct (fork_prot _ _ i) as [prot|]; [|congruence].
  destruct Hpages as (f & ps & q' & E' & Hf & _). congruence.
Qed.
Lemma new_layout : layout_ok (set_region1_pt (Some tn) c) tn.
Proof.
  destruct (im_layout _ _ _ _ (ru_ok _ _ _ _ _ _ _ Hru)) as [Ht Hd Hb Hlm]. split; simpl; try done.
  intros vpn Hv. specialize (Hpages (vpn - REGION1_BASE_VPN)). destruct (fork_prot _ _ _) as [prot|] eqn:E.
  - destruct Hpages as (f & _ & _ & E' & _). exists f, prot. split; [done|]. unfold fork_prot, with_range in E.
    repeat case_decide; try done; injection E as <-; first [apply prot_rw|apply prot_rx].
  - exfalso. unfold fork_prot, with_range in E. repeat case_decide; try done. lia.
Qed.
(** The frames that are left hold the kernel stack. *)
Lemma room_left : K_STACK_VPNS <= Z.of_nat (size (free ∖ frames_of tn 0 REGION1_VPNS)).
Proof.
  destruct Hst as ((Hsp & Hsl) & _). destruct (im_layout _ _ _ _ (ru_ok _ _ _ _ _ _ _ Hru)) as [Ht Hd Hb _].
  set (B := REGION1_BASE_VPN) in *. set (sp := vpn_of (uc_sp (p_uc b))) in *.
  set (P := seqZ (txt_start_page c - B) (curr_brk_page c - txt_start_page c) ++ seqZ (sp - B) (REGION1_LIMIT_VPN - sp)).
  assert (size (frames_of tn 0 REGION1_VPNS) <= length P)%nat as Hle.
  { apply (size_frames_le tn). intros x (i & q & _ & E)%elem_of_frames_of. exists i, q. split; [|exact E].
    specialize (Hpages i). destruct (fork_prot c sp i) as [prot|] eqn:EP; [|congruence].
    unfold P. rewrite elem_of_app, !elem_of_seqZ. unfold fork_prot, with_range in EP. fold B in EP. repeat case_decide; try done; lia. }
  assert (size free <= size (free ∖ frames_of tn 0 REGION1_VPNS) + size (frames_of tn 0 REGION1_VPNS))%nat as Hsize.
  { rewrite <- size_union by set_solver. apply subseteq_size. intros x. rewrite elem_of_union, elem_of_difference.
    destruct (decide (x ∈ frames_of tn 0 REGION1_VPNS)); tauto. }
  unfold P in Hle. rewrite length_app, !length_seqZ in Hle. unfold pages_to_copy in Hroom. lia.
Qed.
End done.

Lemma forked_members a : a ∈ members idle p (R ++ [n]) W S <-> a ∈ A \/ a = n.
Proof. unfold A. rewrite !member_cases, elem_of_app, list_elem_of_singleton. tauto. Qed.

(** The family: what the caller and the new process have. *)
Lemma forked_family s' bn b' :
  others_same s p s' -> st_pcbs (k_store s') !! p = Some b' -> p_state b' = p_state b ->
  has_parent (p_relations b') = has_parent (p_relations b) -> p_pid b' = p_pid b ->
  rel_repr (p_relations b') (fam p ++ [n]) ->
  st_pcbs (k_store s') !! n = Some bn -> rel_repr (p_relations bn) [] -> has_parent (p_relations bn) = true ->
  p_state bn <> EXITED ->
  family_ok idle (with_child fam p n) (k_store s') (members idle p (R ++ [n]) W S).
Proof.
  intros Hoth Hb' Hs' Hpar Hpid Hr Hn Hrn Hpn Hsn. pose proof (wd_family _ _ _ _ _ _ _ Hw) as Hfa.
  pose proof (member_running idle p R W S) as HpA. fold A in HpA, Hfa. pose proof new_other as Hnp. pose proof new_no_member as HnA.
  assert (forall a, a ∈ A -> a <> n) as HAn by (by intros a Ha ->).
  assert (forall a k, a ∈ A \/ a = n -> k ∈ with_child fam p n a <-> a ∈ A /\ k ∈ fam a \/ a = p /\ k = n) as Hin.
  { intros a k Ha. unfold with_child. repeat case_decide; subst; rewrite ?elem_of_app, ?list_elem_of_singleton, ?elem_of_nil; intuition. }
  assert (forall a, a ∈ A -> n ∉ fam a) as Hnc by apply new_no_child.
  split.
  - intros a [Ha| ->]%forked_members.
    + unfold with_child. case_decide; [subst; by exists b'|]. rewrite decide_False by auto.
      destruct (fm_alive _ _ _ _ Hfa a Ha) as (ba & Hba & Hra).
      destruct (proj2 (kept_dom s' b' Hb' Hoth a (HAn a Ha))) as [ba' Hba']; [by eexists|]. exists ba'. split; [done|].
      destruct (kept_relations s' Hoth a ba') as (b0 & Hb0 & -> & _); [done..|]. by assert (b0 = ba) as -> by congruence.
    + exists bn. split; [done|]. unfold with_child. by rewrite decide_False, decide_True.
  - intros a [Ha| ->]%forked_members; [|unfold exited; rewrite Hn; by apply bool_decide_eq_false].
    rewrite (kept_exited s' b' Hb' Hs' Hoth a (HAn a Ha)). by apply Hfa.
  - intros a [Ha| ->]%forked_members.
    + destruct (fm_nodup _ _ _ _ Hfa a Ha) as [Hnd Hself]. split; [|rewrite Hin by (by left); intuition congruence].
      unfold with_child. case_decide as E; [subst|by rewrite decide_False by auto]. apply NoDup_app. split; [done|].
      split; [|apply NoDup_singleton]. intros k Hk ->%list_elem_of_singleton. by apply (Hnc p).
    + unfold with_child. rewrite decide_False, decide_True by done. split; [constructor|apply not_elem_of_nil].
  - intros a k Ha%forked_members [[HaA Hk]|[-> ->]]%Hin; [|by eexists|done].
    apply (kept_dom s' b' Hb' Hoth k); [intros ->; by apply (Hnc a)|]. by eapply (fm_live _ _ _ _ Hfa).
  - intros a a' k Ha%forked_members Ha'%forked_members [[HaA Hk]|[-> ->]]%Hin [[HaA' Hk']|[-> ?]]%Hin; try done.
    + by eapply (fm_apart _ _ _ _ Hfa).
    + subst. by destruct (Hnc a HaA).
    + by destruct (Hnc a' HaA').
  - assert (forall x, x ∈ A -> (exists w, w ∈ members idle p (R ++ [n]) W S /\ x ∈ with_child fam p n w) <->
      exists w, w ∈ A /\ x ∈ fam w) as Hsame.
    { intros x Hx. split.
      - intros (w & Hw'%forked_members & [?|[_ ->]]%Hin); [by exists w|done|done].
      - intros (w & HwA & Hk). exists w. rewrite forked_members. split; [by left|]. rewrite Hin by (by left). by left. }
    intros a ba [Ha| ->]%forked_members Hba.
    + rewrite Hsame by done. destruct (decide (a = p)) as [->|Hap].
      * assert (ba = b') as -> by congruence. rewrite Hpar, Hpid. apply (fm_parent _ _ _ _ Hfa p b HpA). apply Hru.
      * destruct (kept_relations s' Hoth a ba) as (b0 & Hb0 & -> & ->); [done..|]. by apply (fm_parent _ _ _ _ Hfa).
    + assert (ba = bn) as -> by congruence. split; [by rewrite Hpn|]. intros _ _ _. exists p. rewrite forked_members.
      split; [by left|]. apply Hin; [by left|by right].
  - intros k Hk Hno. rewrite forked_members in Hno. assert (k ∉ A /\ k <> n) as [HkA Hkn] by tauto.
    rewrite (kept_dom s' b' Hb' Hoth k Hkn) in Hk.
    rewrite (kept_exited s' b' Hb' Hs' Hoth k Hkn). destruct (fm_exited _ _ _ _ Hfa k Hk HkA) as (Hex & w & HwA & Hkw).
    split; [done|]. exists w. rewrite forked_members. split; [by left|]. apply Hin; [by left|by left].
Qed.

(** The new process's table and kernel stack. *)
Lemma new_image_ok s' tn kstk :
  (forall j, match fork_prot c (vpn_of (uc_sp (p_uc b))) j with
   | Some prot => exists f ps q, maps tn j = Some (f, prot) /\ f ∈ free /\
       maps t j = Some (ps, q) /\ m_pmem (k_mem s') f = m_pmem (k_mem s) ps
   | None => maps tn j = None
   end) ->
  table_ok (T := region1_table) (m_frames (k_mem s')) tn -> zlen kstk = K_STACK_VPNS ->
  NUM_FRAMES (m_frames (k_mem s')) = NUM_FRAMES (m_frames (k_mem s)) ->
  (forall i, 0 <= i < K_STACK_VPNS -> exists f ps q,
     maps kstk i = Some (f, Z.lor PROT_READ PROT_WRITE) /\ f ∈ free ∖ frames_of tn 0 REGION1_VPNS /\
     maps (m_region0_pt (k_mem s)) (K_STACK_BASE_VPN + i) = Some (ps, q) /\
     m_pmem (k_mem s') f = m_pmem (k_mem s) ps) ->
  (forall i j f q q', maps kstk i = Some (f, q) -> maps kstk j = Some (f, q') -> i = j) ->
  free_set (m_frames (k_mem s')) = free ∖ frames_of tn 0 REGION1_VPNS ∖ frames_of kstk 0 K_STACK_VPNS ->
  image_ok (m_frames (k_mem s')) (set_region1_pt (Some tn) c) tn kstk.
Proof.
  intros Hpages Htn Hlen Hnum Hks Hinj Hfree.
  assert (forall i x q, maps kstk i = Some (x, q) ->
    0 <= i < K_STACK_VPNS /\ x ∈ free ∖ frames_of tn 0 REGION1_VPNS /\ q = Z.lor PROT_READ PROT_WRITE) as Hin.
  { intros i x q E. pose proof (maps_range _ _ _ E) as Hr. rewrite Hlen in Hr. split; [done|].
    destruct (Hks i Hr) as (f & _ & _ & E' & Hf & _). rewrite E in E'. by injection E' as -> ->. }
  split.
  - eapply new_layout. exact Hpages.
  - exact Htn.
  - split.
    + apply Htn.
    + exact Hlen.
    + intros i x q (_ & [Hx%free_set_range _]%elem_of_difference & _)%Hin. unfold frame_range in *. by rewrite Hnum.
    + intros i x q E. rewrite Hfree. intros [_ Hn]%elem_of_difference. apply Hn, elem_of_frames_of. exists i, q.
      split; [by apply (Hin i x q)|exact E].
    + exact Hinj.
  - intros i Hr. destruct (Hks i Hr) as (f & _ & _ & E & _). exists f. eexists. split; [exact E|apply prot_rw].
  - intros i j x q q' E (_ & [_ Hx]%elem_of_difference & _)%Hin. apply Hx, elem_of_frames_of. exists i, q. split; [|exact E].
    apply maps_range in E. by rewrite (to_len _ _ Htn) in E.
Qed.

Lemma forked_world s' :
  fork_done s p b c t (fam p) R W S s' -> heap_ok (k_store s') -> world idle p (with_child fam p n) (R ++ [n]) W S s'.
Proof.
  intros [(r & t' & Hb' & Hr & Hrp & [_ _ Htok] & Hsame)
    (tn & kc & kstk & nx & Hn & Hpages & Htn & Hstk) Hoth Hsc _ (Hk & Hr0 & Eb) (Er & Eid & Ecx & Hnum) _] Hh.
  set (b' := set_p_relations r _) in Hb'. fold n in Hn. fold free in Hpages, Hstk. cbv zeta in Hstk.
  rewrite decide_True in Hstk by (split; [apply Hw|by eapply room_left]).
  destruct Hstk as (-> & Hlen & Hks & Hinj & Hfree). fold b' in Hb'.
  pose proof (wd_memory _ _ _ _ _ _ _ Hw) as Hm.
  assert (free_set (m_frames (k_mem s')) ⊆ free) as Hsub by set_solver.
  assert (p_mem_ctx b' = set_region1_pt (Some t') c) as Hctx.
  { unfold b', with_table. simpl. by rewrite (ru_ctx _ _ _ _ _ _ _ Hru). }
  assert (image (k_store s') n (set_region1_pt (Some tn) c) tn kstk) as Hnew.
  { eexists. split; [exact Hn|]. split; [|done]. simpl. by destruct c. }
  pose proof (new_image_ok s' tn kstk Hpages Htn Hlen Hnum Hks Hinj Hfree) as Hnewok.
  assert (forall x, owns (k_store s') n x <-> exists i q, maps tn i = Some (x, q) \/ maps kstk i = Some (x, q)) as Hown
    by (intros x; eapply owns_image; exact Hnew).
  assert (forall a x, a ∈ A -> owns (k_store s') a x <-> owns (k_store s) a x) as Ho by (intros a x; by eapply kept_owns).
  assert (forall x, owns (k_store s') n x -> x ∈ free) as Hnf.
  { intros x (i & q & [E|E])%Hown; [apply (new_frames s' tn Hpages); eauto|].
    pose proof (maps_range _ _ _ E) as Hir. rewrite Hlen in Hir. destruct (Hks i Hir) as (f & _ & _ & E' & Hf & _).
    assert (f = x) as <- by congruence. set_solver. }
  split.
  - split; [exact Er|]. split; [rewrite Eid; apply Hw|exact Ecx].
  - exact Hsc.
  - by eapply forked_family; [exact Hoth|exact Hb'|done|exact Hrp|done|exact Hr|exact Hn|apply fresh_pcb_children|..].
  - apply (memory_step _ _ _ _ _ _ _ _ Hm Hnum).
    + intros a [Ha| ->]%forked_members; [by eapply kept_image_ok|]. by do 3 eexists.
    + intros a x [Ha| ->]%forked_members Hx; [left; split; [done|by apply Ho]|right; by apply Hnf].
    + intros a a' x [Ha| ->]%forked_members [Ha'| ->]%forked_members Hf Hx Hx'; try done;
        first [apply Ho in Hx; [|done]; by apply (owned_used _ _ _ _ _ _ Hm Ha) in Hx as [? _]
              |apply Ho in Hx'; [|done]; by apply (owned_used _ _ _ _ _ _ Hm Ha') in Hx' as [? _]].
    + intros x Hx [Hf|(a & Ha & Hxo)].
      * exists n. split; [apply forked_members; by right|]. apply Hown. rewrite Hfree in Hx.
        destruct (decide (x ∈ frames_of tn 0 REGION1_VPNS)) as [(i & q & _ & E)%elem_of_frames_of|Hnt]; [eauto|].
        destruct (decide (x ∈ frames_of kstk 0 K_STACK_VPNS)) as [(i & q & _ & E)%elem_of_frames_of|Hns]; [eauto|]. set_solver.
      * exists a. split; [apply forked_members; by left|by apply Ho].
    + intros x. by apply kept_kernel_owns.
    + intros x (i & q & _ & E). by apply (to_used _ _ (ko_table _ (wd_kernel _ _ _ _ _ _ _ Hw))) in E.
  - exact Hk.
  - exists b'. split; [exact Hb'|]. by eapply kept_stack.
  - intros a [Ha| ->]%forked_members Hap; [by eapply kept_resume|]. eexists. split; [exact Hn|by left].
  - exact Hh.
  - rewrite Eb. apply Hw.
Qed.
End fork.

(** What [KernelFork] needs of the caller: its stack is where its stack pointer
    says, and frames run out for the pages or not at all.  (When they run out
    for the kernel stack the new process has none: see [Processes.dn_new].) *)
Definition fork_clear {hw : Machine} (u : UserContext) (c : mem_ctx_t) (t : list pte) (f : frames_t) : Prop :=
  stack_clear u c t /\
  let frees := Z.of_nat (size (free_set f)) in
  frees < pages_to_copy c (vpn_of (uc_sp u)) \/ pages_to_copy c (vpn_of (uc_sp u)) + K_STACK_VPNS <= frees.

Lemma KernelFork_world {hw : Machine} {hw_ok : MachineOk} {pids : PidHelper} idle p fam R W S s b c t ks :
  world idle p fam R W S s -> p <> idle -> p ∉ R ++ W ++ S -> running_ok p fam s b c t ks ->
  fork_clear (p_uc b) c t (m_frames (k_mem s)) -> wp (returning (KernelFork p)) (settled idle) s.
Proof.
  intros Hw Hi Hp Hru [Hst Hfr]. unfold returning. wp_step.
  eapply wp_mono; [apply wp_tidy; [apply tidy_KernelFork|apply Hw|]; eapply KernelFork_ok; by eapply world_forks|].
  intros _ s' [Hres Hh]. wp_step. change (heap_ok (k_store s')) in Hh. case_decide as Hle.
  - eapply settled_returned; [eapply forked_world; eauto; cbv zeta in Hfr; lia|].
    right. rewrite <- app_assoc. intros Hin. assert (p = st_next (k_store s)) as E by set_solver.
    apply (new_other idle p fam R W S s Hw). by rewrite E.
  - eapply settled_returned; [by eapply refused_world|by right].
Qed.
