(* ===== verification/ProcessExec.v ===== *)
(** * Exec in the world of processes

    [KernelExec] gives the caller other pages, out of the frames it had and the
    free ones, and leaves everything else alone; or the process has lost its
    program and ends.  The call is in [Exec], the program in [ExecImage]. *)

From S2P Require Import Prelude Machine FrameTracking Pcb Paging KernelMemory UserMemory AddressSpace Fifo SleepHeap Scheduler Waiters PipeBuffer PipeTable Locks Frame Terminals Kernel DemoKernel Switching PipeCalls TtyCalls Synchronization LoadProgram Syscalls HeapFrame UserBuffers PipeWorld Processes WaitExit Exiting ExecImage Exec ProcessWorld ProcessCalls ProcessExit.

Section exec.
Context {hw : Machine} {hw_ok : MachineOk} {files : Files} (idle : addr).

(** What a call of [Exec] needs of the caller with the context [u], the pages
    [t] and the memory [pm], when [f] are the frames: the name cannot be read,
    or the program is unfit, or its text and data are next to each other (when
    it can be loaded at all: frames may run out, and the file may be cut
    short). *)
Inductive exec_clear (u : UserContext) (t : list pte) (pm : Z -> Z -> Z) (f : frames_t) : Prop :=
  | ec_bad : uc_reg0 u = 0 \/ ~ accessible t (to_i32 (uc_reg0 u)) false -> exec_clear u t pm f
  | ec_unfit name args : asks u t pm name args -> unfit name args -> exec_clear u t pm f
  | ec_loads name args fd li :
      asks u t pm name args -> open_file name = Some fd -> LoadInfo fd = Some li -> loadable fd li args ->
      (pages_of li args <= Z.of_nat (size (free_set f ∪ frames_of t 0 REGION1_VPNS)) -> whole fd li ->
        text_page li + li_t_npg li = data_page li) ->
      exec_clear u t pm f.

(** The pages of a loaded program. *)
Lemma loaded_layout fd li args t pm c :
  loadable fd li args -> text_page li + li_t_npg li = data_page li -> program_image fd li args t pm ->
  layout_ok (loaded_ctx li t c) t.
Proof.
  intros Hlo Hgap Him. pose proof (load_order fd li args Hlo) as (O1 & O2 & O3 & O4 & O5 & O6 & _).
  pose proof Hlo as [_ _ _ (Ht & Hn & _) _ _ _ _].
  split; simpl; try lia. intros vpn Hv. pose proof (im_pages _ _ _ _ _ Him (vpn - REGION1_BASE_VPN)) as E.
  assert (exists q, page_prot li args (vpn - REGION1_BASE_VPN) = Some q /\ Z.land q PROT_READ <> 0) as (q & Eq & Hq).
  { unfold page_prot. destruct (decide (text_page li <= vpn - REGION1_BASE_VPN < text_page li + li_t_npg li)).
    - eexists. split; [done|apply prot_rx].
    - rewrite decide_True by lia. eexists. split; [done|apply prot_rw]. }
  rewrite Eq in E. apply fmap_Some in E as ([f q'] & E & ->). by exists f, q'.
Qed.

(** The running process with the loaded program. *)
Lemma loaded_world p fam R W S s b c t ks args fd li t' m' :
  world idle p fam R W S s -> running_ok p fam s b c t ks -> loadable fd li args ->
  text_page li + li_t_npg li = data_page li -> loaded (k_mem s) p b t args fd li t' m' -> heap_ok (m_store m') ->
  world idle p fam R W S (km s m' (k_sched s)).
Proof.
  intros Hw Hru Hlo Hgap [Hb' [_ Ht' Hok'] Him Htot Hoth _ (E0 & Eb & Ec & Ev & En)] Hh.
  assert (p_mem_ctx b = c) as <- by apply Hru. set (b2 := set_p_uc _ _) in Hb'.
  eapply (own_world _ _ _ _ _ _ _ _ b2 _ (loaded_ctx li t' (p_mem_ctx b)) _ t'); [exact Hw|exact Hru|].
  split; [|split; [reflexivity|exact Ht']|done|done|done|..]; try done.
  - apply map_eq. intros a. destruct (decide (p = a)) as [<-|Ha]; [by rewrite lookup_insert_eq|].
    rewrite lookup_insert_ne by done. by apply Hoth.
  - by eapply loaded_layout.
Qed.

(** A process that lost its program ends. *)
Lemma unloaded_world p fam R W S s b c t ks args t' m' :
  world idle p fam R W S s -> p <> idle -> p ∉ R ++ W ++ S -> running_ok p fam s b c t ks ->
  unloaded (k_mem s) p b t args t' m' -> heap_ok (m_store m') -> wp (KernelExit None) (settled idle) (km s m' (k_sched s)).
Proof.
  intros Hw Hi Hp Hru [Hb' [_ Ht' Hok'] Htot Hoth _ (E0 & Eb & Ec & Ev & En)] Hh.
  assert (p_mem_ctx b = c) as <- by apply Hru. set (c1 := set_region1_pt (Some t') (p_mem_ctx b)) in *.
  set (b1 := set_p_uc _ _) in Hb'. set (B := REGION1_BASE_VPN). set (c2 := set_layout B B B B c1). set (b2 := set_p_mem_ctx c2 b1).
  set (m2 := with_block p b2 m').
  assert (heap_ok (m_store m2)) as Hh2 by (apply heap_ok_insert; [exact Hh|by eexists]).
  assert (own_change p s b b2 (p_mem_ctx b) c2 t t' m2) as Hoc.
  { split; try done.
    - apply map_eq. intros a. change (st_pcbs (m_store m2)) with (<[p := b2]> (st_pcbs (m_store m'))).
      destruct (decide (p = a)) as [<-|Ha]; [by rewrite !lookup_insert_eq|]. rewrite !lookup_insert_ne by done. by apply Hoth.
    - destruct region1_vpns_spec as [Hv _]. split; simpl; try lia. unfold REGION1_LIMIT_VPN, B. lia. }
  pose proof (own_world _ _ _ _ _ _ _ _ _ _ _ _ _ _ _ Hw Hru Hoc) as Hw2.
  pose proof (own_running _ _ _ _ _ _ _ _ _ _ _ _ _ _ _ Hw Hru Hoc) as Hru2.
  pose proof (exit_relaid idle p fam R W S _ b2 c2 t' ks Hw2 Hi Hp Hru2 c1 eq_refl) as Hres.
  assert (km (km s m2 (k_sched s)) (with_block p (set_p_mem_ctx c1 b2) (k_mem (km s m2 (k_sched s)))) (k_sched (km s m2 (k_sched s))) =
    km s m' (k_sched s)) as E; [|by rewrite E in Hres].
  unfold km, m2, with_block, set_m_store. simpl. f_equal. unfold set_pcbs. simpl. rewrite insert_insert_eq.
  rewrite insert_id; [by destruct m' as [[] ]|]. rewrite Hb'. by destruct b.
Qed.

Lemma exec_error_world p fam R W S s b :
  world idle p fam R W S s -> st_pcbs (k_store s) !! p = Some b -> world idle p fam R W S (exec_error s p b).
Proof.
  intros Hw Hb. assert (exec_error s p b = km s (with_block p (set_p_uc (uc_set_reg0 ERROR (p_uc b)) b) (k_mem s)) (k_sched s)) as -> by done.
  by eapply world_own.
Qed.

Lemma KernelExec_world p fam R W S s b c t ks :
  world idle p fam R W S s -> p <> idle -> p ∉ R ++ W ++ S -> running_ok p fam s b c t ks ->
  exec_clear (p_uc b) t (m_pmem (k_mem s)) (m_frames (k_mem s)) -> wp (KernelExec p) (settled idle) s.
Proof.
  intros Hw Hi Hp Hru Hclear. destruct kill_spec as [Hk1 Hk2]. assert (unqueued idle p R W S) as Hu by by right.
  assert (p_mem_ctx b = c) as Ec by apply Hru. pose proof (wd_roles _ _ _ _ _ _ _ Hw) as (Hr & _ & Hcx).
  assert (execs s p b t) as Hx by (split; [exact Hr|apply Hru|rewrite Ec; apply Hru]).
  assert (wp (returning (set_reg0 p ERROR)) (settled idle) s) as Herr by by eapply returning_world.
  destruct Hclear as [Hbad|name args Hask Hun|name args fd li Hask Ho Hli Hlo Hgap].
  - by eapply exec_bad_name.
  - eapply exec_checks; [exact Hx|exact Hask|]. apply LoadProgram_unfit; [done|].
    by rewrite (proj2 (Z.eqb_neq ERROR KILL)), Z.eqb_refl, k_mem_same by congruence.
  - eapply exec_checks; [exact Hx|exact Hask|].
    assert (starts (k_mem s) p b t name args fd li) as Hl.
    { split; try done; [apply Hru|rewrite Ec; apply Hru|apply Hw]. }
    eapply wp_mono; [apply wp_tidy; [apply tidy_LoadProgram|apply Hw|by eapply LoadProgram_result]|].
    intros r m' [(t' & Hd) Hh]. assert (set_k_mem m' s = km s m' (k_sched s)) as -> by done.
    destruct Hd as [(-> & [Hsz Hwh] & Hd)|(-> & _ & Hd)].
    + rewrite (proj2 (Z.eqb_neq SUCCESS KILL)) by congruence. cbn [Z.eqb SUCCESS ERROR]. wp_step.
      eapply settled_returned; [|exact Hu]. eapply loaded_world; eauto.
    + rewrite Z.eqb_refl. by eapply unloaded_world.
Qed.
End exec.
