(* ===== verification/ProcessClock.v ===== *)
(** * The clock in the world of processes

    The clock trap wakes the waiting parents that have an exited child and the
    sleepers whose time has come, and gives the processor to the next process:
    [trap_clock_handler] of [interrupt.c], from [Interrupt]. *)

From S2P Require Import Prelude Machine FrameTracking Pcb Paging KernelMemory UserMemory AddressSpace Fifo SleepHeap Scheduler Waiters PipeBuffer PipeTable Locks Frame Terminals Kernel DemoKernel Switching PipeCalls TtyCalls Synchronization LoadProgram Syscalls HeapFrame UserBuffers PipeWorld Processes WaitExit Exiting KernelStart Interrupt Faults ProcessWorld ProcessCalls.

Section clock.
Context {hw : Machine} {hw_ok : MachineOk} {files : Files} {pids : PidHelper} {bootargs : Boot} {codes : SyscallCodes}.
Context (idle : addr).

(** ** Waking waiting parents *)

(** The fields of a block that a woken parent keeps. *)
Definition kept_fields (b b' : pcb) : Prop :=
  p_state b' <> EXITED /\ p_mem_ctx b' = p_mem_ctx b /\ p_ks_pt b' = p_ks_pt b /\ p_kc b' = p_kc b /\
  uc_reg0 (p_uc b') = uc_reg0 (p_uc b) /\ has_parent (p_relations b') = has_parent (p_relations b) /\
  p_pid b' = p_pid b.

Lemma kept_links b b' : set_p_next None b' = set_p_next None b -> p_state b <> EXITED -> kept_fields b b'.
Proof.
  intros E Hs. unfold kept_fields.
  pose proof (f_equal p_state E) as E1. pose proof (f_equal p_mem_ctx E) as E2. pose proof (f_equal p_ks_pt E) as E3.
  pose proof (f_equal p_kc E) as E4. pose proof (f_equal p_uc E) as E5. pose proof (f_equal p_relations E) as E6.
  pose proof (f_equal p_pid E) as E7. simpl in *. split_and!; congruence.
Qed.
Lemma may_resume_kept b b' : kept_fields b b' -> may_resume b -> may_resume b'.
Proof. intros (_ & E1 & _ & E2 & E3 & _). unfold may_resume, status_ok. by rewrite E1, E2, E3. Qed.

Lemma exited_alive st a b : exited st a = false -> st_pcbs st !! a = Some b -> p_state b <> EXITED.
Proof. intros E Hb. unfold exited in E. rewrite Hb in E. by apply bool_decide_eq_false in E. Qed.

Section waiters.
Context (p : addr) (fam : addr -> list addr) (R W S : list addr) (s : kstate) (s1 : sched_st).
Hypothesis Hw : world idle p fam R W S s.
Hypothesis Hww : waiters_woken fam (k_store s) (k_sched s) R W S s1.

Let st : store := k_store s.
Let D (a : addr) : bool := bool_decide (a ∈ W).
Let A : list addr := members idle p R W S.

Lemma waiting_member a : a ∈ W -> a ∈ A.
Proof. intros. apply member_cases. tauto. Qed.
Lemma taken_first k : taken fam st D A k <-> first_exited_of fam st W k.
Proof.
  split.
  - intros (a & i & _ & Ha%bool_decide_eq_true & E). by exists a, i.
  - intros (a & i & Ha & E). exists a, i. split; [by apply waiting_member|]. split; [by apply bool_decide_eq_true|done].
Qed.

(** The block of a process that has not exited. *)
Lemma waiter_block a b : a ∈ A -> st_pcbs st !! a = Some b ->
  exists b', st_pcbs s1.1 !! a = Some b' /\ kept_fields b b' /\ rel_repr (p_relations b') (after_reaping fam st D a).
Proof.
  intros Ha Hb. pose proof (wd_family _ _ _ _ _ _ _ Hw) as Hfa.
  pose proof (fm_running _ _ _ _ Hfa a Ha) as Hal. fold st in Hal.
  destruct (fm_alive _ _ _ _ Hfa a Ha) as (b0 & Hb0 & Hr). assert (b0 = b) as -> by (unfold st in *; congruence).
  assert ((a ∈ W /\ has_exited_child fam st a = true) \/ (a ∈ W -> has_exited_child fam st a = false)) as [[HaW Hc]|Hno].
  { destruct (decide (a ∈ W)); [|by right]. destruct (has_exited_child fam st a); [by left|by right]. }
  - destruct (ww_given _ _ _ _ _ _ _ Hww a HaW Hc) as (b1 & j & k & bk & r & Hb1 & Hf & _ & Hr' & Hrp & E & _).
    assert (b1 = b) as -> by (unfold st in *; congruence). apply fmap_Some in E as (b' & Hb' & E). exists b'. split; [exact Hb'|].
    symmetry in E. pose proof (f_equal p_state E) as E1. pose proof (f_equal p_mem_ctx E) as E2. pose proof (f_equal p_ks_pt E) as E3.
    pose proof (f_equal p_kc E) as E4. pose proof (f_equal p_uc E) as E5. pose proof (f_equal p_relations E) as E6.
    pose proof (f_equal p_pid E) as E7. simpl in E1, E2, E3, E4, E5, E6, E7. unfold kept_fields. rewrite E1, E2, E3, E4, E5, E6, E7. split; [by split_and!|].
    unfold after_reaping, D, st. rewrite Hf, bool_decide_eq_true_2 by done. done.
  - pose proof (ww_frame _ _ _ _ _ _ _ Hww a Hno) as E. unfold st in Hb. rewrite Hb in E.
    assert (~ first_exited_of fam (k_store s) W a) as Hnf
      by (intros (w & j & _ & (_ & Hex & _)%list_find_Some); unfold st in Hal; congruence).
    destruct (fmap_Some_1 _ _ _ (E Hnf)) as (b' & Hb' & E').
    exists b'. split; [exact Hb'|]. symmetry in E'. split; [apply kept_links; [exact E'|by eapply exited_alive]|].
    apply (f_equal p_relations) in E'. simpl in E'. rewrite E'. unfold after_reaping.
    destruct (list_find _ (fam a)) as [[i k]|] eqn:Hf; [|exact Hr]. destruct (D a) eqn:HD; [|exact Hr].
    apply bool_decide_eq_true in HD. specialize (Hno HD). unfold has_exited_child in Hno. unfold st in *. by rewrite Hf in Hno.
Qed.

Lemma waiters_world : heap_ok s1.1 ->
  world idle p (after_reaping fam st D) (R ++ filter (fun w => has_exited_child fam st w = true) W)
    (filter (fun w => has_exited_child fam st w = false) W) S (km s (set_m_store s1.1 (k_mem s)) s1.2).
Proof.
  intros Hh. destruct (ww_clock _ _ _ _ _ _ _ Hww) as (_ & Er & Eid).
  assert (forall a, a ∈ members idle p (R ++ filter (fun w => has_exited_child fam st w = true) W)
    (filter (fun w => has_exited_child fam st w = false) W) S <-> a ∈ A) as HA.
  { intros a. unfold A. rewrite !member_cases, elem_of_app, !list_elem_of_filter.
    destruct (has_exited_child fam st a); intuition congruence. }
  pose proof (wd_family _ _ _ _ _ _ _ Hw) as Hfa.
  eapply world_update; [exact Hw|exact Hh| |exact HA|exact Er|exact Eid| | | |].
  - destruct s1. apply (ww_inv _ _ _ _ _ _ _ Hww).
  - exists s1.1, (m_pmem (k_mem s)), (m_events (k_mem s)). by destruct s as [[] ? ? ? ?].
  - change (k_store (km _ _ _)) with s1.1. apply (family_reaped _ _ _ _ A Hfa); [exact HA| | |].
    + intros a b Ha Hb. destruct (waiter_block a b Ha Hb) as (b' & Hb' & (Hne & _ & _ & _ & _ & Hp' & Hpid) & Hr').
      split; [unfold exited; rewrite Hb'; by apply bool_decide_eq_false|]. exists b'. done.
    + intros k (w & j & HwW & Hf)%taken_first.
      assert (has_exited_child fam st w = true) as Hc by (unfold has_exited_child; by rewrite Hf).
      destruct (ww_given _ _ _ _ _ _ _ Hww w HwW Hc) as (b & j' & k' & bk & r & _ & Hf' & _ & _ & _ & _ & Hk).
      unfold st in *. congruence.
    + intros k Hk Hn. assert (~ first_exited_of fam st W k) as Hn' by (intros Hx; by apply Hn, taken_first). pose proof (ww_frame _ _ _ _ _ _ _ Hww k) as E.
      specialize (E (fun HkW => False_ind _ (Hk (waiting_member k HkW))) Hn'). unfold exited, st.
      destruct (st_pcbs s1.1 !! k) as [x|], (st_pcbs (k_store s) !! k) as [y|]; simpl in E; try done.
      * apply (inj Some), (f_equal p_state) in E. simpl in E. rewrite E. split; [done|]. by rewrite !is_Some_alt.
  - intros a c t ks Ha (b & Hb & <- & Ht & Hks). destruct (waiter_block a b Ha Hb) as (b' & Hb' & (_ & E1 & E2 & _) & _).
    exists b'. by rewrite E1, E2.
  - intros a b Ha _ Hb Hm. destruct (waiter_block a b Ha Hb) as (b' & Hb' & Hk & _). exists b'. split; [exact Hb'|].
    by eapply may_resume_kept.
Qed.
End waiters.

Lemma wake_waiters_world p fam R W S s (Q : unit -> kstate -> Prop) :
  world idle p fam R W S s -> unqueued idle p R W S ->
  (forall s' fam' R' W', world idle p fam' R' W' S s' -> unqueued idle p R' W' S -> Q tt s') ->
  wp (zoom wake_waiters) Q s.
Proof.
  intros Hw Hu HQ. rewrite <- (km_same s). apply wp_km_sched. change (m_store (k_mem s)) with (k_store s).
  pose proof (wd_family _ _ _ _ _ _ _ Hw) as Hfa.
  eapply wp_mono; [apply wp_tidy; [apply tidy_wake_waiters|apply Hw|]|].
  { apply (wake_waiters_ok fam (k_store s) (k_sched s) R W S); [apply Hw|].
    assert (forall a, a ∈ R ++ W ++ S -> a ∈ members idle p R W S) as HA by (intros a; rewrite member_cases, !elem_of_app; tauto).
    assert (forall a, a ∈ W -> a ∈ members idle p R W S) as HWA by (intros a; rewrite member_cases; tauto).
    split.
    - intros w Hin. by apply (fm_alive _ _ _ _ Hfa), HWA.
    - intros w k Hin. apply (fm_live _ _ _ _ Hfa). by apply HWA.
    - intros w Hin. by apply (fm_nodup _ _ _ _ Hfa), HWA.
    - intros w w' k Hin Hin'. apply (fm_apart _ _ _ _ Hfa); by apply HWA.
    - intros a Ha. by apply (fm_running _ _ _ _ Hfa), HA. }
  intros [] s1 [Hww Hh]. eapply HQ; [eapply waiters_world; [exact Hw|exact Hww|exact Hh]|].
  destruct Hu as [?|Hu]; [by left|right]. rewrite !elem_of_app, !list_elem_of_filter in *. tauto.
Qed.

(** ** Ticks and sleepers *)
Lemma calm_links p st st' :
  (forall a, set_p_next None <$> st_pcbs st' !! a = set_p_next None <$> st_pcbs st !! a) -> calm p st st'.
Proof.
  intros H.
  assert (forall a, core <$> st_pcbs st' !! a = core <$> st_pcbs st !! a /\ exited st' a = exited st a) as Hc.
  { intros a. specialize (H a). unfold exited.
    destruct (st_pcbs st' !! a) as [x|], (st_pcbs st !! a) as [y|]; simpl in *; try done. apply (inj Some) in H. split.
    - f_equal. apply (f_equal core) in H. exact H.
    - apply (f_equal p_state) in H. simpl in H. by rewrite H. }
  split; [intros a _; apply Hc| |apply Hc]. destruct (Hc p) as [E _].
  destruct (st_pcbs st' !! p), (st_pcbs st !! p); simpl in *; try done. f_equal. unfold body. congruence.
Qed.

Lemma tick_processes p fam R W S s n :
  world idle p fam R W S s -> world idle p fam R W S (km s (k_mem s) (set_num_ticks n (k_sched s))).
Proof.
  intros Hw. eapply world_calm; [exact Hw|by apply calm_same|apply Hw|by apply sched_inv_set_ticks, Hw|done..|].
  exists (k_store s), (m_pmem (k_mem s)), (m_events (k_mem s)). by destruct s as [[] ? ? ? ?].
Qed.

Lemma wake_sleepers_processes p fam R W S s (Q : unit -> kstate -> Prop) :
  world idle p fam R W S s -> unqueued idle p R W S ->
  (forall s' R' S', world idle p fam R' W S' s' -> unqueued idle p R' W S' -> Q tt s') ->
  wp (zoom wake_sleepers) Q s.
Proof.
  intros Hw Hu HQ. rewrite <- (km_same s). apply wp_km_sched. change (m_store (k_mem s)) with (k_store s).
  eapply wp_mono; [apply wp_tidy; [apply tidy_wake_sleepers|apply Hw|]; apply (wake_sleepers_ok _ _ R W S), Hw|].
  intros [] [st sc] [(woken & S' & [Hinv Hperm _ _ _ _ _ Hf (_ & Er & Eid)] & _) Hh]. simpl in *.
  assert (forall a, a ∈ (R ++ woken) ++ W ++ S' <-> a ∈ R ++ W ++ S) as Hq.
  { intros a. rewrite Hperm, !elem_of_app. tauto. }
  eapply HQ; [eapply world_store; [exact Hw|by apply calm_links|exact Hh|exact Hinv| |exact Er|exact Eid]|].
  - intros a. unfold members. rewrite !elem_of_cons, Hq. done.
  - destruct Hu as [?|Hu]; [by left|right]. by rewrite Hq.
Qed.

(** ** The next process *)
Lemma schedule_in_world p fam R W S s (Q : unit -> kstate -> Prop) :
  world idle p fam R W S s -> unqueued idle p R W S ->
  (forall s' R', world idle p fam R' W S s' -> p = idle \/ p ∈ R' ++ W ++ S -> Q tt s') ->
  wp (zoom (schedule_process p)) Q s.
Proof.
  intros Hw Hu HQ. destruct (decide (p = idle)) as [->|Hne].
  - rewrite <- (km_same s). apply wp_km_sched. unfold schedule_process. wp_steps. simpl.
    rewrite decide_True by (symmetry; apply Hw). wp_step. simpl. rewrite set_m_store_same, km_same. apply (HQ s R); [exact Hw|by left].
  - destruct Hu as [?|Hu]; [done|]. destruct (world_block _ _ _ _ _ _ _ p Hw (member_running _ _ _ _ _)) as [b Hb].
    rewrite <- (km_same s). apply wp_km_sched. change (m_store (k_mem s)) with (k_store s).
    eapply wp_mono; [apply wp_tidy; [apply tidy_schedule_process|apply Hw|]; by eapply schedule_process_ok; [apply Hw|..]|].
    intros [] [st sc] [Hres Hh]. rewrite decide_False in Hres.
    2: { rewrite (proj1 (proj2 (wd_roles _ _ _ _ _ _ _ Hw))). congruence. }
    destruct Hres as (Hinv & Hn & q' & Esc). simpl in *. subst sc.
    eapply (HQ _ (R ++ [p])); [eapply world_store; [exact Hw| |exact Hh|exact Hinv| |done|done]|].
    + eapply calm_queued; [exact Hb| | |eapply world_state; [exact Hw|apply member_running|exact Hb]| |exact Hn]; done.
    + intros a. rewrite !member_cases, elem_of_app, list_elem_of_singleton. tauto.
    + right. set_solver.
Qed.

Lemma next_process_world p fam R W S s (Q : addr -> kstate -> Prop) :
  world idle p fam R W S s -> p = next_of idle R ->
  (forall s', world idle p fam (tail R) W S s' -> unqueued idle p (tail R) W S -> Q p s') ->
  wp (zoom get_next_process) Q s.
Proof.
  intros Hw Hp HQ. rewrite <- (km_same s). apply wp_km_sched. change (m_store (k_mem s)) with (k_store s).
  eapply wp_mono; [apply wp_tidy; [apply tidy_get_next_process|apply Hw|]; by apply (get_next_process_ok _ _ R W S idle); apply Hw|].
  intros next [st sc] [Hres Hh]. destruct R as [|r R']; simpl in *.
  - destruct Hres as [-> [= -> ->]]. change (m_store (k_mem s)) with (k_store s). rewrite Hp in *.
    change (k_store s) with (m_store (k_mem s)). rewrite set_m_store_same, km_same. apply HQ; [exact Hw|by left].
  - destruct Hres as (-> & Hinv & b & n & q' & Hb & -> & ->). subst r. apply HQ.
    + eapply world_store; [exact Hw| |exact Hh|exact Hinv| |done|done].
      * eapply calm_update; [done|exact Hb|done|]. simpl.
        pose proof (world_state _ _ _ _ _ _ _ _ _ Hw (member_running _ _ _ _ _) Hb). done.
      * intros a. rewrite !member_cases, elem_of_cons. tauto.
    + right. pose proof (si_nodup _ _ _ _ (wd_sched _ _ _ _ _ _ _ Hw)) as Hnd. by apply NoDup_cons in Hnd as [? _].
Qed.

Lemma reschedule_processes p fam R W S s :
  world idle p fam R W S s -> p = idle \/ p ∈ R ++ W ++ S ->
  wp (next_proc ← zoom get_next_process;
      (if decide (p <> next_proc) then k ← FullContextSwitch KC_return (Some p) next_proc; mret (Switched k)
       else mret Returned)) (settled idle) s.
Proof.
  intros Hw Hp. destruct (decide (p = next_of idle R)) as [E|Hne].
  - wp_step. eapply next_process_world; [exact Hw|exact E|]. intros s' Hw' Hu. rewrite decide_False by auto. wp_step.
    by eapply settled_returned.
  - destruct (world_next _ _ _ _ _ _ _ Hw (not_eq_sym Hne)) as (k & Hsw & Hc).
    destruct (world_block _ _ _ _ _ _ _ p Hw (member_running _ _ _ _ _)) as [b Hb]. wp_step.
    eapply wp_mono; [apply wp_tidy; [apply tidy_zoom, tidy_get_next_process|apply Hw|];
      apply (next_and_switch_ok KC_return k p idle R W S); [apply Hw|apply Hw|done|by eexists|exact Hsw|]|].
    { apply (to_len _ _ (ko_table _ (wd_kernel _ _ _ _ _ _ _ Hw))). }
    intros next s1 [[-> Hfs] Hh1]. rewrite decide_True by done. wp_step.
    eapply wp_mono; [apply wp_tidy; [apply tidy_FullContextSwitch|exact Hh1|exact Hfs]|].
    intros r s' [[-> Hd] Hh]. wp_step.
    destruct (world_switched idle p fam R W S s KC_return s' Hw Hp Hne) as (Hw' & Hu & Hca); [|exact Hh|exact Hd|].
    { exists b. split; [exact Hb|by left]. }
    right. do 5 eexists. split; [exact Hw'|]. split; [exact Hu|]. eapply continues_calm; [exact Hc|by auto|exact Hca].
Qed.
End clock.
