(* ===== verification/ProcessTraps.v ===== *)
(** * Traps in the world of processes

    Every trap on processes, the calls [GetPid], [Brk], [Delay], [Exit],
    [Fork], [Exec] and [Wait], the clock, and the faults, goes from a world to a world:
    the handlers of [Interrupt] on the invariant of [ProcessWorld]. *)

From S2P Require Import Prelude Machine FrameTracking Pcb Paging KernelMemory UserMemory AddressSpace Fifo SleepHeap Scheduler Waiters PipeBuffer PipeTable Locks Frame Terminals Kernel DemoKernel Switching PipeCalls TtyCalls Synchronization LoadProgram Syscalls HeapFrame UserBuffers PipeWorld Processes WaitExit Exiting ExecImage Exec KernelStart Interrupt Faults ProcessWorld ProcessCalls ProcessExit ProcessFork ProcessExec ProcessClock.

Section traps.
Context {hw : Machine} {hw_ok : MachineOk} {files : Files} {pids : PidHelper} {bootargs : Boot} {codes : SyscallCodes}
  {codes_ok : SyscallCodesOk}.
Context (idle : addr).

(** ** The end of a trap *)

(** The machine was halted, or a process goes on in a world. *)
Definition trap_done (r : option UserContext) (s : kstate) : Prop :=
  r = None \/ exists u p fam R W S, r = Some u /\ world idle p fam R W S s /\ unqueued idle p R W S.

Lemma returned_done p fam R W S s :
  world idle p fam R W S s -> unqueued idle p R W S ->
  wp (curr_proc ← running; u ← get_uc curr_proc; mret (Some u)) trap_done s.
Proof.
  intros Hw Hu. wp_step. eapply wp_running_world; [exact Hw|]. wp_step. eapply get_uc_in_world; [exact Hw|apply member_running|].
  intros b Hb. wp_step. right. by do 6 eexists.
Qed.

Lemma finish_settled f s : settled idle f s -> wp (finish f) trap_done s.
Proof.
  intros [->|(p & fam & R & W & S & Hw & Hu & Hf)]; unfold finish; wp_step; wp_step.
  - cbn [end_of_trap]. wp_step. by left.
  - destruct f as [|k| |]; try done; [by eapply returned_done|]. cbn [end_of_trap]. wp_step. unfold resume. wp_step.
    eapply wp_running_world; [exact Hw|]. destruct Hf as (b & Hb & [->|[-> Hst]]).
    + wp_step. cbn [end_of_trap]. by eapply returned_done.
    + unfold returning. wp_step. eapply wait_resumed_world; [exact Hw|exact Hb|exact Hst|]. intros s1 Hw1. wp_step.
      cbn [end_of_trap]. by eapply returned_done.
Qed.

(** ** The start *)
Lemma save_uc_running p fam R W S s uc b c t ks (Q : addr -> kstate -> Prop) :
  world idle p fam R W S s -> running_ok p fam s b c t ks ->
  (forall s', world idle p fam R W S s' -> running_ok p fam s' (set_p_uc uc b) c t ks ->
     m_frames (k_mem s') = m_frames (k_mem s) -> m_pmem (k_mem s') = m_pmem (k_mem s) -> Q p s') ->
  wp (save_uc uc) Q s.
Proof.
  intros Hw Hru HQ. pose proof Hru as [Hb Hc Him Hok Hch Hu]. unfold save_uc. wp_step. eapply wp_running_world; [exact Hw|].
  rewrite <- (km_same s). wp_step. apply wp_km_store. change (m_store (k_mem s)) with (k_store s).
  eapply wp_update; [exact Hb|]. wp_step.
  pose proof (world_own idle p fam R W S s b (set_p_uc uc b) Hw Hb eq_refl eq_refl eq_refl eq_refl) as Hw1.
  unfold with_block in Hw1. change (m_store (k_mem s)) with (k_store s) in Hw1. apply HQ; [exact Hw1| |done|done].
  destruct Him as (b0 & Hb0 & Hc0 & Ht & Hks). assert (b0 = b) as -> by congruence. split; try done.
  - apply lookup_insert_eq.
  - exists (set_p_uc uc b). split; [apply lookup_insert_eq|done].
  - apply user_ok_store; [exact Hu|]. intros a Ha. simpl. change (m_store (k_mem s)) with (k_store s).
    destruct (decide (p = a)) as [<-|]; [by rewrite lookup_insert_eq, Hb|by rewrite lookup_insert_ne].
Qed.

(** ** Traps that may happen *)

(** What a call asks of the process that makes it with the context [u]. *)
Inductive call_ready (u : UserContext) (c : mem_ctx_t) (t : list pte) (m : mstate) : Prop :=
  | cr_plain : to_u32 (uc_code u) ∈ [YALNIX_GETPID; YALNIX_DELAY; YALNIX_EXIT] -> call_ready u c t m
  | cr_brk : to_u32 (uc_code u) = YALNIX_BRK -> brk_clear u c t -> call_ready u c t m
  | cr_fork : to_u32 (uc_code u) = YALNIX_FORK -> fork_clear u c t (m_frames m) -> call_ready u c t m
  | cr_exec : to_u32 (uc_code u) = YALNIX_EXEC -> exec_clear u t (m_pmem m) (m_frames m) -> call_ready u c t m
  | cr_wait : to_u32 (uc_code u) = YALNIX_WAIT ->
      (uc_reg0 u <> 0 -> forall j, 0 <= j < 4 -> accessible t (uc_reg0 u + j) true) -> call_ready u c t m.

(** The clock ticks at any time; the other traps are those of a process. *)
Inductive process_trap (s : kstate) : trap -> UserContext -> Prop :=
  | pt_clock u : process_trap s TRAP_CLOCK u
  | pt_fault tr u : tr = TRAP_MEMORY \/ tr = TRAP_MATH \/ tr = TRAP_ILLEGAL ->
      running_proc (k_sched s) <> idle_proc (k_sched s) -> process_trap s tr u
  | pt_call u p b c t :
      running_proc (k_sched s) = Some p -> Some p <> idle_proc (k_sched s) ->
      st_pcbs (k_store s) !! p = Some b -> p_mem_ctx b = c -> region1_pt c = Some t ->
      call_ready u c t (k_mem s) -> process_trap s TRAP_KERNEL u.

Ltac in_syscalls := unfold syscalls; repeat first [apply list_elem_of_here|apply list_elem_of_further].
Lemma trap_kernel_processes p fam R W S s u b c t ks :
  world idle p fam R W S s -> p <> idle -> p ∉ R ++ W ++ S -> running_ok p fam s b c t ks ->
  call_ready u c t (k_mem s) -> wp (trap_kernel_handler u) trap_done s.
Proof.
  intros Hw Hi Hp Hru Hcall. unfold trap_kernel_handler. wp_step. eapply save_uc_running; [exact Hw|exact Hru|].
  clear Hw. intros s1 Hw Hru1 Ef Em. wp_step.
  assert (forall h, (to_u32 (uc_code u), h) ∈ syscalls -> wp (h p) (settled idle) s1 ->
    wp (dispatch syscalls (to_u32 (uc_code u)) p) (fun f s => wp (finish f) trap_done s) s1) as Hdisp.
  { intros h Hin Hh. rewrite (dispatch_ok _ _ h) by (apply codes_ok || done).
    eapply wp_mono; [exact Hh|]. intros f s2. apply finish_settled. }
  destruct Hcall as [Hc|Hc Hbrk|Hc Hfork|Hc Hexec|Hc Hst].
  - repeat (apply elem_of_cons in Hc as [Hc|Hc]); try (by apply not_elem_of_nil in Hc);
      rewrite Hc in Hdisp |- *; (eapply Hdisp; [in_syscalls|]).
    + eapply KernelGetPid_in_world; [exact Hw|by right].
    + by eapply KernelDelay_in_world.
    + cbv beta. eapply KernelExit_world; [exact Hw|exact Hi|exact Hp|exact Hru1|by right].
  - rewrite Hc in Hdisp |- *. eapply Hdisp; [in_syscalls|].
    eapply KernelBrk_world; [exact Hw|by right|exact Hru1|exact Hbrk].
  - rewrite Hc in Hdisp |- *. eapply Hdisp; [in_syscalls|].
    eapply KernelFork_world; [exact Hw|exact Hi|exact Hp|exact Hru1|by rewrite Ef].
  - rewrite Hc in Hdisp |- *. eapply Hdisp; [in_syscalls|].
    eapply KernelExec_world; [exact Hw|exact Hi|exact Hp|exact Hru1|by rewrite Ef, Em].
  - rewrite Hc in Hdisp |- *. eapply Hdisp; [in_syscalls|].
    eapply KernelWait_world; [exact Hw|exact Hi|exact Hp|]. intros b1 Hb1. rewrite (ru_block _ _ _ _ _ _ _ Hru1) in Hb1.
    injection Hb1 as <-. intros Hr. destruct (ru_image _ _ _ _ _ _ _ Hru1) as (b2 & Hb2 & E & Ht & _).
    rewrite (ru_block _ _ _ _ _ _ _ Hru1) in Hb2. injection Hb2 as <-. exists t. rewrite E. split; [exact Ht|by apply Hst].
Qed.

Lemma trap_clock_processes p fam R W S s u :
  world idle p fam R W S s -> unqueued idle p R W S -> wp (trap_clock_handler u) trap_done s.
Proof.
  intros Hw Hu. unfold trap_clock_handler, increment_ticks. wp_step. wp_step. wp_step.
  apply (tick_processes idle _ _ _ _ _ _ (to_i32 (num_ticks (k_sched s) + 1))) in Hw.
  set (s1 := km _ _ _) in Hw.
  match goal with |- wp _ _ ?s2 => assert (s2 = s1) as -> by (by destruct s as [[] ? ? ? ?]) end. clearbody s1.
  wp_step. eapply wake_waiters_world; [exact Hw|exact Hu|]. intros s2 fam2 R2 W2 Hw2 Hu2.
  wp_step. eapply wake_sleepers_processes; [exact Hw2|exact Hu2|]. intros s3 R3 S3 Hw3 Hu3.
  destruct (world_running _ _ _ _ _ _ _ Hw3) as (b & c & t & ks & Hru).
  wp_step. eapply save_uc_running; [exact Hw3|exact Hru|]. intros s4 Hw4 _ _ _.
  wp_step. eapply schedule_in_world; [exact Hw4|exact Hu3|]. intros s5 R5 Hw5 Hp5.
  pose proof (wp_mono _ _ _ _ (reschedule_processes idle _ _ _ _ _ _ Hw5 Hp5) finish_settled) as Hend.
  apply wp_bind_inv in Hend. wp_step. eapply wp_mono; [exact Hend|]. intros next s6 Hnext. wp_step. exact Hnext.
Qed.

(** ** Faults *)
Lemma exit_trap p fam R W S s b c t ks :
  world idle p fam R W S s -> p <> idle -> p ∉ R ++ W ++ S -> running_ok p fam s b c t ks ->
  wp (f ← KernelExit None; finish f) trap_done s.
Proof.
  intros Hw Hi Hp Hru. wp_step. eapply wp_mono; [eapply KernelExit_world; [exact Hw|exact Hi|exact Hp|exact Hru|by left]|].
  intros f s1. apply finish_settled.
Qed.
Lemma trap_memory_processes p fam R W S s u b c t ks :
  world idle p fam R W S s -> p <> idle -> p ∉ R ++ W ++ S -> running_ok p fam s b c t ks ->
  wp (trap_memory_handler u) trap_done s.
Proof.
  intros Hw Hi Hp Hru. set (a := to_i32 (uc_addr u)).
  destruct (decide (a < VMEM_1_BASE \/ VMEM_1_LIMIT <= a \/ vpn_of a <= curr_brk_page c)) as [Hbad|Hgood].
  - unfold trap_memory_handler. rewrite <- (km_same s). wp_step. apply wp_km.
    eapply expand_stack_refused; [apply Hru|exact Hbad|]. cbn [negb]. rewrite km_same. by eapply exit_trap.
  - pose proof (im_layout _ _ _ _ (ru_ok _ _ _ _ _ _ _ Hru)) as Hlo. pose proof Hlo as [Ht Hd Hb Hm].
    eapply wp_mono; [apply (memory_trap_grows s c t u); [apply Hru|exact Hgood|lia]|].
    intros r s' (-> & t' & f' & top & -> & Htop & _ & Hnone & Hal). fold a in Htop, Hnone, Hal.
    assert (VMEM_1_BASE <= a < VMEM_1_LIMIT) as Hv%region1_vpn by lia.
    assert (REGION1_LIMIT_VPN - REGION1_BASE_VPN = REGION1_VPNS) as HV by (unfold REGION1_LIMIT_VPN; lia).
    set (frees := Z.of_nat (size (free_set (m_frames (k_mem s))))) in *. pose proof Hal as [Hok' Hn _ _ _ _].
    assert (forall j, vpn_of a - REGION1_BASE_VPN <= j < Z.min top (vpn_of a + frees) - REGION1_BASE_VPN ->
      maps t j = None) as Hnone'.
    { intros j Hj. rewrite <- (Hnone (j + REGION1_BASE_VPN)) by lia. f_equal. lia. }
    destruct (allocated_keeps _ _ _ _ _ _ Hal Hnone') as [Hkeep _].
    right. exists u, p, fam, R, W, S. split; [done|]. split; [|by right].
    assert (set_k_mem (in_ctx (set_region1_pt (Some t') c) f' (m_events (k_mem s)) (k_mem s)) s =
      km s (in_ctx (set_region1_pt (Some t') c) f' (m_events (k_mem s)) (k_mem s)) (k_sched s)) as -> by done.
    eapply own_ctx_world; [exact Hw|exact Hru|done| |exact Hok'|exact Hn|].
    + split; simpl; try done. intros vpn Hvp. destruct (Hm vpn Hvp) as (f & q & E & Hq). exists f, q. split; [by apply Hkeep|done].
    + eapply allocated_total; [exact Hal|lia|lia|exact Hnone'|reflexivity].
Qed.

Lemma trap_processes p fam R W S s tr u :
  world idle p fam R W S s -> unqueued idle p R W S -> process_trap s tr u -> wp (interrupt_vector tr u) trap_done s.
Proof.
  intros Hw Hu Htr. pose proof (wd_roles _ _ _ _ _ _ _ Hw) as (Hr & Hid & _).
  destruct (world_running _ _ _ _ _ _ _ Hw) as (b & c & t & ks & Hru).
  destruct Htr as [u|tr u Htr Hne|u p' b' c' t' Hr' Hne Hb' Hc' Ht' Hcall].
  - by eapply trap_clock_processes.
  - assert (p <> idle) as Hi by congruence. destruct Hu as [?|Hp]; [done|].
    destruct Htr as [->|[->| ->]]; [by eapply trap_memory_processes|by eapply exit_trap..].
  - assert (p' = p) as -> by congruence. assert (p <> idle) as Hi by congruence. destruct Hu as [?|Hp]; [done|].
    destruct (ru_image _ _ _ _ _ _ _ Hru) as (b2 & Hb2 & E & Ht & _). rewrite Hb' in Hb2. injection Hb2 as <-.
    assert (c' = c /\ t' = t) as [-> ->] by (split; congruence). by eapply trap_kernel_processes.
Qed.
End traps.
