(* ===== verification/ProcessSafety.v ===== *)
(** * The processes stay safe

    Every sequence of the traps of [ProcessTraps] goes through worlds only: the
    steps, what they keep, and the concrete kernel. *)

From S2P Require Import Prelude Machine FrameTracking Pcb Paging KernelMemory UserMemory AddressSpace Fifo SleepHeap Scheduler Waiters PipeBuffer PipeTable Locks Frame Terminals Kernel DemoKernel Switching PipeCalls TtyCalls Synchronization LoadProgram Syscalls HeapFrame UserBuffers PipeWorld Processes WaitExit Exiting ExecImage Exec KernelStart Interrupt Faults ProcessWorld ProcessCalls ProcessExit ProcessFork ProcessExec ProcessClock ProcessTraps.

Section steps.
Context {hw : Machine} {hw_ok : MachineOk} {files : Files} {pids : PidHelper} {bootargs : Boot} {codes : SyscallCodes}
  {codes_ok : SyscallCodesOk}.

(** One trap, after which the machine still runs. *)
Inductive process_step (s s' : kstate) : Prop :=
  | ps_trap tr u u' : process_trap s tr u -> interrupt_vector tr u s = Some (Some u', s') -> process_step s s'.

Definition in_world (idle : addr) (s : kstate) : Prop :=
  exists p fam R W S, world idle p fam R W S s /\ unqueued idle p R W S.

(** Rule induction: what one trap keeps, every sequence keeps. *)
Lemma in_world_reachable idle s s' : in_world idle s -> rtc process_step s s' -> in_world idle s'.
Proof.
  intros Hm Hsteps. induction Hsteps as [s|s s1 s2 [tr u u' Htr Hrun] _ IH]; [done|]. apply IH.
  destruct Hm as (p & fam & R & W & S & Hw & Hu).
  pose proof (trap_processes idle p fam R W S s tr u Hw Hu Htr) as Hwp. unfold wp in Hwp. rewrite Hrun in Hwp.
  destruct Hwp as [?|(v & p' & fam' & R' & W' & S' & _ & Hw' & Hu')]; [done|]. by do 5 eexists.
Qed.

(** A frame is in use when it belongs to somebody. *)
Lemma world_frames idle p fam R W S s x :
  world idle p fam R W S s -> frame_range (m_frames (k_mem s)) x ->
  x ∉ free_set (m_frames (k_mem s)) <->
    kernel_owns (m_region0_pt (k_mem s)) x \/ exists a, a ∈ members idle p R W S /\ owns (k_store s) a x.
Proof.
  intros Hw Hx. pose proof (wd_memory _ _ _ _ _ _ _ Hw) as Hm. split; [by apply (my_total _ _ _ _ Hm)|].
  intros [(i & q & _ & E)|(a & Ha & Ho)].
  - by eapply (to_used _ _ (ko_table _ (wd_kernel _ _ _ _ _ _ _ Hw))).
  - by apply (owned_used _ _ _ _ _ _ Hm Ha Ho).
Qed.
(** A block is that of a process, or of a child that its parent has not found. *)
Lemma world_blocks idle p fam R W S s k :
  world idle p fam R W S s ->
  is_Some (st_pcbs (k_store s) !! k) <->
    k ∈ members idle p R W S \/
    exited (k_store s) k = true /\ exists w, w ∈ members idle p R W S /\ k ∈ fam w.
Proof.
  intros Hw. pose proof (wd_family _ _ _ _ _ _ _ Hw) as Hfa. split.
  - intros Hk. destruct (decide (k ∈ members idle p R W S)) as [|Hn]; [by left|right]. by apply (fm_exited _ _ _ _ Hfa).
  - intros [Hk|(_ & w & HwA & Hk)]; [|by eapply (fm_live _ _ _ _ Hfa)].
    destruct (world_block _ _ _ _ _ _ _ k Hw Hk) as [b Hb]. by eexists.
Qed.
End steps.

(** Everything the world says of who runs, who owns what and who is alive. *)
Lemma in_world_safe {hw : Machine} {hw_ok : MachineOk} {files : Files} {pids : PidHelper} {bootargs : Boot}
    {codes : SyscallCodes} {codes_ok : SyscallCodesOk} (idle : addr) (s : kstate) :
  in_world idle s ->
  exists p (fam : addr -> list addr) R W S,
    let A := members idle p R W S in
    let f := m_frames (k_mem s) in
    let r0 := m_region0_pt (k_mem s) in
    (running_proc (k_sched s) = Some p /\ m_mem_ctx (k_mem s) = Some p /\
     sched_inv (k_store s, k_sched s) R W S /\
     exists b, st_pcbs (k_store s) !! p = Some b /\ zslice r0 K_STACK_BASE_VPN K_STACK_VPNS = p_ks_pt b) /\
    (forall a a' x, a ∈ A -> a' ∈ A -> owns (k_store s) a x -> owns (k_store s) a' x -> a = a') /\
    (forall a x, a ∈ A -> owns (k_store s) a x -> ~ kernel_owns r0 x) /\
    (forall x, frame_range f x -> x ∉ free_set f <-> kernel_owns r0 x \/ exists a, a ∈ A /\ owns (k_store s) a x) /\
    (forall k, is_Some (st_pcbs (k_store s) !! k) <->
       k ∈ A \/ exited (k_store s) k = true /\ exists w, w ∈ A /\ k ∈ fam w) /\
    (forall tr u, process_trap s tr u -> exists r s', interrupt_vector tr u s = Some (r, s')).
Proof.
  intros (p & fam & R & W & S & Hw & Hu).
  exists p, fam, R, W, S. intros A f r0. split; [|split; [|split; [|split; [|split]]]].
  - split; [apply Hw|]. split; [apply Hw|]. split; apply Hw.
  - apply (my_apart _ _ _ _ (wd_memory _ _ _ _ _ _ _ Hw)).
  - apply (my_kernel _ _ _ _ (wd_memory _ _ _ _ _ _ _ Hw)).
  - intros x. by apply (world_frames idle p fam).
  - intros k. by apply (world_blocks idle p fam).
  - intros tr u Htr. destruct (proj1 (wp_run _ _ _) (trap_processes idle p fam R W S s tr u Hw Hu Htr)) as (r & s' & Hrun & _).
    by exists r, s'.
Qed.

(** C2: the kernel stays well-formed.  In a world no trap of a process gets the
    kernel stuck, be it a tick of the clock, a fault, or a call of [GetPid],
    [Delay], [Brk], [Fork], [Exec], [Wait] or [Exit]: the handler either halts
    the machine or ends in a world again.  The calls are made as [call_ready]
    says: [Brk] not over pages the stack has grown to, [Fork] with frames for
    all of the child or not even for its pages, [Exec] of a program whose text
    and data are next to each other, [Wait] with a status word that is NULL or
    writable. *)
Theorem trap_keeps_world {hw : Machine} {hw_ok : MachineOk} {files : Files} {pids : PidHelper} {bootargs : Boot}
    {codes : SyscallCodes} {codes_ok : SyscallCodesOk} (idle : addr) (s : kstate) (tr : trap) (u : UserContext) :
  in_world idle s -> process_trap s tr u ->
  exists r s', interrupt_vector tr u s = Some (r, s') /\ (r = None \/ in_world idle s').
Proof.
  intros (p & fam & R & W & S & Hw & Hu) Htr.
  destruct (proj1 (wp_run _ _ _) (trap_processes idle p fam R W S s tr u Hw Hu Htr)) as (r & s' & Hrun & Hd).
  exists r, s'. split; [exact Hrun|]. destruct Hd as [?|(v & p' & fam' & R' & W' & S' & _ & Hw' & Hu')]; [by left|right].
  by do 5 eexists.
Qed.

(** ** The concrete kernel as a world *)
Definition demo_fam (a : addr) : list addr := if decide (a = 2%positive) then [3%positive] else [].

Lemma demo_members a :
  a ∈ members 1 2 [3%positive] [] [] -> a = 1%positive \/ a = 2%positive \/ a = 3%positive.
Proof. rewrite member_cases, !list_elem_of_singleton, !elem_of_nil. tauto. Qed.

Lemma demo_image_ok f g text data stack :
  text = 5 /\ data = 6 /\ stack = 7 /\ f = 8 /\ g = 9 \/ text = 12 /\ data = 13 /\ stack = 14 /\ f = 10 /\ g = 11 ->
  @image_ok demo_machine demo_frames (demo_image text data stack)
    ([mapped_pte text 5; mapped_pte data 3] ++ replicate 13 pte_zero ++ [mapped_pte stack 3]) (demo_stack f g).
Proof.
  intros Hc. split.
  - split; try (by vm_compute). intros vpn Hv. change (16 <= vpn < 18) in Hv.
    assert (vpn = 16 \/ vpn = 17) as [-> | ->] by lia; do 2 eexists; (split; [reflexivity|by vm_compute]).
  - apply (table_check_ok (T := @region1_table demo_machine)); [exact demo_kernel_frames_wf|done|].
    by destruct Hc as [(-> & -> & -> & -> & ->)|(-> & -> & -> & -> & ->)]; vm_compute.
  - apply (table_check_ok (T := @stack_table demo_machine)); [exact demo_kernel_frames_wf|done|].
    by destruct Hc as [(-> & -> & -> & -> & ->)|(-> & -> & -> & -> & ->)]; vm_compute.
  - intros i Hi. change (0 <= i < 2) in Hi. assert (i = 0 \/ i = 1) as [-> | ->] by lia;
      do 2 eexists; (split; [reflexivity|by vm_compute]).
  - intros i j x q q' E1 E2. pose proof (maps_range _ _ _ E1) as Hi. pose proof (maps_range _ _ _ E2) as Hj.
    change (0 <= i < 16) in Hi. change (0 <= j < 2) in Hj.
    assert (In i (seqZ 0 16)) as Hin by (by apply list_elem_of_In, elem_of_seqZ).
    assert (j = 0 \/ j = 1) as Hjn by lia. revert E1 E2.
    destruct Hc as [(-> & -> & -> & -> & ->)|(-> & -> & -> & -> & ->)]; destruct Hjn as [-> | ->];
      simpl in Hin; repeat destruct Hin as [<-|Hin]; try done; by intros [= <- <-] [=].
Qed.

Lemma demo_idle_ok : @image_ok demo_machine demo_frames demo_no_image (replicate 16 pte_zero) (demo_stack 4 15).
Proof.
  split.
  - split; try (by vm_compute). intros vpn Hv. change (16 <= vpn < 16) in Hv. lia.
  - apply (table_check_ok (T := @region1_table demo_machine)); [exact demo_kernel_frames_wf|done|by vm_compute].
  - apply (table_check_ok (T := @stack_table demo_machine)); [exact demo_kernel_frames_wf|done|by vm_compute].
  - intros i Hi. change (0 <= i < 2) in Hi. assert (i = 0 \/ i = 1) as [-> | ->] by lia;
      do 2 eexists; (split; [reflexivity|by vm_compute]).
  - intros i j x q q' E1 _. change (replicate 16 pte_zero) with (replicate (Z.to_nat 16) pte_zero) in E1.
    by rewrite blank_table in E1.
Qed.

(** Who has which frame. *)
Definition demo_owners : list (option addr) :=
  [None; None; None; None; Some 1; Some 2; Some 2; Some 2; Some 2; Some 2; Some 3; Some 3; Some 3; Some 3; Some 3; Some 1]%positive.
Definition demo_owner (x : Z) : option addr := mjoin (zget demo_owners x).

Definition demo_page_table (a : addr) : list pte :=
  if decide (a = 1%positive) then replicate 16 pte_zero
  else if decide (a = 2%positive) then [mapped_pte 5 5; mapped_pte 6 3] ++ replicate 13 pte_zero ++ [mapped_pte 7 3]
  else [mapped_pte 12 5; mapped_pte 13 3] ++ replicate 13 pte_zero ++ [mapped_pte 14 3].
Definition demo_kstack (a : addr) : list pte :=
  if decide (a = 1%positive) then demo_stack 4 15
  else if decide (a = 2%positive) then demo_stack 8 9 else demo_stack 10 11.
Definition demo_ctx (a : addr) : mem_ctx_t :=
  if decide (a = 1%positive) then demo_no_image
  else if decide (a = 2%positive) then demo_image 5 6 7 else demo_image 12 13 14.

Lemma demo_image_at u a :
  a ∈ members 1 2 [3%positive] [] [] ->
  image (demo_kstore u) a (demo_ctx a) (demo_page_table a) (demo_kstack a) /\
  @image_ok demo_machine demo_frames (demo_ctx a) (demo_page_table a) (demo_kstack a).
Proof.
  intros [->|[->| ->]]%demo_members; (split; [eexists; split; [reflexivity|by split]|]).
  - apply demo_idle_ok.
  - apply demo_image_ok. left. by split_and!.
  - apply demo_image_ok. right. by split_and!.
Qed.

Lemma demo_owns u a x : a ∈ members 1 2 [3%positive] [] [] ->
  owns (demo_kstore u) a x <-> demo_owner x = Some a.
Proof.
  intros Ha. destruct (demo_image_at u a Ha) as [Him _]. rewrite (owns_image _ _ _ _ _ _ Him). clear Him.
  assert (forall (l : list pte) i q, maps l i = Some (x, q) -> exists n, l !! n = Some {| pte_valid := true; pte_prot := q; pte_pfn := x |}) as Hin.
  { intros l i q E. pose proof (maps_range _ _ _ E) as Hr. unfold maps in E. rewrite zget_nonneg in E by lia. exists (Z.to_nat i).
    destruct (l !! Z.to_nat i) as [[[] ? ?]|]; simplify_eq/=; done. }
  assert (forall l : list pte, (forall i q, maps l i = Some (x, q) -> Exists (fun e => pte_valid e = true /\ pte_pfn e = x) l)) as Hex.
  { intros l i q (n & E)%Hin. apply Exists_exists. eexists. split; [by eapply list_elem_of_lookup_2|done]. }
  split.
  - intros (i & q & [E|E]); apply Hex in E; clear Hex Hin; apply demo_members in Ha as [->|[->| ->]]; vm_compute in E;
      repeat match type of E with Exists _ (_ :: _) => apply Exists_cons in E as [[? <-]|E]; [try discriminate; reflexivity|] end;
      by apply Exists_nil in E.
  - clear Hex Hin Ha. unfold demo_owner. destruct (zget demo_owners x) as [o|] eqn:E; [|done]. simpl. intros ->.
    pose proof (zget_Some _ _ _ E) as Hr. change (0 <= x < 16) in Hr.
    assert (In x (seqZ 0 16)) as Hin by (by apply list_elem_of_In, elem_of_seqZ). simpl in Hin. clear Hr.
    repeat destruct Hin as [<-|Hin]; try done; injection E as <-.
    + exists 0. eexists. right. reflexivity.
    + exists 0. eexists. left. reflexivity.
    + exists 1. eexists. left. reflexivity.
    + exists 15. eexists. left. reflexivity.
    + exists 0. eexists. right. reflexivity.
    + exists 1. eexists. right. reflexivity.
    + exists 0. eexists. right. reflexivity.
    + exists 1. eexists. right. reflexivity.
    + exists 0. eexists. left. reflexivity.
    + exists 1. eexists. left. reflexivity.
    + exists 15. eexists. left. reflexivity.
    + exists 1. eexists. right. reflexivity.
Qed.

Lemma demo_kernel_owns u x :
  @kernel_owns demo_machine (m_region0_pt (demo_kmem u)) x <-> 0 <= x < 4.
Proof.
  split.
  - intros (i & q & Hk & E). pose proof (maps_range _ _ _ E) as Hr. change (0 <= i < 16) in Hr. change (i < 14 \/ 16 <= i) in Hk.
    assert (In i (seqZ 0 14)) as Hin by (apply list_elem_of_In, elem_of_seqZ; lia). simpl in Hin.
    repeat destruct Hin as [<-|Hin]; try done; injection E as <- <-; lia.
  - intros Hx. exists x. assert (x = 0 \/ x = 1 \/ x = 2 \/ x = 3) as [->|[->|[->| ->]]] by lia;
      eexists; (split; [left; by vm_compute|reflexivity]).
Qed.

Lemma demo_memory u :
  @memory_ok demo_machine (demo_kstore u) demo_frames (m_region0_pt (demo_kmem u)) (members 1 2 [3%positive] [] []).
Proof.
  split.
  - intros a Ha. destruct (demo_image_at u a Ha). by do 3 eexists.
  - intros a a' x Ha Ha'. rewrite !demo_owns by done. congruence.
  - intros a x Ha. rewrite demo_owns, demo_kernel_owns by done. intros Ho Hx.
    assert (x = 0 \/ x = 1 \/ x = 2 \/ x = 3) as [->|[->|[->| ->]]] by lia; done.
  - intros x Hx Hn. change (0 <= x < 0 + 24) in Hx. rewrite demo_kernel_owns.
    destruct (decide (x < 4)) as [|H4]; [left; lia|right].
    destruct (decide (x < 16)) as [H16|H16].
    2: { destruct Hn. apply elem_of_free_set. split; [done|].
         assert (In x [16; 17; 18; 19; 20; 21; 22; 23]) as Hin by (simpl; lia). simpl in Hin. by repeat destruct Hin as [<-|Hin]. }
    assert (exists a, a ∈ members 1 2 [3%positive] [] [] /\ demo_owner x = Some a) as (a & Ha & Ho).
    { assert (In x [4; 5; 6; 7; 8; 9; 10; 11; 12; 13; 14; 15]) as Hin by (simpl; lia). simpl in Hin.
      repeat destruct Hin as [<-|Hin]; try done; eexists; (split; [|reflexivity]); by apply (bool_decide_unpack _). }
    exists a. split; [done|]. by apply demo_owns.
Qed.

Lemma demo_family u : family_ok 1 demo_fam (demo_kstore u) (members 1 2 [3%positive] [] []).
Proof.
  split.
  - intros a [->|[->| ->]]%demo_members; eexists; (split; [reflexivity|apply demo_pcb_repr]).
  - by intros a [->|[->| ->]]%demo_members.
  - intros a [->|[->| ->]]%demo_members; split; by apply (bool_decide_unpack _).
  - intros a k [->|[->| ->]]%demo_members; simpl; try (by intros ?%not_elem_of_nil). intros ->%list_elem_of_singleton. by eexists.
  - intros a a' k [->|[->| ->]]%demo_members [->|[->| ->]]%demo_members; simpl; try done; by intros ? ?%not_elem_of_nil || by intros ?%not_elem_of_nil.
  - intros a b [->|[->| ->]]%demo_members [= <-]; (split; [done|]); try done. intros _ _ _. exists 2%positive.
    split; by apply (bool_decide_unpack _).
  - intros k [b Hb] Hk. exfalso. apply Hk. simpl in Hb. rewrite !lookup_insert_Some, lookup_singleton_Some in Hb.
    rewrite member_cases, list_elem_of_singleton. destruct Hb as [[<- _]|[_ [[<- _]|[_ [<- _]]]]]; tauto.
Qed.

Lemma demo_world : @world demo_machine 1 2 demo_fam [3%positive] [] [] (demo_kernel_state (demo_uc 0 0 0)).
Proof.
  split.
  - done.
  - apply demo_kernel_sched.
  - apply demo_family.
  - apply demo_memory.
  - apply demo_kernel_kernel_ok.
  - eexists. split; reflexivity.
  - intros a [->|[->| ->]]%demo_members Hne; try done; eexists; (split; [reflexivity|by left]).
  - split; [done|]. intros a [b Hb]. simpl in Hb. rewrite !lookup_insert_Some, lookup_singleton_Some in Hb.
    change (a < 4)%positive. destruct Hb as [[<- _]|[_ [[<- _]|[_ [<- _]]]]]; lia.
  - by vm_compute.
Qed.

Lemma demo_in_world : @in_world demo_machine 1 (demo_kernel_state (demo_uc 0 0 0)).
Proof. exists 2%positive, demo_fam, [3%positive], [], []. split; [apply demo_world|]. right. by apply (bool_decide_unpack _). Qed.

(** The clock ticks while the process at 2 runs, and the one at 3 goes on. *)
Lemma trap_keeps_world_witness :
  exists r s', @interrupt_vector demo_machine demo_files demo_pids demo_boot demo_codes TRAP_CLOCK (demo_uc 1 2 3)
      (demo_kernel_state (demo_uc 0 0 0)) = Some (r, s') /\ (r = None \/ @in_world demo_machine 1 s').
Proof.
  apply (@trap_keeps_world demo_machine demo_machine_ok demo_files demo_pids demo_boot demo_codes demo_codes_ok 1
    (demo_kernel_state (demo_uc 0 0 0)) TRAP_CLOCK (demo_uc 1 2 3) demo_in_world). constructor.
Defined.
