(* ===== verification/BootWorld.v ===== *)
(** * From the boot to the first program

    The first tick of the clock after [KernelStart] gives the processor to the
    first process, which loads its program: after it the kernel is in a world.
    The boot is in [Boot], the world in [ProcessWorld]. *)

From S2P Require Import Prelude Machine FrameTracking Pcb Paging KernelMemory UserMemory AddressSpace Fifo SleepHeap Scheduler Waiters PipeBuffer PipeTable Locks Frame Terminals Kernel DemoKernel Switching PipeCalls TtyCalls Synchronization LoadProgram Syscalls HeapFrame UserBuffers PipeWorld Processes WaitExit Exiting ExecImage Exec KernelStart Boot Interrupt Faults ProcessWorld ProcessCalls ProcessExit ProcessFork ProcessExec ProcessClock ProcessTraps ProcessSafety.

Section start.
Context {hw : Machine} {hw_ok : MachineOk} {files : Files} {pids : PidHelper} {bootargs : Boot} {codes : SyscallCodes}.
Context (pmem_size : Z) (idle n : addr) (u0 : UserContext).
Hypothesis Hbl : boot_layout pmem_size.
Hypothesis Hn : n = Pos.succ idle.
Notation RW := (Z.lor PROT_READ PROT_WRITE).

(** The program on the command line can be loaded when there are [frees] free
    frames. *)
Definition first_program (frees : Z) (args : list (list Z)) (fd : file) (li : load_info) : Prop :=
  exists name rest, cmd_args = name :: rest /\ args = name :: rest /\ open_file name = Some fd /\
    LoadInfo fd = Some li /\ loadable fd li args /\ whole fd li /\ text_page li + li_t_npg li = data_page li /\
    li_t_npg li + data_pages li + stack_pages args <= frees.

(** The pages of the kernel stack. *)
Lemma stack_prot i : 0 <= i < K_STACK_VPNS -> kernel_prot (K_STACK_BASE_VPN + i) = Some RW.
Proof.
  intros Hi. destruct Hbl as [L1 L2 L3 _ _ _ _]. destruct kstack_vpns_spec as (? & ? & ?).
  unfold kernel_prot, K_STACK_VPNS in *. repeat case_decide; try done; lia.
Qed.

(** ** Who owns which frame after the program was loaded *)
Section owners.
Context (s : kstate) (bi bn : pcb) (ti kn : list pte) (pfn : Z) (m' : mstate) (t' : list pte).
Hypothesis Hbd : booted pmem_size idle n 1 u0 s.
Hypothesis Hib : idle_block idle s bi ti pfn.
Hypothesis Hfb : first_block n 1 s bn u0 kn.
Hypothesis Hpfn : pfn ∈ all_frames pmem_size ∖ kernel_frames.
Hypothesis Hlk : zlen kn = K_STACK_VPNS.
Hypothesis Hkn : frames_of kn 0 K_STACK_VPNS ⊆ all_frames pmem_size ∖ kernel_frames ∖ {[pfn]}.
Hypothesis Hfree : free_set (m_frames (k_mem s)) = all_frames pmem_size ∖ kernel_frames ∖ {[pfn]} ∖ frames_of kn 0 K_STACK_VPNS.
Hypothesis Hok' : table_ok (T := region1_table) (m_frames m') t'.
Hypothesis Hnum : NUM_FRAMES (m_frames m') = frame_count pmem_size.
Hypothesis Htot : free_set (m_frames m') ∪ frames_of t' 0 REGION1_VPNS = free_set (m_frames (k_mem s)).

Lemma boot_free x : x ∈ free_set (m_frames m') <-> x ∈ free_set (m_frames (k_mem s)) /\ ~ exists i q, maps t' i = Some (x, q).
Proof.
  rewrite <- Htot, elem_of_union, (frames_of_all (T := region1_table) _ _ _ Hok').
  split; [intros Hx; split; [by left|]; intros (i & q & E); by apply (to_used _ _ Hok') in E|]. intros [[?|?] Hx]; tauto.
Qed.
Lemma boot_range x : frame_range (m_frames m') x <-> x ∈ all_frames pmem_size.
Proof. unfold frame_range. by rewrite Hnum, elem_of_all_frames. Qed.
Lemma first_pages x : (exists i q, maps t' i = Some (x, q)) -> x ∈ free_set (m_frames (k_mem s)).
Proof. intros Hx. rewrite <- Htot. apply elem_of_union_r. by apply (frames_of_all (T := region1_table) _ _ _ Hok'). Qed.
Lemma first_kstack i x q : maps kn i = Some (x, q) ->
  0 <= i < K_STACK_VPNS /\ q = RW /\ x ∈ frames_of kn 0 K_STACK_VPNS.
Proof.
  intros E. pose proof (maps_range _ _ _ E) as Hr. rewrite Hlk in Hr. split; [done|].
  destruct (fb_stack _ _ _ _ _ _ Hfb i Hr) as (f & E' & _). rewrite E in E'. injection E' as -> ->. split; [done|].
  apply elem_of_frames_of. by exists i, RW.
Qed.
Lemma idle_kstack ks i : p_ks_pt bi = Some ks -> 0 <= i < K_STACK_VPNS -> maps ks i = Some (K_STACK_BASE_VPN + i, RW).
Proof.
  intros Hks Hi. destruct (ib_stack _ _ _ _ _ Hib) as (ks' & Hks' & _ & Hm). assert (ks' = ks) as -> by congruence.
  rewrite Hm, (bd_map _ _ _ _ _ _ Hbd), stack_prot by done. done.
Qed.
Lemma stack_frame i : 0 <= i < K_STACK_VPNS -> K_STACK_BASE_VPN + i ∈ kernel_frames.
Proof. intros Hi. apply (elem_of_kernel_frames pmem_size Hbl). rewrite stack_prot by done. by eexists. Qed.
Lemma kernel_frame_all x : x ∈ kernel_frames -> x ∈ all_frames pmem_size.
Proof.
  intros [q Hq]%(elem_of_kernel_frames pmem_size Hbl). destruct (kernel_prot_range pmem_size Hbl x q Hq). by apply elem_of_all_frames.
Qed.
Lemma boot_kernel_owns x : kernel_owns (m_region0_pt (k_mem s)) x <-> x ∈ kernel_frames /\ kernel_page x.
Proof.
  rewrite (elem_of_kernel_frames pmem_size Hbl). unfold kernel_owns. setoid_rewrite (bd_map _ _ _ _ _ _ Hbd). split.
  - intros (i & q & Hk & E). destruct (kernel_prot i) eqn:Ei; [|done]. injection E as -> _. split; [by eexists|done].
  - intros [[q Hq] Hk]. exists x, q. by rewrite Hq.
Qed.

Context (st' : store) (c' : mem_ctx_t) (ks : list pte).
Hypothesis Hks : p_ks_pt bi = Some ks.
Hypothesis Him1 : image st' idle (p_mem_ctx bi) ti ks.
Hypothesis Him2 : image st' n c' t' kn.
Hypothesis Hlay : layout_ok c' t'.

Lemma idle_owns x : owns st' idle x <-> x = pfn \/ exists i, 0 <= i < K_STACK_VPNS /\ x = K_STACK_BASE_VPN + i.
Proof.
  rewrite (owns_image _ _ _ _ _ _ Him1). setoid_rewrite (ib_pages _ _ _ _ _ Hib). split.
  - intros (i & q & [E|E]); [case_decide; [left; congruence|done]|].
    pose proof (maps_range _ _ _ E) as Hr. destruct (ib_stack _ _ _ _ _ Hib) as (ks' & Hks' & Hl & _).
    assert (ks' = ks) as -> by congruence. rewrite Hl in Hr. rewrite (idle_kstack ks i Hks Hr) in E.
    right. exists i. split; [done|]. congruence.
  - intros [->|(i & Hi & ->)].
    + exists (REGION1_VPNS - 1), RW. left. by rewrite decide_True.
    + exists i, RW. right. by apply idle_kstack.
Qed.
Lemma first_owns x : owns st' n x <-> (exists i q, maps t' i = Some (x, q)) \/ x ∈ frames_of kn 0 K_STACK_VPNS.
Proof.
  rewrite (owns_image _ _ _ _ _ _ Him2), elem_of_frames_of. split.
  - intros (i & q & [E|E]); [left; eauto|right]. exists i, q. split; [|done]. by destruct (first_kstack i x q E).
  - intros [(i & q & E)|(i & q & _ & E)]; eauto.
Qed.
Lemma first_own_range x : owns st' n x -> x ∈ all_frames pmem_size /\ x ∉ kernel_frames /\ x <> pfn.
Proof.
  intros [Hx%first_pages|Hx%Hkn]%first_owns; [rewrite Hfree, elem_of_difference in Hx; destruct Hx as [Hx _]|];
    rewrite !elem_of_difference, elem_of_singleton in Hx; tauto.
Qed.
Lemma idle_used x : owns st' idle x -> x ∉ free_set (m_frames m') /\ frame_range (m_frames m') x.
Proof.
  rewrite idle_owns, boot_free, boot_range, Hfree. intros [->|(i & Hi & ->)].
  - split; [|set_solver]. intros [Hx _]. set_solver.
  - pose proof (stack_frame i Hi). split; [|by apply kernel_frame_all]. intros [Hx _]. set_solver.
Qed.
Lemma first_used x : owns st' n x -> x ∉ free_set (m_frames m') /\ frame_range (m_frames m') x.
Proof.
  rewrite first_owns, boot_free, boot_range. intros [Hx|Hx].
  - split; [tauto|]. apply first_pages in Hx. rewrite Hfree in Hx. set_solver.
  - split; [|set_solver]. rewrite Hfree. intros [Hx' _]. set_solver.
Qed.

Lemma idle_image_ok : image_ok (m_frames m') (p_mem_ctx bi) ti ks.
Proof.
  destruct (ib_stack _ _ _ _ _ Hib) as (ks' & Hks' & Hl & _). assert (ks' = ks) as -> by congruence.
  destruct region1_vpns_spec as [Hv _].
  assert (forall i x q, maps ti i = Some (x, q) -> owns st' idle x) as Ho1 by (intros i x q E; apply (owns_image _ _ _ _ _ _ Him1); eauto).
  assert (forall i x q, maps ks i = Some (x, q) -> owns st' idle x) as Ho2 by (intros i x q E; apply (owns_image _ _ _ _ _ _ Him1); eauto).
  assert (forall i x q, maps ks i = Some (x, q) -> 0 <= i < K_STACK_VPNS /\ x = K_STACK_BASE_VPN + i) as Hin.
  { intros i x q E. pose proof (maps_range _ _ _ E) as Hr. rewrite Hl in Hr. split; [done|].
    rewrite (idle_kstack ks i Hks Hr) in E. congruence. }
  split.
  - rewrite (ib_layout _ _ _ _ _ Hib). split; simpl; try lia.
    unfold REGION1_LIMIT_VPN. lia.
  - destruct (ib_user _ _ _ _ _ Hib) as [_ _ [_ Hl1 _ _ Hinj]]. split; [apply Hok'|exact Hl1|..|exact Hinj].
    + intros i x q E. by apply idle_used, (Ho1 i x q).
    + intros i x q E. by apply idle_used, (Ho1 i x q).
  - split; [apply Hok'|exact Hl|..].
    + intros i x q E. by apply idle_used, (Ho2 i x q).
    + intros i x q E. by apply idle_used, (Ho2 i x q).
    + intros i j x q q' E E'. apply Hin in E as [_ ->], E' as [_ E']. lia.
  - intros i Hi. exists (K_STACK_BASE_VPN + i), RW. split; [by apply idle_kstack|apply prot_rw].
  - intros i j x q q' E [Hj ->]%Hin. rewrite (ib_pages _ _ _ _ _ Hib) in E. case_decide; [|done].
    injection E as E _. pose proof (stack_frame j Hj). rewrite <- E in *. set_solver.
Qed.
Lemma first_image_ok : image_ok (m_frames m') c' t' kn.
Proof.
  split; try done.
  - split; [apply Hok'|exact Hlk|..|apply (fb_inj _ _ _ _ _ _ Hfb)].
    + intros i x q E. apply first_used, first_owns. right. by destruct (first_kstack i x q E) as (_ & _ & ?).
    + intros i x q E. apply first_used, first_owns. right. by destruct (first_kstack i x q E) as (_ & _ & ?).
  - intros i Hi. destruct (fb_stack _ _ _ _ _ _ Hfb i Hi) as (f & E & _). exists f, RW. split; [done|apply prot_rw].
  - intros i j x q q' E (_ & _ & Hx)%first_kstack. assert (x ∈ free_set (m_frames (k_mem s))) as Hx' by (apply first_pages; eauto).
    rewrite Hfree in Hx'. set_solver.
Qed.

Lemma boot_memory r0 :
  (forall x, kernel_owns r0 x <-> kernel_owns (m_region0_pt (k_mem s)) x) ->
  memory_ok st' (m_frames m') r0 (members idle n [] [] []).
Proof.
  intros Hr0. assert (forall a, a ∈ members idle n [] [] [] -> a = idle \/ a = n) as HA.
  { intros a. rewrite member_cases, !elem_of_nil. tauto. }
  assert (forall x, owns st' idle x -> owns st' n x -> False) as Hap.
  { intros x Hx (_ & Hk & Hp)%first_own_range. apply idle_owns in Hx as [->|(i & Hi & ->)]; [done|]. by apply Hk, stack_frame. }
  split.
  - intros a [->| ->]%HA; [exists (p_mem_ctx bi), ti, ks|exists c', t', kn]; (split; [done|]); [apply idle_image_ok|apply first_image_ok].
  - intros a a' x [->| ->]%HA [->| ->]%HA Ho Ho'; try done; exfalso; eauto.
  - intros a x [->| ->]%HA Ho Hk; apply Hr0, boot_kernel_owns in Hk as [Hk Hp].
    + apply idle_owns in Ho as [->|(i & Hi & ->)]; [set_solver|]. destruct kstack_vpns_spec as (? & ? & ?).
      unfold kernel_page, K_STACK_VPNS in *. lia.
    + by apply first_own_range in Ho as (_ & ? & _).
  - intros x Hx%boot_range Hnf. rewrite Hr0, boot_kernel_owns.
    destruct (decide (x ∈ kernel_frames)) as [Hk|Hk].
    + destruct (decide (K_STACK_BASE_VPN <= x < K_STACK_LIMIT_VPN)) as [Hs|Hs]; [right|left; split; [done|unfold kernel_page; lia]].
      exists idle. split; [apply member_cases; tauto|]. apply idle_owns. right. exists (x - K_STACK_BASE_VPN).
      unfold K_STACK_VPNS. lia.
    + right. destruct (decide (x = pfn)) as [->|Hp].
      { exists idle. split; [apply member_cases; tauto|]. apply idle_owns. by left. }
      exists n. split; [apply member_cases; tauto|]. apply first_owns.
      destruct (decide (x ∈ frames_of kn 0 K_STACK_VPNS)) as [|Hf]; [by right|left].
      assert (x ∈ free_set (m_frames (k_mem s))) as Hx' by (rewrite Hfree; set_solver).
      rewrite <- Htot, elem_of_union in Hx'. destruct Hx' as [|Hx']; [done|].
      by apply (frames_of_all (T := region1_table) _ _ _ Hok').
Qed.
End owners.

(** ** The first tick *)
Section tick.
Context (s : kstate) (args : list (list Z)) (fd : file) (li : load_info) (u : UserContext).
Hypothesis Hbd : booted pmem_size idle n 1 u0 s.
Hypothesis Hprog : first_program (Z.of_nat (size (free_set (m_frames (k_mem s))))) args fd li.

Lemma boot_heap : heap_ok (k_store s).
Proof.
  destruct (bd_heap _ _ _ _ _ _ Hbd) as [Hm Hx]. split; [done|]. intros a [->| ->]%(bd_only _ _ _ _ _ _ Hbd); rewrite Hx; lia.
Qed.

(** Before the switch: the context of the idle process is saved and the clock
    has ticked. *)
Definition saved (bi : pcb) (t : Z) : kstate :=
  km s (set_m_store (set_pcbs (<[idle := set_p_uc u bi]> (st_pcbs (k_store s))) (k_store s)) (k_mem s))
    (set_num_ticks t (k_sched s)).

Section blocks.
Context (bi bn : pcb) (ti kn : list pte) (pfn t : Z).
Hypothesis Hib : idle_block idle s bi ti pfn.
Hypothesis Hfb : first_block n 1 s bn u0 kn.
Hypothesis Hpfn : pfn ∈ all_frames pmem_size ∖ kernel_frames.
Hypothesis Hlk : zlen kn = K_STACK_VPNS.
Hypothesis Hkn : frames_of kn 0 K_STACK_VPNS ⊆ all_frames pmem_size ∖ kernel_frames ∖ {[pfn]}.
Hypothesis Hfree : free_set (m_frames (k_mem s)) = all_frames pmem_size ∖ kernel_frames ∖ {[pfn]} ∖ frames_of kn 0 K_STACK_VPNS.

Lemma idle_not_first : idle <> n.
Proof. rewrite Hn. lia. Qed.
Lemma saved_sched : sched_inv (k_store (saved bi t), k_sched (saved bi t)) [n] [] [].
Proof.
  simpl. apply sched_inv_set_ticks. eapply sched_inv_keeps; [apply Hbd|].
  apply (keeps_update _ idle bi (set_p_uc u)); [apply (ib_block _ _ _ _ _ Hib)|done..].
Qed.
Lemma saved_heap : heap_ok (k_store (saved bi t)).
Proof. apply heap_ok_insert; [apply boot_heap|]. rewrite (ib_block _ _ _ _ _ Hib). by eexists. Qed.
Lemma saved_switchable : switchable (k_store (saved bi t)) (KC_start n) n.
Proof.
  destruct (fb_state _ _ _ _ _ _ Hfb) as (_ & _ & _ & Hk & Hs). exists bn, kn. split; [|done].
  simpl. rewrite lookup_insert_ne by apply idle_not_first. apply Hfb.
Qed.

(** After the switch, when the first process runs with the block [b3]. *)
Section switched.
Context (s3 : kstate) (nx : option addr).
Hypothesis Hsd : switch_done KC_return idle idle [n] [] [] (saved bi t) s3.
Let b3 : pcb := set_p_state RUNNING (set_p_next nx bn).
Hypothesis Hb3 : st_pcbs (k_store s3) !! n = Some b3.
Hypothesis Hh3 : heap_ok (k_store s3).
Notation blank := (replicate (Z.to_nat REGION1_VPNS) pte_zero).

Lemma blank_frames a z : frames_of blank a z = ∅.
Proof.
  apply set_eq. intros x. rewrite elem_of_frames_of. split; [|done]. intros (i & q & _ & E). by rewrite blank_table in E.
Qed.
Lemma first_loads : loads (k_mem s3) n b3 blank (hd [] args) args fd li.
Proof.
  destruct Hsd as [_ _ _ _ _ [Ecx _ _ _ _ (Ef & _)] _]. destruct Hprog as (name & rest & Hc & -> & Ho & Hli & Hlo & Hwh & _ & Hsz).
  split; [split; try done|split; [|exact Hwh]].
  - split; [apply current_ctx_Some; by exists n, b3|apply (fb_pages _ _ _ _ _ _ Hfb)|].
    rewrite Ef. split; [apply (ko_table _ (bd_kernel _ _ _ _ _ _ Hbd))| |intros ? ? ?; by rewrite blank_table..].
    destruct region1_vpns_spec as [Hv _]. unfold zlen. rewrite length_replicate. simpl. lia.
  - apply Hh3.
  - rewrite Ef, blank_frames, union_empty_r_L. exact Hsz.
Qed.

Context (t' : list pte) (m' : mstate).
Hypothesis Hld : loaded (k_mem s3) n b3 blank args fd li t' m'.
Hypothesis Hh' : heap_ok (m_store m').

Lemma first_total : free_set (m_frames m') ∪ frames_of t' 0 REGION1_VPNS = free_set (m_frames (k_mem s)).
Proof.
  destruct Hsd as [_ _ _ _ _ [_ _ _ _ _ (Ef & _)] _].
  by rewrite (ld_frames _ _ _ _ _ _ _ _ _ Hld), Ef, blank_frames, union_empty_r_L.
Qed.
Lemma first_count : NUM_FRAMES (m_frames m') = frame_count pmem_size.
Proof.
  destruct Hsd as [_ _ _ _ _ [_ _ _ _ _ (Ef & _)] _]. destruct (ld_kernel _ _ _ _ _ _ _ _ _ Hld) as (_ & _ & _ & _ & ->).
  rewrite Ef. apply Hbd.
Qed.
Lemma first_pages_ok : table_ok (T := region1_table) (m_frames m') t'.
Proof. apply Hld. Qed.

(** The two blocks. *)
Lemma after_idle : st_pcbs (m_store m') !! idle = Some (set_p_kc KC_return (set_p_uc u bi)).
Proof.
  rewrite (ld_others _ _ _ _ _ _ _ _ _ Hld) by apply idle_not_first. destruct Hsd as [_ _ _ _ (Hbi & _) _ _].
  change (m_store (k_mem s3)) with (k_store s3). rewrite Hbi. simpl. by rewrite lookup_insert_eq.
Qed.
Lemma after_only a : is_Some (st_pcbs (m_store m') !! a) -> a = idle \/ a = n.
Proof.
  intros Ha. destruct (decide (a = n)) as [|Han]; [by right|]. left. destruct (decide (a = idle)) as [|Hai]; [done|].
  rewrite (ld_others _ _ _ _ _ _ _ _ _ Hld) in Ha by done. destruct Hsd as [_ _ _ _ (_ & Ho & _) _ _].
  change (m_store (k_mem s3)) with (k_store s3) in Ha. rewrite Ho in Ha by done. simpl in Ha.
  rewrite lookup_insert_ne in Ha by done. apply (bd_only _ _ _ _ _ _ Hbd) in Ha. tauto.
Qed.
Lemma after_idle_image ks : p_ks_pt bi = Some ks -> image (m_store m') idle (p_mem_ctx bi) ti ks.
Proof.
  intros Hks. eexists. split; [apply after_idle|]. split; [done|]. split; [|exact Hks].
  destruct (ib_user _ _ _ _ _ Hib) as [_ Ht _]. exact Ht.
Qed.
Lemma after_first_image : image (m_store m') n (loaded_ctx li t' (p_mem_ctx b3)) t' kn.
Proof.
  eexists. split; [apply Hld|]. split; [done|]. split; [done|]. apply (fb_state _ _ _ _ _ _ Hfb).
Qed.
Lemma after_layout : layout_ok (loaded_ctx li t' (p_mem_ctx b3)) t'.
Proof.
  destruct Hprog as (name & rest & _ & _ & _ & _ & Hlo & _ & Hgap & _). eapply loaded_layout; [exact Hlo|exact Hgap|apply Hld].
Qed.
Ltac boot_facts := first [eassumption | exact first_pages_ok | exact first_count | exact first_total | exact after_layout
  | apply after_first_image | by apply after_idle_image].

Lemma after_kernel : kernel_ok m' /\ forall x, kernel_owns (m_region0_pt m') x <-> kernel_owns (m_region0_pt (k_mem s)) x.
Proof.
  destruct Hsd as [_ _ _ _ _ [_ (b & Hb & Hz) Hout Hl _ (Ef & _ & Ev & Eb)] _].
  destruct (ld_kernel _ _ _ _ _ _ _ _ _ Hld) as (E0 & Eb' & _ & Ev' & _). simpl in Hb, Hz, Hout, Hl, Ef, Ev, Eb.
  change (m_store (k_mem s3)) with (k_store s3) in Hb. rewrite Hb3 in Hb. injection Hb as <-.
  assert (p_ks_pt b3 = Some kn) as Hk3 by apply (fb_state _ _ _ _ _ _ Hfb). rewrite Hk3 in Hz.
  assert (image_ok (m_frames m') (loaded_ctx li t' (p_mem_ctx b3)) t' kn) as Hio.
  { destruct (ib_stack _ _ _ _ _ Hib) as (ks & Hks & _). pose proof (after_idle_image ks Hks).
    eapply (first_image_ok s bi bn ti kn pfn m' t'); boot_facts. }
  apply (kernel_ok_restack (k_mem s) m' kn); rewrite ?E0; try done; try (by rewrite ?Ev', ?Eb').
  - apply Hbd.
  - apply first_pages_ok.
  - rewrite first_count. symmetry. apply Hbd.
  - rewrite Hl. apply (to_len _ _ (ko_table _ (bd_kernel _ _ _ _ _ _ Hbd))).
  - apply Hio.
  - apply Hio.
  - intros x Hx. apply (boot_kernel_owns s Hbd) in Hx as [Hx _].
    intros [Hf _]%(boot_free s m' t' first_pages_ok first_total). rewrite Hfree in Hf. set_solver.
  - intros i x q E Hx. apply (boot_kernel_owns s Hbd) in Hx as [Hx _].
    assert (x ∈ frames_of kn 0 K_STACK_VPNS) as Hx'%Hkn; [|set_solver].
    apply elem_of_frames_of. exists i, q. split; [|done]. apply maps_range in E. by rewrite Hlk in E.
Qed.

Lemma after_world : world idle n (fun _ => []) [] [] [] (set_k_mem m' s3).
Proof.
  destruct (ib_stack _ _ _ _ _ Hib) as (ks & Hks & _). pose proof after_kernel as [Hk Hko].
  pose proof (after_idle_image ks Hks).
  assert (forall a, a ∈ members idle n [] [] [] -> a = idle \/ a = n) as HA.
  { intros a. rewrite member_cases, !elem_of_nil. tauto. }
  destruct (ld_kernel _ _ _ _ _ _ _ _ _ Hld) as (E0 & Eb & Ec & _).
  destruct Hsd as [Hrun Hidle _ Hinv _ [Ecx (b & Hb & Hz) _ _ _ (_ & _ & _ & Eb3)] _].
  destruct (fb_state _ _ _ _ _ _ Hfb) as ((Hrn & Hsn) & Hpid & _). destruct (ib_alone _ _ _ _ _ Hib) as [Hri Hsi].
  split.
  - split; [exact Hrun|]. split; [exact Hidle|]. simpl. by rewrite Ec.
  - eapply sched_inv_keeps; [exact Hinv|]. intros a ba Ha. by apply not_elem_of_nil in Ha.
  - simpl. split.
    + intros a [->| ->]%HA; eexists; (split; [first [apply after_idle|apply Hld]|]); done.
    + intros a [->| ->]%HA; unfold exited; change (k_store _) with (m_store m'); [rewrite after_idle|rewrite (ld_block _ _ _ _ _ _ _ _ _ Hld)]; simpl; by rewrite ?Hsi.
    + intros a _. split; [constructor|apply not_elem_of_nil].
    + by intros a k _ ?%not_elem_of_nil.
    + by intros a a' k _ _ ?%not_elem_of_nil.
    + intros a ba [->| ->]%HA Hba; (split; [by intros (w & _ & ?%not_elem_of_nil)|]); [done|].
      intros _ _ Hp1. change (k_store _) with (m_store m') in Hba. rewrite (ld_block _ _ _ _ _ _ _ _ _ Hld) in Hba. injection Hba as <-. by destruct Hp1.
    + intros k Hk' Hno. destruct Hno. apply member_cases. apply after_only in Hk'. tauto.
  - simpl. eapply (boot_memory s bi bn ti kn pfn m' t'); boot_facts.
  - exact Hk.
  - eexists. split; [apply Hld|]. simpl. rewrite E0. change (m_store (k_mem s3)) with (k_store s3) in Hb.
    simpl in Hb. rewrite Hb3 in Hb. injection Hb as <-. exact Hz.
  - intros a [->| ->]%HA Ha; [|done]. eexists. split; [apply after_idle|by left].
  - exact Hh'.
  - simpl. rewrite Eb, Eb3. simpl. destruct (bd_machine _ _ _ _ _ _ Hbd) as (_ & _ & ->). apply Hbl.
Qed.
End switched.
End blocks.

Lemma first_tick :
  wp (trap_clock_handler u) (fun r s' => is_Some r /\ world idle n (fun _ => []) [] [] [] s') s.
Proof.
  pose proof idle_not_first as Hne.
  destruct (bd_blocks _ _ _ _ _ _ Hbd) as (bi & bn & ti & kn & pfn & Hib & Hfb & _ & Hpfn & Hlk & Hkn & Hfree).
  destruct (bd_running _ _ _ _ _ _ Hbd) as [Hrun Hidle]. pose proof (bd_ready _ _ _ _ _ _ Hbd) as Hinv.
  unfold trap_clock_handler, increment_ticks. wp_step. wp_step. wp_step. set (t := to_i32 (num_ticks (k_sched s) + 1)).
  match goal with |- wp _ _ ?s2 => assert (s2 = km s (k_mem s) (set_num_ticks t (k_sched s))) as -> by (by destruct s as [[] ? ? ? ?]) end.
  pose proof (sched_inv_set_ticks _ _ _ _ _ t Hinv) as Hinv1.
  wp_step. apply wp_km_sched. change (m_store (k_mem s)) with (k_store s). unfold wp at 1. rewrite (no_waiters _ _ _ _ Hinv1). cbn [fst snd].
  change (k_store s) with (m_store (k_mem s)). rewrite set_m_store_same.
  wp_step. apply wp_km_sched. change (m_store (k_mem s)) with (k_store s). unfold wp at 1. rewrite (no_sleepers _ _ _ _ Hinv1). cbn [fst snd].
  change (k_store s) with (m_store (k_mem s)). rewrite set_m_store_same.
  wp_step. unfold save_uc. wp_step. apply wp_km_running with idle; [exact Hrun|]. wp_step. apply wp_km_store.
  eapply wp_update; [apply (ib_block _ _ _ _ _ Hib)|]. wp_step.
  change (m_store (k_mem s)) with (k_store s). fold (saved bi t).
  pose proof (saved_sched bi ti pfn t Hib) as Hinv2. pose proof (saved_heap bi ti pfn t Hib) as Hh2.
  wp_step. rewrite <- (km_same (saved bi t)). apply wp_km_sched. unfold schedule_process. wp_steps. simpl idle_proc.
  rewrite decide_True by done. wp_step. cbn [fst snd]. rewrite set_m_store_same, km_same.
  wp_step. eapply wp_mono; [apply wp_tidy; [apply tidy_zoom, tidy_get_next_process|exact Hh2|];
    apply (next_and_switch_ok KC_return (KC_start n) idle idle [n] [] []); try done|].
  { simpl. rewrite lookup_insert_eq. by eexists. }
  { by eapply saved_switchable. }
  { apply (to_len _ _ (ko_table _ (bd_kernel _ _ _ _ _ _ Hbd))). }
  intros next s2 [[-> Hfs] Hhs]. cbn [next_of]. rewrite decide_True by done. wp_step. wp_step.
  eapply wp_mono; [apply wp_tidy; [apply tidy_FullContextSwitch|exact Hhs|exact Hfs]|].
  intros k s3 [[-> Hsd] Hh3]. wp_step. change (heap_ok (k_store s3)) in Hh3.
  destruct (sd_blocks _ _ _ _ _ _ _ _ Hsd) as (_ & _ & nx & Hb3). simpl in Hb3. rewrite lookup_insert_ne in Hb3 by done.
  rewrite (fb_block _ _ _ _ _ _ Hfb) in Hb3. simpl in Hb3.
  pose proof (first_loads bi bn kn t Hfb s3 nx Hsd Hb3 Hh3) as Hl.
  destruct Hprog as (name & rest & Hc & Hargs & _). rewrite Hargs in Hl. simpl in Hl.
  unfold finish. wp_step. wp_step. cbn [end_of_trap]. wp_step. unfold resume. rewrite <- (km_same s3). wp_step.
  apply wp_km_running with n; [apply Hsd|]. rewrite km_same. unfold kernel_started. rewrite <- (km_same s3).
  wp_step. apply wp_km_running with n; [apply Hsd|]. rewrite decide_True by done. rewrite Hc. wp_step. apply wp_km.
  eapply wp_mono; [apply wp_tidy; [apply tidy_LoadProgram|exact Hh3|by eapply LoadProgram_ok]|].
  intros r m' [(-> & t' & Hd) Hh']. cbn [negb SUCCESS Z.eqb]. wp_step. apply wp_km_store. eapply wp_load; [apply Hd|]. wp_step.
  cbn [end_of_trap]. wp_step. split; [by eexists|]. rewrite set_m_store_same.
  rewrite <- Hargs in Hd. eapply (after_world bi bn ti kn pfn t); try done.
Qed.
End tick.

(** The frames that the kernel, the idle process and the new kernel stack
    leave. *)
Lemma booted_frees s : booted pmem_size idle n 1 u0 s ->
  Z.of_nat (size (all_frames pmem_size ∖ kernel_frames)) - 1 - K_STACK_VPNS <=
  Z.of_nat (size (free_set (m_frames (k_mem s)))).
Proof.
  intros Hbd. destruct (bd_blocks _ _ _ _ _ _ Hbd) as (bi & bn & ti & kn & pfn & _ & _ & _ & Hpfn & _ & Hkn & ->).
  assert (size (frames_of kn 0 K_STACK_VPNS) <= Z.to_nat K_STACK_VPNS)%nat as Hle.
  { rewrite <- (length_seqZ 0 K_STACK_VPNS). apply (size_frames_le kn). intros x (i & q & Hi & E)%elem_of_frames_of.
    exists i, q. split; [apply elem_of_seqZ; lia|exact E]. }
  rewrite (size_difference _ (frames_of kn 0 K_STACK_VPNS)) by exact Hkn.
  rewrite (size_difference _ {[pfn]}) by (by apply singleton_subseteq_l). rewrite size_singleton. destruct kstack_vpns_spec as (? & ? & ?). unfold K_STACK_VPNS in *. lia.
Qed.
End start.

(** C1: the kernel is safe from the boot on.  On a machine that is large enough,
    when the second process number that is handed out is 1 and the program on
    the command line is whole and fits into the frames that are left,
    [KernelStart] goes through, and the first tick of the clock starts the
    program.  Whatever sequence of clock ticks, faults and calls of [GetPid],
    [Delay], [Brk], [Fork], [Exec], [Wait] and [Exit] the processes make from
    then on (as [ProcessTraps.call_ready] says): one process runs, with its own page table and its own kernel stack,
    and the queues of the scheduler hold the others; no frame belongs to two
    processes, or to a process and the kernel; a frame is in use exactly when it
    belongs to a process or to the kernel, so none is ever lost; the blocks on
    the heap are those of the processes and of the exited children that their
    parents have not waited for; and the next such trap does not get the kernel
    stuck. *)
Theorem kernel_safe_from_boot {hw : Machine} {hw_ok : MachineOk} {files : Files} {pids : PidHelper} {pids_ok : PidHelperOk}
    {bootargs : Boot} {codes : SyscallCodes} {codes_ok : SyscallCodesOk} (pmem_size : Z) (s0 : kstate) (u0 u : UserContext)
    (args : list (list Z)) (fd : file) (li : load_info) :
  bootstrap pmem_size s0 -> second_pid (st_pid_calls (k_store s0)) = 1 ->
  first_program (Z.of_nat (size (all_frames pmem_size ∖ kernel_frames)) - 1 - K_STACK_VPNS) args fd li ->
  let idle := st_next (k_store s0) in
  exists s1 u2 s2,
    KernelStart pmem_size u0 s0 = Some (Started (set_up_uc u0 idle_func (VMEM_1_LIMIT - 1)), s1) /\
    interrupt_vector TRAP_CLOCK u s1 = Some (Some u2, s2) /\
    running_proc (k_sched s2) = Some (Pos.succ idle) /\
    forall s, rtc process_step s2 s ->
    exists p (fam : addr -> list addr) R W S,
      let A := members idle p R W S in
      let f := m_frames (k_mem s) in
      let r0 := m_region0_pt (k_mem s) in
      (running_proc (k_sched s) = Some p /\ m_mem_ctx (k_mem s) = Some p /\
       sched_inv (k_store s, k_sched s) R W S /\
       exists b, st_pcbs (k_store s) !! p = Some b /\ zslice r0 K_STACK_BASE_VPN K_STACK_VPNS = p_ks_pt b) /\
      (forall a a' x, a ∈ A -> a' ∈ A -> owns (k_store s) a x -> owns (k_store s) a' x -> a = a') /\
      (forall a x, a ∈ A -> owns (k_store s) a x -> ~ kernel_owns r0 x) /\
      (forall x, frame_range f x -> x ∉ free_set f <-> kernel_owns r0 x \/ exists a, a ∈ A /\ owns (k_store s) a x) /\
      (forall k, is_Some (st_pcbs (k_store s) !! k) <->
         k ∈ A \/ exited (k_store s) k = true /\ exists w, w ∈ A /\ k ∈ fam w) /\
      (forall tr v, process_trap s tr v -> exists r s', interrupt_vector tr v s = Some (r, s')).
Proof.
  intros [Hbl He Hm Ho] Hpid Hprog idle.
  pose proof (KernelStart_ok pmem_size idle (Pos.succ idle) 1 (k_mem s0) (k_sched s0) (k_sync s0) (k_pipes s0) (k_ttys s0) u0
    Hbl eq_refl eq_refl He Hm Ho Hpid) as (f & s1 & Hstart & -> & Hbd)%wp_run.
  assert (first_program (Z.of_nat (size (free_set (m_frames (k_mem s1))))) args fd li) as Hprog1.
  { destruct Hprog as (name & rest & H1 & H2 & H3 & H4 & H5 & H6 & H7). exists name, rest. do 6 (split; [done|]).
    pose proof (booted_frees pmem_size idle (Pos.succ idle) u0 eq_refl s1 Hbd). lia. }
  destruct (proj1 (wp_run _ _ _) (first_tick pmem_size idle (Pos.succ idle) u0 Hbl eq_refl s1 args fd li u Hbd Hprog1))
    as (r & s2 & Hrun & [u2 ->] & Hw).
  exists s1, u2, s2. split; [by destruct s0|]. split; [exact Hrun|]. split; [apply Hw|]. intros s Hsteps.
  apply in_world_safe. eapply in_world_reachable; [|exact Hsteps]. exists (Pos.succ idle), (fun _ => []), [], [], [].
  split; [exact Hw|]. right. apply not_elem_of_nil.
Qed.

(** The concrete machine boots and starts "i". *)
Lemma kernel_safe_from_boot_witness :
  exists s1 u2 s2,
    @KernelStart demo_machine demo_files demo_pids demo_boot 512 uc_zero demo_boot_state =
      Some (Started (uc_set_sp 511 (uc_set_pc 4 uc_zero)), s1) /\
    @interrupt_vector demo_machine demo_files demo_pids demo_boot demo_codes TRAP_CLOCK uc_zero s1 = Some (Some u2, s2) /\
    running_proc (k_sched s2) = Some 2%positive.
Proof.
  assert (@bootstrap demo_machine 512 demo_boot_state) as Hb.
  { split; [split; by vm_compute|done|done|done]. }
  destruct (@kernel_safe_from_boot demo_machine demo_machine_ok demo_files demo_pids demo_pids_ok demo_boot demo_codes demo_codes_ok
    512 demo_boot_state uc_zero uc_zero [[105]] tt demo_info Hb eq_refl) as (s1 & u2 & s2 & H1 & H2 & H3 & _).
  - exists [105], []. do 4 (split; [reflexivity|]). split; [exact demo_loadable|]. split; [done|]. split; by vm_compute.
  - exists s1, u2, s2. split; [exact H1|]. split; [exact H2|exact H3].
Defined.
