(* ===== verification/Monitor.v ===== *)
(** * A monitor under any sequence of system calls and clock interrupts

    The system calls on one lock (or semaphore) and one condition variable,
    [Delay] and [GetPid], and the clock interrupt, from the trap's entry to its
    end, with the context switches they cause: each ends, without undefined
    behaviour, in a state where every process is in exactly one place. *)

From S2P Require Import Prelude Machine Tables Pcb FrameTracking Paging KernelMemory UserMemory Fifo SleepHeap Scheduler Waiters Identifiers PipeBuffer PipeTable Locks Frame CondVars Terminals Kernel DemoKernel Switching MonitorWorld Synchronization LoadProgram Syscalls KernelStart Interrupt.

Section handlers.
Context {hw : Machine} {hw_ok : MachineOk} (ci li : Z) (P : list addr) (idle : addr).
Notation world := (kworld ci li P idle).
Notation monitor := (monitor ci li P idle).

(** ** Parts of a handler *)

(** A component's operation that leaves the processes alone. *)
Lemma wp_sync {A} (m : M sync_st A) Q p X C H W R S s :
  world p X C H W R S s -> preserves m -> wp m Q ((k_store s, k_sched s), k_sync s) ->
  wp (zoom m) (fun r s' => Q r ((k_store s', k_sched s'), k_sync s') /\
    forall X' C' H' W' R' S',
      cvar_world ci li C' H' W' R' [] S' (k_store s') (k_sched s') (k_sync s') ->
      X' ++ W' ++ C' ++ R' ++ S' ≡ₚ X ++ W ++ C ++ R ++ S -> world p X' C' H' W' R' S' s') s.
Proof.
  intros Hk Hm HQ. wp_step. change (lget s) with ((k_store s, k_sched s), k_sync s).
  eapply wp_mono; [by apply wp_preserves|]. intros r [[st sc] sy] (HQ' & Hs & Hr).
  split; [exact HQ'|]. intros X' C' H' W' R' S' Hw' Hperm.
  simpl in Hs, Hr. injection Hr as Hr1 Hr2 Hr3.
  by eapply kworld_step.
Qed.
Lemma wp_sched {A} (m : M sched_st A) Q p X C H W R S s :
  world p X C H W R S s -> preserves m -> wp m Q (k_store s, k_sched s) ->
  wp (zoom m) (fun r s' => Q r (k_store s', k_sched s') /\ k_sync s' = k_sync s /\
    idle_proc (k_sched s') = idle_proc (k_sched s) /\
    forall X' C' H' W' R' S',
      cvar_world ci li C' H' W' R' [] S' (k_store s') (k_sched s') (k_sync s) ->
      X' ++ W' ++ C' ++ R' ++ S' ≡ₚ X ++ W ++ C ++ R ++ S -> world p X' C' H' W' R' S' s') s.
Proof.
  intros Hk Hm HQ. wp_step. change (lget s) with (k_store s, k_sched s).
  eapply wp_mono; [by apply wp_preserves|]. intros r [st sc] (HQ' & Hs & Hr).
  simpl in Hs, Hr. injection Hr as Hr1 Hr2 Hr3.
  split; [exact HQ'|]. split; [done|]. split; [done|]. intros X' C' H' W' R' S' Hw' Hperm.
  by eapply kworld_step.
Qed.

Lemma wp_running p X C H W R S s Q :
  world p X C H W R S s -> Q p s -> wp running Q s.
Proof.
  intros Hk HQ. unfold running. wp_step. wp_step. unfold get_running_proc. wp_step.
  eapply wp_lift_opt; [apply Hk|]. by destruct s as [[] ? ? ? ?].
Qed.

Lemma set_reg0_world p X C H W R S s v Q :
  world p X C H W R S s -> (forall s', world p X C H W R S s' -> Q tt s') -> wp (set_reg0 p v) Q s.
Proof.
  intros Hk HQ. destruct (kw_block _ _ _ _ _ _ _ _ _ _ _ _ Hk) as [b Hb].
  unfold set_reg0. wp_step. change (lget s) with (k_store s). eapply wp_update; [exact Hb|].
  apply HQ. apply (kworld_uc _ _ _ _ _ _ _ _ _ _ _ _ p b (fun b => set_p_uc (uc_set_reg0 v (p_uc b)) b)); [done..|].
  intros b'. by eexists.
Qed.
Lemma get_uc_world p X C H W R S s Q :
  world p X C H W R S s -> (forall b, st_pcbs (k_store s) !! p = Some b -> Q (p_uc b) s) ->
  wp (get_uc p) Q s.
Proof.
  intros Hk HQ. destruct (kw_block _ _ _ _ _ _ _ _ _ _ _ _ Hk) as [b Hb].
  unfold get_uc. wp_step. wp_step. change (lget s) with (k_store s). eapply wp_load; [exact Hb|].
  wp_step. assert (lset (k_store s) s = s) as -> by (by destruct s as [[] ? ? ? ?]). by apply HQ.
Qed.

(** ** How a handler may end *)
Definition ends (f : flow) (s : kstate) : Prop :=
  (f = Returned \/ f = Switched KC_return) /\ exists p C H W R S, monitor p C H W R S s.

Section calls.
Context (p : addr) (C : list addr) (H : list Z) (W R S : list addr).
Hypothesis Hp : p <> idle.

Lemma placed_running : placed idle p = [p].
Proof. unfold placed. by rewrite decide_False. Qed.

Lemma running_number s : monitor p C H W R S s -> exists b, st_pcbs (k_store s) !! p = Some b /\ 0 < p_pid b /\
  p ∉ W ++ C ++ R ++ S /\ idle_proc (k_sched s) <> Some p /\
  pid_at (k_store s) p ∉ pid_at (k_store s) <$> W ++ C.
Proof.
  intros Hk. destruct (kw_block _ _ _ _ _ _ _ _ _ _ _ _ Hk) as [b Hb]. exists b. split; [done|].
  pose proof (kw_all _ _ _ _ _ _ _ _ _ _ _ _ Hk) as HP. rewrite placed_running in HP.
  assert (p ∈ P) as HpP by (rewrite <- HP; set_solver).
  split; [apply (kw_positive _ _ _ _ _ _ _ _ _ _ _ _ Hk p); [done|unfold pid_at; by rewrite Hb]|].
  split; [apply (kw_out _ _ _ _ _ _ _ _ _ _ _ _ p Hk); rewrite placed_running; set_solver|].
  split; [rewrite (proj2 (kw_roles _ _ _ _ _ _ _ _ _ _ _ _ Hk)); congruence|].
  pose proof (kw_pids _ _ _ _ _ _ _ _ _ _ _ _ Hk) as Hnd. rewrite <- HP in Hnd. simpl in Hnd.
  apply NoDup_cons in Hnd as [Hnd _]. rewrite !fmap_app in *. set_solver.
Qed.

Lemma returned s : monitor p C H W R S s -> ends Returned s.
Proof. intros Hk. split; [by left|]. by exists p, C, H, W, R, S. Qed.

(** The call ends with a result for the process that runs on. *)
Lemma result_world s v C' H' W' R' S' :
  world p [p] C' H' W' R' S' s ->
  wp (set_reg0 p v) (fun _ s' => wp (mret Returned) ends s') s.
Proof.
  intros Hk. eapply set_reg0_world; [exact Hk|]. intros s' Hk'. wp_step. split; [by left|].
  exists p, C', H', W', R', S'. unfold MonitorWorld.monitor. by rewrite placed_running.
Qed.
(** The process blocks: it has been queued, or sleeps. *)
Lemma block_world s C' H' W' R' S' :
  world p [] C' H' W' R' S' s -> p ∉ R' -> wp (switch_away KC_return (Some p)) ends s.
Proof.
  intros Hk HpR. eapply wp_mono; [apply (switch_away_world _ _ _ _ _ _ _ _ _ _ _ Hk)|].
  - destruct R'; simpl; set_solver.
  - intros f s' [-> Hm]. split; [by right|]. by do 6 eexists.
Qed.

Lemma acquire_or_block_world s id :
  monitor p C H W R S s -> GET_ID id = li -> wp (acquire_or_block p id) ends s.
Proof.
  intros Hk Hid. destruct (running_number s Hk) as (b & Hb & Hpid & Hpq & Hidle & HpWC).
  unfold MonitorWorld.monitor in Hk. rewrite placed_running in Hk.
  unfold acquire_or_block. rewrite Hid. wp_step. eapply wp_running; [exact Hk|].
  wp_step. eapply wp_mono; [eapply (wp_sync _ _ _ _ _ _ _ _ _ _ Hk); [apply acquire_frame|];
    eapply acquire_world; [apply Hk|exact Hb|done|done|set_solver|done]|].
  intros r s1 [[Hsc Hres] Hlift]. simpl in Hsc, Hres. rewrite Hsc in Hlift. clear Hsc.
  destruct (decide (p_pid b ∈ H)); [|destruct (decide _)].
  - destruct Hres as [-> Es]. simpl. wp_step. eapply result_world. apply Hlift; [|done].
    injection Es as -> _ ->. apply Hk.
  - destruct Hres as (-> & -> & Hw & _). simpl. wp_step. eapply result_world. by apply Hlift; [exact Hw|].
  - destruct Hres as (-> & Hw & _). simpl. wp_step.
    eapply set_reg0_world; [apply (Hlift [] C H (W ++ [p]) R S); [exact Hw|]|].
    { simpl. rewrite <- !(assoc_L (++)). simpl. by rewrite <- Permutation_middle. }
    intros s2 Hk2. eapply block_world; [exact Hk2|set_solver].
Qed.

(** The processes of [given_up] are those of before. *)
Lemma given_up_world s1 X X' C' H0 n left :
  (forall X' C' H' W' R' S',
      cvar_world ci li C' H' W' R' [] S' (k_store s1) (k_sched s1) (k_sync s1) ->
      X' ++ W' ++ C' ++ R' ++ S' ≡ₚ X ++ W ++ C ++ R ++ S -> world p X' C' H' W' R' S' s1) ->
  given_up ci li C' H0 W R [] S n left ((k_store s1, k_sched s1), k_sync s1) ->
  X' ++ C' ≡ₚ X ++ C ->
  exists H' W' R', world p X' C' H' W' R' S s1 /\ forall a, a ∈ R' -> a ∈ W ++ R.
Proof.
  intros Hlift Hgiven HX. unfold given_up in Hgiven. simpl in Hgiven. destruct W as [|w W'].
  - destruct Hgiven as [Hw _]. exists H0, [], R. split; [|set_solver]. apply Hlift; [exact Hw|].
    simpl. rewrite !(assoc_L (++)). by rewrite HX.
  - destruct Hgiven as [Hw _]. exists (n :: H0), W', (R ++ [w]). split; [|set_solver].
    apply Hlift; [exact Hw|].
    trans (w :: W' ++ (X' ++ C') ++ R ++ S); [|rewrite HX]; solve_Permutation.
Qed.

(** Releasing, in the world of the running process. *)
Lemma release_kernel s :
  monitor p C H W R S s ->
  wp (zoom (release li p false)) (fun r s' => exists H' W' R', world p [p] C H' W' R' S s') s.
Proof.
  intros Hk. destruct (running_number s Hk) as (b & Hb & Hpid & Hpq & Hidle & HpWC).
  unfold MonitorWorld.monitor in Hk. rewrite placed_running in Hk.
  pose proof (kw_world _ _ _ _ _ _ _ _ _ _ _ _ Hk) as Hw.
  eapply wp_mono; [eapply (wp_sync _ _ _ _ _ _ _ _ _ _ Hk); [apply release_frame|]|].
  { apply (release_world ci li C H W R [] S _ _ _ p b false Hw Hb Hpid). set_solver. }
  intros r s1 [Hres Hlift]. cbv beta in Hres. case_decide.
  - destruct Hres as (_ & G & n & _ & _ & _ & _ & _ & _ & Hgiven).
    destruct (given_up_world s1 [p] [p] C G n _ Hlift Hgiven ltac:(done)) as (H' & W' & R' & ? & _).
    by exists H', W', R'.
  - destruct Hres as [_ Es]. exists H, W, R. apply Hlift; [|done]. injection Es as -> -> ->. apply Hk.
Qed.

Lemma Release_Impl_world s b :
  monitor p C H W R S s -> st_pcbs (k_store s) !! p = Some b -> GET_ID (reg0_int (p_uc b)) = li ->
  wp (returning (Release_Impl p)) ends s.
Proof.
  intros Hk Hb Hid. pose proof Hk as Hk'. unfold MonitorWorld.monitor in Hk'. rewrite placed_running in Hk'.
  unfold returning, Release_Impl. wp_step. wp_step. eapply get_uc_world; [exact Hk|].
  intros b' Hb'. assert (b' = b) as -> by congruence. cbv zeta. wp_if; [by eapply result_world|].
  wp_step. eapply wp_running; [exact Hk|]. wp_step. rewrite Hid.
  eapply wp_mono; [by apply release_kernel|]. intros r s1 (H' & W' & R' & Hk1).
  unfold set_result. by eapply result_world.
Qed.
Lemma SemUp_Impl_world s b :
  monitor p C H W R S s -> st_pcbs (k_store s) !! p = Some b -> GET_ID (reg0_int (p_uc b)) = li ->
  wp (returning (SemUp_Impl p)) ends s.
Proof.
  intros Hk Hb Hid. pose proof Hk as Hk'. unfold MonitorWorld.monitor in Hk'. rewrite placed_running in Hk'.
  unfold returning, SemUp_Impl. wp_step. wp_step. eapply get_uc_world; [exact Hk|].
  intros b' Hb'. assert (b' = b) as -> by congruence. cbv zeta. wp_if; [by eapply result_world|].
  wp_step. eapply wp_running; [exact Hk|]. wp_step. rewrite Hid.
  eapply wp_mono; [by apply release_kernel|]. intros r s1 (H' & W' & R' & Hk1).
  unfold set_result. by eapply result_world.
Qed.
Lemma Acquire_Impl_world s b :
  monitor p C H W R S s -> st_pcbs (k_store s) !! p = Some b -> GET_ID (reg0_int (p_uc b)) = li ->
  wp (Acquire_Impl p) ends s.
Proof.
  intros Hk Hb Hid. pose proof Hk as Hk'. unfold MonitorWorld.monitor in Hk'. rewrite placed_running in Hk'.
  unfold Acquire_Impl. wp_step. eapply get_uc_world; [exact Hk|].
  intros b' Hb'. assert (b' = b) as -> by congruence. cbv zeta.
  wp_if; [wp_step; by eapply result_world|]. by apply acquire_or_block_world.
Qed.
Lemma SemDown_Impl_world s b :
  monitor p C H W R S s -> st_pcbs (k_store s) !! p = Some b -> GET_ID (reg0_int (p_uc b)) = li ->
  wp (SemDown_Impl p) ends s.
Proof.
  intros Hk Hb Hid. pose proof Hk as Hk'. unfold MonitorWorld.monitor in Hk'. rewrite placed_running in Hk'.
  unfold SemDown_Impl. wp_step. eapply get_uc_world; [exact Hk|].
  intros b' Hb'. assert (b' = b) as -> by congruence. cbv zeta.
  wp_if; [wp_step; by eapply result_world|]. by apply acquire_or_block_world.
Qed.

Lemma CvarWait_Impl_world s b :
  monitor p C H W R S s -> st_pcbs (k_store s) !! p = Some b ->
  GET_ID (reg0_int (p_uc b)) = ci -> GET_ID (reg1_int (p_uc b)) = li ->
  wp (CvarWait_Impl p) ends s.
Proof.
  intros Hk Hb Hci Hli. destruct (running_number s Hk) as (b' & Hb' & Hpid & Hpq & Hidle & HpWC).
  assert (b' = b) as -> by congruence.
  pose proof Hk as Hk'. unfold MonitorWorld.monitor in Hk'. rewrite placed_running in Hk'.
  pose proof (kw_world _ _ _ _ _ _ _ _ _ _ _ _ Hk) as Hw.
  unfold CvarWait_Impl. wp_step. eapply get_uc_world; [exact Hk|].
  intros b'' Hb''. assert (b'' = b) as -> by congruence. cbv zeta.
  wp_if; [wp_step; by eapply result_world|].
  wp_step. eapply wp_running; [exact Hk|]. wp_step. rewrite Hci, Hli.
  eapply wp_mono; [eapply (wp_sync _ _ _ _ _ _ _ _ _ _ Hk'); [apply wait_cvar_frame|]|].
  { by apply (wait_cvar_ok ci li C H W R [] S _ _ _ p b). }
  intros r s1 [Hres Hlift]. cbv beta in Hres. destruct (decide (p_pid b ∈ H)).
  - destruct Hres as (-> & G & n & _ & _ & _ & Hgiven). wp_step.
    destruct (given_up_world s1 [p] [] (C ++ [p]) G n _ Hlift Hgiven) as (H' & W' & R' & Hk1 & HR).
    { simpl. by rewrite Permutation_app_comm. }
    eapply set_reg0_world; [exact Hk1|]. intros s2 Hk2. eapply block_world; [exact Hk2|].
    intros Hin. apply HR, elem_of_app in Hin. apply Hpq. rewrite !elem_of_app. tauto.
  - destruct Hres as [-> Es]. wp_step. eapply (result_world _ _ C H W R S). apply Hlift; [|done].
    injection Es as -> -> ->. apply Hk.
Qed.

Lemma CvarSignal_Impl_world s b :
  monitor p C H W R S s -> st_pcbs (k_store s) !! p = Some b -> GET_ID (reg0_int (p_uc b)) = ci ->
  wp (returning (CvarSignal_Impl p)) ends s.
Proof.
  intros Hk Hb Hci. pose proof Hk as Hk'. unfold MonitorWorld.monitor in Hk'. rewrite placed_running in Hk'.
  unfold returning, CvarSignal_Impl. wp_step. wp_step. eapply get_uc_world; [exact Hk|].
  intros b' Hb'. assert (b' = b) as -> by congruence. cbv zeta. wp_if; [by eapply result_world|].
  wp_step. rewrite Hci.
  eapply wp_mono; [eapply (wp_sync _ _ _ _ _ _ _ _ _ _ Hk'); [apply signal_cvar_frame|];
    apply signal_cvar_ok, Hk|].
  intros r s1 [[-> Hres] Hlift]. unfold set_result. destruct C as [|c C'].
  - eapply (result_world _ _ [] H W R S). apply Hlift; [|done]. injection Hres as -> -> ->. apply Hk.
  - destruct Hres as (n & _ & _ & Hres). simpl in Hres. destruct (decide _).
    + destruct Hres as (-> & Hw & _). eapply (result_world _ _ C' _ [] (R ++ [c]) S), Hlift; [exact Hw|].
      solve_Permutation.
    + destruct Hres as (Hw & _). eapply (result_world _ _ C' _ (W ++ [c]) R S), Hlift; [exact Hw|].
      solve_Permutation.
Qed.
Lemma CvarBroadcast_Impl_world s b :
  monitor p C H W R S s -> st_pcbs (k_store s) !! p = Some b -> GET_ID (reg0_int (p_uc b)) = ci ->
  wp (returning (CvarBroadcast_Impl p)) ends s.
Proof.
  intros Hk Hb Hci. pose proof Hk as Hk'. unfold MonitorWorld.monitor in Hk'. rewrite placed_running in Hk'.
  unfold returning, CvarBroadcast_Impl. wp_step. wp_step. eapply get_uc_world; [exact Hk|].
  intros b' Hb'. assert (b' = b) as -> by congruence. cbv zeta. wp_if; [by eapply result_world|].
  wp_step. rewrite Hci.
  eapply wp_mono; [eapply (wp_sync _ _ _ _ _ _ _ _ _ _ Hk'); [apply broadcast_cvar_frame|];
    apply broadcast_cvar_ok, Hk|].
  intros r s1 [[-> (ns & _ & Hw & _)] Hlift]. unfold set_result.
  eapply result_world, Hlift; [exact Hw|]. set (k := Z.to_nat _).
  trans ([p] ++ W ++ (take k C ++ drop k C) ++ R ++ S); [solve_Permutation|by rewrite take_drop].
Qed.

Lemma KernelGetPid_world s : monitor p C H W R S s -> wp (returning (KernelGetPid p)) ends s.
Proof.
  intros Hk. pose proof Hk as Hk'. unfold MonitorWorld.monitor in Hk'. rewrite placed_running in Hk'.
  destruct (kw_block _ _ _ _ _ _ _ _ _ _ _ _ Hk) as [b Hb].
  unfold returning, KernelGetPid. wp_step. wp_step. eapply wp_running; [exact Hk|]. wp_step.
  wp_step. change (lget s) with (k_store s). eapply wp_load; [exact Hb|].
  assert (lset (k_store s) s = s) as -> by (by destruct s as [[] ? ? ? ?]).
  by eapply result_world.
Qed.

(** The sleeper's block is the only one that changed. *)
Lemma slept_world s s' b b' S' :
  monitor p C H W R S s -> st_pcbs (k_store s) !! p = Some b ->
  st_pcbs (k_store s') = <[p := b']> (st_pcbs (k_store s)) -> p_pid b' = p_pid b ->
  p_cvar_lock_id b' = p_cvar_lock_id b ->
  sched_inv (k_store s', k_sched s') R [] S' -> idle_proc (k_sched s') = idle_proc (k_sched s) ->
  (forall a, a ∈ S' -> a ∈ p :: S) ->
  cvar_world ci li C H W R [] S' (k_store s') (k_sched s') (k_sync s).
Proof.
  intros Hk Hb Hst Hpid Hcl Hinv Hidle HS.
  destruct (running_number s Hk) as (b0 & _ & _ & Hpq & _ & _).
  pose proof (kw_world _ _ _ _ _ _ _ _ _ _ _ _ Hk) as Hw.
  assert (forall a, a ∈ W ++ C -> a <> p) as HWC.
  { intros a Ha ->. apply Hpq. rewrite !elem_of_app in *. tauto. }
  eapply cvar_world_move; [exact Hw| | | |exact Hinv|done|].
  - intros a ba Ha Hba. exists ba. rewrite Hst, lookup_insert_ne; [done|]. intros <-. by apply (HWC p).
  - intros a. unfold pid_at. rewrite Hst. destruct (decide (p = a)) as [<-|];
      [by rewrite lookup_insert_eq, Hb; simpl; rewrite Hpid|by rewrite lookup_insert_ne].
  - intros c Hc. rewrite Hst, lookup_insert_ne; [done|]. intros <-. apply (HWC p); [set_solver|done].
  - intros a Ha. destruct (cw_apart _ _ _ _ _ _ _ _ _ _ _ Hw a Ha) as [Ha1 _].
    intros Hin. apply Ha1. rewrite !elem_of_app in *. destruct Hin as [?|[?|Hin]]; [tauto|tauto|].
    apply HS, elem_of_cons in Hin as [->|?]; [|tauto].
    by destruct (HWC p (proj2 (elem_of_app _ _ _) Ha)).
Qed.

Lemma KernelDelay_world s : monitor p C H W R S s -> wp (KernelDelay p) ends s.
Proof.
  intros Hk. destruct (running_number s Hk) as (b & Hb & Hpid & Hpq & Hidle & HpWC).
  pose proof Hk as Hk'. unfold MonitorWorld.monitor in Hk'. rewrite placed_running in Hk'.
  pose proof (kw_world _ _ _ _ _ _ _ _ _ _ _ _ Hk) as Hw.
  unfold KernelDelay. wp_step. eapply get_uc_world; [exact Hk|]. intros b' _. cbv zeta.
  wp_step. eapply wp_running; [exact Hk|]. wp_if; [unfold returning; wp_step; by eapply result_world|].
  wp_step. eapply wp_mono; [eapply (wp_sched _ _ _ _ _ _ _ _ _ _ Hk'); [apply put_to_sleep_frame|];
    apply (put_to_sleep_ok _ _ R [] S p b _ (cw_sched _ _ _ _ _ _ _ _ _ _ _ Hw)); [set_solver|done|done]|].
  intros ok s1 ([_ Hres] & Hsy & Hid & Hlift). destruct ok.
  - destruct Hres as (Hst & S' & HS & Hinv). wp_step.
    eapply set_reg0_world; [apply (Hlift [] C H W R S')|].
    + eapply slept_world; try done. intros a. by rewrite HS.
    + simpl. rewrite HS. solve_Permutation.
    + intros s2 Hk2. eapply block_world; [exact Hk2|]. set_solver.
  - destruct Hres as (Hst & Hinv). unfold returning. wp_step.
    apply (result_world _ _ C H W R S), Hlift; [|done].
    eapply slept_world; try done. set_solver.
Qed.
End calls.

(** ** The clock interrupt *)

Lemma tick_world p X C H W R S s n :
  world p X C H W R S s ->
  world p X C H W R S {| k_mem := k_mem s; k_sched := set_num_ticks n (k_sched s); k_sync := k_sync s;
                         k_pipes := k_pipes s; k_ttys := k_ttys s |}.
Proof.
  intros [Hw Hro HP Hp Hid Hpids Hpos Hst H0]. split; try done. simpl.
  eapply cvar_world_move; [exact Hw|by intros a b; eauto|done|done|by apply sched_inv_set_ticks, Hw|done|].
  intros a Ha. by apply (cw_apart _ _ _ _ _ _ _ _ _ _ _ Hw).
Qed.

Lemma wake_sleepers_world p X C H W R S s :
  world p X C H W R S s ->
  wp (zoom wake_sleepers) (fun _ s' => exists woken S', world p X C H W (R ++ woken) S' s') s.
Proof.
  intros Hk. pose proof (kw_world _ _ _ _ _ _ _ _ _ _ _ _ Hk) as Hw.
  eapply wp_mono; [eapply (wp_sched _ _ _ _ _ _ _ _ _ _ Hk); [apply wake_sleepers_frame|];
    apply (wake_sleepers_ok _ _ R [] S), Hw|].
  intros [] s1 ((woken & S' & Hwu & _) & Hsy & Hid & Hlift). exists woken, S'.
  pose proof (wu_perm _ _ _ _ _ _ _ _ Hwu) as HS.
  assert (forall a, a ∈ W ++ C -> a ∉ R ++ S) as HWC.
  { intros a Ha. by apply (cw_apart _ _ _ _ _ _ _ _ _ _ _ Hw). }
  apply Hlift; [|rewrite HS; solve_Permutation].
  eapply cvar_world_move; [exact Hw| | | |apply Hwu|done|].
  - intros a b Ha Hb. exists b. by rewrite (wu_out _ _ _ _ _ _ _ _ Hwu) by auto.
  - intros a. unfold pid_at. pose proof (wu_fields _ _ _ _ _ _ _ _ Hwu a) as E. simpl in E.
    destruct (st_pcbs (k_store s1) !! a), (st_pcbs (k_store s) !! a); simpl in *; try done.
    f_equal. by injection E.
  - intros c Hc. rewrite (wu_out _ _ _ _ _ _ _ _ Hwu); [done|]. apply HWC. set_solver.
  - intros a Ha Hin. apply (HWC a Ha). rewrite HS. simpl in Hin. rewrite !elem_of_app in *. tauto.
Qed.

Lemma save_uc_world p X C H W R S s uc Q :
  world p X C H W R S s -> (forall s', world p X C H W R S s' -> Q p s') -> wp (save_uc uc) Q s.
Proof.
  intros Hk HQ. destruct (kw_block _ _ _ _ _ _ _ _ _ _ _ _ Hk) as [b Hb].
  unfold save_uc. wp_step. eapply wp_running; [exact Hk|]. wp_step. wp_step.
  change (lget s) with (k_store s). eapply wp_update; [exact Hb|]. wp_step. apply HQ.
  apply (kworld_uc _ _ _ _ _ _ _ _ _ _ _ _ p b (set_p_uc uc)); [done..|]. intros b'. by eexists.
Qed.

(** The running process is put at the end of the ready queue. *)
Lemma schedule_world p C H W R S s :
  monitor p C H W R S s ->
  wp (zoom (schedule_process p)) (fun _ s' => world p [] C H W (R ++ placed idle p) S s') s.
Proof.
  intros Hk. pose proof (kw_world _ _ _ _ _ _ _ _ _ _ _ _ Hk) as Hw.
  destruct (kw_block _ _ _ _ _ _ _ _ _ _ _ _ Hk) as [b Hb].
  pose proof (proj2 (kw_roles _ _ _ _ _ _ _ _ _ _ _ _ Hk)) as Hidle.
  assert (p ∉ R ++ [] ++ S /\ (p <> idle -> p ∉ W ++ C)) as [Hpq HpWC].
  { destruct (decide (p = idle)) as [->|Hp].
    - split; [|done]. by apply (si_idle _ _ _ _ (cw_sched _ _ _ _ _ _ _ _ _ _ _ Hw) idle).
    - destruct (running_number p C H W R S Hp s Hk) as (_ & _ & _ & Hq & _).
      rewrite !elem_of_app in *. split; [|intros _]; rewrite ?elem_of_nil; tauto. }
  eapply wp_mono; [eapply (wp_sched _ _ _ _ _ _ _ _ _ _ Hk); [apply schedule_process_frame|];
    by apply (schedule_process_ok _ _ R [] S p b (cw_sched _ _ _ _ _ _ _ _ _ _ _ Hw))|].
  intros [] s1 (Hres & Hsy & Hid & Hlift). rewrite Hidle in Hres. unfold placed in *.
  destruct (decide (p = idle)) as [->|Hp].
  - rewrite decide_True in Hres by done. injection Hres as E1 E2. apply Hlift.
    + rewrite E1, E2, app_nil_r. exact Hw.
    + by rewrite app_nil_r.
  - rewrite decide_False in Hres by congruence. destruct Hres as (Hinv & Ho & _). simpl in Ho.
    destruct (scheduled_frame _ _ _ _ _ Hb Ho) as [Hpid _]. apply Hlift; [|solve_Permutation].
    assert (forall a, a ∈ W ++ C -> a ∉ p :: R) as HWC.
    { intros a Ha [->|HR]%elem_of_cons; [by apply HpWC|].
      destruct (cw_apart _ _ _ _ _ _ _ _ _ _ _ Hw a Ha) as [Ha1 _]. apply Ha1. set_solver. }
    eapply cvar_world_move; [exact Hw| |exact Hpid| |exact Hinv|done|].
    + eapply scheduled_keeps; [exact Hb|exact Ho|exact HWC].
    + intros c Hc. assert (c ∈ W ++ C) as Hc' by set_solver. specialize (HWC c Hc').
      rewrite (no_out _ _ _ Ho c) by done. simpl. rewrite lookup_insert_ne; [done|]. set_solver.
    + intros a Ha. specialize (HWC a Ha). destruct (cw_apart _ _ _ _ _ _ _ _ _ _ _ Hw a Ha) as [Ha1 _].
      set_solver.
Qed.

(** The process that was put there is alone and runs on. *)
Lemma keeps_running p C H W R S s :
  world p [] C H W R S s -> p = next_of idle R ->
  wp (zoom get_next_process) (fun next s' => next = p /\ monitor p C H W (tail R) S s') s.
Proof.
  intros Hk Hnext. pose proof (kw_world _ _ _ _ _ _ _ _ _ _ _ _ Hk) as Hw.
  pose proof (proj2 (kw_roles _ _ _ _ _ _ _ _ _ _ _ _ Hk)) as Hidle.
  eapply wp_mono; [eapply (wp_sched _ _ _ _ _ _ _ _ _ _ Hk); [apply get_next_process_frame|];
    by apply (get_next_process_ok _ _ R [] S idle (cw_sched _ _ _ _ _ _ _ _ _ _ _ Hw))|].
  intros next s1 (Hres & Hsy & Hid & Hlift). unfold MonitorWorld.monitor, placed.
  destruct R as [|r R]; simpl in Hnext; subst p.
  - destruct Hres as [-> E]. injection E as E1 E2. split; [done|]. rewrite decide_True by done.
    apply Hlift; [|done]. by rewrite E1, E2.
  - destruct Hres as (-> & Hinv & b & n & q' & Hb & _ & Est). simpl in Est. split; [done|].
    rewrite decide_False.
    2: { intros ->. by apply (si_idle _ _ _ _ (cw_sched _ _ _ _ _ _ _ _ _ _ _ Hw) idle Hidle), elem_of_app, or_introl, elem_of_cons, or_introl. }
    apply Hlift; [|solve_Permutation].
    assert (forall a, a ∈ W ++ C -> a <> r /\ a ∉ R ++ S) as HWC.
    { intros a Ha. destruct (cw_apart _ _ _ _ _ _ _ _ _ _ _ Hw a Ha) as [Ha1 _]. simpl in Ha1.
      rewrite not_elem_of_cons in Ha1. exact Ha1. }
    eapply cvar_world_move; [exact Hw| | | |exact Hinv|done|].
    + intros a ba Ha Hba. exists ba. rewrite Est. simpl. rewrite lookup_insert_ne; [done|].
      intros <-. by destruct (HWC r Ha).
    + intros a. unfold pid_at. rewrite Est. simpl. destruct (decide (r = a)) as [<-|];
        [by rewrite lookup_insert_eq, Hb|by rewrite lookup_insert_ne].
    + intros c Hc. rewrite Est. simpl. rewrite lookup_insert_ne; [done|].
      intros <-. destruct (HWC r); [set_solver|done].
    + intros a Ha. by apply HWC.
Qed.
End handlers.

(** ** Traps *)
Section traps.
Context {hw : Machine} {hw_ok : MachineOk} {files : Files} {pids : PidHelper} {boot : Boot}
  {codes : SyscallCodes} {codes_ok : SyscallCodesOk} (ci li : Z) (P : list addr) (idle : addr).
Notation world := (kworld ci li P idle).
Notation monitor := (monitor ci li P idle).

(** The calls on the lock [li] and the condition variable [ci], by whatever
    kind of handle, and two that concern the caller only. *)
Definition monitor_call (uc : UserContext) : Prop :=
  let code := to_u32 (uc_code uc) in
  (code ∈ [YALNIX_LOCK_ACQUIRE; YALNIX_LOCK_RELEASE; YALNIX_SEM_UP; YALNIX_SEM_DOWN] /\
     GET_ID (reg0_int uc) = li) \/
  (code ∈ [YALNIX_CVAR_SIGNAL; YALNIX_CVAR_BROADCAST] /\ GET_ID (reg0_int uc) = ci) \/
  (code = YALNIX_CVAR_WAIT /\ GET_ID (reg0_int uc) = ci /\ GET_ID (reg1_int uc) = li) \/
  code ∈ [YALNIX_DELAY; YALNIX_GETPID].

(** The idle process only pauses: it makes no call. *)
Inductive monitor_trap (s : kstate) : trap -> UserContext -> Prop :=
| monitor_trap_call uc :
    monitor_call uc -> running_proc (k_sched s) <> idle_proc (k_sched s) -> monitor_trap s TRAP_KERNEL uc
| monitor_trap_clock uc : monitor_trap s TRAP_CLOCK uc.

Inductive monitor_step (s s' : kstate) : Prop :=
| monitor_step_trap t uc uc' :
    monitor_trap s t uc -> interrupt_vector t uc s = Some (Some uc', s') -> monitor_step s s'.

(** A trap has ended: the process that runs goes on with its own context. *)
Definition trap_ended (r : option UserContext) (s : kstate) : Prop :=
  exists p C H W R S b, monitor p C H W R S s /\ st_pcbs (k_store s) !! p = Some b /\ r = Some (p_uc b).

Lemma returned_ends p C H W R S s :
  monitor p C H W R S s ->
  wp (curr_proc ← running; u ← get_uc curr_proc; mret (Some u)) trap_ended s.
Proof.
  intros Hk. wp_step. eapply wp_running; [exact Hk|]. wp_step. eapply get_uc_world; [exact Hk|].
  intros b Hb. wp_step. by exists p, C, H, W, R, S, b.
Qed.
Lemma finish_world f s : ends ci li P idle f s -> wp (finish f) trap_ended s.
Proof.
  intros [Hf (p & C & H & W & R & S & Hk)]. unfold finish. wp_step. wp_step.
  destruct Hf as [-> | ->]; cbn [end_of_trap]; [by eapply returned_ends|]. wp_step.
  unfold resume. wp_step. eapply wp_running; [exact Hk|]. wp_step. by eapply returned_ends.
Qed.

Lemma trap_kernel_world p C H W R S s uc :
  monitor p C H W R S s -> p <> idle -> monitor_call uc -> wp (trap_kernel_handler uc) trap_ended s.
Proof.
  intros Hk Hp Hcall. unfold trap_kernel_handler, save_uc. wp_step. wp_step.
  eapply wp_running; [exact Hk|]. destruct (kw_block _ _ _ _ _ _ _ _ _ _ _ _ Hk) as [b Hb].
  wp_step. wp_step. change (lget s) with (k_store s). eapply wp_update; [exact Hb|]. wp_step.
  pose proof (kworld_uc _ _ _ _ _ _ _ _ _ _ _ _ p b (set_p_uc uc) Hk Hb (fun b => ex_intro _ uc eq_refl)) as Hk1.
  set (s1 := set_k_store _ _) in Hk1. change (lset _ s) with s1.
  assert (st_pcbs (k_store s1) !! p = Some (set_p_uc uc b)) as Hb1 by apply lookup_insert_eq.
  clearbody s1. wp_step.
  assert (forall h, (to_u32 (uc_code uc), h) ∈ syscalls -> wp (h p) (ends ci li P idle) s1 ->
    wp (dispatch syscalls (to_u32 (uc_code uc)) p) (fun f s => wp (finish f) trap_ended s) s1) as Hdisp.
  { intros h Hin Hh. rewrite (dispatch_ok _ _ h) by (apply codes_ok || done).
    eapply wp_mono; [exact Hh|]. intros f s2. apply finish_world. }
  assert (forall h, h ∈ syscalls -> h ∈ syscalls) as Hsys by done.
  unfold monitor_call in Hcall.
  destruct Hcall as [[Hc Hid]|[[Hc Hid]|[(Hc & Hid1 & Hid2)|Hc]]];
    repeat (apply elem_of_cons in Hc as [Hc|Hc]); try (by apply not_elem_of_nil in Hc);
    rewrite Hc in Hdisp |- *; (eapply Hdisp; [unfold syscalls; rewrite !elem_of_cons; tauto|]).
  - by eapply Acquire_Impl_world.
  - by eapply Release_Impl_world.
  - by eapply SemUp_Impl_world.
  - by eapply SemDown_Impl_world.
  - by eapply CvarSignal_Impl_world.
  - by eapply CvarBroadcast_Impl_world.
  - by eapply CvarWait_Impl_world.
  - by eapply KernelDelay_world.
  - by eapply KernelGetPid_world.
Qed.

(** The choice of the next process, and the switch if it is another one. *)
Lemma reschedule_world p C H W R S s :
  world p [] C H W R S s ->
  wp (next_proc ← zoom get_next_process;
      f ← (if decide (p <> next_proc) then
             k ← FullContextSwitch KC_return (Some p) next_proc; mret (Switched k)
           else mret Returned);
      finish f) trap_ended s.
Proof.
  intros Hk. wp_step. destruct (decide (p = next_of idle R)) as [Hp|Hp].
  - eapply wp_mono; [by eapply keeps_running|]. intros next s1 [-> Hm]. rewrite decide_False by naive_solver.
    wp_step. wp_step. apply finish_world. split; [by left|]. by do 6 eexists.
  - pose proof (kw_world _ _ _ _ _ _ _ _ _ _ _ _ Hk) as Hw.
    destruct (kw_block _ _ _ _ _ _ _ _ _ _ _ _ Hk) as [b Hb].
    destruct (kw_stacks _ _ _ _ _ _ _ _ _ _ _ _ Hk (next_of idle R)) as (kc & Hsw & Hkc).
    { rewrite <- (kw_all _ _ _ _ _ _ _ _ _ _ _ _ Hk). destruct R; simpl; set_solver. }
    rewrite Hkc in Hsw by done.
    eapply wp_mono; [apply (next_and_switch_ok KC_return KC_return p idle R [] S)|].
    + apply Hw.
    + apply Hk.
    + done.
    + by exists b.
    + done.
    + apply Hk.
    + intros next s1 [-> Hsw1]. rewrite decide_True by done. wp_step. wp_step.
      eapply wp_mono; [exact Hsw1|]. intros k s2 [-> Hd]. wp_step. apply finish_world.
      split; [by right|]. do 6 eexists. by eapply kworld_switched.
Qed.

Lemma trap_clock_world p C H W R S s uc :
  monitor p C H W R S s -> wp (trap_clock_handler uc) trap_ended s.
Proof.
  intros Hk. unfold trap_clock_handler, increment_ticks. wp_step. wp_step. wp_step.
  apply (tick_world ci li P idle _ _ _ _ _ _ _ _ (to_i32 (num_ticks (k_sched s) + 1))) in Hk.
  set (s1 := {| k_mem := _ |}) in Hk.
  match goal with |- wp _ _ ?s2 => assert (s2 = s1) as -> by (by destruct s as [[] ? ? ? ?]) end.
  clearbody s1. wp_step. wp_step. change (lget s1) with (k_store s1, k_sched s1).
  unfold wp at 1. rewrite (no_waiters _ _ R S) by apply (kw_world _ _ _ _ _ _ _ _ _ _ _ _ Hk).
  assert (lset (k_store s1, k_sched s1) s1 = s1) as -> by (by destruct s1 as [[] ? ? ? ?]).
  wp_step. eapply wp_mono; [by eapply wake_sleepers_world|]. intros [] s2 (woken & S' & Hk2).
  wp_step. eapply save_uc_world; [exact Hk2|]. intros s3 Hk3. wp_step.
  eapply wp_mono; [by eapply schedule_world|]. intros [] s4 Hk4. by eapply reschedule_world.
Qed.

Lemma monitor_trap_world p C H W R S s t uc :
  monitor p C H W R S s -> monitor_trap s t uc -> wp (interrupt_vector t uc) trap_ended s.
Proof.
  intros Hk Ht. destruct Ht as [uc Hcall Hrun|uc].
  - eapply trap_kernel_world; [exact Hk| |done].
    rewrite (proj1 (kw_roles _ _ _ _ _ _ _ _ _ _ _ _ Hk)), (proj2 (kw_roles _ _ _ _ _ _ _ _ _ _ _ _ Hk)) in Hrun.
    congruence.
  - by eapply trap_clock_world.
Qed.

(** Rule induction: what one step keeps, every sequence keeps. *)
Lemma monitor_reachable s s' :
  (exists p C H W R S, monitor p C H W R S s) -> rtc monitor_step s s' ->
  exists p C H W R S, monitor p C H W R S s'.
Proof.
  intros Hm Hsteps. induction Hsteps as [s|s s1 s2 [t uc uc' Ht Hrun] _ IH]; [done|]. apply IH.
  destruct Hm as (p & C & H & W & R & S & Hk).
  pose proof (monitor_trap_world _ _ _ _ _ _ _ t uc Hk Ht) as Hwp. unfold wp in Hwp. rewrite Hrun in Hwp.
  destruct Hwp as (p' & C' & H' & W' & R' & S' & b & Hk' & _). by exists p', C', H', W', R', S'.
Qed.
End traps.

(** ** The concrete kernel as a monitor *)
Lemma demo_monitor (u : UserContext) :
  @monitor demo_machine 0 0 [2%positive; 3%positive] 1 2 [] [] [] [3%positive] [] (demo_kernel_state u).
Proof.
  split.
  - split.
    + by split.
    + eexists. split; [reflexivity|]. split; [done|apply fifo_repr_empty].
    + eexists. split; [reflexivity|]. split; simpl; try done.
      * by exists [0].
      * constructor.
      * by intros w n ?%not_elem_of_nil.
      * apply fifo_repr_empty.
    + apply demo_kernel_sched.
    + by intros c ?%not_elem_of_nil.
    + constructor.
    + by intros c ?%not_elem_of_nil.
  - by split.
  - reflexivity.
  - by apply (bool_decide_unpack _).
  - by apply (bool_decide_unpack _).
  - apply (NoDup_fmap_2_strong _); [|by apply (bool_decide_unpack _)].
    intros x y Hx Hy.
    repeat (apply elem_of_cons in Hx as [->|Hx]); try (by apply not_elem_of_nil in Hx);
    repeat (apply elem_of_cons in Hy as [->|Hy]); try (by apply not_elem_of_nil in Hy); by vm_compute.
  - intros a n Ha E. repeat (apply elem_of_cons in Ha as [->|Ha]); try (by apply not_elem_of_nil in Ha);
      vm_compute in E; by injection E as <-.
  - intros a Ha. exists KC_return.
    repeat (apply elem_of_cons in Ha as [->|Ha]); try (by apply not_elem_of_nil in Ha);
      (split; [|done]); eexists _, _; split; try reflexivity; by split.
  - reflexivity.
Defined.

(** ** Properties *)


(** The running process takes the lock; then the clock ticks. *)
Definition demo_acquire_uc : UserContext :=
  {| uc_code := 12; uc_addr := 0; uc_pc := 256; uc_sp := 496; uc_reg0 := CREATE_ID LOCK_FLAG 0;
     uc_reg1 := 0; uc_reg2 := 0 |}.
