(* ===== verification/UserLib.v ===== *)
(** * The language of the user programs

    A program of [user/] is an interaction tree: between two calls of the user
    library ([yuser.h], which is not in the repository) or of [malloc], [free]
    and [rand] it only computes, and what it goes on with depends on the answer.
    [callE] lists the calls, [prog A] are the programs that give an [A], [exit]
    ends one.  A call of a function that goes wrong in C (an access outside of an
    array, a string written through NULL) is the event [CUndefined].

    Second, a logic for one program against its environment: [always] for what a
    program does for ever, [ends] for what it does before it ends. *)

From S2P Require Import Prelude Machine.
From stdpp Require Import strings.
From ITree Require Import Core.ITreeDefinition.
Open Scope Z_scope.

(** ** Definitions *)

(** The address a call is given: an array of the program with its size, or a
    number. *)
Inductive buffer := Own (size : Z) | At (address : Z).

(** The calls, with what they answer; those with a result through a pointer
    answer that too ([Wait]: what it stored there, if anything). *)
Inductive callE : Type -> Type :=
| CFork : callE Z
| CExec (file : list Z) (argv : list (list Z)) : callE Z
| CExit (status : Z) : callE Empty_set
| CWait : callE (Z * option Z)
| CGetPid : callE Z
| CDelay (ticks : Z) : callE Z
| CTtyRead (tty : Z) (buf : buffer) (len : Z) : callE (Z * list Z)
| CTtyWrite (tty : Z) (bytes : list Z) : callE Z
| CTtyPrintf (tty : Z) (text : list Z) : callE Z
| CPipeInit : callE (Z * Z)
| CPipeRead (pipe : Z) (len : Z) : callE (Z * list Z)
| CPipeWrite (pipe : Z) (bytes : list Z) : callE Z
| CLockInit : callE (Z * Z)
| CAcquire (lock : Z) : callE Z
| CRelease (lock : Z) : callE Z
| CCvarInit : callE (Z * Z)
| CCvarSignal (cvar : Z) : callE Z
| CCvarBroadcast (cvar : Z) : callE Z
| CCvarWait (cvar lock : Z) : callE Z
| CSemInit (cap : Z) : callE (Z * Z)
| CSemUp (sem : Z) : callE Z
| CSemDown (sem : Z) : callE Z
| CReclaim (id : Z) : callE Z
| CMalloc (size : Z) : callE Z
| CFree (address : Z) : callE unit
| CRand : callE Z
| CLoad (address : Z) : callE Z
| CStore (address value : Z) : callE unit
| CAbort : callE Empty_set
| CUndefined : callE Empty_set.

Definition prog (A : Type) : Type := itree callE A.

#[export] Instance prog_ret : MRet prog := fun A a => Ret a.
#[export] Instance prog_bind : MBind prog := fun A B k t => ITree.bind t k.

Definition call {A} (e : callE A) : prog A := ITree.trigger e.

(** Calls that do not return. *)
Definition exit {A} (status : Z) : prog A := r ← call (CExit status); match r : Empty_set with end.
Definition undefined {A} : prog A := r ← call CUndefined; match r : Empty_set with end.
Definition abort {A} : prog A := r ← call CAbort; match r : Empty_set with end.

(** [assert] of the C library. *)
Definition assert (b : bool) : prog unit := if b then mret tt else abort.

(** What is undefined outside of its domain. *)
Definition defined {A} (o : option A) : prog A := match o with Some a => mret a | None => undefined end.

(** [for (i = first; i < first + n; i++)], without and with a [return] in it. *)
Fixpoint times (n : nat) (i : Z) (body : Z -> prog unit) : prog unit :=
  match n with
  | O => mret tt
  | S n' => body i;; times n' (i + 1) body
  end.
Fixpoint times_ret {R} (n : nat) (i : Z) (body : Z -> prog (option R)) : prog (option R) :=
  match n with
  | O => mret None
  | S n' => r ← body i; match r with Some x => mret (Some x) | None => times_ret n' (i + 1) body end
  end.
Definition for_user (first last : Z) (body : Z -> prog unit) : prog unit :=
  times (Z.to_nat (last - first)) first body.
Definition for_user_ret {R} (first last : Z) (body : Z -> prog (option R)) : prog (option R) :=
  times_ret (Z.to_nat (last - first)) first body.

(** [while (1)], with a variable [r] that the body changes, and without one. *)
Definition loop {R} (body : R -> prog R) (r : R) : prog Z := ITree.iter (fun r => r' ← body r; mret (inl r')) r.
Definition forever (body : prog unit) : prog Z := loop (fun _ => body) tt.

(** *** The C library *)

(** The bytes of a string literal, and a newline. *)
Definition bytes (s : string) : list Z :=
  (fun c => Z.of_N (Ascii.N_of_ascii c)) <$> String.list_ascii_of_string s.
Definition nl : list Z := [10].

(** The string in an array of characters: up to its first zero. *)
Fixpoint c_chars (a : list Z) : option (list Z) :=
  match a with
  | [] => None
  | b :: a' => if b =? 0 then Some [] else s ← c_chars a'; Some (b :: s)
  end.

(** [strcmp(a, literal) == 0]. *)
Definition same_string (a literal : list Z) : prog bool :=
  s ← defined (c_chars a); mret (bool_decide (s = literal)).

(** The digits [%d] prints; 32-bit numbers have at most ten. *)
Fixpoint digits (fuel : nat) (n : Z) : list Z :=
  match fuel with
  | O => []
  | S fuel' => if n <? 10 then [48 + n] else digits fuel' (n / 10) ++ [48 + n mod 10]
  end.
Definition fmt_d (n : Z) : list Z := if n <? 0 then 45 :: digits 20 (- n) else digits 20 n.

(** [sprintf] into an array of [size] bytes, which also has room for the zero
    behind the text; it gives the text, whose length is its result. *)
Definition sprintf (size : Z) (text : list Z) : prog (list Z) :=
  if zlen text <? size then mret text else undefined.

(** [atoi]: the value of the digits at the start, behind white space and a
    sign; a value that is not an [int] is undefined. *)
Definition is_space (c : Z) : bool := (c =? 32) || ((9 <=? c) && (c <=? 13)).
Definition is_digit (c : Z) : bool := (48 <=? c) && (c <=? 57).
Fixpoint value_of (acc : Z) (s : list Z) : Z :=
  match s with
  | c :: s' => if is_digit c then value_of (10 * acc + (c - 48)) s' else acc
  | [] => acc
  end.
Fixpoint skip_space (s : list Z) : list Z :=
  match s with
  | c :: s' => if is_space c then skip_space s' else s
  | [] => []
  end.
Definition atoi_value (s : list Z) : Z :=
  match skip_space s with
  | c :: s' => if c =? 45 then - value_of 0 s' else if c =? 43 then value_of 0 s' else value_of 0 (c :: s')
  | [] => 0
  end.
Definition is_int (n : Z) : bool := (- INT_MAX - 1 <=? n) && (n <=? INT_MAX).
Definition atoi (s : list Z) : prog Z :=
  if is_int (atoi_value s) then mret (atoi_value s) else undefined.

(** Memory from [malloc] or [calloc] that is used without a test. *)
Definition alloc (size : Z) : prog Z := p ← call (CMalloc size); if p =? 0 then undefined else mret p.

(** *** Calls with an array of the program *)

(** The array [a] after [out] was written to its start. *)
Definition overwrite (out a : list Z) : list Z := take (length a) out ++ drop (length out) a.

Definition TtyRead (tty : Z) (buf : list Z) (len : Z) : prog (Z * list Z) :=
  if zlen buf <? len then undefined
  else r ← call (CTtyRead tty (Own (zlen buf)) len); mret (r.1, overwrite r.2 buf).
Definition PipeRead (pipe : Z) (buf : list Z) (len : Z) : prog (Z * list Z) :=
  if zlen buf <? len then undefined
  else r ← call (CPipeRead pipe len); mret (r.1, overwrite r.2 buf).
Definition TtyWrite (tty : Z) (buf : list Z) (len : Z) : prog Z :=
  b ← defined (zslice buf 0 len); call (CTtyWrite tty b).
Definition PipeWrite (pipe : Z) (buf : list Z) (len : Z) : prog Z :=
  b ← defined (zslice buf 0 len); call (CPipeWrite pipe b).

(** *** Answers

    What the programs rely on in the answers they get: [Fork] answers -1, 0 or a
    pid; a read answers at most the length asked for, with as many bytes;
    a [Wait] that succeeds stored an exit code; handles are 32-bit words; [rand] is not negative.  [scarce] is whether
    [malloc] may fail. *)
Definition read_reply (len : Z) (r : Z * list Z) : Prop := r.1 <= len /\ zlen r.2 = Z.max 0 r.1.
Definition reply_ok (scarce : bool) {A} (e : callE A) : A -> Prop :=
  match e in callE A return A -> Prop with
  | CFork => fun pid => -1 <= pid
  | CTtyRead _ _ len => read_reply len
  | CPipeRead _ len => read_reply len
  | CLockInit | CCvarInit | CSemInit _ | CPipeInit => fun r => is_int r.2 = true
  | CWait => fun r => r.1 = 0 -> is_Some r.2
  | CMalloc _ => fun p => scarce = true \/ p <> 0
  | CRand => fun r => 0 <= r
  | _ => fun _ => True
  end.

(** ** A logic for one program

    [spec e σ Q]: in the state [σ] of the environment the call [e] is allowed,
    and each answer it can get, with the state it leaves, satisfies [Q].  Within
    finitely many silent steps the program returns or makes a call ([until]).
    The parameter [T] of [until] says whether silent steps may come first. *)
Section logic.
Context {E : Type} (spec : forall X, callE X -> E -> (X -> E -> Prop) -> Prop).

Inductive until (T : Prop) {A} (Q : A -> E -> Prop) (R : prog A -> E -> Prop) (σ : E) : itree' callE A -> Prop :=
| until_ret a : Q a σ -> until T Q R σ (RetF a)
| until_tau t : T -> until T Q R σ (observe t) -> until T Q R σ (TauF t)
| until_call X (e : callE X) k : spec X e σ (fun r σ' => R (k r) σ') -> until T Q R σ (VisF e k).

(** The first [n] calls are allowed; a result satisfies [Q]. *)
Fixpoint runs {A} (n : nat) (Q : A -> E -> Prop) (t : prog A) (σ : E) : Prop :=
  match n with
  | O => True
  | S n' => until True Q (runs n' Q) σ (observe t)
  end.

(** Every call is allowed, however long the program runs. *)
Definition always {A} (Q : A -> E -> Prop) (t : prog A) (σ : E) : Prop := forall n, runs n Q t σ.

(** The program also comes to an end: the least relation that [until] keeps.
    Without [T] there are no silent steps at all. *)
Definition ends_in (T : Prop) {A} (Q : A -> E -> Prop) (t : prog A) (σ : E) : Prop :=
  forall P : prog A -> E -> Prop, (forall t σ, until T Q P σ (observe t) -> P t σ) -> P t σ.

(** A larger post-condition is easier to meet. *)
Class MonoSpec : Prop := spec_mono : forall X (e : callE X) σ (Q Q' : X -> E -> Prop),
  (forall r σ', Q r σ' -> Q' r σ') -> spec X e σ Q -> spec X e σ Q'.
Context `{MonoSpec}.

(** *** Rules *)
Lemma until_mono {T : Prop} {A} (Q Q' : A -> E -> Prop) (R R' : prog A -> E -> Prop) σ o :
  (forall a σ, Q a σ -> Q' a σ) -> (forall t σ, R t σ -> R' t σ) -> until T Q R σ o -> until T Q' R' σ o.
Proof.
  intros HQ HR Hu. induction Hu as [a Ha|t HT _ IH|X e k He]; [by constructor; apply HQ|by constructor|].
  constructor. eapply spec_mono; [|exact He]. intros. by apply HR.
Qed.

Lemma runs_mono {A} n m (Q Q' : A -> E -> Prop) t σ :
  (m <= n)%nat -> (forall a σ, Q a σ -> Q' a σ) -> runs n Q t σ -> runs m Q' t σ.
Proof.
  intros Hm HQ. revert m Hm t σ. induction n as [|n IH]; intros [|m] Hm t σ; simpl; try done; [lia|].
  apply until_mono; [done|]. intros t' σ'. apply IH. lia.
Qed.

Lemma observe_bind {A B} (t : prog A) (k : A -> prog B) :
  observe (ITree.bind t k) = match observe t with
                             | RetF a => observe (k a)
                             | TauF t' => TauF (ITree.bind t' k)
                             | VisF e h => VisF e (fun x => ITree.bind (h x) k)
                             end.
Proof. unfold observe. cbn. unfold observe. by destruct (_observe t). Qed.

Lemma observe_call {A} (e : callE A) : observe (call e) = VisF e (fun r => Ret r).
Proof. done. Qed.

Lemma until_bind {T : Prop} {A B} (Q' : A -> E -> Prop) (R' : prog A -> E -> Prop) (Q : B -> E -> Prop)
    (R : prog B -> E -> Prop) (k : A -> prog B) σ t :
  (forall a, Q' a σ -> until T Q R σ (observe (k a))) ->
  (forall t σ, R' t σ -> R (ITree.bind t k) σ) ->
  until T Q' R' σ (observe t) -> until T Q R σ (observe (ITree.bind t k)).
Proof.
  intros HQ HR. remember (observe t) as o eqn:Eo. intros Hu. revert t Eo.
  induction Hu as [a Ha|t' HT _ IH|X e h He]; intros t Eo; rewrite observe_bind, <- Eo.
  - by apply HQ.
  - constructor; [done|]. by apply IH.
  - constructor. eapply spec_mono; [|exact He]. intros. by apply HR.
Qed.

Lemma runs_bind {A B} n (Q' : A -> E -> Prop) (Q : B -> E -> Prop) (t : prog A) (k : A -> prog B) σ :
  (forall a σ', Q' a σ' -> runs n Q (k a) σ') -> runs n Q' t σ -> runs n Q (ITree.bind t k) σ.
Proof.
  revert t σ. induction n as [|n IH]; intros t σ HQ Ht; [done|].
  eapply until_bind; [|intros t' σ'; apply IH|exact Ht].
  - intros a Ha. by apply (HQ a σ).
  - intros a σ'' Ha. eapply runs_mono; [| |by apply HQ]; [lia|done].
Qed.

Lemma always_ret {A} (Q : A -> E -> Prop) a σ : Q a σ -> always Q (mret a) σ.
Proof. intros HQ [|n]; [done|]. by constructor. Qed.
Lemma always_mono {A} (Q Q' : A -> E -> Prop) t σ :
  (forall a σ, Q a σ -> Q' a σ) -> always Q t σ -> always Q' t σ.
Proof. intros HQ Ht n. eapply runs_mono; [done|exact HQ|apply Ht]. Qed.
Lemma always_bind {A B} (Q : B -> E -> Prop) (t : prog A) (k : A -> prog B) σ :
  always (fun a σ' => always Q (k a) σ') t σ -> always Q (t ≫= k) σ.
Proof. intros Ht n. eapply runs_bind; [|apply (Ht n)]. intros a σ' Ha. apply Ha. Qed.
Lemma always_call {A} (Q : A -> E -> Prop) (e : callE A) σ : spec A e σ Q -> always Q (call e) σ.
Proof.
  intros He [|n]; [done|]. constructor. eapply spec_mono; [|exact He]. intros r σ' Hr.
  destruct n; [done|]. by constructor.
Qed.

(** The program does not return before its first call. *)
Definition calls_first {A} (Q : A -> E -> Prop) (t : prog A) (σ : E) : Prop :=
  until True (fun _ _ => False) (always Q) σ (observe t).

(** An endless loop whose body keeps [I]. *)
Lemma always_loop {R} (I : R -> E -> Prop) (Q : Z -> E -> Prop) (body : R -> prog R) r σ :
  (forall r σ, I r σ -> calls_first I (body r) σ) -> I r σ -> always Q (loop body r) σ.
Proof.
  intros Hbody HI n. revert r σ HI. induction n as [|n IH]; intros r σ HI; [done|].
  set (again := fun lr : R + Z => match lr with inl l => Tau (loop body l) | inr r => Ret r end : prog Z).
  change (until True Q (runs n Q) σ (observe (ITree.bind (ITree.bind (body r) (fun r' => Ret (inl r'))) again))).
  apply (until_bind (fun _ _ => False) (runs n (fun lr σ' => exists r', lr = inl r' /\ I r' σ'))); [done| |].
  - intros t σ'. apply runs_bind. intros ? σ'' (r' & -> & HI''). pose proof (IH r' σ'' HI'') as Hn.
    destruct n; [done|]. by constructor.
  - apply (until_bind (fun _ _ => False) (runs n I)); [done| |].
    + intros t σ'. apply runs_bind. intros a σ'' Ha. apply always_ret. by exists a.
    + eapply until_mono; [| |by apply Hbody]; [done|]. intros t σ' Ht. apply Ht.
Qed.
Lemma always_forever (I : E -> Prop) (Q : Z -> E -> Prop) (body : prog unit) σ :
  (forall σ, I σ -> calls_first (fun _ => I) body σ) -> I σ -> always Q (forever body) σ.
Proof. intros Hbody HI. apply (always_loop (fun _ => I)); [|done]. intros []. apply Hbody. Qed.
Lemma first_call {A} (Q : A -> E -> Prop) (e : callE A) σ : spec A e σ Q -> calls_first Q (call e) σ.
Proof. intros He. constructor. eapply spec_mono; [|exact He]. intros r σ' Hr. by apply always_ret. Qed.
Lemma first_bind {A B} (Q : B -> E -> Prop) (t : prog A) (k : A -> prog B) σ :
  calls_first (fun a σ' => always Q (k a) σ') t σ -> calls_first Q (t ≫= k) σ.
Proof.
  intros Ht. eapply (until_bind (fun _ _ => False)); [| |exact Ht]; [done|]. intros t' σ' Ht'. by apply always_bind.
Qed.
Lemma first_TtyWrite (Q : Z -> E -> Prop) tty buf len σ :
  0 <= len <= zlen buf -> spec _ (CTtyWrite tty (take (Z.to_nat len) buf)) σ Q ->
  calls_first Q (TtyWrite tty buf len) σ.
Proof.
  intros Hlen He. unfold TtyWrite, zslice. rewrite decide_True by lia. rewrite drop_0.
  change (calls_first Q (call (CTtyWrite tty (take (Z.to_nat len) buf))) σ). by apply first_call.
Qed.

Lemma ends_fold {T : Prop} {A} (Q : A -> E -> Prop) t σ : until T Q (ends_in T Q) σ (observe t) -> ends_in T Q t σ.
Proof.
  intros Hu P HP. apply HP. eapply until_mono; [done| |exact Hu]. intros t' σ' Ht'. by apply Ht'.
Qed.
Lemma ends_ret {T : Prop} {A} (Q : A -> E -> Prop) a σ : Q a σ -> ends_in T Q (mret a) σ.
Proof. intros HQ. apply ends_fold. by constructor. Qed.
Lemma ends_mono {T : Prop} {A} (Q Q' : A -> E -> Prop) t σ : (forall a σ, Q a σ -> Q' a σ) -> ends_in T Q t σ -> ends_in T Q' t σ.
Proof. intros HQ Ht. apply Ht. intros t' σ' Hu. apply ends_fold. by eapply until_mono. Qed.
Lemma ends_bind {T : Prop} {A B} (Q : B -> E -> Prop) (t : prog A) (k : A -> prog B) σ :
  ends_in T (fun a σ' => ends_in T Q (k a) σ') t σ -> ends_in T Q (t ≫= k) σ.
Proof.
  intros Ht. apply Ht. clear t σ Ht. intros t σ Hu. apply ends_fold. eapply until_bind; [| |exact Hu].
  - intros a Ha. apply Ha. clear t σ Hu a Ha. intros t σ Hu. eapply until_mono; [done| |exact Hu].
    intros t' σ' Hu'. by apply ends_fold.
  - done.
Qed.
Lemma ends_call {T : Prop} {A} (Q : A -> E -> Prop) (e : callE A) σ : spec A e σ Q -> ends_in T Q (call e) σ.
Proof.
  intros He. apply ends_fold. constructor. eapply spec_mono; [|exact He]. intros r σ' Hr.
  apply ends_fold. by constructor.
Qed.
Lemma ends_unfold {T : Prop} {A} (Q : A -> E -> Prop) t σ : ends_in T Q t σ -> until T Q (ends_in T Q) σ (observe t).
Proof.
  intros Ht. apply Ht. intros t' σ' Hu. eapply until_mono; [done| |exact Hu]. intros. by apply ends_fold.
Qed.
(** An endless loop that is left by a call that does not return. *)
Lemma ends_loop {R} (Q : Z -> E -> Prop) (body : R -> prog R) r σ :
  ends_in True (fun r' σ' => ends_in True Q (loop body r') σ') (body r) σ -> ends_in True Q (loop body r) σ.
Proof.
  intros Hbody.
  set (again := fun lr : R + Z => match lr with inl l => Tau (loop body l) | inr r => Ret r end : prog Z).
  assert (ends_in True Q (ITree.bind (ITree.bind (body r) (fun r' => Ret (inl r'))) again) σ) as Hend.
  { apply ends_bind, ends_bind. eapply ends_mono; [|exact Hbody]. intros a σ' Ha. apply ends_ret.
    apply ends_fold. constructor; [done|]. exact (ends_unfold _ _ _ Ha). }
  apply ends_fold. exact (ends_unfold _ _ _ Hend).
Qed.
Lemma ends_forever (Q : Z -> E -> Prop) (body : prog unit) σ :
  ends_in True (fun _ σ' => ends_in True Q (forever body) σ') body σ -> ends_in True Q (forever body) σ.
Proof. intros Hbody. apply ends_loop. eapply ends_mono; [|exact Hbody]. by intros []. Qed.
(** What ends is allowed all the while. *)
Lemma ends_always {A} (Q : A -> E -> Prop) t σ : ends_in True Q t σ -> always Q t σ.
Proof. intros Ht. apply Ht. intros t' σ' Hu [|n]; [done|]. eapply until_mono; [done| |exact Hu]. intros ? ? Ha. apply Ha. Qed.
End logic.

Abbreviation ends spec := (ends_in spec True).

(** ** Both logics at once

    What the rules of both have in common is an interface: the rules below and
    the proofs about programs that use them hold for [always] and for [ends]. *)
Class Logic {E : Type} (spec : forall X, callE X -> E -> (X -> E -> Prop) -> Prop)
    (R : forall A, (A -> E -> Prop) -> prog A -> E -> Prop) : Prop := {
  logic_ret A (Q : A -> E -> Prop) a σ : Q a σ -> R A Q (mret a) σ;
  logic_bind A B (Q : B -> E -> Prop) (t : prog A) (k : A -> prog B) σ :
    R A (fun a σ' => R B Q (k a) σ') t σ -> R B Q (t ≫= k) σ;
  logic_call A (Q : A -> E -> Prop) (e : callE A) σ : spec A e σ Q -> R A Q (call e) σ;
  logic_mono A (Q Q' : A -> E -> Prop) t σ : (forall a σ, Q a σ -> Q' a σ) -> R A Q t σ -> R A Q' t σ;
  logic_spec_mono : MonoSpec spec
}.
#[export] Hint Mode Logic + - + : typeclass_instances.

#[export] Instance always_logic {E} (spec : forall X, callE X -> E -> (X -> E -> Prop) -> Prop) :
  MonoSpec spec -> Logic spec (@always E spec).
Proof.
  intros Hs. split; [intros; by apply always_ret|intros; by apply always_bind|intros; by apply always_call| |done].
  intros. by eapply always_mono.
Qed.
#[export] Instance ends_logic {E} (spec : forall X, callE X -> E -> (X -> E -> Prop) -> Prop) (T : Prop) :
  MonoSpec spec -> Logic spec (@ends_in E spec T).
Proof.
  intros Hs. split; [intros; by apply ends_ret|intros; by apply ends_bind|intros; by apply ends_call| |done].
  intros. by eapply ends_mono.
Qed.

(** An environment that allows less and answers more, up to [sim]. *)
Lemma always_sim {E E'} (spec : forall X, callE X -> E -> (X -> E -> Prop) -> Prop)
    (spec' : forall X, callE X -> E' -> (X -> E' -> Prop) -> Prop) `{!MonoSpec spec'} (sim : E -> E' -> Prop)
    {A} (Q : A -> E -> Prop) t σ σ' :
  (forall X (e : callE X) σ σ' P, sim σ σ' -> spec X e σ P ->
     spec' X e σ' (fun r σ2' => exists σ2, P r σ2 /\ sim σ2 σ2')) ->
  sim σ σ' -> always spec Q t σ -> always spec' (fun a σ2' => exists σ2, Q a σ2 /\ sim σ2 σ2') t σ'.
Proof.
  intros Hsim Hσ Ht n. specialize (Ht n). revert t σ σ' Hσ Ht. induction n as [|n IH]; intros t σ σ' Hσ Ht; [done|].
  simpl in *. induction Ht as [a Ha|t' _ _ IHt|X e k He]; constructor; [by exists σ|done|done|].
  eapply (spec_mono spec'); [|by apply (Hsim X e σ σ')]. intros r σ2' (σ2 & HP & Hσ2). by apply (IH _ σ2).
Qed.

Section derived.
Context {E : Type} {spec : forall X, callE X -> E -> (X -> E -> Prop) -> Prop}.
Context {R : forall A, (A -> E -> Prop) -> prog A -> E -> Prop} `{HL : !Logic spec R}.

Lemma logic_defined {A} (Q : A -> E -> Prop) o a σ : o = Some a -> Q a σ -> R A Q (defined o) σ.
Proof. intros -> HQ. by apply (logic_ret (spec := spec)). Qed.

Lemma logic_noreturn {A} (Q : A -> E -> Prop) (e : callE Empty_set) σ :
  spec _ e σ (fun _ _ => True) -> R A Q (r ← call e; match r : Empty_set with end) σ.
Proof.
  intros He. apply (logic_bind (spec := spec)), logic_call. eapply (logic_spec_mono (R := R)); [|exact He]. by intros [].
Qed.
Lemma logic_exit {A} (Q : A -> E -> Prop) status σ :
  spec _ (CExit status) σ (fun _ _ => True) -> R A Q (exit status) σ.
Proof. apply logic_noreturn. Qed.

Lemma logic_sprintf (Q : list Z -> E -> Prop) size text σ :
  zlen text < size -> Q text σ -> R _ Q (sprintf size text) σ.
Proof. intros Hs HQ. unfold sprintf. rewrite (proj2 (Z.ltb_lt _ _)) by done. by apply (logic_ret (spec := spec)). Qed.

Lemma logic_TtyWrite (Q : Z -> E -> Prop) tty buf len σ :
  0 <= len <= zlen buf -> spec _ (CTtyWrite tty (take (Z.to_nat len) buf)) σ Q -> R _ Q (TtyWrite tty buf len) σ.
Proof.
  intros Hlen He. unfold TtyWrite. apply (logic_bind (spec := spec)). eapply logic_defined.
  - unfold zslice. rewrite decide_True by lia. by rewrite drop_0.
  - by apply logic_call.
Qed.
Lemma logic_PipeWrite (Q : Z -> E -> Prop) pipe buf len σ :
  0 <= len <= zlen buf -> spec _ (CPipeWrite pipe (take (Z.to_nat len) buf)) σ Q -> R _ Q (PipeWrite pipe buf len) σ.
Proof.
  intros Hlen He. unfold PipeWrite. apply (logic_bind (spec := spec)). eapply logic_defined.
  - unfold zslice. rewrite decide_True by lia. by rewrite drop_0.
  - by apply logic_call.
Qed.
Lemma logic_TtyRead (Q : Z * list Z -> E -> Prop) tty buf len σ :
  len <= zlen buf ->
  spec _ (CTtyRead tty (Own (zlen buf)) len) σ (fun r => Q (r.1, overwrite r.2 buf)) -> R _ Q (TtyRead tty buf len) σ.
Proof.
  intros Hlen He. unfold TtyRead. rewrite (proj2 (Z.ltb_ge _ _)) by done.
  apply (logic_bind (spec := spec)), logic_call. eapply (logic_spec_mono (R := R)); [|exact He].
  intros r σ' Hr. by apply (logic_ret (spec := spec)).
Qed.
Lemma logic_PipeRead (Q : Z * list Z -> E -> Prop) pipe buf len σ :
  len <= zlen buf ->
  spec _ (CPipeRead pipe len) σ (fun r => Q (r.1, overwrite r.2 buf)) -> R _ Q (PipeRead pipe buf len) σ.
Proof.
  intros Hlen He. unfold PipeRead. rewrite (proj2 (Z.ltb_ge _ _)) by done.
  apply (logic_bind (spec := spec)), logic_call. eapply (logic_spec_mono (R := R)); [|exact He].
  intros r σ' Hr. by apply (logic_ret (spec := spec)).
Qed.

(** Loops that count, with the invariant [I]. *)
Lemma logic_times n i (body : Z -> prog unit) (I : Z -> E -> Prop) (Q : unit -> E -> Prop) σ :
  I i σ ->
  (forall j σ, i <= j < i + Z.of_nat n -> I j σ -> R _ (fun _ σ' => I (j + 1) σ') (body j) σ) ->
  (forall σ, I (i + Z.of_nat n) σ -> Q tt σ) -> R _ Q (times n i body) σ.
Proof.
  revert i σ. induction n as [|n IH]; intros i σ HI Hbody HQ; cbn [times].
  - apply (logic_ret (spec := spec)), HQ. by rewrite Z.add_0_r.
  - apply (logic_bind (spec := spec)). eapply (logic_mono (spec := spec)); [|by apply Hbody; [lia|]].
    intros [] σ' HI'. apply IH; [done| |].
    + intros j σ'' ? ?. apply Hbody; [lia|done].
    + intros σ'' ?. apply HQ. by replace (i + Z.of_nat (S n)) with (i + 1 + Z.of_nat n) by lia.
Qed.
Lemma logic_for first last (body : Z -> prog unit) (I : Z -> E -> Prop) (Q : unit -> E -> Prop) σ :
  I first σ ->
  (forall j σ, first <= j < last -> I j σ -> R _ (fun _ σ' => I (j + 1) σ') (body j) σ) ->
  (forall σ, I (Z.max first last) σ -> Q tt σ) -> R _ Q (for_user first last body) σ.
Proof.
  intros HI Hbody HQ. apply (logic_times _ _ _ I); [done| |].
  - intros j σ' ? ?. apply Hbody; [lia|done].
  - intros σ' ?. apply HQ. by replace (Z.max first last) with (first + Z.of_nat (Z.to_nat (last - first))) by lia.
Qed.

Lemma logic_times_ret {A} n i (body : Z -> prog (option A)) (I : Z -> E -> Prop) (Q : option A -> E -> Prop) σ :
  I i σ ->
  (forall j σ, i <= j < i + Z.of_nat n -> I j σ ->
     R _ (fun r σ' => match r with Some x => Q (Some x) σ' | None => I (j + 1) σ' end) (body j) σ) ->
  (forall σ, I (i + Z.of_nat n) σ -> Q None σ) -> R _ Q (times_ret n i body) σ.
Proof.
  revert i σ. induction n as [|n IH]; intros i σ HI Hbody HQ; cbn [times_ret].
  - apply (logic_ret (spec := spec)), HQ. by rewrite Z.add_0_r.
  - apply (logic_bind (spec := spec)). eapply (logic_mono (spec := spec)); [|by apply Hbody; [lia|]].
    intros [x|] σ' HI'; [by apply (logic_ret (spec := spec))|]. apply IH; [done| |].
    + intros j σ'' ? ?. apply Hbody; [lia|done].
    + intros σ'' ?. apply HQ. by replace (i + Z.of_nat (S n)) with (i + 1 + Z.of_nat n) by lia.
Qed.
Lemma logic_for_ret {A} first last (body : Z -> prog (option A)) (I : Z -> E -> Prop) (Q : option A -> E -> Prop) σ :
  I first σ ->
  (forall j σ, first <= j < last -> I j σ ->
     R _ (fun r σ' => match r with Some x => Q (Some x) σ' | None => I (j + 1) σ' end) (body j) σ) ->
  (forall σ, I (Z.max first last) σ -> Q None σ) -> R _ Q (for_user_ret first last body) σ.
Proof.
  intros HI Hbody HQ. apply (logic_times_ret _ _ _ I); [done| |].
  - intros j σ' ? ?. apply Hbody; [lia|done].
  - intros σ' ?. apply HQ. by replace (Z.max first last) with (first + Z.of_nat (Z.to_nat (last - first))) by lia.
Qed.
End derived.

(** ** The C library *)
Lemma digits_len fuel n : zlen (digits fuel n) <= Z.of_nat fuel.
Proof.
  revert n. induction fuel as [|fuel IH]; intros n; cbn [digits]; [done|]. case_match.
  - unfold zlen. simpl. lia.
  - specialize (IH (n / 10)). unfold zlen in *. rewrite length_app. simpl. lia.
Qed.
Lemma digits_S fuel n :
  digits (S fuel) n = if n <? 10 then [48 + n] else digits fuel (n / 10) ++ [48 + n mod 10].
Proof. done. Qed.
#[global] Opaque digits.
Lemma fmt_d_len n : zlen (fmt_d n) <= 21.
Proof.
  unfold fmt_d. pose proof (digits_len 20 n). pose proof (digits_len 20 (- n)).
  case_match; unfold zlen in *; rewrite ?length_cons; lia.
Qed.
Lemma fmt_d_digit n : 0 <= n < 10 -> fmt_d n = [48 + n].
Proof.
  intros Hn. unfold fmt_d. rewrite (proj2 (Z.ltb_ge _ _)) by lia. rewrite digits_S.
  by rewrite (proj2 (Z.ltb_lt _ _)) by lia.
Qed.

(** [atoi] reads back what [%d] printed. *)
Lemma digits_are fuel n : 0 <= n < 10 ^ Z.of_nat fuel -> (0 < fuel)%nat ->
  Forall (fun c => is_digit c = true) (digits fuel n) /\ digits fuel n <> [] /\
  (forall acc s, value_of acc (digits fuel n ++ s) = value_of (acc * 10 ^ zlen (digits fuel n) + n) s).
Proof.
  assert (forall d, 0 <= d < 10 -> is_digit (48 + d) = true) as Hd.
  { intros d Hd. unfold is_digit. rewrite !(proj2 (Z.leb_le _ _)) by lia. done. }
  revert n. induction fuel as [|fuel IH]; intros n Hn Hf; [lia|]. rewrite digits_S.
  destruct (Z.ltb_spec n 10) as [Hlt|Hge].
  - split_and!; [constructor; [apply Hd; lia|constructor]|done|]. intros acc s. simpl. rewrite Hd by lia.
    f_equal. unfold zlen. simpl. lia.
  - destruct fuel as [|fuel]; [simpl in Hn; lia|].
    destruct (IH (n / 10)) as (Hall & Hne & Hval); [|lia|].
    { rewrite Nat2Z.inj_succ, Z.pow_succ_r in Hn by lia. split; [by apply Z.div_pos; lia|]. apply Z.div_lt_upper_bound; lia. }
    pose proof (Z.mod_pos_bound n 10 ltac:(lia)). pose proof (Z.div_mod n 10 ltac:(lia)). split_and!.
    + apply Forall_app; split; [done|]. constructor; [apply Hd; lia|constructor].
    + by destruct (digits (S fuel) (n / 10)).
    + intros acc s. rewrite <- app_assoc, Hval. simpl. rewrite Hd by lia. f_equal.
      replace (zlen (digits (S fuel) (n / 10) ++ [48 + n mod 10])) with (zlen (digits (S fuel) (n / 10)) + 1)
        by (unfold zlen; rewrite length_app; simpl; lia).
      rewrite Z.pow_add_r by (unfold zlen; lia). lia.
Qed.

Lemma atoi_fmt_d n : is_int n = true -> atoi (fmt_d n) = mret n.
Proof.
  intros Hn. unfold atoi. replace (atoi_value (fmt_d n)) with n; [by rewrite Hn|].
  assert (forall m, 0 <= m < 10 ^ 20 -> exists c s, digits 20 m = c :: s /\ is_digit c = true /\ value_of 0 (c :: s) = m) as Hdig.
  { intros m Hm. destruct (digits_are 20 m) as (Hall & Hne & Hval); [done|lia|].
    destruct (digits 20 m) as [|c s]; [done|]. apply Forall_cons in Hall as [Hc _]. exists c, s.
    split_and!; [done..|]. specialize (Hval 0 []). rewrite app_nil_r in Hval. rewrite Hval. simpl. lia. }
  assert (forall c, is_digit c = true -> is_space c = false /\ (c =? 45) = false /\ (c =? 43) = false) as Hchar.
  { unfold is_digit, is_space. intros c Hc. lia. }
  unfold is_int, INT_MAX in Hn. unfold atoi_value, fmt_d. destruct (Z.ltb_spec n 0).
  - destruct (Hdig (- n)) as (c & s & -> & Hc & Hv); [lia|]. cbn. cbn in Hv. lia.
  - destruct (Hdig n) as (c & s & -> & Hc & Hv); [lia|]. destruct (Hchar c Hc) as (H1 & H2 & H3).
    cbn [skip_space]. by rewrite H1, H2, H3, Hv.
Qed.

Lemma overwrite_len out a : zlen (overwrite out a) = zlen a.
Proof. unfold overwrite, zlen. rewrite length_app, length_take, length_drop. lia. Qed.
Lemma overwrite_take out a : zlen out <= zlen a -> take (length out) (overwrite out a) = out.
Proof. intros Hlen. unfold overwrite, zlen in *. rewrite (take_ge out) by lia. by rewrite take_app_length. Qed.

(** ** Tactics *)

(** Lengths of texts made of literals and numbers. *)
Ltac text_len :=
  rewrite ?zlen_app;
  repeat match goal with
  | |- context [zlen (bytes ?s)] => let v := eval vm_compute in (zlen (bytes s)) in change (zlen (bytes s)) with v
  | |- context [zlen nl] => change (zlen nl) with 1
  | |- context [zlen [?x]] => change (zlen [x]) with 1
  | |- context [zlen (fmt_d ?n)] => pose proof (fmt_d_len n); generalize dependent (zlen (fmt_d n)); intros
  end; lia.

(** One step of a program in either logic. *)
Ltac ustep :=
  lazymatch goal with
  | |- _ (mbind _ _) _ => apply logic_bind
  | |- _ (prog_bind _ _ _ _) _ => apply logic_bind
  | |- _ (mret _) _ => apply logic_ret
  | |- _ (call _) _ => apply logic_call
  | |- _ (exit _) _ => apply logic_exit
  | |- _ (TtyWrite _ _ _) _ => apply logic_TtyWrite
  | |- _ (TtyRead _ _ _) _ => apply logic_TtyRead
  | |- _ (PipeWrite _ _ _) _ => apply logic_PipeWrite
  | |- _ (PipeRead _ _ _) _ => apply logic_PipeRead
  | |- _ (sprintf _ _) _ => apply logic_sprintf; [first [text_len|idtac]|]
  end; cbv beta.
