(* ===== verification/UserPrograms.v ===== *)
(** * The user programs ([user/*.c])

    Every program of [user/] as an interaction tree over the calls of the user
    library ([UserLib]).  [TracePrintf], which only writes to the log of the
    simulator, is left out; its arguments are kept where they are calls.  Text
    behind a loop that does not end is kept as it is in the code. *)

From S2P Require Import Prelude Machine UserLib.
From stdpp Require Import strings.
Open Scope Z_scope.

(** What a program takes from its headers and from where it is loaded: the
    numbers of the terminals, the address of the array of [bigstack], and what is
    in an array nothing was written to. *)
Class UserMachine := {
  TTY_CONSOLE : Z;
  TTY_1 : Z;
  TTY_2 : Z;
  TTY_3 : Z;
  big_buffer : Z;
  uninit : Z -> list Z
}.
Class UserMachineOk `{UserMachine} : Prop := {
  tty_numbers : TTY_CONSOLE = 0 /\ TTY_1 = 1 /\ TTY_2 = 2 /\ TTY_3 = 3;
  uninit_len : forall n, 0 <= n -> zlen (uninit n) = n
}.

(** [for (i = ...; n times; i++) a[i] = f(i);] *)
Fixpoint fill (n : nat) (i : Z) (f : Z -> Z) (a : list Z) : option (list Z) :=
  match n with
  | O => Some a
  | S n' => a' ← zset a i (f i); fill n' (i + 1) f a'
  end.

(** ** Definitions *)
Section definitions.
Context `{UserMachine}.

(** *** [init.c] and [altinit.c] *)
Definition init_main (argv : list (list Z)) : prog Z :=
  (if zlen argv <? 2 then exit (-1) else mret tt);;
  let child_argv := drop 1 argv in
  child_name ← defined (zget child_argv 0);
  res ← call CFork;
  (if res =? 0 then
     call (CExec child_name child_argv);;
     exit (-1)
   else if negb (res =? -1) then mret tt
   else exit (-1));;
  loop (fun status =>
    '(_, stored) ← call CWait;
    let status := default status stored in
    if negb (status =? 0) then exit (-1) else mret status) 40.

Definition altinit_main (argv : list (list Z)) : prog Z :=
  for_user 1 (zlen argv) (fun i =>
    res ← call CFork;
    if res =? 0 then
      arg ← defined (zget argv i);
      call (CExec arg [arg]);;
      exit (-1)
    else if negb (res =? -1) then mret tt
    else exit (-1));;
  forever (call CWait;; mret tt).

(** *** [bigstack.c], [forkstack.c], [illegal_addr.c], [null_buff.c], [writer.c] *)
Definition bigstack_main : prog Z :=
  for_user 0 (10 * 1024) (fun i => call (CStore (big_buffer + i) 97));;
  for_user 0 20 (fun j => call (CLoad (big_buffer + 512 * j));; mret tt);;
  exit 0.

Fixpoint recurse (who : list Z) (i : nat) : prog unit :=
  mem ← call (CMalloc 2048);
  waste ← defined (fill 1024 0 (fun _ => 97) (uninit 1024));
  (if negb (mem =? 0) then w ← defined (zget waste 0); call (CStore mem w) else mret tt);;
  call (CTtyPrintf 1 (who ++ bytes " " ++ fmt_d (Z.of_nat i) ++ nl));;
  match i with
  | O => call (CTtyPrintf 1 (bytes "Done with recursion" ++ nl));; mret tt
  | S i' => recurse who i'
  end.
Definition forkstack_main : prog Z :=
  pid ← call CFork;
  (if pid =? 0 then recurse (bytes "child") 33 else recurse (bytes "parent") 33);;
  exit 0.

Definition illegal_addr_main : prog Z := call (CLoad 0);; exit 0.

Definition null_buff_main : prog Z :=
  call (CTtyRead 2 (At 0) 2000);;
  call (CTtyRead 2 (At 33554431) 20000);;
  mret 0.

Definition writer_main : prog Z :=
  call (CDelay 5);;
  call (CTtyPrintf 1 (bytes "go" ++ nl));;
  mret 0.

(** *** [pipe_test.c] *)
Definition CHECK (cond : bool) : prog unit := if cond then mret tt else exit (-1).

(** What the child does, and the parent after the fork. *)
Definition pipe_test_child (pipe_id : Z) : prog unit :=
  '(rc, buf) ← PipeRead pipe_id (uninit 32) 5;
  CHECK (rc =? 5);;
  buf ← defined (zset buf 5 0);
  same ← same_string buf (bytes "hello");
  CHECK same;;
  exit 17.

Definition pipe_test_parent (pipe_id : Z) : prog Z :=
  call (CDelay 3);;
  rc ← PipeWrite pipe_id (bytes "hello") 5;
  CHECK (rc =? 5);;
  '(rc, stored) ← call CWait;
  CHECK (rc =? 0);;
  status ← defined stored;
  CHECK (status =? 17);;
  rc ← PipeWrite pipe_id (bytes "abcdef") 6;
  CHECK (rc =? 6);;
  '(rc, buf) ← PipeRead pipe_id (uninit 32) 3;
  CHECK (rc =? 3);;
  buf ← defined (zset buf 3 0);
  same ← same_string buf (bytes "abc");
  CHECK same;;
  '(rc, buf) ← PipeRead pipe_id buf 10;
  CHECK (rc =? 3);;
  buf ← defined (zset buf 3 0);
  same ← same_string buf (bytes "def");
  CHECK same;;
  rc ← PipeWrite pipe_id (bytes "xyz") 3;
  CHECK (rc =? 3);;
  '(rc, buf) ← PipeRead pipe_id buf 3;
  CHECK (rc =? 3);;
  buf ← defined (zset buf 3 0);
  same ← same_string buf (bytes "xyz");
  CHECK same;;
  rc ← call (CReclaim pipe_id);
  CHECK (rc =? 0);;
  exit 0.

Definition pipe_test_main : prog Z :=
  '(rc, pipe_id) ← call CPipeInit;
  CHECK (rc =? 0);;
  rc ← call CFork;
  CHECK (0 <=? rc);;
  (if rc =? 0 then pipe_test_child pipe_id else mret tt);;
  pipe_test_parent pipe_id.

(** *** [test.c], [test_helper.c], [test2.c], [test_helper2.c] *)
Definition test_main (argv : list (list Z)) : prog Z :=
  (if negb (zlen argv =? 2) then exit (-1) else mret tt);;
  arg ← defined (zget argv 1);
  num_procs ← atoi arg;
  '(_, lock_id) ← call CLockInit;
  '(_, cvar_id) ← call CCvarInit;
  alloc 100;;
  alloc 100;;
  arg1 ← sprintf 100 (fmt_d lock_id);
  arg2 ← sprintf 100 (fmt_d cvar_id);
  for_user 0 num_procs (fun i =>
    let child_argv := [bytes "user/test_helper"; arg1; arg2; if 0 <? i then bytes "0" else bytes "1"] in
    res ← call CFork;
    if res =? 0 then
      call (CExec (bytes "user/test_helper") child_argv);;
      exit (-1)
    else if res =? -1 then exit (-1)
    else mret tt);;
  for_user 0 num_procs (fun _ => call CWait;; mret tt);;
  call (CReclaim lock_id);;
  exit 0.

Definition test_helper_main (argv : list (list Z)) : prog Z :=
  (if negb (zlen argv =? 4) then exit (-1) else mret tt);;
  a1 ← defined (zget argv 1); lock_id ← atoi a1;
  a2 ← defined (zget argv 2); cvar_id ← atoi a2;
  a3 ← defined (zget argv 3); chosen ← atoi a3;
  (if negb (chosen =? 0) then
     call (CDelay 3);;
     call (CAcquire lock_id);;
     call (CCvarBroadcast cvar_id)
   else
     call (CAcquire lock_id);;
     call (CCvarWait cvar_id lock_id));;
  call (CRelease lock_id);;
  exit 0.

Definition test2_main (argv : list (list Z)) : prog Z :=
  (if negb (zlen argv =? 3) then exit (-1) else mret tt);;
  a1 ← defined (zget argv 1); num_procs ← atoi a1;
  a2 ← defined (zget argv 2); sem_val ← atoi a2;
  '(_, sem_id) ← call (CSemInit sem_val);
  alloc 100;;
  arg ← sprintf 100 (fmt_d sem_id);
  for_user 0 num_procs (fun _ =>
    res ← call CFork;
    if res =? 0 then
      call (CExec (bytes "user/test_helper2") [bytes "user/test_helper2"; arg]);;
      exit (-1)
    else if res =? -1 then exit (-1)
    else mret tt);;
  for_user 0 num_procs (fun _ => call CWait;; mret tt);;
  call (CReclaim sem_id);;
  exit 0.

Definition test_helper2_main (argv : list (list Z)) : prog Z :=
  (if negb (zlen argv =? 2) then exit (-1) else mret tt);;
  a1 ← defined (zget argv 1); sem_id ← atoi a1;
  call (CSemDown sem_id);;
  call (CDelay 5);;
  call (CSemUp sem_id);;
  exit 0.

(** *** [echo.c] *)
Definition ECHO_BUF_SIZE : Z := 256.
Definition BIG_WRITE_LEN : Z := 2600.

Definition banner (tty : Z) (tag : list Z) : prog unit :=
  msg ← sprintf 80 (nl ++ bytes "==== " ++ tag ++ bytes " (tty " ++ fmt_d tty ++ bytes ") ====" ++ nl);
  TtyWrite tty msg (zlen msg);;
  mret tt.

(** [TtyWrite(tty, s, strlen(s))] for a literal [s]. *)
Definition write_string (tty : Z) (s : list Z) : prog unit := TtyWrite tty s (zlen s);; mret tt.

Definition test_basic_echo : prog unit :=
  banner TTY_CONSOLE (bytes "Basic echo");;
  write_string TTY_CONSOLE (bytes "Type a line and press Enter: ");;
  '(n, buf) ← TtyRead TTY_CONSOLE (uninit ECHO_BUF_SIZE) ECHO_BUF_SIZE;
  hdr ← sprintf 64 (bytes "You typed " ++ fmt_d n ++ bytes " bytes: ");
  TtyWrite TTY_CONSOLE hdr (zlen hdr);;
  if 0 <? n then TtyWrite TTY_CONSOLE buf n;; mret tt else mret tt.

Definition test_partial_read : prog unit :=
  banner TTY_CONSOLE (bytes "Partial read");;
  write_string TTY_CONSOLE (bytes "Type a long line (>=10 chars) and press Enter: ");;
  '(n1, small) ← TtyRead TTY_CONSOLE (uninit 5) 5;
  hdr1 ← sprintf 80 (bytes "first 5 bytes (" ++ fmt_d n1 ++ bytes "): ");
  TtyWrite TTY_CONSOLE hdr1 (zlen hdr1);;
  (if 0 <? n1 then TtyWrite TTY_CONSOLE small n1;; mret tt else mret tt);;
  TtyWrite TTY_CONSOLE nl 1;;
  '(n2, rest) ← TtyRead TTY_CONSOLE (uninit ECHO_BUF_SIZE) ECHO_BUF_SIZE;
  hdr2 ← sprintf 80 (bytes "remainder (" ++ fmt_d n2 ++ bytes "): ");
  TtyWrite TTY_CONSOLE hdr2 (zlen hdr2);;
  if 0 <? n2 then TtyWrite TTY_CONSOLE rest n2;; mret tt else mret tt.

(** The byte at [i] of the large write. *)
Definition big_byte (i : Z) : Z := if (0 <? i) && (Z.rem i 80 =? 0) then 10 else 65 + Z.rem i 26.

Definition test_large_write : prog unit :=
  banner TTY_CONSOLE (bytes "Large write > TERMINAL_MAX_LINE");;
  p ← call (CMalloc BIG_WRITE_LEN);
  if p =? 0 then mret tt
  else
    big ← defined (fill (Z.to_nat BIG_WRITE_LEN) 0 big_byte (uninit BIG_WRITE_LEN));
    big ← defined (zset big (BIG_WRITE_LEN - 1) 10);
    wrote ← TtyWrite TTY_CONSOLE big BIG_WRITE_LEN;
    tail ← sprintf 80 (bytes "[large write done, " ++ fmt_d wrote ++ bytes " bytes]" ++ nl);
    TtyWrite TTY_CONSOLE tail (zlen tail);;
    call (CFree p).

Definition test_multi_terminal : prog unit :=
  banner TTY_CONSOLE (bytes "Multi-terminal output");;
  write_string TTY_CONSOLE (bytes "hello on console (tty 0)" ++ nl);;
  write_string TTY_1 (bytes "hello on tty 1" ++ nl);;
  write_string TTY_2 (bytes "hello on tty 2" ++ nl);;
  write_string TTY_3 (bytes "hello on tty 3" ++ nl).

Definition child_writer (tag : Z) : prog unit :=
  for_user 0 5 (fun i =>
    line ← sprintf 64 (bytes "[child " ++ fmt_d tag ++ bytes "] iteration " ++ fmt_d i ++
      bytes ": the quick brown fox" ++ nl);
    TtyWrite TTY_CONSOLE line (zlen line);;
    call (CDelay 1);;
    mret tt);;
  exit tag.

Definition test_concurrent_writers : prog unit :=
  banner TTY_CONSOLE (bytes "Concurrent writers on tty 0");;
  failed ← for_user_ret 0 2 (fun i =>
    pid ← call CFork;
    if pid =? 0 then child_writer (i + 1);; mret None
    else if pid <? 0 then mret (Some tt)
    else mret None);
  match failed with
  | Some _ => mret tt
  | None =>
      for_user 0 5 (fun i =>
        line ← sprintf 64 (bytes "[parent  ] iteration " ++ fmt_d i ++ bytes ": lazy dog" ++ nl);
        TtyWrite TTY_CONSOLE line (zlen line);;
        call (CDelay 1);;
        mret tt);;
      for_user 0 2 (fun _ => call CWait;; mret tt);;
      write_string TTY_CONSOLE (bytes "[concurrent writers done]" ++ nl)
  end.

(** One round of the loop of [main], with the array all rounds share; [continue]
    skips the write. *)
Definition echo_round (buf : list Z) : prog (list Z) :=
  write_string TTY_CONSOLE (bytes "echo> ");;
  '(n, buf) ← TtyRead TTY_CONSOLE buf ECHO_BUF_SIZE;
  if n <=? 0 then mret buf else TtyWrite TTY_CONSOLE buf n;; mret buf.

Definition echo_main : prog Z :=
  write_string TTY_CONSOLE (bytes "echo test suite starting" ++ nl);;
  test_multi_terminal;;
  test_large_write;;
  test_concurrent_writers;;
  test_basic_echo;;
  test_partial_read;;
  write_string TTY_CONSOLE (nl ++ bytes "All echo tests complete. Looping on echo prompt." ++ nl);;
  loop echo_round (uninit ECHO_BUF_SIZE).

(** *** [torture.c] *)
Definition say (tty : Z) (s : string) : prog unit := call (CTtyPrintf tty (bytes s ++ nl));; mret tt.
Definition delay (n : Z) : prog unit := call (CDelay n);; mret tt.

Definition Bouncer (cvar mutex : Z) : prog Z :=
  call CGetPid;;
  say 1 "Bouncer here";;
  forever (
    call (CTtyPrintf 1 (bytes "Waiting for ping..."));;
    call (CAcquire mutex);;
    call (CCvarWait cvar mutex);;
    call (CRelease mutex);;
    say 1 "boing!");;
  say 1 "*** SHOULDN'T BE HERE!!!";;
  exit (-1).

Definition ThatAnnoyingPerson : prog Z :=
  call CGetPid;;
  forever (
    say 1 "Hey!  Hey!  You remember that time when...";;
    delay 1;;
    say 1 "Hi!  I'm that annoying guy that all the other processes hate!";;
    delay 1;;
    say 1 "Hehehehehehehehehehe!";;
    delay 1;;
    say 1 "Why did the chicken cross the road?  Ha ha...";;
    delay 1;;
    say 1 "42!!!";;
    delay 1;;
    say 1 "Get it?  42?  Get it?  Huh?  Hey, you're not listening...";;
    delay 1;;
    say 1 "You know what would be a really scary Halloween costume?";;
    delay 1;;
    say 1 "A null pointer!  Ha ha ha.";;
    delay 1;;
    say 1 "My while loop is over, so I'm goint to repeat all my lame jokes now.";;
    delay 1);;
  say 1 "*** I SHOULDN'T BE HERE!!!";;
  exit (-1).

(** [PAGESIZE] of [torture.c]. *)
Definition torture_PAGESIZE : Z := 8192.

Definition MallocMonster : prog Z :=
  call CGetPid;;
  forever (
    r ← call CRand;
    let npg := Z.rem r 21 in
    call (CTtyPrintf 2 (bytes "MallocMonster: malloc'ing " ++ fmt_d npg ++ bytes " pages" ++ nl));;
    ptr ← call (CMalloc (torture_PAGESIZE * npg));
    delay 3;;
    say 2 "MallocMonster: freeing the stuff I just malloc'ed";;
    call (CFree ptr));;
  say 1 "*** I SHOULDN'T BE HERE!!!";;
  exit (-1).

Definition SonarGal (cvar mutex : Z) : prog Z :=
  call CGetPid;;
  say 0 "SonarGal here (my job is to signal Bouncer)";;
  forever (
    call (CTtyPrintf 0 (bytes "Signaling Bouncer..."));;
    delay 2;;
    call (CAcquire mutex);;
    call (CCvarSignal cvar);;
    call (CRelease mutex);;
    say 0 "ping!");;
  say 1 "*** I SHOULDN'T BE HERE!!!";;
  exit (-1).

Definition GarbageMan : prog Z :=
  let punc := bytes ".!?;:" in
  call CGetPid;;
  say 3 "Hi, I'm the garbage man!";;
  delay 6;;
  say 3 "All I do is spew garbage!  Watch!";;
  forever (
    r ← call CRand;
    let sentLen := Z.rem r 8 in
    r ← call CRand;
    delay (Z.rem r 7);;
    for_user 0 sentLen (fun i =>
      r ← call CRand;
      let wordLen := Z.rem r 13 in
      for_user 0 wordLen (fun _ =>
        r ← call CRand;
        call (CTtyWrite 3 [97 + Z.rem r 26]);;
        mret tt);;
      if i <? sentLen - 1 then call (CTtyWrite 3 [32]);; mret tt else mret tt);;
    r ← call CRand;
    c ← defined (zslice punc (Z.rem r 5) 1);
    call (CTtyWrite 3 c);;
    call (CTtyWrite 3 [32]);;
    mret tt);;
  say 1 "*** I SHOULDN'T BE HERE!!!";;
  exit (-1).

(** [pid = Fork(); if (pid == 0) child();]; a failure is only traced. *)
Definition spawn (child : prog Z) : prog unit :=
  pid ← call CFork;
  if pid =? 0 then child;; mret tt else mret tt.

Definition torture_main : prog Z :=
  '(r, cvar) ← call CCvarInit;
  assert (negb (r =? ERROR));;
  '(r, mutex) ← call CLockInit;
  assert (negb (r =? ERROR));;
  spawn (Bouncer cvar mutex);;
  spawn ThatAnnoyingPerson;;
  spawn (SonarGal cvar mutex);;
  spawn MallocMonster;;
  spawn GarbageMan;;
  forever (
    delay 100;;
    say 0 "Parent woke up; going back to sleep");;
  say 0 "*** I SHOULDN'T BE HERE!!!";;
  mret (-1).

(** *** The programs by the names they are started with, without those that are
    no files of their own *)
Definition user_programs : list (string * (list (list Z) -> prog Z)) :=
  [("user/init", init_main); ("user/altinit", altinit_main); ("user/bigstack", fun _ => bigstack_main);
   ("user/forkstack", fun _ => forkstack_main); ("user/illegal_addr", fun _ => illegal_addr_main);
   ("user/null_buff", fun _ => null_buff_main); ("user/writer", fun _ => writer_main);
   ("user/pipe_test", fun _ => pipe_test_main); ("user/test", test_main);
   ("user/test_helper", test_helper_main); ("user/test2", test2_main);
   ("user/test_helper2", test_helper2_main); ("user/echo", fun _ => echo_main);
   ("user/torture", fun _ => torture_main)]%string.

(** The program in the file [name]. *)
Definition program_of (name : list Z) : option (list (list Z) -> prog Z) :=
  p ← list_find (fun p => bytes p.1 = name) user_programs; Some p.2.2.
End definitions.

(** ** Lemmas *)

(** Filling an array from [i] on. *)
Lemma fill_ok n i f a : 0 <= i -> i + Z.of_nat n <= zlen a -> exists a', fill n i f a = Some a' /\ zlen a' = zlen a.
Proof.
  revert i a. induction n as [|n IH]; intros i a Hi Hn; cbn [fill]; [by exists a|].
  unfold zset, zlen in *. rewrite decide_True by lia. cbn [mbind option_bind].
  destruct (IH (i + 1) (<[Z.to_nat i := f i]> a)) as (a' & Ha' & Hlen); [lia|rewrite length_insert; lia|].
  exists a'. rewrite length_insert in Hlen. by split.
Qed.

(** Filling a whole array. *)
Lemma fill_map n i f pre a : length a = n -> zlen pre = i ->
  fill n i f (pre ++ a) = Some (pre ++ (f <$> seqZ i (Z.of_nat n))).
Proof.
  revert i pre a. induction n as [|n IH]; intros i pre a Ha Hpre; cbn [fill].
  - destruct a; [|done]. done.
  - destruct a as [|x a]; [done|]. injection Ha as Ha. unfold zset, zlen in *.
    rewrite decide_True by (rewrite length_app; simpl; lia). cbn [mbind option_bind].
    replace (Z.to_nat i) with (length pre) by lia. rewrite insert_app_r_alt, Nat.sub_diag by lia. cbn [insert list_insert].
    replace (pre ++ f i :: a) with ((pre ++ [f i]) ++ a) by (by rewrite <- (assoc_L (++))).
    rewrite (IH (i + 1) (pre ++ [f i]) a Ha) by (rewrite length_app; simpl; lia).
    rewrite (seqZ_cons i) by lia. rewrite fmap_cons, <- (assoc_L (++)). cbn [app].
    by replace (Z.pred (Z.of_nat (S n))) with (Z.of_nat n) by lia.
Qed.

(** A machine for the witnesses: arrays start as zeros. *)
Definition demo_programs : UserMachine :=
  {| TTY_CONSOLE := 0; TTY_1 := 1; TTY_2 := 2; TTY_3 := 3; big_buffer := 2080768;
     uninit := fun n => replicate (Z.to_nat n) 0 |}.
#[export] Instance demo_programs_ok : @UserMachineOk demo_programs.
Proof. split; [done|]. intros n Hn. unfold zlen. simpl. rewrite length_replicate. lia. Defined.
