(* ===== verification/Torture.v ===== *)
(** * The torture test ([user/torture.c])

    The five processes [torture] starts and their parent never end, ask for
    memory and sleep within bounds, write garbage of the right kind, and use the
    mutex and the condition variable in the order the kernel asks for: the mutex
    is acquired by who does not hold it, and released, waited with and signalled
    under by who does. *)

From S2P Require Import Prelude Machine UserLib UserPrograms.
From stdpp Require Import strings.
Open Scope Z_scope.

(** ** Definitions *)

(** What a process knows: the handles it was given and whether it holds the
    mutex. *)
Record tstate := { t_cvar : Z; t_mutex : Z; t_holds : bool }.

(** A byte of garbage: a letter, a punctuation mark or a space. *)
Definition garbage (b : Z) : Prop := 97 <= b <= 122 \/ b ∈ bytes ".!?;:" \/ b = 32.

Definition t_allowed {A} (e : callE A) (σ : tstate) : Prop :=
  match e with
  | CUndefined | CExit _ => False
  | CTtyWrite tty bs => tty = 3 /\ exists b, bs = [b] /\ garbage b
  | CMalloc size => 0 <= size <= 20 * torture_PAGESIZE
  | CDelay ticks => 0 <= ticks <= 100
  | CAcquire lock => lock = t_mutex σ /\ t_holds σ = false
  | CRelease lock => lock = t_mutex σ /\ t_holds σ = true
  | CCvarWait cvar lock => cvar = t_cvar σ /\ lock = t_mutex σ /\ t_holds σ = true
  | CCvarSignal cvar => cvar = t_cvar σ /\ t_holds σ = true
  | _ => True
  end.
Definition t_next {A} (e : callE A) : A -> tstate -> tstate :=
  match e in callE A return A -> tstate -> tstate with
  | CCvarInit => fun r σ => {| t_cvar := r.2; t_mutex := t_mutex σ; t_holds := t_holds σ |}
  | CLockInit => fun r σ => {| t_cvar := t_cvar σ; t_mutex := r.2; t_holds := false |}
  | CAcquire _ => fun _ σ => {| t_cvar := t_cvar σ; t_mutex := t_mutex σ; t_holds := true |}
  | CRelease _ => fun _ σ => {| t_cvar := t_cvar σ; t_mutex := t_mutex σ; t_holds := false |}
  | _ => fun _ σ => σ
  end.
Definition torture_kernel (A : Type) (e : callE A) (σ : tstate) (Q : A -> tstate -> Prop) : Prop :=
  t_allowed e σ /\ forall r, reply_ok true e r -> Q r (t_next e r σ).

#[export] Instance torture_kernel_mono : MonoSpec torture_kernel.
Proof. intros A e σ Q Q' HQ [Ha Hr]. split; [done|]. intros r Hr'. by apply HQ, Hr. Qed.

(** ** Lemmas *)
#[local] Abbreviation behaves := (always torture_kernel).
#[local] Abbreviation knows c m h := {| t_cvar := c; t_mutex := m; t_holds := h |}.

Lemma say_behaves (Q : unit -> tstate -> Prop) tty s σ : Q tt σ -> behaves Q (say tty s) σ.
Proof. intros HQ. unfold say. ustep. ustep. split; [done|]. intros r _. by ustep. Qed.
Lemma delay_behaves (Q : unit -> tstate -> Prop) n σ : 0 <= n <= 100 -> Q tt σ -> behaves Q (delay n) σ.
Proof. intros Hn HQ. unfold delay. ustep. ustep. split; [done|]. intros r _. by ustep. Qed.
Ltac tstep :=
  lazymatch goal with
  | |- _ (say _ _) _ => apply say_behaves
  | |- _ (delay _) _ => apply delay_behaves; [try lia|]
  | |- torture_kernel _ _ _ _ => split; [try done|let r := fresh "r" in intros r; cbn [reply_ok t_next]; intros]
  | _ => ustep
  end.
(** The first call of the body of a loop. *)
Lemma first_say (Q : unit -> tstate -> Prop) tty s σ : Q tt σ -> calls_first torture_kernel Q (say tty s) σ.
Proof. intros HQ. apply (first_bind _), (first_call _). tstep. by tstep. Qed.
Lemma first_delay (Q : unit -> tstate -> Prop) n σ :
  0 <= n <= 100 -> Q tt σ -> calls_first torture_kernel Q (delay n) σ.
Proof. intros Hn HQ. apply (first_bind _), (first_call _). tstep. by tstep. Qed.
Ltac first_step :=
  repeat apply (first_bind _);
  lazymatch goal with
  | |- calls_first _ _ (call _) _ => apply (first_call _); tstep
  | |- calls_first _ _ (say _ _) _ => apply first_say
  | |- calls_first _ _ (delay _) _ => apply first_delay; [lia|]
  end.
Ltac rem_bounds :=
  repeat match goal with
  | H : 0 <= ?r |- context [Z.rem ?r ?n] =>
      lazymatch goal with
      | _ : 0 <= Z.rem r n < n |- _ => fail
      | _ => pose proof (Z.rem_bound_pos r n H ltac:(lia))
      end
  end.

Section torture.
Context {um : UserMachine}.

Lemma Bouncer_behaves (Q : Z -> tstate -> Prop) cvar mutex :
  behaves Q (Bouncer cvar mutex) (knows cvar mutex false).
Proof.
  unfold Bouncer. do 5 tstep. tstep. apply (always_forever _ (fun σ => σ = knows cvar mutex false)); [|done].
  intros σ ->. first_step. repeat tstep; done.
Qed.
Lemma SonarGal_behaves (Q : Z -> tstate -> Prop) cvar mutex :
  behaves Q (SonarGal cvar mutex) (knows cvar mutex false).
Proof.
  unfold SonarGal. do 5 tstep. tstep. apply (always_forever _ (fun σ => σ = knows cvar mutex false)); [|done].
  intros σ ->. first_step. repeat tstep; done.
Qed.
Lemma ThatAnnoyingPerson_behaves (Q : Z -> tstate -> Prop) σ : behaves Q ThatAnnoyingPerson σ.
Proof.
  unfold ThatAnnoyingPerson. do 3 tstep. tstep. apply (always_forever _ (fun _ => True)); [|done].
  intros σ' _. first_step. repeat tstep; done.
Qed.
Lemma MallocMonster_behaves (Q : Z -> tstate -> Prop) σ : behaves Q MallocMonster σ.
Proof.
  unfold MallocMonster. do 3 tstep. tstep. apply (always_forever _ (fun _ => True)); [|done].
  intros σ' _. first_step. cbv zeta. rem_bounds.
  do 6 tstep. { simpl. unfold torture_PAGESIZE. lia. } repeat tstep; done.
Qed.

Lemma rand_behaves {A} (Q : A -> tstate -> Prop) (k : Z -> prog A) σ :
  (forall r, 0 <= r -> behaves Q (k r) σ) -> behaves Q (call CRand ≫= k) σ.
Proof. intros Hk. tstep. tstep. tstep. by apply Hk. Qed.
Lemma write_garbage_behaves (Q : unit -> tstate -> Prop) b σ :
  garbage b -> Q tt σ -> behaves Q (call (CTtyWrite 3 [b]);; mret tt) σ.
Proof. intros Hb HQ. tstep. tstep. tstep; [by split; [|exists b]|]. by tstep. Qed.

Lemma GarbageMan_behaves (Q : Z -> tstate -> Prop) σ : behaves Q GarbageMan σ.
Proof.
  unfold GarbageMan. cbv zeta. do 9 tstep. tstep. apply (always_forever _ (fun _ => True)); [|done].
  intros σ' _. first_step. apply rand_behaves. intros r2 Hr2. rem_bounds. tstep. tstep. tstep.
  apply (logic_for _ _ _ (fun _ _ => True)); [done| |].
  - intros i σ2 Hi _. apply rand_behaves. intros r3 Hr3. rem_bounds. tstep.
    apply (logic_for _ _ _ (fun _ _ => True)); [done| |].
    + intros j σ3 Hj _. apply rand_behaves. intros r4 Hr4. rem_bounds. apply write_garbage_behaves; [left; lia|done].
    + intros σ3 _. destruct (i <? _); [|by tstep]. by apply write_garbage_behaves; [right; right|].
  - intros σ2 _. apply rand_behaves. intros r3 Hr3. rem_bounds. tstep.
    assert (exists b, zslice (bytes ".!?;:") (Z.rem r3 5) 1 = Some [b] /\ b ∈ bytes ".!?;:") as (b & Hb & Hin).
    { assert (exists m, Z.rem r3 5 = m /\ (m = 0 \/ m = 1 \/ m = 2 \/ m = 3 \/ m = 4)) as (m & -> & Hm)
        by (eexists; split; [done|lia]).
      destruct Hm as [-> | [-> | [-> | [-> | ->]]]]; eexists; (split; [reflexivity|]); by apply (bool_decide_unpack _). }
    eapply logic_defined; [exact Hb|]. tstep. tstep. tstep; [by split; [|exists b; split; [|right; left]]|].
    by apply write_garbage_behaves; [right; right|].
Qed.

Lemma spawn_behaves (Q : unit -> tstate -> Prop) child σ :
  behaves (fun _ _ => False) child σ -> Q tt σ -> behaves Q (spawn child) σ.
Proof.
  intros Hc HQ. unfold spawn. tstep. tstep. tstep. destruct (r =? 0); [|by tstep].
  tstep. eapply (always_mono _); [|exact Hc]. done.
Qed.
Lemma init_behaves {A} (Q : A -> tstate -> Prop) (e : callE (Z * Z)) (k : Z -> prog A) σ :
  t_allowed e σ -> (forall id rc, behaves Q (k id) (t_next e (rc, id) σ)) ->
  behaves Q ('(r, id) ← call e; assert (negb (r =? ERROR));; k id) σ.
Proof.
  intros Ha Hk. tstep. tstep. split; [done|]. intros [rc id] _. unfold assert. tstep.
  destruct (negb _); [by tstep; apply Hk|]. by apply logic_noreturn.
Qed.

Lemma torture_main_behaves (σ : tstate) : behaves (fun _ _ => False) torture_main σ.
Proof.
  unfold torture_main. apply init_behaves; [done|]. intros cvar ?. apply init_behaves; [done|]. intros mutex ?.
  cbn [t_next t_cvar t_mutex t_holds fst snd].
  tstep. apply spawn_behaves; [apply Bouncer_behaves|].
  tstep. apply spawn_behaves; [apply ThatAnnoyingPerson_behaves|].
  tstep. apply spawn_behaves; [apply SonarGal_behaves|].
  tstep. apply spawn_behaves; [apply MallocMonster_behaves|].
  tstep. apply spawn_behaves; [apply GarbageMan_behaves|].
  tstep. apply (always_forever _ (fun _ => True)); [|done]. intros σ' _. first_step. repeat tstep; done.
Qed.
End torture.

(** ** Properties *)

