(* ===== verification/UserSafety.v ===== *)
(** * The user programs stay within their arrays

    Whatever the kernel answers, within what [UserLib.reply_ok] asks of an
    answer, no program of [user/] accesses an array out of bounds, prints a text
    that is longer than its buffer, reads a string that does not end or writes
    through NULL. *)

From S2P Require Import Prelude Machine UserLib UserPrograms Torture.
From stdpp Require Import strings.
Open Scope Z_scope.

(** ** Definitions *)

(** Every call but that of undefined behaviour is allowed, and every answer
    possible. *)
Definition allowed {A} (e : callE A) : Prop := match e with CUndefined => False | _ => True end.
Definition any_kernel (scarce : bool) (A : Type) (e : callE A) (σ : unit) (Q : A -> unit -> Prop) : Prop :=
  allowed e /\ forall r, reply_ok scarce e r -> Q r tt.

#[export] Instance any_kernel_mono scarce : MonoSpec (any_kernel scarce).
Proof. intros A e σ Q Q' HQ [Ha Hr]. split; [done|]. intros r Hr'. by apply HQ, Hr. Qed.

(** A program stays defined. *)
Definition stays_defined (scarce : bool) {A} (t : prog A) : Prop :=
  always (any_kernel scarce) (fun _ _ => True) t tt.

(** ** Lemmas *)
Section safety.
Context {um : UserMachine} {um_ok : UserMachineOk}.
Variable scarce : bool.
#[local] Abbreviation safe := (always (any_kernel scarce)).

Lemma safe_call {A} (Q : A -> unit -> Prop) (e : callE A) σ :
  allowed e -> (forall r, reply_ok scarce e r -> Q r tt) -> safe Q (call e) σ.
Proof. intros Ha Hr. apply logic_call. by split. Qed.

Lemma banner_safe (Q : unit -> unit -> Prop) tty tag σ : zlen tag <= 39 -> Q tt tt -> safe Q (banner tty tag) σ.
Proof.
  intros Ht HQ. unfold banner. ustep. ustep. ustep. ustep; [unfold zlen; lia|]. split; [done|]. intros r _. by ustep.
Qed.
Lemma write_string_safe (Q : unit -> unit -> Prop) tty s σ : Q tt tt -> safe Q (write_string tty s) σ.
Proof.
  intros HQ. unfold write_string. ustep. ustep; [unfold zlen; lia|]. split; [done|]. intros r _. by ustep.
Qed.
(** Steps in this environment: every answer, split where it is a pair. *)
Ltac sstep :=
  lazymatch goal with
  | |- any_kernel _ _ _ _ _ => split; [done|]; let r := fresh "r" in intros r; lazymatch type of r with unit => destruct r | _ => idtac end
  | |- _ (match ?x with _ => _ end) _ => destruct x eqn:?
  | _ => ustep
  end.

Lemma test_multi_terminal_safe (Q : unit -> unit -> Prop) σ : Q tt tt -> safe Q test_multi_terminal σ.
Proof.
  intros HQ. unfold test_multi_terminal. ustep. apply banner_safe; [done|].
  repeat first [apply write_string_safe | ustep]; done.
Qed.

Lemma test_large_write_safe (Q : unit -> unit -> Prop) σ : Q tt tt -> safe Q test_large_write σ.
Proof.
  intros HQ. unfold test_large_write. ustep. apply banner_safe; [done|]. ustep. ustep. sstep.
  intros _. sstep; [by ustep|].
  destruct (fill_ok (Z.to_nat BIG_WRITE_LEN) 0 big_byte (uninit BIG_WRITE_LEN)) as (big & Hbig & Hlen);
    [done|by rewrite uninit_len|]. rewrite uninit_len in Hlen by done.
  ustep. eapply logic_defined; [exact Hbig|]. ustep. eapply logic_defined.
  { unfold zset. rewrite decide_True by (unfold zlen in Hlen; rewrite Hlen; done). done. }
  ustep. ustep; [unfold zlen in *; rewrite length_insert; unfold BIG_WRITE_LEN in *; lia|]. sstep. intros _.
  ustep. ustep. ustep. ustep; [unfold zlen; lia|]. sstep. intros _. ustep. sstep. by intros _.
Qed.

(** A line of one of the writers. *)
Lemma write_line_safe (Q : unit -> unit -> Prop) text σ :
  zlen text < 64 -> Q tt tt ->
  safe Q (line ← sprintf 64 text; TtyWrite TTY_CONSOLE line (zlen line);; call (CDelay 1);; mret tt) σ.
Proof.
  intros Ht HQ. ustep. apply logic_sprintf; [done|]. ustep. ustep; [unfold zlen; lia|]. sstep. intros _.
  ustep. ustep. sstep. intros _. by ustep.
Qed.

Lemma child_writer_safe {A} (Q : A -> unit -> Prop) tag (k : unit -> prog A) σ :
  0 <= tag < 10 -> safe Q (child_writer tag ≫= k) σ.
Proof.
  intros Htag. ustep. unfold child_writer. ustep. apply (logic_for _ _ _ (fun _ _ => True)); [done| |].
  - intros i σ' Hi _. apply write_line_safe; [|done]. rewrite !fmt_d_digit by lia. text_len.
  - intros σ' _. ustep. sstep. done.
Qed.

Lemma test_concurrent_writers_safe (Q : unit -> unit -> Prop) σ : Q tt tt -> safe Q test_concurrent_writers σ.
Proof.
  intros HQ. unfold test_concurrent_writers. ustep. apply banner_safe; [done|]. ustep.
  apply (logic_for_ret _ _ _ (fun _ _ => True)); [done| |].
  - intros i σ' Hi _. ustep. ustep. sstep. intros _. sstep; [apply child_writer_safe; lia|].
    sstep; ustep; [by ustep|done].
  - intros [] _. ustep. apply (logic_for _ _ _ (fun _ _ => True)); [done| |].
    + intros i σ' Hi _. apply write_line_safe; [|done]. rewrite !fmt_d_digit by lia. text_len.
    + intros σ' _. ustep. apply (logic_for _ _ _ (fun _ _ => True)); [done| |].
      * intros i σ'' Hi _. ustep. ustep. sstep. intros _. by ustep.
      * intros [] _. by apply write_string_safe.
Qed.

(** Reading into an array of the size that is asked for. *)
Lemma read_array_safe (Q : Z * list Z -> unit -> Prop) tty arr n σ :
  zlen arr = n -> (forall r out, r <= n -> zlen out = n -> Q (r, out) tt) -> safe Q (TtyRead tty arr n) σ.
Proof.
  intros Hn HQ. ustep; [lia|]. split; [done|]. intros [r out] [Hr _]. apply HQ; [done|]. by rewrite overwrite_len.
Qed.
Lemma read_own_safe (Q : Z * list Z -> unit -> Prop) tty n σ :
  0 <= n -> (forall r out, r <= n -> zlen out = n -> Q (r, out) tt) -> safe Q (TtyRead tty (uninit n) n) σ.
Proof. intros Hn. apply read_array_safe. by apply uninit_len. Qed.
(** Writing back what was read, if there is anything. *)
Lemma write_read_safe (Q : unit -> unit -> Prop) tty buf n σ :
  n <= zlen buf -> Q tt tt -> safe Q (if 0 <? n then TtyWrite tty buf n;; mret tt else mret tt) σ.
Proof.
  intros Hn HQ. destruct σ. destruct (Z.ltb_spec 0 n); [|by ustep]. ustep. ustep; [lia|]. sstep. intros _. by ustep.
Qed.

Lemma test_basic_echo_safe (Q : unit -> unit -> Prop) σ : Q tt tt -> safe Q test_basic_echo σ.
Proof.
  intros HQ. unfold test_basic_echo. ustep. apply banner_safe; [done|]. ustep. apply write_string_safe.
  ustep. apply read_own_safe; [done|]. intros n buf Hn Hbuf. ustep. ustep. ustep. ustep; [unfold zlen; lia|].
  sstep. intros _. apply write_read_safe; [lia|done].
Qed.
Lemma test_partial_read_safe (Q : unit -> unit -> Prop) σ : Q tt tt -> safe Q test_partial_read σ.
Proof.
  intros HQ. unfold test_partial_read. ustep. apply banner_safe; [done|]. ustep. apply write_string_safe.
  ustep. apply read_own_safe; [done|]. intros n buf Hn Hbuf. ustep. ustep. ustep. ustep; [unfold zlen; lia|].
  sstep. intros _. ustep. apply write_read_safe; [lia|]. ustep. ustep; [done|]. sstep. intros _.
  ustep. apply read_own_safe; [done|]. intros n2 rest Hn2 Hrest. ustep. ustep. ustep. ustep; [unfold zlen; lia|].
  sstep. intros _. apply write_read_safe; [lia|done].
Qed.

Lemma echo_round_first arr σ : zlen arr = ECHO_BUF_SIZE ->
  calls_first (any_kernel scarce) (fun arr' _ => zlen arr' = ECHO_BUF_SIZE) (echo_round arr) σ.
Proof.
  intros Harr. unfold echo_round. apply (first_bind _). unfold write_string. apply (first_bind _), (first_TtyWrite _); [unfold zlen; lia|].
  sstep. intros _. ustep. ustep. apply read_array_safe; [done|]. intros n buf Hn Hbuf.
  destruct (Z.leb_spec n 0); [by ustep|]. ustep. ustep; [lia|]. sstep. intros _. by ustep.
Qed.

Lemma echo_safe (Q : Z -> unit -> Prop) σ : safe Q echo_main σ.
Proof.
  unfold echo_main. ustep. apply write_string_safe. ustep. apply test_multi_terminal_safe.
  ustep. apply test_large_write_safe. ustep. apply test_concurrent_writers_safe.
  ustep. apply test_basic_echo_safe. ustep. apply test_partial_read_safe. ustep. apply write_string_safe.
  apply (always_loop _ (fun arr _ => zlen arr = ECHO_BUF_SIZE)); [|by apply uninit_len]. intros arr σ'. apply echo_round_first.
Qed.

(** A program that leaves when its arguments are not those it wants. *)
Lemma guard_safe {A} (Q : A -> unit -> Prop) (b : bool) (k : unit -> prog A) σ :
  (b = false -> safe Q (k tt) tt) -> safe Q ((if b then exit (-1) else mret tt) ≫= k) σ.
Proof. intros Hk. destruct σ. ustep. destruct b; [ustep; by sstep|]. ustep. by apply Hk. Qed.

(** The numbers among the arguments are [int]s. *)
Definition args_ok (argv : list (list Z)) : Prop := Forall (fun a => is_int (atoi_value a) = true) argv.

Lemma arg_safe {A} (Q : A -> unit -> Prop) argv i (k : Z -> prog A) σ :
  args_ok argv -> 0 <= i < zlen argv -> (forall n, safe Q (k n) σ) ->
  safe Q (a ← defined (zget argv i); n ← atoi a; k n) σ.
Proof.
  intros Hargs Hi Hk. destruct (lookup_lt_is_Some_2 argv (Z.to_nat i)) as [a Ha]; [unfold zlen in Hi; lia|].
  ustep. eapply logic_defined; [unfold zget; rewrite decide_True by lia; exact Ha|]. ustep.
  unfold atoi. rewrite (Forall_lookup_1 _ _ _ _ Hargs Ha). by ustep.
Qed.

(** [Fork], with a child that tries to become another program, and a parent
    that leaves when it failed. *)
Lemma fork_exec_safe (Q : unit -> unit -> Prop) (res : Z) file argv σ :
  Q tt tt ->
  safe Q (if res =? 0 then call (CExec file argv);; exit (-1) else if res =? -1 then exit (-1) else mret tt) σ.
Proof.
  intros HQ. destruct σ. sstep; [ustep; ustep; sstep; intros _; ustep; by sstep|].
  sstep; [ustep; by sstep|by ustep].
Qed.

Lemma waits_safe (Q : unit -> unit -> Prop) n σ :
  Q tt tt -> safe Q (for_user 0 n (fun _ => call CWait;; mret tt)) σ.
Proof.
  intros HQ. apply (logic_for _ _ _ (fun _ _ => True)); [done| |by intros []].
  intros i σ' Hi _. ustep. ustep. sstep. intros _. by ustep.
Qed.

Lemma init_safe (Q : Z -> unit -> Prop) argv σ : safe Q (init_main argv) σ.
Proof.
  unfold init_main. apply guard_safe. intros Hargc%Z.ltb_ge. cbv zeta.
  destruct (lookup_lt_is_Some_2 argv 1) as [name Hname]; [unfold zlen in Hargc; lia|].
  ustep. eapply logic_defined; [unfold zget; simpl; by rewrite lookup_drop|]. ustep. ustep. sstep. intros _. ustep.
  set (body := fun status => '(_, stored) ← call CWait; let status := default status stored in
    if negb (status =? 0) then exit (-1) else mret status).
  assert (safe Q (loop body 40) tt) as Hloop.
  { apply (always_loop _ (fun _ _ => True)); [|done]. intros status σ' _. apply (first_bind _), (first_call _). sstep. intros _.
    sstep. cbv zeta. sstep; [ustep; by sstep|by ustep]. }
  sstep; [ustep; ustep; sstep; intros _; ustep; by sstep|]. sstep; [by ustep|ustep; by sstep].
Qed.

Lemma altinit_safe (Q : Z -> unit -> Prop) argv σ : safe Q (altinit_main argv) σ.
Proof.
  unfold altinit_main. ustep. apply (logic_for _ _ _ (fun _ _ => True)); [done| |].
  - intros i σ' Hi _. destruct (lookup_lt_is_Some_2 argv (Z.to_nat i)) as [a Ha]; [unfold zlen in Hi; lia|].
    ustep. ustep. sstep. intros _. sstep.
    + ustep. eapply logic_defined; [unfold zget; rewrite decide_True by lia; exact Ha|].
      ustep. ustep. sstep. intros _. ustep. by sstep.
    + sstep; [by ustep|ustep; by sstep].
  - intros σ' _. apply (always_forever _ (fun _ => True)); [|done]. intros σ'' _. apply (first_bind _), (first_call _).
    sstep. intros _. by ustep.
Qed.

Lemma test_helper_safe (Q : Z -> unit -> Prop) argv σ : args_ok argv -> safe Q (test_helper_main argv) σ.
Proof.
  intros Hargs. unfold test_helper_main. apply guard_safe. intros Hargc.
  do 3 (apply arg_safe; [done|lia|]; intros ?). ustep.
  assert (forall n lock, safe Q (call (CRelease lock);; exit n) tt) as Hend.
  { intros n' lock. ustep. ustep. sstep. intros _. ustep. by sstep. }
  sstep; repeat (ustep; ustep; sstep; intros _); ustep; sstep; intros _; apply Hend.
Qed.

Lemma test_helper2_safe (Q : Z -> unit -> Prop) argv σ : args_ok argv -> safe Q (test_helper2_main argv) σ.
Proof.
  intros Hargs. unfold test_helper2_main. apply guard_safe. intros Hargc. apply arg_safe; [done|lia|]. intros sem.
  do 3 (ustep; ustep; sstep; intros _). ustep. by sstep.
Qed.

Lemma alloc_safe (Q : Z -> unit -> Prop) size σ : scarce = false -> (forall p, Q p tt) -> safe Q (alloc size) σ.
Proof.
  intros Hs HQ. unfold alloc. ustep. ustep. sstep. intros [?|Hr]; [congruence|].
  rewrite (proj2 (Z.eqb_neq _ _)) by done. by ustep.
Qed.

Lemma test_safe (Q : Z -> unit -> Prop) argv σ : scarce = false -> args_ok argv -> safe Q (test_main argv) σ.
Proof.
  intros Hs Hargs. unfold test_main. apply guard_safe. intros Hargc. apply arg_safe; [done|lia|]. intros n.
  do 2 (ustep; ustep; sstep; intros _; sstep). do 2 (ustep; apply alloc_safe; [done|]; intros ?).
  do 2 (ustep; ustep). ustep. apply (logic_for _ _ _ (fun _ _ => True)); [done| |].
  - intros i σ' Hi _. cbv zeta. ustep. ustep. sstep. intros _. by apply fork_exec_safe.
  - intros σ' _. ustep. apply waits_safe. ustep. ustep. sstep. intros _. ustep. by sstep.
Qed.

Lemma test2_safe (Q : Z -> unit -> Prop) argv σ : scarce = false -> args_ok argv -> safe Q (test2_main argv) σ.
Proof.
  intros Hs Hargs. unfold test2_main. apply guard_safe. intros Hargc. do 2 (apply arg_safe; [done|lia|]; intros ?).
  ustep; ustep; sstep; intros _; sstep. ustep; apply alloc_safe; [done|]; intros ?.
  do 2 ustep. ustep. apply (logic_for _ _ _ (fun _ _ => True)); [done| |].
  - intros i σ' Hi _. ustep. ustep. sstep. intros _. by apply fork_exec_safe.
  - intros σ' _. ustep. apply waits_safe. ustep. ustep. sstep. intros _. ustep. by sstep.
Qed.

Lemma bigstack_safe (Q : Z -> unit -> Prop) σ : safe Q bigstack_main σ.
Proof.
  unfold bigstack_main. ustep. apply (logic_for _ _ _ (fun _ _ => True)); [done| |].
  - intros i σ' Hi _. ustep. sstep. done.
  - intros σ' _. ustep. apply (logic_for _ _ _ (fun _ _ => True)); [done| |].
    + intros i σ'' Hi _. ustep. ustep. sstep. intros _. by ustep.
    + intros σ'' _. ustep. by sstep.
Qed.

Lemma recurse_safe (Q : unit -> unit -> Prop) who i σ : Q tt tt -> safe Q (recurse who i) σ.
Proof.
  intros HQ. revert σ. induction i as [|i IH]; intros σ; cbn [recurse].
  all: ustep; ustep; sstep; intros _; ustep.
  all: destruct (fill_ok 1024 0 (fun _ => 97) (uninit 1024)) as (w & Hw & Hlen); [done|by rewrite uninit_len|].
  all: rewrite uninit_len in Hlen by done.
  all: destruct (lookup_lt_is_Some_2 w 0) as [c Hc]; [unfold zlen in Hlen; lia|].
  all: eapply logic_defined; [exact Hw|]; ustep.
  all: apply (logic_mono (spec := any_kernel scarce) _ (fun _ _ => True)).
  all: swap 2 3.
  all: try (sstep; [ustep; eapply logic_defined; [unfold zget; exact Hc|]; ustep; by sstep|by ustep]).
  all: intros ? ? _; ustep; ustep; sstep; intros _.
  - ustep. ustep. sstep. intros _. by ustep.
  - apply IH.
Qed.
Lemma forkstack_safe (Q : Z -> unit -> Prop) σ : safe Q forkstack_main σ.
Proof.
  unfold forkstack_main. ustep. ustep. sstep. intros _. ustep.
  destruct (r =? 0); apply recurse_safe; ustep; by sstep.
Qed.

Lemma checked_safe {A} (Q : A -> unit -> Prop) c (k : unit -> prog A) σ :
  (c = true -> safe Q (k tt) tt) -> safe Q (CHECK c ≫= k) σ.
Proof. intros Hk. destruct σ. unfold CHECK. ustep. destruct c; [ustep; by apply Hk|ustep; by sstep]. Qed.
Lemma check_safe {A} (Q : A -> unit -> Prop) c (k : unit -> prog A) σ :
  safe Q (k tt) tt -> safe Q (CHECK c ≫= k) σ.
Proof. intros Hk. by apply checked_safe. Qed.

Lemma c_chars_zero a : 0 ∈ a -> exists s, c_chars a = Some s.
Proof.
  induction a as [|b a IH]; [by intros ?%not_elem_of_nil|]. intros [<-|Ha]%elem_of_cons; cbn [c_chars]; [by eexists|].
  case_match; [by eexists|]. destruct (IH Ha) as [s ->]. by eexists.
Qed.

(** Reading [n] bytes, ending the string behind [m] and comparing it. *)
Lemma read_check_safe {A} (Q : A -> unit -> Prop) pipe buf n m c s (k : list Z -> prog A) σ :
  n <= zlen buf -> 0 <= m < zlen buf -> (forall buf', zlen buf' = zlen buf -> safe Q (k buf') tt) ->
  safe Q ('(rc, buf) ← PipeRead pipe buf n; CHECK (rc =? c);; buf ← defined (zset buf m 0);
          same ← same_string buf s; CHECK same;; k buf) σ.
Proof.
  intros Hn Hm Hk. ustep. ustep; [lia|]. split; [done|]. intros [rc out] _. cbn [fst snd]. apply check_safe.
  pose proof (overwrite_len out buf) as Hlen. ustep. eapply logic_defined.
  { unfold zset, zlen in *. by rewrite decide_True by lia. }
  set (buf' := <[Z.to_nat m := 0]> (overwrite out buf)). assert (zlen buf' = zlen buf) as Hlen'
    by (unfold buf', zlen in *; rewrite length_insert; lia).
  destruct (c_chars_zero buf') as [s' Hs'].
  { apply (list_elem_of_lookup_2 _ (Z.to_nat m)). unfold buf'. apply list_lookup_insert_eq. unfold zlen in *. lia. }
  ustep. unfold same_string. ustep. eapply logic_defined; [exact Hs'|]. ustep. apply check_safe. by apply Hk.
Qed.

Lemma pipe_write_safe {A} (Q : A -> unit -> Prop) pipe s c (k : Z -> prog A) n σ :
  0 <= n <= zlen s -> (forall rc, safe Q (k rc) tt) ->
  safe Q (rc ← PipeWrite pipe s n; CHECK (rc =? c);; k rc) σ.
Proof. intros Hn Hk. ustep. ustep; [done|]. sstep. intros _. apply check_safe, Hk. Qed.

Lemma pipe_test_safe (Q : Z -> unit -> Prop) σ : safe Q pipe_test_main σ.
Proof.
  assert (zlen (uninit 32) = 32) as Hbuf by by apply uninit_len.
  unfold pipe_test_main, pipe_test_child, pipe_test_parent. ustep. ustep. sstep. intros _. destruct r as [rc pipe]. apply check_safe.
  ustep. ustep. sstep. intros _. apply check_safe.
  ustep. sstep; [apply read_check_safe; [lia|lia|]; intros ? _; ustep; by sstep|]. ustep.
  ustep. ustep. sstep. intros _. apply pipe_write_safe; [done|]. intros _.
  ustep. ustep. split; [done|]. intros [rc' stored] Hr. apply checked_safe. intros Hrc%Z.eqb_eq.
  destruct (Hr Hrc) as [status Hst]. ustep. eapply logic_defined; [exact Hst|]. apply check_safe.
  apply pipe_write_safe; [done|]. intros _.
  apply read_check_safe; [lia|lia|]. intros buf1 Hbuf1.
  apply read_check_safe; [lia|lia|]. intros buf2 Hbuf2.
  apply pipe_write_safe; [done|]. intros _.
  apply read_check_safe; [lia|lia|]. intros buf3 Hbuf3.
  ustep. ustep. sstep. intros _. apply check_safe. ustep. by sstep.
Qed.


(** What [torture] relies on is more than this. *)
Lemma torture_safe σ : safe (fun _ _ => True) torture_main σ.
Proof.
  apply (always_mono _ (fun _ _ => exists σ2 : tstate, False /\ True)); [done|].
  apply (always_sim torture_kernel (any_kernel scarce) (fun _ _ => True) (fun _ _ => False) _
    {| t_cvar := 0; t_mutex := 0; t_holds := false |}); [|done|apply torture_main_behaves].
  intros X e σ1 σ2 P _ [Ha Hr]. split; [by destruct e|]. intros r Hr'. eexists. split; [apply Hr|done].
  destruct e; try done. by left.
Qed.

Lemma quiet_safe (Q : Z -> unit -> Prop) tty b1 l1 b2 l2 σ :
  Q 0 tt -> safe Q (call (CTtyRead tty b1 l1);; call (CTtyRead tty b2 l2);; mret 0) σ.
Proof. intros HQ. ustep. ustep. sstep. intros _. ustep. ustep. sstep. intros _. by ustep. Qed.
Lemma writer_safe (Q : Z -> unit -> Prop) σ : Q 0 tt -> safe Q writer_main σ.
Proof. intros HQ. unfold writer_main. do 2 (ustep; ustep; sstep; intros _). by ustep. Qed.
Lemma illegal_addr_safe (Q : Z -> unit -> Prop) σ : safe Q illegal_addr_main σ.
Proof. unfold illegal_addr_main. ustep. ustep. sstep. intros _. ustep. by sstep. Qed.
End safety.

(** ** Properties *)


