(* ===== verification/Echo.v ===== *)
(** * The echo test ([user/echo.c]) on a terminal

    What [echo] prints on the console, as a function of the lines that are
    typed.  A read of the console gives what [TtyWorld.tty_read_takes] says: the
    first unread line, or as much of it as was asked for, the rest of it being
    left for the next read; without an unread line it waits. *)

From S2P Require Import Prelude Machine TtyWorld UserLib UserPrograms.
From stdpp Require Import strings.
Open Scope Z_scope.

(** ** Definitions *)

(** The lines nobody read yet on the console, and what a process wrote to each
    terminal. *)
Record console := { c_lines : list (list Z); c_out : Z -> list Z }.
Definition put (tty : Z) (bs : list Z) (σ : console) : console :=
  {| c_lines := c_lines σ; c_out := fun t => if t =? tty then c_out σ t ++ bs else c_out σ t |}.
Definition set_lines (ls : list (list Z)) (σ : console) : console := {| c_lines := ls; c_out := c_out σ |}.

(** [mem]: [malloc] finds memory; [forks]: [Fork] succeeds, seen from the
    parent.  The run may stop in [stop]: at an [Exit], or in a read that waits
    for a line. *)
Definition echo_kernel {um : UserMachine} (mem forks : bool) (stop : option Z -> console -> Prop)
    (A : Type) (e : callE A) (σ : console) : (A -> console -> Prop) -> Prop :=
  match e in callE A return (A -> console -> Prop) -> Prop with
  | CTtyWrite tty bs => fun Q => Q (zlen bs) (put tty bs σ)
  | CTtyRead tty buf len => fun Q =>
      tty = TTY_CONSOLE /\ (exists size, buf = Own size /\ 0 < len <= size) /\
      match c_lines σ with
      | [] => stop None σ
      | lines => let got := line_got lines len in Q (zlen got, got) (set_lines (lines_left lines len) σ)
      end
  | CMalloc _ => fun Q => forall p, (p <> 0 <-> mem = true) -> Q p σ
  | CFree _ => fun Q => Q tt σ
  | CDelay _ => fun Q => forall r, Q r σ
  | CFork => fun Q => forall pid, (if forks then 0 < pid else pid = -1) -> Q pid σ
  | CWait => fun Q => forall status, Q (0, Some status) σ
  | CExit status => fun _ => stop (Some status) σ
  | _ => fun _ => False
  end.

#[export] Instance echo_kernel_mono {um : UserMachine} mem forks stop : MonoSpec (echo_kernel mem forks stop).
Proof.
  intros A e σ Q Q' HQ. destruct e; simpl; auto.
  intros (H1 & H2 & H3). split; [done|]. split; [done|]. case_match; auto.
Qed.

(** *** What is printed *)
Definition banner_text (tag : list Z) : list Z :=
  nl ++ bytes "==== " ++ tag ++ bytes " (tty " ++ fmt_d 0 ++ bytes ") ====" ++ nl.
Definition terminals_text : list Z :=
  banner_text (bytes "Multi-terminal output") ++ bytes "hello on console (tty 0)" ++ nl.
Definition large_text (mem : bool) : list Z :=
  banner_text (bytes "Large write > TERMINAL_MAX_LINE") ++
  if mem then (big_byte <$> seqZ 0 2599) ++ nl ++ bytes "[large write done, 2600 bytes]" ++ nl else [].
Definition parent_line (i : Z) : list Z := bytes "[parent  ] iteration " ++ fmt_d i ++ bytes ": lazy dog" ++ nl.
Definition child_line (tag i : Z) : list Z :=
  bytes "[child " ++ fmt_d tag ++ bytes "] iteration " ++ fmt_d i ++ bytes ": the quick brown fox" ++ nl.
Definition writers_text (forks : bool) : list Z :=
  banner_text (bytes "Concurrent writers on tty 0") ++
  if forks then concat (parent_line <$> seqZ 0 5) ++ bytes "[concurrent writers done]" ++ nl else [].
Definition basic_text (line : list Z) : list Z :=
  banner_text (bytes "Basic echo") ++ bytes "Type a line and press Enter: " ++
  bytes "You typed " ++ fmt_d (zlen line) ++ bytes " bytes: " ++ line.
Definition partial_text (line : list Z) : list Z :=
  banner_text (bytes "Partial read") ++ bytes "Type a long line (>=10 chars) and press Enter: " ++
  bytes "first 5 bytes (" ++ fmt_d 5 ++ bytes "): " ++ take 5 line ++ nl ++
  bytes "remainder (" ++ fmt_d (zlen line - 5) ++ bytes "): " ++ drop 5 line.
Definition loop_text (lines : list (list Z)) : list Z :=
  concat ((fun l => bytes "echo> " ++ l) <$> lines) ++ bytes "echo> ".
Definition echo_text (mem forks : bool) (l1 l2 : list Z) (ls : list (list Z)) : list Z :=
  bytes "echo test suite starting" ++ nl ++ terminals_text ++ large_text mem ++ writers_text forks ++
  basic_text l1 ++ partial_text l2 ++
  nl ++ bytes "All echo tests complete. Looping on echo prompt." ++ nl ++ loop_text ls.

(** ** Lemmas *)
Section echo.
Context {um : UserMachine} {um_ok : UserMachineOk}.
Variables (mem forks : bool) (stop : option Z -> console -> Prop).
#[local] Abbreviation prints := (ends (echo_kernel mem forks stop)).

(** A program that prints [text] on the console and returns. *)
Definition printing (t : prog unit) (text : list Z) : Prop :=
  forall (Q : unit -> console -> Prop) σ,
    (forall σ', c_lines σ' = c_lines σ -> c_out σ' 0 = c_out σ 0 ++ text -> Q tt σ') -> prints Q t σ.

Lemma console_0 : TTY_CONSOLE = 0.
Proof. apply tty_numbers. Qed.

Lemma put_0 bs σ : c_out (put 0 bs σ) 0 = c_out σ 0 ++ bs.
Proof. done. Qed.

Lemma write_console {A} (Q : A -> console -> Prop) bs n (k : Z -> prog A) σ :
  0 <= n <= zlen bs ->
  prints Q (k n) (put 0 (take (Z.to_nat n) bs) σ) ->
  prints Q (TtyWrite TTY_CONSOLE bs n ≫= k) σ.
Proof.
  intros Hn Hk. ustep. ustep; [done|]. simpl. rewrite zlen_take, Z.min_l by lia. by rewrite console_0.
Qed.

Lemma write_console_all {A} (Q : A -> console -> Prop) bs (k : Z -> prog A) σ :
  prints Q (k (zlen bs)) (put 0 bs σ) -> prints Q (TtyWrite TTY_CONSOLE bs (zlen bs) ≫= k) σ.
Proof.
  intros Hk. apply write_console; [unfold zlen; lia|]. unfold zlen at 2. by rewrite Nat2Z.id, firstn_all.
Qed.

Lemma write_all bs : printing (TtyWrite TTY_CONSOLE bs (zlen bs);; mret tt) bs.
Proof.
  intros Q σ HQ. apply write_console_all. ustep. by apply HQ.
Qed.
Lemma write_string_prints bs : printing (write_string TTY_CONSOLE bs) bs.
Proof. apply write_all. Qed.
Lemma sprintf_prints size text : zlen text < size ->
  printing (msg ← sprintf size text; TtyWrite TTY_CONSOLE msg (zlen msg);; mret tt) text.
Proof. intros Hs Q σ HQ. ustep. apply logic_sprintf; [done|]. by apply write_all. Qed.
Lemma banner_prints tag : zlen tag <= 39 -> printing (banner TTY_CONSOLE tag) (banner_text tag).
Proof.
  intros Ht. unfold banner, banner_text. rewrite console_0.
  replace 0 with TTY_CONSOLE by apply console_0. apply sprintf_prints. text_len.
Qed.

(** One after the other. *)
Lemma printing_seq t u text more : printing t text -> printing u more -> printing (t;; u) (text ++ more).
Proof.
  intros Ht Hu Q σ HQ. ustep. apply Ht. intros σ1 L1 O1. apply Hu. intros σ2 L2 O2.
  apply HQ; [congruence|]. by rewrite O2, O1, (assoc_L (++)).
Qed.
Lemma printing_nothing : printing (mret tt) [].
Proof. intros Q σ HQ. ustep. apply HQ; [done|]. by rewrite app_nil_r. Qed.
Lemma printing_bind t (k : unit -> prog Z) text (Q : Z -> console -> Prop) σ :
  printing t text ->
  (forall σ', c_lines σ' = c_lines σ -> c_out σ' 0 = c_out σ 0 ++ text -> prints Q (k tt) σ') ->
  prints Q (t ≫= k) σ.
Proof. intros Ht Hk. ustep. by apply Ht. Qed.

Lemma other_tty tty bs : tty <> 0 -> printing (write_string tty bs) [].
Proof.
  intros Ht Q σ HQ. unfold write_string. ustep. ustep; [unfold zlen; lia|]. simpl. ustep. apply HQ; [done|].
  cbn [put c_out]. rewrite (proj2 (Z.eqb_neq 0 tty)) by done. by rewrite app_nil_r.
Qed.
Lemma test_multi_terminal_prints : printing test_multi_terminal terminals_text.
Proof.
  unfold test_multi_terminal, terminals_text. destruct tty_numbers as (_ & H1 & H2 & H3).
  apply printing_seq; [by apply banner_prints|].
  rewrite <- (app_nil_r (bytes "hello on console (tty 0)" ++ nl)). apply printing_seq; [apply write_string_prints|].
  apply (printing_seq _ _ [] []); [apply other_tty; by rewrite H1|].
  apply (printing_seq _ _ [] []); apply other_tty; [by rewrite H2|by rewrite H3].
Qed.

Definition big_array : list Z := (big_byte <$> seqZ 0 2599) ++ nl.
Lemma big_filled : <[Z.to_nat 2599 := 10]> (big_byte <$> seqZ 0 2600) = big_array.
Proof. vm_compute. reflexivity. Qed.
Lemma big_array_len : zlen big_array = BIG_WRITE_LEN.
Proof. vm_compute. reflexivity. Qed.

Lemma test_large_write_prints (Q : unit -> console -> Prop) σ :
  (forall σ', c_lines σ' = c_lines σ -> c_out σ' 0 = c_out σ 0 ++ large_text mem -> Q tt σ') ->
  prints Q test_large_write σ.
Proof.
  intros HQ. unfold test_large_write, large_text in *. ustep. apply banner_prints; [done|]. intros σ1 L1 O1.
  ustep. ustep. intros p Hp. destruct (Z.eqb_spec p 0) as [->|Hp0].
  - assert (mem = false) as Hm by (destruct mem; [by destruct Hp as [_ []]|done]). rewrite Hm in HQ.
    ustep. apply HQ; [done|]. by rewrite O1, app_nil_r.
  - assert (mem = true) as Hm by by apply Hp. rewrite Hm in HQ. clear Hp.
    ustep. eapply logic_defined.
    { apply (fill_map _ _ _ [] (uninit BIG_WRITE_LEN)); [|done].
      pose proof (uninit_len BIG_WRITE_LEN ltac:(done)) as Hlen. unfold zlen in Hlen. lia. }
    ustep. eapply logic_defined; [unfold zset; rewrite decide_True by (rewrite app_nil_l, length_fmap, length_seqZ; unfold BIG_WRITE_LEN; lia); done|].
    change (Z.to_nat (BIG_WRITE_LEN - 1)) with (Z.to_nat 2599). rewrite app_nil_l.
    change (Z.of_nat (Z.to_nat BIG_WRITE_LEN)) with 2600. rewrite big_filled.
    apply write_console; [by rewrite big_array_len|].
    assert (take (Z.to_nat BIG_WRITE_LEN) big_array = big_array) as -> by (vm_compute; reflexivity).
    ustep. apply logic_sprintf; [by text_len|]. apply write_console_all. ustep. apply HQ; [done|].
    rewrite !put_0, O1. unfold big_array. by rewrite <- !(assoc_L (++)).
Qed.

Lemma write_line_prints text : zlen text < 64 ->
  printing (line ← sprintf 64 text; TtyWrite TTY_CONSOLE line (zlen line);; call (CDelay 1);; mret tt) text.
Proof.
  intros Ht Q σ HQ. ustep. apply logic_sprintf; [done|]. apply write_console_all.
  ustep. ustep. intros r. ustep. by apply HQ.
Qed.

(** A loop that prints a text in each round. *)
Lemma times_prints n i (body : Z -> prog unit) (text : Z -> list Z) :
  (forall j, i <= j < i + Z.of_nat n -> printing (body j) (text j)) ->
  printing (times n i body) (concat (text <$> seqZ i (Z.of_nat n))).
Proof.
  revert i. induction n as [|n IH]; intros i Hbody; cbn [times]; [apply printing_nothing|].
  rewrite seqZ_cons by lia. rewrite fmap_cons. cbn [concat].
  apply printing_seq; [apply Hbody; lia|]. replace (Z.pred (Z.of_nat (S n))) with (Z.of_nat n) by lia.
  apply IH. intros j Hj. apply Hbody. lia.
Qed.

(** What a child of [test_concurrent_writers] prints before it exits with its tag. *)
Lemma child_writer_prints tag (Q : unit -> console -> Prop) σ :
  0 <= tag < 10 ->
  (forall σ', c_lines σ' = c_lines σ -> c_out σ' 0 = c_out σ 0 ++ concat (child_line tag <$> seqZ 0 5) ->
     stop (Some tag) σ') ->
  prints Q (child_writer tag) σ.
Proof.
  intros Htag Hstop. unfold child_writer. ustep. apply (times_prints 5 0 _ (child_line tag)).
  - intros j Hj. apply write_line_prints. unfold child_line. rewrite !fmt_d_digit by lia. text_len.
  - intros σ' L O. apply logic_exit. by apply Hstop.
Qed.

Lemma waits_printing n : printing (for_user 0 n (fun _ => call CWait;; mret tt)) [].
Proof.
  intros Q σ HQ. apply (logic_for _ _ _ (fun _ σ' => σ' = σ)); [done| |].
  - intros i σ' Hi ->. ustep. ustep. intros st. by ustep.
  - intros σ' ->. apply HQ; [done|]. by rewrite app_nil_r.
Qed.

Lemma test_concurrent_writers_prints : printing test_concurrent_writers (writers_text forks).
Proof.
  unfold test_concurrent_writers, writers_text. apply printing_seq; [by apply banner_prints|]. intros Q σ HQ. ustep.
  apply (logic_for_ret _ _ _ (fun i σ' => σ' = σ /\ (forks = true \/ i = 0))); [by auto| |].
  - intros i σ' Hi [-> Hf]. ustep. ustep. intros pid Hpid.
    destruct forks; [|destruct Hf as [?| ->]; [done|]; subst pid; change (-1 =? 0) with false; change (-1 <? 0) with true; cbv iota; ustep; cbv iota; ustep;
      by apply HQ; [|rewrite app_nil_r]].
    rewrite (proj2 (Z.eqb_neq _ _)), (proj2 (Z.ltb_ge _ _)) by lia. ustep. by auto.
  - intros σ' [-> Hf]. assert (forks = true) as Hft by (by destruct Hf). rewrite Hft in HQ.
    assert (printing (for_user 0 5 (fun i => line ← sprintf 64 (parent_line i);
      TtyWrite TTY_CONSOLE line (zlen line);; call (CDelay 1);; mret tt);;
      for_user 0 2 (fun _ => call CWait;; mret tt);;
      write_string TTY_CONSOLE (bytes "[concurrent writers done]" ++ nl))
      (concat (parent_line <$> seqZ 0 5) ++ [] ++ bytes "[concurrent writers done]" ++ nl)) as Hp.
    { apply printing_seq; [|apply printing_seq; [apply waits_printing|apply write_string_prints]].
      apply (times_prints 5 0). intros j Hj. apply write_line_prints. unfold parent_line.
      rewrite fmt_d_digit by lia. text_len. }
    by apply Hp.
Qed.

(** A read of a line that is there. *)
Lemma read_line {A} (Q : A -> console -> Prop) arr n l ls (k : Z * list Z -> prog A) σ :
  0 < n -> zlen arr = n -> c_lines σ = l :: ls ->
  (forall buf, take (Z.to_nat (Z.min n (zlen l))) buf = take (Z.to_nat n) l -> zlen buf = n ->
     prints Q (k (Z.min n (zlen l), buf)) (set_lines (if zlen l <=? n then ls else drop (Z.to_nat n) l :: ls) σ)) ->
  prints Q (TtyRead TTY_CONSOLE arr n ≫= k) σ.
Proof.
  intros Hn Ha Hl Hk. ustep. ustep; [lia|]. split; [done|]. split; [exists (zlen arr); split; [done|lia]|].
  rewrite Hl. cbn [line_got lines_left fst snd]. rewrite zlen_take by lia. apply Hk.
  - rewrite <- (zlen_take n l) by lia. unfold zlen at 1. rewrite Nat2Z.id. apply overwrite_take.
    rewrite zlen_take by lia. lia.
  - by rewrite overwrite_len.
Qed.

(** Writing back what was read, if there is anything. *)
Lemma write_read n buf got : 0 <= n -> zlen got = n -> take (Z.to_nat n) buf = got ->
  printing (if 0 <? n then TtyWrite TTY_CONSOLE buf n;; mret tt else mret tt) got.
Proof.
  intros Hn Hlen Hgot Q σ HQ. destruct (Z.ltb_spec 0 n).
  - apply write_console; [|rewrite Hgot; ustep; by apply HQ]. split; [done|].
    rewrite <- Hlen, <- Hgot. unfold zlen. rewrite length_take. lia.
  - ustep. apply HQ; [done|]. destruct got; [by rewrite app_nil_r|]. unfold zlen in Hlen. simpl in Hlen. lia.
Qed.

Lemma test_basic_echo_prints l ls (Q : unit -> console -> Prop) σ :
  c_lines σ = l :: ls -> zlen l <= ECHO_BUF_SIZE ->
  (forall σ', c_lines σ' = ls -> c_out σ' 0 = c_out σ 0 ++ basic_text l -> Q tt σ') ->
  prints Q test_basic_echo σ.
Proof.
  intros Hl Hlen HQ. unfold test_basic_echo, basic_text in *. ustep. apply banner_prints; [done|]. intros σ1 L1 O1.
  ustep. apply write_string_prints. intros σ2 L2 O2. eapply read_line; [done|by apply uninit_len|rewrite L2, L1; exact Hl|].
  rewrite Z.min_r, (proj2 (Z.leb_le _ _)) by done. unfold zlen at 1. rewrite Nat2Z.id.
  rewrite (take_ge l) by (unfold zlen, ECHO_BUF_SIZE in *; lia). intros buf Hbuf _.
  ustep. apply logic_sprintf; [text_len|].
  apply write_console_all.
  apply (write_read _ _ l); [unfold zlen; lia|done|unfold zlen; by rewrite Nat2Z.id|].
  intros σ3 L3 O3. apply HQ; [done|]. rewrite O3, put_0. cbn [set_lines c_out]. by rewrite O2, O1, <- !(assoc_L (++)).
Qed.

Lemma test_partial_read_prints l ls (Q : unit -> console -> Prop) σ :
  c_lines σ = l :: ls -> 5 < zlen l <= ECHO_BUF_SIZE + 5 ->
  (forall σ', c_lines σ' = ls -> c_out σ' 0 = c_out σ 0 ++ partial_text l -> Q tt σ') ->
  prints Q test_partial_read σ.
Proof.
  intros Hl Hlen HQ. unfold test_partial_read, partial_text in *. ustep. apply banner_prints; [done|]. intros σ1 L1 O1.
  ustep. apply write_string_prints. intros σ2 L2 O2. eapply read_line; [done|by apply uninit_len|rewrite L2, L1; exact Hl|].
  rewrite Z.min_l, (proj2 (Z.leb_gt _ _)) by lia. intros buf Hbuf Hbl.
  ustep. apply logic_sprintf; [text_len|].
  apply write_console_all.
  ustep. apply (write_read 5 buf (take 5 l)); [done|by rewrite (zlen_take 5), Z.min_l by lia|done|].
  intros σ3 L3 O3. apply write_console; [done|]. change (take (Z.to_nat 1) nl) with nl.
  assert (zlen (drop 5 l) = zlen l - 5) as Hdrop by (unfold zlen in *; rewrite length_drop; lia).
  eapply read_line; [done|by apply uninit_len|cbn [put c_lines]; rewrite L3; cbn [put set_lines c_lines]; done|].
  change (Z.to_nat 5) with 5%nat. rewrite Hdrop, Z.min_r, (proj2 (Z.leb_le _ _)) by lia.
  rewrite (take_ge (drop 5 l)) by (unfold zlen, ECHO_BUF_SIZE in *; lia). intros buf2 Hbuf2 _.
  ustep. apply logic_sprintf; [text_len|].
  apply write_console_all.
  apply (write_read _ _ (drop 5 l)); [lia|done|done|].
  intros σ4 L4 O4. apply HQ; [done|]. rewrite O4, put_0. cbn [set_lines c_out]. rewrite put_0, O3, put_0.
  cbn [set_lines c_out]. rewrite O2, O1, <- !(assoc_L (++)). done.
Qed.

(** The same in the loop, which goes on with the array. *)
Lemma write_read_back l buf (Q : list Z -> console -> Prop) σ :
  take (length l) buf = l ->
  (forall σ', c_lines σ' = c_lines σ -> c_out σ' 0 = c_out σ 0 ++ l -> Q buf σ') ->
  prints Q (if zlen l <=? 0 then mret buf else TtyWrite TTY_CONSOLE buf (zlen l);; mret buf) σ.
Proof.
  intros Hl HQ. destruct (Z.leb_spec (zlen l) 0) as [H0|H0].
  - ustep. apply HQ; [done|]. destruct l; [by rewrite app_nil_r|]. unfold zlen in H0. simpl in H0. lia.
  - apply write_console.
    + split; [lia|]. rewrite <- Hl at 1. unfold zlen. rewrite length_take. lia.
    + assert (take (Z.to_nat (zlen l)) buf = l) as -> by (unfold zlen; by rewrite Nat2Z.id). ustep. by apply HQ.
Qed.

(** The loop echoes every line that is left and then waits for another. *)
Lemma echo_loop_prints ls (Q : Z -> console -> Prop) arr σ :
  zlen arr = ECHO_BUF_SIZE -> c_lines σ = ls -> Forall (fun l => zlen l <= ECHO_BUF_SIZE) ls ->
  (forall σ', c_lines σ' = [] -> c_out σ' 0 = c_out σ 0 ++ loop_text ls -> stop None σ') ->
  prints Q (loop echo_round arr) σ.
Proof.
  intros Ha Hls Hlen Hstop. revert arr Ha σ Hls Hstop.
  induction Hlen as [|l ls Hl Hlen IH]; intros arr Ha σ Hls Hstop; apply (ends_loop _); unfold echo_round;
    ustep; apply write_string_prints; intros σ1 L1 O1.
  - ustep. ustep; [by rewrite Ha|]. split; [done|].
    split; [eexists; split; [done|by rewrite Ha]|]. rewrite L1, Hls. apply Hstop; [congruence|done].
  - eapply read_line; [done|done|rewrite L1; exact Hls|]. rewrite Z.min_r by done.
    rewrite (proj2 (Z.leb_le (zlen l) ECHO_BUF_SIZE) Hl).
    replace (Z.to_nat (zlen l)) with (length l) by (unfold zlen; lia). rewrite (take_ge l) by (unfold zlen, ECHO_BUF_SIZE in *; lia).
    intros buf Hbuf Hbl. apply write_read_back; [done|]. intros σ2 L2 O2.
    apply IH; [done|by rewrite L2|]. intros σ' L' O'. apply Hstop; [done|].
    rewrite O', O2. cbn [set_lines c_out]. rewrite O1. unfold loop_text. rewrite fmap_cons. cbn [concat].
    by rewrite <- !(assoc_L (++)).
Qed.
End echo.

(** ** Properties *)

(** C30: [echo], on a console where the lines [l1], [l2] and [ls] are typed
    (each at most as long as the array it is read into, [l2] longer than the
    five bytes of the first partial read), prints what [echo_text] says and then
    waits for another line with none left: among it the large write whole if
    there was memory for it, the lines of the parent if the forks succeeded, [l1]
    with its length, [l2] in two parts, and each line of [ls] behind a prompt.  A
    child of the test of concurrent writers prints its five lines in order and
    exits with its tag. *)
Theorem echo_prints {um : UserMachine} {um_ok : UserMachineOk} (mem forks : bool)
    (l1 l2 : list Z) (ls : list (list Z)) (σ : console) :
  c_lines σ = l1 :: l2 :: ls -> c_out σ 0 = [] ->
  zlen l1 <= ECHO_BUF_SIZE -> 5 < zlen l2 <= ECHO_BUF_SIZE + 5 ->
  Forall (fun l => zlen l <= ECHO_BUF_SIZE) ls ->
  ends (echo_kernel mem forks (fun status σ' => status = None /\ c_lines σ' = [] /\
    c_out σ' 0 = echo_text mem forks l1 l2 ls)) (fun _ _ => False) echo_main σ /\
  forall tag, 1 <= tag <= 2 ->
    ends (echo_kernel mem forks (fun status σ' => status = Some tag /\ c_lines σ' = c_lines σ /\
      c_out σ' 0 = concat (child_line tag <$> seqZ 0 5))) (fun _ _ => False) (child_writer tag) σ.
Proof.
  intros Hl Ho H1 H2 Hls. split.
  - unfold echo_main. apply printing_bind with (1 := write_string_prints _ _ _ _). intros σ1 L1 O1.
    apply printing_bind with (1 := test_multi_terminal_prints _ _ _). intros σ2 L2 O2.
    ustep. apply test_large_write_prints. intros σ3 L3 O3.
    apply printing_bind with (1 := test_concurrent_writers_prints _ _ _). intros σ4 L4 O4.
    ustep. eapply test_basic_echo_prints; [rewrite L4, L3, L2, L1; exact Hl|done|]. intros σ5 L5 O5.
    ustep. eapply test_partial_read_prints; [exact L5|done|]. intros σ6 L6 O6.
    apply printing_bind with (1 := write_string_prints _ _ _ _). intros σ7 L7 O7.
    apply (echo_loop_prints _ _ _ ls); [by apply uninit_len|congruence|done|]. intros σ' L' O'. split_and!; [done..|].
    rewrite O', O7, O6, O5, O4, O3, O2, O1, Ho. unfold echo_text. by rewrite <- !(assoc_L (++)).
  - intros tag Htag. apply child_writer_prints; [lia|]. intros σ' L' O'. split_and!; [done..|]. by rewrite O', Ho.
Qed.

Lemma echo_prints_witness :
  exists ls, Forall (fun l => zlen l <= ECHO_BUF_SIZE) ls /\
    ends (@echo_kernel demo_programs true true (fun status σ' => status = None /\ c_lines σ' = [] /\
      c_out σ' 0 = echo_text true true (bytes "hi" ++ nl) (bytes "a long line" ++ nl) ls)) (fun _ _ => False)
      (@echo_main demo_programs)
      {| c_lines := (bytes "hi" ++ nl) :: (bytes "a long line" ++ nl) :: ls; c_out := fun _ => [] |}.
Proof.
  exists [bytes "x" ++ nl]. split; [by repeat constructor|].
  apply (@echo_prints demo_programs demo_programs_ok true true (bytes "hi" ++ nl) (bytes "a long line" ++ nl)
    [bytes "x" ++ nl] {| c_lines := [bytes "hi" ++ nl; bytes "a long line" ++ nl; bytes "x" ++ nl]; c_out := fun _ => [] |});
    [done|done|done|done|by repeat constructor].
Defined.
