(* ===== verification/InitPrograms.v ===== *)
(** * The first programs ([user/init.c], [user/altinit.c]) and the tests of the
    stack ([user/forkstack.c], [user/bigstack.c])

    [init] and [altinit] against a kernel that answers their forks in any way
    and delivers a list of exit codes to their waits; [forkstack] and [bigstack]
    against a terminal and a memory. *)

From S2P Require Import Prelude Machine UserLib UserPrograms.
From stdpp Require Import strings.
Open Scope Z_scope.

(** ** Definitions *)

(** What [Fork] answered so far, and the exit codes that are still to come. *)
Record family := { f_forks : list Z; f_statuses : list Z }.

(** [execs i file argv]: after its [i]th fork a child may become [file].  A run
    stops in [stop]: at an [Exit], or in a [Wait] to which no exit code comes. *)
Definition family_kernel (execs : nat -> list Z -> list (list Z) -> Prop) (stop : option Z -> family -> Prop)
    (A : Type) (e : callE A) (σ : family) : (A -> family -> Prop) -> Prop :=
  match e in callE A return (A -> family -> Prop) -> Prop with
  | CFork => fun Q => forall pid, -1 <= pid ->
      Q pid {| f_forks := f_forks σ ++ [pid]; f_statuses := f_statuses σ |}
  | CExec file argv => fun Q => last (f_forks σ) = Some 0 /\ execs (length (f_forks σ)) file argv /\ forall r, Q r σ
  | CWait => fun Q =>
      match f_statuses σ with
      | [] => stop None σ
      | status :: rest => Q (0, Some status) {| f_forks := f_forks σ; f_statuses := rest |}
      end
  | CExit status => fun _ => stop (Some status) σ
  | _ => fun _ => False
  end.
#[export] Instance family_kernel_mono execs stop : MonoSpec (family_kernel execs stop).
Proof.
  intros A e σ Q Q' HQ. destruct e; simpl; auto; [|by case_match; auto].
  intros (H1 & H2 & H3). auto.
Qed.

(** The exit codes behind the first one that is not 0. *)
Fixpoint behind_failure (statuses : list Z) : list Z :=
  match statuses with
  | [] => []
  | s :: ss => if s =? 0 then behind_failure ss else ss
  end.

(** How [init] ends: without a program to start it gives up; it also does when
    the fork fails, in a child that could not become the program, and as soon as
    a child has ended with an exit code other than 0.  Otherwise it waits for
    ever. *)
Definition init_outcome (argv : list (list Z)) (statuses : list Z) (outcome : option Z) (σ : family) : Prop :=
  if zlen argv <? 2 then outcome = Some (-1) /\ f_forks σ = []
  else exists pid, f_forks σ = [pid] /\
    if bool_decide (pid <= 0 \/ Exists (fun s => s <> 0) statuses)
    then outcome = Some (-1) /\ (0 < pid -> f_statuses σ = behind_failure statuses)
    else outcome = None /\ f_statuses σ = [].

(** How [altinit] ends: a fork for each argument, up to one that fails or to
    the one in a child; the parent then waits for ever. *)
Definition altinit_outcome (argv : list (list Z)) (outcome : option Z) (σ : family) : Prop :=
  (outcome = None /\ f_statuses σ = [] /\ Forall (fun pid => 0 < pid) (f_forks σ) /\
     length (f_forks σ) = (length argv - 1)%nat) \/
  (outcome = Some (-1) /\ exists pids pid, f_forks σ = pids ++ [pid] /\ Forall (fun pid => 0 < pid) pids /\ pid <= 0 /\
     (length pids < length argv - 1)%nat).

(** *** A terminal and a memory *)

(** What [Fork] answered, what was printed on terminal 1 and what was stored
    where. *)
Record bench := { b_fork : option Z; b_out : list Z; b_mem : Z -> option Z }.
Definition bench_kernel (stop : Z -> bench -> Prop) (A : Type) (e : callE A) (σ : bench) :
    (A -> bench -> Prop) -> Prop :=
  match e in callE A return (A -> bench -> Prop) -> Prop with
  | CFork => fun Q => forall pid, -1 <= pid -> Q pid {| b_fork := Some pid; b_out := b_out σ; b_mem := b_mem σ |}
  | CMalloc size => fun Q => forall p, Q p σ
  | CStore a v => fun Q => a <> 0 /\
      Q tt {| b_fork := b_fork σ; b_out := b_out σ; b_mem := fun x => if x =? a then Some v else b_mem σ x |}
  | CLoad a => fun Q => exists v, b_mem σ a = Some v /\ Q v σ
  | CTtyPrintf tty text => fun Q => tty = 1 /\ forall r,
      Q r {| b_fork := b_fork σ; b_out := b_out σ ++ text; b_mem := b_mem σ |}
  | CExit status => fun _ => stop status σ
  | _ => fun _ => False
  end.
#[export] Instance bench_kernel_mono stop : MonoSpec (bench_kernel stop).
Proof.
  intros A e σ Q Q' HQ. destruct e; simpl; auto.
  - intros [? H]. auto.
  - intros (v & ? & ?). exists v. auto.
  - intros [? ?]. auto.
Qed.

(** What [recurse] prints: its argument in each call, down to 0. *)
Fixpoint recurse_text (who : list Z) (i : nat) : list Z :=
  (who ++ bytes " " ++ fmt_d (Z.of_nat i) ++ nl) ++
  match i with O => bytes "Done with recursion" ++ nl | S i' => recurse_text who i' end.

(** ** Lemmas *)
Section init.
Variables (execs : nat -> list Z -> list (list Z) -> Prop) (stop : option Z -> family -> Prop).
#[local] Abbreviation runs_to_stop := (ends (family_kernel execs stop)).

Lemma init_loop_ends (Q : Z -> family -> Prop) (statuses forks : list Z) before :
  (if bool_decide (Exists (fun s => s <> 0) statuses)
   then stop (Some (-1)) {| f_forks := forks; f_statuses := behind_failure statuses |}
   else stop None {| f_forks := forks; f_statuses := [] |}) ->
  runs_to_stop Q (loop (fun status => '(_, stored) ← call CWait; let status := default status stored in
      if negb (status =? 0) then exit (-1) else mret status) before)
    {| f_forks := forks; f_statuses := statuses |}.
Proof.
  revert before. induction statuses as [|s ss IH]; intros before Hstop; apply (ends_loop _); ustep; ustep; simpl.
  - by rewrite bool_decide_false in Hstop by (by intros ?%Exists_nil).
  - destruct (Z.eqb_spec s 0) as [->|Hs]; simpl in *.
    + ustep. apply IH. rewrite (bool_decide_ext _ (Exists (fun s => s <> 0) ss)) in Hstop; [done|].
      rewrite Exists_cons. tauto.
    + rewrite bool_decide_true in Hstop by (by left). destruct (Z.eqb_spec s 0); [done|]. by ustep.
Qed.

Lemma child_execs (Q : Z -> family -> Prop) {B} file argv σ (k : B -> prog Z) :
  last (f_forks σ) = Some 0 -> execs (length (f_forks σ)) file argv -> stop (Some (-1)) σ ->
  runs_to_stop Q ((call (CExec file argv);; exit (-1)) ≫= k) σ.
Proof. intros Hl He Hs. do 3 ustep. split; [done|]. split; [done|]. intros r. by ustep. Qed.
End init.

Lemma init_main_ends (argv : list (list Z)) (statuses : list Z) :
  ends (family_kernel (fun _ file args => args = drop 1 argv /\ head args = Some file) (init_outcome argv statuses))
    (fun _ _ => False) (init_main argv) {| f_forks := []; f_statuses := statuses |}.
Proof.
  unfold init_main, init_outcome. ustep. destruct (Z.ltb_spec (zlen argv) 2) as [|Hargc]; [by ustep|]. ustep. cbv zeta.
  destruct (lookup_lt_is_Some_2 argv 1) as [name Hname]; [unfold zlen in Hargc; lia|].
  ustep. eapply logic_defined; [unfold zget; simpl; by rewrite lookup_drop|]. ustep. ustep. intros pid Hpid.
  destruct (Z.eqb_spec pid 0) as [->|Hp0]; [|destruct (Z.eqb_spec pid (-1)) as [->|Hp1]].
  - apply child_execs; simpl; [done|split; [done|]|].
    + change (argv !! (1 + 0)%nat = Some name) in Hname. rewrite <- lookup_drop in Hname. by destruct (drop 1 argv).
    + exists 0. split; [done|]. by rewrite bool_decide_true by (by left).
  - ustep. cbn [negb]. ustep. exists (-1). split; [done|]. by rewrite bool_decide_true by (by left).
  - ustep. cbn [negb]. ustep. apply init_loop_ends. simpl.
    rewrite (bool_decide_ext _ (pid <= 0 \/ Exists (fun s => s <> 0) statuses)) by (split; [by right|intros [?|?]; [lia|done]]).
    case_bool_decide as Hex; (exists pid; split; [done|]).
    + by rewrite bool_decide_true.
    + by rewrite bool_decide_false.
Qed.

Lemma altinit_main_ends (argv : list (list Z)) (statuses : list Z) :
  ends (family_kernel (fun i file args => args = [file] /\ argv !! i = Some file) (altinit_outcome argv))
    (fun _ _ => False) (altinit_main argv) {| f_forks := []; f_statuses := statuses |}.
Proof.
  unfold altinit_main. ustep.
  apply (logic_for _ _ _ (fun i σ => i = Z.of_nat (length (f_forks σ)) + 1 /\ Forall (fun pid => 0 < pid) (f_forks σ))).
  - by split.
  - intros i σ Hi [-> Hpos]. ustep. ustep. intros pid Hpid. set (σ1 := {| f_forks := _; f_statuses := _ |}).
    assert (pid <= 0 -> altinit_outcome argv (Some (-1)) σ1) as Hstop.
    { intros Hp. right. split; [done|]. exists (f_forks σ), pid. unfold zlen in Hi. split_and!; [done..|lia]. }
    destruct (Z.eqb_spec pid 0) as [->|Hp0]; [|destruct (Z.eqb_spec pid (-1)) as [->|Hp1]].
    + destruct (lookup_lt_is_Some_2 argv (length (f_forks σ) + 1)) as [a Ha]; [unfold zlen in Hi; lia|].
      ustep. eapply logic_defined; [unfold zget; rewrite decide_True by lia; by replace (Z.to_nat _) with (length (f_forks σ) + 1)%nat by lia|].
      do 2 ustep. simpl. rewrite last_snoc, length_app. split; [done|]. split; [done|]. intros r. ustep. by apply Hstop.
    + cbn [negb]. ustep. by apply Hstop.
    + cbn [negb]. ustep. simpl. rewrite length_app. simpl. split; [lia|]. apply Forall_app. split; [done|]. constructor; [lia|constructor].
  - intros σ [Hlen Hpos]. assert (length (f_forks σ) = (length argv - 1)%nat) as Hl by (unfold zlen in Hlen; lia).
    destruct σ as [forks ss]. cbn [f_forks f_statuses] in *.
    induction ss as [|s ss IH]; apply (ends_forever _); ustep; ustep; simpl.
    + by left.
    + by ustep.
Qed.

Section bench.
Context {um : UserMachine} {um_ok : UserMachineOk}.
Variable stop : Z -> bench -> Prop.
#[local] Abbreviation runs_to_exit := (ends (bench_kernel stop)).

Lemma recurse_ends (Q : unit -> bench -> Prop) who i σ :
  (forall σ', b_fork σ' = b_fork σ -> b_out σ' = b_out σ ++ recurse_text who i -> Q tt σ') ->
  runs_to_exit Q (recurse who i) σ.
Proof.
  revert σ. induction i as [|i IH]; intros σ HQ.
  all: cbn [recurse recurse_text] in *; ustep; ustep; intros mem; ustep.
  all: destruct (fill_ok 1024 0 (fun _ => 97) (uninit 1024)) as (w & Hw & Hlen); [done|by rewrite uninit_len|].
  all: rewrite uninit_len in Hlen by done.
  all: destruct (lookup_lt_is_Some_2 w 0) as [c Hc]; [unfold zlen in Hlen; lia|].
  all: eapply logic_defined; [exact Hw|]; ustep.
  all: eapply (logic_mono (spec := bench_kernel stop) _ (fun _ σ' => b_fork σ' = b_fork σ /\ b_out σ' = b_out σ));
    [|destruct (Z.eqb_spec mem 0); cbn [negb]; [by ustep|]; ustep; eapply logic_defined; [unfold zget; exact Hc|]; by ustep].
  all: intros _ σ1 [F1 O1]; ustep; ustep; split; [done|]; intros r.
  - ustep. ustep. split; [done|]. intros r'. ustep. apply HQ; [done|]. cbn [b_out]. by rewrite O1, <- (assoc_L (++)).
  - apply IH. intros σ2 F2 O2. apply HQ; [by rewrite F2|]. rewrite O2. cbn [b_out]. by rewrite O1, <- !(assoc_L (++)).
Qed.

Lemma bigstack_ends (Q : Z -> bench -> Prop) σ : 0 < big_buffer ->
  (forall σ', b_out σ' = b_out σ ->
     (forall a, b_mem σ' a = if bool_decide (big_buffer <= a < big_buffer + 10240) then Some 97 else b_mem σ a) ->
     stop 0 σ') ->
  runs_to_exit Q bigstack_main σ.
Proof.
  intros Hpos Hstop. unfold bigstack_main. ustep.
  set (filled := fun i σ' => b_out σ' = b_out σ /\
    forall a, b_mem σ' a = if bool_decide (big_buffer <= a < big_buffer + i) then Some 97 else b_mem σ a).
  apply (logic_for _ _ _ filled).
  - split; [done|]. intros a. by rewrite bool_decide_false by lia.
  - intros i σ1 Hi [O1 M1]. ustep. split; [lia|]. split; [done|]. intros a. cbn [b_mem]. rewrite M1.
    destruct (Z.eqb_spec a (big_buffer + i)) as [->|]; [by rewrite bool_decide_true by lia|].
    do 2 case_bool_decide; done || lia.
  - intros σ1 [O1 M1]. change (0 `max` (10 * 1024)) with 10240 in *. ustep. apply (logic_for _ _ _ (fun _ => filled 10240)).
    + by split.
    + intros j σ2 Hj [O2 M2]. ustep. ustep. exists 97. rewrite M2, bool_decide_true by lia. split; [done|]. by ustep.
    + intros σ2 [O2 M2]. ustep. by apply Hstop.
Qed.
End bench.

(** ** Properties *)


(** C40: [forkstack] ends, in the parent and in the child: its recursion prints
    its argument 34 times, counting down from 33, and the process exits with 0,
    whatever [malloc] answers; it stores through no NULL.  [bigstack] ends too: it
    stores to the 10240 bytes of its array and to no other, reads only what it
    stored, prints nothing and exits with 0. *)
Theorem stack_tests_end {um : UserMachine} {um_ok : UserMachineOk} (σ : bench) :
  0 < big_buffer ->
  ends (bench_kernel (fun status σ' => status = 0 /\ exists pid, b_fork σ' = Some pid /\
      b_out σ' = b_out σ ++ recurse_text (if pid =? 0 then bytes "child" else bytes "parent") 33))
    (fun _ _ => False) forkstack_main σ /\
  ends (bench_kernel (fun status σ' => status = 0 /\ b_out σ' = b_out σ /\
      forall a, b_mem σ' a = if bool_decide (big_buffer <= a < big_buffer + 10240) then Some 97 else b_mem σ a))
    (fun _ _ => False) bigstack_main σ.
Proof.
  intros Hpos. split; [|by apply bigstack_ends].
  unfold forkstack_main. ustep. ustep. intros pid Hpid. ustep.
  destruct (pid =? 0) eqn:E; apply recurse_ends; intros σ' F O; ustep; (split; [done|]); exists pid; by rewrite E.
Qed.

Lemma stack_tests_end_witness :
  ends (bench_kernel (fun status σ' => status = 0 /\ b_out σ' = [] /\
      forall a, b_mem σ' a = if bool_decide (2080768 <= a < 2080768 + 10240) then Some 97 else None))
    (fun _ _ => False) (@bigstack_main demo_programs) {| b_fork := None; b_out := []; b_mem := fun _ => None |}.
Proof.
  exact (proj2 (@stack_tests_end demo_programs demo_programs_ok {| b_fork := None; b_out := []; b_mem := fun _ => None |} eq_refl)).
Defined.
