(* ===== verification/UserSystem.v ===== *)
(** * Several user programs at once, on an abstract kernel

    What the kernel promises to programs that run at the same time, as a step
    relation: a state holds the processes, each with the rest of its program, the
    bytes in each pipe, the holders of each lock and semaphore, and the condition
    variables; in a step any process whose next call can be answered goes on
    ([sstep]).  A call that cannot be answered yet waits by taking no step.  Which
    of several waiters goes on first is left open, and so is time: a [Delay] may
    end at any moment.  [surely good s]: every run from [s] is finite and ends in a
    state that is [good].

    That the kernel of [src/] keeps the promise for pipes, and for locks and
    condition variables, is shown in [KernelPipes] and [KernelMonitor]. *)

From S2P Require Import Prelude Machine UserLib UserPrograms.
From ITree Require Import Core.ITreeDefinition.
Open Scope Z_scope.

(** ** Definitions *)

(** What a process does next: its program; waiting for a signal, with the lock to
    take again and the rest of its program; signalled, and waiting for the lock;
    exited, with its code not yet taken; gone. *)
Inductive status :=
| Running (o : itree' callE Z)
| Sleeping (cvar lock : Z) (o : itree' callE Z)
| Waking (lock : Z) (o : itree' callE Z)
| Exited (code : Z)
| Gone.

(** Processes are named by their place in the list of all of them. *)
Record proc := { pr_pid : Z; pr_parent : option nat; pr_status : status }.

(** A lock (capacity 1) or a semaphore, with the processes that hold it. *)
Record lock_spec := { lk_sem : bool; lk_cap : Z; lk_holders : list nat }.

Record sys := {
  y_procs : list proc;
  y_pipes : gmap Z (list Z);
  y_locks : gmap Z lock_spec;
  y_cvars : gset Z
}.

Definition set_procs ps s := {| y_procs := ps; y_pipes := y_pipes s; y_locks := y_locks s; y_cvars := y_cvars s |}.
Definition set_pipes ps s := {| y_procs := y_procs s; y_pipes := ps; y_locks := y_locks s; y_cvars := y_cvars s |}.
Definition set_locks ls s := {| y_procs := y_procs s; y_pipes := y_pipes s; y_locks := ls; y_cvars := y_cvars s |}.
Definition set_cvars cs s := {| y_procs := y_procs s; y_pipes := y_pipes s; y_locks := y_locks s; y_cvars := cs |}.
Definition set_holders (h : list nat) (k : lock_spec) : lock_spec :=
  {| lk_sem := lk_sem k; lk_cap := lk_cap k; lk_holders := h |}.

Definition with_status (st : status) (p : proc) : proc :=
  {| pr_pid := pr_pid p; pr_parent := pr_parent p; pr_status := st |}.
Definition set_status (i : nat) (st : status) (s : sys) : sys :=
  set_procs (alter (with_status st) i (y_procs s)) s.
(** The process [i] goes on with [t]. *)
Definition run (i : nat) (t : prog Z) (s : sys) : sys := set_status i (Running (observe t)) s.

(** *** Handles *)
Definition fresh_handle (id : Z) (s : sys) : Prop :=
  is_int id = true /\ y_pipes s !! id = None /\ y_locks s !! id = None /\ id ∉ y_cvars s.

(** *** Locks *)
Definition take_lock (sem : bool) (i : nat) (id : Z) (s : sys) (Q : Z -> sys -> Prop) : Prop :=
  match y_locks s !! id with
  | None => Q (-1) s
  | Some k =>
      if bool_decide (lk_sem k <> sem \/ i ∈ lk_holders k) then Q (-1) s
      else zlen (lk_holders k) < lk_cap k /\ Q 0 (set_locks (<[id := set_holders (i :: lk_holders k) k]> (y_locks s)) s)
  end.
Definition without (i : nat) (l : list nat) : list nat := filter (fun j => j <> i) l.
Definition give_lock (sem : bool) (i : nat) (id : Z) (s : sys) (Q : Z -> sys -> Prop) : Prop :=
  match y_locks s !! id with
  | None => Q (-1) s
  | Some k =>
      if bool_decide (lk_sem k <> sem \/ i ∉ lk_holders k) then Q (-1) s
      else Q 0 (set_locks (<[id := set_holders (without i (lk_holders k)) k]> (y_locks s)) s)
  end.

(** The process is about to read the pipe, or needs the lock: it asks for it, or
    will take it again after a signal. *)
Definition at_read (id : Z) (st : status) : Prop :=
  match st with
  | Running (VisF e _) => match e with CPipeRead id' _ => id' = id | _ => False end
  | _ => False
  end.
Definition at_lock (id : Z) (st : status) : Prop :=
  match st with
  | Running (VisF e _) => match e with CAcquire id' | CSemDown id' => id' = id | _ => False end
  | Sleeping _ id' _ | Waking id' _ => id' = id
  | _ => False
  end.
Definition sleeps (cvar : Z) (st : status) : Prop := match st with Sleeping c _ _ => c = cvar | _ => False end.
Definition some_other (P : status -> Prop) (i : nat) (s : sys) : Prop :=
  exists j p, j <> i /\ y_procs s !! j = Some p /\ P (pr_status p).

(** A pipe is reclaimed unless a process is blocked in a read of it, a lock
    unless it is held or needed, a condition variable unless somebody sleeps. *)
Definition reclaim (i : nat) (id : Z) (s : sys) (Q : Z -> sys -> Prop) : Prop :=
  match y_pipes s !! id, y_locks s !! id with
  | Some q, _ => Q 0 (set_pipes (delete id (y_pipes s)) s) \/ (q = [] /\ some_other (at_read id) i s /\ Q (-1) s)
  | None, Some k =>
      (lk_holders k = [] /\ Q 0 (set_locks (delete id (y_locks s)) s)) \/
      ((lk_holders k <> [] \/ some_other (at_lock id) i s) /\ Q (-1) s)
  | None, None =>
      (id ∈ y_cvars s /\ ~ some_other (sleeps id) i s /\ Q 0 (set_cvars (y_cvars s ∖ {[id]}) s)) \/
      ((id ∉ y_cvars s \/ some_other (sleeps id) i s) /\ Q (-1) s)
  end.

(** *** Condition variables *)
Definition woken_status (st : status) : status := match st with Sleeping _ l o => Waking l o | _ => st end.
Definition is_sleeping (cvar : Z) (p : proc) : bool :=
  match pr_status p with Sleeping c _ _ => bool_decide (c = cvar) | _ => false end.
Definition signal (id : Z) (s : sys) (Q : Z -> sys -> Prop) : Prop :=
  if bool_decide (id ∉ y_cvars s) then Q (-1) s
  else (forallb (fun p => negb (is_sleeping id p)) (y_procs s) = true /\ Q 0 s) \/
       exists j p, y_procs s !! j = Some p /\ is_sleeping id p = true /\ Q 0 (set_status j (woken_status (pr_status p)) s).
Definition broadcast (id : Z) (s : sys) (Q : Z -> sys -> Prop) : Prop :=
  if bool_decide (id ∉ y_cvars s) then Q (-1) s
  else Q 0 (set_procs ((fun p => if is_sleeping id p then with_status (woken_status (pr_status p)) p else p) <$> y_procs s) s).

Section system.
Context `{UserMachine}.
Variable scarce : bool.

(** [serve i s e Q]: the call [e] of the process [i] can be answered, with an
    answer and a state that satisfy [Q].  [scarce] is whether the kernel may run
    out of memory. *)
Definition serve (i : nat) (s : sys) {A} (e : callE A) : (A -> sys -> Prop) -> Prop :=
  match e in callE A return (A -> sys -> Prop) -> Prop with
  | CWait => fun Q => exists j p code, y_procs s !! j = Some p /\ pr_parent p = Some i /\
      pr_status p = Exited code /\ Q (0, Some code) (set_status j Gone s)
  | CGetPid => fun Q => exists p, y_procs s !! i = Some p /\ Q (pr_pid p) s
  | CDelay ticks => fun Q => Q (if ticks <? 0 then -1 else 0) s
  | CTtyRead _ _ len => fun Q => exists n out, read_reply len (n, out) /\ Q (n, out) s
  | CTtyWrite _ bs => fun Q => exists r, (r = zlen bs \/ r = -1) /\ Q r s
  | CTtyPrintf _ _ => fun Q => exists r, Q r s
  | CPipeInit => fun Q =>
      (exists id, fresh_handle id s /\ Q (0, id) (set_pipes (<[id := []]> (y_pipes s)) s)) \/
      (scarce = true /\ exists id, is_int id = true /\ Q (-1, id) s)
  | CPipeRead id len => fun Q =>
      match y_pipes s !! id with
      | None => Q (-1, []) s
      | Some q =>
          if len <? 0 then Q (-1, []) s
          else if len =? 0 then Q (0, []) s
          else q <> [] /\ let got := take (Z.to_nat len) q in
               Q (zlen got, got) (set_pipes (<[id := drop (Z.to_nat len) q]> (y_pipes s)) s)
      end
  | CPipeWrite id bs => fun Q =>
      match y_pipes s !! id with
      | None => Q (-1) s
      | Some q => Q (zlen bs) (set_pipes (<[id := q ++ bs]> (y_pipes s)) s) \/ (scarce = true /\ Q (-1) s)
      end
  | CLockInit => fun Q =>
      (exists id, fresh_handle id s /\
         Q (0, id) (set_locks (<[id := {| lk_sem := false; lk_cap := 1; lk_holders := [] |}]> (y_locks s)) s)) \/
      (scarce = true /\ exists id, is_int id = true /\ Q (-1, id) s)
  | CSemInit cap => fun Q =>
      if cap <? 1 then exists id, is_int id = true /\ Q (-1, id) s
      else (exists id, fresh_handle id s /\
              Q (0, id) (set_locks (<[id := {| lk_sem := true; lk_cap := cap; lk_holders := [] |}]> (y_locks s)) s)) \/
           (scarce = true /\ exists id, is_int id = true /\ Q (-1, id) s)
  | CCvarInit => fun Q =>
      (exists id, fresh_handle id s /\ Q (0, id) (set_cvars ({[id]} ∪ y_cvars s) s)) \/
      (scarce = true /\ exists id, is_int id = true /\ Q (-1, id) s)
  | CAcquire id => take_lock false i id s
  | CSemDown id => take_lock true i id s
  | CRelease id => give_lock false i id s
  | CSemUp id => give_lock true i id s
  | CCvarSignal id => signal id s
  | CCvarBroadcast id => broadcast id s
  | CReclaim id => reclaim i id s
  | CMalloc _ => fun Q => exists p, (scarce = true \/ p <> 0) /\ Q p s
  | CFree _ | CStore _ _ => fun Q => Q tt s
  | CRand => fun Q => exists r, 0 <= r /\ Q r s
  | CLoad _ => fun Q => exists v, Q v s
  | CFork | CExec _ _ | CExit _ | CCvarWait _ _ | CAbort | CUndefined => fun _ => False
  end.

(** The calls that do more than answer. *)
Definition add_child (i : nat) (pid : Z) (t : prog Z) (s : sys) : sys :=
  set_procs (y_procs s ++ [{| pr_pid := pid; pr_parent := Some i; pr_status := Running (observe t) |}]) s.
Definition transfer (i : nat) (s : sys) {A} (e : callE A) : (A -> prog Z) -> sys -> Prop :=
  match e in callE A return (A -> prog Z) -> sys -> Prop with
  | CFork => fun k s' =>
      (exists pid, 0 < pid /\ Forall (fun p => pr_pid p <> pid) (y_procs s) /\
         s' = add_child i pid (k 0) (run i (k pid) s)) \/
      (scarce = true /\ s' = run i (k (-1)) s)
  | CExec file argv => fun k s' =>
      s' = run i (match program_of file with Some main => main argv | None => k (-1) end) s \/
      (scarce = true /\ (s' = run i (k (-1)) s \/ s' = set_status i (Exited (-1)) s))
  | CExit code => fun _ s' => s' = set_status i (Exited code) s
  | CAbort => fun _ s' => s' = set_status i (Exited (-1)) s
  | CCvarWait cvar lock => fun k s' =>
      if bool_decide (cvar ∉ y_cvars s) then s' = run i (k (-1)) s
      else give_lock false i lock s (fun r s1 =>
             s' = if r =? 0 then set_status i (Sleeping cvar lock (observe (k 0))) s1 else run i (k (-1)) s1)
  | _ => fun _ _ => False
  end.

(** A step of the process [i], which is [p]. *)
Definition step_of (i : nat) (p : proc) (s s' : sys) : Prop :=
  match pr_status p with
  | Running (RetF code) => s' = set_status i (Exited code) s
  | Running (TauF t) => s' = run i t s
  | Running (VisF e k) => transfer i s e k s' \/ serve i s e (fun r s1 => s' = run i (k r) s1)
  | Waking lock o => take_lock false i lock s (fun _ s1 => s' = set_status i (Running o) s1)
  | Sleeping _ _ _ | Exited _ | Gone => False
  end.
Definition sstep (s s' : sys) : Prop := exists i p, y_procs s !! i = Some p /\ step_of i p s s'.

Inductive surely (good : sys -> Prop) (s : sys) : Prop :=
| surely_now : good s -> (forall s', ~ sstep s s') -> surely good s
| surely_step : (exists s', sstep s s') -> (forall s', sstep s s' -> surely good s') -> surely good s.

(** One process, from [argv] on. *)
Definition boot (pid : Z) (t : prog Z) : sys :=
  {| y_procs := [{| pr_pid := pid; pr_parent := None; pr_status := Running (observe t) |}];
     y_pipes := ∅; y_locks := ∅; y_cvars := ∅ |}.
End system.

(** ** Lemmas *)
Section lemmas.
Context `{UserMachine}.
Variable scarce : bool.

Lemma serve_mono i s {A} (e : callE A) (P Q : A -> sys -> Prop) :
  (forall r s', P r s' -> Q r s') -> serve scarce i s e P -> serve scarce i s e Q.
Proof.
  intros HQ. unfold serve, take_lock, give_lock, reclaim, signal, broadcast.
  destruct e; try done; repeat case_match; naive_solver.
Qed.

(** Only the process [i] may take a step. *)
Definition only (i : nat) (s : sys) : Prop :=
  forall j p s', j <> i -> y_procs s !! j = Some p -> ~ step_of scarce j p s s'.

Lemma surely_only good i p s :
  y_procs s !! i = Some p -> only i s -> (exists s', step_of scarce i p s s') ->
  (forall s', step_of scarce i p s s' -> surely scarce good s') -> surely scarce good s.
Proof.
  intros Hp Hi [s' Hs'] Hall. apply surely_step; [by exists s', i, p|]. intros s2 (j & p2 & Hp2 & H2).
  destruct (decide (j = i)) as [->|Hj]; [|by destruct (Hi j p2 s2)]. rewrite Hp in Hp2. injection Hp2 as <-. by apply Hall.
Qed.

(** *** One process, as a program in the logic

    [alone good i]: the process [i] makes a call; if after each answer, in the
    state it comes with, the run surely ends well, then it does from here. *)
Definition alone (good : sys -> Prop) (i : nat) (A : Type) (e : callE A) (s : sys) (Q : A -> sys -> Prop) : Prop :=
  forall k, (forall r s', Q r s' -> surely scarce good (run i (k r) s')) ->
    surely scarce good (set_status i (Running (VisF e k)) s).
#[export] Instance alone_mono good i : MonoSpec (alone good i).
Proof. intros A e s Q Q' HQ Ha k Hk. apply Ha. intros r s' Hr. apply Hk. by apply HQ. Qed.

Lemma alone_ends good i (Q : Z -> sys -> Prop) t s :
  (forall v s', Q v s' -> surely scarce good (set_status i (Running (RetF v)) s')) ->
  ends_in (alone good i) False Q t s -> surely scarce good (run i t s).
Proof.
  intros HQ Ht. apply Ht. clear t s Ht. intros t s Hu. unfold run. destruct Hu as [v Hv|t' []|A e k He].
  - by apply HQ.
  - by apply He.
Qed.

(** An answer that is possible can be given. *)
Definition answers (i : nat) (s : sys) {A} (e : callE A) (r : A) (s1 : sys) : Prop :=
  serve scarce i s e (fun r' s1' => r' = r /\ s1' = s1).
Lemma serve_answers i s {A} (e : callE A) (P : A -> sys -> Prop) :
  serve scarce i s e P <-> exists r s1, P r s1 /\ answers i s e r s1.
Proof.
  unfold answers. split.
  - unfold serve, take_lock, give_lock, reclaim, signal, broadcast.
    destruct e; try done; repeat case_match; naive_solver eauto 8.
  - intros (r & s1 & HP & Ha). eapply serve_mono; [|exact Ha]. by intros ? ? [-> ->].
Qed.

(** A call that is answered, when nobody else can do anything. *)
Lemma alone_call good i p {A} (e : callE A) s (Q : A -> sys -> Prop) :
  y_procs s !! i = Some p ->
  (forall o, only i (set_status i (Running o) s)) ->
  (forall k s1 s', ~ transfer scarce i s1 e k s') ->
  (forall st, exists r s1, answers i (set_status i st s) e r s1) ->
  (forall st r s1, answers i (set_status i st s) e r s1 -> Q r s1) ->
  alone good i A e s Q.
Proof.
  intros Hp Ho Ht He Hall k Hk. set (st := Running (VisF e k)).
  assert (y_procs (set_status i st s) !! i = Some (with_status st p)) as Hp'.
  { simpl. rewrite list_lookup_alter_eq, Hp. done. }
  apply (surely_only _ i (with_status st p) _ Hp' (Ho _)).
  - destruct (He st) as (r & s1 & Ha). exists (run i (k r) s1). right. apply serve_answers. by exists r, s1.
  - intros s' [Hs'|(r & s1 & -> & Ha)%serve_answers]; [by apply Ht in Hs'|]. by apply Hk, (Hall st).
Qed.
End lemmas.
