(* ===== verification/PipeTest.v ===== *)
(** * The test of the pipes ([user/pipe_test.c]) under every schedule

    [pipe_test] and the child it forks on the kernel of [UserSystem]: whatever
    the order in which the two go on, every run is finite and every check of the
    two passes, unless the kernel runs out of memory. *)

From S2P Require Import Prelude Machine UserLib UserPrograms UserSystem.
From stdpp Require Import strings.
From ITree Require Import Core.ITreeDefinition.
Open Scope Z_scope.

(** ** Definitions *)

(** All that is left is a parent that exited with 0, whose child was waited for,
    and no pipe; or, if memory was short, a parent that gave up. *)
Definition passed (scarce : bool) (s : sys) : Prop :=
  (pr_status <$> y_procs s = [Exited 0; Gone] /\ y_pipes s = ∅) \/
  (scarce = true /\ pr_status <$> head (y_procs s) = Some (Exited (-1))).

(** ** Lemmas *)
Section pipe_test.
Context {um : UserMachine} {um_ok : UserMachineOk}.
Variables (scarce : bool) (pid0 pid1 pipe : Z).
#[local] Abbreviation good := (passed scarce).
#[local] Abbreviation parent st := {| pr_pid := pid0; pr_parent := None; pr_status := st |}.
#[local] Abbreviation child st := {| pr_pid := pid1; pr_parent := Some 0%nat; pr_status := st |}.
#[local] Abbreviation state ps q :=
  {| y_procs := ps; y_pipes := {[pipe := q]}; y_locks := ∅; y_cvars := ∅ |}.

(** Nobody but the first process, or the second, can do anything. *)
Definition quiet (rest : list proc) (q : list Z) : Prop := forall st, only scarce 0 (state (parent st :: rest) q).

Lemma quiet_none q : quiet [] q.
Proof. intros st [|j] p s' Hj Hp; done. Qed.
Lemma quiet_gone q : quiet [child Gone] q.
Proof. intros st [|[|j]] p s' Hj Hp; try done. injection Hp as <-. by intros []. Qed.
Lemma quiet_reading len k : quiet [child (Running (VisF (CPipeRead pipe (Zpos len)) k))] [].
Proof.
  intros st [|[|j]] p s' Hj Hp; try done. injection Hp as <-. unfold step_of. cbn.
  rewrite lookup_singleton_eq. naive_solver.
Qed.

Section parent_rules.
Variables (rest : list proc).
#[local] Abbreviation alone0 := (alone scarce good 0).

Lemma parent_call {A} (e : callE A) q st0 (Q : A -> sys -> Prop) :
  quiet rest q ->
  (forall k s1 s', ~ transfer scarce 0 s1 e k s') ->
  (forall st, exists r s1, answers scarce 0 (state (parent st :: rest) q) e r s1) ->
  (forall st r s1, answers scarce 0 (state (parent st :: rest) q) e r s1 -> Q r s1) ->
  alone0 A e (state (parent st0 :: rest) q) Q.
Proof. intros Hq Ht He HQ. apply (alone_call scarce good 0 (parent st0)); [done|intros o; apply Hq|done|exact He|exact HQ]. Qed.

Lemma parent_delay n q st0 (Q : Z -> sys -> Prop) :
  quiet rest q -> (forall r st, Q r (state (parent st :: rest) q)) ->
  alone0 _ (CDelay n) (state (parent st0 :: rest) q) Q.
Proof.
  intros Hq HQ. apply parent_call; [done|by intros ? ? ? []|intros; by do 2 eexists|]. by intros st r s1 [<- <-].
Qed.
Lemma parent_write bs q st0 (Q : Z -> sys -> Prop) :
  quiet rest q -> (forall st, Q (zlen bs) (state (parent st :: rest) (q ++ bs))) ->
  (scarce = true -> forall st, Q (-1) (state (parent st :: rest) q)) ->
  alone0 _ (CPipeWrite pipe bs) (state (parent st0 :: rest) q) Q.
Proof.
  intros Hq HQ Hf. apply parent_call; [done|by intros ? ? ? []| |].
  - intros st. do 2 eexists. unfold answers. cbn. rewrite lookup_singleton_eq. by left.
  - intros st r s1. unfold answers. cbn. rewrite lookup_singleton_eq. intros [[<- <-]|(Hs & <- & <-)]; [|by apply Hf].
    unfold set_pipes. cbn. rewrite insert_singleton_eq. apply HQ.
Qed.
Lemma parent_read len q st0 (Q : Z * list Z -> sys -> Prop) :
  quiet rest q -> q <> [] ->
  (forall st, let got := take (Pos.to_nat len) q in
     Q (zlen got, got) (state (parent st :: rest) (drop (Pos.to_nat len) q))) ->
  alone0 _ (CPipeRead pipe (Zpos len)) (state (parent st0 :: rest) q) Q.
Proof.
  intros Hq Hne HQ. apply parent_call; [done|by intros ? ? ? []| |].
  - intros st. do 2 eexists. unfold answers. cbn. by rewrite lookup_singleton_eq.
  - intros st r s1. unfold answers. cbn. rewrite lookup_singleton_eq. intros (_ & <- & <-).
    unfold set_pipes. cbn. rewrite insert_singleton_eq. apply HQ.
Qed.
Lemma parent_exit code q st0 (Q : Empty_set -> sys -> Prop) :
  quiet rest q -> good (state (parent (Exited code) :: rest) q) ->
  alone0 _ (CExit code) (state (parent st0 :: rest) q) Q.
Proof.
  intros Hq Hg k _. eapply (surely_only _ _ 0); [done|apply Hq|by eexists; left|]. intros s' [->|[]].
  apply surely_now; [done|]. intros s' ([|j] & p & Hp & Hs); [by injection Hp as <-|]. exact (Hq (Exited code) (S j) p s' ltac:(done) Hp Hs).
Qed.
End parent_rules.

(** A string that was read, with its end. *)
Lemma c_chars_app t rest : 0 ∉ t -> c_chars (t ++ 0 :: rest) = Some t.
Proof.
  induction t as [|b t IH]; intros Ht; [done|]. apply not_elem_of_cons in Ht as [Hb Ht]. cbn.
  by rewrite (proj2 (Z.eqb_neq b 0)), (IH Ht) by done.
Qed.
Lemma string_read out buf : 0 ∉ out -> zlen out < zlen buf ->
  exists buf', zset (overwrite out buf) (zlen out) 0 = Some buf' /\ c_chars buf' = Some out /\ zlen buf' = zlen buf.
Proof.
  intros Hz Hlen. pose proof (overwrite_len out buf) as Ho. unfold zset. unfold zlen in *.
  rewrite decide_True by lia. eexists. split; [done|]. rewrite Nat2Z.id. split; [|by rewrite length_insert].
  unfold overwrite. rewrite (take_ge out) by lia. rewrite insert_app_r_alt, Nat.sub_diag by lia.
  destruct (drop (length out) buf) as [|b l] eqn:E; [|by apply c_chars_app].
  apply (f_equal length) in E. rewrite length_drop in E. simpl in E. lia.
Qed.

(** Reading and checking what was read, in either logic. *)
Lemma read_checked {R : forall A, (A -> sys -> Prop) -> prog A -> sys -> Prop} {spec} `{HL : !Logic spec R}
    {A} (Q : A -> sys -> Prop) buf len text (k : list Z -> prog A) σ :
  0 ∉ text -> zlen text <= len -> len < zlen buf ->
  spec _ (CPipeRead pipe len) σ (fun r σ' => r = (zlen text, text) /\ forall buf', zlen buf' = zlen buf -> R _ Q (k buf') σ') ->
  R _ Q ('(rc, buf) ← PipeRead pipe buf len; CHECK (rc =? zlen text);; buf ← defined (zset buf (zlen text) 0);
         same ← same_string buf text; CHECK same;; k buf) σ.
Proof.
  intros Hz Htl Hlen He. ustep. apply (logic_PipeRead (spec := spec)); [lia|].
  eapply (logic_spec_mono (R := R)); [|exact He]. intros r σ' [-> Hk]. cbn [fst snd]. rewrite Z.eqb_refl. ustep.
  cbn [CHECK]. ustep. destruct (string_read text buf) as (buf' & Hset & Hchars & Hl); [done|lia|].
  ustep. eapply logic_defined; [exact Hset|]. ustep. unfold same_string. ustep. eapply logic_defined; [exact Hchars|]. ustep.
  rewrite bool_decide_true by done. ustep. cbn [CHECK]. ustep. by apply Hk.
Qed.

(** *** The phases of a run *)
Lemma parent_gives_up {A} rest q st0 (Q : A -> sys -> Prop) :
  quiet rest q -> scarce = true ->
  ends_in (alone scarce good 0) False Q (exit (-1)) (state (parent st0 :: rest) q).
Proof. intros Hq Hs. apply (logic_exit (spec := alone scarce good 0)). apply parent_exit; [done|]. by right. Qed.

(** A write whose result is checked. *)
Lemma write_checked (Q : Z -> sys -> Prop) rest q st0 text (k : Z -> prog Z) :
  quiet rest q ->
  (forall st, ends_in (alone scarce good 0) False Q (k (zlen text)) (state (parent st :: rest) (q ++ text))) ->
  0 < zlen text ->
  ends_in (alone scarce good 0) False Q (rc ← PipeWrite pipe text (zlen text); CHECK (rc =? zlen text);; k rc)
    (state (parent st0 :: rest) q).
Proof.
  intros Hq Hk Hlen. ustep. apply (logic_PipeWrite (spec := alone scarce good 0)); [lia|].
  rewrite (take_ge text) by (unfold zlen; lia).
  apply parent_write; [done| |].
  - intros st. rewrite Z.eqb_refl. ustep. cbn [CHECK]. ustep. apply Hk.
  - intros Hs st. rewrite (proj2 (Z.eqb_neq _ _)) by lia. ustep. by apply parent_gives_up.
Qed.

Lemma zero_free s : forallb (fun b => negb (b =? 0)) s = true -> 0 ∉ s.
Proof. intros Hs Hin. apply forallb_forall with (x := 0) in Hs; [done|]. by apply list_elem_of_In. Qed.

(** The child runs alone while its parent waits for it. *)
Section child_rules.
Variable k0 : Z * option Z -> prog Z.
#[local] Abbreviation waiting := (parent (Running (VisF CWait k0))).

Lemma quiet_waiting o q : only scarce 1 (state [waiting; child (Running o)] q).
Proof.
  intros [|[|j]] p s' Hj Hp; try done. injection Hp as <-. unfold step_of. cbn.
  intros [[]|([|[|j]] & p & code & Hp & Hpar & Hst & _)]; [by injection Hp as <-|by injection Hp as <-|done].
Qed.

Lemma child_runs (rest : prog Z) :
  (forall st, surely scarce good (run 0 (k0 (0, Some 17)) (state [parent st; child Gone] []))) ->
  surely scarce good (state [waiting; child (Running (observe (pipe_test_child pipe;; rest)))] (bytes "hello")).
Proof.
  intros Hk. change (surely scarce good (run 1 (pipe_test_child pipe;; rest) (state [waiting; child Gone] (bytes "hello")))).
  apply (alone_ends scarce good 1 (fun _ _ => False)); [done|].
  ustep. unfold pipe_test_child. eapply (read_checked _ _ 5 (bytes "hello")); [by apply zero_free|done|by rewrite uninit_len|].
  apply (alone_call scarce good 1 (child Gone)); [done|intros o; apply quiet_waiting|by intros ? ? ? []| |].
  - intros st. do 2 eexists. unfold answers. cbn. by rewrite lookup_singleton_eq.
  - intros st r s1. unfold answers. cbn. rewrite lookup_singleton_eq. intros (_ & <- & <-). split; [done|].
    intros buf' _. apply (logic_exit (spec := alone scarce good 1)). unfold set_pipes. cbn. rewrite insert_singleton_eq.
    intros k _. eapply (surely_only _ _ 1); [done|apply quiet_waiting|by eexists; left|]. intros s' [->|[]].
    eapply (surely_only _ _ 0); [done| | |].
    + intros [|[|j]] p s' Hj Hp; try done. injection Hp as <-. by intros [].
    + eexists. right. exists 1%nat, (child (Exited 17)), 17. by split_and!.
    + intros s' [[]|([|[|j]] & p & code & Hp & Hpar & Hst & ->)]; [by injection Hp as <-| |done].
      injection Hp as <-. injection Hst as <-. apply Hk.
Qed.
End child_rules.

(** The child begins with its read. *)
Lemma child_reads (rest : prog Z) : exists k,
  observe (pipe_test_child pipe;; rest) = VisF (CPipeRead pipe 5) k.
Proof.
  eexists. unfold pipe_test_child, PipeRead. rewrite (proj2 (Z.ltb_ge _ _)) by (by rewrite uninit_len).
  unfold mbind, prog_bind. by rewrite !observe_bind, observe_call.
Qed.

(** The last two calls of the parent. *)
Lemma parent_cleans_up st0 (Q : Z -> sys -> Prop) :
  ends_in (alone scarce good 0) False Q (rc ← call (CReclaim pipe); CHECK (rc =? 0);; exit 0)
    (state [parent st0; child Gone] []).
Proof.
  ustep. ustep. apply parent_call; [apply quiet_gone|by intros ? ? ? []| |].
  - intros st. do 2 eexists. unfold answers. cbn. unfold reclaim. cbn. rewrite lookup_singleton_eq. by left.
  - intros st r s1. unfold answers. cbn. unfold reclaim. cbn. rewrite lookup_singleton_eq.
    intros [[<- <-]|(_ & ([|[|j]] & p & Hj & Hp & Hr) & _)]; [|done|by injection Hp as <-|done].
    ustep. cbn [CHECK Z.eqb]. ustep. apply (logic_exit (spec := alone scarce good 0)). unfold set_pipes. cbn.
    rewrite delete_singleton_eq. intros k _. eapply (surely_only _ _ 0); [done| |by eexists; left|].
    + intros [|[|j]] p s' Hj Hp; try done. injection Hp as <-. by intros [].
    + intros s' [->|[]]. apply surely_now; [by left|]. by intros s' ([|[|j]] & p & Hp & Hs); [injection Hp as <-..|].
Qed.

(** The parent alone, when its child is gone. *)
Lemma parent_finishes st0 (Q : Z -> sys -> Prop) :
  ends_in (alone scarce good 0) False Q (
    rc ← PipeWrite pipe (bytes "abcdef") 6; CHECK (rc =? 6);;
    '(rc, buf) ← PipeRead pipe (uninit 32) 3; CHECK (rc =? 3);; buf ← defined (zset buf 3 0);
    same ← same_string buf (bytes "abc"); CHECK same;;
    '(rc, buf) ← PipeRead pipe buf 10; CHECK (rc =? 3);; buf ← defined (zset buf 3 0);
    same ← same_string buf (bytes "def"); CHECK same;;
    rc ← PipeWrite pipe (bytes "xyz") 3; CHECK (rc =? 3);;
    '(rc, buf) ← PipeRead pipe buf 3; CHECK (rc =? 3);; buf ← defined (zset buf 3 0);
    same ← same_string buf (bytes "xyz"); CHECK same;;
    rc ← call (CReclaim pipe); CHECK (rc =? 0);; exit 0) (state [parent st0; child Gone] []).
Proof.
  assert (zlen (uninit 32) = 32) as Hu by by apply uninit_len.
  apply (write_checked _ _ _ _ (bytes "abcdef")); [apply quiet_gone| |done]. intros st1.
  eapply (read_checked _ _ 3 (bytes "abc")); [by apply zero_free|done|lia|].
  apply parent_read; [apply quiet_gone|done|]. intros st2. split; [done|]. intros b1 H1.
  eapply (read_checked _ _ 10 (bytes "def")); [by apply zero_free|done|lia|].
  apply parent_read; [apply quiet_gone|done|]. intros st3. split; [done|]. intros b2 H2.
  apply (write_checked _ _ _ _ (bytes "xyz")); [apply quiet_gone| |done]. intros st4.
  eapply (read_checked _ _ 3 (bytes "xyz")); [by apply zero_free|done|lia|].
  apply parent_read; [apply quiet_gone|done|]. intros st5. split; [done|]. intros b3 H3.
  apply parent_cleans_up.
Qed.

(** The parent from its fork on. *)
Lemma parent_runs st0 :
  surely scarce good (run 0 (pipe_test_parent pipe)
    (state [parent st0; child (Running (observe (pipe_test_child pipe;; pipe_test_parent pipe)))] [])).
Proof.
  apply (alone_ends scarce good 0 (fun _ _ => False)); [done|].
  destruct (child_reads (pipe_test_parent pipe)) as [kc Hc].
  assert (quiet [child (Running (observe (pipe_test_child pipe;; pipe_test_parent pipe)))] []) as Hq.
  { rewrite Hc. apply quiet_reading. }
  unfold pipe_test_parent at 1. ustep. ustep. apply parent_delay; [exact Hq|]. intros _ st1.
  apply (write_checked _ _ _ _ (bytes "hello")); [exact Hq| |done]. intros st2. ustep. ustep. intros k Hk.
  apply child_runs. intros st3. apply Hk. cbv beta iota.
  change (CHECK (0 =? 0)) with (mret tt : prog unit). do 3 ustep.
  eapply logic_defined; [done|]. change (CHECK (17 =? 17)) with (mret tt : prog unit). do 2 ustep. apply parent_finishes.
Qed.
End pipe_test.

Section start.
Context {um : UserMachine} {um_ok : UserMachineOk}.
Variables (scarce : bool) (pid0 : Z).
#[local] Abbreviation good := (passed scarce).
#[local] Abbreviation parent st := {| pr_pid := pid0; pr_parent := None; pr_status := st |}.
#[local] Abbreviation state pipe ps q :=
  {| y_procs := ps; y_pipes := {[pipe := q]}; y_locks := ∅; y_cvars := ∅ |}.

(** The program from its fork on. *)
Definition from_fork (pipe : Z) : prog Z :=
  rc ← call CFork;
  CHECK (0 <=? rc);;
  (if rc =? 0 then pipe_test_child pipe else mret tt);;
  pipe_test_parent pipe.

Lemma run_observe i t t' s : observe t = observe t' -> run i t s = run i t' s.
Proof. unfold run. by intros ->. Qed.

Lemma fork_runs pipe st0 : surely scarce good (run 0 (from_fork pipe) (state pipe [parent st0] [])).
Proof.
  assert (forall pid, 0 < pid -> observe (CHECK (0 <=? pid);; (if pid =? 0 then pipe_test_child pipe else mret tt);;
    pipe_test_parent pipe) = observe (pipe_test_parent pipe)) as Hpid.
  { intros pid Hpos. by rewrite (proj2 (Z.leb_le _ _)), (proj2 (Z.eqb_neq _ _)) by lia. }
  eapply (surely_only _ _ 0); [done|by apply (quiet_none scarce pid0 pipe)| |].
  - eexists. left. left. exists (Z.max 1 (pid0 + 1)). split; [lia|]. split; [|done]. constructor; [simpl; lia|constructor].
  - intros s' [[(pid & Hpos & _ & ->)|[Hs ->]]|[]].
    + match goal with |- surely _ _ (add_child _ _ ?c (run _ ?t ?s)) =>
        rewrite (run_observe 0 t (pipe_test_parent pipe) s (Hpid pid Hpos));
        assert (observe c = observe (pipe_test_child pipe;; pipe_test_parent pipe)) as Hc by reflexivity end.
      unfold add_child. rewrite Hc. apply (parent_runs scarce pid0 pid pipe st0).
    + match goal with |- surely _ _ (run _ ?t ?s) => change (run 0 t s) with (run 0 t (state pipe [parent st0] [])) end.
      apply (alone_ends scarce good 0 (fun _ _ => False)); [done|]. ustep.
      apply (logic_ret (spec := alone scarce good 0) Z _ (-1)). ustep.
      change (CHECK (0 <=? -1)) with (exit (-1) : prog unit). by apply parent_gives_up; [apply quiet_none|].
Qed.
End start.

(** ** Properties *)

(** C5: [pipe_test], under every schedule of itself and the child it forks, on
    a kernel whose pipes are queues of bytes: every run is finite.  It ends with
    the parent having exited with 0, which it does only when each of its checks
    passed, the child having exited with 17 and been waited for, and the pipe
    reclaimed.  Only when the kernel is short of memory can it end otherwise, and
    then the parent exited with -1. *)
Theorem pipe_test_passes {um : UserMachine} {um_ok : UserMachineOk} (scarce : bool) (pid0 : Z) :
  surely scarce (passed scarce) (boot pid0 pipe_test_main).
Proof.
  eapply (surely_only _ _ 0); [done| | |].
  - intros [|j] p s' Hj Hp; done.
  - eexists. right. left. exists 0. by split.
  - intros s' [[]|[(id & _ & ->)|(Hs & id & _ & ->)]].
    + match goal with |- surely _ _ (run _ ?t ?s) => rewrite (run_observe 0 t (from_fork id) s eq_refl) end.
      unfold set_pipes, boot. cbn [y_procs y_pipes y_locks y_cvars]. rewrite insert_empty. apply fork_runs.
    + match goal with |- surely _ _ (run _ ?t _) => change (surely scarce (passed scarce) (run 0 t (boot pid0 (exit (-1))))) end.
      eapply (surely_only _ _ 0); [done|by intros [|j] p s' Hj Hp|by eexists; left|]. intros s' [->|[]].
      apply surely_now; [by right|]. by intros s' ([|j] & p & Hp & H'); [injection Hp as <-|].
Qed.

Lemma pipe_test_passes_witness :
  surely (H := demo_programs) true (passed true) (boot 1 (@pipe_test_main demo_programs)).
Proof. exact (@pipe_test_passes demo_programs demo_programs_ok true 1). Defined.
