(* ===== verification/SemTest.v ===== *)
(** * The test of the semaphores ([user/test2.c], [user/test_helper2.c])

    [test2] starts a number of processes that each take a semaphore for a while,
    waits for all of them and reclaims the semaphore.  On the kernel of
    [UserSystem], under every schedule: every run is finite and ends with every
    process gone and the semaphore reclaimed, and at no time are more processes
    between their [SemDown] and their [SemUp] than the semaphore allows. *)

From S2P Require Import Prelude Machine UserLib UserPrograms UserSystem.
From stdpp Require Import strings.
From ITree Require Import Core.ITreeDefinition.
Open Scope Z_scope.

(** ** Definitions *)

(** How far a helper has come, from the fork to the end. *)
Inductive stage := Forked | Asking | Inside | Leaving | Ending | Ended | Collected.

#[export] Instance stage_eq_dec : EqDecision stage.
Proof. solve_decision. Defined.

(** The helper holds the semaphore. *)
Definition holds (g : stage) : bool := match g with Inside | Leaving => true | _ => false end.
Definition steps_left (g : stage) : nat :=
  match g with Forked => 6 | Asking => 5 | Inside => 4 | Leaving => 3 | Ending => 2 | Ended => 1 | Collected => 0 end%nat.

(** Where the parent is: [m] forks or [m] waits before the end. *)
Inductive phase := Forking (m : nat) | Waiting (m : nat) | Reclaiming | Exiting | Finished.

Section helpers.
Context `{UserMachine}.
Variables (n : nat) (sem : Z).

Definition file : list Z := bytes "user/test_helper2".
Definition helper_argv : list (list Z) := [file; fmt_d sem].

(** What is left of the helper. *)
Definition helper_exit : prog Z := exit 0.
Definition helper_up : prog Z := call (CSemUp sem);; helper_exit.
Definition helper_delay : prog Z := call (CDelay 5);; helper_up.
Definition helper_down : prog Z := call (CSemDown sem);; helper_delay.

Definition stage_of (g : stage) (st : status) : Prop :=
  match g with
  | Forked => exists k, st = Running (VisF (CExec file helper_argv) k)
  | Asking => st = Running (observe helper_down)
  | Inside => st = Running (observe helper_delay)
  | Leaving => st = Running (observe helper_up)
  | Ending => st = Running (observe helper_exit)
  | Ended => st = Exited 0
  | Collected => st = Gone
  end.

(** What is left of the parent. *)
Definition fork_one (_ : Z) : prog unit :=
  res ← call CFork;
  if res =? 0 then
    call (CExec file helper_argv);;
    exit (-1)
  else if res =? -1 then exit (-1)
  else mret tt.
Definition wait_one (_ : Z) : prog unit := call CWait;; mret tt.
Definition parent_reclaim : prog Z := call (CReclaim sem);; exit 0.
Definition parent_waits (m : nat) : prog Z := times m (Z.of_nat n - Z.of_nat m) wait_one;; parent_reclaim.
Definition parent_forks (m : nat) : prog Z := times m (Z.of_nat n - Z.of_nat m) fork_one;; parent_waits n.

Definition phase_of (ph : phase) (st : status) : Prop :=
  match ph with
  | Forking m => (0 < m)%nat /\ st = Running (observe (parent_forks m))
  | Waiting m => (0 < m)%nat /\ st = Running (observe (parent_waits m))
  | Reclaiming => st = Running (observe parent_reclaim)
  | Exiting => st = Running (observe (exit 0 : prog Z))
  | Finished => st = Exited 0
  end.
(** How many helpers there are by then, and how many were collected. *)
Definition forked_by (ph : phase) : nat := match ph with Forking m => n - m | _ => n end.
Definition collected_by (ph : phase) : nat := match ph with Forking _ => 0 | Waiting m => n - m | _ => n end.

(** Work that is left: 8 steps for a fork and its helper. *)
Definition parent_left (ph : phase) : nat :=
  match ph with
  | Forking m => m * 8 + n + 3
  | Waiting m => m + 3
  | Reclaiming => 2 | Exiting => 1 | Finished => 0
  end.
End helpers.

Definition next (g : stage) : stage :=
  match g with
  | Forked => Asking | Asking => Inside | Inside => Leaving | Leaving => Ending | Ending => Ended
  | Ended | Collected => Collected
  end.
Definition one (b : bool) : nat := if b then 1 else 0.
Definition collected (g : stage) : bool := match g with Collected => true | _ => false end.

(** The processes that are between their [SemDown] and their [SemUp]. *)
Definition critical (p : proc) : bool :=
  match pr_status p with
  | Running (VisF e _) => match e with CDelay _ | CSemUp _ => true | _ => false end
  | _ => false
  end.
Definition inside (s : sys) : nat := sum_list_with (fun p => one (critical p)) (y_procs s).

(** The states in between: where the parent and the helpers are, and who holds
    the semaphore. *)
Definition helper_at (sem : Z) (p : proc) (g : stage) : Prop := pr_parent p = Some 0%nat /\ stage_of sem g (pr_status p).
Record sem_ok (v : Z) (gs : list stage) (hold : list nat) : Prop := {
  so_nodup : NoDup hold;
  so_count : length hold = sum_list_with (fun g => one (holds g)) gs;
  so_bound : zlen hold <= v;
  so_who : forall i, i ∈ hold <-> exists j g, i = S j /\ gs !! j = Some g /\ holds g = true
}.
Record sem_world (n : nat) (v sem pid0 : Z) (ph : phase) (gs : list stage) (s : sys) : Prop := {
  sw_procs : exists st hs, y_procs s = {| pr_pid := pid0; pr_parent := None; pr_status := st |} :: hs /\
    phase_of n sem ph st /\ Forall2 (helper_at sem) hs gs;
  sw_forked : length gs = forked_by n ph;
  sw_collected : sum_list_with (fun g => one (collected g)) gs = collected_by n ph;
  sw_small : match ph with Forking m | Waiting m => (m <= n)%nat | _ => True end;
  sw_sem : match ph with
           | Exiting | Finished => y_locks s = ∅
           | _ => exists hold, sem_ok v gs hold /\
               y_locks s = {[sem := {| lk_sem := true; lk_cap := v; lk_holders := hold |}]}
           end;
  sw_other : y_pipes s = ∅ /\ y_cvars s = ∅
}.
Definition left (n : nat) (ph : phase) (gs : list stage) : nat := (parent_left n ph + sum_list_with steps_left gs)%nat.

(** ** Lemmas *)

(** Sums over a list in which one element changes. *)
Lemma sum_alter {A} (h : A -> nat) f j (l : list A) x :
  l !! j = Some x -> (sum_list_with h (alter f j l) + h x = sum_list_with h l + h (f x))%nat.
Proof.
  revert j. induction l as [|y l IH]; intros [|j] Hx; try done; simpl in *.
  - injection Hx as ->. lia.
  - specialize (IH j Hx). unfold alter in IH. lia.
Qed.
Lemma sum_pos {A} (h : A -> nat) j (l : list A) x : l !! j = Some x -> (h x <= sum_list_with h l)%nat.
Proof.
  revert j. induction l as [|y l IH]; intros [|j] Hx; try done; simpl in *.
  - injection Hx as ->. lia.
  - specialize (IH j Hx). lia.
Qed.
Lemma sum_app {A} (h : A -> nat) (l k : list A) : (sum_list_with h (l ++ k) = sum_list_with h l + sum_list_with h k)%nat.
Proof. induction l; simpl; lia. Qed.

Lemma without_id i (l : list nat) : i ∉ l -> without i l = l.
Proof.
  unfold without. induction l as [|x l IH]; [done|]. intros [Hx Hl]%not_elem_of_cons. rewrite filter_cons, decide_True by done.
  f_equal. by apply IH.
Qed.
Lemma without_length i (l : list nat) : NoDup l -> i ∈ l -> (length (without i l) + 1 = length l)%nat.
Proof.
  unfold without. induction 1 as [|x l Hx Hnd IH]; [by intros ?%not_elem_of_nil|]. intros Hi. rewrite filter_cons.
  destruct (decide (x = i)) as [->|Hne].
  - rewrite decide_False by (intros ?; done). change (filter _ l) with (without i l). rewrite without_id by done. simpl. lia.
  - rewrite decide_True by done. simpl. apply elem_of_cons in Hi as [?|Hi]; [done|]. specialize (IH Hi). lia.
Qed.

Section sem_ok.
Variables (v : Z) (gs : list stage) (hold : list nat) (j : nat) (g : stage).
Hypotheses (Hok : sem_ok v gs hold) (Hg : gs !! j = Some g).

Lemma alter_who j' g' : alter next j gs !! j' = Some g' <->
  (j' = j /\ g' = next g) \/ (j' <> j /\ gs !! j' = Some g').
Proof.
  destruct (decide (j' = j)) as [->|Hne].
  - rewrite list_lookup_alter_eq, Hg. simpl. naive_solver.
  - rewrite list_lookup_alter_ne by done. naive_solver.
Qed.
Lemma sem_not_held : holds g = false -> S j ∉ hold.
Proof.
  intros Hh (j' & g' & [= <-] & Hg' & Hh')%(so_who _ _ _ Hok). rewrite Hg in Hg'. injection Hg' as <-. congruence.
Qed.
Lemma sem_held : holds g = true -> S j ∈ hold.
Proof. intros Hh. apply (so_who _ _ _ Hok). by exists j, g. Qed.

Lemma sem_keep : holds (next g) = holds g -> sem_ok v (alter next j gs) hold.
Proof.
  intros Hh. destruct Hok as [H1 H2 H3 H4]. split; [done| |done|].
  - pose proof (sum_alter (fun g => one (holds g)) next j gs g Hg) as Hs. cbv beta in Hs. rewrite Hh in Hs. lia.
  - intros i. rewrite H4. split; intros (j' & g' & -> & Hg' & Hh').
    + destruct (decide (j' = j)) as [->|Hne].
      * exists j, (next g). rewrite alter_who. split; [done|]. split; [by left|]. congruence.
      * exists j', g'. rewrite alter_who. split; [done|]. split; [by right|done].
    + apply alter_who in Hg' as [[-> ->]|[Hne Hg']]; [exists j, g; by rewrite <- Hh|by exists j', g'].
Qed.
Lemma sem_take : holds g = false -> holds (next g) = true -> zlen hold < v -> sem_ok v (alter next j gs) (S j :: hold).
Proof.
  intros Hh Hh' Hv. pose proof (sem_not_held Hh) as Hno. destruct Hok as [H1 H2 H3 H4]. split.
  - by constructor.
  - pose proof (sum_alter (fun g => one (holds g)) next j gs g Hg) as Hs. cbv beta in Hs. rewrite Hh, Hh' in Hs.
    simpl in *. lia.
  - unfold zlen in *. simpl. lia.
  - intros i. rewrite elem_of_cons, H4. split.
    + intros [->|(j' & g' & -> & Hg' & Hi)]; [exists j, (next g); rewrite alter_who; by auto|].
      exists j', g'. rewrite alter_who. split; [done|]. split; [right|done]. split; [|done]. intros ->.
      rewrite Hg in Hg'. injection Hg' as <-. congruence.
    + intros (j' & g' & -> & [[-> ->]|[Hne Hg']]%alter_who & Hi); [by left|]. right. by exists j', g'.
Qed.
Lemma sem_drop : holds g = true -> holds (next g) = false -> sem_ok v (alter next j gs) (without (S j) hold).
Proof.
  intros Hh Hh'. pose proof (sem_held Hh) as Hin. destruct Hok as [H1 H2 H3 H4].
  pose proof (without_length _ _ H1 Hin) as Hlen. split.
  - by apply NoDup_filter.
  - pose proof (sum_alter (fun g => one (holds g)) next j gs g Hg) as Hs. cbv beta in Hs. rewrite Hh, Hh' in Hs.
    simpl in *. lia.
  - unfold zlen in *. lia.
  - intros i. unfold without. rewrite list_elem_of_filter, H4. split.
    + intros (Hne & j' & g' & -> & Hg' & Hi). exists j', g'. rewrite alter_who. split; [done|]. split; [right|done].
      split; [|done]. intros ->. done.
    + intros (j' & g' & -> & [[-> ->]|[Hne Hg']]%alter_who & Hi); [congruence|]. split; [by intros [=]|]. by exists j', g'.
Qed.
End sem_ok.
Lemma sem_fork v gs hold : sem_ok v gs hold -> sem_ok v (gs ++ [Forked]) hold.
Proof.
  intros [H1 H2 H3 H4]. split; [done| |done|].
  - rewrite sum_app. simpl. lia.
  - intros i. rewrite H4. split; intros (j & g & -> & Hg & Hh); exists j, g; (split; [done|]); (split; [|done]).
    + by apply lookup_app_l_Some.
    + apply lookup_app_Some in Hg as [?|[_ Hg]]; [done|]. destruct (j - length gs)%nat; [|done]. by injection Hg as <-.
Qed.

Lemma all_collected gs j g :
  sum_list_with (fun g => one (collected g)) gs = length gs -> gs !! j = Some g -> collected g = true.
Proof.
  intros Hsum Hg. destruct (collected g) eqn:E; [done|]. exfalso.
  assert (forall l, sum_list_with (fun g => one (collected g)) l <= length l)%nat as Hle.
  { induction l as [|x l IH]; simpl; [done|]. destruct (collected x); simpl; lia. }
  apply list_elem_of_split_length in Hg as (l1 & l2 & -> & _). rewrite sum_app, length_app in Hsum.
  pose proof (Hle l1). pose proof (Hle l2). simpl in Hsum. rewrite E in Hsum. simpl in Hsum. lia.
Qed.

Section steps.
Context {um : UserMachine}.
Variables (n : nat) (v sem pid0 : Z).
Hypothesis sem_int : is_int sem = true.
#[local] Abbreviation world := (sem_world n v sem pid0).
#[local] Abbreviation sem_lock hold := {| lk_sem := true; lk_cap := v; lk_holders := hold |}.

(** The semaphore is there until the parent reclaims it. *)
Definition sem_there (ph : phase) : Prop := match ph with Exiting | Finished => False | _ => True end.

Lemma there_unless_collected ph gs s j g :
  world ph gs s -> gs !! j = Some g -> collected g = false ->
  sem_there ph /\ exists hold, sem_ok v gs hold /\ y_locks s = {[sem := sem_lock hold]}.
Proof.
  intros [_ Hf Hc _ Hs _] Hg Hn.
  assert (sem_there ph) as Hth.
  { destruct ph; try done; simpl in *; pose proof (all_collected gs j g ltac:(lia) Hg); congruence. }
  split; [done|]. by destruct ph.
Qed.

(** A helper goes on. *)
Lemma sem_world_update ph gs s s' j g st hold :
  world ph gs s -> sem_there ph -> gs !! j = Some g -> collected g = false -> collected (next g) = false ->
  stage_of sem (next g) st -> sem_ok v (alter next j gs) hold ->
  s' = set_status (S j) st (set_locks {[sem := sem_lock hold]} s) ->
  world ph (alter next j gs) s'.
Proof.
  intros [(st0 & hs & Hp & Hph & Hall) Hf Hc Hsm _ Ho] Hth Hg Hn Hn' Hst Hok ->. split.
  - exists st0, (alter (with_status st) j hs). split; [simpl; by rewrite Hp|]. split; [done|].
    eapply Forall2_alter; [exact Hall|]. intros p g' _ Hg' [Hpar _]. rewrite Hg in Hg'. injection Hg' as <-. by split.
  - by rewrite length_alter.
  - pose proof (sum_alter (fun g => one (collected g)) next j gs g Hg) as Hs. cbv beta in Hs. rewrite Hn, Hn' in Hs. lia.
  - done.
  - destruct ph; try done; by exists hold.
  - done.
Qed.

Lemma helper_starts argv : argv = helper_argv sem -> observe (test_helper2_main argv) = observe (helper_down sem).
Proof.
  intros ->. unfold test_helper2_main, helper_argv, helper_down. simpl zlen. change (negb (zlen [file; fmt_d sem] =? 2)) with false.
  change (zget [file; fmt_d sem] 1) with (Some (fmt_d sem)). cbn [defined].
  change (observe (n ← atoi (fmt_d sem); call (CSemDown n);; call (CDelay 5);; call (CSemUp n);; exit 0) = observe (helper_down sem)).
  by rewrite atoi_fmt_d by done.
Qed.

Lemma helper_step ph gs s s' j p g :
  world ph gs s -> y_procs s !! S j = Some p -> gs !! j = Some g -> step_of false (S j) p s s' ->
  world ph (alter next j gs) s' /\ (steps_left (next g) < steps_left g)%nat.
Proof.
  intros Hw Hp Hg Hs. pose proof Hw as [(st0 & hs & Hps & _ & Hall) _ _ _ _ _]. rewrite Hps in Hp.
  destruct (Forall2_lookup_lr _ _ _ _ _ _ Hall Hp Hg) as [_ Hst]. unfold step_of in Hs.
  assert (collected g = false) as Hn by (destruct g; simpl in Hst; try done; by rewrite Hst in Hs).
  destruct (there_unless_collected _ _ _ _ _ Hw Hg Hn) as [Hth (hold & Hok & Hlock)].
  assert (set_locks {[sem := sem_lock hold]} s = s) as Hsame by (rewrite <- Hlock; by destruct s).
  destruct g; simpl in Hst; try done.
  - destruct Hst as [k Hst]. rewrite Hst in Hs. destruct Hs as [[->|[? _]]|[]]; [|done]. split; [|simpl; lia].
    change (program_of file) with (Some test_helper2_main). unfold run. rewrite helper_starts by done.
    eapply sem_world_update; try done; [by eapply sem_keep|]. by rewrite Hsame.
  - rewrite Hst in Hs. destruct Hs as [[]|Hs]. unfold serve, take_lock in Hs. cbn in Hs.
    rewrite Hlock, lookup_singleton_eq in Hs. cbn in Hs.
    rewrite bool_decide_false in Hs by (intros [?|?]; [done|by eapply (sem_not_held v gs hold j Asking)]).
    destruct Hs as [Hlt ->]. split; [|simpl; lia]. rewrite insert_singleton_eq.
    eapply sem_world_update; try done. by eapply sem_take.
  - rewrite Hst in Hs. destruct Hs as [[]|Hs]. cbn in Hs. subst s'. split; [|simpl; lia].
    eapply sem_world_update; try done; [by eapply sem_keep|]. by rewrite Hsame.
  - rewrite Hst in Hs. destruct Hs as [[]|Hs]. unfold serve, give_lock in Hs. cbn in Hs.
    rewrite Hlock, lookup_singleton_eq in Hs. cbn in Hs.
    rewrite bool_decide_false in Hs by (intros [?|Hno]; [done|by apply Hno; eapply (sem_held v gs hold j Leaving)]).
    subst s'. split; [|simpl; lia]. rewrite insert_singleton_eq.
    eapply sem_world_update; try done. by eapply sem_drop.
  - rewrite Hst in Hs. destruct Hs as [->|[]]. split; [|simpl; lia].
    eapply sem_world_update; try done; [by eapply sem_keep|]. by rewrite Hsame.
  - by rewrite Hst in Hs.
Qed.

(** What can go on. *)
Lemma helper_can ph gs s j p g :
  world ph gs s -> y_procs s !! S j = Some p -> gs !! j = Some g ->
  match g with
  | Forked | Inside | Leaving | Ending => True
  | Asking => sum_list_with (fun g => one (holds g)) gs = 0%nat /\ 1 <= v
  | _ => False
  end ->
  exists s', step_of false (S j) p s s'.
Proof.
  intros Hw Hp Hg Hcan. pose proof Hw as [(st0 & hs & Hps & _ & Hall) _ _ _ _ _]. rewrite Hps in Hp.
  destruct (Forall2_lookup_lr _ _ _ _ _ _ Hall Hp Hg) as [_ Hst]. unfold step_of.
  assert (collected g = false) as Hn by by destruct g.
  destruct (there_unless_collected _ _ _ _ _ Hw Hg Hn) as [Hth (hold & Hok & Hlock)].
  destruct g; simpl in Hst; try done.
  - destruct Hst as [k ->]. eexists. left. by left.
  - rewrite Hst. destruct Hcan as [Hz Hv]. eexists. right. unfold serve, take_lock. cbn. rewrite Hlock, lookup_singleton_eq. cbn.
    rewrite bool_decide_false by (intros [?|?]; [done|by eapply (sem_not_held v gs hold j Asking)]). split; [|done].
    pose proof (so_count _ _ _ Hok). unfold zlen. lia.
  - rewrite Hst. eexists. right. cbn. done.
  - rewrite Hst. eexists. right. unfold serve, give_lock. cbn. rewrite Hlock, lookup_singleton_eq. cbn.
    rewrite bool_decide_false by (intros [?|Hno]; [done|by apply Hno; eapply (sem_held v gs hold j Leaving)]). done.
  - rewrite Hst. eexists. by left.
Qed.

(** *** The parent *)
Definition forks_left (m : nat) : phase := match m with O => match n with O => Reclaiming | _ => Waiting n end | _ => Forking m end.
Definition waits_left (m : nat) : phase := match m with O => Reclaiming | _ => Waiting m end.

Lemma times_from {A : Type} m i i' body : i = i' -> times m i body = times m i' body.
Proof. by intros ->. Qed.

Lemma forks_phase m : (m <= n)%nat -> phase_of n sem (forks_left m) (Running (observe (parent_forks n sem m))).
Proof. intros Hm. destruct m as [|m]; [|by split; [lia|]]. unfold forks_left. destruct n as [|n'] eqn:E; [done|]. by split; [lia|]. Qed.
Lemma waits_phase m : phase_of n sem (waits_left m) (Running (observe (parent_waits n sem m))).
Proof. destruct m as [|m]; [done|]. by split; [lia|]. Qed.

Lemma forked_next m pid : (m < n)%nat -> 0 < pid ->
  observe (ITree.bind (ITree.bind (ITree.bind (Ret pid) (fun res =>
      if res =? 0 then call (CExec file (helper_argv sem));; exit (-1) else if res =? -1 then exit (-1) else mret tt))
    (fun _ => times m (Z.of_nat n - Z.of_nat (S m) + 1) (fork_one sem))) (fun _ => parent_waits n sem n))
  = observe (parent_forks n sem m).
Proof.
  intros Hm Hpid. unfold parent_forks. replace (Z.of_nat n - Z.of_nat m) with (Z.of_nat n - Z.of_nat (S m) + 1) by lia.
  transitivity (observe (ITree.bind (ITree.bind (if pid =? 0 then call (CExec file (helper_argv sem));; exit (-1)
      else if pid =? -1 then exit (-1) else mret tt)
    (fun _ => times m (Z.of_nat n - Z.of_nat (S m) + 1) (fork_one sem))) (fun _ => parent_waits n sem n))); [reflexivity|].
  by rewrite !(proj2 (Z.eqb_neq _ _)) by lia.
Qed.

Lemma forked_child (more : unit -> prog unit) (rest : unit -> prog Z) : exists k,
  observe (ITree.bind (ITree.bind (ITree.bind (Ret 0) (fun res =>
      if res =? 0 then call (CExec file (helper_argv sem));; exit (-1) else if res =? -1 then exit (-1) else mret tt))
    more) rest) = VisF (CExec file (helper_argv sem)) k.
Proof.
  eexists. transitivity (observe (ITree.bind (ITree.bind (call (CExec file (helper_argv sem));; exit (-1)) more) rest)); [reflexivity|].
  unfold mbind, prog_bind. by rewrite !observe_bind, observe_call.
Qed.

(** The parent goes on. *)
Lemma parent_step ph gs s s' p :
  world ph gs s -> y_procs s !! 0%nat = Some p -> step_of false 0 p s s' ->
  exists ph' gs', world ph' gs' s' /\ (left n ph' gs' < left n ph gs)%nat.
Proof.
  intros Hw Hp Hs. pose proof Hw as [(st0 & hs & Hps & Hph & Hall) Hf Hc Hsm Hlk [Ho1 Ho2]].
  rewrite Hps in Hp. injection Hp as <-. unfold step_of in Hs. cbn [pr_status] in Hs.
  destruct ph as [m|m| | |]; simpl in Hph.
  - destruct Hph as [Hm ->]. destruct m as [|m]; [lia|].
    destruct Hs as [[(pid & Hpos & _ & ->)|[? _]]|[]]; [|done].
    exists (forks_left m), (gs ++ [Forked]). split.
    + split.
      * exists (Running (observe (parent_forks n sem m))). eexists. split; [|split].
        -- unfold add_child, run, set_status. cbn [y_procs set_procs]. rewrite Hps. cbn [alter list_alter app].
           unfold with_status. cbn [pr_pid pr_parent]. f_equal. f_equal. f_equal. apply forked_next; [lia|done].
        -- apply forks_phase. lia.
        -- apply Forall2_app; [done|]. constructor; [|constructor]. split; [done|].
           destruct (forked_child (fun _ => times m (Z.of_nat n - Z.of_nat (S m) + 1) (fork_one sem)) (fun _ => parent_waits n sem n)) as [k Hk].
           exists k. exact (f_equal Running Hk).
      * rewrite length_app, Hf. unfold forks_left. simpl. destruct m, n; simpl; lia.
      * rewrite sum_app, Hc. unfold forks_left. simpl. destruct m, n; simpl; lia.
      * unfold forks_left. destruct m, n; simpl; lia.
      * destruct Hlk as (hold & Hok & Hl). unfold forks_left.
        destruct m, n; simpl; try (by exists hold; split; [by apply sem_fork|]).
      * done.
    + unfold left. rewrite sum_app. unfold forks_left. simpl. destruct m, n; simpl; lia.
  - destruct Hph as [Hm ->]. destruct m as [|m]; [lia|].
    destruct Hs as [[]|(j & p & code & Hj & Hpar & Hst & ->)]. rewrite Hps in Hj.
    destruct j as [|j]; [by injection Hj as <-|]. cbn [lookup list_lookup] in Hj.
    destruct (Forall2_lookup_l _ _ _ _ _ Hall Hj) as (g & Hg & _ & Hgs).
    assert (g = Ended) as -> by (destruct g; simpl in Hgs; rewrite Hst in Hgs; try done; by destruct Hgs).
    exists (waits_left m), (alter next j gs). split.
    + split.
      * exists (Running (observe (parent_waits n sem m))), (alter (with_status Gone) j hs). split; [|split].
        -- unfold run, set_status. cbn [y_procs set_procs]. rewrite Hps. cbn [alter list_alter].
           unfold with_status at 1. cbn [pr_pid pr_parent]. f_equal. f_equal. f_equal. unfold parent_waits.
           by replace (Z.of_nat n - Z.of_nat m) with (Z.of_nat n - Z.of_nat (S m) + 1) by lia.
        -- apply waits_phase.
        -- eapply Forall2_alter; [exact Hall|]. intros p' g' _ Hg' [Hpar' _]. rewrite Hg in Hg'. by injection Hg' as <-.
      * rewrite length_alter, Hf. unfold waits_left. by destruct m.
      * pose proof (sum_alter (fun g => one (collected g)) next j gs Ended Hg) as Hsum. cbn in Hsum. rewrite Hc in Hsum.
        unfold waits_left. simpl in *. destruct m; simpl; lia.
      * unfold waits_left. destruct m; simpl in *; [done|lia].
      * destruct Hlk as (hold & Hok & Hl). unfold waits_left.
        destruct m; exists hold; (split; [by eapply sem_keep|done]).
      * done.
    + unfold left. pose proof (sum_alter steps_left next j gs Ended Hg) as Hsum. cbn in Hsum.
      unfold waits_left. destruct m; simpl; lia.
  - subst st0. destruct Hs as [[]|Hs]. destruct Hlk as (hold & Hok & Hl).
    assert (hold = []) as ->.
    { destruct hold as [|i hold]; [done|]. destruct (proj1 (so_who _ _ _ Hok i)) as (j & g & -> & Hg & Hh); [by left|].
      pose proof (all_collected gs j g ltac:(simpl in *; lia) Hg). by destruct g. }
    cbn in Hs. unfold reclaim in Hs. rewrite Ho1, lookup_empty, Hl, lookup_singleton_eq in Hs.
    destruct Hs as [[_ ->]|[[?|(j & p & Hj0 & Hj & Hat)] _]]; [|done|].
    + exists Exiting, gs. split; [|unfold left; simpl; lia]. split; try done.
      * eexists _, hs. split; [|by split]. unfold run, set_status. cbn. by rewrite Hps.
      * cbn. by rewrite delete_singleton_eq.
    + exfalso. rewrite Hps in Hj. destruct j as [|j]; [done|].
      destruct (Forall2_lookup_l _ _ _ _ _ Hall Hj) as (g & Hg & _ & Hgs).
      pose proof (all_collected gs j g ltac:(simpl in *; lia) Hg) as Hcg. destruct g; try done. simpl in Hgs.
      by rewrite Hgs in Hat.
  - subst st0. destruct Hs as [->|[]]. exists Finished, gs. split; [|unfold left; simpl; lia]. split; try done.
    eexists _, hs. split; [|by split]. unfold set_status. cbn. by rewrite Hps.
  - by subst st0.
Qed.

(** *** Every run ends *)

(** The parent has exited with 0, every helper is gone, and so is the semaphore. *)
Definition all_done (s : sys) : Prop :=
  exists hs, y_procs s = {| pr_pid := pid0; pr_parent := None; pr_status := Exited 0 |} :: hs /\
    length hs = n /\ Forall (fun p => pr_status p = Gone) hs /\ y_locks s = ∅.

Definition ready (g : stage) : bool := match g with Forked | Inside | Leaving | Ending => true | _ => false end.

(** While the parent waits, something can go on. *)
Lemma waiting_progress m gs s : 1 <= v -> world (Waiting m) gs s -> exists s', sstep false s s'.
Proof.
  intros Hv Hw. pose proof Hw as [(st0 & hs & Hps & [Hm Hph] & Hall) Hf Hc Hsm _ _]. simpl in Hf, Hc, Hsm.
  destruct (decide (Exists (fun g => ready g = true) gs)) as [Hr|Hr].
  { apply Exists_exists in Hr as (g & [j Hj]%list_elem_of_lookup & Hr).
    destruct (Forall2_lookup_r _ _ _ _ _ Hall Hj) as (p & Hp & _). assert (y_procs s !! S j = Some p) as Hp' by by rewrite Hps.
    destruct (helper_can _ _ _ _ _ _ Hw Hp' Hj) as [s' Hs]; [by destruct g|]. by exists s', (S j), p. }
  apply not_Exists_Forall in Hr; [|intros ?; apply _]. rewrite Forall_lookup in Hr.
  destruct (decide (Exists (fun g => g = Ended) gs)) as [He|He].
  { apply Exists_exists in He as (g & [j Hj]%list_elem_of_lookup & ->).
    destruct (Forall2_lookup_r _ _ _ _ _ Hall Hj) as (p & Hp & Hpar & Hst). destruct m as [|m]; [lia|].
    eexists _, 0%nat, _. split; [by rewrite Hps|]. unfold step_of. cbn [pr_status]. rewrite Hph. right.
    exists (S j), p, 0. rewrite Hps. by split_and!. }
  apply not_Exists_Forall in He; [|intros ?; apply _]. rewrite Forall_lookup in He.
  assert (sum_list_with (fun g => one (holds g)) gs = 0%nat) as Hz.
  { assert (forall l, (forall j g, l !! j = Some g -> ready g <> true) -> sum_list_with (fun g => one (holds g)) l = 0%nat) as Hl.
    { induction l as [|g l IH]; intros Hl; [done|]. simpl. rewrite IH by (intros j; apply (Hl (S j))).
      specialize (Hl 0%nat g eq_refl). by destruct g. }
    by apply Hl. }
  destruct (decide (Exists (fun g => g = Asking) gs)) as [Ha|Ha].
  { apply Exists_exists in Ha as (g & [j Hj]%list_elem_of_lookup & ->).
    destruct (Forall2_lookup_r _ _ _ _ _ Hall Hj) as (p & Hp & _). assert (y_procs s !! S j = Some p) as Hp' by by rewrite Hps.
    destruct (helper_can _ _ _ _ _ _ Hw Hp' Hj) as [s' Hs]; [done|]. by exists s', (S j), p. }
  apply not_Exists_Forall in Ha; [|intros ?; apply _]. rewrite Forall_lookup in Ha. exfalso.
  assert (forall l, (forall j g, l !! j = Some g -> ready g <> true /\ g <> Ended /\ g <> Asking) ->
    sum_list_with (fun g => one (collected g)) l = length l) as Hl.
  { induction l as [|g l IH]; intros Hl; [done|]. simpl. rewrite IH by (intros j; apply (Hl (S j))).
    specialize (Hl 0%nat g eq_refl). destruct g; naive_solver. }
  rewrite Hl in Hc; [lia|]. intros j g Hj. split_and!; [by eapply Hr|by eapply He|by eapply Ha].
Qed.

Lemma world_progress ph gs s : 1 <= v -> world ph gs s -> ph <> Finished -> exists s', sstep false s s'.
Proof.
  intros Hv Hw Hph. destruct ph as [m|m| | |]; [| by eapply waiting_progress | | |done].
  all: destruct Hw as [(st0 & hs & Hps & Hst & Hall) Hf Hc Hsm Hlk [Ho1 Ho2]]; simpl in *.
  all: eenough (exists s', step_of false 0 _ s s') as [s' Hs]; [exists s', 0%nat; eexists; rewrite Hps; split; [done|exact Hs]|];
    unfold step_of; cbn [pr_status].
  - destruct Hst as [Hm ->]. destruct m as [|m]; [lia|].
    assert (forall l : list proc, exists pid, 0 < pid /\ Forall (fun p => pr_pid p < pid) l) as Hfresh.
    { induction l as [|p l (pid & H1 & H2)]; [by exists 1|]. exists (Z.max pid (pr_pid p + 1)). split; [lia|].
      constructor; [lia|]. eapply Forall_impl; [exact H2|]. simpl. lia. }
    destruct (Hfresh (y_procs s)) as (pid & H1 & H2). eexists. left. left. exists pid. split; [done|]. split; [|done].
    eapply Forall_impl; [exact H2|]. simpl. lia.
  - subst st0. destruct Hlk as (hold & Hok & Hl). eexists. right. cbn. unfold reclaim.
    rewrite Ho1, lookup_empty, Hl, lookup_singleton_eq. cbn. destruct hold as [|i hold]; [by left|].
    destruct (proj1 (so_who _ _ _ Hok i)) as (j & g & -> & Hg & Hh); [by left|].
    pose proof (all_collected gs j g ltac:(lia) Hg). by destruct g.
  - subst st0. eexists. by left.
Qed.

(** Every step leads to another such state, with less left to do. *)
Lemma world_step ph gs s s' : world ph gs s -> sstep false s s' ->
  exists ph' gs', world ph' gs' s' /\ (left n ph' gs' < left n ph gs)%nat.
Proof.
  intros Hw ([|j] & p & Hp & Hs); [by eapply parent_step|].
  pose proof Hw as [(st0 & hs & Hps & _ & Hall) _ _ _ _ _]. pose proof Hp as Hp'. rewrite Hps in Hp.
  destruct (Forall2_lookup_l _ _ _ _ _ Hall Hp) as (g & Hg & _).
  destruct (helper_step _ _ _ _ _ _ _ Hw Hp' Hg Hs) as [Hw' Hlt]. exists ph, (alter next j gs). split; [done|].
  unfold left. pose proof (sum_alter steps_left next j gs g Hg). lia.
Qed.

Lemma world_surely ph gs s : 1 <= v -> world ph gs s -> surely false all_done s.
Proof.
  intros Hv. remember (left n ph gs) as k eqn:Ek. revert ph gs s Ek.
  induction (lt_wf k) as [k _ IH]. intros ph gs s -> Hw.
  destruct ph; try (apply surely_step; [by eapply world_progress|]; intros s' Hs;
    destruct (world_step _ _ _ _ Hw Hs) as (ph' & gs' & Hw' & Hlt); by eapply IH).
  pose proof Hw as [(st0 & hs & Hps & Hst & Hall) Hf Hc _ Hl _]. simpl in *. subst st0.
  assert (Forall (fun p => pr_status p = Gone) hs) as Hgone.
  { apply Forall_lookup. intros j p Hp. destruct (Forall2_lookup_l _ _ _ _ _ Hall Hp) as (g & Hg & _ & Hgs).
    pose proof (all_collected gs j g ltac:(lia) Hg). by destruct g. }
  apply surely_now.
  - exists hs. split; [done|]. split; [|done]. apply Forall2_length in Hall. lia.
  - intros s' ([|j] & p & Hp & Hs); rewrite Hps in Hp; [by injection Hp as <-|].
    rewrite Forall_lookup in Hgone. cbn in Hp. unfold step_of in Hs. by rewrite (Hgone _ _ Hp) in Hs.
Qed.

(** No more helpers are inside than the semaphore allows. *)
Lemma world_inside ph gs s : 0 <= v -> world ph gs s -> Z.of_nat (inside s) <= v.
Proof.
  intros Hv [(st0 & hs & Hps & Hst & Hall) Hf Hc _ Hlk _]. unfold inside. rewrite Hps. cbn [sum_list_with].
  assert (critical {| pr_pid := pid0; pr_parent := None; pr_status := st0 |} = false) as ->.
  { destruct ph as [[|m]|[|m]| | |]; simpl in Hst; try lia; try (by rewrite Hst); by destruct Hst as [_ ->]. }
  assert (sum_list_with (fun p => one (critical p)) hs = sum_list_with (fun g => one (holds g)) gs) as ->.
  { clear Hf Hc Hlk Hps. induction Hall as [|p g hs gs [_ Hg] Hall IH]; [done|]. cbn [sum_list_with]. rewrite IH. f_equal. f_equal.
    unfold critical. destruct g; simpl in Hg; try (by rewrite Hg). by destruct Hg as [k ->]. }
  simpl. assert (sem_there ph \/ ~ sem_there ph) as [Hth|Hth] by (destruct ph; simpl; tauto).
  - assert (exists hold, sem_ok v gs hold) as [hold Hok] by (destruct ph; try done; destruct Hlk as (hold & ? & _); by exists hold).
    pose proof (so_count _ _ _ Hok). pose proof (so_bound _ _ _ Hok). unfold zlen in *. lia.
  - assert (sum_list_with (fun g => one (holds g)) gs = 0%nat) as ->; [|lia].
    assert (forall l, sum_list_with (fun g => one (collected g)) l = length l -> sum_list_with (fun g => one (holds g)) l = 0%nat) as Hl.
    { induction l as [|g l IH]; intros Hl; [done|].
      pose proof (all_collected (g :: l) 0 g Hl eq_refl) as Hg. destruct g; try done. simpl in *. apply IH. lia. }
    apply Hl. destruct ph; try done; simpl in *; congruence.
Qed.
End steps.

(** *** The start of the test *)
Section start.
Context {um : UserMachine}.
Variables (n : nat) (v pid0 : Z) (name : list Z).
Hypotheses (Hn : Z.of_nat n <= INT_MAX) (Hv : 1 <= v) (Hvi : is_int v = true).
#[local] Abbreviation argv := [name; fmt_d (Z.of_nat n); fmt_d v].
#[local] Abbreviation parent st := {| pr_pid := pid0; pr_parent := None; pr_status := st |}.
#[local] Abbreviation sem_lock := {| lk_sem := true; lk_cap := v; lk_holders := [] |}.

(** [test2] from its [sprintf], from its [calloc], and from its [SemInit] on. *)
Definition from_arg (num_procs sem_id : Z) : prog Z :=
  arg ← sprintf 100 (fmt_d sem_id);
  for_user 0 num_procs (fun _ =>
    res ← call CFork;
    if res =? 0 then
      call (CExec (bytes "user/test_helper2") [bytes "user/test_helper2"; arg]);;
      exit (-1)
    else if res =? -1 then exit (-1)
    else mret tt);;
  for_user 0 num_procs (fun _ => call CWait;; mret tt);;
  call (CReclaim sem_id);;
  exit 0.
Definition from_alloc (num_procs sem_id : Z) : prog Z := alloc 100;; from_arg num_procs sem_id.
Definition from_numbers (num_procs sem_val : Z) : prog Z :=
  '(_, sem_id) ← call (CSemInit sem_val); from_alloc num_procs sem_id.
Lemma starts_with_init : observe (test2_main argv) = observe (from_numbers (Z.of_nat n) v).
Proof.
  change (observe (num_procs ← atoi (fmt_d (Z.of_nat n)); a2 ← defined (zget argv 2); sem_val ← atoi a2;
    from_numbers num_procs sem_val) = observe (from_numbers (Z.of_nat n) v)).
  assert (is_int (Z.of_nat n) = true) as Hni by (unfold is_int, INT_MAX in *; lia).
  rewrite atoi_fmt_d by done.
  change (observe (sem_val ← atoi (fmt_d v); from_numbers (Z.of_nat n) sem_val) = observe (from_numbers (Z.of_nat n) v)).
  by rewrite atoi_fmt_d.
Qed.

(** The state when the semaphore was created, and when the forks begin. *)
Definition sem_created (sem : Z) (o : itree' callE Z) : sys :=
  {| y_procs := [parent (Running o)]; y_pipes := ∅; y_locks := {[sem := sem_lock]}; y_cvars := ∅ |}.

Lemma forks_world sem : is_int sem = true ->
  sem_world n v sem pid0 (forks_left n n) [] (sem_created sem (observe (parent_forks n sem n))).
Proof.
  intros Hs. split.
  - eexists _, []. split; [done|]. split; [by apply forks_phase|constructor].
  - unfold forks_left. by destruct n; simpl; [|lia].
  - unfold forks_left. by destruct n; simpl; [|lia].
  - unfold forks_left. by destruct n; simpl; [|lia].
  - assert (sem_ok v [] []) as Hok.
    { split; [constructor|done|unfold zlen; simpl; lia|]. intros i. split; [by intros ?%not_elem_of_nil|].
      by intros (j & g & _ & Hg & _). }
    unfold forks_left. destruct n; simpl; by exists [].
  - done.
Qed.

Lemma allocated_next sem p : p <> 0 ->
  observe (ITree.bind (ITree.bind (Ret p) (fun p => if p =? 0 then undefined else mret p))
    (fun _ => from_arg (Z.of_nat n) sem)) = observe (parent_forks n sem n).
Proof.
  intros Hp. pose proof (fmt_d_len sem). unfold parent_forks, parent_waits. rewrite Z.sub_diag.
  transitivity (observe (ITree.bind (if p =? 0 then undefined else mret p) (fun _ => from_arg (Z.of_nat n) sem))); [reflexivity|].
  rewrite (proj2 (Z.eqb_neq _ _)) by done. unfold from_arg, sprintf. rewrite (proj2 (Z.ltb_lt _ _)) by lia.
  unfold for_user. by rewrite Z.sub_0_r, Nat2Z.id.
Qed.

(** What the first two steps lead to. *)
Lemma first_step s' : sstep false (boot pid0 (test2_main argv)) s' ->
  exists sem, is_int sem = true /\ s' = sem_created sem (observe (from_alloc (Z.of_nat n) sem)).
Proof.
  unfold boot. rewrite starts_with_init. intros ([|j] & p & Hp & Hs); [|done]. injection Hp as <-.
  destruct Hs as [[]|Hs]. unfold serve in Hs. rewrite (proj2 (Z.ltb_ge _ _)) in Hs by done.
  destruct Hs as [(sem & [Hi _] & ->)|[? _]]; [|done]. exists sem. split; [done|]. unfold run, set_status, set_locks, set_procs. cbn [y_locks].
  by rewrite insert_empty.
Qed.
Lemma second_step sem s' : is_int sem = true -> sstep false (sem_created sem (observe (from_alloc (Z.of_nat n) sem))) s' ->
  sem_world n v sem pid0 (forks_left n n) [] s'.
Proof.
  intros Hs ([|j] & p & Hp & Hstep); [|done]. injection Hp as <-.
  destruct Hstep as [[]|(a & [?|Ha] & ->)]; [done|]. pose proof (forks_world sem Hs) as Hw.
  rewrite <- (allocated_next sem a Ha) in Hw. exact Hw.
Qed.
End start.

(** ** Properties *)

(** C6: [test2], started with the numbers [n] and [v] (both [int]s, [v]
    positive), under every schedule of itself and its [n] helpers on a kernel
    that does not run out of memory: every run is finite and ends with [test2]
    having exited with 0, all helpers collected and the semaphore reclaimed; and
    at no time are more than [v] helpers between their [SemDown] and their
    [SemUp]. *)
Theorem semaphore_test {um : UserMachine} (n : nat) (v pid0 : Z) (name : list Z) :
  Z.of_nat n <= INT_MAX -> 1 <= v -> is_int v = true ->
  let start := boot pid0 (test2_main [name; fmt_d (Z.of_nat n); fmt_d v]) in
  surely false (all_done n pid0) start /\ forall s, rtc (sstep false) start s -> Z.of_nat (inside s) <= v.
Proof.
  intros Hn Hv Hvi start. split.
  - apply surely_step.
    + eexists _, 0%nat, _. split; [done|]. unfold step_of. cbn [pr_status]. rewrite starts_with_init by done.
      right. unfold serve. rewrite (proj2 (Z.ltb_ge _ _)) by done. left. exists 0. by split.
    + intros s1 (sem & Hs & ->)%first_step; try done. apply surely_step.
      * eexists _, 0%nat, _. split; [done|]. right. exists 1. split; [by right|done].
      * intros s2 Hw%second_step; try done. by eapply world_surely.
  - intros s Hr. inversion Hr as [|? s1 ? H1 Hr1]; subst.
    { assert (inside start = 0%nat) as ->; [|lia]. unfold inside, start, boot. by rewrite starts_with_init. }
    apply first_step in H1 as (sem & Hs & ->); try done. inversion Hr1 as [|? s2 ? H2 Hr2]; subst.
    { match goal with |- Z.of_nat ?x <= _ => change x with 0%nat end. lia. }
    apply second_step in H2; try done.
    assert (exists ph gs, sem_world n v sem pid0 ph gs s) as (ph & gs & Hw).
    { clear Hr Hr1. revert H2. generalize (forks_left n n), (@nil stage). induction Hr2 as [|x y z Hxy _ IH]; intros ph gs Hw; [by exists ph, gs|].
      destruct (world_step n v sem pid0 Hs _ _ _ _ Hw Hxy) as (ph' & gs' & Hw' & _). by eapply IH. }
    eapply world_inside; [|exact Hw]. lia.
Qed.

Lemma semaphore_test_witness :
  @surely demo_programs false (all_done 3 1) (@boot 1 (test2_main [bytes "user/test2"; fmt_d 3; fmt_d 2])).
Proof. exact (proj1 (@semaphore_test demo_programs 3 2 1 (bytes "user/test2") ltac:(done) ltac:(done) eq_refl)). Defined.
