(* ===== verification/KernelPipes.v ===== *)
(** * The pipes of the kernel are the queues of bytes its programs see

    [UserSystem] tells what a program may rely on when it calls the kernel.  For
    the calls on pipes this is shown here of the kernel itself: what
    [KernelPipeInit], [KernelPipeWrite], [KernelPipeRead] and [KernelReclaim] do
    to the whole state of the kernel ([PipeWorld]) is an answer of
    [UserSystem.serve] to the same call, and a call that waits in the kernel is
    one that cannot be answered yet. *)

From S2P Require Import Prelude Machine Tables Pcb FrameTracking Paging KernelMemory UserMemory Fifo SleepHeap Scheduler Identifiers PipeBuffer PipeTable Locks Terminals Kernel DemoKernel Switching PipeCalls TtyCalls Synchronization LoadProgram Syscalls UserBuffers PipeWorld UserLib UserSystem.
Open Scope Z_scope.

(** ** Definitions *)

(** The table [t] of the kernel shows the pipes of [σ]: a handle of a pipe in use
    names the bytes in its buffer, and every other handle names no pipe. *)
Record shown (t : pipes_t) (σ : sys) : Prop := {
  sh_pipe id : is_int id = true -> IS_PIPE_ID id = true ->
    match pipe_of t (GET_ID id) with
    | Some p => exists q, y_pipes σ !! id = Some q /\ pipe_repr p q
    | None => y_pipes σ !! id = None
    end;
  sh_kind id : is_Some (y_pipes σ !! id) -> is_int id = true /\ IS_PIPE_ID id = true;
  sh_others id : is_Some (y_locks σ !! id) \/ id ∈ y_cvars σ -> IS_PIPE_ID id = false
}.

(** The read of [len] bytes from the pipe [id] into [buf] was answered. *)
Definition read_answered `{Machine} (p : addr) (tb : list pte) (buf id len : Z) (j : nat) (σ : sys)
    (s' : kstate) : Prop :=
  exists got σ', answers true j σ (CPipeRead id len) (zlen got, got) σ' /\ shown (k_pipes s') σ' /\
    result_is (k_store s') p (zlen got) /\
    forall k, 0 <= k < zlen got -> byte_in tb (k_mem s') (buf + k) = zget got k.

(** ** Lemmas *)

(** A handle of a pipe is made of its index. *)
Lemma pipe_handle id : is_int id = true -> IS_PIPE_ID id = true -> id = 2 ^ 30 + GET_ID id /\ 0 <= GET_ID id < 2 ^ 30.
Proof.
  unfold is_int, IS_PIPE_ID, GET_ID, FLAG_SHIFT, PIPE_FLAG, INT_MAX. intros Hi. rewrite Z.eqb_eq, Z.shiftr_div_pow2 by lia.
  rewrite land_id_mask. unfold to_u32. intros Hp.
  assert (0 <= id) as H0.
  { destruct (Z.leb_spec 0 id); [done|]. rewrite <- (Z_mod_plus_full id 1), Z.mod_small in Hp by lia.
    pose proof (Z.div_mod (id + 1 * 4294967296) (2 ^ 30) ltac:(lia)).
    pose proof (Z.mod_pos_bound (id + 1 * 4294967296) (2 ^ 30) ltac:(lia)). lia. }
  rewrite (Z.mod_small id) in Hp |- * by lia. pose proof (Z.div_mod id (2 ^ 30) ltac:(lia)).
  pose proof (Z.mod_pos_bound id (2 ^ 30) ltac:(lia)). lia.
Qed.
Lemma pipe_handle_inj id id' :
  is_int id = true -> IS_PIPE_ID id = true -> is_int id' = true -> IS_PIPE_ID id' = true ->
  GET_ID id = GET_ID id' -> id = id'.
Proof. intros H1 H2 H3 H4 E. pose proof (pipe_handle id H1 H2). pose proof (pipe_handle id' H3 H4). lia. Qed.
Lemma made_handle r : 0 <= r < 2 ^ 30 ->
  let id := CREATE_ID PIPE_FLAG r in is_int id = true /\ IS_PIPE_ID id = true /\ GET_ID id = r.
Proof.
  intros Hr. cbv zeta. pose proof (id_kind PIPE_FLAG r ltac:(done) Hr) as Hk.
  pose proof (id_index PIPE_FLAG r ltac:(done) Hr) as Hg.
  unfold IS_PIPE_ID, GET_ID in *. rewrite to_u32_i32 in *. rewrite Hk, Hg. split; [|done].
  rewrite create_id_sum by done. unfold is_int, INT_MAX, PIPE_FLAG. lia.
Qed.

(** A buffer holds one queue. *)
Lemma pipe_repr_unique p q q' : pipe_repr p q -> pipe_repr p q' -> q = q'.
Proof.
  intros H H'. assert (length q = length q') as Hlen.
  { pose proof (pr_len _ _ H). pose proof (pr_len _ _ H'). unfold zlen in *. lia. }
  apply list_eq_same_length with (length q); [done|done|]. intros i x y Hi Hx Hy.
  pose proof (pr_bytes _ _ H (Z.of_nat i) x) as Hb. pose proof (pr_bytes _ _ H' (Z.of_nat i) y) as Hb'.
  rewrite zget_nat in Hb, Hb'. specialize (Hb Hx). specialize (Hb' Hy). congruence.
Qed.

Lemma shown_here t σ id p q : shown t σ -> is_int id = true -> IS_PIPE_ID id = true ->
  pipe_of t (GET_ID id) = Some p -> pipe_repr p q -> y_pipes σ !! id = Some q.
Proof.
  intros Hsh Hi Hid Hp Hr. pose proof (sh_pipe _ _ Hsh id Hi Hid) as H. rewrite Hp in H.
  destruct H as (q' & Hq & Hr'). by rewrite Hq, (pipe_repr_unique p q' q).
Qed.

(** The pipe [id] changed, or is new, and nothing else did. *)
Lemma shown_update t t' σ id p q :
  shown t σ -> is_int id = true -> IS_PIPE_ID id = true ->
  pipe_of t' (GET_ID id) = Some p -> pipe_repr p q -> (forall i, i <> GET_ID id -> pipe_of t' i = pipe_of t i) ->
  shown t' (set_pipes (<[id := q]> (y_pipes σ)) σ).
Proof.
  intros Hsh Hi Hid Hp Hr Hrest. split; simpl; [| |by apply (sh_others t)].
  - intros id' Hi' Hid'. destruct (decide (id' = id)) as [->|Hne].
    + rewrite Hp, lookup_insert_eq. by exists q.
    + rewrite lookup_insert_ne by done. rewrite Hrest; [by apply (sh_pipe _ _ Hsh)|].
      intros E. by apply Hne, pipe_handle_inj.
  - intros id'. destruct (decide (id' = id)) as [->|Hne]; [done|]. rewrite lookup_insert_ne by done. apply (sh_kind _ _ Hsh).
Qed.
Lemma shown_delete t t' σ id :
  shown t σ -> is_int id = true -> IS_PIPE_ID id = true ->
  pipe_of t' (GET_ID id) = None -> (forall i, i <> GET_ID id -> pipe_of t' i = pipe_of t i) ->
  shown t' (set_pipes (delete id (y_pipes σ)) σ).
Proof.
  intros Hsh Hi Hid Hp Hrest. split; simpl; [| |by apply (sh_others t)].
  - intros id' Hi' Hid'. destruct (decide (id' = id)) as [->|Hne].
    + by rewrite Hp, lookup_delete_eq.
    + rewrite lookup_delete_ne by done. rewrite Hrest; [by apply (sh_pipe _ _ Hsh)|].
      intros E. by apply Hne, pipe_handle_inj.
  - intros id' [x Hx]. apply lookup_delete_Some in Hx as [_ Hx]. by apply (sh_kind _ _ Hsh).
Qed.
(** Only the contents of the pipes in use matter. *)
Lemma shown_same t t' σ : shown t σ -> (forall i, pipe_of t' i = pipe_of t i) -> shown t' σ.
Proof.
  intros Hsh Hp. split; [|apply (sh_kind _ _ Hsh)|apply (sh_others _ _ Hsh)]. intros id. rewrite Hp. apply (sh_pipe _ _ Hsh).
Qed.
Lemma shown_repr t t' σ id p q :
  shown t σ -> is_int id = true -> IS_PIPE_ID id = true -> y_pipes σ !! id = Some q ->
  pipe_of t' (GET_ID id) = Some p -> pipe_repr p q -> (forall i, i <> GET_ID id -> pipe_of t' i = pipe_of t i) ->
  shown t' σ.
Proof.
  intros Hsh Hi Hid Hq Hp Hr Hrest. pose proof (shown_update t t' σ id p q Hsh Hi Hid Hp Hr Hrest) as H.
  by rewrite insert_id in H by done; destruct σ.
Qed.

Lemma reg0_is_int u : is_int (reg0_int u) = true.
Proof.
  unfold is_int, reg0_int, to_i32, INT_MAX.
  pose proof (Z.mod_pos_bound (uc_reg0 u + 2147483648) 4294967296 ltac:(lia)). lia.
Qed.

Section calls.
Context {hw : Machine} {hw_ok : MachineOk}.

(** *** [KernelPipeInit] *)

(** The user's word at [ptr] holds [v]. *)
Definition word_stored (tb : list pte) (m : mstate) (ptr v : Z) : Prop :=
  forall k, 0 <= k < 4 -> byte_in tb m (ptr + k) = zget (le_bytes v) k.

Lemma store_result s c tb uc st sc t b ptr v (Q : unit -> kstate -> Prop) :
  user_ok (k_mem s) c tb -> st_pcbs st = st_pcbs (k_store s) -> st_pcbs st !! uc = Some b ->
  (forall k, 0 <= k < 4 -> accessible tb (ptr + k) true) ->
  (forall s', k_pipes s' = t -> result_is (k_store s') uc SUCCESS -> word_stored tb (k_mem s') ptr v -> Q tt s') ->
  wp (zoom (user_write_int ptr v);; set_reg0 uc SUCCESS) Q (kp s st sc t).
Proof.
  intros Hu Hst Hb Hacc HQ.
  destruct (copy_to_user_ok c tb (le_bytes v) _ ptr (user_ok_blocks s c tb st Hu Hst)) as (m & Hcopy & Hm); [done|].
  wp_step. wp_step. unfold wp at 1, user_write_int. change (lget _) with (set_m_store st (k_mem s)). rewrite Hcopy.
  change (lset _ _) with (kp (with_memory m s) st sc t). eapply set_reg0_kp; [exact Hb|]. apply HQ; [done| |].
  - unfold result_is. simpl. by rewrite lookup_insert_eq.
  - intros k Hk.
    pose proof (byte_in_written (m_frames (k_mem s)) tb (le_bytes v) ptr (k_mem s) k (m_pmem (k_mem s))
      (uo_ok _ _ _ Hu) Hacc Hk) as E. etrans; [|exact E]. unfold byte_in.
    destruct (location tb (ptr + k)) as [[f o]|]; [|done]. simpl. f_equal. apply Hm.
Qed.

Lemma pipe_init_answers s c tb uc b σ j :
  user_ok (k_mem s) c tb -> pipes_ok (k_pipes s) -> zlen (pipes (k_pipes s)) < 2 ^ 30 -> shown (k_pipes s) σ ->
  st_pcbs (k_store s) !! uc = Some b -> uc_reg0 (p_uc b) <> 0 ->
  (forall k, 0 <= k < 4 -> accessible tb (uc_reg0 (p_uc b) + k) true) ->
  exists s' r id σ', KernelPipeInit uc s = Some (tt, s') /\ answers true j σ CPipeInit (r, id) σ' /\
    shown (k_pipes s') σ' /\ result_is (k_store s') uc r /\
    (r = SUCCESS -> word_stored tb (k_mem s') (uc_reg0 (p_uc b)) id).
Proof.
  intros Hu Hok Hn Hsh Hb Hptr Hacc.
  assert (wp (KernelPipeInit uc) (fun _ s' => exists r id σ', answers true j σ CPipeInit (r, id) σ' /\
    shown (k_pipes s') σ' /\ result_is (k_store s') uc r /\
    (r = SUCCESS -> word_stored tb (k_mem s') (uc_reg0 (p_uc b)) id)) s) as ([] & s' & Hrun & r & id & σ' & Hres)%wp_run.
  2: { by exists s', r, id, σ'. }
  unfold KernelPipeInit, PipeInit_Impl. rewrite <- (kp_same s) at 1. wp_step. eapply get_uc_kp; [exact Hb|].
  rewrite (proj2 (Z.eqb_neq _ _)) by done. wp_step. apply wp_kp.
  eapply wp_mono; [exact (new_pipe_ok (k_store s, k_sched s) (k_pipes s) Hok)|].
  intros r [[st' sc'] t'] ((Hblocks & _ & _) & _ & Hok' & Hmade). cbn [fst snd] in *.
  assert (st_pcbs st' !! uc = Some b) as Hb' by (by rewrite Hblocks).
  destruct Hmade as [[-> Hsame]|(Hr & Hfree & Hbelow & Hsame)].
  - change (ERROR =? ERROR) with true. cbv iota. eapply set_reg0_kp; [exact Hb'|]. exists (-1), 0, σ.
    split; [right; split; [done|]; by exists 0|]. split; [by eapply shown_same|]. split; [|done].
    unfold result_is. simpl. by rewrite lookup_insert_eq.
  - change ERROR with (-1). rewrite (proj2 (Z.eqb_neq r (-1))) by lia.
    assert (r < 2 ^ 30) as Hr30.
    { destruct (Z.leb_spec r (zlen (pipes (k_pipes s)))); [lia|].
      destruct (Hbelow (zlen (pipes (k_pipes s)))) as [x Hx]; [pose proof (zlen_nonneg (pipes (k_pipes s))); lia|].
      apply used_range in Hx. lia. }
    destruct (made_handle r ltac:(done)) as (Hi & Hid & Hget). set (id := CREATE_ID PIPE_FLAG r) in *.
    assert (fresh_handle id σ) as Hfresh.
    { split; [done|]. pose proof (sh_pipe _ _ Hsh id Hi Hid) as H. rewrite Hget, Hfree in H. split; [done|].
      pose proof (sh_others _ _ Hsh id) as Ho. rewrite Hid in Ho.
      split; [|intros Hin; by specialize (Ho (or_intror Hin))].
      destruct (y_locks σ !! id) as [k|] eqn:E; [|done]. by specialize (Ho (or_introl (ex_intro _ k eq_refl))). }
    eapply store_result; [done|done|done|done|]. intros s' Hp' Hres Hw.
    exists 0, id, (set_pipes (<[id := []]> (y_pipes σ)) σ). split; [left; by exists id|]. split; [|by split].
    rewrite Hp'. apply (shown_update (k_pipes s) _ _ _ fresh_pipe); [done|done|done| |apply fresh_pipe_repr|].
    + rewrite Hget, Hsame. by rewrite decide_True.
    + intros i Hne. rewrite Hget in Hne. by rewrite Hsame, decide_False.
Qed.

(** *** [KernelPipeWrite] *)
Lemma pipe_write_answers s c tb uc b i bytes L R Wt S σ j :
  let u := p_uc b in
  user_ok (k_mem s) c tb -> pipe_world i bytes L R Wt S (k_store s) (k_sched s) (k_pipes s) -> shown (k_pipes s) σ ->
  st_pcbs (k_store s) !! uc = Some b -> uc ∉ L -> IS_PIPE_ID (reg0_int u) = true -> GET_ID (reg0_int u) = i ->
  0 <= uc_reg1 u < 4294967296 -> 0 < reg2_int u -> good_buffer tb u false ->
  exists s' r new σ', KernelPipeWrite uc s = Some (Returned, s') /\ zlen new = reg2_int u /\
    (forall k, 0 <= k < reg2_int u -> zget new k = byte_in tb (k_mem s) (uc_reg1 u + k)) /\
    answers true j σ (CPipeWrite (reg0_int u) new) r σ' /\ shown (k_pipes s') σ' /\ result_is (k_store s') uc r.
Proof.
  intros u Hu Hw Hsh Hb HucL Hid Hget Hreg Hlen Hgood. pose proof Hgood as [Hnz Hacc].
  pose proof (reg0_is_int u) as Hi. pose proof Hw as [_ (p & Hp & Hr & _) _ _ _].
  assert (y_pipes σ !! reg0_int u = Some bytes) as Hq by (eapply shown_here; [done..|by rewrite Hget|done]).
  destruct (copy_from_user_ok _ c tb false (Z.to_nat (reg2_int u)) (uc_reg1 u) Hu) as (old & _ & Holen & Hold).
  { intros k Hk. apply (checked_accessible _ _ (reg2_int u)); [done|exact Hacc|lia]. }
  assert (wp (KernelPipeWrite uc) (fun f s' => f = Returned /\ exists r new σ', zlen new = reg2_int u /\
    (forall k, 0 <= k < reg2_int u -> zget new k = byte_in tb (k_mem s) (uc_reg1 u + k)) /\
    answers true j σ (CPipeWrite (reg0_int u) new) r σ' /\ shown (k_pipes s') σ' /\ result_is (k_store s') uc r) s)
    as (f & s' & Hrun & -> & r & new & σ' & Hres)%wp_run; [|by exists s', r, new, σ'].
  unfold KernelPipeWrite. eapply with_buffer_ok; [done|done|intros _|done]. fold u. unfold returning. wp_step.
  eapply wp_mono; [eapply (PipeWrite_Impl_ok s c tb uc b i bytes L R Wt S); try done; by apply checked_accessible|].
  intros [] ? (st' & sc' & t' & -> & Hrest & Hwr). wp_step. split; [done|].
  destruct Hwr as [[Hres [_ (p' & Hp' & Hr' & _) _ _ _]]|(new & Hnl & Hnew & Hres & [_ (p' & Hp' & Hr' & _) _ _ _] & _)].
  - exists (-1), old, σ. split; [unfold zlen; rewrite Holen; lia|]. split.
    { intros k Hk. rewrite Z2Nat.id in Hold by lia. by apply Hold. }
    split; [unfold answers; cbn; rewrite Hq; by right|]. split; [|done].
    eapply (shown_repr (k_pipes s)); [done|done|done|done|rewrite Hget; exact Hp'|done|by rewrite Hget].
  - exists (reg2_int u), new, (set_pipes (<[reg0_int u := bytes ++ new]> (y_pipes σ)) σ).
    split; [done|]. split; [done|]. split; [unfold answers; cbn; rewrite Hq, Hnl; by left|]. split; [|done].
    eapply (shown_update (k_pipes s)); [done|done|done|rewrite Hget; exact Hp'|done|by rewrite Hget].
Qed.

(** *** [KernelPipeRead] *)
Lemma pipe_loop_answers s c tb uc b i bytes L R Wt S σ j id buf len :
  user_ok (k_mem s) c tb -> pipe_world i bytes L R Wt S (k_store s) (k_sched s) (k_pipes s) -> shown (k_pipes s) σ ->
  st_pcbs (k_store s) !! uc = Some b -> bytes <> [] -> is_int id = true -> IS_PIPE_ID id = true -> GET_ID id = i ->
  0 < len -> (forall k, 0 <= k < len -> accessible tb (buf + k) true) ->
  wp (pipe_read_loop uc i buf len) (fun f s' => f = Returned /\ read_answered uc tb buf id len j σ s') s.
Proof.
  intros Hu Hw Hsh Hb Hne Hi Hid Hget Hlen Hacc. pose proof Hw as [_ (p & Hp & Hr & _) _ _ _].
  assert (y_pipes σ !! id = Some bytes) as Hq by (eapply shown_here; [done..|by rewrite Hget|done]).
  eapply wp_mono; [by eapply pipe_read_some_ok|].
  intros f s' (-> & Hres & [_ (p' & Hp' & Hr' & _) _ _ _] & Hbytes & _ & Hrest). split; [done|].
  exists (take (Z.to_nat len) bytes), (set_pipes (<[id := drop (Z.to_nat len) bytes]> (y_pipes σ)) σ).
  split; [|split; [|done]].
  - unfold answers. cbn. rewrite Hq, (proj2 (Z.ltb_ge _ _)), (proj2 (Z.eqb_neq _ _)) by lia. done.
  - eapply (shown_update (k_pipes s)); [done|done|done|rewrite Hget; exact Hp'|done|by rewrite Hget].
Qed.

Lemma pipe_read_answers s c tb kc' p idle b i bytes L R Wt S σ j :
  let u := p_uc b in
  user_ok (k_mem s) c tb -> pipe_world i bytes L R Wt S (k_store s) (k_sched s) (k_pipes s) -> shown (k_pipes s) σ ->
  running_proc (k_sched s) = Some p -> idle_proc (k_sched s) = Some idle ->
  st_pcbs (k_store s) !! p = Some b -> p ∉ L ++ R ++ Wt ++ S -> p <> idle ->
  switchable (k_store s) kc' (next_of idle R) -> zlen (m_region0_pt (k_mem s)) = REGION0_VPNS ->
  IS_PIPE_ID (reg0_int u) = true -> GET_ID (reg0_int u) = i -> 0 <= uc_reg1 u < 4294967296 ->
  0 < reg2_int u -> good_buffer tb u true ->
  exists f s', KernelPipeRead p s = Some (f, s') /\
    ((f = Returned /\ read_answered p tb (uc_reg1 u) (reg0_int u) (reg2_int u) j σ s') \/
     (f = Switched kc' /\ shown (k_pipes s') σ /\
      (forall r σ', ~ answers true j σ (CPipeRead (reg0_int u) (reg2_int u)) r σ') /\
      p_kc <$> st_pcbs (k_store s') !! p = Some (KC_pipe_read i (uc_reg1 u) (reg2_int u)))).
Proof.
  intros u Hu Hw Hsh Hrun Hidle Hb Hp Hpi Hsw Ht Hid Hget Hreg Hlen Hgood. pose proof Hgood as [Hnz Hacc].
  apply wp_run. unfold KernelPipeRead. eapply with_buffer_ok; [done|done|intros _|done]. fold u.
  assert (forall Q, wp (pipe_read_loop p i (uc_reg1 u) (reg2_int u)) Q s -> wp (PipeRead_Impl p) Q s) as Hloop.
  { intros Q HQ. unfold PipeRead_Impl. rewrite <- (kp_same s) in HQ |- *. wp_step. eapply get_uc_kp; [exact Hb|]. fold u.
    rewrite Hid, Hget, (proj2 (Z.eqb_neq _ _) Hnz), (proj2 (Z.ltb_ge _ _)) by lia. cbn [negb orb].
    by rewrite (proj2 (Z.eqb_neq _ _)) by lia. }
  apply Hloop. destruct (decide (bytes = [])) as [->|Hne].
  - pose proof Hw as [Hok (q & Hq & Hr & _) _ _ _]. pose proof (reg0_is_int u) as Hi.
    assert (y_pipes σ !! reg0_int u = Some []) as Hy by (eapply shown_here; [done..|by rewrite Hget|done]).
    eapply wp_mono; [by eapply pipe_read_none_ok|].
    intros f s' (-> & [_ (q' & Hq' & Hr' & _) _ _ _] & Hkc & _ & _ & _ & _ & Hrest). right. split; [done|].
    split; [eapply (shown_repr (k_pipes s)); [done|done|done|done|rewrite Hget; exact Hq'|done|by rewrite Hget]|].
    split; [|done]. intros r σ'. unfold answers. cbn.
    rewrite Hy, (proj2 (Z.ltb_ge _ _)), (proj2 (Z.eqb_neq _ _)) by lia. by intros [[] _].
  - eapply wp_mono; [eapply pipe_loop_answers; try done; [apply reg0_is_int|by apply checked_accessible]|].
    intros f s' [-> Hans]. by left.
Qed.

(** *** [KernelReclaim] *)
Lemma pipe_reclaim_answers s uc b i bytes R Wt S σ j :
  let u := p_uc b in
  pipe_world i bytes [] R Wt S (k_store s) (k_sched s) (k_pipes s) -> shown (k_pipes s) σ ->
  st_pcbs (k_store s) !! uc = Some b -> IS_PIPE_ID (reg0_int u) = true -> GET_ID (reg0_int u) = i ->
  exists s' σ', KernelReclaim uc s = Some (tt, s') /\ answers true j σ (CReclaim (reg0_int u)) 0 σ' /\
    shown (k_pipes s') σ' /\ result_is (k_store s') uc SUCCESS.
Proof.
  intros u Hw Hsh Hb Hid Hget. pose proof Hw as [Hok (p & Hp & Hr & Hf) _ _ _]. pose proof (reg0_is_int u) as Hi.
  assert (y_pipes σ !! reg0_int u = Some bytes) as Hy by (eapply shown_here; [done..|by rewrite Hget|done]).
  assert (wp (KernelReclaim uc) (fun _ s' => exists σ', answers true j σ (CReclaim (reg0_int u)) 0 σ' /\
    shown (k_pipes s') σ' /\ result_is (k_store s') uc SUCCESS) s) as ([] & s' & Hrun & σ' & Hres)%wp_run;
    [|by exists s', σ'].
  unfold KernelReclaim, Reclaim_Impl. rewrite <- (kp_same s) at 1. wp_step. eapply get_uc_kp; [exact Hb|]. fold u.
  assert (IS_LOCK_ID (reg0_int u) || IS_SEM_ID (reg0_int u) = false) as ->.
  { unfold IS_PIPE_ID, IS_LOCK_ID, IS_SEM_ID in *. apply Z.eqb_eq in Hid. by rewrite Hid. }
  rewrite Hid, Hget. wp_step. apply wp_kp.
  eapply wp_mono; [exact (pipe_reclaim_ok (k_store s, k_sched s) (k_pipes s) i Hok)|].
  intros r [ss t'] (-> & _ & Hr' & Hrest). cbn [fst snd] in *. rewrite Hp in Hr'.
  assert (r = true) as -> by (rewrite Hr'; unfold no_reader; by rewrite (fr_first _ _ _ Hf)).
  unfold set_result. eapply set_reg0_kp; [exact Hb|].
  exists (set_pipes (delete (reg0_int u) (y_pipes σ)) σ). split; [|split].
  - unfold answers. cbn. unfold reclaim. rewrite Hy. by left.
  - apply (shown_delete (k_pipes s)); [done|done|done| |].
    + rewrite Hget, Hrest. by rewrite bool_decide_true.
    + intros k Hk. rewrite Hget in Hk. rewrite Hrest. by rewrite bool_decide_false.
  - unfold result_is. simpl. by rewrite lookup_insert_eq.
Qed.
End calls.

(** ** Properties *)

(** C7: the calls on pipes refine their abstract specification.  Let the table
    of the kernel show the pipes of an abstract state.  Then what each call gives
    the running process is an answer of [UserSystem.serve] to the same call in
    that state, and the table shows the pipes of the state that comes with the
    answer: [KernelPipeInit] stores the handle of a new, empty pipe or fails;
    [KernelPipeWrite] appends the bytes in the buffer of the caller or fails, and
    [KernelPipeRead] fills the buffer with the oldest bytes.  It switches to
    another process exactly when the read has no answer yet; once there are bytes,
    what it left to do there ([pipe_read_loop]) gives the answer.  [KernelReclaim] removes a pipe nobody
    waits for. *)
Theorem kernel_pipes_refine {hw : Machine} {hw_ok : MachineOk} (s : kstate) (c : mem_ctx_t)
    (tb : list pte) (kc' : kcontext) (p idle : addr) (b : pcb) (i : Z) (bytes : list Z) (L R Wt S : list addr)
    (σ : sys) (j : nat) :
  let u := p_uc b in let id := reg0_int u in let buf := uc_reg1 u in let len := reg2_int u in
  user_ok (k_mem s) c tb -> pipe_world i bytes L R Wt S (k_store s) (k_sched s) (k_pipes s) -> shown (k_pipes s) σ ->
  running_proc (k_sched s) = Some p -> idle_proc (k_sched s) = Some idle ->
  st_pcbs (k_store s) !! p = Some b -> p ∉ L ++ R ++ Wt ++ S -> p <> idle ->
  switchable (k_store s) kc' (match R with [] => idle | r :: _ => r end) ->
  zlen (m_region0_pt (k_mem s)) = REGION0_VPNS -> 0 <= buf < 4294967296 ->
  (uc_reg0 u <> 0 -> zlen (pipes (k_pipes s)) < 2 ^ 30 ->
   (forall k, 0 <= k < 4 -> accessible tb (uc_reg0 u + k) true) ->
   exists s' r id σ', KernelPipeInit p s = Some (tt, s') /\ answers true j σ CPipeInit (r, id) σ' /\
     shown (k_pipes s') σ' /\ result_is (k_store s') p r /\
     (r = SUCCESS -> word_stored tb (k_mem s') (uc_reg0 u) id)) /\
  (IS_PIPE_ID id = true -> GET_ID id = i ->
   (0 < len -> good_buffer tb u false ->
    exists s' r new σ', KernelPipeWrite p s = Some (Returned, s') /\ zlen new = len /\
      (forall k, 0 <= k < len -> zget new k = byte_in tb (k_mem s) (buf + k)) /\
      answers true j σ (CPipeWrite id new) r σ' /\ shown (k_pipes s') σ' /\ result_is (k_store s') p r) /\
   (0 < len -> good_buffer tb u true ->
    (exists f s', KernelPipeRead p s = Some (f, s') /\
      ((f = Returned /\ read_answered p tb buf id len j σ s') \/
       (f = Switched kc' /\ shown (k_pipes s') σ /\ (forall r σ', ~ answers true j σ (CPipeRead id len) r σ') /\
        p_kc <$> st_pcbs (k_store s') !! p = Some (KC_pipe_read i buf len)))) /\
    (bytes <> [] -> exists s', pipe_read_loop p i buf len s = Some (Returned, s') /\
       read_answered p tb buf id len j σ s')) /\
   (L = [] -> exists s' σ', KernelReclaim p s = Some (tt, s') /\ answers true j σ (CReclaim id) 0 σ' /\
      shown (k_pipes s') σ' /\ result_is (k_store s') p SUCCESS)).
Proof.
  intros u id buf len Hu Hw Hsh Hrun Hidle Hb Hp Hpi Hsw Ht Hreg. split.
  { intros. eapply pipe_init_answers; [done|apply Hw|done..]. }
  intros Hid Hget. split; [|split].
  - intros Hlen Hgood. eapply pipe_write_answers; try done. set_solver.
  - intros Hlen Hgood. split; [by eapply pipe_read_answers|]. intros Hne. destruct Hgood as [_ Hacc].
    assert (wp (pipe_read_loop p i buf len) (fun f s' => f = Returned /\ read_answered p tb buf id len j σ s') s)
      as (f & s' & Hres & -> & Hans)%wp_run; [|by exists s'].
    eapply pipe_loop_answers; try done; [apply reg0_is_int|]. by apply checked_accessible.
  - intros ->. by eapply pipe_reclaim_answers.
Qed.

(** The running process reads four bytes of its data page into the pipe, which
    is the only one. *)
Definition demo_sys : sys :=
  {| y_procs := []; y_pipes := {[CREATE_ID PIPE_FLAG 0 := []]}; y_locks := ∅; y_cvars := ∅ |}.
Lemma demo_shown : shown demo_kpipes demo_sys.
Proof.
  split.
  - intros id Hi Hid. destruct (pipe_handle id Hi Hid) as [E Hg].
    destruct (decide (GET_ID id = 0)) as [E0|Hne].
    + rewrite E0. exists []. split; [|apply (@fresh_pipe_repr demo_machine demo_machine_ok)].
      replace id with (CREATE_ID PIPE_FLAG 0) by (rewrite E, E0; by vm_compute). simpl. apply lookup_singleton_eq.
    + assert (pipe_of demo_kpipes (GET_ID id) = None) as ->.
      { destruct (pipe_of demo_kpipes (GET_ID id)) as [x|] eqn:Ex; [|done]. pose proof (used_range _ _ _ _ Ex) as Hr.
        assert (GET_ID id = 1) as E1 by (unfold zlen in Hr; simpl in Hr; lia). by rewrite E1 in Ex. }
      simpl. apply lookup_singleton_ne. rewrite E. change (CREATE_ID PIPE_FLAG 0) with (2 ^ 30). lia.
  - intros id [x Hx]. simpl in Hx. apply lookup_singleton_Some in Hx as [<- _]. by vm_compute.
  - intros id [[x Hx]|Hin]; simpl in *; [by rewrite lookup_empty in Hx|set_solver].
Defined.

Lemma kernel_pipes_refine_witness :
  exists s' r new σ', @KernelPipeWrite demo_machine 2 (demo_kernel_state demo_pipe_uc) = Some (Returned, s') /\
    zlen new = 4 /\ answers true 0 demo_sys (CPipeWrite (CREATE_ID PIPE_FLAG 0) new) r σ' /\
    shown (k_pipes s') σ'.
Proof.
  destruct (@kernel_pipes_refine demo_machine demo_machine_ok (demo_kernel_state demo_pipe_uc) _ _ KC_return 2 1
    (demo_uc_proc demo_pipe_uc) 0 [] [] [3%positive] [] [] demo_sys 0
    (demo_kernel_user_ok _) (demo_pipe_world _) demo_shown eq_refl eq_refl eq_refl ltac:(by apply (bool_decide_unpack _))
    ltac:(done) ltac:(do 2 eexists; split; [reflexivity|by split]) eq_refl ltac:(done)) as [_ Hcalls].
  destruct (Hcalls eq_refl eq_refl) as (Hwrite & _ & _). clear Hcalls.
  destruct Hwrite as (s' & r & new & σ' & Hrun & Hlen & _ & Hans & Hsh & _).
  - by vm_compute.
  - split; [by vm_compute|]. intros k Hk. change (0 <= k < 4) in Hk.
    assert (k = 0 \/ k = 1 \/ k = 2 \/ k = 3) as [-> | [-> | [-> | ->]]] by lia;
      (split; [by vm_compute|]; do 2 eexists; split; [by vm_compute|by vm_compute]).
  - by exists s', r, new, σ'.
Defined.
