(* ===== verification/KernelMonitor.v ===== *)
(** * The locks and condition variables of the kernel are those its programs see

    For a lock (or semaphore) and a condition variable whose waiters go for it,
    as [Monitor] follows them through the kernel: what [acquire], [release],
    [wait_cvar], [signal_cvar] and [broadcast_cvar] of [Locks] do is what
    [UserSystem] lets the processes do.  One operation of the kernel may be
    several steps there, since it hands the lock to those who waited for it. *)

From S2P Require Import Prelude Machine Tables Pcb Fifo SleepHeap Scheduler Locks CondVars Frame MonitorWorld UserLib UserPrograms UserSystem.
From ITree Require Import Core.ITreeDefinition.
Open Scope Z_scope.

(** ** Definitions *)

(** The number of the process in the place [i]. *)
Definition pid_of (σ : sys) (i : nat) : option Z := pr_pid <$> y_procs σ !! i.

(** What a process is when the lock it needs was given to it. *)
Definition granted (st : status) : status :=
  match st with
  | Running (VisF e k) =>
      match e in callE X return (X -> prog Z) -> status with
      | CAcquire _ | CSemDown _ => fun k => Running (observe (k 0))
      | _ => fun _ => st
      end k
  | Waking _ o => Running o
  | _ => st
  end.

Section shown.
Variables (sem : bool) (cv lid : Z) (ps : list addr).

(** The process needs the lock: it asks for it, or takes it again. *)
Definition needs (st : status) : Prop :=
  match st with
  | Running (VisF e _) =>
      match e with CAcquire l => sem = false /\ l = lid | CSemDown l => sem = true /\ l = lid | _ => False end
  | Waking l _ => sem = false /\ l = lid
  | _ => False
  end.
Definition waking (st : status) : Prop := match st with Waking _ _ => True | _ => False end.

(** The process at [ps !! i] is the process [i] of [σ].  The holders of the lock
    have the numbers [H], [W] need it, [C] sleep; it has [cap] permits in all. *)
Record depicts (pid : addr -> option Z) (cap : Z) (C : list addr) (H : list Z) (W : list addr) (σ : sys) : Prop := {
  dp_procs i a : ps !! i = Some a -> exists p, y_procs σ !! i = Some p /\ pid a = Some (pr_pid p);
  dp_len : length (y_procs σ) = length ps;
  dp_unique : NoDup (pr_pid <$> y_procs σ);
  dp_known a : a ∈ W ++ C -> a ∈ ps;
  dp_lock : exists hold, y_locks σ !! lid = Some {| lk_sem := sem; lk_cap := cap; lk_holders := hold |} /\
    NoDup hold /\ pid_of σ <$> hold ≡ₚ Some <$> H;
  dp_cvar : cv ∈ y_cvars σ;
  dp_waits i a p : ps !! i = Some a -> y_procs σ !! i = Some p ->
    (a ∈ W -> needs (pr_status p)) /\ (waking (pr_status p) -> a ∈ W);
  dp_sleeps i a p : ps !! i = Some a -> y_procs σ !! i = Some p ->
    (a ∈ C -> exists o, pr_status p = Sleeping cv lid o) /\ (sleeps cv (pr_status p) -> a ∈ C);
  dp_sem : sem = true -> C = []
}.
End shown.

(** ** Lemmas *)
Lemma pid_of_status σ i st j : pid_of (set_status i st σ) j = pid_of σ j.
Proof.
  unfold pid_of. simpl. destruct (decide (i = j)) as [->|]; [rewrite list_lookup_alter_eq|by rewrite list_lookup_alter_ne].
  by destruct (y_procs σ !! j).
Qed.
Lemma procs_status σ i st p : y_procs σ !! i = Some p -> y_procs (set_status i st σ) !! i = Some (with_status st p).
Proof. intros Hp. simpl. by rewrite list_lookup_alter_eq, Hp. Qed.
Lemma procs_status_ne σ i j st : i <> j -> y_procs (set_status i st σ) !! j = y_procs σ !! j.
Proof. intros Hne. simpl. by rewrite list_lookup_alter_ne. Qed.
Lemma pids_status σ i st : pr_pid <$> y_procs (set_status i st σ) = pr_pid <$> y_procs σ.
Proof. apply list_eq. intros j. rewrite !list_lookup_fmap. apply (pid_of_status σ i st j). Qed.

(** A process that makes a call goes on with an answer to it. *)
Lemma answer_step {um : UserMachine} σ j pj {A} (e : callE A) k r σ1 :
  y_procs σ !! j = Some pj -> pr_status pj = Running (VisF e k) -> answers true j σ e r σ1 ->
  sstep true σ (run j (k r) σ1).
Proof.
  intros Hp Hst Ha. exists j, pj. split; [done|]. unfold step_of. rewrite Hst. right.
  apply serve_answers. by exists r, σ1.
Qed.

Section steps.
Context {um : UserMachine} {sem : bool} {cv lid : Z} {ps : list addr} (ps_nodup : NoDup ps).
#[local] Abbreviation depicts := (depicts sem cv lid ps).

Lemma depicts_ext pid pid' cap C H W σ : (forall a, pid' a = pid a) -> depicts pid cap C H W σ -> depicts pid' cap C H W σ.
Proof. intros Hpid [Hprocs ? ? ? ? ? ? ? ?]. split; try done. intros i a. rewrite Hpid. apply Hprocs. Qed.

Lemma depicts_pid pid cap C H W σ i a : depicts pid cap C H W σ -> ps !! i = Some a -> pid_of σ i = pid a.
Proof.
  intros Hd Ha. destruct (dp_procs _ _ _ _ _ _ _ _ _ _ Hd i a Ha) as (p & Hp & Hpid). unfold pid_of. by rewrite Hp, Hpid.
Qed.

(** A holder, by its place and by its number. *)
Lemma holder_iff pid cap C H W σ hold i n :
  depicts pid cap C H W σ -> pid_of σ <$> hold ≡ₚ Some <$> H -> pid_of σ i = Some n -> i ∈ hold <-> n ∈ H.
Proof.
  intros Hd Hh Hn. split; intros Hin.
  - apply (list_elem_of_fmap_2 (pid_of σ)) in Hin. rewrite Hh, Hn in Hin.
    by apply list_elem_of_fmap in Hin as (m & [= ->] & Hm).
  - apply (list_elem_of_fmap_2 Some) in Hin. rewrite <- Hh in Hin.
    apply list_elem_of_fmap in Hin as (i' & Hi' & Hm).
    assert (i = i') as ->; [|done].
    eapply (NoDup_lookup _ i i' n (dp_unique _ _ _ _ _ _ _ _ _ _ Hd)); rewrite list_lookup_fmap; done.
Qed.

(** The status of the process [j], at [p], changed. *)
Lemma depicts_status pid cap C H W σ j p pj C' W' st :
  depicts pid cap C H W σ -> ps !! j = Some p -> y_procs σ !! j = Some pj ->
  (forall a, a <> p -> (a ∈ C' <-> a ∈ C) /\ (a ∈ W' <-> a ∈ W)) ->
  (p ∈ W' -> needs sem lid st) -> (waking st -> p ∈ W') ->
  (p ∈ C' -> exists o, st = Sleeping cv lid o) -> (sleeps cv st -> p ∈ C') -> (sem = true -> C' = []) ->
  depicts pid cap C' H W' (set_status j st σ).
Proof.
  intros [Hprocs Hlen Huq Hkn (hold & Hl & Hnd & Hh) Hcv Hw Hs Hsem] Hp Hpj Hoth Hn Hwk Hc Hsl Hsem'.
  assert (forall i a, ps !! i = Some a -> i <> j -> a <> p) as Hne.
  { intros i a Ha Hij ->. exact (Hij (NoDup_lookup _ _ _ _ ps_nodup Ha Hp)). }
  split.
  - intros i a Ha. destruct (Hprocs i a Ha) as (q & Hq & Hpid). destruct (decide (j = i)) as [->|Hij].
    + eexists. split; [by apply procs_status|]. done.
    + exists q. by rewrite procs_status_ne.
  - simpl. by rewrite length_alter.
  - by rewrite pids_status.
  - intros a Ha. destruct (decide (a = p)) as [->|Hap]; [by apply list_elem_of_lookup_2 in Hp|].
    apply Hkn. destruct (Hoth a Hap) as [H1 H2]. rewrite elem_of_app in *. tauto.
  - exists hold. split; [done|]. split; [done|].
    by assert (pid_of (set_status j st σ) <$> hold = pid_of σ <$> hold) as ->
      by (apply list_fmap_ext; intros; apply pid_of_status).
  - done.
  - intros i a q Ha Hq. destruct (decide (j = i)) as [->|Hij].
    + assert (a = p) as -> by congruence. rewrite (procs_status _ _ _ pj) in Hq by done. injection Hq as <-. by split.
    + rewrite procs_status_ne in Hq by done. destruct (Hw i a q Ha Hq), (Hoth a (Hne i a Ha (not_eq_sym Hij))). naive_solver.
  - intros i a q Ha Hq. destruct (decide (j = i)) as [->|Hij].
    + assert (a = p) as -> by congruence. rewrite (procs_status _ _ _ pj) in Hq by done. injection Hq as <-. by split.
    + rewrite procs_status_ne in Hq by done. destruct (Hs i a q Ha Hq), (Hoth a (Hne i a Ha (not_eq_sym Hij))). naive_solver.
  - done.
Qed.

(** The holders of the lock changed. *)
Lemma depicts_holders pid cap C H W σ hold H' :
  depicts pid cap C H W σ -> NoDup hold -> pid_of σ <$> hold ≡ₚ Some <$> H' ->
  depicts pid cap C H' W
    (set_locks (<[lid := {| lk_sem := sem; lk_cap := cap; lk_holders := hold |}]> (y_locks σ)) σ).
Proof.
  intros [Hprocs Hlen Huq Hkn (hold0 & Hl & Hnd & Hh) Hcv Hw Hs Hsem] Hnd' Hh'. split; try done.
  exists hold. simpl. by rewrite lookup_insert_eq.
Qed.

#[local] Abbreviation lock_with cap hold := {| lk_sem := sem; lk_cap := cap; lk_holders := hold |}.
#[local] Abbreviation with_lock k σ := (set_locks (<[lid := k]> (y_locks σ)) σ).

Lemma acquire_free σ j cap hold (Q : Z -> sys -> Prop) :
  y_locks σ !! lid = Some (lock_with cap hold) -> j ∉ hold -> zlen hold < cap ->
  Q 0 (with_lock (lock_with cap (j :: hold)) σ) -> take_lock sem j lid σ Q.
Proof. intros Hl Hj Hc HQ. unfold take_lock. rewrite Hl. cbn. by rewrite bool_decide_false by naive_solver. Qed.

Lemma needs_awake st : needs sem lid st -> ~ sleeps cv st.
Proof. intros Hn Hs. by destruct st. Qed.
Lemma granted_free st : needs sem lid st -> ~ waking (granted st) /\ ~ sleeps cv (granted st).
Proof. destruct st as [[| |X e k]| | | |]; simpl; try tauto. destruct e; simpl; tauto. Qed.

(** The holders, as many as their numbers. *)
Lemma holders_count σ hold H : pid_of σ <$> hold ≡ₚ Some <$> H -> zlen hold = zlen H.
Proof. intros Hh. apply Permutation_length in Hh. rewrite !length_fmap in Hh. unfold zlen. lia. Qed.

(** The lock goes to the process [j], which needs it. *)
Lemma grant_step pid cap C H W σ j p pj n W' :
  depicts pid cap C H W σ -> ps !! j = Some p -> y_procs σ !! j = Some pj -> needs sem lid (pr_status pj) ->
  pid p = Some n -> n ∉ H -> zlen H < cap -> (forall a, a <> p -> (a ∈ W' <-> a ∈ W)) -> p ∉ W' ->
  exists σ', sstep true σ σ' /\ depicts pid cap C (n :: H) W' σ' /\
    pr_status <$> y_procs σ' !! j = Some (granted (pr_status pj)) /\
    forall i, i <> j -> y_procs σ' !! i = y_procs σ !! i.
Proof.
  intros Hd Hp Hpj Hneeds Hn HnH Hcap Hoth HpW.
  destruct (dp_lock _ _ _ _ _ _ _ _ _ _ Hd) as (hold & Hl & Hnd & Hh).
  pose proof (depicts_pid _ _ _ _ _ _ _ _ Hd Hp) as Hj. rewrite Hn in Hj.
  assert (j ∉ hold) as Hjh by (by rewrite (holder_iff pid cap C H W σ hold j n)).
  pose proof (holders_count σ hold H Hh) as Hlen. destruct (granted_free _ Hneeds) as [Hg1 Hg2].
  set (σ1 := with_lock (lock_with cap (j :: hold)) σ).
  exists (set_status j (granted (pr_status pj)) σ1). split_and!.
  - exists j, pj. split; [done|]. unfold step_of.
    destruct (pr_status pj) as [[| |X e k]|c l o|l o| |]; simpl in Hneeds; try done.
    + right. destruct e; try done; destruct Hneeds as [Hs ->]; cbn; rewrite <- Hs;
        (eapply acquire_free; [exact Hl|done|lia|done]).
    + destruct Hneeds as [Hs ->]. rewrite <- Hs. eapply acquire_free; [exact Hl|done|lia|done].
  - apply (depicts_status pid cap C (n :: H) W σ1 j p pj); try done.
    + apply (depicts_holders pid cap C H W σ); [done|by constructor|]. rewrite !fmap_cons, Hj. by f_equiv.
    + intros a Ha. split; [done|by apply Hoth].
    + intros Hin. destruct (proj1 (dp_sleeps _ _ _ _ _ _ _ _ _ _ Hd j p pj Hp Hpj) Hin) as [o Ho].
      by rewrite Ho in Hneeds.
    + apply Hd.
  - rewrite (procs_status _ _ _ pj) by done. done.
  - intros i Hi. by rewrite procs_status_ne.
Qed.

(** The process [j] goes on with [t]. *)
Lemma depicts_run pid cap C H W σ j p pj t :
  depicts pid cap C H W σ -> ps !! j = Some p -> y_procs σ !! j = Some pj -> p ∉ W -> p ∉ C ->
  depicts pid cap C H W (run j t σ).
Proof. intros Hd Hp Hpj HW HC. eapply depicts_status; try done. apply Hd. Qed.

Lemma status_run j pj t σ :
  y_procs σ !! j = Some pj -> pr_status <$> y_procs (run j t σ) !! j = Some (Running (observe t)).
Proof. intros Hp. unfold run. by rewrite (procs_status _ _ _ pj). Qed.

(** Giving the lock up: what is left of the holders. *)
Lemma without_holders σ hold j n H0 :
  NoDup hold -> j ∈ hold -> pid_of σ j = Some n -> pid_of σ <$> hold ≡ₚ Some <$> (n :: H0) ->
  NoDup (without j hold) /\ pid_of σ <$> without j hold ≡ₚ Some <$> H0.
Proof.
  intros Hnd Hin Hj Hh. unfold without. split; [by apply NoDup_filter|].
  assert (hold ≡ₚ j :: filter (fun i => i <> j) hold) as E.
  { apply NoDup_Permutation; [done| |].
    - apply NoDup_cons. split; [by intros [? _]%list_elem_of_filter|by apply NoDup_filter].
    - intros i. rewrite elem_of_cons, list_elem_of_filter. destruct (decide (i = j)) as [->|]; naive_solver. }
  rewrite E, !fmap_cons, Hj in Hh. by apply (Permutation_cons_inv (a := Some n)) in Hh.
Qed.

Lemma release_held σ j cap hold (Q : Z -> sys -> Prop) :
  y_locks σ !! lid = Some (lock_with cap hold) -> j ∈ hold ->
  Q 0 (with_lock (lock_with cap (without j hold)) σ) -> give_lock sem j lid σ Q.
Proof. intros Hl Hj HQ. unfold give_lock. rewrite Hl. cbn. by rewrite bool_decide_false by naive_solver. Qed.
Lemma release_other σ j cap hold (Q : Z -> sys -> Prop) :
  y_locks σ !! lid = Some (lock_with cap hold) -> j ∉ hold -> Q (-1) σ -> give_lock sem j lid σ Q.
Proof. intros Hl Hj HQ. unfold give_lock. rewrite Hl. cbn. by rewrite bool_decide_true by naive_solver. Qed.

(** Releasing, in either way it is done. *)
Lemma depicts_released pid cap C H W σ j p n H0 :
  depicts pid cap C H W σ -> ps !! j = Some p -> pid p = Some n -> H ≡ₚ n :: H0 ->
  exists σ1, (forall Q : Z -> sys -> Prop, Q 0 σ1 -> give_lock sem j lid σ Q) /\
    depicts pid cap C H0 W σ1 /\ y_procs σ1 = y_procs σ.
Proof.
  intros Hd Hp Hn HH. destruct (dp_lock _ _ _ _ _ _ _ _ _ _ Hd) as (hold & Hl & Hnd & Hh).
  pose proof (depicts_pid _ _ _ _ _ _ _ _ Hd Hp) as Hj. rewrite Hn in Hj.
  assert (j ∈ hold) as Hjh by (rewrite (holder_iff pid cap C H W σ hold j n) by done; rewrite HH; by left).
  rewrite HH in Hh. destruct (without_holders σ hold j n H0 Hnd Hjh Hj Hh) as [Hnd' Hh'].
  exists (with_lock (lock_with cap (without j hold)) σ). split; [|split; [by eapply depicts_holders|done]].
  intros Q HQ. by eapply release_held.
Qed.
Lemma not_released pid cap C H W σ j p n (Q : Z -> sys -> Prop) :
  depicts pid cap C H W σ -> ps !! j = Some p -> pid p = Some n -> n ∉ H -> Q (-1) σ -> give_lock sem j lid σ Q.
Proof.
  intros Hd Hp Hn HnH HQ. destruct (dp_lock _ _ _ _ _ _ _ _ _ _ Hd) as (hold & Hl & Hnd & Hh).
  pose proof (depicts_pid _ _ _ _ _ _ _ _ Hd Hp) as Hj. rewrite Hn in Hj.
  eapply release_other; [exact Hl| |done]. by rewrite (holder_iff pid cap C H W σ hold j n).
Qed.

(** A waiter and what it is in [σ]. *)
Lemma waiter_at pid cap C H W σ w :
  depicts pid cap C H W σ -> w ∈ W -> exists i pw, ps !! i = Some w /\ y_procs σ !! i = Some pw /\ needs sem lid (pr_status pw).
Proof.
  intros Hd Hw. assert (w ∈ ps) as [i Hi]%list_elem_of_lookup by (eapply dp_known; [exact Hd|set_solver]).
  destruct (dp_procs _ _ _ _ _ _ _ _ _ _ Hd i w Hi) as (pw & Hpw & _). exists i, pw. split; [done|]. split; [done|].
  by apply (dp_waits _ _ _ _ _ _ _ _ _ _ Hd i w pw).
Qed.

(** The lock goes to the waiters [l], one after the other. *)
Lemma grants_steps pid cap C D (l : list addr) : forall ns H σ,
  depicts pid cap C H (l ++ D) σ -> NoDup (l ++ D) -> Some <$> ns = pid <$> l -> NoDup (H ++ ns) ->
  zlen H + zlen l <= cap ->
  exists σ', rtc (sstep true) σ σ' /\ depicts pid cap C (reverse ns ++ H) D σ' /\
    forall i a, ps !! i = Some a -> a ∉ l -> y_procs σ' !! i = y_procs σ !! i.
Proof.
  induction l as [|w l IH]; intros ns H σ Hd Hnd Hns HnH Hcap.
  { destruct ns; [|done]. exists σ. by split_and!. }
  destruct ns as [|n ns]; [done|]. simpl in Hns. injection Hns as Hn Hns. simpl in Hd, Hnd.
  apply NoDup_cons in Hnd as [Hw Hnd]. unfold zlen in Hcap. simpl in Hcap.
  destruct (waiter_at pid cap C H (w :: l ++ D) σ w Hd) as (i & pw & Hi & Hpw & Hneeds); [by left|].
  destruct (grant_step pid cap C H (w :: l ++ D) σ i w pw n (l ++ D)) as (σ1 & Hstep & Hd1 & _ & Hrest); try done.
  - intros Hin. apply NoDup_app in HnH as (_ & HnH & _). apply (HnH n); [done|by left].
  - unfold zlen. lia.
  - intros a Ha. set_solver.
  - destruct (IH ns (n :: H) σ1) as (σ2 & Hsteps & Hd2 & Hrest2); try done.
    + change (NoDup (n :: H ++ ns)). by rewrite Permutation_middle.
    + unfold zlen. simpl. lia.
    + exists σ2. split; [by eapply rtc_l|]. split; [by rewrite reverse_cons, <- (assoc_L (++))|].
      intros i' a Ha Hal. rewrite (Hrest2 i' a) by set_solver. apply Hrest. intros ->.
      assert (a = w) as -> by congruence. set_solver.
Qed.
End steps.

Section wake_ups.
Context {um : UserMachine} {sem : bool} {cv lid : Z} {ps : list addr}.
#[local] Abbreviation depicts := (depicts sem cv lid ps).

Lemma depicts_perm pid cap C H W W' σ :
  (forall a, a ∈ W' <-> a ∈ W) -> depicts pid cap C H W σ -> depicts pid cap C H W' σ.
Proof.
  intros HW [Hprocs Hlen Huq Hkn Hl Hcv Hw Hs Hsem]. split; try done.
  - intros a. rewrite elem_of_app, HW, <- elem_of_app. apply Hkn.
  - intros i a p Ha Hp. rewrite HW. by apply (Hw i a p).
Qed.

Lemma no_sleeper pid cap H W σ :
  depicts pid cap [] H W σ -> forallb (fun p => negb (is_sleeping cv p)) (y_procs σ) = true.
Proof.
  intros Hd. apply forallb_forall. intros q Hq. apply list_elem_of_In, list_elem_of_lookup in Hq as [i Hi].
  destruct (lookup_lt_is_Some_2 ps i) as [a Ha].
  { rewrite <- (dp_len _ _ _ _ _ _ _ _ _ _ Hd). by eapply lookup_lt_Some. }
  pose proof (proj2 (dp_sleeps _ _ _ _ _ _ _ _ _ _ Hd i a q Ha Hi)) as Hs. unfold is_sleeping, sleeps in *.
  destruct (pr_status q); try done. simpl. case_bool_decide as E; [|done]. by apply Hs, not_elem_of_nil in E.
Qed.

Definition woken (p : proc) : proc := if is_sleeping cv p then with_status (woken_status (pr_status p)) p else p.
Lemma woken_pid p : pr_pid (woken p) = pr_pid p.
Proof. unfold woken. by case_match. Qed.

(** Everybody who slept needs the lock. *)
Lemma broadcast_depicts pid cap C H W σ :
  depicts pid cap C H W σ -> depicts pid cap [] H (W ++ C) (set_procs (woken <$> y_procs σ) σ).
Proof.
  intros [Hprocs Hlen Huq Hkn (hold & Hl & Hnd & Hh) Hcv Hw Hs Hsem].
  assert (forall i q, (woken <$> y_procs σ) !! i = Some q -> exists q0, y_procs σ !! i = Some q0 /\ q = woken q0) as Hlook.
  { intros i q Hq. rewrite list_lookup_fmap in Hq. apply fmap_Some in Hq as (q0 & -> & ->). by exists q0. }
  split; simpl; try done.
  - intros i a Ha. destruct (Hprocs i a Ha) as (q & Hq & Hpid). exists (woken q).
    by rewrite list_lookup_fmap, Hq, woken_pid.
  - by rewrite length_fmap.
  - rewrite <- list_fmap_compose. erewrite list_fmap_ext; [exact Huq|]. intros ? q _. apply woken_pid.
  - intros a. rewrite app_nil_r. apply Hkn.
  - exists hold. split; [done|]. split; [done|].
    assert (pid_of (set_procs (woken <$> y_procs σ) σ) <$> hold = pid_of σ <$> hold) as ->; [|done].
    apply list_fmap_ext. intros ? i _. unfold pid_of. simpl. rewrite list_lookup_fmap.
    destruct (y_procs σ !! i); simpl; [by rewrite woken_pid|done].
  - intros i a q Ha (q0 & Hq0 & ->)%Hlook. destruct (Hw i a q0 Ha Hq0) as [Hw1 Hw2], (Hs i a q0 Ha Hq0) as [Hs1 Hs2].
    rewrite elem_of_app. unfold woken, is_sleeping. split.
    + intros [Hin|Hin].
      * specialize (Hw1 Hin). by destruct (pr_status q0) eqn:E; try done; rewrite E.
      * destruct (Hs1 Hin) as [o E]. rewrite E. simpl. rewrite bool_decide_true by done. simpl. split; [|done].
        destruct sem; [|done]. rewrite Hsem in Hin by done. by apply not_elem_of_nil in Hin.
    + destruct (pr_status q0) eqn:E; simpl; rewrite ?E; try done; [|by left; apply Hw2].
      case_bool_decide as Ec; simpl; rewrite ?E; [|done]. intros _. right. by apply Hs2.
  - intros i a q Ha (q0 & Hq0 & ->)%Hlook. split; [by intros ?%not_elem_of_nil|]. unfold woken, is_sleeping.
    destruct (pr_status q0) eqn:E; simpl; rewrite ?E; try done. case_bool_decide; simpl; rewrite ?E; done.
Qed.
End wake_ups.

(** What the invariant says of the lock. *)
Lemma cvar_world_lock ci li C H W R Wt S st sc sy :
  cvar_world ci li C H W R Wt S st sc sy ->
  NoDup H /\ NoDup (pid_at st <$> W ++ C) /\ (forall n, n ∈ H -> Some n ∉ pid_at st <$> W ++ C) /\
  0 <= permits sy li /\ (W <> [] -> permits sy li = 0).
Proof.
  intros Hw. destruct (cw_lock _ _ _ _ _ _ _ _ _ _ _ Hw) as (lk & Hlk & Hr).
  pose proof (cw_nodup _ _ _ _ _ _ _ _ _ _ _ Hw) as (H1 & H2 & H3)%NoDup_app.
  split; [by eapply NoDup_fmap_1|]. split; [done|]. split; [intros n Hn; by apply H2, list_elem_of_fmap_2|].
  unfold permits. rewrite Hlk. split; [by eapply lr_holders_le|by apply (lr_wait _ _ _ _ Hr)].
Qed.

(** The status of a process. *)
Definition is_at (j : nat) (st : status) (σ : sys) : Prop := pr_status <$> y_procs σ !! j = Some st.

Lemma set_status_same σ j pj : y_procs σ !! j = Some pj -> set_status j (pr_status pj) σ = σ.
Proof.
  intros Hp. destruct σ as [ps ? ? ?]. unfold set_status, set_procs. simpl in *. f_equal. apply list_eq. intros i.
  destruct (decide (j = i)) as [->|]; [|by rewrite list_lookup_alter_ne]. rewrite list_lookup_alter_eq, Hp. simpl.
  f_equal. by destruct pj.
Qed.

(** The calls that take the lock and give it up. *)
Definition lock_call (sem : bool) (lid : Z) : callE Z := if sem then CSemDown lid else CAcquire lid.
Definition unlock_call (sem : bool) (lid : Z) : callE Z := if sem then CSemUp lid else CRelease lid.
Lemma needs_lock_call sem lid k : needs sem lid (Running (VisF (lock_call sem lid) k)).
Proof. by destruct sem. Qed.
Lemma granted_lock_call sem lid k : granted (Running (VisF (lock_call sem lid) k)) = Running (observe (k 0)).
Proof. by destruct sem. Qed.
Lemma serve_lock_call sem lid j σ Q : serve true j σ (lock_call sem lid) Q = take_lock sem j lid σ Q.
Proof. by destruct sem. Qed.
Lemma serve_unlock_call sem lid j σ Q : serve true j σ (unlock_call sem lid) Q = give_lock sem j lid σ Q.
Proof. by destruct sem. Qed.

Section operations.
Context {um : UserMachine} (ci li : Z) (sem : bool) (cv lid : Z) (ps : list addr) (ps_nodup : NoDup ps).
Context (Wt S : list addr).

(** The lock [li] and the condition variable [ci] of the kernel are those
    [lid] and [cv] of [σ]. *)
Definition seen (s : sync_st) (σ : sys) : Prop := exists C H W R,
  cvar_world ci li C H W R Wt S s.1.1 s.1.2 s.2 /\
  depicts sem cv lid ps (pid_at s.1.1) (permits s.2 li + zlen H) C H W σ.

Context (C : list addr) (H : list Z) (W R : list addr) (st : store) (sc : sched_t) (sy : sync_t) (σ : sys).
Context (p : addr) (b : pcb) (j : nat) (pj : proc) (k : Z -> prog Z).
#[local] Abbreviation cap := (permits sy li + zlen H).
Hypothesis Hw : cvar_world ci li C H W R Wt S st sc sy.
Hypothesis Hd : depicts sem cv lid ps (pid_at st) cap C H W σ.
Hypothesis Hb : st_pcbs st !! p = Some b.
Hypothesis Hpid : 0 < p_pid b.
Hypothesis Hout : p ∉ W ++ C ++ R ++ Wt ++ S.
Hypothesis Hidle : idle_proc sc <> Some p.
Hypothesis Hp : ps !! j = Some p.
Hypothesis Hpj : y_procs σ !! j = Some pj.

Lemma number_p : pid_at st p = Some (p_pid b).
Proof. unfold pid_at. by rewrite Hb. Qed.
Lemma p_apart : p ∉ W /\ p ∉ C.
Proof. set_solver. Qed.

(** No two processes have the same number. *)
Lemma number_apart (l : list addr) : (forall a, a ∈ l -> a ∈ W ++ C) -> pid_at st p ∉ pid_at st <$> l.
Proof.
  intros Hl Hin. apply list_elem_of_fmap in Hin as (a & Ha & Hin). apply Hl in Hin.
  assert (a ∈ ps) as [i Hi]%list_elem_of_lookup by (by eapply dp_known).
  pose proof (depicts_pid _ _ _ _ _ _ _ _ Hd Hp) as E1. pose proof (depicts_pid _ _ _ _ _ _ _ _ Hd Hi) as E2.
  rewrite Ha, <- E2 in E1.
  assert (j = i) as <-.
  { unfold pid_of in E1. rewrite Hpj in E1. destruct (y_procs σ !! i) as [q|] eqn:Hq; [|done].
    eapply (NoDup_lookup _ j i (pr_pid pj) (dp_unique _ _ _ _ _ _ _ _ _ _ Hd)).
    - by rewrite list_lookup_fmap, Hpj.
    - rewrite list_lookup_fmap, Hq. simpl in *. congruence. }
  assert (a = p) as -> by congruence. set_solver.
Qed.

(** The state a kernel operation leaves, with the numbers of the processes as they were. *)
Lemma seen_after s' C' H' W' R' σ' :
  same_processes st s'.1.1 -> cvar_world ci li C' H' W' R' Wt S s'.1.1 s'.1.2 s'.2 ->
  permits s'.2 li + zlen H' = cap -> depicts sem cv lid ps (pid_at st) cap C' H' W' σ' -> seen s' σ'.
Proof.
  intros Hs Hw' Hcap Hd'. exists C', H', W', R'. split; [done|]. rewrite Hcap. eapply depicts_ext; [|exact Hd'].
  intros a. by apply same_processes_pid.
Qed.
Lemma seen_unchanged s' σ' :
  s' = ((st, sc), sy) -> depicts sem cv lid ps (pid_at st) cap C H W σ' -> seen s' σ'.
Proof. intros -> Hd'. by exists C, H, W, R. Qed.

Lemma depicts_goes_on C' H' W' σ1 t :
  depicts sem cv lid ps (pid_at st) cap C' H' W' σ1 -> y_procs σ1 !! j = Some pj -> p ∉ W' -> p ∉ C' ->
  depicts sem cv lid ps (pid_at st) cap C' H' W' (run j t σ1) /\ is_at j (Running (observe t)) (run j t σ1).
Proof. intros Hd1 Hpj1 H1 H2. split; [by eapply depicts_run|by eapply status_run]. Qed.

(** *** [acquire] *)
Lemma acquire_seen : pr_status pj = Running (VisF (lock_call sem lid) k) ->
  wp (acquire li p false) (fun r s' => exists σ', rtc (sstep true) σ σ' /\ seen s' σ' /\
    ((r = ERROR /\ is_at j (Running (observe (k (-1)))) σ') \/
     (r = ACQUIRED /\ is_at j (Running (observe (k 0))) σ') \/
     (r = NEED /\ σ' = σ /\ forall v σ1, ~ answers true j σ (lock_call sem lid) v σ1))) ((st, sc), sy).
Proof.
  intros Hst. destruct (cvar_world_lock _ _ _ _ _ _ _ _ _ _ _ Hw) as (HndH & HndW & Hfresh & Hperm & Hfull).
  pose proof number_p as Hn. destruct p_apart as [HpW HpC].
  destruct (dp_lock _ _ _ _ _ _ _ _ _ _ Hd) as (hold & Hl & Hnd & Hh).
  pose proof (depicts_pid _ _ _ _ _ _ _ _ Hd Hp) as Hj. rewrite Hn in Hj.
  pose proof (holder_iff _ _ _ _ _ _ hold j _ Hd Hh Hj) as Hiff. pose proof (holders_count σ hold H Hh) as Hlen.
  eapply wp_mono; [apply wp_preserves; [apply acquire_frame|]; eapply (acquire_world ci li C H W R Wt S st sc sy p b false Hw Hb Hpid)|].
  - apply number_apart. set_solver.
  - set_solver.
  - done.
  - intros r s' [[Hsc Hres] [Hsame _]]. cbv beta in Hres. destruct (decide (p_pid b ∈ H)) as [HpH|HpH].
    + destruct Hres as [-> ->]. destruct (depicts_goes_on C H W σ (k (-1)) Hd Hpj HpW HpC) as [Hd' Hat].
      exists (run j (k (-1)) σ). split; [|split; [by apply seen_unchanged|by left]]. apply rtc_once.
      apply (answer_step σ j pj (lock_call sem lid) k (-1) σ Hpj Hst). unfold answers. rewrite serve_lock_call.
      unfold take_lock. rewrite Hl. cbn. rewrite bool_decide_true; [done|]. right. by apply Hiff.
    + destruct (decide (0 < permits sy li)) as [Hfree|Hfree].
      * destruct Hres as (-> & -> & Hw' & Hp').
        destruct (grant_step (sem := sem) (cv := cv) (lid := lid) ps_nodup (pid_at st) cap C H [] σ j p pj (p_pid b) []) as (σ' & Hstep & Hd' & Hat & _);
          try done; [by rewrite Hst; apply needs_lock_call|lia|].
        exists σ'. split; [by apply rtc_once|]. split.
        -- rewrite <- Hsc in Hw'. eapply seen_after; [done|exact Hw'| |done]. unfold zlen in *. simpl. lia.
        -- right; left. split; [done|]. unfold is_at. by rewrite Hat, Hst, granted_lock_call.
      * destruct Hres as (-> & Hw' & Hp'). exists σ. split; [done|]. split.
        -- rewrite <- Hsc in Hw'. eapply seen_after; [done|exact Hw'|lia|].
           rewrite <- (set_status_same σ j pj Hpj). apply (depicts_status ps_nodup (pid_at st) cap C H W σ j p pj); try done.
           ++ intros a Ha. set_solver.
           ++ intros _. rewrite Hst. apply needs_lock_call.
           ++ intros _. set_solver.
           ++ rewrite Hst. done.
           ++ apply Hd.
        -- right; right. split; [done|]. split; [done|]. intros v σ1. unfold answers. rewrite serve_lock_call.
           unfold take_lock. rewrite Hl. cbn. rewrite bool_decide_false; [lia|]. intros [?|Hin]; [done|]. by apply HpH, Hiff.
Qed.

(** *** [release] and [wait_cvar] *)

(** The lock that was given up goes to the first who waits for it. *)
Lemma given_up_seen C' H0 n σ1 s' :
  depicts sem cv lid ps (pid_at st) cap C' H0 W σ1 -> H ≡ₚ p_pid b :: H0 -> same_processes st s'.1.1 ->
  (forall w W', W = w :: W' -> pid_at st w = Some n) -> given_up ci li C' H0 W R Wt S n (permits sy li) s' ->
  exists σ', rtc (sstep true) σ1 σ' /\ seen s' σ' /\ y_procs σ' !! j = y_procs σ1 !! j.
Proof.
  intros Hd1 HH Hsame Hn Hgiven.
  destruct (cvar_world_lock _ _ _ _ _ _ _ _ _ _ _ Hw) as (HndH & HndW & Hfresh & Hperm & _).
  assert (zlen H = zlen H0 + 1) as HlenH by (apply Permutation_length in HH; unfold zlen; simpl in HH; lia).
  destruct W as [|w W'] eqn:EW; cbn in Hgiven.
  - destruct Hgiven as [Hw' Hp']. exists σ1. split; [done|]. split; [|done]. eapply seen_after; [done|exact Hw'|lia|done].
  - destruct Hgiven as (Hw' & Hp' & _). pose proof (Hn w W' eq_refl) as Hpw.
    assert (w ∉ W') as HwW by (apply NoDup_fmap_1 in HndW; simpl in HndW; apply NoDup_cons in HndW as [? _]; set_solver).
    destruct (waiter_at (sem := sem) (cv := cv) (lid := lid) ps_nodup (pid_at st) cap C' H0 (w :: W') σ1 w Hd1)
      as (i & pw & Hi & Hpwi & Hneeds); [by left|].
    destruct (grant_step (sem := sem) (cv := cv) (lid := lid) ps_nodup (pid_at st) cap C' H0 (w :: W') σ1 i w pw n W')
      as (σ' & Hstep & Hd' & _ & Hrest); try done.
    + intros Hin. apply (Hfresh n); [rewrite HH; by right|]. rewrite <- Hpw. by left.
    + lia.
    + intros a Ha. set_solver.
    + exists σ'. split; [by apply rtc_once|]. split.
      * eapply seen_after; [done|exact Hw'| |done]. unfold zlen in *. simpl. lia.
      * apply Hrest. intros ->. assert (w = p) as -> by congruence. set_solver.
Qed.

Lemma release_seen : pr_status pj = Running (VisF (unlock_call sem lid) k) ->
  wp (release li p false) (fun r s' => exists σ', rtc (sstep true) σ σ' /\ seen s' σ' /\
    is_at j (Running (observe (k (if r then 0 else -1)))) σ') ((st, sc), sy).
Proof.
  intros Hst. pose proof number_p as Hn. destruct p_apart as [HpW HpC].
  eapply wp_mono; [apply wp_preserves; [apply release_frame|];
    apply (release_world ci li C H W R Wt S st sc sy p b false Hw Hb Hpid); set_solver|].
  intros r s' [Hres [Hsame _]]. cbv beta in Hres. destruct (decide (p_pid b ∈ H)) as [HpH|HpH].
  - destruct Hres as (-> & H0 & n & HH & Hnw & _ & _ & _ & _ & Hgiven).
    destruct (depicts_released _ _ _ _ _ _ j p (p_pid b) H0 Hd Hp Hn HH) as (σ1 & Hrel & Hd1 & Hprocs).
    assert (y_procs σ1 !! j = Some pj) as Hpj1 by (by rewrite Hprocs).
    destruct (depicts_goes_on C H0 W σ1 (k 0) Hd1 Hpj1 HpW HpC) as [Hd2 Hat].
    destruct (given_up_seen C H0 n _ s' Hd2 HH Hsame Hnw Hgiven) as (σ' & Hsteps & Hseen & Hj).
    exists σ'. split; [|split; [done|unfold is_at; by rewrite Hj]]. eapply rtc_l; [|exact Hsteps].
    apply (answer_step σ j pj (unlock_call sem lid) k 0 σ1 Hpj Hst). unfold answers. rewrite serve_unlock_call. by apply Hrel.
  - destruct Hres as [-> ->]. destruct (depicts_goes_on C H W σ (k (-1)) Hd Hpj HpW HpC) as [Hd' Hat].
    exists (run j (k (-1)) σ). split; [|split; [by apply seen_unchanged|done]]. apply rtc_once.
    apply (answer_step σ j pj (unlock_call sem lid) k (-1) σ Hpj Hst). unfold answers. rewrite serve_unlock_call.
    by eapply not_released.
Qed.

Lemma wait_seen : sem = false -> pr_status pj = Running (VisF (CCvarWait cv lid) k) ->
  wp (wait_cvar ci li p) (fun r s' => exists σ', rtc (sstep true) σ σ' /\ seen s' σ' /\
    is_at j (if r then Sleeping cv lid (observe (k 0)) else Running (observe (k (-1)))) σ') ((st, sc), sy).
Proof.
  intros Hsem Hst. pose proof number_p as Hn. destruct p_apart as [HpW HpC].
  pose proof (dp_cvar _ _ _ _ _ _ _ _ _ _ Hd) as Hcv.
  eapply wp_mono; [apply wp_preserves; [apply wait_cvar_frame|];
    apply (wait_cvar_ok ci li C H W R Wt S st sc sy p b Hw Hb Hpid); [set_solver|done]|].
  intros r s' [Hres [Hsame _]]. cbv beta in Hres. destruct (decide (p_pid b ∈ H)) as [HpH|HpH].
  - destruct Hres as (-> & H0 & n & HH & Hnw & _ & Hgiven).
    destruct (depicts_released _ _ _ _ _ _ j p (p_pid b) H0 Hd Hp Hn HH) as (σ1 & Hrel & Hd1 & Hprocs).
    assert (y_procs σ1 !! j = Some pj) as Hpj1 by (by rewrite Hprocs).
    assert (depicts sem cv lid ps (pid_at st) cap (C ++ [p]) H0 W (set_status j (Sleeping cv lid (observe (k 0))) σ1)) as Hd2.
    { apply (depicts_status ps_nodup (pid_at st) cap C H0 W σ1 j p pj); try done.
      - intros a Ha. set_solver.
      - by eexists.
      - intros _. set_solver.
      - by rewrite Hsem. }
    destruct (given_up_seen (C ++ [p]) H0 n _ s' Hd2 HH Hsame Hnw Hgiven) as (σ' & Hsteps & Hseen & Hj).
    exists σ'. split; [|split; [done|unfold is_at; by rewrite Hj, (procs_status _ _ _ pj)]]. eapply rtc_l; [|exact Hsteps].
    exists j, pj. split; [done|]. unfold step_of. rewrite Hst. left. cbn. rewrite bool_decide_false by naive_solver.
    rewrite <- Hsem. by apply Hrel.
  - destruct Hres as [-> ->]. destruct (depicts_goes_on C H W σ (k (-1)) Hd Hpj HpW HpC) as [Hd' Hat].
    exists (run j (k (-1)) σ). split; [|split; [by apply seen_unchanged|done]]. apply rtc_once.
    exists j, pj. split; [done|]. unfold step_of. rewrite Hst. left. cbn. rewrite bool_decide_false by naive_solver.
    rewrite <- Hsem. by eapply not_released.
Qed.

(** *** [signal_cvar] and [broadcast_cvar] *)
Lemma signal_seen : pr_status pj = Running (VisF (CCvarSignal cv) k) ->
  wp (signal_cvar ci) (fun r s' => r = true /\ exists σ', rtc (sstep true) σ σ' /\ seen s' σ' /\
    is_at j (Running (observe (k 0))) σ') ((st, sc), sy).
Proof.
  intros Hst. destruct p_apart as [HpW HpC]. pose proof (dp_cvar _ _ _ _ _ _ _ _ _ _ Hd) as Hcv.
  destruct (cvar_world_lock _ _ _ _ _ _ _ _ _ _ _ Hw) as (HndH & HndW & Hfresh & Hperm & _).
  eapply wp_mono; [apply wp_preserves; [apply signal_cvar_frame|]; by apply (signal_cvar_ok ci li C H W R Wt S st sc sy)|].
  intros r s' [[-> Hres] [Hsame _]]. split; [done|]. cbn [blocks_of sync_blocks] in Hsame.
  destruct C as [|c C'] eqn:EC.
  - destruct (depicts_goes_on [] H W σ (k 0) Hd Hpj HpW HpC) as [Hd' Hat]. exists (run j (k 0) σ).
    split; [|split; [rewrite Hres; by exists [], H, W, R|done]]. apply rtc_once. apply (answer_step σ j pj (CCvarSignal cv) k 0 σ Hpj Hst).
    unfold answers. cbn. unfold signal. rewrite bool_decide_false by naive_solver. left. split; [by eapply no_sleeper|done].
  - destruct Hres as (n & Hn & _ & Hres).
    assert (c ∈ ps) as [i Hi]%list_elem_of_lookup by (eapply dp_known; [exact Hd|set_solver]).
    destruct (dp_procs _ _ _ _ _ _ _ _ _ _ Hd i c Hi) as (pc & Hpc & _).
    destruct (proj1 (dp_sleeps _ _ _ _ _ _ _ _ _ _ Hd i c pc Hi Hpc)) as [o Ho]; [by left|].
    assert (sem = false) as Hsem by (destruct sem eqn:Es; [|done]; by pose proof (dp_sem _ _ _ _ _ _ _ _ _ _ Hd eq_refl)).
    assert (i <> j) as Hij by (intros ->; assert (c = p) as -> by congruence; set_solver).
    assert (c ∉ C' /\ c ∉ W) as [HcC HcW].
    { apply NoDup_fmap_1 in HndW. rewrite <- Permutation_middle in HndW. apply NoDup_cons in HndW as [? _]. set_solver. }
    set (σ1 := set_status i (Waking lid o) σ).
    assert (depicts sem cv lid ps (pid_at st) cap C' H (W ++ [c]) σ1) as Hd1.
    { apply (depicts_status ps_nodup (pid_at st) cap (c :: C') H W σ i c pc); try done.
      - intros a Ha. set_solver.
      - intros _. set_solver.
      - by rewrite Hsem. }
    assert (y_procs σ1 !! j = Some pj) as Hpj1 by (unfold σ1; by rewrite procs_status_ne).
    destruct (depicts_goes_on C' H (W ++ [c]) σ1 (k 0) Hd1 Hpj1) as [Hd2 Hat]; [set_solver|set_solver|].
    assert (sstep true σ (run j (k 0) σ1)) as Hstep.
    { apply (answer_step σ j pj (CCvarSignal cv) k 0 σ1 Hpj Hst). unfold answers. cbn. unfold signal.
      rewrite bool_decide_false by naive_solver. right. exists i, pc. split; [done|]. unfold is_sleeping. rewrite Ho.
      split; [by apply bool_decide_eq_true|done]. }
    destruct (decide (0 < permits sy li)) as [Hfree|Hfull].
    + destruct Hres as (-> & Hw' & Hp' & _).
      assert (y_procs (run j (k 0) σ1) !! i = Some (with_status (Waking lid o) pc)) as Hpc2.
      { unfold run. rewrite procs_status_ne by done. unfold σ1. by apply procs_status. }
      destruct (grant_step (sem := sem) (cv := cv) (lid := lid) ps_nodup (pid_at st) cap C' H ([] ++ [c])
        (run j (k 0) σ1) i c (with_status (Waking lid o) pc) n []) as (σ' & Hstep' & Hd' & _ & Hrest); try done.
      * intros Hin. apply (Hfresh n Hin). rewrite <- Hn. by left.
      * lia.
      * intros a Ha. set_solver.
      * exists σ'. split; [eapply rtc_l; [exact Hstep|by apply rtc_once]|]. split.
        -- eapply seen_after; [exact Hsame|exact Hw'| |exact Hd']. unfold zlen in *. simpl. lia.
        -- unfold is_at. by rewrite Hrest.
    + destruct Hres as [Hw' Hp']. exists (run j (k 0) σ1). split; [by apply rtc_once|]. split; [|done].
      eapply seen_after; [exact Hsame|exact Hw'|lia|exact Hd2].
Qed.

Lemma broadcast_seen : pr_status pj = Running (VisF (CCvarBroadcast cv) k) ->
  wp (broadcast_cvar ci) (fun r s' => r = true /\ exists σ', rtc (sstep true) σ σ' /\ seen s' σ' /\
    is_at j (Running (observe (k 0))) σ') ((st, sc), sy).
Proof.
  intros Hst. destruct p_apart as [HpW HpC]. pose proof (dp_cvar _ _ _ _ _ _ _ _ _ _ Hd) as Hcv.
  destruct (cvar_world_lock _ _ _ _ _ _ _ _ _ _ _ Hw) as (HndH & HndW & Hfresh & Hperm & _).
  eapply wp_mono; [apply wp_preserves; [apply broadcast_cvar_frame|]; by apply (broadcast_cvar_ok ci li C H W R Wt S st sc sy)|].
  intros r s' [[-> (ns & Hns & Hw' & Hp')] [Hsame _]]. split; [done|]. cbn [blocks_of sync_blocks] in Hsame.
  set (n := Z.to_nat (permits sy li `min` zlen C)) in *.
  set (σ1 := set_procs (woken (cv := cv) <$> y_procs σ) σ).
  assert (y_procs σ1 !! j = Some pj) as Hpj1.
  { simpl. rewrite list_lookup_fmap, Hpj. simpl. unfold woken, is_sleeping. by rewrite Hst. }
  destruct (depicts_goes_on [] H (W ++ C) σ1 (k 0)) as [Hd1 Hat]; [by apply broadcast_depicts|done|set_solver|set_solver|].
  assert (sstep true σ (run j (k 0) σ1)) as Hstep.
  { apply (answer_step σ j pj (CCvarBroadcast cv) k 0 σ1 Hpj Hst). unfold answers. cbn. unfold broadcast.
    by rewrite bool_decide_false by naive_solver. }
  assert (zlen ns = Z.of_nat n) as Hlen.
  { apply (f_equal length) in Hns. rewrite !length_fmap, length_take in Hns. unfold zlen in *. lia. }
  assert (Hall : take n C ++ (W ++ drop n C) ≡ₚ W ++ C).
  { rewrite (assoc_L (++)), (Permutation_app_comm (take n C)), <- (assoc_L (++)). by rewrite take_drop. }
  destruct (grants_steps (sem := sem) (cv := cv) (lid := lid) ps_nodup (pid_at st) cap [] (W ++ drop n C) (take n C)
    ns H (run j (k 0) σ1)) as (σ' & Hsteps & Hd' & Hrest).
  - eapply depicts_perm; [|exact Hd1]. intros a. by rewrite Hall.
  - rewrite Hall. by apply NoDup_fmap_1 in HndW.
  - done.
  - apply (NoDup_fmap_1 Some). rewrite fmap_app, Hns. apply NoDup_app. rewrite fmap_app, NoDup_app in HndW.
    split; [by apply NoDup_fmap_2; [apply _|]|]. split.
    + intros x Hx Hin. apply list_elem_of_fmap in Hx as (m & -> & Hm). apply (Hfresh m Hm). rewrite fmap_app, elem_of_app. right.
      rewrite fmap_take in Hin. by apply subseteq_take in Hin.
    + rewrite fmap_take. eapply sublist_NoDup; [apply HndW|apply sublist_take].
  - unfold zlen in *. rewrite length_take. lia.
  - exists σ'. split; [by eapply rtc_l|]. split.
    + eapply seen_after; [exact Hsame|exact Hw'| |exact Hd']. unfold zlen in *. rewrite length_app, length_reverse. lia.
    + unfold is_at. rewrite (Hrest j p Hp); [done|]. intros Hin. apply HpC. by apply subseteq_take in Hin.
Qed.
End operations.

(** [op] on [s] has an outcome, to which [σ] comes by steps of its processes. *)
Definition simulated {um : UserMachine} (ci li : Z) (sem : bool) (cv lid : Z) (ps Wt S : list addr) {A}
    (op : M sync_st A) (s : sync_st) (σ : sys) (outcome : A -> sys -> Prop) : Prop :=
  exists r s', op s = Some (r, s') /\ exists σ', rtc (sstep true) σ σ' /\ seen ci li sem cv lid ps Wt S s' σ' /\ outcome r σ'.

(** ** Properties *)

(** C8: the operations on a lock or semaphore and on a condition variable refine
    the abstract kernel the user programs run on, as a forward simulation.  Let
    the state of the kernel be that of an abstract state in which the running
    process makes the call.  Then the operation ends, without undefined behaviour,
    in the state of an abstract state that is reached by steps of the processes:
    the caller goes on with the answer the kernel gives, or sleeps on the
    condition variable, and whoever the kernel hands the lock to has taken it.
    [acquire] makes the caller wait exactly when its call has no answer yet. *)
Theorem kernel_monitor_refines {um : UserMachine} (ci li : Z) (sem : bool) (cv lid : Z) (ps Wt S : list addr)
    (C : list addr) (H : list Z) (W R : list addr) (st : store) (sc : sched_t) (sy : sync_t) (σ : sys)
    (p : addr) (b : pcb) (j : nat) (pj : proc) (k : Z -> prog Z) :
  NoDup ps -> cvar_world ci li C H W R Wt S st sc sy ->
  depicts sem cv lid ps (pid_at st) (permits sy li + zlen H) C H W σ ->
  st_pcbs st !! p = Some b -> 0 < p_pid b -> p ∉ W ++ C ++ R ++ Wt ++ S -> idle_proc sc <> Some p ->
  ps !! j = Some p -> y_procs σ !! j = Some pj ->
  let calls A (e : callE A) (k : A -> prog Z) := pr_status pj = Running (VisF e k) in
  let goes_on v := is_at j (Running (observe (k v))) in
  let does A (op : M sync_st A) := simulated ci li sem cv lid ps Wt S op ((st, sc), sy) σ in
  (calls Z (lock_call sem lid) k -> does Z (acquire li p false) (fun r σ' =>
     (r = ERROR /\ goes_on (-1) σ') \/ (r = ACQUIRED /\ goes_on 0 σ') \/
     (r = NEED /\ σ' = σ /\ forall v σ1, ~ answers true j σ (lock_call sem lid) v σ1))) /\
  (calls Z (unlock_call sem lid) k -> does bool (release li p false) (fun r => goes_on (if r then 0 else -1))) /\
  (sem = false -> calls Z (CCvarWait cv lid) k -> does bool (wait_cvar ci li p) (fun r =>
     is_at j (if r then Sleeping cv lid (observe (k 0)) else Running (observe (k (-1)))))) /\
  (calls Z (CCvarSignal cv) k -> does bool (signal_cvar ci) (fun r σ' => r = true /\ goes_on 0 σ')) /\
  (calls Z (CCvarBroadcast cv) k -> does bool (broadcast_cvar ci) (fun r σ' => r = true /\ goes_on 0 σ')).
Proof.
  intros Hnd Hw Hd Hb Hpid Hout Hidle Hp Hpj calls goes_on does. split_and!; intros.
  - eapply wp_run, acquire_seen; eauto.
  - eapply wp_run, release_seen; eauto.
  - eapply wp_run, wait_seen; eauto.
  - destruct (proj1 (wp_run _ _ _) ltac:(eapply signal_seen; eauto)) as (r & s' & Hrun & -> & σ' & Hs).
    exists true, s'. split; [done|]. exists σ'. by destruct_and!.
  - destruct (proj1 (wp_run _ _ _) ltac:(eapply broadcast_seen; eauto)) as (r & s' & Hrun & -> & σ' & Hs).
    exists true, s'. split; [done|]. exists σ'. by destruct_and!.
Qed.

(** The process 1 broadcasts on the condition variable 3, where 9 and 10 sleep; 8
    holds one of the two permits of the lock 2. *)
Definition demo_abstract : sys :=
  let done : itree' callE Z := RetF 0 in
  let process (n : Z) (st : status) := {| pr_pid := n; pr_parent := None; pr_status := st |} in
  {| y_procs := [process 1 (Running (VisF (CCvarBroadcast 3) (fun r => ITreeDefinition.Ret r)));
       process 8 Gone; process 9 (Sleeping 3 2 done); process 10 (Sleeping 3 2 done)];
     y_pipes := ∅; y_locks := {[2 := {| lk_sem := false; lk_cap := 2; lk_holders := [1%nat] |}]}; y_cvars := {[3]} |}.
Definition demo_places : list addr := [1; 8; 9; 10]%positive.

Lemma demo_depicts :
  depicts false 3 2 demo_places (pid_at demo_cv_procs) 2 [9%positive; 10%positive] [8] [] demo_abstract.
Proof.
  split.
  - intros [|[|[|[|i]]]] a Ha; try done; injection Ha as <-; eexists; by split.
  - done.
  - by apply (bool_decide_unpack _).
  - intros a. cbn [app]. unfold demo_places. set_solver.
  - exists [1%nat]. split; [apply lookup_singleton_eq|]. split; [apply NoDup_singleton|done].
  - simpl. set_solver.
  - intros [|[|[|[|i]]]] a p Ha Hp; try done; injection Hp as <-; (split; [by intros ?%not_elem_of_nil|done]).
  - intros [|[|[|[|i]]]] a p Ha Hp; try done; injection Ha as <-; injection Hp as <-;
      (split; [intros Hin|intros Hs]); try done; try (by eexists); try (by apply (bool_decide_unpack _)).
    all: by apply (bool_decide_unpack _) in Hin || by exfalso; revert Hin; apply (bool_decide_unpack _).
  - done.
Defined.

Lemma kernel_monitor_refines_witness :
  exists s' σ', broadcast_cvar 0 ((demo_cv_procs, demo_sched), demo_cv_sync false) = Some (true, s') /\
    rtc (sstep (H := demo_programs) true) demo_abstract σ' /\
    seen 0 1 false 3 2 demo_places [4%positive] [5%positive; 6%positive] s' σ' /\
    is_at 0 (Running (RetF 0)) σ'.
Proof.
  destruct (@kernel_monitor_refines demo_programs 0 1 false 3 2 demo_places [4%positive] [5%positive; 6%positive]
    [9%positive; 10%positive] [8] [] [2%positive; 3%positive] demo_cv_procs demo_sched (demo_cv_sync false) demo_abstract
    1 (set_p_cvar_lock_id 1 (set_p_pid 1 (demo_pcb RUNNING 0 []))) 0
    {| pr_pid := 1; pr_parent := None; pr_status := Running (VisF (CCvarBroadcast 3) (fun r => ITreeDefinition.Ret r)) |}
    (fun r => ITreeDefinition.Ret r)
    ltac:(by apply (bool_decide_unpack _)) (demo_cv_world false) demo_depicts eq_refl ltac:(done)
    ltac:(by apply (bool_decide_unpack _)) ltac:(done) eq_refl eq_refl) as (_ & _ & _ & _ & Hb).
  destruct (Hb eq_refl) as (r & s' & Hrun & σ' & Hsteps & Hseen & -> & Hat). exists s', σ'. exact (conj Hrun (conj Hsteps (conj Hseen Hat))).
Defined.
